(* ===== verification/_CoqProject ===== *)
-Q . S2P
Prelude.v
Lock.v
Boot.v
Frames.v
Pmm.v
Vmm.v
VmmSpace.v
System.v
Chain.v
Sched.v
Runqueue.v
Balance.v
Schedule.v
SchedDemo.v
Mutex.v
Wakeup.v
Sleep.v
Preserve.v
Ring.v
Kbd.v
KbdDemo.v
Dll.v
Slab.v
SlabProof.v
SlabSpec.v
SlabDemo.v
Kmalloc.v
KmallocProof.v
KmallocSpec.v
KmallocDemo.v
Vma.v
VmaTree.v
VmaFix.v
VmaSpec.v
VmaOps.v
VmaDemo.v
AddressSpace.v
AddressDemo.v
Strings.v
Printf.v
Serial.v
Tar.v
Acpi.v
Devices.v
Tables.v
Syscall.v
Handlers.v
Uprintf.v
Elf.v
Task.v
TaskRing.v
TaskSpec.v
Init.v
Reaper.v
TaskDemo.v
SchedSystem.v
Cpu.v
CpuSpec.v
Ap.v
ApDemo.v
Crash.v
Selftest.v
Entry.v
Report.v
Vfs.v
VfsSpec.v
VfsDemo.v
Loader.v
LoaderSpec.v
LoaderDemo.v
