(* ===== verification/Prelude.v ===== *)
(** * Kernel-SMP: a verification library for an x86_64 multi-core kernel

    The program is a small kernel in C with its UEFI boot loader: the loader
    puts the kernel's image in memory and hands it a memory map; a physical
    memory manager hands out frames; a virtual memory manager builds page tables
    in them; slabs and a heap give out smaller pieces; every task has a tree of
    virtual memory areas; a scheduler runs tasks on up to 32 CPUs; spinlocks and
    mutexes protect the shared state; a keyboard driver feeds a buffer that
    tasks block on; user tasks, loaded from ELF files in a ramdisk, reach the
    kernel through system calls; a log goes out over the serial port.

    ** How the code is modelled

    A routine is a function of type [M S A] (this file): from a state record to
    an outcome, which is a result with a new state, a [Fault] (a dereference
    outside the memory the routine owns), a [Panic] ([kpanic], [panic]) or a
    [Hang] (a wait that nobody can end, a pointer chase that never ends). Integers
    are [Z] with the wrap-around of their C type written out ([w8], [w32], [w64],
    [int32]). Memory reached by pointers is a finite map from addresses; linked
    structures keep their pointers, so aliasing and stale links are in the model.
    Loops whose bound is in the data run on fuel, one or two more than the number
    of nodes in memory; every theorem about such a loop shows that the fuel is
    enough, and a state in which the C loop does not end exhausts it ([Hang]).
    Path resolution has fuel for 257 components, more than a buffer of 256 bytes
    can hold; the loop of the boot loader over the memory map takes its fuel as an
    argument, and two turns for each disturbance by the firmware and one more are
    shown to be enough.

    ** Files

    - [Lock]: [kernel/atomic/atomic.c] (spinlocks) and the interrupt flag. One
      CPU's view ([spin_lock], [spin_unlock], [critical]) and, in module
      [Ticket], all interleavings of the atomic accesses of 32 CPUs in
      [spin_lock], [spin_unlock] and [spin_trylock].
    - [Boot]: [common/boot_info.h], [common/efi_descriptor.h].
    - [Frames]: what the frame allocator promises, as the classes
      [FrameAllocator] and [FrameAllocatorOk]; its clients are verified against
      them.
    - [Pmm]: [kernel/memory/pmm.c], and the instance of [Frames].
    - [Vmm], [VmmSpace], [System]: [kernel/memory/vmm.c]; mapping and translation,
      address spaces, and the two put together on [Pmm].
    - [Chain], [Sched], [Runqueue], [Balance], [Schedule], [Wakeup], [Sleep],
      [SchedDemo]: [kernel/sched/sched.c] with the timer interrupt; the lists as
      sequences, load balancing, the scheduling step, waking, sleeping.
    - [Preserve], [SchedSystem]: what no routine of the scheduler changes, and
      all processors together, as a transition system whose steps are the
      routines of the scheduler, each run by one CPU.
    - [Task], [TaskRing], [TaskSpec], [Reaper], [TaskDemo]: the creation of tasks,
      [kernel/arch/x86_64/sched/context.c], and the rest of [sched.c]: the idle
      and main tasks and the reaper. The ring of all tasks is a cyclic sequence.
    - [Mutex]: the mutexes of [kernel/atomic/atomic.c].
    - [Ring]: circular buffers, used by [Kbd] and [Serial].
    - [Kbd], [KbdDemo]: [kernel/arch/x86_64/drivers/ps2/ps2_kbd.c].
    - [Dll], [Slab], [SlabProof], [SlabSpec], [SlabDemo]: [kernel/memory/slab.c].
    - [Kmalloc], [KmallocProof], [KmallocSpec], [KmallocDemo]:
      [kernel/memory/kmalloc.c].
    - [Vma], [VmaTree], [VmaFix], [VmaSpec], [VmaOps], [VmaDemo]:
      [kernel/memory/vma.c]; the tree, and the operations on address spaces.
    - [AddressSpace], [AddressDemo]: the areas on [Vmm] and any frame allocator,
      and on the concrete machine of [System].
    - [Strings]: [common/std_funcs.c], over a byte memory in which an access
      outside it faults; the memory of the files below.
    - [Printf]: [common/io.c], and its reference [render].
    - [Serial]: [kernel/arch/x86_64/serial.c].
    - [Tar]: [kernel/fs/initrd.c]; [Elf]: [kernel/fs/elf.c].
    - [Acpi]: [kernel/arch/x86_64/acpi.c] and the scan of [kernel/smp/smp.c].
    - [Devices]: [kernel/cpu/apic/apic.c], [kernel/cpu/apic/ioapic.c],
      [kernel/arch/x86_64/drivers/pit.c] and
      [kernel/arch/x86_64/drivers/ps2/i8042.c].
    - [Tables]: [kernel/arch/x86_64/gdt.c] and [kernel/arch/x86_64/idt.c], with
      the interrupt dispatch.
    - [Syscall], [Handlers]: [kernel/syscall/syscall.c],
      [kernel/syscall/syscall_funcs.c] and the wrappers of [common/userlib.h];
      [Uprintf]: [common/userlib.c], from the user task to the log; [Init]:
      [user/init.c], the first program, and the first user task of the other
      processors, over a contract of the kernel ([kernel_ok]).
    - [Cpu], [CpuSpec]: [kernel/cpu/cpu.c] and [kernel/include/cpu/cpu.h], with
      control and model-specific registers.
    - [Ap], [ApDemo]: the start of a processor in [kernel/smp/smp.c].
    - [Crash]: [kernel/arch/x86_64/panic.c].
    - [Selftest]: [ioapic_init], the heap test of [kernel/src/main.c] and the
      squares of [kernel/include/test.h].
    - [Entry]: [kernel_main], [kernel_main_high], [kernel_main_ap] and the kernel
      tasks of [kernel/src/main.c] and [kernel/smp/smp.c], as programs over the
      calls they make. What each call needs and gives is a table of that file,
      and the class [Staged] assumes it; only the order of the calls is checked.
    - [Report]: [kmalloc_dump], [exception_handler], [idle_task] and the printing
      of numbers: components joined to the log.
    - [Vfs], [VfsSpec], [VfsDemo]: [kernel/fs/vfs.c], on the mutexes of [Mutex].
    - [Loader], [LoaderSpec], [LoaderDemo]: the boot loader, [boot/src/main.c],
      [boot/src/kernel_loader.c], [boot/src/memory_map.c], [boot/src/acpi.c],
      [boot/src/gop.c], [boot/src/ramdisk.c], [boot/src/uefi_shims.c].

    The files named [...Demo] and [System] hold concrete states and the theorems
    applied at them.

    ** What the theorems show

    - Locks: mutual exclusion in every interleaving, with counters that wrap, in
      which no [spin_trylock] is overtaken by 2^32 tickets, and two owners when
      one is; a waiting CPU is served in the order of the tickets; no deadlock.
    - Frames: which frames are free after start-up, that an allocation takes
      exactly the frames it returns and which ones those are (first fit, the
      hint), release, and the round trip.
    - Page tables: mapping and unmapping change the translation of exactly the
      requested pages when there are frames for the tables, and what happens when
      there are not; that the software walk
      is the processor's walk, creation and destruction of address spaces
      including which frames are given back.
    - Scheduler: every list operation is the corresponding operation on
      sequences (refinement), what a scheduling step chooses and saves, that no
      task becomes current twice, who is woken and where it goes, that sleepers
      are kept in the order of their deadlines and wake exactly when due; in
      every state the processors reach by interleaving the routines of the
      scheduler, each has a current task that runs or has given up its
      processor, no task is current twice and none is lost, as long as no task
      is woken between its blocking and the switch away from it.
    - Tasks: what a new task looks like and where it is linked; the reaper gives
      back exactly what the dead owned, and can do so while a task still runs.
    - Mutexes: locking and the uncontended release; the contended release loses
      the mutex.
    - Slabs and heap: allocations are fresh and disjoint, releases take back
      exactly their block; a released block of the heap is joined with the free
      blocks that touch it, and the list of blocks is otherwise as it was;
      double release panics.
    - Areas: search, insertion with rebalancing (order, black root, red-black
      invariant), removal; mapping and unmapping change the accessible addresses
      of a task by exactly the range, and where they do not. On the page tables,
      every accessible address keeps a page of its own, apart from the tables and
      from the pages of other addresses, and unmapping frees exactly its frames.
    - Keyboard: the decoder on every byte, the circular buffer as a bounded
      queue.
    - Strings and formats: copies and comparisons, that scans for a terminator
      end on every memory, that vsnprintf prints what a reference interpreter of
      its format says, that printed numbers read back, and where it overruns.
    - Log: a bounded queue that keeps the most recent characters; kprintf on top
      of vsnprintf; transmission in order.
    - Ramdisk, ACPI, ELF: lookups find the first match and end; the scan for
      processors; what the loader copies where, and the heap it leaves.
    - Devices and tables: the sequences of writes the drivers make whatever the
      device answers, the routing of interrupts, the descriptors as the
      processor reads them, one acknowledgement per interrupt.
    - System calls: dispatch, what user tasks can print, the user heap as a
      well-formed stack of blocks; the user library and the kernel agree on the
      calls; formatted output of a task arrives in the log; a reader of the
      keyboard can miss a key, and can come to run on two processors; what the
      first program prints, given the answers of the kernel.
    - Start: given the table of what calls need and give, every processor makes
      every call after the calls it relies on, and reaches its idle loop; without
      a table of interrupt controllers it does not.
    - Panics: panic sends its report whoever holds the lock of the log, kpanic
      sends nothing, and the details of an exception stay in the log.
    - Processors: the contexts, descriptors and registers the set-up leaves, and
      what is in memory when the start-up commands are sent.
    - Files: path resolution is a component-by-component search through the
      mounts, locks are balanced, mounting, and reading a directory.
    - Boot loader: the image in memory is the one the program headers describe;
      leaving the firmware ends, with the map that belongs to the exit, when the
      firmware disturbs it finitely often and has memory.

    Theorems of kind error state where the code does not do what it means to;
    they are proved of the code as it is.

    ** Not modelled

    Assembly: the interrupt and system-call stubs, the trampoline, the loading
    of segment and table registers, except for their effects where a routine
    relies on them. Inline helpers of the headers that nothing calls
    ([pack_rgb], [io_wait], [outw], [get_current_cpu_id]) and the console of
    the boot loader ([boot_log]). The message of [task_exit] is left out,
    since the log is not part of the scheduler's state; that of the reaper
    goes to [TaskEnv]. [Vmm] records the calls of [sync_tlb] and takes them to
    return; what they do to the local APIC is in [Devices]. What is outside
    the repository is the operations of a class: the firmware ([Uefi];
    [UefiOk] is its documented behaviour where every allocation succeeds,
    [MapOk] that of the memory map, with the assumption that it disturbs the
    loader finitely often), the file systems behind the function pointers of
    the nodes and [strtok_r] ([Drivers]); devices are the sequences of values
    they return. The interface [VmaEnv] of the areas is instantiated with the
    page tables and the frames, while the heap of the descriptors and the
    mutex stay behind [DescHeap]; [TaskEnv] of the creation of tasks is
    instantiated only by a small example environment. Concurrency is modelled
    where it is the point (module [Ticket], stealing in [Schedule], the
    routines of the scheduler in [SchedSystem], where creation and reaping are
    no steps, the races of [Reaper] and [Handlers]); elsewhere a routine runs
    alone, with its locks taken and released. *)

From stdpp Require Export base numbers gmap list strings.

#[global] Open Scope Z_scope.

(** ** Outcomes and the state monad

    A kernel routine is a state-passing function whose result is an outcome:
    it returns, it dereferences an address outside the memory it owns, it
    calls [panic]/[kpanic], or it spins forever (a spin on a lock that nobody
    can release, or a pointer chase that never ends). *)

Inductive outcome (A : Type) : Type :=
| Ok (a : A)
| Fault
| Panic
| Hang.
Arguments Ok {A} a.
Arguments Fault {A}.
Arguments Panic {A}.
Arguments Hang {A}.

Definition M (S A : Type) : Type := S -> outcome (A * S).

Definition ret {S A} (a : A) : M S A := fun s => Ok (a, s).

Definition bind {S A B} (m : M S A) (f : A -> M S B) : M S B := fun s =>
  match m s with
  | Ok (a, s') => f a s'
  | Fault => Fault
  | Panic => Panic
  | Hang => Hang
  end.

Definition get {S} : M S S := fun s => Ok (s, s).
Definition put {S} (s' : S) : M S unit := fun _ => Ok (tt, s').
Definition modify {S} (f : S -> S) : M S unit := fun s => Ok (tt, f s).
Definition gets {S A} (f : S -> A) : M S A := fun s => Ok (f s, s).
Definition fault {S A} : M S A := fun _ => Fault.
Definition panic {S A} : M S A := fun _ => Panic.
Definition hang {S A} : M S A := fun _ => Hang.

Declare Scope kernel_scope.
Delimit Scope kernel_scope with kernel.
Notation "x <- m ;; k" := (bind m (fun x => k))
  (at level 100, m at next level, right associativity) : kernel_scope.
Notation "m ;;; k" := (bind m (fun _ => k))
  (at level 100, right associativity) : kernel_scope.
#[global] Open Scope kernel_scope.

(** [if (c) stmt]: the statement runs only when the condition holds. *)
Definition when {S} (c : bool) (m : M S unit) : M S unit :=
  if c then m else ret tt.

(** The value of an optional cell, a fault when there is none. *)
Definition deref {S A} (o : option A) : M S A :=
  match o with Some a => ret a | None => fault end.

(** Total-correctness weakest precondition: the routine returns, and what it
    returns satisfies [Q]. *)
Definition wp {S A} (m : M S A) (Q : A -> S -> Prop) (s : S) : Prop :=
  match m s with
  | Ok (a, s') => Q a s'
  | _ => False
  end.

Section wp_rules.
Context {S : Type}.
Implicit Types s : S.

Lemma wp_ret {A} (a : A) (Q : A -> S -> Prop) s : Q a s -> wp (ret a) Q s.
Proof. done. Qed.

Lemma wp_bind {A B} (m : M S A) (f : A -> M S B) (Q : B -> S -> Prop) s :
  wp m (fun a s' => wp (f a) Q s') s -> wp (bind m f) Q s.
Proof. unfold wp, bind. by destruct (m s) as [[a s']| | |]. Qed.

Lemma wp_mono {A} (m : M S A) (Q Q' : A -> S -> Prop) s :
  wp m Q s -> (forall a s', Q a s' -> Q' a s') -> wp m Q' s.
Proof. unfold wp. destruct (m s) as [[a s']| | |]; eauto. Qed.

Lemma wp_ok {A} (m : M S A) (Q : A -> S -> Prop) s :
  wp m Q s <-> exists a s', m s = Ok (a, s') /\ Q a s'.
Proof.
  unfold wp. split.
  - destruct (m s) as [[a s']| | |]; [eauto|done..].
  - by intros (a & s' & -> & HQ).
Qed.

Lemma bind_ok {A B} (m : M S A) (f : A -> M S B) s a s' :
  m s = Ok (a, s') -> bind m f s = f a s'.
Proof. unfold bind. by intros ->. Qed.

Lemma bind_inv {A B} (m : M S A) (f : A -> M S B) s b s' :
  bind m f s = Ok (b, s') -> exists a s1, m s = Ok (a, s1) /\ f a s1 = Ok (b, s').
Proof. unfold bind. destruct (m s) as [[a s1]| | |]; [by exists a, s1|done..]. Qed.

Lemma bind_bind {A B C} (m : M S A) (f : A -> M S B) (g : B -> M S C) s :
  bind (bind m f) g s = bind m (fun a => bind (f a) g) s.
Proof. unfold bind. by destruct (m s) as [[a s']| | |]. Qed.
End wp_rules.

(** ** Machine integers

    [uintN_t] values are kept as [Z] in [0, 2^N), with the wrap-around of
    every arithmetic operation written out. *)

Definition w8 (x : Z) : Z := x mod 2 ^ 8.
Definition w32 (x : Z) : Z := x mod 2 ^ 32.
Definition w64 (x : Z) : Z := x mod 2 ^ 64.
(** conversion of an unsigned value to C's 32-bit [int] *)
Definition int32 (x : Z) : Z :=
  let y := w32 x in if y <? 2 ^ 31 then y else y - 2 ^ 32.

(** The null pointer. *)
Definition NULL : Z := 0.

Definition PAGE_SIZE : Z := 4096.
Definition HHDM_OFFSET : Z := 0xFFFF800000000000.

(** [(x) & ~0xFFFULL] and [((x) + 0xFFF) & ~0xFFFULL] on 64-bit values *)
Definition PAGE_ALIGN_DOWN (x : Z) : Z := Z.land x (w64 (Z.lnot 0xFFF)).
Definition PAGE_ALIGN_UP (x : Z) : Z := PAGE_ALIGN_DOWN (w64 (x + 0xFFF)).

Lemma w64_small x : 0 <= x < 2 ^ 64 -> w64 x = x.
Proof. apply Z.mod_small. Qed.
Lemma w32_small x : 0 <= x < 2 ^ 32 -> w32 x = x.
Proof. apply Z.mod_small. Qed.
Lemma w8_small x : 0 <= x < 2 ^ 8 -> w8 x = x.
Proof. apply Z.mod_small. Qed.
Lemma w64_range x : 0 <= w64 x < 2 ^ 64.
Proof. by apply Z.mod_pos_bound. Qed.
Lemma w32_range x : 0 <= w32 x < 2 ^ 32.
Proof. by apply Z.mod_pos_bound. Qed.
Lemma w8_range x : 0 <= w8 x < 2 ^ 8.
Proof. by apply Z.mod_pos_bound. Qed.

(** Bits above a bound on a non-negative value are zero. *)
Lemma testbit_above x k n : 0 <= x < 2 ^ k -> k <= n -> Z.testbit x n = false.
Proof.
  intros Hx Hn. destruct (decide (x = 0)) as [->|]; [apply Z.bits_0|].
  apply Z.bits_above_log2; [lia|].
  assert (0 <= k) by (destruct (decide (0 <= k)); [done|]; rewrite Z.pow_neg_r in Hx; lia).
  apply Z.log2_lt_pow2; [lia|]. pose proof (Z.pow_le_mono_r 2 k n). lia.
Qed.

(** A non-negative value below [2^k] is determined by its low [k] bits. *)
Lemma range_of_bits x k :
  0 <= x -> 0 <= k -> (forall n, k <= n -> Z.testbit x n = false) -> x < 2 ^ k.
Proof. intros. by apply Z.bounded_iff_bits_nonneg. Qed.

(** Clearing the low [k] bits of a 64-bit value rounds down to [2^k]. *)
Lemma land_lnot_ones x k :
  0 <= k <= 64 -> 0 <= x < 2 ^ 64 ->
  Z.land x (w64 (Z.lnot (Z.ones k))) = x - x mod 2 ^ k.
Proof.
  intros Hk Hx.
  assert (x - x mod 2 ^ k = Z.ldiff x (Z.ones k)) as ->.
  { rewrite Z.ldiff_ones_r, Z.shiftl_mul_pow2, Z.shiftr_div_pow2 by lia.
    pose proof (Z.div_mod x (2 ^ k)). lia. }
  apply Z.bits_inj'. intros n Hn. unfold w64. rewrite Z.land_spec, Z.ldiff_spec.
  destruct (decide (n < 64)).
  - rewrite Z.mod_pow2_bits_low by lia. by rewrite Z.lnot_spec by lia.
  - by rewrite (testbit_above x 64) by lia.
Qed.

Lemma page_align_down_eq x :
  0 <= x < 2 ^ 64 -> PAGE_ALIGN_DOWN x = x - x mod PAGE_SIZE.
Proof. intros Hx. exact (land_lnot_ones x 12 ltac:(lia) Hx). Qed.

Lemma page_align_down_aligned x :
  0 <= x < 2 ^ 64 -> x mod PAGE_SIZE = 0 -> PAGE_ALIGN_DOWN x = x.
Proof. intros Hx Hm. rewrite page_align_down_eq by done. lia. Qed.

(** Rounding up: the least multiple of the page size not below the value. *)
Lemma page_align_up_bounds x :
  0 <= x < 2 ^ 64 - 0xFFF ->
  PAGE_ALIGN_UP x mod PAGE_SIZE = 0 /\ x <= PAGE_ALIGN_UP x < x + PAGE_SIZE.
Proof.
  intros Hx. unfold PAGE_ALIGN_UP. rewrite w64_small by lia.
  rewrite page_align_down_eq by lia. unfold PAGE_SIZE.
  split; [|Z.div_mod_to_equations; lia].
  apply Z.mod_divide; [lia|]. exists ((x + 0xFFF) / 4096).
  Z.div_mod_to_equations; lia.
Qed.

Lemma page_align_up_aligned x :
  0 <= x < 2 ^ 64 - 0xFFF -> x mod PAGE_SIZE = 0 -> PAGE_ALIGN_UP x = x.
Proof.
  intros Hx Hm. destruct (page_align_up_bounds x Hx) as [Ha Hb].
  unfold PAGE_SIZE in *. Z.div_mod_to_equations; lia.
Qed.

Lemma testbit_shift1 k j : 0 <= k -> Z.testbit (Z.shiftl 1 k) j = (j =? k).
Proof.
  intros Hk. rewrite Z.shiftl_1_l. rewrite Z.pow2_bits_eqb by done. apply Z.eqb_sym.
Qed.

Lemma land_bit_zero b k :
  0 <= k -> (Z.land b (Z.shiftl 1 k) =? 0) = negb (Z.testbit b k).
Proof.
  intros Hk. destruct (Z.eqb_spec (Z.land b (Z.shiftl 1 k)) 0) as [E|E].
  - assert (Z.testbit (Z.land b (Z.shiftl 1 k)) k = false) as Hz by (by rewrite E, Z.bits_0).
    rewrite Z.land_spec, testbit_shift1, Z.eqb_refl, andb_true_r in Hz by done. by rewrite Hz.
  - destruct (Z.testbit b k) eqn:Hb; [done|]. exfalso. apply E.
    apply Z.bits_inj'. intros n Hn. rewrite Z.land_spec, testbit_shift1, Z.bits_0 by done.
    destruct (Z.eqb_spec n k) as [->|]; [by rewrite Hb|by rewrite andb_false_r].
Qed.

(** [phys + HHDM_OFFSET]: the direct map's pointer to a physical address *)
Definition phys_to_virt (phys : Z) : Z := w64 (phys + HHDM_OFFSET).

(** A map of machine words whose missing cells are zero. *)
Definition rd (m : gmap Z Z) (a : Z) : Z := default 0 (m !! a).

Lemma rd_insert m a v b : rd (<[a := v]> m) b = if decide (a = b) then v else rd m b.
Proof.
  unfold rd. destruct (decide (a = b)) as [->|]; [by rewrite lookup_insert_eq|].
  by rewrite lookup_insert_ne.
Qed.

Lemma nodup_perm {A} (l l' : list A) : l ≡ₚ l' -> NoDup l -> NoDup l'.
Proof. by intros ->. Qed.

(** The fuel of a list walk is enough for any list of nodes. *)
Lemma fuel_enough {A} (ts : gmap Z A) l :
  NoDup l -> (forall u, u ∈ l -> is_Some (ts !! u)) -> (length l < S (size ts))%nat.
Proof.
  intros Hnd Hl. rewrite <-(size_list_to_set (C := gset Z) l Hnd), <-(size_dom ts).
  apply Nat.lt_succ_r, subseteq_size. intros u. rewrite elem_of_list_to_set, elem_of_dom. apply Hl.
Qed.

(** ** Loops *)

(** [for (x : l) body(x)] *)
Fixpoint mapM_ {S A} (f : A -> M S unit) (l : list A) : M S unit :=
  match l with
  | [] => ret tt
  | x :: l => f x ;;; mapM_ f l
  end.

(** [for (uint64_t i = start; i < stop; i += step) body(i)], the counter
    wrapping at 2^64. The fuel is the number of iterations of a loop whose
    counter does not wrap; a counter that wraps starts over and exhausts it. *)
Fixpoint for_loop {S} (fuel : nat) (i stop step : Z) (body : Z -> M S unit) : M S unit :=
  if i <? stop then
    match fuel with
    | O => hang
    | Datatypes.S fuel => body i ;;; for_loop fuel (w64 (i + step)) stop step body
    end
  else ret tt.

Definition for_u64 {S} (start stop step : Z) (body : Z -> M S unit) : M S unit :=
  for_loop (Z.to_nat ((stop - start) / step + 1)) start stop step body.

(** The values the counter takes. *)
Fixpoint steps (n : nat) (i step : Z) : list Z :=
  match n with
  | O => []
  | Datatypes.S n => i :: steps n (i + step) step
  end.

Lemma length_steps n i step : length (steps n i step) = n.
Proof. revert i. induction n as [|n IH]; intros i; simpl; [done|]. by rewrite IH. Qed.

Lemma elem_of_steps n i step x :
  x ∈ steps n i step <-> exists k, 0 <= k < Z.of_nat n /\ x = i + k * step.
Proof.
  revert i. induction n as [|n IH]; intros i; simpl.
  - split; [by intros ?%not_elem_of_nil|intros (k & ? & ?); lia].
  - rewrite elem_of_cons, IH. split.
    + intros [->|(k & Hk & ->)]; [exists 0; lia|exists (k + 1); lia].
    + intros (k & Hk & ->). destruct (decide (k = 0)) as [->|]; [left; lia|].
      right. exists (k - 1). lia.
Qed.

Lemma for_loop_eq {S} fuel n i stop step (body : Z -> M S unit) s :
  0 <= i -> 0 < step -> i + Z.of_nat n * step < 2 ^ 64 -> (n <= fuel)%nat ->
  stop <= i + Z.of_nat n * step -> (n <> 0%nat -> i + (Z.of_nat n - 1) * step < stop) ->
  for_loop fuel i stop step body s = mapM_ body (steps n i step) s.
Proof.
  revert fuel i s. induction n as [|n IH]; intros fuel i s Hi Hst Hw Hf Hstop Hlast; simpl.
  - destruct fuel; simpl; (destruct (Z.ltb_spec i stop); [lia|done]).
  - destruct fuel as [|fuel]; [lia|]. simpl.
    destruct (Z.ltb_spec i stop) as [Hlt|]; [|specialize (Hlast ltac:(lia)); nia].
    unfold bind. destruct (body i s) as [[[] s']| | |]; try done.
    rewrite w64_small by lia. apply IH; lia.
Qed.

(** Without wrap-around a counted loop visits exactly the multiples below
    the bound. *)
Lemma for_u64_eq {S} n start stop step (body : Z -> M S unit) s :
  0 <= start -> 0 < step -> start <= stop -> stop + step < 2 ^ 64 ->
  n = Z.to_nat ((stop - start + step - 1) / step) ->
  for_u64 start stop step body s = mapM_ body (steps n start step) s.
Proof.
  intros H0 Hs Hle Hw ->. unfold for_u64.
  assert (0 <= (stop - start + step - 1) / step) by (apply Z.div_pos; lia).
  pose proof (Z.div_mod (stop - start + step - 1) step).
  pose proof (Z.mod_pos_bound (stop - start + step - 1) step Hs).
  pose proof (Z.div_mod (stop - start) step).
  pose proof (Z.mod_pos_bound (stop - start) step Hs).
  apply for_loop_eq; rewrite ?Z2Nat.id by lia; try nia.
Qed.

Lemma mapM_map {S A B} (f : B -> M S unit) (g : A -> B) l s :
  mapM_ f (g <$> l) s = mapM_ (fun x => f (g x)) l s.
Proof.
  revert s. induction l as [|x l IH]; intros s; simpl; [done|].
  unfold bind. destruct (f (g x) s) as [[[] s']| | |]; [apply IH|done..].
Qed.

Lemma steps_seqZ n i step : steps n i step = (fun k => i + k * step) <$> seqZ 0 (Z.of_nat n).
Proof.
  revert i. induction n as [|n IH]; intros i; [done|].
  rewrite seqZ_cons by lia. cbn [steps fmap list_fmap]. rewrite IH. f_equal; [lia|].
  replace (Z.pred (Z.of_nat (Datatypes.S n))) with (Z.of_nat n) by lia.
  rewrite <-Z.add_1_r, <-(fmap_add_seqZ 1 0). rewrite <-list_fmap_compose.
  apply list_fmap_ext. intros k x _. simpl. lia.
Qed.

(** A counted loop as a loop over its iteration numbers. *)
Lemma for_u64_runs {S} n start stop step (body : Z -> M S unit) s :
  0 <= start -> 0 < step -> start <= stop -> stop + step < 2 ^ 64 ->
  n = (stop - start + step - 1) / step ->
  for_u64 start stop step body s = mapM_ (fun k => body (start + k * step)) (seqZ 0 n) s.
Proof.
  intros H0 Hs Hle Hw ->. erewrite for_u64_eq by done.
  rewrite steps_seqZ, mapM_map, Z2Nat.id; [done|]. apply Z.div_pos; lia.
Qed.

(** A loop whose body is a total update of the state is a fold. *)
Lemma mapM_fold {S A} (f : A -> M S unit) (g : A -> S -> S) (P : S -> Prop) l s :
  P s -> (forall x s, x ∈ l -> P s -> f x s = Ok (tt, g x s) /\ P (g x s)) ->
  mapM_ f l s = Ok (tt, fold_left (fun s x => g x s) l s) /\ P (fold_left (fun s x => g x s) l s).
Proof.
  revert s. induction l as [|x l IH]; intros s HP Hf; simpl; [done|].
  destruct (Hf x s) as [E HP']; [by left|done|].
  rewrite (bind_ok _ _ _ _ _ E). apply IH; [done|]. intros y s' Hy. apply Hf. by right.
Qed.

(** A loop one of whose iterations faults, and whose others return or fault,
    faults. *)
Lemma mapM_fault {S A} (f : A -> M S unit) (P : S -> Prop) l a s :
  P s -> a ∈ l ->
  (forall x s, P s -> f x s = Fault \/ exists s', f x s = Ok (tt, s') /\ P s') ->
  (forall s, P s -> f a s = Fault) ->
  mapM_ f l s = Fault.
Proof.
  intros HP Ha Hf Hfa. revert s HP. induction l as [|x l IH]; intros s HP.
  { by apply not_elem_of_nil in Ha. }
  simpl. unfold bind at 1. apply elem_of_cons in Ha as [->|Ha]; [by rewrite Hfa|].
  destruct (Hf x s HP) as [->|(s' & -> & HP')]; [done|]. by apply IH.
Qed.

(** ** Automation *)

Create HintDb kernel.
#[export] Hint Resolve w64_range w32_range w8_range : kernel.

(** Splits a boolean test of the code and records it as a proposition. *)
Ltac case_bool :=
  match goal with
  | |- context [?x <? ?y] => destruct (Z.ltb_spec x y)
  | |- context [?x <=? ?y] => destruct (Z.leb_spec x y)
  | |- context [?x =? ?y] => destruct (Z.eqb_spec x y)
  end.

(** Proves a decidable closed proposition by evaluating its decision. *)
Ltac by_decide := apply (bool_decide_unpack _); vm_compute; exact I.
