(* ===== verification/Lock.v ===== *)
(** * Spinlocks, interrupt flags and critical sections

    Models [kernel/atomic/atomic.c] (the spinlock half) and
    [kernel/include/atomic/atomic.h].

    - [hart] is the part of the executing CPU a lock operation touches: its
      RFLAGS register, the per-CPU context [get_cpu()] returns and the global
      [g_lock_enabled].
    - [spin_lock], [spin_unlock] and [spin_trylock] are the routines as one
      CPU executes them with no interference: a spin on a ticket that is not
      being served never ends, so it is a [Hang].
    - [critical] is the code pattern every component uses around its shared
      state (save RFLAGS and disable interrupts, lock, body, unlock, restore).
    - Module [Ticket] is the lock as all CPUs run it, one atomic access per
      step, with the mutual-exclusion and first-come-first-served theorems. *)

From S2P Require Import Prelude.

(** ** Data *)

(** [spinlock_t] *)
Record spinlock := mkSpinlock { ticket : Z; current : Z; last_cpu : Z }.

(** [{ .ticket = 0, .current = 0, .last_cpu = -1 }] *)
Definition spinlock_init : spinlock := mkSpinlock 0 0 (-1).

(** The executing CPU: RFLAGS, the [cpu_id] of the context [get_cpu()] points
    at ([None] while [get_cpu()] is still null) and [g_lock_enabled]. *)
Record hart := mkHart { rflags : Z; cpu_id : option Z; g_lock_enabled : bool }.

(** A field of a larger state, by its read and write functions. *)
Record lens (S A : Type) := Lens { lget : S -> A; lset : A -> S -> S }.
Arguments Lens {S A} lget lset.
Arguments lget {S A} l s.
Arguments lset {S A} l a s.

Class LensOk {S A} (L : lens S A) : Prop := {
  lget_lset : forall a s, lget L (lset L a s) = a;
  lset_lset : forall a b s, lset L a (lset L b s) = lset L a s;
  lset_lget : forall s, lset L (lget L s) s = s;
}.

(** Two fields that do not overlap. *)
Class LensIndep {S A B} (L : lens S A) (K : lens S B) : Prop := {
  lget_lset_l : forall b s, lget L (lset K b s) = lget L s;
  lget_lset_r : forall a s, lget K (lset L a s) = lget K s;
  lset_comm : forall a b s, lset L a (lset K b s) = lset K b (lset L a s);
}.

(** States that contain the executing CPU. *)
Class HasHart (S : Type) := hart_of : lens S hart.
Class HasHartOk (S : Type) `{HasHart S} : Prop := #[export] hart_lens_ok :: LensOk (@hart_of S _).

Definition set_rflags (v : Z) (h : hart) : hart :=
  mkHart v (cpu_id h) (g_lock_enabled h).

(** ** Operations *)

Section ops.
Context {S : Type} `{HasHart S}.

(** [pushfq; pop f; cli]: the old flags are returned, IF (bit 9) cleared. *)
Definition spin_irq_save : M S Z :=
  h <- gets (lget hart_of) ;;
  modify (lset hart_of (set_rflags (Z.land (rflags h) (Z.lnot 0x200)) h)) ;;;
  ret (rflags h).

(** [push f; popfq] *)
Definition spin_irq_restore (f : Z) : M S unit :=
  h <- gets (lget hart_of) ;;
  modify (lset hart_of (set_rflags f h)).

(** [get_cpu()->cpu_id], a dereference of the per-CPU context. *)
Definition get_cpu_id : M S Z :=
  h <- gets (lget hart_of) ;; deref (cpu_id h).

Definition spin_lock (L : lens S spinlock) : M S unit :=
  h <- gets (lget hart_of) ;;
  if negb (g_lock_enabled h) then ret tt else
  l <- gets (lget L) ;;
  let my_ticket := ticket l in
  modify (lset L (mkSpinlock (w32 (ticket l + 1)) (current l) (last_cpu l))) ;;;
  l' <- gets (lget L) ;;
  if negb (current l' =? my_ticket) then hang else
  id <- get_cpu_id ;;
  modify (lset L (mkSpinlock (ticket l') (current l') (int32 id))).

Definition spin_unlock (L : lens S spinlock) : M S unit :=
  h <- gets (lget hart_of) ;;
  if negb (g_lock_enabled h) then ret tt else
  l <- gets (lget L) ;;
  modify (lset L (mkSpinlock (ticket l) (w32 (current l + 1)) (-1))).

Definition spin_trylock (L : lens S spinlock) : M S bool :=
  l <- gets (lget L) ;;
  let current_ticket := ticket l in
  let next_ticket := w32 (current_ticket + 1) in
  if negb (current l =? current_ticket) then ret false else
  if ticket l =? current_ticket then
    modify (lset L (mkSpinlock next_ticket (current l) (last_cpu l))) ;;;
    id <- get_cpu_id ;;
    modify (lset L (mkSpinlock next_ticket (current l) (int32 id))) ;;;
    ret true
  else ret false.

(** [f = spin_irq_save(); spin_lock(&L); body; spin_unlock(&L);
    spin_irq_restore(f);] with the two closing calls on every path out of
    the body. *)
Definition critical {A} (L : lens S spinlock) (body : M S A) : M S A :=
  f <- spin_irq_save ;;
  spin_lock L ;;;
  a <- body ;;
  spin_unlock L ;;;
  spin_irq_restore f ;;;
  ret a.
End ops.

(** ** Sequential behaviour *)

(** A lock nobody holds or waits for. *)
Definition lock_free (l : spinlock) : Prop := ticket l = current l.

(** Once locks are enabled the CPU has its context. *)
Definition hart_ok (h : hart) : Prop := g_lock_enabled h = true -> is_Some (cpu_id h).

#[global] Instance lock_free_dec l : Decision (lock_free l).
Proof. unfold lock_free. apply _. Defined.
#[global] Instance hart_ok_dec h : Decision (hart_ok h).
Proof. unfold hart_ok. apply _. Defined.

(** The lock word after an acquisition, and after the release. *)
Definition held (h : hart) (l : spinlock) : spinlock :=
  if g_lock_enabled h then
    mkSpinlock (w32 (ticket l + 1)) (current l) (int32 (default 0 (cpu_id h)))
  else l.

Definition unheld (h : hart) (l : spinlock) : spinlock :=
  if g_lock_enabled h then mkSpinlock (ticket l) (w32 (current l + 1)) (-1) else l.

Definition released (h : hart) (l : spinlock) : spinlock := unheld h (held h l).

Lemma released_free h l : lock_free l -> lock_free (released h l).
Proof.
  unfold lock_free, released, unheld, held. destruct (g_lock_enabled h); [|done].
  by intros ->.
Qed.

(** RFLAGS with the interrupt flag cleared. *)
Definition masked (h : hart) : hart := set_rflags (Z.land (rflags h) (Z.lnot 0x200)) h.

Section pointwise.
Context {S : Type} `{HasHart S} (L : lens S spinlock).

(** Acquiring a free lock, from what the lens does at this state alone. *)
Lemma spin_lock_at (s : S) :
  (forall a, lget L (lset L a s) = a) -> (forall a b, lset L a (lset L b s) = lset L a s) ->
  lset L (lget L s) s = s -> (forall a, lget hart_of (lset L a s) = lget hart_of s) ->
  hart_ok (lget hart_of s) -> lock_free (lget L s) ->
  spin_lock L s = Ok (tt, lset L (held (lget hart_of s) (lget L s)) s).
Proof.
  intros Lgs Lss Lsg Lh Hh Hf. unfold spin_lock, get_cpu_id, held, lock_free, hart_ok in *.
  cbv [bind gets modify ret]. destruct (g_lock_enabled (lget hart_of s)); cbn [negb].
  - rewrite Lgs. cbn [current ticket last_cpu].
    rewrite Hf, Z.eqb_refl. cbn [negb]. rewrite Lh.
    destruct (Hh eq_refl) as [id ->]. cbn. by rewrite Lss.
  - by rewrite Lsg.
Qed.

Lemma spin_unlock_at (s : S) :
  lset L (lget L s) s = s ->
  spin_unlock L s = Ok (tt, lset L (unheld (lget hart_of s) (lget L s)) s).
Proof.
  intros Lsg. unfold spin_unlock, unheld. cbv [bind gets modify ret].
  destruct (g_lock_enabled (lget hart_of s)); cbn [negb]; [done|]. by rewrite Lsg.
Qed.

End pointwise.

Section sequential.
Context {S : Type} `{HasHartOk S} (L : lens S spinlock) `{!LensOk L}.

Lemma spin_lock_eq (s : S) :
  LensIndep L (hart_of (S := S)) ->
  hart_ok (lget hart_of s) -> lock_free (lget L s) ->
  spin_lock L s = Ok (tt, lset L (held (lget hart_of s) (lget L s)) s).
Proof.
  intros HI. apply spin_lock_at; intros; [apply lget_lset|apply lset_lset|apply lset_lget|apply lget_lset_r].
Qed.

Lemma spin_irq_save_eq (s : S) :
  spin_irq_save s = Ok (rflags (lget hart_of s), lset hart_of (masked (lget hart_of s)) s).
Proof. done. Qed.

(** A ticket that is not the one being served is never served while this
    CPU alone runs: the acquisition does not return. *)
Lemma spin_lock_contended (s : S) :
  g_lock_enabled (lget hart_of s) = true -> ~ lock_free (lget L s) ->
  spin_lock L s = Hang.
Proof.
  unfold lock_free, spin_lock. intros He Hf. cbv [bind gets modify].
  rewrite He. cbn [negb]. rewrite lget_lset. cbn [current].
  destruct (Z.eqb_spec (current (lget L s)) (ticket (lget L s))); [congruence|done].
Qed.

Lemma spin_unlock_eq (s : S) :
  spin_unlock L s = Ok (tt, lset L (unheld (lget hart_of s) (lget L s)) s).
Proof. apply spin_unlock_at, lset_lget. Qed.

Lemma spin_irq_restore_eq (s : S) f :
  spin_irq_restore f s = Ok (tt, lset hart_of (set_rflags f (lget hart_of s)) s).
Proof. done. Qed.
End sequential.

Lemma unheld_set_rflags v h l : unheld (set_rflags v h) l = unheld h l.
Proof. done. Qed.
Lemma held_set_rflags v h l : held (set_rflags v h) l = held h l.
Proof. done. Qed.
Lemma set_rflags_masked h : set_rflags (rflags h) (masked h) = h.
Proof. by destruct h. Qed.

Section critical.
Context {S : Type} `{HasHartOk S} (L : lens S spinlock)
  `{!LensOk L} `{!LensIndep L (hart_of (S := S))}.

(** Entering: interrupts masked, the lock taken. *)
Definition enter (s : S) : S :=
  let h := lget hart_of s in
  lset L (held h (lget L s)) (lset hart_of (masked h) s).

(** Leaving: the caller's flags and a free lock again. *)
Definition leave (s s' : S) : S :=
  let h := lget hart_of s in
  lset hart_of h (lset L (released h (lget L s)) s').

Lemma lget_enter_hart s : lget hart_of (enter s) = masked (lget hart_of s).
Proof. unfold enter. by rewrite (lget_lset_r (L := L)), lget_lset. Qed.

Lemma lget_enter_lock s : lget L (enter s) = held (lget hart_of s) (lget L s).
Proof. unfold enter. by rewrite lget_lset. Qed.

Lemma lget_leave_hart s s' : lget hart_of (leave s s') = lget hart_of s.
Proof. unfold leave. by rewrite lget_lset. Qed.

Lemma lget_leave_lock s s' :
  lget L (leave s s') = released (lget hart_of s) (lget L s).
Proof. unfold leave. by rewrite (lget_lset_l (L := L)), lget_lset. Qed.

(** A critical section on a free lock returns what its body returns, with
    the interrupt flag restored and the lock free again; the body may change
    anything but the lock it runs under and the CPU's own registers. *)
Lemma critical_ok {A} (body : M S A) s a s' :
  hart_ok (lget hart_of s) -> lock_free (lget L s) ->
  body (enter s) = Ok (a, s') ->
  lget hart_of s' = lget hart_of (enter s) ->
  lget L s' = lget L (enter s) ->
  critical L body s = Ok (a, leave s s').
Proof.
  intros Hh Hf Hb Eh El. rewrite lget_enter_hart in Eh. rewrite lget_enter_lock in El.
  unfold critical. rewrite (bind_ok _ _ _ _ _ (spin_irq_save_eq s)).
  rewrite (bind_ok _ _ _ tt (enter s)).
  2:{ rewrite spin_lock_eq; rewrite ?lget_lset, ?(lget_lset_l (L := L)); try done. }
  rewrite (bind_ok _ _ _ _ _ Hb).
  rewrite (bind_ok _ _ _ _ _ (spin_unlock_eq L s')).
  rewrite (bind_ok _ _ _ _ _ (spin_irq_restore_eq _ _)).
  unfold ret, leave, released. rewrite (lget_lset_r (L := L)), Eh, El.
  by rewrite set_rflags_masked.
Qed.
End critical.

(** ** The lock under concurrency

    Every CPU runs [spin_lock(&l); ...; spin_unlock(&l);] and [spin_trylock(&l)]
    over and over; a step is one atomic access to the lock word by one CPU, in
    any interleaving. The 32-bit counters wrap. *)

Module Ticket.
(** Where a CPU is in the code of [spin_lock], [spin_unlock] and [spin_trylock].
    The second argument of the two phases of [spin_trylock] is a ghost: how many
    tickets had been handed out when it read the counter. *)
Inductive phase :=
| Out                      (** not using the lock *)
| Spin (my_ticket : Z)     (** in the [while] loop of [spin_lock] *)
| Got                      (** the lock is taken, [last_cpu] not yet written *)
| Crit                     (** in the critical section *)
| Cleared                  (** [spin_unlock]: [last_cpu = -1] done *)
| Next (next : Z)          (** [next = current + 1] computed, not yet stored *)
| TryRead (current_ticket n : Z)  (** [spin_trylock]: [ticket] loaded *)
| TryFree (current_ticket n : Z). (** [current] seen equal to it, before the exchange *)

(** [issued] is a ghost: the number of tickets handed out since the start. *)
Record state := mkState { lk : spinlock; ph : Z -> phase; issued : Z }.

Definition upd (c : Z) (p : phase) (f : Z -> phase) : Z -> phase :=
  fun d => if decide (d = c) then p else f d.

(** [cpu_table] has 32 slots. *)
Definition MAX_CPUS : Z := 32.

(** The lock with another ticket handed out, to a CPU that is now at [p]. *)
Definition take (s : state) (c : Z) (p : phase) : state :=
  mkState (mkSpinlock (w32 (ticket (lk s) + 1)) (current (lk s)) (last_cpu (lk s))) (upd c p (ph s)) (issued s + 1).
Definition goto (s : state) (c : Z) (p : phase) : state := mkState (lk s) (upd c p (ph s)) (issued s).
Definition put (s : state) (c : Z) (cur last : Z) (p : phase) : state :=
  mkState (mkSpinlock (ticket (lk s)) cur last) (upd c p (ph s)) (issued s).

Inductive step (s : state) (c : Z) : state -> Prop :=
| step_take : ph s c = Out -> step s c (take s c (Spin (ticket (lk s))))
| step_pause t : ph s c = Spin t -> current (lk s) <> t -> step s c s
| step_seen t : ph s c = Spin t -> current (lk s) = t -> step s c (goto s c Got)
| step_own : ph s c = Got -> step s c (put s c (current (lk s)) (int32 c) Crit)
| step_clear : ph s c = Crit -> step s c (put s c (current (lk s)) (-1) Cleared)
| step_load : ph s c = Cleared -> step s c (goto s c (Next (w32 (current (lk s) + 1))))
| step_store n : ph s c = Next n -> step s c (put s c n (last_cpu (lk s)) Out)
| step_try : ph s c = Out -> step s c (goto s c (TryRead (ticket (lk s)) (issued s)))
| step_try_busy t n : ph s c = TryRead t n -> current (lk s) <> t -> step s c (goto s c Out)
| step_try_free t n : ph s c = TryRead t n -> current (lk s) = t -> step s c (goto s c (TryFree t n))
| step_try_lost t n : ph s c = TryFree t n -> ticket (lk s) <> t -> step s c (goto s c Out)
| step_try_won t n : ph s c = TryFree t n -> ticket (lk s) = t -> step s c (take s c Got).

Definition init : state := mkState spinlock_init (fun _ => Out) 0.

(** No [spin_trylock] is under way while the counter goes all the way round:
    fewer than 2^32 tickets are handed out between its first load and its
    compare-and-exchange. *)
Definition in_time (s : state) : Prop :=
  forall c t n, ph s c = TryRead t n \/ ph s c = TryFree t n -> issued s - n < 2 ^ 32.

Inductive reachable : state -> Prop :=
| reach_init : reachable init
| reach_step s c s' : reachable s -> 0 <= c < MAX_CPUS -> step s c s' -> in_time s' -> reachable s'.

(** Holding the lock: from leaving the spin loop, or the exchange of
    [spin_trylock], to the store that ends [spin_unlock]. *)
Definition owns (p : phase) : bool :=
  match p with Got | Crit | Cleared | Next _ => true | _ => false end.

(** Having a ticket. *)
Definition queued (p : phase) : bool :=
  match p with Spin _ => true | _ => owns p end.

(** The queue of CPUs with a ticket, first served first; the [i]-th holds
    ticket [current + i] and only the first may own the lock. *)
Definition place (l : spinlock) (i : nat) (p : phase) : Prop :=
  match p with
  | Out | TryRead _ _ | TryFree _ _ => False
  | Spin t => t = w32 (current l + Z.of_nat i)
  | Got | Crit | Cleared => i = 0%nat
  | Next n => i = 0%nat /\ n = w32 (current l + 1)
  end.

(** What a [spin_trylock] under way knows: the counter it read was the one of
    [n] tickets, and, once it has seen the lock free, that [n] have been served. *)
Definition tries (s : state) (q : list Z) (p : phase) : Prop :=
  match p with
  | TryRead t n => t = w32 n /\ n <= issued s < n + 2 ^ 32
  | TryFree t n => t = w32 n /\ n <= issued s < n + 2 ^ 32 /\ n <= issued s - Z.of_nat (length q)
  | _ => True
  end.

Record inv (s : state) (q : list Z) : Prop := {
  inv_nodup : NoDup q;
  inv_cpus : Forall (fun c => 0 <= c < MAX_CPUS) q;
  inv_current : current (lk s) = w32 (issued s - Z.of_nat (length q));
  inv_ticket : ticket (lk s) = w32 (issued s);
  inv_out : forall c, c ∉ q -> queued (ph s c) = false;
  inv_place : forall i c, q !! i = Some c -> place (lk s) i (ph s c);
  inv_tries : forall c, tries s q (ph s c);
}.

(** At most 32 CPUs wait, so tickets in the queue never collide modulo 2^32. *)
Lemma queue_short s q : inv s q -> (length q <= 32)%nat.
Proof.
  intros I. assert (q ⊆+ seqZ 0 MAX_CPUS) as Hs.
  { apply NoDup_submseteq; [apply I|]. intros c Hc. apply elem_of_seqZ.
    pose proof (inv_cpus _ _ I) as HF. rewrite Forall_forall in HF.
    specialize (HF c Hc). lia. }
  apply submseteq_length in Hs. by rewrite length_seqZ in Hs.
Qed.

Lemma w32_add_inj c i j :
  0 <= i < 2 ^ 32 -> 0 <= j < 2 ^ 32 -> w32 (c + i) = w32 (c + j) -> i = j.
Proof.
  unfold w32. intros Hi Hj E. pose proof (Z.div_mod (c + i) (2 ^ 32)).
  pose proof (Z.div_mod (c + j) (2 ^ 32)).
  assert (2 ^ 32 * ((c + i) / 2 ^ 32 - (c + j) / 2 ^ 32) = i - j) by lia.
  assert ((c + i) / 2 ^ 32 = (c + j) / 2 ^ 32) by nia. lia.
Qed.

Lemma w32_succ a b : w32 (w32 (a + 1) + b) = w32 (a + (b + 1)).
Proof. unfold w32. rewrite Zplus_mod_idemp_l. f_equal. lia. Qed.

Lemma w32_plus a b : w32 (w32 a + b) = w32 (a + b).
Proof. unfold w32. apply Zplus_mod_idemp_l. Qed.

(** Counts that agree modulo 2^32 and lie in a window of that length. *)
Lemma w32_window a b : w32 a = w32 b -> - 2 ^ 32 < a - b < 2 ^ 32 -> a = b.
Proof. unfold w32. intros E Hw. Z.div_mod_to_equations. lia. Qed.

Lemma upd_eq c p f : upd c p f c = p.
Proof. unfold upd. by rewrite decide_True. Qed.
Lemma upd_ne c p f d : d <> c -> upd c p f d = f d.
Proof. intros. unfold upd. by rewrite decide_False. Qed.

(** The CPU that has a ticket is in the queue, the others are not. *)
Lemma in_queue s q c : inv s q -> queued (ph s c) = true -> exists i, q !! i = Some c.
Proof.
  intros I Hp. destruct (decide (c ∈ q)) as [Hc|Hc].
  - by apply list_elem_of_lookup in Hc.
  - apply (inv_out _ _ I) in Hc. congruence.
Qed.

Lemma not_in_queue s q c : inv s q -> queued (ph s c) = false -> c ∉ q.
Proof.
  intros I Hp [i Hi]%list_elem_of_lookup. pose proof (inv_place _ _ I i c Hi) as Hpl.
  by destruct (ph s c).
Qed.

Lemma current_range s q : inv s q -> 0 <= current (lk s) < 2 ^ 32.
Proof. intros I. rewrite (inv_current _ _ I). apply w32_range. Qed.

(** A step that only moves the phase of a CPU in the queue. *)
Lemma inv_move s q c i p l' :
  inv s q -> q !! i = Some c -> ticket l' = ticket (lk s) -> current l' = current (lk s) ->
  place l' i p -> inv (mkState l' (upd c p (ph s)) (issued s)) q.
Proof.
  intros I Hi Et Ec Hp. destruct I. split; simpl; rewrite ?Et, ?Ec; try done.
  - intros d Hd. rewrite upd_ne; [by auto|]. intros ->. apply Hd.
    by eapply list_elem_of_lookup_2.
  - intros j d Hj. destruct (decide (d = c)) as [->|].
    + rewrite upd_eq. assert (j = i) as -> by (by eapply NoDup_lookup). done.
    + rewrite upd_ne by done. specialize (inv_place0 j d Hj).
      unfold place in *. by rewrite Ec.
  - intros d. destruct (decide (d = c)) as [->|]; [rewrite upd_eq; by destruct p|].
    rewrite upd_ne by done. exact (inv_tries0 d).
Qed.

(** A step of a CPU that has no ticket and takes none. *)
Lemma inv_aside s q c p :
  inv s q -> queued (ph s c) = false -> queued p = false -> tries s q p -> inv (goto s c p) q.
Proof.
  intros I Hc Hp Ht. pose proof (not_in_queue s q c I Hc) as Hq. destruct I. split; simpl; try done.
  - intros d Hd. destruct (decide (d = c)) as [->|]; [by rewrite upd_eq|rewrite upd_ne by done; auto].
  - intros i d Hi. rewrite upd_ne; [auto|]. intros ->. apply Hq. by eapply list_elem_of_lookup_2.
  - intros d. destruct (decide (d = c)) as [->|]; [rewrite upd_eq; exact Ht|rewrite upd_ne by done; exact (inv_tries0 d)].
Qed.

(** A CPU that takes a ticket is the last of the queue. *)
Lemma inv_take s q c p :
  inv s q -> queued (ph s c) = false -> queued p = true -> 0 <= c < MAX_CPUS -> place (lk s) (length q) p ->
  in_time (take s c p) -> inv (take s c p) (q ++ [c]).
Proof.
  intros I Hc Hp Hr Hpl Hin. pose proof (not_in_queue s q c I Hc) as Hq. destruct I. split; simpl.
  - apply NoDup_app. split; [done|]. split; [|apply NoDup_singleton].
    intros x Hx ->%list_elem_of_singleton. done.
  - apply Forall_app. split; [done|]. by apply Forall_singleton.
  - rewrite inv_current0, length_app. simpl. f_equal. lia.
  - by rewrite inv_ticket0, w32_plus.
  - intros d Hd. rewrite not_elem_of_app, list_elem_of_singleton in Hd.
    rewrite upd_ne by tauto. apply inv_out0. tauto.
  - intros i d Hi. apply lookup_app_Some in Hi as [Hi|[Hge Hi]].
    + rewrite upd_ne; [by apply inv_place0|]. intros ->. apply Hq.
      by eapply list_elem_of_lookup_2.
    + apply list_lookup_singleton_Some in Hi as [Hi <-].
      rewrite upd_eq. replace i with (length q) by lia. by destruct p.
  - intros d. destruct (decide (d = c)) as [->|Hd]; [rewrite upd_eq; by destruct p|].
    rewrite upd_ne by done. specialize (inv_tries0 d). specialize (Hin d). cbn [ph take issued] in Hin. rewrite upd_ne in Hin by done.
    unfold tries in *. cbn [issued take]. rewrite length_app. cbn [length].
    destruct (ph s d) as [| | | | | |t n|t n]; try done; specialize (Hin t n ltac:(auto)); lia.
Qed.

(** The head of the queue gives the lock up. *)
Lemma inv_leave s q c last :
  inv s (c :: q) -> inv (put s c (w32 (current (lk s) + 1)) last Out) q.
Proof.
  intros I. destruct I. apply NoDup_cons in inv_nodup0 as [Hnin Hnd]. split; simpl; try done.
  - by apply Forall_cons in inv_cpus0 as [_ ?].
  - rewrite inv_current0, w32_plus. cbn [length]. f_equal. lia.
  - intros d Hd. destruct (decide (d = c)) as [->|].
    + by rewrite upd_eq.
    + rewrite upd_ne by done. apply inv_out0. by apply not_elem_of_cons.
  - intros j d Hj. assert (d <> c).
    { intros ->. apply Hnin. by eapply list_elem_of_lookup_2. }
    rewrite upd_ne by done. specialize (inv_place0 (S j) d Hj).
    destruct (ph s d); simpl in *; try lia; try done.
    rewrite inv_place0, w32_succ. f_equal. lia.
  - intros d. destruct (decide (d = c)) as [->|]; [by rewrite upd_eq|]. rewrite upd_ne by done. specialize (inv_tries0 d).
    unfold tries in *. cbn [issued put length] in *. destruct (ph s d); try done. lia.
Qed.

(** The exchange succeeds only on a free lock: nobody has a ticket. *)
Lemma try_won_free s q t n c :
  inv s q -> ph s c = TryFree t n -> ticket (lk s) = t -> q = [].
Proof.
  intros I Hp Ht. pose proof (inv_tries _ _ I c) as Hc. rewrite Hp in Hc. destruct Hc as (-> & Hw & Hs).
  rewrite (inv_ticket _ _ I) in Ht. apply w32_window in Ht; [|lia]. destruct q; [done|]. cbn [length] in Hs. lia.
Qed.

Lemma inv_step s q c s' :
  inv s q -> 0 <= c < MAX_CPUS -> step s c s' -> in_time s' -> exists q', inv s' q'.
Proof.
  intros I Hc Hstep Hin. pose proof (queue_short s q I) as Hlen.
  destruct Hstep as [Hp|t Hp Ht|t Hp Ht|Hp|Hp|Hp|n Hp|Hp|t n Hp Ht|t n Hp Ht|t n Hp Ht|t n Hp Ht].
  - exists (q ++ [c]). apply inv_take; try done; [by rewrite Hp|]. simpl.
    rewrite (inv_ticket _ _ I), (inv_current _ _ I), w32_plus. f_equal. lia.
  - by exists q.
  - destruct (in_queue s q c I) as [i Hi]; [by rewrite Hp|]. exists q.
    pose proof (inv_place _ _ I i c Hi) as Hpl. rewrite Hp in Hpl. simpl in Hpl.
    eapply inv_move; try done. simpl.
    pose proof (current_range _ _ I). pose proof (lookup_lt_Some _ _ _ Hi).
    assert (Z.of_nat i = 0); [|lia].
    eapply (w32_add_inj (current (lk s))); [lia|lia|].
    rewrite <-Hpl, <-Ht, Z.add_0_r. by rewrite w32_small.
  - destruct (in_queue s q c I) as [i Hi]; [by rewrite Hp|]. exists q.
    pose proof (inv_place _ _ I i c Hi) as Hpl. rewrite Hp in Hpl. by eapply inv_move.
  - destruct (in_queue s q c I) as [i Hi]; [by rewrite Hp|]. exists q.
    pose proof (inv_place _ _ I i c Hi) as Hpl. rewrite Hp in Hpl. by eapply inv_move.
  - destruct (in_queue s q c I) as [i Hi]; [by rewrite Hp|]. exists q.
    pose proof (inv_place _ _ I i c Hi) as Hpl. rewrite Hp in Hpl. by eapply inv_move.
  - destruct (in_queue s q c I) as [i Hi]; [by rewrite Hp|].
    pose proof (inv_place _ _ I i c Hi) as Hpl. rewrite Hp in Hpl.
    destruct Hpl as [-> ->]. destruct q as [|c' q]; [done|].
    injection Hi as ->. exists q. by apply inv_leave.
  - exists q. apply inv_aside; try done; [by rewrite Hp|]. split; [apply I|lia].
  - exists q. apply inv_aside; try done. by rewrite Hp.
  - exists q. pose proof (inv_tries _ _ I c) as Hc'. rewrite Hp in Hc'. destruct Hc' as (-> & Hw).
    apply inv_aside; try done; [by rewrite Hp|]. split_and!; [done|lia|lia|].
    rewrite (inv_current _ _ I) in Ht. apply w32_window in Ht; lia.
  - exists q. apply inv_aside; try done. by rewrite Hp.
  - pose proof (try_won_free s q t n c I Hp Ht) as ->. exists [c]. apply (inv_take s [] c); try done. by rewrite Hp.
Qed.

Lemma reachable_inv s : reachable s -> exists q, inv s q.
Proof.
  induction 1 as [|s c s' _ [q I] Hc Hs Ht].
  - exists []. split; simpl; try done; constructor.
  - by eapply inv_step.
Qed.

Lemma owner_first l i p : place l i p -> owns p = true -> i = 0%nat.
Proof. destruct p; simpl; try done. by intros [-> _]. Qed.

Lemma owner_queued p : owns p = true -> queued p = true.
Proof. by destruct p. Qed.

(** The distance of a waiting CPU from being served. *)
Definition dist (s : state) (t : Z) : Z := w32 (t - current (lk s)).

Lemma dist_place s q i c t :
  inv s q -> q !! i = Some c -> ph s c = Spin t -> dist s t = Z.of_nat i.
Proof.
  intros I Hi Hp. pose proof (inv_place _ _ I i c Hi) as Hpl. rewrite Hp in Hpl.
  simpl in Hpl. unfold dist. rewrite Hpl. unfold w32. rewrite Zminus_mod_idemp_l.
  rewrite Z.add_simpl_l. apply Z.mod_small.
  pose proof (queue_short s q I). pose proof (lookup_lt_Some _ _ _ Hi). lia.
Qed.

(** C1: mutual exclusion of the ticket spinlock, for 32 CPUs that use
    [spin_lock], [spin_unlock] and [spin_trylock] in any interleaving of their
    atomic accesses, with counters that wrap at 2^32: two CPUs that hold the
    lock, from the end of the spin loop of [spin_lock] or the successful exchange
    of [spin_trylock] to the final store of [spin_unlock], are the same CPU. The
    runs are those in which no [spin_trylock] is overtaken by 2^32 tickets
    between its first load and its exchange ([in_time]); [trylock_aba] shows
    that the bound is needed. *)
Theorem mutual_exclusion s c d :
  reachable s -> owns (ph s c) = true -> owns (ph s d) = true -> c = d.
Proof.
  intros Hr Hc Hd. destruct (reachable_inv s Hr) as [q I].
  destruct (in_queue s q c I) as [i Hi]; [by apply owner_queued|].
  destruct (in_queue s q d I) as [j Hj]; [by apply owner_queued|].
  pose proof (inv_place _ _ I i c Hi) as Pi. pose proof (inv_place _ _ I j d Hj) as Pj.
  apply owner_first in Pi as ->; [|done]. apply owner_first in Pj as ->; [|done].
  congruence.
Qed.

(** A state in which no [spin_trylock] is under way. *)
Lemma no_try_in_time s : (forall c t n, ph s c <> TryRead t n /\ ph s c <> TryFree t n) -> in_time s.
Proof. intros Hn c t n [E|E]; by destruct (Hn c t n). Qed.

(** CPU 3 takes the lock by [spin_trylock] while CPU 5 is queueing. *)
Lemma mutual_exclusion_witness :
  exists s, reachable s /\ ph s 3 = Got /\ ph s 5 = Spin 1 /\ forall d, owns (ph s d) = true -> 3 = d.
Proof.
  pose (s1 := goto init 3 (TryRead 0 0)). pose (s2 := goto s1 3 (TryFree 0 0)). pose (s3 := take s2 3 Got). pose (s4 := take s3 5 (Spin 1)).
  assert (forall s, issued s <= 2 -> (forall c t n, ph s c = TryRead t n \/ ph s c = TryFree t n -> n = 0) -> in_time s) as Hin.
  { intros s Hi Hz c t n Hp. rewrite (Hz c t n Hp). lia. }
  assert (reachable s4) as Hr.
  { apply (reach_step s3 5); [|done|exact (step_take s3 5 eq_refl)|].
    - apply (reach_step s2 3); [|done|exact (step_try_won s2 3 0 0 eq_refl eq_refl)|].
      + apply (reach_step s1 3); [|done|exact (step_try_free s1 3 0 0 eq_refl eq_refl)|].
        * apply (reach_step init 3); [constructor|done|exact (step_try init 3 eq_refl)|].
          apply Hin; [done|]. intros c t n. simpl. unfold upd. case_decide; naive_solver.
        * apply Hin; [done|]. intros c t n. simpl. unfold upd. repeat case_decide; naive_solver.
      + apply Hin; [done|]. intros c t n. simpl. unfold upd. repeat case_decide; naive_solver.
    - apply Hin; [done|]. intros c t n. simpl. unfold upd. repeat case_decide; naive_solver. }
  exists s4. split; [done|]. split; [done|]. split; [done|]. intros d Hd. by apply (mutual_exclusion s4 3 d Hr).
Defined.

(** C7: first come, first served, and bounded waiting. While a CPU spins with
    ticket [t], at most 31 releases stand between it and the lock, a step of
    another CPU, a [spin_trylock] included, never moves it back, each release brings it exactly one
    place closer, and it stays in the loop exactly until its turn. *)
Theorem first_come_first_served s c t d s' :
  reachable s -> ph s c = Spin t -> d <> c -> 0 <= d < MAX_CPUS -> step s d s' ->
  ph s' c = Spin t /\ 0 <= dist s t < MAX_CPUS /\
  dist s' t = dist s t - (if decide (current (lk s') = current (lk s)) then 0 else 1).
Proof.
  intros Hr Hp Hd Hrange Hs. destruct (reachable_inv s Hr) as [q I].
  destruct (in_queue s q c I) as [i Hi]; [by rewrite Hp|].
  pose proof (dist_place s q i c t I Hi Hp) as Hdist.
  pose proof (queue_short s q I). pose proof (lookup_lt_Some _ _ _ Hi).
  assert (ph s' c = Spin t) as Hp' by (destruct Hs; simpl; rewrite ?upd_ne by done; done).
  split; [done|]. unfold MAX_CPUS. split; [lia|].
  destruct Hs as [| | | | | |n Hn| | | | |]; simpl in *;
    try (rewrite decide_True by done; unfold dist in *; simpl; lia).
  destruct (in_queue s q d I) as [j Hj]; [by rewrite Hn|].
  pose proof (inv_place _ _ I j d Hj) as Pj. rewrite Hn in Pj. destruct Pj as [-> ->].
  pose proof (current_range _ _ I) as Hcur. rewrite decide_False.
  2:{ intros E. assert (1 = 0); [|done].
      eapply (w32_add_inj (current (lk s))); [done|done|].
      by rewrite E, Z.add_0_r, w32_small. }
  pose proof (inv_place _ _ I i c Hi) as Pi. rewrite Hp in Pi. simpl in Pi.
  assert (i <> 0%nat) by (intros ->; congruence).
  rewrite Hdist, Pi. unfold dist, w32. simpl. rewrite <-Zminus_mod.
  rewrite Z.mod_small; lia.
Qed.

Lemma first_come_first_served_witness :
  let s := take (take init 3 (Spin 0)) 4 (Spin 1) in
  let s' := goto s 3 Got in
  reachable s /\ step s 3 s' /\ dist s' 1 = 1.
Proof.
  intros s s'. assert (forall c t n, ph s c <> TryRead t n /\ ph s c <> TryFree t n) as Hn.
  { intros c t n. simpl. unfold upd. repeat case_decide; done. }
  assert (reachable s) as Hr.
  { eapply (reach_step (take init 3 (Spin 0)) 4); [|done|exact (step_take (take init 3 (Spin 0)) 4 eq_refl)|by apply no_try_in_time].
    eapply (reach_step init 3); [constructor|done|exact (step_take init 3 eq_refl)|]. apply no_try_in_time.
    intros c t n. simpl. unfold upd. case_decide; done. }
  assert (step s 3 s') as Hs by exact (step_seen s 3 0 eq_refl eq_refl).
  split; [done|]. split; [done|].
  destruct (first_come_first_served s 4 1 3 s' Hr) as (_ & _ & E); try done.
Defined.

(** No deadlock. In every reachable state in which some CPU has taken a
    ticket, some CPU can take a step that is not one more spin: the front of
    the queue either leaves its spin loop or is on its way out. *)
Theorem no_deadlock s c :
  reachable s -> queued (ph s c) = true ->
  exists d s', step s d s' /\
    (owns (ph s d) = true \/ (exists t, ph s d = Spin t) /\ owns (ph s' d) = true).
Proof.
  intros Hr Hp. destruct (reachable_inv s Hr) as [q I].
  destruct (in_queue s q c I) as [i Hi]; [done|].
  destruct q as [|d q]; [done|]. pose proof (inv_place _ _ I 0 d eq_refl) as P0.
  exists d. destruct (ph s d) as [|t| | | |n| |] eqn:E; simpl in P0; try done.
  - eexists. split.
    + eapply step_seen; [exact E|]. rewrite P0, Z.add_0_r.
      by rewrite w32_small by (by apply (current_range s (d :: q))).
    + right. split; [eauto|]. simpl. by rewrite upd_eq.
  - eexists. split; [by apply step_own|by left].
  - eexists. split; [by apply step_clear|by left].
  - eexists. split; [by apply step_load|by left].
  - eexists. split; [by eapply step_store|by left].
Qed.

Lemma no_deadlock_witness :
  let s := take init 3 (Spin 0) in
  exists d s', step s d s' /\
    (owns (ph s d) = true \/ (exists t, ph s d = Spin t) /\ owns (ph s' d) = true).
Proof.
  intros s. apply (no_deadlock s 3); [|done].
  eapply (reach_step init 3); [constructor|done|exact (step_take init 3 eq_refl)|]. apply no_try_in_time.
  intros c t n. simpl. unfold upd. case_decide; done.
Defined.

(** ** The window of [spin_trylock] *)

(** A step of any CPU, however late a [spin_trylock] is. *)
Definition any_step (s s' : state) : Prop := exists c, 0 <= c < MAX_CPUS /\ step s c s'.

(** CPU 0 takes the free lock and gives it up. *)
Lemma round s : ph s 0 = Out -> ticket (lk s) = current (lk s) ->
  exists s', rtc any_step s s' /\ ph s' 0 = Out /\ (forall d, d <> 0 -> ph s' d = ph s d) /\
    ticket (lk s') = w32 (ticket (lk s) + 1) /\ current (lk s') = w32 (ticket (lk s) + 1).
Proof.
  intros Hp Ht. set (s1 := take s 0 (Spin (ticket (lk s)))). set (s2 := goto s1 0 Got). set (s3 := put s2 0 (current (lk s2)) (int32 0) Crit).
  set (s4 := put s3 0 (current (lk s3)) (-1) Cleared). set (s5 := goto s4 0 (Next (w32 (current (lk s4) + 1)))).
  exists (put s5 0 (w32 (current (lk s4) + 1)) (last_cpu (lk s5)) Out). split; [|split; [done|split; [|split; [done|by simpl; rewrite <-Ht]]]].
  - eapply rtc_l; [by exists 0; split; [|apply step_take]|]. fold s1.
    eapply rtc_l; [exists 0; split; [done|apply (step_seen s1 0 (ticket (lk s))); [done|by simpl]]|]. fold s2.
    eapply rtc_l; [by exists 0; split; [|apply step_own]|]. fold s3. eapply rtc_l; [by exists 0; split; [|apply step_clear]|]. fold s4.
    eapply rtc_l; [by exists 0; split; [|apply step_load]|]. fold s5. eapply rtc_l; [by exists 0; split; [|apply step_store]|]. apply rtc_refl.
  - intros d Hd. simpl. by rewrite !upd_ne.
Qed.

Lemma rounds s k : 0 <= k -> ph s 0 = Out -> ticket (lk s) = 0 -> current (lk s) = 0 ->
  exists s', rtc any_step s s' /\ ph s' 0 = Out /\ (forall d, d <> 0 -> ph s' d = ph s d) /\ ticket (lk s') = w32 k /\ current (lk s') = w32 k.
Proof.
  intros Hk Hp Ht Hc. revert k Hk. apply natlike_ind.
  - exists s. split_and!; [apply rtc_refl|done|done|by rewrite Ht|by rewrite Hc].
  - intros k Hk (s1 & H1 & H2 & H3 & H4 & H5). destruct (round s1 H2) as (s2 & G1 & G2 & G3 & G4 & G5); [congruence|].
    exists s2. rewrite H4, w32_plus in G4, G5. split_and!; [by transitivity s1|done| |done|done]. intros d Hd. by rewrite G3, H3.
Qed.

(** The bound in [mutual_exclusion] is needed. When the counter goes all the way
    round between the load of [current] and the exchange in [spin_trylock], the
    exchange finds the value it expects and takes a lock that is held: CPUs 0
    and 1 are in the critical section together. *)
Theorem trylock_aba : exists s, rtc any_step init s /\ owns (ph s 0) = true /\ owns (ph s 1) = true.
Proof.
  set (s1 := goto init 1 (TryRead 0 0)). set (s2 := goto s1 1 (TryFree 0 0)).
  destruct (rounds s2 (2 ^ 32 - 1)) as (s3 & H1 & H2 & H3 & H4 & H5); [lia|done..|].
  change (w32 (2 ^ 32 - 1)) with (2 ^ 32 - 1) in H4, H5. set (s4 := take s3 0 (Spin (2 ^ 32 - 1))). set (s5 := goto s4 0 Got).
  exists (take s5 1 Got). split; [|done].
  eapply rtc_l; [by exists 1; split; [|exact (step_try init 1 eq_refl)]|]. eapply rtc_l; [by exists 1; split; [|exact (step_try_free s1 1 0 0 eq_refl eq_refl)]|].
  transitivity s3; [exact H1|]. eapply rtc_l; [exists 0; split; [done|]; unfold s4; rewrite <-H4; by apply step_take|]. rewrite H4. fold s4.
  eapply rtc_l; [exists 0; split; [done|apply (step_seen s4 0 (2 ^ 32 - 1)); [done|exact H5]]|]. fold s5. apply rtc_once. exists 1. split; [done|].
  apply (step_try_won s5 1 0 0).
  - simpl. rewrite !upd_ne, H3 by done. done.
  - simpl. by rewrite H4.
Qed.
End Ticket.
