(* ===== verification/Boot.v ===== *)
(** * The boot information handed to the kernel

    [common/boot_info.h] and [common/efi_descriptor.h]: what the UEFI loader
    leaves for [kernel_main]. The memory map is the array of descriptors found
    at stride [descriptor_size] in the buffer the firmware filled, so its
    length is [memory_map_size / descriptor_size]. *)

From S2P Require Import Prelude.

(** [EFI_MEMORY_DESCRIPTOR] *)
Record EFI_MEMORY_DESCRIPTOR := mkDescriptor {
  type : Z;
  physical_start : Z;
  virtual_start : Z;
  num_pages : Z;
  attribute : Z;
}.

Definition EFI_CONVENTIONAL_MEMORY : Z := 7.
Definition EFI_LOADER_CODE : Z := 1.
Definition EFI_LOADER_DATA : Z := 2.
Definition EFI_BOOT_SERVICES_CODE : Z := 3.
Definition EFI_BOOT_SERVICES_DATA : Z := 4.

Record BootFramebuffer := mkFramebuffer {
  framebuffer_size : Z;
  framebuffer_base : Z;
  width : Z;
  height : Z;
  pixels_per_scanline : Z;
  format : Z;
  red_mask : Z;
  green_mask : Z;
  blue_mask : Z;
  reserved_mask : Z;
}.

Record BootMemoryMap := mkMemoryMap {
  memory_map : list EFI_MEMORY_DESCRIPTOR;
  descriptor_version : Z;
}.

Record BootKernel := mkBootKernel { kernel_entry : Z; kernel_base : Z; kernel_size : Z }.
Record BootRamdisk := mkBootRamdisk { ramdisk_addr : Z; ramdisk_size : Z }.

Record BootInfo := mkBootInfo {
  fb : BootFramebuffer;
  mmap : BootMemoryMap;
  rsdp : Z;
  kernel : BootKernel;
  ramdisk : BootRamdisk;
}.

(** [bi->fb.framebuffer_base = v] *)
Definition set_framebuffer_base (v : Z) (bi : BootInfo) : BootInfo :=
  let f := fb bi in
  mkBootInfo
    (mkFramebuffer (framebuffer_size f) v (width f) (height f) (pixels_per_scanline f) (format f)
       (red_mask f) (green_mask f) (blue_mask f) (reserved_mask f))
    (mmap bi) (rsdp bi) (kernel bi) (ramdisk bi).

(** [sizeof(BootInfo)]: the packed records of 48, 32, 8, 24 and 16 bytes *)
Definition sizeof_BootInfo : Z := 48 + 32 + 8 + 24 + 16.
