(* ===== verification/Frames.v ===== *)
(** * The frame-allocator interface

    What the physical memory manager promises to the components that take
    frames from it (the virtual memory manager, the slab and heap allocators):
    single and contiguous allocation and release, over an abstract set of used
    frames. Clients are written and verified against these classes; [Pmm]
    provides the instance. *)

From S2P Require Import Prelude Lock.

(** The operations and the view of the state they act on. *)
Class FrameAllocator (F : Type) := {
  #[export] fa_hart :: HasHart F;
  fa_alloc : M F Z;
  fa_alloc_n : Z -> M F Z;
  fa_free : Z -> M F unit;
  (** reach the allocator's own data through the direct map from now on *)
  fa_move : M F unit;
  (** the allocator's own invariant *)
  fa_ok : F -> Prop;
  (** frame number [x] is in use *)
  fa_used : F -> Z -> bool;
  (** the frames the allocator manages are [0, fa_frames f) *)
  fa_frames : F -> Z;
}.

(** Allocation outcome: nothing changed and a null result, or [count] frames
    that were free, from [x] on, now used, and nothing else changed. *)
Definition fresh_frames `{FrameAllocator F} (f f' : F) (count r : Z) : Prop :=
  (r = NULL /\ forall y, fa_used f' y = fa_used f y) \/
  (exists x, r = x * PAGE_SIZE /\ 0 < x /\ x + count <= fa_frames f /\
     (forall y, x <= y < x + count -> fa_used f y = false) /\
     (forall y, fa_used f' y = ((x <=? y) && (y <? x + count)) || fa_used f y)).

Class FrameAllocatorOk (F : Type) `{FrameAllocator F} : Prop := {
  #[export] fa_hart_ok :: HasHartOk F;
  (** the invariant covers the CPU's registers and no more of them than a
      critical section needs *)
  fa_ok_hart f : fa_ok f -> hart_ok (lget hart_of f);
  fa_set_hart f h :
    fa_ok f -> hart_ok h ->
    fa_ok (lset hart_of h f) /\ fa_frames (lset hart_of h f) = fa_frames f /\
    (forall y, fa_used (lset hart_of h f) y = fa_used f y);
  (** physical addresses fit 64 bits *)
  fa_frames_range f : fa_ok f -> 0 <= fa_frames f /\ fa_frames f * PAGE_SIZE < 2 ^ 64;
  (** frames outside the range are never free *)
  fa_used_outside f y : fa_ok f -> ~ (0 <= y < fa_frames f) -> fa_used f y = true;
  fa_alloc_spec f :
    fa_ok f ->
    wp fa_alloc (fun r f' =>
      fa_ok f' /\ lget hart_of f' = lget hart_of f /\ fa_frames f' = fa_frames f /\
      fresh_frames f f' 1 r) f;
  fa_alloc_n_spec f count :
    fa_ok f -> 0 <= count < 2 ^ 64 -> fa_used f 0 = true ->
    wp (fa_alloc_n count) (fun r f' =>
      fa_ok f' /\ lget hart_of f' = lget hart_of f /\ fa_frames f' = fa_frames f /\
      fresh_frames f f' count r) f;
  fa_free_spec f a :
    fa_ok f -> 0 <= a / PAGE_SIZE < fa_frames f ->
    wp (fa_free a) (fun _ f' =>
      fa_ok f' /\ lget hart_of f' = lget hart_of f /\ fa_frames f' = fa_frames f /\
      (forall y, fa_used f' y = (if a =? NULL then fa_used f y
                                 else negb (y =? a / PAGE_SIZE) && fa_used f y))) f;
  fa_move_spec f :
    fa_ok f ->
    wp fa_move (fun _ f' =>
      fa_ok f' /\ lget hart_of f' = lget hart_of f /\ fa_frames f' = fa_frames f /\
      (forall y, fa_used f' y = fa_used f y)) f;
}.

(** ** Running out *)

Section supply.
Context {F : Type} `{FrameAllocator F}.

(** The allocator can deliver [n] frames, one after the other, and [n]
    deliveries that lead from [f] to [f']. *)
Fixpoint allocs (n : nat) (f : F) : Prop :=
  match n with
  | O => True
  | S n => exists r f', fa_alloc f = Ok (r, f') /\ r <> NULL /\ allocs n f'
  end.
Fixpoint granted (n : nat) (f f' : F) : Prop :=
  match n with
  | O => f' = f
  | S n => exists r f1, fa_alloc f = Ok (r, f1) /\ r <> NULL /\ granted n f1 f'
  end.

Lemma granted_allocs n f f' : granted n f f' -> allocs n f.
Proof. revert f. induction n as [|n IH]; intros f; [done|]. intros (r & f1 & E & Hr & Hg). exists r, f1. auto. Qed.

(** A delivery that fails. *)
Lemma alloc_fails n f f' : fa_alloc f = Ok (NULL, f') -> ~ allocs (S n) f.
Proof. intros E (r & f1 & E1 & Hr & _). rewrite E in E1. by injection E1 as <- <-. Qed.

Lemma allocs_step n r (f f' : F) : fa_alloc f = Ok (r, f') -> r <> NULL -> allocs n f' -> allocs (S n) f.
Proof. intros E Hr Hn. by exists r, f'. Qed.

Lemma allocs_le n k f : allocs n f -> (k <= n)%nat -> allocs k f.
Proof.
  revert k f. induction n as [|n IH]; intros k f Hn Hk; [by replace k with 0%nat by lia|]. destruct k as [|k]; [done|].
  destruct Hn as (r & f1 & E & Hr & Hn). exists r, f1. split_and!; [done|done|]. apply IH; [done|lia].
Qed.

Lemma granted_rest n k f f' : granted n f f' -> allocs (n + k) f -> allocs k f'.
Proof.
  revert f. induction n as [|n IH]; intros f; [by intros ->|]. intros (r & f1 & E & Hr & Hg) (r' & f2 & E' & _ & Ha).
  rewrite E in E'. injection E' as <- <-. by apply (IH f1).
Qed.
End supply.
