(* ===== verification/Pmm.v ===== *)
(** * Physical memory manager

    Models [kernel/memory/pmm.c]: the frame bitmap, its construction from the
    EFI memory map, single and contiguous frame allocation, and release.

    - [pmm] is the module's state: the [bitmap] pointer, the bytes it points
      at, [bitmap_size], [pmm_lock_], and the [pmm_last_index] field of every
      per-CPU context.
    - An access outside the [bitmap_size] bytes of the bitmap is a [Fault].
    - [frame_used] reads the bitmap as the code's bit encoding defines it. *)

From S2P Require Import Prelude Lock Boot Frames.

(** ** State *)

Record pmm := mkPmm {
  p_hart : hart;
  pmm_lock_ : spinlock;
  bitmap : Z;
  bytes : list Z;
  bitmap_size : Z;
  pmm_last_index : gmap Z Z;
}.

#[export] Instance pmm_hart : HasHart pmm := Lens p_hart
  (fun h s => mkPmm h (pmm_lock_ s) (bitmap s) (bytes s) (bitmap_size s) (pmm_last_index s)).
#[export] Instance pmm_hart_ok : HasHartOk pmm.
Proof. split; by intros; try destruct s. Qed.

Definition pmm_lock : lens pmm spinlock := Lens pmm_lock_
  (fun l s => mkPmm (p_hart s) l (bitmap s) (bytes s) (bitmap_size s) (pmm_last_index s)).
#[export] Instance pmm_lock_ok : LensOk pmm_lock.
Proof. split; by intros; try destruct s. Qed.
#[export] Instance pmm_lock_indep : LensIndep pmm_lock hart_of.
Proof. by split. Qed.

Definition set_bytes (bs : list Z) (s : pmm) : pmm :=
  mkPmm (p_hart s) (pmm_lock_ s) (bitmap s) bs (bitmap_size s) (pmm_last_index s).
Definition set_last_index (m : gmap Z Z) (s : pmm) : pmm :=
  mkPmm (p_hart s) (pmm_lock_ s) (bitmap s) (bytes s) (bitmap_size s) m.

(** The kernel image's zero-initialised globals. *)
Definition pmm_boot (h : hart) : pmm := mkPmm h spinlock_init NULL [] 0 ∅.

(** [bitmap[i]] as an rvalue and as an lvalue *)
Definition bitmap_read (i : Z) : M pmm Z :=
  bs <- gets bytes ;; if i <? 0 then fault else deref (bs !! Z.to_nat i).
Definition bitmap_write (i v : Z) : M pmm unit :=
  bs <- gets bytes ;;
  if i <? 0 then fault else
  _ <- deref (bs !! Z.to_nat i) ;;
  modify (set_bytes (<[Z.to_nat i := v]> bs)).

(** ** Frame bits *)

Definition pmm_set_frame (frame_addr : Z) : M pmm unit :=
  let frame_index := frame_addr / PAGE_SIZE in
  b <- bitmap_read (frame_index / 8) ;;
  bitmap_write (frame_index / 8) (w8 (Z.lor b (Z.shiftl 1 (frame_index mod 8)))).

Definition pmm_unset_frame (frame_addr : Z) : M pmm unit :=
  let frame_index := frame_addr / PAGE_SIZE in
  b <- bitmap_read (frame_index / 8) ;;
  bitmap_write (frame_index / 8) (w8 (Z.land b (Z.lnot (Z.shiftl 1 (frame_index mod 8))))).

Definition pmm_is_frame_set (frame_addr : Z) : M pmm bool :=
  let frame_index := frame_addr / PAGE_SIZE in
  b <- bitmap_read (frame_index / 8) ;;
  ret (negb (Z.land b (Z.shiftl 1 (frame_index mod 8)) =? 0)).

(** ** Initialisation *)

Definition end_addr (d : EFI_MEMORY_DESCRIPTOR) : Z :=
  w64 (physical_start d + w64 (num_pages d * PAGE_SIZE)).

(** First pass: the highest physical address *)
Definition highest_addr (ds : list EFI_MEMORY_DESCRIPTOR) : Z :=
  fold_left (fun h d => if h <? end_addr d then end_addr d else h) ds 0.

(** Second pass: the first conventional region large enough *)
Definition bitmap_region (size : Z) (ds : list EFI_MEMORY_DESCRIPTOR)
  : option EFI_MEMORY_DESCRIPTOR :=
  List.find (fun d => (type d =? EFI_CONVENTIONAL_MEMORY) &&
                      (size <=? w64 (num_pages d * PAGE_SIZE))) ds.

(** Third pass, one descriptor *)
Definition free_region (d : EFI_MEMORY_DESCRIPTOR) : M pmm unit :=
  when ((type d =? EFI_CONVENTIONAL_MEMORY) || (type d =? 4))
    (mapM_ (fun j =>
       let addr := w64 (physical_start d + w64 (j * PAGE_SIZE)) in
       when (0x100000 <=? addr) (pmm_unset_frame addr))
     (seqZ 0 (num_pages d))).

Definition pmm_init (bi : BootInfo) : M pmm unit :=
  let ds := memory_map (mmap bi) in
  let size := (highest_addr ds / PAGE_SIZE) / 8 in
  modify (fun s => mkPmm (p_hart s) (pmm_lock_ s) (bitmap s) (bytes s) size (pmm_last_index s)) ;;;
  match bitmap_region size ds with
  | Some d =>
      (* every byte of the new bitmap is set to 0xFF *)
      modify (fun s => mkPmm (p_hart s) (pmm_lock_ s) (PAGE_ALIGN_UP (physical_start d))
                (replicate (Z.to_nat size) 0xFF) size (pmm_last_index s))
  | None => ret tt
  end ;;;
  mapM_ free_region ds ;;;
  (* the first 1MB *)
  for_u64 0 0x100000 PAGE_SIZE pmm_set_frame ;;;
  (* the kernel *)
  (let kernel_start := kernel_base (kernel bi) in
   let kernel_size := kernel_size (kernel bi) in
   for_u64 kernel_start (w64 (w64 (kernel_start + kernel_size) + PAGE_SIZE)) PAGE_SIZE
     pmm_set_frame) ;;;
  (* the bitmap itself *)
  bitmap_addr <- gets bitmap ;;
  mapM_ (fun i => pmm_set_frame (w64 (bitmap_addr + w64 (i * PAGE_SIZE))))
    (seqZ 0 (w64 (w64 (size + PAGE_SIZE) - 1) / PAGE_SIZE)).

(** ** Allocation of one frame *)

(** [__builtin_ctz] on a 32-bit value: the index of the lowest set bit *)
Fixpoint ctz_from (n : nat) (i x : Z) : Z :=
  match n with
  | O => i
  | S n => if Z.testbit x i then i else ctz_from n (i + 1) x
  end.
Definition builtin_ctz (x : Z) : Z := ctz_from 32 0 x.

(** The [for] loop of [pmm_alloc_frame] from byte [i], [n] bytes to go *)
Fixpoint alloc_scan (n : nat) (cpu : option Z) (i : Z) : M pmm Z :=
  match n with
  | O => ret NULL
  | S n =>
      byte <- bitmap_read i ;;
      if byte =? 0xFF then alloc_scan n cpu (i + 1) else
      let free_bits := w8 (Z.lnot byte) in
      if free_bits =? 0 then alloc_scan n cpu (i + 1) else
      let b := builtin_ctz free_bits in
      if negb (b <? 8) then alloc_scan n cpu (i + 1) else
      let frame_index := w64 (i * 8 + b) in
      let frame_addr := w64 (frame_index * PAGE_SIZE) in
      if frame_addr =? 0 then alloc_scan n cpu (i + 1) else
      bitmap_write i (w8 (Z.lor byte (Z.shiftl 1 b))) ;;;
      match cpu with
      | Some c => modify (fun s => set_last_index (<[c := i]> (pmm_last_index s)) s)
      | None => ret tt
      end ;;;
      ret frame_addr
  end.

Definition pmm_alloc_frame : M pmm Z :=
  p <- gets bitmap ;;
  if p =? NULL then ret NULL else
  critical pmm_lock (
    h <- gets p_hart ;;
    hints <- gets pmm_last_index ;;
    size <- gets bitmap_size ;;
    let start_index := match cpu_id h with
                       | Some c => default 0 (hints !! c)
                       | None => 0
                       end in
    alloc_scan (Z.to_nat (size - start_index)) (cpu_id h) start_index).

(** ** Allocation of contiguous frames *)

(** [bitmap64[i]], little endian *)
Fixpoint qword_from (n : nat) (i : Z) : M pmm Z :=
  match n with
  | O => ret 0
  | S n =>
      b <- bitmap_read i ;;
      hi <- qword_from n (i + 1) ;;
      ret (b + 256 * hi)
  end.
Definition bitmap64_read (i : Z) : M pmm Z := qword_from 8 (i * 8).

(** The counting loop: how many of the [j] frames from [bit] on are free
    before the first used one or the end of the bitmap *)
Fixpoint count_free (j : nat) (bit : Z) : M pmm Z :=
  match j with
  | O => ret 0
  | S j =>
      size <- gets bitmap_size ;;
      if w64 (size * 8) <=? bit then ret 0 else
      b <- bitmap_read (bit / 8) ;;
      if Z.land b (Z.shiftl 1 (bit mod 8)) =? 0 then
        r <- count_free j (bit + 1) ;; ret (1 + r)
      else ret 0
  end.

(** Marking the frames [start, start + count) as used *)
Definition mark_used (start count : Z) : M pmm unit :=
  mapM_ (fun bit =>
    b <- bitmap_read (bit / 8) ;;
    bitmap_write (bit / 8) (w8 (Z.lor b (Z.shiftl 1 (bit mod 8)))))
  (seqZ start count).

(** The loop over the 64 bits of a quadword, [n] bits to go *)
Fixpoint scan_bits (n : nat) (start count : Z) : M pmm (option Z) :=
  match n with
  | O => ret None
  | S n =>
      free_found <- count_free (Z.to_nat count) start ;;
      if free_found =? count then
        mark_used start count ;;;
        ret (Some (w64 (start * PAGE_SIZE)))
      else scan_bits n (start + 1) count
  end.

(** The loop over the quadwords, [n] to go *)
Fixpoint scan_qwords (n : nat) (i count : Z) : M pmm Z :=
  match n with
  | O => ret NULL
  | S n =>
      q <- bitmap64_read i ;;
      if q =? 0xFFFFFFFFFFFFFFFF then scan_qwords n (i + 1) count else
      r <- scan_bits 64 (i * 64) count ;;
      match r with
      | Some phys_addr => ret phys_addr
      | None => scan_qwords n (i + 1) count
      end
  end.

Definition pmm_alloc_frames (count : Z) : M pmm Z :=
  p <- gets bitmap ;;
  if (p =? NULL) || (count =? 0) then ret NULL else
  critical pmm_lock (
    size <- gets bitmap_size ;;
    scan_qwords (Z.to_nat (size / 8)) 0 count).

(** ** Release *)

Definition pmm_free_frame (frame : Z) : M pmm unit :=
  if frame =? NULL then ret tt else
  critical pmm_lock (
    pmm_unset_frame frame ;;;
    h <- gets p_hart ;;
    hints <- gets pmm_last_index ;;
    let frame_index := (frame / PAGE_SIZE) / 8 in
    match cpu_id h with
    | Some c => when (frame_index <? default 0 (hints !! c))
                  (modify (fun s => set_last_index (<[c := frame_index]> (pmm_last_index s)) s))
    | None => ret tt
    end).


Definition pmm_move_to_high_half : M pmm unit :=
  p <- gets bitmap ;;
  when (negb (p =? NULL) && (p <? HHDM_OFFSET))
    (modify (fun s => mkPmm (p_hart s) (pmm_lock_ s) (phys_to_virt (bitmap s)) (bytes s)
                        (bitmap_size s) (pmm_last_index s))).

(** ** The bitmap as a set of frames *)

(** Frame [x] is used: its bit is set, or the bitmap does not cover it. *)
Definition used (bs : list Z) (x : Z) : bool :=
  if x <? 0 then true else
  match bs !! Z.to_nat (x / 8) with
  | Some b => Z.testbit b (x mod 8)
  | None => true
  end.

Definition frame_used (s : pmm) (x : Z) : bool := used (bytes s) x.

Definition mark (bs : list Z) (x : Z) : list Z :=
  alter (fun b => w8 (Z.lor b (Z.shiftl 1 (x mod 8)))) (Z.to_nat (x / 8)) bs.
Definition unmark (bs : list Z) (x : Z) : list Z :=
  alter (fun b => w8 (Z.land b (Z.lnot (Z.shiftl 1 (x mod 8))))) (Z.to_nat (x / 8)) bs.

(** The bitmap covers [8 * bitmap_size] frames, all of them below the 64-bit
    physical limit, and its cells are bytes. *)
Record bitmap_ok (s : pmm) : Prop := {
  bytes_len : Z.of_nat (length (bytes s)) = bitmap_size s;
  bytes_range : Forall (fun b => 0 <= b < 256) (bytes s);
  frames_range : bitmap_size s * 8 * PAGE_SIZE < 2 ^ 64;
}.

Definition frames (s : pmm) : Z := bitmap_size s * 8.

(** The invariant of the manager between two calls. *)
Record pmm_ok (s : pmm) : Prop := {
  ok_bitmap : bitmap_ok s;
  ok_hints : map_Forall (fun _ i => 0 <= i) (pmm_last_index s);
  ok_hart : hart_ok (p_hart s);
  ok_lock : lock_free (pmm_lock_ s);
}.

#[global] Instance bitmap_ok_dec s : Decision (bitmap_ok s).
Proof.
  refine (cast_if_and3 (decide (Z.of_nat (length (bytes s)) = bitmap_size s))
    (decide (Forall (fun b => 0 <= b < 256) (bytes s)))
    (decide (bitmap_size s * 8 * PAGE_SIZE < 2 ^ 64))); abstract first [by split|by intros []].
Defined.
#[global] Instance pmm_ok_dec s : Decision (pmm_ok s).
Proof.
  refine (cast_if_and4 (decide (bitmap_ok s))
    (decide (map_Forall (fun _ i => 0 <= i) (pmm_last_index s)))
    (decide (hart_ok (p_hart s))) (decide (lock_free (pmm_lock_ s))));
  abstract first [by split|by intros []].
Defined.

Section bits.
Lemma testbit_setbit b k j :
  0 <= b < 256 -> 0 <= k < 8 -> 0 <= j < 8 ->
  Z.testbit (w8 (Z.lor b (Z.shiftl 1 k))) j = (j =? k) || Z.testbit b j.
Proof.
  intros Hb Hk Hj. unfold w8. rewrite Z.mod_pow2_bits_low by lia.
  rewrite Z.lor_spec, testbit_shift1 by lia. apply orb_comm.
Qed.

Lemma testbit_clearbit b k j :
  0 <= b < 256 -> 0 <= k < 8 -> 0 <= j < 8 ->
  Z.testbit (w8 (Z.land b (Z.lnot (Z.shiftl 1 k)))) j = negb (j =? k) && Z.testbit b j.
Proof.
  intros Hb Hk Hj. unfold w8. rewrite Z.mod_pow2_bits_low by lia.
  rewrite Z.land_spec, Z.lnot_spec, testbit_shift1 by lia. apply andb_comm.
Qed.

Lemma testbit_w8_lnot b j : 0 <= j < 8 -> Z.testbit (w8 (Z.lnot b)) j = negb (Z.testbit b j).
Proof.
  intros Hj. unfold w8. rewrite Z.mod_pow2_bits_low by lia. by rewrite Z.lnot_spec by lia.
Qed.

(** A byte is [0xFF] exactly when its eight bits are set. *)
Lemma byte_full b :
  0 <= b < 256 -> (forall j, 0 <= j < 8 -> Z.testbit b j = true) -> b = 0xFF.
Proof.
  intros Hb Hj. change 0xFF with (Z.ones 8). apply Z.bits_inj'. intros n Hn.
  destruct (decide (n < 8)).
  - rewrite Hj by lia. symmetry. apply Z.ones_spec_low. lia.
  - rewrite Z.ones_spec_high by lia. by apply (testbit_above b 8); [|lia].
Qed.

Lemma ctz_from_spec n i x :
  0 <= i -> (exists k, i <= k < i + Z.of_nat n /\ Z.testbit x k = true) ->
  let r := ctz_from n i x in
  i <= r < i + Z.of_nat n /\ Z.testbit x r = true /\
  (forall j, i <= j < r -> Z.testbit x j = false).
Proof.
  revert i. induction n as [|n IH]; intros i Hi (k & Hk & Ht); [lia|]. simpl.
  destruct (Z.testbit x i) eqn:E.
  - split; [lia|]. split; [done|]. intros j Hj. lia.
  - destruct (IH (i + 1)) as (H1 & H2 & H3); [lia| |].
    + exists k. split; [|done]. destruct (decide (k = i)); [congruence|lia].
    + split; [lia|]. split; [done|]. intros j Hj.
      destruct (decide (j = i)) as [->|]; [done|]. apply H3. lia.
Qed.

(** On the complement of a byte that is not full, [__builtin_ctz] is the
    position of the byte's lowest clear bit. *)
Lemma ctz_free b :
  0 <= b < 256 -> b <> 0xFF ->
  let k := builtin_ctz (w8 (Z.lnot b)) in
  w8 (Z.lnot b) <> 0 /\ 0 <= k < 8 /\ Z.testbit b k = false /\
  (forall j, 0 <= j < k -> Z.testbit b j = true).
Proof.
  intros Hb Hf.
  assert (exists k, 0 <= k < 8 /\ Z.testbit b k = false) as (k & Hk & Hbk).
  { destruct (decide (Exists (fun j => Z.testbit b j = false) (seqZ 0 8))) as [HE|HE].
    - apply Exists_exists in HE as (j & Hj & E). apply elem_of_seqZ in Hj. exists j. split; [lia|done].
    - exfalso. apply Hf, byte_full; [done|]. intros j Hj.
      destruct (Z.testbit b j) eqn:E; [done|]. exfalso. apply HE, Exists_exists.
      exists j. rewrite elem_of_seqZ. split; [lia|done]. }
  assert (Z.testbit (w8 (Z.lnot b)) k = true) as Hnk by (by rewrite testbit_w8_lnot, Hbk).
  destruct (ctz_from_spec 32 0 (w8 (Z.lnot b))) as (H1 & H2 & H3); [done|exists k; split; [lia|done]|].
  fold (builtin_ctz (w8 (Z.lnot b))) in *.
  assert (builtin_ctz (w8 (Z.lnot b)) < 8).
  { destruct (decide (builtin_ctz (w8 (Z.lnot b)) < 8)); [done|].
    rewrite (testbit_above _ 8) in H2; [done|apply w8_range|lia]. }
  split; [intros E; by rewrite E, Z.bits_0 in Hnk|]. split; [lia|].
  rewrite testbit_w8_lnot in H2 by lia. split; [by apply negb_true_iff|].
  intros j Hj. specialize (H3 j ltac:(lia)). rewrite testbit_w8_lnot in H3 by lia.
  by apply negb_false_iff.
Qed.
End bits.

Section frames.
Context (bs : list Z) (Hbs : Forall (fun b => 0 <= b < 256) bs).

Lemma byte_at x :
  0 <= x < 8 * Z.of_nat (length bs) ->
  exists b, bs !! Z.to_nat (x / 8) = Some b /\ 0 <= b < 256 /\ used bs x = Z.testbit b (x mod 8).
Proof.
  intros Hx. destruct (lookup_lt_is_Some_2 bs (Z.to_nat (x / 8))) as [b Hb].
  { assert (x / 8 < Z.of_nat (length bs)) by (apply Z.div_lt_upper_bound; lia).
    pose proof (Z.div_pos x 8). lia. }
  exists b. split; [done|]. split; [exact (Forall_lookup_1 _ _ _ _ Hbs Hb)|].
  unfold used. destruct (Z.ltb_spec x 0); [lia|]. by rewrite Hb.
Qed.

Lemma used_beyond x : 8 * Z.of_nat (length bs) <= x -> used bs x = true.
Proof.
  intros Hx. unfold used. destruct (Z.ltb_spec x 0); [done|].
  rewrite lookup_ge_None_2; [done|].
  assert (Z.of_nat (length bs) <= x / 8) by (apply Z.div_le_lower_bound; lia). lia.
Qed.

Lemma length_mark x : length (mark bs x) = length bs.
Proof. apply length_alter. Qed.
Lemma length_unmark x : length (unmark bs x) = length bs.
Proof. apply length_alter. Qed.

Lemma mark_range x : Forall (fun b => 0 <= b < 256) (mark bs x).
Proof. apply Forall_alter; [done|]. intros b Hb ?. apply w8_range. Qed.
Lemma unmark_range x : Forall (fun b => 0 <= b < 256) (unmark bs x).
Proof. apply Forall_alter; [done|]. intros b Hb ?. apply w8_range. Qed.

(** Two frames in the same byte differ in their bit. *)
Lemma frame_byte_bit x y : x / 8 = y / 8 -> x mod 8 = y mod 8 -> x = y.
Proof. intros. rewrite (Z.div_mod x 8), (Z.div_mod y 8); lia. Qed.

Lemma used_alter f x y :
  0 <= x < 8 * Z.of_nat (length bs) ->
  used (alter f (Z.to_nat (x / 8)) bs) y =
  if decide (0 <= y /\ y / 8 = x / 8)
  then match bs !! Z.to_nat (x / 8) with
       | Some b => Z.testbit (f b) (y mod 8) | None => true end
  else used bs y.
Proof.
  intros Hx. unfold used. destruct (Z.ltb_spec y 0).
  { rewrite decide_False by lia. done. }
  case_decide as Hd.
  - destruct Hd as [_ ->]. rewrite list_lookup_alter_eq. by destruct (bs !! _).
  - rewrite list_lookup_alter_ne; [done|]. intros E. apply Hd. split; [done|].
    pose proof (Z.div_pos x 8). pose proof (Z.div_pos y 8). lia.
Qed.

Lemma used_mark x y :
  0 <= x < 8 * Z.of_nat (length bs) -> used (mark bs x) y = (x =? y) || used bs y.
Proof.
  intros Hx. unfold mark. rewrite used_alter by done.
  destruct (byte_at x Hx) as (b & Hb & Hr & Hu). rewrite Hb.
  pose proof (Z.mod_pos_bound x 8). pose proof (Z.mod_pos_bound y 8). case_decide as Hd.
  - rewrite testbit_setbit by lia. unfold used. destruct (Z.ltb_spec y 0); [lia|].
    destruct Hd as [_ Hd]. rewrite Hd, Hb. f_equal.
    destruct (Z.eqb_spec x y) as [->|]; [by rewrite Z.eqb_refl|].
    destruct (Z.eqb_spec (y mod 8) (x mod 8)); [|done]. by destruct n; apply frame_byte_bit.
  - destruct (Z.eqb_spec x y) as [->|]; [|done]. exfalso. apply Hd. lia.
Qed.

Lemma used_unmark x y :
  0 <= x < 8 * Z.of_nat (length bs) -> used (unmark bs x) y = negb (x =? y) && used bs y.
Proof.
  intros Hx. unfold unmark. rewrite used_alter by done.
  destruct (byte_at x Hx) as (b & Hb & Hr & Hu). rewrite Hb.
  pose proof (Z.mod_pos_bound x 8). pose proof (Z.mod_pos_bound y 8). case_decide as Hd.
  - rewrite testbit_clearbit by lia. unfold used. destruct (Z.ltb_spec y 0); [lia|].
    destruct Hd as [_ Hd]. rewrite Hd, Hb. do 2 f_equal.
    destruct (Z.eqb_spec x y) as [->|]; [by rewrite Z.eqb_refl|].
    destruct (Z.eqb_spec (y mod 8) (x mod 8)); [|done]. by destruct n; apply frame_byte_bit.
  - destruct (Z.eqb_spec x y) as [->|]; [|done]. exfalso. apply Hd. lia.
Qed.
End frames.

(** ** The byte accesses *)

Lemma bitmap_read_ok i b s :
  0 <= i -> bytes s !! Z.to_nat i = Some b -> bitmap_read i s = Ok (b, s).
Proof.
  intros Hi Hb. unfold bitmap_read. cbv [bind gets]. destruct (Z.ltb_spec i 0); [lia|].
  by rewrite Hb.
Qed.

Lemma bitmap_write_ok i v b s :
  0 <= i -> bytes s !! Z.to_nat i = Some b ->
  bitmap_write i v s = Ok (tt, set_bytes (<[Z.to_nat i := v]> (bytes s)) s).
Proof.
  intros Hi Hb. unfold bitmap_write. cbv [bind gets]. destruct (Z.ltb_spec i 0); [lia|].
  by rewrite Hb.
Qed.

Lemma list_alter_insert {A} (f : A -> A) (i : nat) (l : list A) x :
  l !! i = Some x -> alter f i l = <[i := f x]> l.
Proof.
  revert i. induction l as [|y l IH]; intros [|i] Hx; simpl in *; try done; [congruence|].
  f_equal. by apply IH.
Qed.

(** Setting and clearing a frame's bit are total inside the bitmap. *)
Lemma set_bit_ok x s :
  bitmap_ok s -> 0 <= x < frames s ->
  bind (bitmap_read (x / 8))
    (fun b => bitmap_write (x / 8) (w8 (Z.lor b (Z.shiftl 1 (x mod 8))))) s
  = Ok (tt, set_bytes (mark (bytes s) x) s).
Proof.
  intros [Hl Hr _] Hx. unfold frames in Hx.
  destruct (byte_at (bytes s) Hr x ltac:(lia)) as (b & Hb & _). pose proof (Z.div_pos x 8).
  rewrite (bind_ok _ _ _ _ _ (bitmap_read_ok (x / 8) b s ltac:(lia) Hb)).
  rewrite (bitmap_write_ok _ _ b) by (done || lia). unfold mark.
  by rewrite (list_alter_insert _ _ _ _ Hb).
Qed.

Lemma clear_bit_ok x s :
  bitmap_ok s -> 0 <= x < frames s ->
  bind (bitmap_read (x / 8))
    (fun b => bitmap_write (x / 8) (w8 (Z.land b (Z.lnot (Z.shiftl 1 (x mod 8)))))) s
  = Ok (tt, set_bytes (unmark (bytes s) x) s).
Proof.
  intros [Hl Hr _] Hx. unfold frames in Hx.
  destruct (byte_at (bytes s) Hr x ltac:(lia)) as (b & Hb & _). pose proof (Z.div_pos x 8).
  rewrite (bind_ok _ _ _ _ _ (bitmap_read_ok (x / 8) b s ltac:(lia) Hb)).
  rewrite (bitmap_write_ok _ _ b) by (done || lia). unfold unmark.
  by rewrite (list_alter_insert _ _ _ _ Hb).
Qed.

Lemma bitmap_ok_set_bytes bs s :
  bitmap_ok s -> length bs = length (bytes s) -> Forall (fun b => 0 <= b < 256) bs ->
  bitmap_ok (set_bytes bs s).
Proof. intros [Hl Hr Hf] Hlen Hbs. split; simpl; [by rewrite Hlen|done|done]. Qed.

Lemma bitmap_ok_mark x s : bitmap_ok s -> bitmap_ok (set_bytes (mark (bytes s) x) s).
Proof.
  intros Hs. apply bitmap_ok_set_bytes; [done|apply length_mark|apply mark_range, Hs].
Qed.

Lemma bitmap_ok_unmark x s : bitmap_ok s -> bitmap_ok (set_bytes (unmark (bytes s) x) s).
Proof.
  intros Hs. apply bitmap_ok_set_bytes; [done|apply length_unmark|apply unmark_range, Hs].
Qed.
#[export] Hint Resolve bitmap_ok_mark bitmap_ok_unmark : kernel.

Lemma frames_len s : bitmap_ok s -> frames s = 8 * Z.of_nat (length (bytes s)).
Proof. intros Hs. unfold frames. rewrite <-(bytes_len s Hs). lia. Qed.

(** ** Allocation of one frame: proofs *)

(** A frame the scan of [pmm_alloc_frame] passes over: it is used, or it lies
    in byte 0 while frame 0 itself is free (the code then skips the byte). *)
Definition skipped (bs : list Z) (y : Z) : Prop :=
  used bs y = true \/ (y < 8 /\ used bs 0 = false).

(** The state after frame [x] was taken. *)
Definition taken (cpu : option Z) (x : Z) (s : pmm) : pmm :=
  let s' := set_bytes (mark (bytes s) x) s in
  match cpu with
  | Some c => set_last_index (<[c := x / 8]> (pmm_last_index s)) s'
  | None => s'
  end.

(** What the scan from byte [i] may do: give up after passing over every
    remaining frame, or take the first frame it does not pass over. *)
Definition scan_outcome (cpu : option Z) (i : Z) (s : pmm) (r : Z) (s' : pmm) : Prop :=
  (r = NULL /\ s' = s /\ forall y, i * 8 <= y < frames s -> skipped (bytes s) y) \/
  (exists x, 0 < x < frames s /\ i * 8 <= x /\ used (bytes s) x = false /\
     r = x * PAGE_SIZE /\ s' = taken cpu x s /\
     forall y, i * 8 <= y < x -> skipped (bytes s) y).

Lemma byte_index i k : 0 <= k < 8 -> (i * 8 + k) / 8 = i /\ (i * 8 + k) mod 8 = k.
Proof.
  intros Hk. split; [symmetry; apply Z.div_unique with k|symmetry; apply Z.mod_unique with i]; lia.
Qed.

(** The eight frames of byte [i]. *)
Lemma used_byte bs i b k :
  0 <= i -> bs !! Z.to_nat i = Some b -> 0 <= k < 8 -> used bs (i * 8 + k) = Z.testbit b k.
Proof.
  intros Hi Hb Hk. unfold used. destruct (Z.ltb_spec (i * 8 + k) 0); [lia|].
  destruct (byte_index i k Hk) as [-> ->]. by rewrite Hb.
Qed.

Lemma scan_outcome_skip cpu i s r s' :
  (forall k, 0 <= k < 8 -> skipped (bytes s) (i * 8 + k)) ->
  scan_outcome cpu (i + 1) s r s' -> scan_outcome cpu i s r s'.
Proof.
  intros Hk.
  assert (forall y z, (forall y, (i + 1) * 8 <= y < z -> skipped (bytes s) y) ->
                      i * 8 <= y < z -> skipped (bytes s) y) as Hext.
  { intros y z D Hy. destruct (decide ((i + 1) * 8 <= y)); [apply D; lia|].
    replace y with (i * 8 + (y - i * 8)) by lia. apply Hk. lia. }
  intros [(-> & -> & D)|(x & Hx & Hix & Hu & -> & -> & D)].
  - left. split_and!; try done. intros y. by apply Hext.
  - right. exists x. split_and!; try done; try lia. intros y. by apply Hext.
Qed.

(** Taking bit [k] of byte [i]. *)
Lemma take_bit cpu i k b s :
  0 <= i -> 0 <= k < 8 -> bytes s !! Z.to_nat i = Some b ->
  bind (bitmap_write i (w8 (Z.lor b (Z.shiftl 1 k)))) (fun _ =>
    bind (match cpu with
          | Some c => modify (fun s => set_last_index (<[c := i]> (pmm_last_index s)) s)
          | None => ret tt
          end) (fun _ => ret ((i * 8 + k) * PAGE_SIZE))) s
  = Ok ((i * 8 + k) * PAGE_SIZE, taken cpu (i * 8 + k) s).
Proof.
  intros Hi Hk Hb. rewrite (bind_ok _ _ s tt (set_bytes (mark (bytes s) (i * 8 + k)) s)).
  2:{ rewrite (bitmap_write_ok _ _ b) by done. unfold mark.
      destruct (byte_index i k Hk) as [-> ->]. by rewrite (list_alter_insert _ _ _ _ Hb). }
  rewrite (bind_ok _ _ _ tt (taken cpu (i * 8 + k) s)); [done|].
  unfold taken. destruct (byte_index i k Hk) as [-> _]. by destruct cpu.
Qed.

Lemma alloc_scan_spec n cpu i s :
  bitmap_ok s -> 0 <= i -> i + Z.of_nat n = bitmap_size s ->
  exists r s', alloc_scan n cpu i s = Ok (r, s') /\ scan_outcome cpu i s r s'.
Proof.
  intros Hs. revert i. induction n as [|n IH]; intros i Hi Hn.
  { exists NULL, s. split; [done|]. left. split_and!; try done.
    intros y Hy. unfold frames in Hy. lia. }
  pose proof Hs as [Hl Hr Hmax]. unfold PAGE_SIZE in Hmax.
  destruct (lookup_lt_is_Some_2 (bytes s) (Z.to_nat i)) as [b Hb]; [lia|].
  pose proof (Forall_lookup_1 _ _ _ _ Hr Hb) as Hrb. pose proof (fun k => used_byte (bytes s) i b k Hi Hb) as Hbit.
  assert ((forall k, 0 <= k < 8 -> skipped (bytes s) (i * 8 + k)) ->
    exists r s', alloc_scan n cpu (i + 1) s = Ok (r, s') /\ scan_outcome cpu i s r s') as Hskip.
  { intros Hk. destruct (IH (i + 1)) as (r & s' & E & D); [lia|lia|].
    eauto using scan_outcome_skip. }
  simpl. rewrite (bind_ok _ _ _ _ _ (bitmap_read_ok i b s Hi Hb)).
  destruct (Z.eqb_spec b 0xFF) as [->|Hnf].
  { apply Hskip. intros k Hk. left. rewrite Hbit by done. change 0xFF with (Z.ones 8).
    apply Z.ones_spec_low. lia. }
  destruct (ctz_free b Hrb Hnf) as (Hnz & Hk & Hbk & Hlow).
  set (k := builtin_ctz (w8 (Z.lnot b))) in *.
  destruct (Z.eqb_spec (w8 (Z.lnot b)) 0); [done|].
  destruct (Z.ltb_spec k 8); [|lia]. cbn [negb].
  rewrite (w64_small (i * 8 + k)), w64_small by (unfold PAGE_SIZE; lia).
  destruct (Z.eqb_spec ((i * 8 + k) * PAGE_SIZE) 0) as [E0|E0]; unfold PAGE_SIZE in E0.
  { apply Hskip. intros j Hj. right. split; [lia|].
    replace 0 with (i * 8 + k) by lia. by rewrite Hbit. }
  eexists _, _. split; [by apply take_bit|]. right. exists (i * 8 + k).
  unfold frames. split_and!; try done; try lia.
  - by rewrite Hbit.
  - intros y Hy. left. replace y with (i * 8 + (y - i * 8)) by lia.
    rewrite Hbit by lia. apply Hlow. lia.
Qed.

Lemma taken_bytes cpu x s : bytes (taken cpu x s) = mark (bytes s) x.
Proof. unfold taken. by destruct cpu. Qed.

Lemma taken_ok cpu x s : bitmap_ok s -> bitmap_ok (taken cpu x s).
Proof. intros Hs%(bitmap_ok_mark x). destruct Hs, cpu; by split. Qed.

Lemma taken_hints cpu x s :
  0 <= x -> map_Forall (fun _ i => 0 <= i) (pmm_last_index s) ->
  map_Forall (fun _ i => 0 <= i) (pmm_last_index (taken cpu x s)).
Proof.
  intros Hx Hi. destruct cpu as [c|]; simpl; [|done].
  apply map_Forall_insert_2; [apply Z.div_pos; lia|done].
Qed.

(** The hint of the executing CPU. *)
Definition hint (s : pmm) : Z :=
  match cpu_id (p_hart s) with
  | Some c => default 0 (pmm_last_index s !! c)
  | None => 0
  end.

Lemma hint_nonneg s : pmm_ok s -> 0 <= hint s.
Proof.
  intros Hs. unfold hint. destruct (cpu_id (p_hart s)) as [c|]; [|done].
  destruct (pmm_last_index s !! c) as [i|] eqn:E; simpl; [|done].
  by apply (ok_hints _ Hs c i).
Qed.

(** What a critical section over the bitmap leaves of the state. *)
Lemma pmm_critical_ok {A} (body : M pmm A) s a s' :
  pmm_ok s -> body (enter pmm_lock s) = Ok (a, s') ->
  p_hart s' = masked (p_hart s) -> pmm_lock_ s' = held (p_hart s) (pmm_lock_ s) ->
  critical pmm_lock body s = Ok (a, leave pmm_lock s s').
Proof. intros Hs Hb Hh Hl. apply (critical_ok pmm_lock); [apply Hs|apply Hs|done..]. Qed.

Lemma pmm_ok_leave s s' :
  pmm_ok s -> bitmap_ok s' -> map_Forall (fun _ i => 0 <= i) (pmm_last_index s') ->
  pmm_ok (leave pmm_lock s s').
Proof.
  intros [_ _ Hh Hl] [H1 H2 H3] Hi. split; simpl; try done. by apply released_free.
Qed.

Lemma pmm_alloc_frame_run s :
  pmm_ok s -> bitmap s <> NULL ->
  exists r s1, pmm_alloc_frame s = Ok (r, leave pmm_lock s s1) /\
    scan_outcome (cpu_id (p_hart s)) (hint s) (enter pmm_lock s) r s1.
Proof.
  intros Hs Hb. pose proof (hint_nonneg s Hs) as Hh. pose proof Hs as [Hbm Hhi _ _].
  assert (bitmap_ok (enter pmm_lock s)) as Hbm' by (destruct Hbm; by split).
  assert (exists r s1,
    alloc_scan (Z.to_nat (bitmap_size s - hint s)) (cpu_id (p_hart s)) (hint s) (enter pmm_lock s)
      = Ok (r, s1) /\
    scan_outcome (cpu_id (p_hart s)) (hint s) (enter pmm_lock s) r s1) as (r & s1 & E & D).
  { destruct (decide (hint s < bitmap_size s)).
    - apply alloc_scan_spec; simpl; try done. lia.
    - replace (Z.to_nat (bitmap_size s - hint s)) with 0%nat by lia. eexists _, _. split; [done|].
      left. split_and!; try done. intros y Hy. unfold frames in Hy. simpl in Hy. lia. }
  exists r, s1. split; [|done]. unfold pmm_alloc_frame. cbv [bind gets].
  destruct (Z.eqb_spec (bitmap s) NULL); [done|]. apply pmm_critical_ok; [done|exact E|..];
    destruct D as [(_ & -> & _)|(x & _ & _ & _ & _ & -> & _)]; simpl; try done;
    unfold taken; by destruct (cpu_id (p_hart s)).
Qed.

Lemma pmm_alloc_frame_null s : bitmap s = NULL -> pmm_alloc_frame s = Ok (NULL, s).
Proof. intros E. unfold pmm_alloc_frame. cbv [bind gets]. by rewrite E. Qed.

Lemma taken_frames s x cpu : frames (leave pmm_lock s (taken cpu x (enter pmm_lock s))) = frames s.
Proof. by destruct cpu. Qed.

Lemma used_taken s x cpu y :
  bitmap_ok s -> 0 <= x < frames s ->
  frame_used (leave pmm_lock s (taken cpu x (enter pmm_lock s))) y = (x =? y) || frame_used s y.
Proof.
  intros Hs Hx. unfold frame_used. change (bytes (leave pmm_lock s ?s')) with (bytes s').
  rewrite taken_bytes. apply used_mark; [apply Hs|]. simpl. by rewrite <-frames_len.
Qed.

Lemma leave_taken_ok s x cpu :
  pmm_ok s -> 0 <= x -> pmm_ok (leave pmm_lock s (taken cpu x (enter pmm_lock s))).
Proof.
  intros Hs Hx. pose proof Hs as [Hbm Hhi _ _].
  assert (bitmap_ok (enter pmm_lock s)) as Hbm' by (destruct Hbm; by split).
  apply pmm_ok_leave; [done|by apply taken_ok|by apply taken_hints].
Qed.

(** C2: [pmm_alloc_frame] is correct: it returns, leaves the invariant, the
    interrupt flag and a free lock behind, and either hands out the lowest
    frame at or after the CPU's hint that it may hand out (page-aligned, not
    frame 0, previously free, now the only frame changed), or returns NULL,
    in which case nothing changed and no such frame exists. *)
Theorem pmm_alloc_frame_correct s :
  pmm_ok s -> bitmap s <> NULL ->
  exists r s', pmm_alloc_frame s = Ok (r, s') /\ pmm_ok s' /\ p_hart s' = p_hart s /\
    ((r = NULL /\ (forall y, frame_used s' y = frame_used s y) /\
      (forall y, hint s * 8 <= y < frames s -> skipped (bytes s) y)) \/
     (exists x, r = x * PAGE_SIZE /\ 0 < x < frames s /\ hint s * 8 <= x /\
        frame_used s x = false /\
        (forall y, hint s * 8 <= y < x -> skipped (bytes s) y) /\
        (forall y, frame_used s' y = (x =? y) || frame_used s y))).
Proof.
  intros Hs Hb. destruct (pmm_alloc_frame_run s Hs Hb) as (r & s1 & E & D).
  pose proof Hs as [Hbm Hhi _ _]. exists r, (leave pmm_lock s s1). split; [done|].
  assert (bitmap_ok (enter pmm_lock s)) as Hbm' by (destruct Hbm; by split).
  destruct D as [(-> & -> & D)|(x & Hx & Hix & Hu & -> & -> & D)].
  - split; [by apply pmm_ok_leave|]. split; [done|]. left. by split_and!.
  - split; [apply leave_taken_ok; [done|lia]|].
    change (frames (enter pmm_lock s)) with (frames s) in Hx.
    split; [done|]. right. exists x. split_and!; try done; try lia. intros y.
    apply used_taken; [done|lia].
Qed.

Lemma pmm_alloc_frame_correct_witness :
  let s := mkPmm (mkHart 0x200 (Some 1) true) spinlock_init 0x100000 [0xFF; 0xEF] 2 ∅ in
  exists r s', pmm_alloc_frame s = Ok (r, s') /\ pmm_ok s' /\ r = 0xC000.
Proof.
  intros s. destruct (pmm_alloc_frame_correct s) as (r & s' & E & Hok & _); [by_decide|done|].
  exists r, s'. split_and!; [done|done|]. vm_compute in E. congruence.
Defined.

(** ** Contiguous allocation: proofs *)

(** [count] free frames from [start] on. *)
Definition run_free (bs : list Z) (start count : Z) : bool :=
  forallb (fun y => negb (used bs y)) (seqZ start count).

Lemma run_free_iff bs start count :
  run_free bs start count = true <-> forall y, start <= y < start + count -> used bs y = false.
Proof.
  unfold run_free. rewrite forallb_forall. split.
  - intros H y Hy. apply negb_true_iff, H, list_elem_of_In, elem_of_seqZ. lia.
  - intros H y Hy%list_elem_of_In%elem_of_seqZ. apply negb_true_iff, H. lia.
Qed.

(** The specification of the search: the lowest start below [limit] of a run
    of [count] free frames. *)
Definition first_fit (bs : list Z) (limit count : Z) : option Z :=
  List.find (fun x => run_free bs x count) (seqZ 0 limit).

(** The state after the run was marked. *)
Definition mark_run (bs : list Z) (start count : Z) : list Z :=
  fold_left mark (seqZ start count) bs.

Lemma count_free_spec j bit s :
  bitmap_ok s -> 0 <= bit ->
  exists n, count_free j bit s = Ok (n, s) /\ 0 <= n <= Z.of_nat j /\
    (n =? Z.of_nat j) = run_free (bytes s) bit (Z.of_nat j).
Proof.
  intros Hs. revert bit. induction j as [|j IH]; intros bit Hb.
  { exists 0. done. }
  pose proof Hs as [Hl Hr Hmax]. unfold PAGE_SIZE in Hmax. cbn [count_free].
  assert (run_free (bytes s) bit (Z.of_nat (S j)) =
          negb (used (bytes s) bit) && run_free (bytes s) (bit + 1) (Z.of_nat j)) as ->.
  { unfold run_free. rewrite seqZ_cons by lia. simpl. do 2 f_equal. f_equal; lia. }
  rewrite (bind_ok _ _ s (bitmap_size s) s) by done. rewrite w64_small by lia. case_bool.
  { exists 0. split; [done|]. split; [lia|]. rewrite used_beyond by lia. by rewrite (proj2 (Z.eqb_neq _ _)) by lia. }
  destruct (byte_at (bytes s) Hr bit ltac:(lia)) as (b & Hbb & Hrb & Hu).
  rewrite (bind_ok _ _ s b s) by (apply bitmap_read_ok; [apply Z.div_pos; lia|done]).
  rewrite land_bit_zero by (apply Z.mod_pos_bound; lia). rewrite Hu.
  destruct (Z.testbit b (bit mod 8)); cbn [negb].
  - exists 0. split; [done|]. split; [lia|]. by rewrite (proj2 (Z.eqb_neq _ _)) by lia.
  - destruct (IH (bit + 1)) as (n & En & Hn & E); [lia|]. exists (1 + n).
    split; [by rewrite (bind_ok _ _ _ _ _ En)|].
    split; [lia|]. rewrite <-E. simpl. apply Bool.eq_true_iff_eq. rewrite !Z.eqb_eq. lia.
Qed.

Lemma mark_used_ok start count s :
  bitmap_ok s -> 0 <= start -> start + count <= frames s ->
  mark_used start count s = Ok (tt, set_bytes (mark_run (bytes s) start count) s) /\
  bitmap_ok (set_bytes (mark_run (bytes s) start count) s) /\
  (forall y, used (mark_run (bytes s) start count) y =
             ((start <=? y) && (y <? start + count)) || used (bytes s) y).
Proof.
  intros Hs H0 Hle. unfold mark_used, mark_run.
  assert (forall y, y ∈ seqZ start count -> 0 <= y < frames s) as Hin.
  { intros y Hy%elem_of_seqZ. lia. }
  assert (forall y, existsb (fun x => x =? y) (seqZ start count) =
                    (start <=? y) && (y <? start + count)) as Hex.
  { intros y. apply Bool.eq_true_iff_eq. rewrite existsb_exists, andb_true_iff, Z.leb_le, Z.ltb_lt.
    setoid_rewrite <-list_elem_of_In. setoid_rewrite elem_of_seqZ. setoid_rewrite Z.eqb_eq.
    split; [intros (x & ? & ->); lia|]. intros. by exists y. }
  setoid_rewrite <-Hex. clear Hle Hex. revert s Hs Hin.
  induction (seqZ start count) as [|x l IH]; intros s Hs Hin; simpl.
  { split_and!; [by destruct s|by destruct s|done]. }
  rewrite (bind_ok _ _ _ _ _ (set_bit_ok x s Hs (Hin x ltac:(by left)))).
  destruct (IH (set_bytes (mark (bytes s) x) s)) as (E & Hok & Hu).
  { by apply bitmap_ok_mark. }
  { intros y Hy. apply Hin. by right. }
  split_and!; [exact E|exact Hok|]. intros y. rewrite Hu. simpl.
  rewrite used_mark; [|apply Hs|rewrite <-frames_len by done; apply Hin; by left].
  destruct (x =? y), (existsb _ l); done.
Qed.

(** The search result and the state that goes with it. *)
Definition found (s : pmm) (count : Z) (o : option Z) : option Z * pmm :=
  match o with
  | Some x => (Some (x * PAGE_SIZE), set_bytes (mark_run (bytes s) x count) s)
  | None => (None, s)
  end.

Lemma run_free_bound s x count :
  bitmap_ok s -> 0 < count -> run_free (bytes s) x count = true -> 0 <= x /\ x + count <= frames s.
Proof.
  intros Hs Hc Hr. rewrite run_free_iff in Hr. rewrite frames_len by done. split.
  - pose proof (Hr x ltac:(lia)) as Hx. unfold used in Hx.
    by destruct (Z.ltb_spec x 0).
  - destruct (decide (x + count <= 8 * Z.of_nat (length (bytes s)))); [done|].
    specialize (Hr (x + count - 1) ltac:(lia)). by rewrite used_beyond in Hr by lia.
Qed.

Lemma first_fit_some bs limit count x :
  first_fit bs limit count = Some x ->
  0 <= x < limit /\ run_free bs x count = true /\
  forall x', 0 <= x' < x -> run_free bs x' count = false.
Proof.
  unfold first_fit. assert (forall n i, List.find (fun x => run_free bs x count) (seqZ i (Z.of_nat n)) = Some x ->
    i <= x < i + Z.of_nat n /\ run_free bs x count = true /\
    forall x', i <= x' < x -> run_free bs x' count = false) as Hn.
  { intros n. induction n as [|n IH]; intros i Ef; [done|]. rewrite seqZ_cons in Ef by lia. simpl in Ef.
    destruct (run_free bs i count) eqn:Er.
    - injection Ef as ->. split_and!; [lia|lia|done|]. intros. lia.
    - replace (Z.pred (Z.of_nat (S n))) with (Z.of_nat n) in Ef by lia.
      apply IH in Ef as (Hx & Hr & Hmin). split_and!; [lia|lia|done|]. intros x' Hx'.
      destruct (decide (x' = i)) as [->|]; [done|]. apply Hmin. lia. }
  destruct (decide (0 <= limit)) as [Hl|Hl].
  - rewrite <-(Z2Nat.id limit Hl). intros Ef. apply Hn in Ef. by rewrite Z.add_0_l in Ef.
  - replace limit with (Z.of_nat 0 + limit) by lia. unfold seqZ.
    by replace (Z.to_nat (Z.of_nat 0 + limit)) with 0%nat by lia.
Qed.

Lemma find_app {A} (f : A -> bool) l k :
  List.find f (l ++ k) = match List.find f l with Some x => Some x | None => List.find f k end.
Proof. induction l as [|x l IH]; simpl; [done|]. by destruct (f x). Qed.

Lemma scan_bits_spec n start count s :
  bitmap_ok s -> 0 <= start -> 0 < count ->
  scan_bits n start count s =
  Ok (found s count (List.find (fun x => run_free (bytes s) x count) (seqZ start (Z.of_nat n)))).
Proof.
  intros Hs H0 Hc. revert start H0. induction n as [|n IH]; intros start H0; [done|].
  cbn [scan_bits]. destruct (count_free_spec (Z.to_nat count) start s Hs H0) as (k & Ek & _ & Er).
  rewrite (bind_ok _ _ _ _ _ Ek). rewrite Z2Nat.id in Er by lia. rewrite Er.
  rewrite seqZ_cons by lia. simpl List.find.
  destruct (run_free (bytes s) start count) eqn:E.
  - destruct (run_free_bound s start count Hs Hc E).
    destruct (mark_used_ok start count s Hs H0) as (Em & _ & _); [done|].
    rewrite (bind_ok _ _ _ _ _ Em). unfold found. pose proof (frames_range s Hs).
    unfold frames, PAGE_SIZE in *. rewrite w64_small by lia. done.
  - rewrite IH by lia. do 4 f_equal; lia.
Qed.

Lemma qword_from_spec n i s :
  bitmap_ok s -> 0 <= i -> i + Z.of_nat n <= bitmap_size s ->
  exists q, qword_from n i s = Ok (q, s) /\ 0 <= q < 2 ^ (8 * Z.of_nat n) /\
    (q = 2 ^ (8 * Z.of_nat n) - 1 ->
     forall y, i * 8 <= y < (i + Z.of_nat n) * 8 -> used (bytes s) y = true).
Proof.
  intros Hs. revert i. induction n as [|n IH]; intros i H0 Hn.
  { exists 0. split; [done|]. split; [done|]. intros _ y Hy. lia. }
  pose proof Hs as [Hl Hr _]. cbn [qword_from].
  destruct (lookup_lt_is_Some_2 (bytes s) (Z.to_nat i)) as [b Hb]; [lia|].
  pose proof (Forall_lookup_1 _ _ _ _ Hr Hb) as Hrb. cbv beta in Hrb.
  rewrite (bind_ok _ _ _ _ _ (bitmap_read_ok i b s H0 Hb)).
  destruct (IH (i + 1)) as (q & Eq & Hq & Hfull); [lia|lia|].
  rewrite (bind_ok _ _ _ _ _ Eq). exists (b + 256 * q). split; [done|].
  replace (8 * Z.of_nat (S n)) with (8 + 8 * Z.of_nat n) by lia.
  rewrite Z.pow_add_r by lia. change (2 ^ 8) with 256. split; [lia|].
  intros E. assert (b = 0xFF /\ q = 2 ^ (8 * Z.of_nat n) - 1) as [-> Hqf] by lia.
  intros y Hy. destruct (decide ((i + 1) * 8 <= y)); [apply Hfull; lia|].
  replace y with (i * 8 + (y - i * 8)) by lia. rewrite (used_byte _ i 0xFF) by (done || lia).
  change 0xFF with (Z.ones 8). apply Z.ones_spec_low. lia.
Qed.

(** Skipping a full quadword skips no candidate. *)
Lemma find_full bs start n count :
  0 < count -> (forall y, start <= y < start + n -> used bs y = true) ->
  List.find (fun x => run_free bs x count) (seqZ start n) = None.
Proof.
  intros Hc Hu. destruct (List.find _ _) as [x|] eqn:E; [|done].
  apply find_some in E as [Hx Hr]. apply list_elem_of_In, elem_of_seqZ in Hx.
  rewrite run_free_iff in Hr. specialize (Hr x ltac:(lia)). by rewrite Hu in Hr by lia.
Qed.

Lemma scan_qwords_spec n i count s :
  bitmap_ok s -> 0 <= i -> (i + Z.of_nat n) * 8 <= bitmap_size s -> 0 < count ->
  scan_qwords n i count s =
  Ok (let '(o, s') := found s count (List.find (fun x => run_free (bytes s) x count)
                                       (seqZ (i * 64) (Z.of_nat n * 64))) in
      (default NULL o, s')).
Proof.
  intros Hs H0 Hn Hc. revert i H0 Hn. induction n as [|n IH]; intros i H0 Hn; [done|].
  cbn [scan_qwords]. unfold bitmap64_read.
  destruct (qword_from_spec 8 (i * 8) s) as (q & Eq & Hq & Hfull); [done|lia|lia|].
  rewrite (bind_ok _ _ _ _ _ Eq).
  replace (Z.of_nat (S n) * 64) with (64 + Z.of_nat n * 64) by lia.
  rewrite seqZ_app, find_app by lia. specialize (IH (i + 1) ltac:(lia) ltac:(lia)).
  replace ((i + 1) * 64) with (i * 64 + 64) in IH by lia.
  destruct (Z.eqb_spec q 0xFFFFFFFFFFFFFFFF) as [->|].
  - rewrite (find_full _ (i * 64)); [done|done|]. intros y Hy. apply Hfull; [done|lia].
  - unfold bind at 1. rewrite scan_bits_spec by (done || lia).
    change (Z.of_nat 64) with 64. by destruct (List.find _ (seqZ (i * 64) 64)).
Qed.

Lemma found_ok s count o x :
  bitmap_ok s -> 0 < count -> o = Some x -> run_free (bytes s) x count = true ->
  bitmap_ok (snd (found s count o)) /\
  (forall y, used (bytes (snd (found s count o))) y =
             ((x <=? y) && (y <? x + count)) || used (bytes s) y).
Proof.
  intros Hs Hc -> Hr. destruct (run_free_bound s x count Hs Hc Hr).
  by destruct (mark_used_ok x count s) as (_ & ? & ?).
Qed.

Lemma pmm_alloc_frames_run s count :
  pmm_ok s -> bitmap s <> NULL -> 0 < count ->
  let o := first_fit (bytes s) (bitmap_size s / 8 * 64) count in
  exists s', pmm_alloc_frames count s = Ok (default NULL ((fun x => x * PAGE_SIZE) <$> o), s') /\
    pmm_ok s' /\ p_hart s' = p_hart s /\ bitmap_size s' = bitmap_size s /\
    (forall y, frame_used s' y =
       match o with
       | Some x => ((x <=? y) && (y <? x + count)) || frame_used s y
       | None => frame_used s y
       end).
Proof.
  intros Hs Hb Hc o. pose proof Hs as [Hbm Hhi _ _].
  assert (bitmap_ok (enter pmm_lock s)) as Hbm' by (destruct Hbm; by split).
  assert (0 <= bitmap_size s) by (rewrite <-(bytes_len s Hbm); lia).
  pose proof (Z.div_mod (bitmap_size s) 8). pose proof (Z.mod_pos_bound (bitmap_size s) 8).
  pose proof (Z.div_pos (bitmap_size s) 8).
  pose proof (scan_qwords_spec (Z.to_nat (bitmap_size s / 8)) 0 count (enter pmm_lock s) Hbm'
    ltac:(lia) ltac:(simpl; lia) Hc) as E.
  rewrite Z2Nat.id in E by lia. change (0 * 64) with 0 in E.
  change (List.find _ _) with o in E.
  destruct (found (enter pmm_lock s) count o) as [r s1] eqn:Ef.
  assert (p_hart s1 = masked (p_hart s) /\ pmm_lock_ s1 = held (p_hart s) (pmm_lock_ s) /\
          pmm_last_index s1 = pmm_last_index s /\ bitmap_size s1 = bitmap_size s) as (E1 & E2 & E3 & E4).
  { unfold found in Ef. destruct o; by simplify_eq. }
  exists (leave pmm_lock s s1). split.
  { unfold pmm_alloc_frames. cbv [bind gets]. destruct (Z.eqb_spec (bitmap s) NULL); [done|].
    destruct (Z.eqb_spec count 0); [lia|]. cbn [orb].
    erewrite pmm_critical_ok; [|done|exact E|done|done].
    unfold found in Ef. destruct o; by simplify_eq. }
  destruct o as [x|] eqn:Eo.
  - apply find_some in Eo as [_ Hr].
    destruct (found_ok (enter pmm_lock s) count (Some x) x Hbm' Hc eq_refl Hr) as [Hok Hu].
    rewrite Ef in Hok, Hu. split; [apply pmm_ok_leave; [done|done|by rewrite E3]|]. by split_and!.
  - injection Ef as <- <-. split; [by apply pmm_ok_leave|]. by split_and!.
Qed.

(** C3: [pmm_alloc_frames] is first fit: whatever quadwords it skips, it hands
    out the lowest run of [count] free frames that starts in a whole quadword
    of the bitmap, and exactly those frames become used; a null result with
    nothing changed means that there is no such run. The invariant, the
    interrupt flag and the lock are as before the call. *)
Theorem pmm_alloc_frames_first_fit s count :
  pmm_ok s -> bitmap s <> NULL -> 0 < count ->
  let limit := bitmap_size s / 8 * 64 in
  let free_run x := forall y, x <= y < x + count -> frame_used s y = false in
  exists r s', pmm_alloc_frames count s = Ok (r, s') /\ pmm_ok s' /\ p_hart s' = p_hart s /\
    ((r = NULL /\ (forall y, frame_used s' y = frame_used s y) /\
      (forall x, 0 <= x < limit -> ~ free_run x)) \/
     (exists x, r = x * PAGE_SIZE /\ 0 <= x < limit /\ x + count <= frames s /\ free_run x /\
        (forall x', 0 <= x' < x -> ~ free_run x') /\
        (forall y, frame_used s' y = ((x <=? y) && (y <? x + count)) || frame_used s y))).
Proof.
  intros Hs Hb Hc limit free_run.
  destruct (pmm_alloc_frames_run s count Hs Hb Hc) as (s' & E & Hok & Hh & _ & Hu).
  fold limit in E, Hu. exists (default NULL ((fun x => x * PAGE_SIZE) <$> first_fit (bytes s) limit count)), s'.
  split_and!; [done|done|done|].
  destruct (first_fit (bytes s) limit count) as [x|] eqn:Ef; simpl.
  - right. exists x. destruct (first_fit_some _ _ _ _ Ef) as (Hx & Hr & Hmin).
    destruct (run_free_bound s x count (ok_bitmap s Hs) Hc Hr).
    split_and!; try done; try lia; [exact (proj1 (run_free_iff _ _ _) Hr)|].
    intros x' Hx' Hf. apply (run_free_iff (bytes s)) in Hf. by rewrite Hmin in Hf.
  - left. split_and!; [done|done|]. intros x Hx Hf. apply (run_free_iff (bytes s)) in Hf.
    pose proof (find_none _ _ Ef x) as Hn. cbv beta in Hn. rewrite Hn in Hf; [done|].
    apply list_elem_of_In, elem_of_seqZ. lia.
Qed.

Lemma pmm_alloc_frames_first_fit_witness :
  let s := mkPmm (mkHart 0x200 (Some 1) true) spinlock_init 0x100000
             [0xFF; 0xE3; 0; 0; 0; 0; 0; 0] 8 ∅ in
  exists r s', pmm_alloc_frames 4 s = Ok (r, s') /\ pmm_ok s'.
Proof.
  intros s. destruct (pmm_alloc_frames_first_fit s 4) as (r & s' & E & Hok & _); [by_decide|done|done|eauto].
Defined.

(** The state after frame [x] was given back, inside the critical section. *)
Definition freed (x : Z) (s : pmm) : pmm :=
  let s' := set_bytes (unmark (bytes s) x) s in
  match cpu_id (p_hart s) with
  | Some c => if x / 8 <? hint s then set_last_index (<[c := x / 8]> (pmm_last_index s)) s' else s'
  | None => s'
  end.

Lemma freed_fields x s :
  bytes (freed x s) = unmark (bytes s) x /\ bitmap_size (freed x s) = bitmap_size s /\
  p_hart (freed x s) = p_hart s /\ pmm_lock_ (freed x s) = pmm_lock_ s.
Proof. unfold freed. destruct (cpu_id (p_hart s)); [destruct (_ <? _)|]; done. Qed.

Lemma freed_hints x s :
  0 <= x -> map_Forall (fun _ i => 0 <= i) (pmm_last_index s) ->
  map_Forall (fun _ i => 0 <= i) (pmm_last_index (freed x s)).
Proof.
  intros Hx Hm. unfold freed. destruct (cpu_id (p_hart s)); [destruct (_ <? _)|]; simpl; try done.
  apply map_Forall_insert_2; [apply Z.div_pos; lia|done].
Qed.

Lemma pmm_free_frame_run s a :
  let x := a / PAGE_SIZE in
  pmm_ok s -> a <> NULL -> 0 <= x < frames s ->
  pmm_free_frame a s = Ok (tt, leave pmm_lock s (freed x (enter pmm_lock s))) /\
  pmm_ok (leave pmm_lock s (freed x (enter pmm_lock s))).
Proof.
  intros x Hs Ha Hx. pose proof Hs as [Hbm Hhi _ _].
  assert (bitmap_ok (enter pmm_lock s)) as Hbm' by (destruct Hbm; by split).
  set (s0 := enter pmm_lock s) in *. destruct (freed_fields x s0) as (E1 & E2 & E3 & E4). split.
  - unfold pmm_free_frame. destruct (Z.eqb_spec a NULL); [done|].
    apply pmm_critical_ok; [done| |done|done].
    fold s0. unfold pmm_unset_frame. fold x.
    rewrite (bind_ok _ _ _ _ _ (clear_bit_ok x s0 Hbm' Hx)). cbv [bind gets].
    unfold freed, hint. clear E1 E2 E3 E4.
    change (p_hart (set_bytes (unmark (bytes s0) x) s0)) with (p_hart s0).
    destruct (cpu_id (p_hart s0)); [|done]. unfold when.
    change (pmm_last_index (set_bytes _ _)) with (pmm_last_index s0). by destruct (_ <? _).
  - apply pmm_ok_leave; [done| |apply freed_hints; [lia|done]].
    destruct (bitmap_ok_unmark x s0 Hbm') as [B1 B2 B3]. split; rewrite ?E1, ?E2; done.
Qed.

Lemma used_freed s x y :
  bitmap_ok s -> 0 <= x < frames s ->
  frame_used (leave pmm_lock s (freed x (enter pmm_lock s))) y = negb (x =? y) && frame_used s y.
Proof.
  intros Hs Hx. change (used (bytes (freed x (enter pmm_lock s))) y = negb (x =? y) && frame_used s y).
  destruct (freed_fields x (enter pmm_lock s)) as (-> & _).
  apply used_unmark; [apply Hs|]. simpl. by rewrite <-frames_len.
Qed.

Lemma hint_freed s x :
  pmm_ok s -> 0 <= x ->
  hint (leave pmm_lock s (freed x (enter pmm_lock s))) = Z.min (hint s) (x / 8).
Proof.
  intros Hs Hx. pose proof (hint_nonneg s Hs) as Hh. pose proof (Z.div_pos x 8 Hx ltac:(lia)).
  unfold hint in *. change (p_hart (leave _ _ _)) with (p_hart s). unfold freed.
  change (p_hart (enter pmm_lock s)) with (masked (p_hart s)). unfold hint. simpl.
  destruct (cpu_id (p_hart s)) as [c|]; [|simpl; lia]. case_bool; simpl; [|lia].
  rewrite lookup_insert_eq. simpl. lia.
Qed.

(** [pmm_free_frame] of a frame the bitmap covers clears that frame's bit
    and no other, keeps the invariant, the interrupt flag and the lock, and
    lowers the CPU's hint to the frame's byte when it was above it, so that
    the frame is in the range the next allocation scans. *)
Theorem pmm_free_frame_correct s a :
  let x := a / PAGE_SIZE in
  pmm_ok s -> a <> NULL -> 0 <= x < frames s ->
  exists s', pmm_free_frame a s = Ok (tt, s') /\ pmm_ok s' /\ p_hart s' = p_hart s /\
    hint s' = Z.min (hint s) (x / 8) /\
    (forall y, frame_used s' y = negb (x =? y) && frame_used s y).
Proof.
  intros x Hs Ha Hx. destruct (pmm_free_frame_run s a Hs Ha Hx) as [E Hok]. fold x in E, Hok.
  eexists. split; [exact E|]. split_and!; [done|done|apply hint_freed; [done|lia]|].
  intros y. apply (used_freed s x y); [apply Hs|done].
Qed.

Lemma pmm_free_frame_correct_witness :
  let s := mkPmm (mkHart 0x200 (Some 1) true) spinlock_init 0x100000 [0xFF; 0xFF] 2 {[ 1 := 1 ]} in
  exists s', pmm_free_frame 0x3000 s = Ok (tt, s') /\ pmm_ok s' /\ hint s' = 0 /\
    frame_used s' 3 = false.
Proof.
  intros s. destruct (pmm_free_frame_correct s 0x3000) as (s' & E & Hok & _ & Hh & Hu); [by_decide|done|done|].
  exists s'. split_and!; [done|done|by rewrite Hh|by rewrite Hu].
Defined.

(** A frame goes round: giving back the frame [pmm_alloc_frame] has just
    handed out restores the set of used frames, and the invariant holds. *)
Theorem pmm_alloc_free_roundtrip s r s1 :
  pmm_ok s -> pmm_alloc_frame s = Ok (r, s1) -> r <> NULL ->
  exists s2, pmm_free_frame r s1 = Ok (tt, s2) /\ pmm_ok s2 /\
    (forall y, frame_used s2 y = frame_used s y).
Proof.
  intros Hs E Hr.
  assert (bitmap s <> NULL) as Hb.
  { intros Hb. rewrite pmm_alloc_frame_null in E by done. congruence. }
  destruct (pmm_alloc_frame_run s Hs Hb) as (r' & s' & E' & D).
  rewrite E in E'. injection E' as <- ->.
  destruct D as [(-> & _)|(x & Hx & Hix & Hu & -> & -> & _)]; [done|].
  change (0 < x < frames s) in Hx. change (used (bytes s) x = false) in Hu.
  set (s1 := leave pmm_lock s (taken (cpu_id (p_hart s)) x (enter pmm_lock s))).
  assert (pmm_ok s1) as Hs1 by (apply leave_taken_ok; [done|lia]).
  assert (x * PAGE_SIZE / PAGE_SIZE = x) as Ex by (by apply Z.div_mul).
  assert (frames s1 = frames s) as Ef by apply taken_frames.
  destruct (pmm_free_frame_run s1 (x * PAGE_SIZE) Hs1 Hr) as [E2 Hok2]; rewrite Ex in *; [lia|].
  eexists. split; [exact E2|]. split; [done|]. intros y.
  rewrite used_freed by (apply Hs1 || lia). unfold s1. rewrite used_taken by (apply Hs || lia).
  destruct (Z.eqb_spec x y) as [<-|]; [by unfold frame_used; rewrite Hu|done].
Qed.

Lemma pmm_alloc_free_roundtrip_witness :
  let s := mkPmm (mkHart 0x200 (Some 1) true) spinlock_init 0x100000 [0xFF; 0xEF] 2 ∅ in
  let s1 := mkPmm (mkHart 0x200 (Some 1) true) (mkSpinlock 1 1 (-1)) 0x100000 [0xFF; 0xFF] 2
              {[ 1 := 1 ]} in
  exists s2, pmm_free_frame 0xC000 s1 = Ok (tt, s2) /\ pmm_ok s2 /\
    (forall y, frame_used s2 y = frame_used s y).
Proof. intros s s1. apply (pmm_alloc_free_roundtrip s 0xC000 s1); [by_decide|by vm_compute|done]. Defined.

(** With no free frame at or after the executing CPU's hint,
    [pmm_alloc_frame] reports that memory is exhausted, whatever is free
    below the hint: the scan does not wrap around. *)
Theorem pmm_alloc_frame_no_wraparound s :
  pmm_ok s -> bitmap s <> NULL ->
  (forall y, hint s * 8 <= y < frames s -> frame_used s y = true) ->
  exists s', pmm_alloc_frame s = Ok (NULL, s') /\ bytes s' = bytes s.
Proof.
  intros Hs Hb Hu. destruct (pmm_alloc_frame_run s Hs Hb) as (r & s1 & E & D).
  exists (leave pmm_lock s s1). destruct D as [(-> & -> & _)|(x & Hx & Hix & Hx0 & _)]; [done|].
  change (used (bytes s) x = false) in Hx0. change (0 < x < frames s) in Hx.
  unfold frame_used in Hu. rewrite Hu in Hx0; [done|lia].
Qed.

Lemma pmm_alloc_frame_no_wraparound_witness :
  let s := mkPmm (mkHart 0x200 (Some 1) true) spinlock_init 0x100000 [0xFF; 0; 0xFF] 3
             {[ 1 := 2 ]} in
  frame_used s 12 = false /\ exists s', pmm_alloc_frame s = Ok (NULL, s') /\ bytes s' = bytes s.
Proof.
  intros s. split; [done|]. apply (pmm_alloc_frame_no_wraparound s); [by_decide|done|].
  change (hint s * 8) with 16. change (frames s) with 24. intros y Hy.
  assert (y ∈ seqZ 16 8) as Hin by (apply elem_of_seqZ; lia). clear Hy; revert y Hin.
  apply Forall_forall. by_decide.
Defined.

(** ** Initialisation: proofs *)

(** A routine that only edits bits of the bitmap: it returns, the bytes are
    all that changes, and frame [y]'s bit [b] becomes [u y b]. *)
Definition edits (m : M pmm unit) (u : Z -> bool -> bool) (s : pmm) : Prop :=
  exists bs, m s = Ok (tt, set_bytes bs s) /\ bitmap_ok (set_bytes bs s) /\
    forall y, used bs y = u y (used (bytes s) y).

Section edits.
Lemma edits_ret s : bitmap_ok s -> edits (ret tt) (fun _ b => b) s.
Proof. intros Hs. exists (bytes s). by destruct s. Qed.

Lemma edits_ext m u u' s : edits m u s -> (forall y b, u y b = u' y b) -> edits m u' s.
Proof.
  intros (bs & E & Hok & Hu) Hext. exists bs. split_and!; [done|done|].
  intros y. by rewrite <-Hext.
Qed.

Lemma edits_seq m1 m2 u1 u2 s :
  edits m1 u1 s ->
  (forall s', bitmap_ok s' -> bitmap_size s' = bitmap_size s -> bitmap s' = bitmap s -> edits m2 u2 s') ->
  edits (m1 ;;; m2) (fun y b => u2 y (u1 y b)) s.
Proof.
  intros (bs & E & Hok & Hu) H2.
  destruct (H2 (set_bytes bs s) Hok) as (bs' & E' & Hok' & Hu'); [done|done|].
  exists bs'. rewrite (bind_ok _ _ _ _ _ E). split_and!; [done|done|].
  intros y. by rewrite Hu', <-Hu.
Qed.

Lemma edits_mapM {A} (f : A -> M pmm unit) (u : A -> Z -> bool -> bool) l s :
  bitmap_ok s ->
  (forall a s', a ∈ l -> bitmap_ok s' -> bitmap_size s' = bitmap_size s -> edits (f a) (u a) s') ->
  edits (mapM_ f l) (fun y b => fold_left (fun b a => u a y b) l b) s.
Proof.
  revert s. induction l as [|a l IH]; intros s Hs Hf; simpl; [by apply edits_ret|].
  apply (edits_seq _ _ (u a) (fun y b => fold_left (fun b a => u a y b) l b)).
  - apply Hf; [by left|done|done].
  - intros s' Hs' Esz _. apply IH; [done|]. intros a' s'' Ha Hs'' E''.
    apply Hf; [by right|done|congruence].
Qed.

Lemma edits_set addr s :
  bitmap_ok s -> 0 <= addr / PAGE_SIZE < frames s ->
  edits (pmm_set_frame addr) (fun y b => (addr / PAGE_SIZE =? y) || b) s.
Proof.
  intros Hs Ha. exists (mark (bytes s) (addr / PAGE_SIZE)).
  split_and!; [by apply set_bit_ok|by apply bitmap_ok_mark|].
  intros y. apply used_mark; [apply Hs|]. by rewrite <-frames_len.
Qed.

Lemma edits_unset addr s :
  bitmap_ok s -> 0 <= addr / PAGE_SIZE < frames s ->
  edits (pmm_unset_frame addr) (fun y b => negb (addr / PAGE_SIZE =? y) && b) s.
Proof.
  intros Hs Ha. exists (unmark (bytes s) (addr / PAGE_SIZE)).
  split_and!; [by apply clear_bit_ok|by apply bitmap_ok_unmark|].
  intros y. apply used_unmark; [apply Hs|]. by rewrite <-frames_len.
Qed.

Lemma fold_or {A} (p : A -> bool) l b :
  fold_left (fun b a => p a || b) l b = existsb p l || b.
Proof.
  revert b. induction l as [|a l IH]; intros b; simpl; [done|]. rewrite IH.
  by destruct (p a), (existsb p l).
Qed.

Lemma fold_nand {A} (p : A -> bool) l b :
  fold_left (fun b a => negb (p a) && b) l b = negb (existsb p l) && b.
Proof.
  revert b. induction l as [|a l IH]; intros b; simpl; [done|]. rewrite IH.
  by destruct (p a), (existsb p l).
Qed.

Lemma existsb_run x n y :
  existsb (fun k => x + k =? y) (seqZ 0 n) = (x <=? y) && (y <? x + n).
Proof.
  apply Bool.eq_true_iff_eq. rewrite existsb_exists, andb_true_iff, Z.leb_le, Z.ltb_lt.
  setoid_rewrite <-list_elem_of_In. setoid_rewrite elem_of_seqZ. setoid_rewrite Z.eqb_eq.
  split; [intros (k & ? & <-); lia|]. intros. exists (y - x). lia.
Qed.

(** A loop that marks the [n] frames from [x] on, one per index. *)
Lemma edits_set_run (f : Z -> Z) x n s :
  bitmap_ok s -> 0 <= x -> x + n <= frames s ->
  (forall k, 0 <= k < n -> f k / PAGE_SIZE = x + k) ->
  edits (mapM_ (fun k => pmm_set_frame (f k)) (seqZ 0 n))
    (fun y b => ((x <=? y) && (y <? x + n)) || b) s.
Proof.
  intros Hs H0 Hn Hf. eapply edits_ext.
  - apply (edits_mapM _ (fun k y b => (x + k =? y) || b)); [done|].
    intros k s' Hk%elem_of_seqZ Hs' E. rewrite <-Hf by lia.
    apply edits_set; [done|]. rewrite Hf by lia. unfold frames in *. lia.
  - intros y b. cbv beta. by rewrite (fold_or (fun k => x + k =? y)), existsb_run.
Qed.
End edits.

(** The frames the firmware's map offers: type 7 or 4, at or above 1MB. *)
Definition region_has (d : EFI_MEMORY_DESCRIPTOR) (y : Z) : bool :=
  ((type d =? EFI_CONVENTIONAL_MEMORY) || (type d =? EFI_BOOT_SERVICES_DATA)) &&
  ((physical_start d / PAGE_SIZE <=? y) && (y <? physical_start d / PAGE_SIZE + num_pages d)) &&
  (256 <=? y).

Definition region_ok (d : EFI_MEMORY_DESCRIPTOR) : Prop :=
  physical_start d mod PAGE_SIZE = 0 /\ 0 <= physical_start d /\ 0 <= num_pages d /\
  physical_start d + num_pages d * PAGE_SIZE < 2 ^ 64.

(** What the boot loader hands over: page-granular regions below 2^64, at
    least 1MB of address space, a highest address that fills whole bitmap
    bytes, and a kernel image (with the slack page the code adds) inside. *)
Record boot_map_ok (bi : BootInfo) : Prop := {
  map_regions : Forall region_ok (memory_map (mmap bi));
  map_whole : highest_addr (memory_map (mmap bi)) mod (8 * PAGE_SIZE) = 0;
  map_low : 0x100000 <= highest_addr (memory_map (mmap bi)) < 2 ^ 64;
  map_kernel_aligned : kernel_base (kernel bi) mod PAGE_SIZE = 0;
  map_kernel_base : 0 <= kernel_base (kernel bi) /\ 0 <= kernel_size (kernel bi);
  map_kernel : kernel_base (kernel bi) + kernel_size (kernel bi) + 2 * PAGE_SIZE
               <= highest_addr (memory_map (mmap bi));
}.

Lemma page_index d k :
  region_ok d -> 0 <= k <= num_pages d ->
  w64 (physical_start d + w64 (k * PAGE_SIZE)) = physical_start d + k * PAGE_SIZE /\
  (physical_start d + k * PAGE_SIZE) / PAGE_SIZE = physical_start d / PAGE_SIZE + k.
Proof.
  unfold region_ok, PAGE_SIZE. intros (Ha & H0 & Hn & Hmax) Hk.
  rewrite (w64_small (k * 4096)) by nia. rewrite w64_small by nia.
  split; [done|]. apply Z.div_add. lia.
Qed.

Lemma end_addr_eq d : region_ok d -> end_addr d = physical_start d + num_pages d * PAGE_SIZE.
Proof. intros Hd. apply page_index; [done|]. destruct Hd as (_ & _ & ? & _). lia. Qed.

Lemma max_end_ge ds h d :
  h <= fold_left (fun h d => if h <? end_addr d then end_addr d else h) ds h /\
  (d ∈ ds -> end_addr d <= fold_left (fun h d => if h <? end_addr d then end_addr d else h) ds h).
Proof.
  revert h. induction ds as [|e ds IH]; intros h; simpl.
  - split; [done|]. by intros ?%not_elem_of_nil.
  - destruct (IH (if h <? end_addr e then end_addr e else h)) as [IH1 IH2]. clear IH.
    assert (h <= (if h <? end_addr e then end_addr e else h) /\
            end_addr e <= (if h <? end_addr e then end_addr e else h)) by (case_bool; lia).
    split; [lia|]. intros [->|Hd]%elem_of_cons; [lia|by apply IH2].
Qed.

Lemma highest_addr_ge ds d : d ∈ ds -> end_addr d <= highest_addr ds.
Proof. apply (max_end_ge ds 0 d). Qed.

Section init.
Context (bi : BootInfo) (Hbi : boot_map_ok bi).
Let ds := memory_map (mmap bi).
Let size := highest_addr ds / PAGE_SIZE / 8.

Lemma init_frames : size * 8 * PAGE_SIZE = highest_addr ds.
Proof.
  unfold size. pose proof (map_whole bi Hbi) as Hw. fold ds in Hw. unfold PAGE_SIZE in *.
  rewrite Z.div_div by lia. change (4096 * 8) with (8 * 4096).
  pose proof (Z.div_mod (highest_addr ds) (8 * 4096)). lia.
Qed.

Lemma region_end d : d ∈ ds -> physical_start d / PAGE_SIZE + num_pages d <= size * 8.
Proof.
  intros Hd. pose proof (map_regions bi Hbi) as Hr. rewrite Forall_forall in Hr.
  pose proof (highest_addr_ge ds d Hd) as Hh. rewrite end_addr_eq in Hh by (by apply Hr).
  rewrite <-init_frames in Hh. destruct (Hr d Hd) as (Ha & _). unfold PAGE_SIZE in *.
  Z.div_mod_to_equations; lia.
Qed.

Lemma free_region_edits d s :
  d ∈ ds -> bitmap_ok s -> bitmap_size s = size ->
  edits (free_region d) (fun y b => negb (region_has d y) && b) s.
Proof.
  intros Hd Hs Hsz. pose proof (map_regions bi Hbi) as Hr. rewrite Forall_forall in Hr.
  specialize (Hr d Hd). pose proof (region_end d Hd) as He.
  unfold free_region, region_has. fold EFI_BOOT_SERVICES_DATA.
  destruct (_ || _); cbn [when andb negb]; [|by apply edits_ret].
  set (x := physical_start d / PAGE_SIZE) in *. pose proof Hr as (Ha & Hp & _).
  assert (0 <= x) by (apply Z.div_pos; [done|]; done).
  eapply edits_ext.
  - apply (edits_mapM _ (fun k y b => negb ((x + k =? y) && (256 <=? y)) && b)); [done|].
    intros k s' Hk%elem_of_seqZ Hs' E. destruct (page_index d k Hr ltac:(lia)) as [-> Ex].
    fold x in Ex. assert (physical_start d = x * PAGE_SIZE) as Ep
      by (unfold x, PAGE_SIZE in *; Z.div_mod_to_equations; lia).
    assert ((0x100000 <=? physical_start d + k * PAGE_SIZE) = (256 <=? x + k)) as ->
      by (unfold PAGE_SIZE in *; repeat case_bool; lia || done).
    destruct (Z.leb_spec 256 (x + k)); cbn [when].
    + eapply edits_ext; [apply edits_unset; [done|rewrite Ex; unfold frames; lia]|].
      intros y b. rewrite Ex. destruct (Z.eqb_spec (x + k) y) as [<-|]; [|done].
      destruct (Z.leb_spec 256 (x + k)); [done|lia].
    + eapply edits_ext; [by apply edits_ret|]. intros y b. cbv beta.
      destruct (Z.eqb_spec (x + k) y) as [<-|]; [|done].
      destruct (Z.leb_spec 256 (x + k)); [lia|done].
  - intros y b. cbv beta. rewrite (fold_nand (fun k => (x + k =? y) && (256 <=? y))).
    do 2 f_equal. rewrite <-existsb_run. generalize (seqZ 0 (num_pages d)).
    intros l. induction l as [|k l IH]; simpl; [done|]. rewrite IH.
    by rewrite andb_orb_distrib_l.
Qed.

Lemma low_megabyte_edits s :
  bitmap_ok s -> bitmap_size s = size ->
  edits (for_u64 0 0x100000 PAGE_SIZE pmm_set_frame)
    (fun y b => ((0 <=? y) && (y <? 256)) || b) s.
Proof.
  intros Hs Hsz. pose proof (map_low bi Hbi) as Hlow. fold ds in Hlow.
  rewrite <-init_frames in Hlow. unfold PAGE_SIZE in Hlow.
  destruct (edits_set_run (fun k => 0 + k * PAGE_SIZE) 0 256 s Hs) as (bs & E & Hok & Hu);
    [lia|unfold frames; lia|intros k _; by apply (Z.div_mul k PAGE_SIZE)|].
  exists bs. split_and!; [|done|done]. rewrite <-E. by apply for_u64_runs.
Qed.

(** The frames of the kernel image, with the slack page of the loop bound. *)
Definition kernel_pages : Z := (kernel_size (kernel bi) + 2 * PAGE_SIZE - 1) / PAGE_SIZE.
Definition kernel_has (y : Z) : bool :=
  let k := kernel_base (kernel bi) / PAGE_SIZE in (k <=? y) && (y <? k + kernel_pages).

Lemma kernel_edits s :
  bitmap_ok s -> bitmap_size s = size ->
  edits (let kernel_start := kernel_base (kernel bi) in
         let kernel_size := kernel_size (kernel bi) in
         for_u64 kernel_start (w64 (w64 (kernel_start + kernel_size) + PAGE_SIZE)) PAGE_SIZE
           pmm_set_frame) (fun y b => kernel_has y || b) s.
Proof.
  intros Hs Hsz. pose proof (map_low bi Hbi) as Hl. pose proof (map_kernel bi Hbi) as Hk.
  pose proof (map_kernel_base bi Hbi) as [Hb Hz]. pose proof (map_kernel_aligned bi Hbi) as Ha.
  fold ds in Hl, Hk. pose proof init_frames as Hf. unfold kernel_has, kernel_pages. cbv zeta.
  set (b := kernel_base (kernel bi)) in *. set (z := kernel_size (kernel bi)) in *.
  unfold PAGE_SIZE in *.
  destruct (edits_set_run (fun k => b + k * 4096) (b / 4096) ((z + 2 * 4096 - 1) / 4096) s Hs)
    as (bs & E & Hok & Hu).
  - apply Z.div_pos; lia.
  - unfold frames. rewrite Hsz. Z.div_mod_to_equations; lia.
  - intros k _. apply Z.div_add. lia.
  - exists bs. split_and!; [|done|done]. rewrite <-E.
    rewrite !w64_small by (rewrite ?w64_small; lia).
    apply for_u64_runs; try lia. f_equal. lia.
Qed.

(** The frames of the bitmap, placed at the start of region [d]. *)
Definition bitmap_has (d : EFI_MEMORY_DESCRIPTOR) (y : Z) : bool :=
  let k := physical_start d / PAGE_SIZE in
  (k <=? y) && (y <? k + (highest_addr (memory_map (mmap bi)) / PAGE_SIZE / 8 + PAGE_SIZE - 1) / PAGE_SIZE).

Lemma size_pos : 32 <= size.
Proof.
  pose proof (map_low bi Hbi) as Hl. fold ds in Hl. pose proof init_frames as Hf.
  unfold PAGE_SIZE in Hf. lia.
Qed.

Lemma bitmap_edits d s :
  d ∈ ds -> size <= num_pages d * PAGE_SIZE -> bitmap_ok s -> bitmap_size s = size ->
  bitmap s = physical_start d ->
  edits (bitmap_addr <- gets bitmap ;;
         mapM_ (fun i => pmm_set_frame (w64 (bitmap_addr + w64 (i * PAGE_SIZE))))
           (seqZ 0 (w64 (w64 (size + PAGE_SIZE) - 1) / PAGE_SIZE)))
    (fun y b => bitmap_has d y || b) s.
Proof.
  intros Hd Hle Hs Hsz Hp. pose proof (map_regions bi Hbi) as Hr. rewrite Forall_forall in Hr.
  specialize (Hr d Hd). pose proof (region_end d Hd) as He. pose proof size_pos as Hpos.
  pose proof (map_low bi Hbi) as Hl. fold ds in Hl. pose proof init_frames as Hf.
  unfold bitmap_has. fold ds size. cbv zeta. set (n := (size + PAGE_SIZE - 1) / PAGE_SIZE).
  assert (n <= num_pages d /\ 0 <= n) by (unfold n, PAGE_SIZE in *; Z.div_mod_to_equations; lia).
  pose proof Hr as (_ & Hst & _).
  destruct (edits_set_run (fun i => w64 (bitmap s + w64 (i * PAGE_SIZE)))
    (physical_start d / PAGE_SIZE) n s Hs) as (bs & E & Hok & Hu).
  - by apply Z.div_pos.
  - unfold frames. lia.
  - intros k Hk. rewrite Hp. destruct (page_index d k Hr ltac:(lia)) as [-> ->]. done.
  - exists bs. split_and!; [|done|done]. rewrite <-E. cbv [bind gets]. do 2 f_equal.
    unfold n, PAGE_SIZE in *. rewrite !w64_small by (rewrite ?w64_small; lia). done.
Qed.

(** The passes over a bitmap whose bytes were all set to [0xFF]. *)
Lemma passes_edits d s :
  d ∈ ds -> size <= num_pages d * PAGE_SIZE -> bitmap_ok s -> bitmap_size s = size ->
  bitmap s = physical_start d ->
  edits
    (mapM_ free_region ds ;;;
     for_u64 0 0x100000 PAGE_SIZE pmm_set_frame ;;;
     (let kernel_start := kernel_base (kernel bi) in
      let kernel_size := kernel_size (kernel bi) in
      for_u64 kernel_start (w64 (w64 (kernel_start + kernel_size) + PAGE_SIZE)) PAGE_SIZE
        pmm_set_frame) ;;;
     bitmap_addr <- gets bitmap ;;
     mapM_ (fun i => pmm_set_frame (w64 (bitmap_addr + w64 (i * PAGE_SIZE))))
       (seqZ 0 (w64 (w64 (size + PAGE_SIZE) - 1) / PAGE_SIZE)))
    (fun y b => bitmap_has d y || (kernel_has y || (((0 <=? y) && (y <? 256)) ||
                (negb (existsb (fun d => region_has d y) ds) && b)))) s.
Proof.
  intros Hd Hle Hs Hsz Hp.
  apply (edits_seq _ _ (fun y b => negb (existsb (fun d => region_has d y) ds) && b)
    (fun y b => bitmap_has d y || (kernel_has y || (((0 <=? y) && (y <? 256)) || b)))).
  { eapply edits_ext.
    - apply (edits_mapM _ (fun d y b => negb (region_has d y) && b)); [done|].
      intros e s' He Hs' E. apply free_region_edits; [done|done|congruence].
    - intros y b. apply (fold_nand (fun d => region_has d y)). }
  intros s1 Hs1 E1 B1.
  apply (edits_seq _ _ (fun y b => ((0 <=? y) && (y <? 256)) || b)
    (fun y b => bitmap_has d y || (kernel_has y || b))).
  { apply low_megabyte_edits; [done|congruence]. }
  intros s2 Hs2 E2 B2. apply (edits_seq _ _ (fun y b => kernel_has y || b) (fun y b => bitmap_has d y || b)).
  { apply kernel_edits; [done|congruence]. }
  intros s3 Hs3 E3 B3. apply bitmap_edits; [done|done|done|congruence|congruence].
Qed.
End init.

(** A fresh bitmap has every frame used. *)
Lemma used_full n y : used (replicate n 0xFF) y = true.
Proof.
  unfold used. destruct (Z.ltb_spec y 0); [done|].
  destruct (replicate n 0xFF !! _) as [b|] eqn:E; [|done].
  apply lookup_replicate in E as [-> _]. change 0xFF with (Z.ones 8).
  apply Z.ones_spec_low. by apply Z.mod_pos_bound.
Qed.

(** C4: [pmm_init] builds the right bitmap from the firmware's memory map: it
    runs to completion without touching anything outside the bitmap, places
    the bitmap in the first conventional region that holds it, and afterwards
    a frame is free exactly when a conventional or boot-services-data region
    offers it and it is neither in the first megabyte, nor in the kernel image
    or the slack page behind it, nor in the bitmap itself. The allocator's
    invariant holds. The map must be as [boot_map_ok] says; in particular the
    highest address is a multiple of 32KB, without which the bitmap is too short
    ([pmm_init_overruns_bitmap]). *)
Theorem pmm_init_correct bi h d :
  boot_map_ok bi -> hart_ok h ->
  let ds := memory_map (mmap bi) in
  let size := highest_addr ds / PAGE_SIZE / 8 in
  bitmap_region size ds = Some d ->
  exists s, pmm_init bi (pmm_boot h) = Ok (tt, s) /\ pmm_ok s /\
    bitmap s = physical_start d /\ bitmap_size s = size /\
    (forall y, 0 <= y < frames s -> frame_used s y =
       bitmap_has bi d y || kernel_has bi y || (y <? 256) || negb (existsb (fun d => region_has d y) ds)).
Proof.
  intros Hbi Hh ds size Hreg. destruct (find_some _ _ Hreg) as [Hin Hd].
  apply andb_true_iff in Hd as [_ Hfit]. apply Z.leb_le in Hfit. apply list_elem_of_In in Hin.
  pose proof (map_regions bi Hbi) as Hr. rewrite Forall_forall in Hr. specialize (Hr d Hin).
  pose proof (init_frames bi Hbi) as Hf. pose proof (size_pos bi Hbi) as Hpos.
  pose proof (map_low bi Hbi) as Hlow. fold ds size in Hf, Hpos, Hlow.
  destruct Hr as (Ha & Hst & Hn & Hmax).
  rewrite w64_small in Hfit by (unfold PAGE_SIZE in *; lia).
  assert (PAGE_ALIGN_UP (physical_start d) = physical_start d) as Eup.
  { apply page_align_up_aligned; [|done]. unfold PAGE_SIZE in *. lia. }
  set (s0 := mkPmm h spinlock_init (physical_start d) (replicate (Z.to_nat size) 0xFF) size ∅).
  assert (bitmap_ok s0) as Hs0.
  { split; simpl; [rewrite length_replicate; lia|by apply Forall_replicate|lia]. }
  destruct (passes_edits bi Hbi d s0 Hin Hfit Hs0 eq_refl eq_refl) as (bs & E & Hok & Hu).
  exists (set_bytes bs s0). split.
  { unfold pmm_init. fold ds size. rewrite (bind_ok _ _ _ _ _ eq_refl).
    rewrite Hreg. rewrite (bind_ok _ _ _ _ _ eq_refl), Eup. exact E. }
  split_and!; [split; simpl; try done|done|done|].
  intros y Hy. unfold frame_used. simpl. rewrite Hu. simpl. rewrite used_full, andb_true_r.
  destruct (Z.leb_spec 0 y); [|lia]. cbn [andb]. by rewrite !orb_assoc.
Qed.

Lemma pmm_init_correct_witness :
  let d := mkDescriptor 7 0x100000 0 256 0 in
  let bi := mkBootInfo (mkFramebuffer 0 0 0 0 0 0 0 0 0 0) (mkMemoryMap [d] 1) 0
              (mkBootKernel 0x180000 0x180000 0x4000) (mkBootRamdisk 0 0) in
  exists s, pmm_init bi (pmm_boot (mkHart 0 None false)) = Ok (tt, s) /\ pmm_ok s /\
    frame_used s 0x100 = true /\ frame_used s 0x101 = false /\ frame_used s 0x182 = true.
Proof.
  intros d bi. destruct (pmm_init_correct bi (mkHart 0 None false) d) as (s & E & Hok & _ & Hsz & Hu).
  - split; [|by_decide..]. apply Forall_singleton. by_decide.
  - done.
  - by vm_compute.
  - exists s. split; [done|]. split; [done|].
    rewrite (Hu 0x100), (Hu 0x101), (Hu 0x182) by (unfold frames; rewrite Hsz; by_decide).
    split_and!; reflexivity.
Defined.

(** ** The last, partly filled byte *)

Lemma bitmap_write_cases i v s :
  bitmap_write i v s = Fault \/
  exists bs, bitmap_write i v s = Ok (tt, set_bytes bs s) /\ length bs = length (bytes s).
Proof.
  unfold bitmap_write. cbv [bind gets]. case_bool; [by left|].
  destruct (bytes s !! Z.to_nat i); [|by left]. right. eexists. split; [done|].
  by rewrite length_insert.
Qed.

Lemma bitmap_read_beyond i s : Z.of_nat (length (bytes s)) <= i -> bitmap_read i s = Fault.
Proof.
  intros Hi. unfold bitmap_read. cbv [bind gets]. case_bool; [done|].
  by rewrite lookup_ge_None_2 by lia.
Qed.

Lemma pmm_unset_frame_cases addr s :
  pmm_unset_frame addr s = Fault \/
  exists bs, pmm_unset_frame addr s = Ok (tt, set_bytes bs s) /\ length bs = length (bytes s).
Proof.
  unfold pmm_unset_frame.
  assert (bitmap_read (addr / PAGE_SIZE / 8) s = Fault \/
          exists b, bitmap_read (addr / PAGE_SIZE / 8) s = Ok (b, s)) as [E|[b E]].
  - unfold bitmap_read. cbv [bind gets]. case_bool; [by left|].
    destruct (bytes s !! _); [right; by eexists|by left].
  - left. unfold bind. by rewrite E.
  - rewrite (bind_ok _ _ _ _ _ E). apply bitmap_write_cases.
Qed.

Lemma free_region_step d n k s :
  Z.of_nat (length (bytes s)) <= n ->
  let f j := let addr := w64 (physical_start d + w64 (j * PAGE_SIZE)) in
             when (0x100000 <=? addr) (pmm_unset_frame addr) in
  f k s = Fault \/ exists s', f k s = Ok (tt, s') /\ Z.of_nat (length (bytes s')) <= n.
Proof.
  intros Hn f. unfold f, when. case_bool; [|right; by eexists].
  destruct (pmm_unset_frame_cases (w64 (physical_start d + w64 (k * PAGE_SIZE))) s)
    as [->|(bs & -> & E)]; [by left|]. right. eexists. split; [done|]. simpl. by rewrite E.
Qed.

Lemma free_region_cases d n s :
  Z.of_nat (length (bytes s)) <= n ->
  free_region d s = Fault \/
  exists s', free_region d s = Ok (tt, s') /\ Z.of_nat (length (bytes s')) <= n.
Proof.
  intros Hn. unfold free_region. destruct (_ || _); [cbn [when]|right; by eexists].
  revert s Hn. induction (seqZ 0 (num_pages d)) as [|k l IH]; intros s Hn; [right; by eexists|].
  simpl. destruct (free_region_step d n k s Hn) as [E|(s' & E & Hn')]; cbv zeta in E.
  - left. unfold bind. by rewrite E.
  - rewrite (bind_ok _ _ _ _ _ E). by apply IH.
Qed.

(** A region with a frame behind the bitmap. *)
Lemma free_region_overrun d n y s :
  region_ok d -> region_has d y = true -> 8 * n <= y -> Z.of_nat (length (bytes s)) <= n ->
  free_region d s = Fault.
Proof.
  intros Hok Hy Hn Hs. unfold region_has in Hy. apply andb_true_iff in Hy as [Hy Hlow].
  apply andb_true_iff in Hy as [Ht Hy]. apply andb_true_iff in Hy as [Hlo Hhi].
  apply Z.leb_le in Hlow, Hlo. apply Z.ltb_lt in Hhi. unfold free_region.
  fold EFI_BOOT_SERVICES_DATA. rewrite Ht. cbn [when].
  set (x := physical_start d / PAGE_SIZE) in *.
  apply (mapM_fault _ (fun s => Z.of_nat (length (bytes s)) <= n) _ (y - x)); [done|..].
  - apply elem_of_seqZ. lia.
  - intros k s' Hs'. by apply free_region_step.
  - intros s' Hs'. destruct (page_index d (y - x) Hok ltac:(lia)) as [-> E]. fold x in E.
    assert (0x100000 <= physical_start d + (y - x) * PAGE_SIZE) as Hge
      by (unfold x, PAGE_SIZE in *; Z.div_mod_to_equations; lia).
    apply Z.leb_le in Hge. rewrite Hge. cbn [when]. unfold pmm_unset_frame.
    rewrite E. replace (x + (y - x)) with y by lia. unfold bind.
    rewrite bitmap_read_beyond; [done|]. apply Z.div_le_lower_bound; lia.
Qed.

(** The bitmap holds [highest_addr / 4096 / 8] bytes, rounded down, so when
    the memory map offers a frame past the last whole byte (the highest
    address is not a multiple of 32KB) [pmm_init] accesses memory behind the
    bitmap to free it. *)
Theorem pmm_init_overruns_bitmap bi h d y :
  let ds := memory_map (mmap bi) in
  d ∈ ds -> region_ok d -> region_has d y = true -> 8 * (highest_addr ds / PAGE_SIZE / 8) <= y ->
  pmm_init bi (pmm_boot h) = Fault.
Proof.
  intros ds Hd Hok Hy Hbig. unfold pmm_init. fold ds.
  set (size := highest_addr ds / PAGE_SIZE / 8) in *.
  rewrite (bind_ok _ _ _ _ _ eq_refl).
  assert (0 <= size) by (apply Z.div_pos; [apply Z.div_pos; [apply (max_end_ge ds 0 d)|done]|done]).
  assert (forall s, Z.of_nat (length (bytes s)) <= size -> mapM_ free_region ds s = Fault) as Hrun.
  { intros s Hs. apply (mapM_fault _ (fun s => Z.of_nat (length (bytes s)) <= size) _ d); [done|done|..].
    - intros e s' Hs'. by apply free_region_cases.
    - intros s' Hs'. by apply (free_region_overrun d size y). }
  destruct (bitmap_region size ds) as [e|]; rewrite (bind_ok _ _ _ _ _ eq_refl); unfold bind;
    rewrite Hrun; [done| |done|done]; simpl; rewrite length_replicate; lia.
Qed.

Lemma pmm_init_overruns_bitmap_witness :
  let d := mkDescriptor 7 0x100000 0 257 0 in
  let bi := mkBootInfo (mkFramebuffer 0 0 0 0 0 0 0 0 0 0) (mkMemoryMap [d] 1) 0
              (mkBootKernel 0x180000 0x180000 0x4000) (mkBootRamdisk 0 0) in
  pmm_init bi (pmm_boot (mkHart 0 None false)) = Fault.
Proof.
  intros d bi. apply (pmm_init_overruns_bitmap bi _ d 512); [by left|by_decide|done|by_decide].
Defined.

(** ** The interface *)

#[export] Instance pmm_allocator : FrameAllocator pmm := {
  fa_alloc := pmm_alloc_frame;
  fa_alloc_n := pmm_alloc_frames;
  fa_free := pmm_free_frame;
  fa_move := pmm_move_to_high_half;
  fa_ok := pmm_ok;
  fa_used := frame_used;
  fa_frames := frames;
}.

#[export] Instance pmm_allocator_ok : FrameAllocatorOk pmm.
Proof.
  split; [apply _|..]; simpl.
  - by intros f [_ _ ? _].
  - intros f h [[? ? ?] ? _ ?] Hh. by repeat split.
  - intros f [[Hl _ Hr] _ _ _]. unfold frames. lia.
  - intros f y Hf Hy. unfold frame_used. destruct (Z.ltb_spec y 0) as [Hn|].
    + unfold used. by destruct (Z.ltb_spec y 0); [|lia].
    + apply used_beyond. rewrite <-frames_len by apply Hf. lia.
  - intros s Hs. apply wp_ok. destruct (decide (bitmap s = NULL)) as [Hb|Hb].
    { exists NULL, s. split; [by apply pmm_alloc_frame_null|]. split_and!; try done. by left. }
    destruct (pmm_alloc_frame_run s Hs Hb) as (r & s1 & E & D). eexists _, _. split; [exact E|].
    destruct D as [(-> & -> & _)|(x & Hx & Hix & Hu & -> & -> & _)].
    + split; [apply pmm_ok_leave; [done| |apply Hs]; destruct Hs as [[? ? ?] _ _ _]; by split|].
      split_and!; [done|done|by left].
    + change (0 < x < frames s) in Hx. split_and!; [apply leave_taken_ok; [done|lia]|done|apply taken_frames|].
      right. exists x. split_and!; try done; try (simpl; lia).
      * intros y Hy. by replace y with x by lia.
      * intros y. simpl. rewrite used_taken by (apply Hs || lia). f_equal.
        apply Bool.eq_true_iff_eq. rewrite andb_true_iff, Z.eqb_eq, Z.leb_le, Z.ltb_lt. lia.
  - intros s count Hs Hc H0. apply wp_ok.
    destruct (decide (bitmap s = NULL \/ count = 0)) as [Hb|Hb].
    { exists NULL, s. split_and!; try done; [|by left]. unfold pmm_alloc_frames. cbv [bind gets].
      by destruct Hb as [->| ->]; rewrite ?orb_true_r. }
    destruct (pmm_alloc_frames_run s count Hs) as (s' & E & Hok & Hh & Hsz & Hu); [tauto|lia|].
    eexists _, _. split; [exact E|]. split_and!; try done; [by unfold frames; rewrite Hsz|].
    destruct (first_fit _ _ _) as [x|] eqn:Ef; [|by left]. right. exists x.
    destruct (first_fit_some _ _ _ _ Ef) as (Hx & Hr & _).
    destruct (run_free_bound s x count (ok_bitmap s Hs) ltac:(lia) Hr).
    pose proof (proj1 (run_free_iff _ _ _) Hr) as Hfr. split_and!; try done.
    destruct (decide (x = 0)) as [->|]; [|lia]. unfold frame_used in H0. by rewrite Hfr in H0 by lia.
  - intros s a Hs Ha. apply wp_ok. destruct (Z.eqb_spec a NULL) as [->|Hn].
    { exists tt, s. by split_and!. }
    destruct (pmm_free_frame_run s a Hs Hn Ha) as [E Hok]. eexists _, _. split; [exact E|].
    split_and!; [done|done| |].
    + destruct (freed_fields (a / PAGE_SIZE) (enter pmm_lock s)) as (_ & E2 & _). unfold frames.
      change (bitmap_size (leave pmm_lock s ?s')) with (bitmap_size s'). by rewrite E2.
    + intros y. rewrite used_freed by (apply Hs || done). by rewrite Z.eqb_sym.
  - intros s Hs. apply wp_ok. unfold pmm_move_to_high_half, when. cbv [bind gets].
    destruct (_ && _); eexists _, _; (split; [reflexivity|]); [|done].
    destruct Hs as [[? ? ?] ? ? ?]. split_and!; try done.
Qed.
