(* ===== verification/Vmm.v ===== *)
(** * Virtual memory manager

    Models [kernel/memory/vmm.c] and [kernel/include/memory/vmm.h]: four-level
    page tables in physical memory, mapping, unmapping and translation of
    pages and ranges, and the creation and destruction of user address spaces.

    - [vmm] is the module's state over a frame allocator [F] (the interface of
      [Frames]): the lock, the [kernel_pml4] pointer, physical memory as
      quadwords by physical address, and the log of TLB operations.
    - A pointer is dereferenced through [deref_ptr]: the identity mapping while
      [kernel_pml4] is null, the direct map at [HHDM_OFFSET] afterwards; any
      other address is a [Fault].
    - [walk] is the processor's view: the leaf entry a page walk reaches. The
      theorems relate every operation to it. *)

From S2P Require Import Prelude Lock Boot Frames.

(** ** Constants and index macros *)

Definition VMM_ADDR_MASK : Z := 0x000000FFFFFFF000.
Definition PTE_PRESENT : Z := Z.shiftl 1 0.
Definition PTE_WRITABLE : Z := Z.shiftl 1 1.
Definition PTE_USER : Z := Z.shiftl 1 2.
Definition PTE_PWT : Z := Z.shiftl 1 3.
Definition PTE_PCD : Z := Z.shiftl 1 4.
Definition PTE_ACCESSED : Z := Z.shiftl 1 5.
Definition PTE_DIRTY : Z := Z.shiftl 1 6.
Definition PTE_HUGE : Z := Z.shiftl 1 7.
Definition PTE_GLOBAL : Z := Z.shiftl 1 8.
Definition PTE_NX : Z := Z.shiftl 1 63.

Definition PML4_IDX (addr : Z) : Z := Z.land (Z.shiftr addr 39) 0x1FF.
Definition PDPT_IDX (addr : Z) : Z := Z.land (Z.shiftr addr 30) 0x1FF.
Definition PD_IDX (addr : Z) : Z := Z.land (Z.shiftr addr 21) 0x1FF.
Definition PT_IDX (addr : Z) : Z := Z.land (Z.shiftr addr 12) 0x1FF.

(** [e & PTE_PRESENT] as a condition *)
Definition has (e flag : Z) : bool := negb (Z.land e flag =? 0).

(** ** State *)

(** What the module does to translation caches: [invlpg], and the
    inter-processor interrupt of [sync_tlb]. *)
Inductive tlb_op := Invlpg (virt : Z) | SyncTlb.

Record vmm (F : Type) := mkVmm {
  v_alloc : F;
  vmm_lock_ : spinlock;
  kernel_pml4 : Z;
  kernel_pml4_phys : Z;
  mem : gmap Z Z;
  tlb_log : list tlb_op;
}.
Arguments mkVmm {F}.
Arguments v_alloc {F}.
Arguments vmm_lock_ {F}.
Arguments kernel_pml4 {F}.
Arguments kernel_pml4_phys {F}.
Arguments mem {F}.
Arguments tlb_log {F}.

(** The section symbols the linker provides. *)
Record kernel_image := mkImage {
  text_start : Z; text_end : Z;
  rodata_start : Z; rodata_end : Z;
  data_start : Z; data_end : Z;
}.

Section vmm.
Context {F : Type} `{FrameAllocator F}.

Definition set_alloc (f : F) (s : vmm F) : vmm F :=
  mkVmm f (vmm_lock_ s) (kernel_pml4 s) (kernel_pml4_phys s) (mem s) (tlb_log s).
Definition set_mem (m : gmap Z Z) (s : vmm F) : vmm F :=
  mkVmm (v_alloc s) (vmm_lock_ s) (kernel_pml4 s) (kernel_pml4_phys s) m (tlb_log s).
Definition log_tlb (o : tlb_op) (s : vmm F) : vmm F :=
  mkVmm (v_alloc s) (vmm_lock_ s) (kernel_pml4 s) (kernel_pml4_phys s) (mem s) (o :: tlb_log s).

#[export] Instance vmm_hart : HasHart (vmm F) := Lens
  (fun s => lget hart_of (v_alloc s))
  (fun h s => set_alloc (lset hart_of h (v_alloc s)) s).

Definition vmm_lock : lens (vmm F) spinlock := Lens vmm_lock_
  (fun l s => mkVmm (v_alloc s) l (kernel_pml4 s) (kernel_pml4_phys s) (mem s) (tlb_log s)).

(** A call into the frame allocator. *)
Definition pmm_call {A} (m : M F A) : M (vmm F) A := fun s =>
  match m (v_alloc s) with
  | Ok (a, f) => Ok (a, set_alloc f s)
  | Fault => Fault
  | Panic => Panic
  | Hang => Hang
  end.

(** ** Memory access *)

(** The physical address behind a pointer to a page table. *)
Definition deref_ptr (p : Z) : M (vmm F) Z :=
  k <- gets kernel_pml4 ;;
  if k =? NULL then ret p else
  if HHDM_OFFSET <=? p then ret (p - HHDM_OFFSET) else fault.

(** [t->entries[i]] as an rvalue and as an lvalue *)
Definition read_entry (t i : Z) : M (vmm F) Z :=
  a <- deref_ptr t ;;
  m <- gets mem ;;
  ret (default 0 (m !! (a + 8 * i))).
Definition write_entry (t i v : Z) : M (vmm F) unit :=
  a <- deref_ptr t ;;
  modify (fun s => set_mem (<[a + 8 * i := v]> (mem s)) s).

Definition zero_page (a : Z) (m : gmap Z Z) : gmap Z Z :=
  fold_left (fun m i => <[a + 8 * i := 0]> m) (seqZ 0 512) m.

(** [memset(t, 0, PAGE_SIZE)] *)
Definition memset_page (t : Z) : M (vmm F) unit :=
  a <- deref_ptr t ;;
  modify (fun s => set_mem (zero_page a (mem s)) s).

Definition vmm_get_table (phys : Z) : M (vmm F) Z :=
  k <- gets kernel_pml4 ;;
  ret (if k =? NULL then phys else phys_to_virt phys).

Definition vmm_invlpg (addr : Z) : M (vmm F) unit := modify (log_tlb (Invlpg addr)).
(** The call is recorded; the broadcast and the wait for its delivery, which is
    taken to end, are [sync_tlb_ipi] of [Devices]. *)
Definition sync_tlb : M (vmm F) unit := modify (log_tlb SyncTlb).

(** ** Mapping and unmapping, unlocked *)

Definition vmm_unmap_unlocked (pml4 virt : Z) : M (vmm F) unit :=
  e <- read_entry pml4 (PML4_IDX virt) ;;
  if negb (has e PTE_PRESENT) then ret tt else
  pdpt <- vmm_get_table (Z.land e VMM_ADDR_MASK) ;;
  e <- read_entry pdpt (PDPT_IDX virt) ;;
  if negb (has e PTE_PRESENT) then ret tt else
  pd <- vmm_get_table (Z.land e VMM_ADDR_MASK) ;;
  e <- read_entry pd (PD_IDX virt) ;;
  if negb (has e PTE_PRESENT) then ret tt else
  pt <- vmm_get_table (Z.land e VMM_ADDR_MASK) ;;
  write_entry pt (PT_IDX virt) 0 ;;;
  vmm_invlpg virt.

(** [(size + PAGE_SIZE - 1) / PAGE_SIZE] *)
Definition num_pages_of (size : Z) : Z := w64 (w64 (size + PAGE_SIZE) - 1) / PAGE_SIZE.

Definition vmm_unmap_range_unlocked (pml4 virt size : Z) : M (vmm F) unit :=
  mapM_ (fun i => vmm_unmap_unlocked pml4 (w64 (virt + w64 (i * PAGE_SIZE))))
    (seqZ 0 (num_pages_of size)).

(** The loop over the three upper levels: the last-level table, or [None]
    when a frame for a missing table could not be had. *)
Fixpoint map_levels (indices : list Z) (current_table flags : Z) : M (vmm F) (option Z) :=
  match indices with
  | [] => ret (Some current_table)
  | i :: indices =>
      entry <- read_entry current_table i ;;
      ok <- (if negb (has entry PTE_PRESENT) then
               new_table_phys <- pmm_call fa_alloc ;;
               if new_table_phys =? NULL then ret false else
               new_table_virt <- vmm_get_table new_table_phys ;;
               memset_page new_table_virt ;;;
               write_entry current_table i
                 (Z.lor (Z.lor (Z.lor (Z.land new_table_phys VMM_ADDR_MASK) PTE_PRESENT)
                    PTE_WRITABLE) PTE_USER) ;;;
               ret true
             else
               when (has flags PTE_USER)
                 (e <- read_entry current_table i ;; write_entry current_table i (Z.lor e PTE_USER)) ;;;
               when (has flags PTE_WRITABLE)
                 (e <- read_entry current_table i ;; write_entry current_table i (Z.lor e PTE_WRITABLE)) ;;;
               ret true) ;;
      if negb ok then ret None else
      e <- read_entry current_table i ;;
      next <- vmm_get_table (Z.land e VMM_ADDR_MASK) ;;
      map_levels indices next flags
  end.

Definition vmm_map_unlocked (pml4 virt phys flags : Z) : M (vmm F) bool :=
  t <- map_levels [PML4_IDX virt; PDPT_IDX virt; PD_IDX virt] pml4 flags ;;
  match t with
  | None => ret false
  | Some current_table =>
      write_entry current_table (PT_IDX virt)
        (Z.lor (Z.lor (Z.land phys VMM_ADDR_MASK) flags) PTE_PRESENT) ;;;
      vmm_invlpg virt ;;;
      ret true
  end.

(** The loop of [_vmm_map_range_unlocked] from page [i], [n] pages to go *)
Fixpoint map_pages (n : nat) (i pml4 virt phys flags : Z) : M (vmm F) bool :=
  match n with
  | O => ret true
  | S n =>
      ok <- vmm_map_unlocked pml4 (w64 (virt + w64 (i * PAGE_SIZE)))
              (w64 (phys + w64 (i * PAGE_SIZE))) flags ;;
      if negb ok then
        when (0 <? i) (vmm_unmap_range_unlocked pml4 virt (w64 (i * PAGE_SIZE))) ;;;
        ret false
      else map_pages n (i + 1) pml4 virt phys flags
  end.

Definition vmm_map_range_unlocked (pml4 virt phys size flags : Z) : M (vmm F) bool :=
  map_pages (Z.to_nat (num_pages_of size)) 0 pml4 virt phys flags.

(** ** The locked operations *)

Definition vmm_map (pml4 virt phys flags : Z) : M (vmm F) unit :=
  success <- critical vmm_lock (vmm_map_unlocked pml4 virt phys flags) ;;
  if negb success then
    if HHDM_OFFSET <=? virt then panic else ret tt
  else ret tt.

Definition vmm_map_range (pml4 virt phys size flags : Z) : M (vmm F) unit :=
  success <- critical vmm_lock (vmm_map_range_unlocked pml4 virt phys size flags) ;;
  if negb success then
    if HHDM_OFFSET <=? virt then panic else ret tt
  else ret tt.

(** One missing level of [vmm_map_huge]: the table is allocated unchecked *)
Definition huge_level (t i : Z) : M (vmm F) Z :=
  e <- read_entry t i ;;
  when (negb (has e PTE_PRESENT))
    (new_table <- pmm_call fa_alloc ;;
     v <- vmm_get_table new_table ;;
     memset_page v ;;;
     write_entry t i
       (Z.lor (Z.lor (Z.lor (Z.land new_table VMM_ADDR_MASK) PTE_PRESENT) PTE_WRITABLE) PTE_USER)) ;;;
  e <- read_entry t i ;;
  vmm_get_table (Z.land e VMM_ADDR_MASK).

Definition vmm_map_huge (pml4 virt phys flags : Z) : M (vmm F) unit :=
  critical vmm_lock (
    pdpt <- huge_level pml4 (PML4_IDX virt) ;;
    pd <- huge_level pdpt (PDPT_IDX virt) ;;
    write_entry pd (PD_IDX virt) (Z.lor (Z.lor (Z.land phys VMM_ADDR_MASK) flags) 0x81) ;;;
    vmm_invlpg virt).

Definition vmm_map_device (pml4 virt phys size : Z) : M (vmm F) Z :=
  let phys_aligned := PAGE_ALIGN_DOWN phys in
  let offset := w64 (phys - phys_aligned) in
  let full_size := PAGE_ALIGN_UP (w64 (size + offset)) in
  let flags := Z.lor (Z.lor (Z.lor PTE_PRESENT PTE_WRITABLE) PTE_NX) (Z.shiftl 1 7) in
  vmm_map_range pml4 virt phys_aligned full_size flags ;;;
  ret (w64 (virt + offset)).

Definition vmm_unmap (pml4 virt : Z) : M (vmm F) unit :=
  critical vmm_lock (vmm_unmap_unlocked pml4 virt ;;; sync_tlb).

Definition vmm_unmap_range (pml4 virt size : Z) : M (vmm F) unit :=
  critical vmm_lock (vmm_unmap_range_unlocked pml4 virt size ;;; sync_tlb).

(** ** Translation *)

Definition vmm_virtual_to_physical (pml4 virt : Z) : M (vmm F) Z :=
  e <- read_entry pml4 (PML4_IDX virt) ;;
  if negb (has e PTE_PRESENT) then ret 0 else
  pdpt <- vmm_get_table (Z.land e VMM_ADDR_MASK) ;;
  e <- read_entry pdpt (PDPT_IDX virt) ;;
  if negb (has e PTE_PRESENT) then ret 0 else
  pd <- vmm_get_table (Z.land e VMM_ADDR_MASK) ;;
  e <- read_entry pd (PD_IDX virt) ;;
  if has e (Z.shiftl 1 7) then
    ret (w64 (Z.land e 0xFFFFFFFFFE000000 + Z.land virt 0x1FFFFF))
  else
  if negb (has e PTE_PRESENT) then ret 0 else
  pt <- vmm_get_table (Z.land e VMM_ADDR_MASK) ;;
  e <- read_entry pt (PT_IDX virt) ;;
  if negb (has e PTE_PRESENT) then ret 0 else
  ret (w64 (Z.land e VMM_ADDR_MASK + Z.land virt 0xFFF)).

(** ** Address spaces *)

Definition vmm_create_user_pml4 : M (vmm F) Z :=
  pml4_phys <- pmm_call fa_alloc ;;
  if pml4_phys =? NULL then ret 0 else
  new_pml4 <- vmm_get_table pml4_phys ;;
  memset_page new_pml4 ;;;
  mapM_ (fun i =>
    k <- gets kernel_pml4 ;;
    e <- read_entry k i ;;
    write_entry new_pml4 i e) (seqZ 256 256) ;;;
  ret pml4_phys.

(** The loop over the 512 entries of a page table *)
Definition free_pt (free_frames : bool) (pt : Z) : M (vmm F) unit :=
  when free_frames
    (mapM_ (fun l =>
       e <- read_entry pt l ;;
       when (has e PTE_PRESENT) (pmm_call (fa_free (Z.land e VMM_ADDR_MASK))))
     (seqZ 0 512)).

(** Entry [k] of a page directory, entry [j] of a page-directory-pointer table
    and entry [i] of the top-level table *)
Definition free_pd_entry (free_frames : bool) (pd k : Z) : M (vmm F) unit :=
  e <- read_entry pd k ;;
  if negb (has e PTE_PRESENT) then ret tt else
  if has e (Z.shiftl 1 7) then
    when free_frames (pmm_call (fa_free (Z.land e VMM_ADDR_MASK)))
  else
    free_pt free_frames (phys_to_virt (Z.land e VMM_ADDR_MASK)) ;;;
    e <- read_entry pd k ;;
    pmm_call (fa_free (Z.land e VMM_ADDR_MASK)).

Definition free_pdpt_entry (free_frames : bool) (pdpt j : Z) : M (vmm F) unit :=
  e <- read_entry pdpt j ;;
  if negb (has e PTE_PRESENT) then ret tt else
  if has e (Z.shiftl 1 7) then
    when free_frames (pmm_call (fa_free (Z.land e VMM_ADDR_MASK)))
  else
    mapM_ (free_pd_entry free_frames (phys_to_virt (Z.land e VMM_ADDR_MASK))) (seqZ 0 512) ;;;
    e <- read_entry pdpt j ;;
    pmm_call (fa_free (Z.land e VMM_ADDR_MASK)).

Definition free_pml4_entry (free_frames : bool) (pml4 i : Z) : M (vmm F) unit :=
  e <- read_entry pml4 i ;;
  if negb (has e PTE_PRESENT) then ret tt else
  mapM_ (free_pdpt_entry free_frames (phys_to_virt (Z.land e VMM_ADDR_MASK))) (seqZ 0 512) ;;;
  e <- read_entry pml4 i ;;
  pmm_call (fa_free (Z.land e VMM_ADDR_MASK)).

Definition vmm_destroy_user_pml4 (cr3 : Z) (free_frames : bool) : M (vmm F) unit :=
  let pml4 := phys_to_virt cr3 in
  mapM_ (free_pml4_entry free_frames pml4) (seqZ 0 256) ;;;
  pmm_call (fa_free cr3) ;;;
  sync_tlb.

(** ** Start-up *)

(** The PAT MSR value [vmm_enable_pat] writes back: PAT4 becomes
    write-combining *)
Definition vmm_enable_pat (pat : Z) : Z :=
  Z.lor (Z.land pat (w64 (Z.lnot (Z.shiftl 0xFF 32)))) (Z.shiftl 1 32).

Definition KERNEL_PHYS_BASE : Z := 0x2000000.
Definition KERNEL_VIRT_BASE : Z := 0xFFFFFFFF80000000.

(** [vmm_init], over the section symbols of the link, the stack pointer and
    the address of the boot information; its result is the boot information
    with the framebuffer's new address. The processor-control steps (PAT,
    EFER.NXE, CR4.PAE, CR0.WP, CR3) act on registers outside this state. *)
Definition vmm_init (img : kernel_image) (current_rsp bi_addr : Z) (bi : BootInfo)
  : M (vmm F) BootInfo :=
  local_pml4 <- pmm_call fa_alloc ;;
  memset_page local_pml4 ;;;
  for_u64 0 (KERNEL_PHYS_BASE + 0x400000) PAGE_SIZE (fun addr =>
    _ <- vmm_map_unlocked local_pml4 addr addr (Z.lor PTE_PRESENT PTE_WRITABLE) ;; ret tt) ;;;
  mapM_ (fun desc =>
    when (negb (type desc =? 0) && (0 <? num_pages desc))
      (let phys_start := physical_start desc in
       let size := w64 (num_pages desc * 4096) in
       _ <- vmm_map_range_unlocked local_pml4 (w64 (phys_start + HHDM_OFFSET)) phys_start size
              (Z.lor PTE_PRESENT PTE_WRITABLE) ;; ret tt)) (memory_map (mmap bi)) ;;;
  (let text_phys := w64 (KERNEL_PHYS_BASE + w64 (text_start img - KERNEL_VIRT_BASE)) in
   let text_size := w64 (text_end img - text_start img) in
   vmm_map_range_unlocked local_pml4 (text_start img) text_phys text_size PTE_PRESENT) ;;;
  (let rodata_phys := w64 (KERNEL_PHYS_BASE + w64 (rodata_start img - KERNEL_VIRT_BASE)) in
   let rodata_size := w64 (rodata_end img - rodata_start img) in
   vmm_map_range_unlocked local_pml4 (rodata_start img) rodata_phys rodata_size
     (Z.lor PTE_PRESENT PTE_NX)) ;;;
  (let data_phys := w64 (KERNEL_PHYS_BASE + w64 (data_start img - KERNEL_VIRT_BASE)) in
   let data_size := w64 (data_end img - data_start img) in
   vmm_map_range_unlocked local_pml4 (data_start img) data_phys data_size
     (Z.lor (Z.lor PTE_PRESENT PTE_WRITABLE) PTE_NX)) ;;;
  (let stack_page := PAGE_ALIGN_DOWN current_rsp in
   mapM_ (fun i =>
     let phys_addr := w64 (stack_page - i * PAGE_SIZE) in
     let flags := Z.lor (Z.lor PTE_PRESENT PTE_WRITABLE) PTE_NX in
     vmm_map_unlocked local_pml4 (phys_to_virt phys_addr) phys_addr flags ;;;
     _ <- vmm_map_unlocked local_pml4 phys_addr phys_addr flags ;; ret tt) (seqZ 0 16)) ;;;
  let fb_phys := framebuffer_base (fb bi) in
  let fb_virt := phys_to_virt fb_phys in
  vmm_map_device local_pml4 fb_virt fb_phys (framebuffer_size (fb bi)) ;;;
  let bi' := set_framebuffer_base fb_virt bi in
  vmm_map_range_unlocked local_pml4 (PAGE_ALIGN_DOWN (phys_to_virt bi_addr)) (PAGE_ALIGN_DOWN bi_addr)
    sizeof_BootInfo (Z.lor (Z.lor PTE_PRESENT PTE_WRITABLE) PTE_NX) ;;;
  modify (fun s => mkVmm (v_alloc s) (vmm_lock_ s) (kernel_pml4 s) local_pml4 (mem s) (tlb_log s)) ;;;
  pmm_call fa_move ;;;
  modify (fun s => mkVmm (v_alloc s) (vmm_lock_ s) (phys_to_virt local_pml4) (kernel_pml4_phys s)
                     (mem s) (tlb_log s)) ;;;
  ret bi'.

Definition vmm_get_pml4 : M (vmm F) Z := gets kernel_pml4.
Definition vmm_get_pml4_phys : M (vmm F) Z := gets kernel_pml4_phys.

End vmm.

(** ** The processor's view: pure page walks over physical memory *)

Definition entry (m : gmap Z Z) (t i : Z) : Z := rd m (t + 8 * i).

(** The table a present entry points at. *)
Definition child (m : gmap Z Z) (t i : Z) : option Z :=
  let e := entry m t i in
  if has e PTE_PRESENT then Some (Z.land e VMM_ADDR_MASK) else None.

(** The table a path of indices leads to. *)
Fixpoint node (m : gmap Z Z) (t : Z) (p : list Z) : option Z :=
  match p with
  | [] => Some t
  | i :: p => match child m t i with Some t' => node m t' p | None => None end
  end.

(** The leaf entry in slot [i] of the table a path leads to. *)
Definition leaf (m : gmap Z Z) (root : Z) (p : list Z) (i : Z) : option Z :=
  match node m root p with
  | Some t => if has (entry m t i) PTE_PRESENT then Some (entry m t i) else None
  | None => None
  end.

Definition path (virt : Z) : list Z := [PML4_IDX virt; PDPT_IDX virt; PD_IDX virt].

(** The page-table entry that translates a virtual address. *)
Definition walk (m : gmap Z Z) (root virt : Z) : option Z := leaf m root (path virt) (PT_IDX virt).

(** Two addresses in one page of the 48-bit address space. *)
Definition same_page (v w : Z) : Prop := (v / PAGE_SIZE) mod 2 ^ 36 = (w / PAGE_SIZE) mod 2 ^ 36.

#[global] Instance same_page_dec v w : Decision (same_page v w).
Proof. unfold same_page. apply _. Defined.

(** ** Bits of entries *)

Lemma has_bit e k : 0 <= k -> has e (Z.shiftl 1 k) = Z.testbit e k.
Proof. intros Hk. unfold has. rewrite land_bit_zero by done. by destruct (Z.testbit e k). Qed.

Lemma mask_testbit n : 0 <= n -> Z.testbit VMM_ADDR_MASK n = (12 <=? n) && (n <? 40).
Proof.
  intros Hn. change VMM_ADDR_MASK with (Z.shiftl (Z.ones 28) 12).
  rewrite Z.shiftl_spec by done. destruct (Z.leb_spec 12 n); cbn [andb].
  - rewrite Z.testbit_ones_nonneg by lia. case_bool; case_bool; lia || done.
  - by rewrite Z.testbit_neg_r by lia.
Qed.

(** A frame address is its own address field. *)
Lemma land_mask_frame t :
  t mod PAGE_SIZE = 0 -> 0 <= t < 2 ^ 40 -> Z.land t VMM_ADDR_MASK = t.
Proof.
  intros Ha Ht. apply Z.bits_inj'. intros n Hn. rewrite Z.land_spec, mask_testbit by done.
  destruct (Z.leb_spec 12 n); cbn [andb].
  - destruct (Z.ltb_spec n 40); [by rewrite andb_true_r|].
    by rewrite (testbit_above t 40) by lia.
  - rewrite andb_false_r. symmetry. replace t with (t / 2 ^ 12 * 2 ^ 12).
    + by rewrite Z.mul_pow2_bits_low by lia.
    + unfold PAGE_SIZE in Ha. change (2 ^ 12) with 4096. Z.div_mod_to_equations; lia.
Qed.

Lemma land_mask_idem x : Z.land (Z.land x VMM_ADDR_MASK) VMM_ADDR_MASK = Z.land x VMM_ADDR_MASK.
Proof. by rewrite <-Z.land_assoc, Z.land_diag. Qed.

(** The address field of an address with flags outside it. *)
Lemma land_mask_lor x f :
  Z.land f VMM_ADDR_MASK = 0 -> Z.land (Z.lor x f) VMM_ADDR_MASK = Z.land x VMM_ADDR_MASK.
Proof. intros Hf. by rewrite Z.land_lor_distr_l, Hf, Z.lor_0_r. Qed.

(** The entry the manager writes for a table. *)
Definition table_entry (t : Z) : Z :=
  Z.lor (Z.lor (Z.lor (Z.land t VMM_ADDR_MASK) PTE_PRESENT) PTE_WRITABLE) PTE_USER.

(** An entry that points at a table: present, writable, user, neither huge
    nor no-execute, so that the leaf alone decides the permissions. *)
Definition inner_bits (e : Z) : bool :=
  has e PTE_PRESENT && has e PTE_WRITABLE && has e PTE_USER && negb (has e PTE_HUGE) &&
  negb (has e PTE_NX).

Lemma table_entry_mask t : Z.land (table_entry t) VMM_ADDR_MASK = Z.land t VMM_ADDR_MASK.
Proof. unfold table_entry. rewrite !land_mask_lor by done. apply land_mask_idem. Qed.

Lemma table_entry_testbit t n :
  0 <= n ->
  Z.testbit (table_entry t) n =
  (Z.testbit t n && ((12 <=? n) && (n <? 40))) || (n =? 0) || (n =? 1) || (n =? 2).
Proof.
  intros Hn. unfold table_entry, PTE_PRESENT, PTE_WRITABLE, PTE_USER.
  by rewrite !Z.lor_spec, Z.land_spec, mask_testbit, !testbit_shift1 by lia.
Qed.

Lemma table_entry_inner t : inner_bits (table_entry t) = true.
Proof.
  unfold inner_bits, PTE_PRESENT, PTE_WRITABLE, PTE_USER, PTE_HUGE, PTE_NX.
  rewrite !has_bit, !table_entry_testbit by lia. simpl. by rewrite !andb_false_r, !orb_true_r.
Qed.

Lemma table_entry_present t : has (table_entry t) PTE_PRESENT = true.
Proof.
  unfold PTE_PRESENT. rewrite has_bit, table_entry_testbit by done. by rewrite !orb_true_r.
Qed.

(** Setting a bit that is set changes nothing. *)
Lemma lor_present e k : 0 <= k -> Z.testbit e k = true -> Z.lor e (Z.shiftl 1 k) = e.
Proof.
  intros Hk He. apply Z.bits_inj'. intros n Hn. rewrite Z.lor_spec, testbit_shift1 by done.
  destruct (Z.eqb_spec n k) as [->|]; [by rewrite He|apply orb_false_r].
Qed.

(** ** Indices *)

Lemma idx_eq a k : 0 <= k -> Z.land (Z.shiftr a k) 0x1FF = (a / 2 ^ k) mod 512.
Proof.
  intros Hk. change 0x1FF with (Z.ones 9). rewrite Z.land_ones by lia.
  by rewrite Z.shiftr_div_pow2 by done.
Qed.

Lemma idx_range a k : 0 <= Z.land (Z.shiftr a k) 0x1FF < 512.
Proof.
  change 0x1FF with (Z.ones 9). rewrite Z.land_ones by lia. by apply Z.mod_pos_bound.
Qed.

Lemma pt_idx_range v : 0 <= PT_IDX v < 512.
Proof. apply idx_range. Qed.

Lemma path_valid v : Forall (fun i => 0 <= i < 512) (path v).
Proof. repeat constructor; apply idx_range. Qed.

Lemma page_digits x :
  x mod 2 ^ 36 = x mod 512 + 512 * ((x / 512) mod 512 +
                 512 * ((x / 512 / 512) mod 512 + 512 * ((x / 512 / 512 / 512) mod 512))).
Proof.
  change (2 ^ 36) with (512 * (512 * (512 * 512))).
  rewrite Z.rem_mul_r, Z.rem_mul_r, Z.rem_mul_r by lia. done.
Qed.

Lemma div_digits a :
  a / 2 ^ 21 = a / 2 ^ 12 / 512 /\ a / 2 ^ 30 = a / 2 ^ 12 / 512 / 512 /\
  a / 2 ^ 39 = a / 2 ^ 12 / 512 / 512 / 512.
Proof. rewrite !Z.div_div by done. done. Qed.

(** The four indices identify the page. *)
Lemma indices_same_page v w :
  path v = path w -> PT_IDX v = PT_IDX w -> same_page v w.
Proof.
  unfold path, PML4_IDX, PDPT_IDX, PD_IDX, PT_IDX. rewrite !idx_eq by lia.
  destruct (div_digits v) as (-> & -> & ->). destruct (div_digits w) as (-> & -> & ->).
  intros E E4. injection E as E1 E2 E3. unfold same_page. change PAGE_SIZE with (2 ^ 12).
  rewrite !page_digits. by rewrite E1, E2, E3, E4.
Qed.

Lemma same_page_indices v w : same_page v w -> path v = path w /\ PT_IDX v = PT_IDX w.
Proof.
  unfold same_page, path, PML4_IDX, PDPT_IDX, PD_IDX, PT_IDX. rewrite !idx_eq by lia.
  destruct (div_digits v) as (-> & -> & ->). destruct (div_digits w) as (-> & -> & ->).
  change PAGE_SIZE with (2 ^ 12). rewrite !page_digits.
  intros E. set (x := v / 2 ^ 12) in *. set (y := w / 2 ^ 12) in *.
  pose proof (Z.mod_pos_bound x 512 ltac:(lia)). pose proof (Z.mod_pos_bound y 512 ltac:(lia)).
  pose proof (Z.mod_pos_bound (x / 512) 512 ltac:(lia)). pose proof (Z.mod_pos_bound (y / 512) 512 ltac:(lia)).
  pose proof (Z.mod_pos_bound (x / 512 / 512) 512 ltac:(lia)).
  pose proof (Z.mod_pos_bound (y / 512 / 512) 512 ltac:(lia)).
  assert (x mod 512 = y mod 512 /\ (x / 512) mod 512 = (y / 512) mod 512 /\
    (x / 512 / 512) mod 512 = (y / 512 / 512) mod 512 /\
    (x / 512 / 512 / 512) mod 512 = (y / 512 / 512 / 512) mod 512) as (-> & -> & -> & ->) by lia.
  done.
Qed.

(** ** Memory *)

Lemma rd_zeroed l a m b :
  rd (fold_left (fun m i => <[a + 8 * i := 0]> m) l m) b =
  if decide (b ∈ (fun i => a + 8 * i) <$> l) then 0 else rd m b.
Proof.
  revert m. induction l as [|i l IH]; intros m; cbn [fold_left].
  - by rewrite decide_False by apply not_elem_of_nil.
  - rewrite IH, rd_insert. destruct (decide (b ∈ (fun i => a + 8 * i) <$> l)) as [Hb|Hb].
    + by rewrite decide_True by (by right).
    + destruct (decide (a + 8 * i = b)) as [<-|Hne].
      * by rewrite decide_True by (by left).
      * rewrite decide_False; [done|]. by intros [->|?]%elem_of_cons.
Qed.

Lemma rd_zero_page_in a m i : 0 <= i < 512 -> rd (zero_page a m) (a + 8 * i) = 0.
Proof.
  intros Hi. unfold zero_page. rewrite rd_zeroed, decide_True; [done|].
  apply list_elem_of_fmap. exists i. split; [done|]. apply elem_of_seqZ. lia.
Qed.

Lemma rd_zero_page_out a m b :
  (forall i, 0 <= i < 512 -> b <> a + 8 * i) -> rd (zero_page a m) b = rd m b.
Proof.
  intros Hb. unfold zero_page. rewrite rd_zeroed, decide_False; [done|].
  intros (i & -> & Hi%elem_of_seqZ)%list_elem_of_fmap. apply (Hb i); [lia|done].
Qed.

#[global] Opaque zero_page.

(** Slots of page-aligned tables do not overlap. *)
Lemma slot_inj t t' i i' :
  t mod PAGE_SIZE = 0 -> t' mod PAGE_SIZE = 0 -> 0 <= i < 512 -> 0 <= i' < 512 ->
  t + 8 * i = t' + 8 * i' -> t = t' /\ i = i'.
Proof. unfold PAGE_SIZE. intros. Z.div_mod_to_equations; lia. Qed.

(** ** Well-formed page tables *)

Definition valid (p : list Z) : Prop := Forall (fun i => 0 <= i < 512) p /\ (length p <= 3)%nat.

Definition table_frame (u : Z -> bool) (t : Z) : Prop :=
  t mod PAGE_SIZE = 0 /\ 0 < t < 2 ^ 40 /\ u (t / PAGE_SIZE) = true.

(** The tables reachable from [root] are used frames below 2^40, no table is
    reachable by two paths, and every entry of the upper levels is empty or
    carries the manager's flags. *)
Record pt_ok (u : Z -> bool) (m : gmap Z Z) (root : Z) : Prop := {
  pt_frames : forall p t, valid p -> node m root p = Some t -> table_frame u t;
  pt_tree : forall p q t, valid p -> valid q -> node m root p = Some t -> node m root q = Some t -> p = q;
  pt_inner : forall p i t, valid (p ++ [i]) -> node m root p = Some t ->
    entry m t i = 0 \/ inner_bits (entry m t i) = true;
}.

(** How many tables a walk along [idxs] from [t] lacks: when one is missing,
    so are those below it. *)
Fixpoint missing (m : gmap Z Z) (t : Z) (idxs : list Z) : nat :=
  match idxs with
  | [] => 0
  | i :: l => match child m t i with Some t' => missing m t' l | None => S (length l) end
  end.

Lemma missing_le m t idxs : (missing m t idxs <= length idxs)%nat.
Proof. revert t. induction idxs as [|i l IH]; intros t; simpl; [lia|]. destruct (child m t i) as [t'|]; [specialize (IH t')|]; lia. Qed.

(** Below a table without entries everything is missing. *)
Lemma missing_empty m t idxs : (forall i, 0 <= i < 512 -> entry m t i = 0) -> valid idxs -> missing m t idxs = length idxs.
Proof. intros Hz [Hv _]. destruct Hv as [|i l Hi _]; [done|]. simpl. unfold child. by rewrite Hz. Qed.

Lemma node_app m t p q :
  node m t (p ++ q) = match node m t p with Some t' => node m t' q | None => None end.
Proof.
  revert t. induction p as [|i p IH]; intros t; simpl; [done|]. by destruct (child m t i).
Qed.

Lemma node_snoc m root p i :
  node m root (p ++ [i]) = match node m root p with Some t => child m t i | None => None end.
Proof. rewrite node_app. destruct (node m root p); simpl; [|done]. by destruct (child m z i). Qed.

Lemma valid_prefix p q : valid (p ++ q) -> valid p.
Proof.
  intros [Hf Hl]. apply Forall_app in Hf as [Hf _]. rewrite length_app in Hl. split; [done|lia].
Qed.

Lemma valid_suffix p q : valid (p ++ q) -> valid q.
Proof.
  intros [Hf Hl]. apply Forall_app in Hf as [_ Hf]. rewrite length_app in Hl. split; [done|lia].
Qed.

Lemma valid_snoc p i : valid (p ++ [i]) -> 0 <= i < 512.
Proof. intros [Hf _]. apply Forall_app in Hf as [_ Hf]. by inversion Hf. Qed.

Lemma valid_nil : valid [].
Proof. split; [constructor|simpl; lia]. Qed.

Lemma valid_path v : valid (path v).
Proof. split; [apply path_valid|done]. Qed.
#[export] Hint Resolve valid_path path_valid pt_idx_range : kernel.

(** [m'] differs from [m], as far as the tables under [root] go, at most in
    slot [j] of the table at path [p]. *)
Definition agree_but (m m' : gmap Z Z) (root : Z) (p : list Z) (j : Z) : Prop :=
  forall q t i, valid q -> node m root q = Some t -> 0 <= i < 512 -> (q, i) <> (p, j) ->
    entry m' t i = entry m t i.

(** Paths that do not pass through that slot lead where they led. *)
Lemma node_frame m m' root p j q :
  agree_but m m' root p j -> valid q -> ~ (p ++ [j]) `prefix_of` q ->
  node m' root q = node m root q.
Proof.
  intros Ha. induction q as [|i q IH] using rev_ind; intros Hq Hp; [done|].
  rewrite !node_snoc, IH.
  - destruct (node m root q) as [t|] eqn:E; [|done]. unfold child.
    rewrite (Ha q t i); [done|by eapply valid_prefix|done|by eapply valid_snoc|].
    intros [= -> ->]. by apply Hp.
  - by eapply valid_prefix.
  - intros Hpre. apply Hp. etrans; [exact Hpre|]. by apply prefix_app_r.
Qed.

Lemma leaf_frame m m' root p j q i :
  agree_but m m' root p j -> valid q -> length q = 3%nat -> 0 <= i < 512 ->
  ~ (p ++ [j]) `prefix_of` (q ++ [i]) -> leaf m' root q i = leaf m root q i.
Proof.
  intros Ha Hq Hl Hi Hp. unfold leaf. rewrite (node_frame m m' root p j); [|done|done|].
  2:{ intros Hpre. apply Hp. etrans; [exact Hpre|]. by apply prefix_app_r. }
  destruct (node m root q) as [t|] eqn:E; [|done].
  rewrite (Ha q t i); [done|done|done|done|]. by intros [= -> ->].
Qed.

Lemma leaf_frame_virt m m' root p j v :
  agree_but m m' root p j -> ~ (p ++ [j]) `prefix_of` (path v ++ [PT_IDX v]) ->
  walk m' root v = walk m root v.
Proof. intros Ha Hp. apply (leaf_frame m m' root p j); [done|apply valid_path|done|apply idx_range|done]. Qed.

(** Writing slot [j] of the table at [p] changes no other slot. *)
Lemma agree_insert u m root p j t v :
  pt_ok u m root -> valid p -> node m root p = Some t -> 0 <= j < 512 ->
  agree_but m (<[t + 8 * j := v]> m) root p j.
Proof.
  intros Hok Hp Ht Hj q t' i Hq Ht' Hi Hne. unfold entry. rewrite rd_insert, decide_False; [done|].
  intros E. destruct (pt_frames _ _ _ Hok p t Hp Ht) as (Ha & _).
  destruct (pt_frames _ _ _ Hok q t' Hq Ht') as (Ha' & _).
  destruct (slot_inj t t' j i) as [-> ->]; try done.
  apply Hne. f_equal. by apply (pt_tree _ _ _ Hok q p t').
Qed.

(** A write to a leaf slot keeps the tree. *)
Lemma node_write_leaf u m root p j t v q :
  pt_ok u m root -> valid p -> length p = 3%nat -> node m root p = Some t -> 0 <= j < 512 ->
  valid q -> node (<[t + 8 * j := v]> m) root q = node m root q.
Proof.
  intros Hok Hp Hl Ht Hj Hq. apply (node_frame m _ root p j); [by eapply agree_insert|done|].
  intros Hpre%prefix_length. rewrite length_app, Hl in Hpre. simpl in Hpre. destruct Hq as [_ Hq]. lia.
Qed.

Lemma pt_ok_write_leaf u m root p j t v :
  pt_ok u m root -> valid p -> length p = 3%nat -> node m root p = Some t -> 0 <= j < 512 ->
  pt_ok u (<[t + 8 * j := v]> m) root.
Proof.
  intros Hok Hp Hl Ht Hj.
  assert (forall q, valid q -> node (<[t + 8 * j := v]> m) root q = node m root q) as En.
  { intros q Hq. by apply (node_write_leaf u m root p). }
  split.
  - intros q t' Hq. rewrite En by done. by apply (pt_frames _ _ _ Hok).
  - intros q q' t' Hq Hq'. rewrite !En by done. by apply (pt_tree _ _ _ Hok).
  - intros q i t' Hq. pose proof (valid_prefix _ _ Hq) as Hq1. rewrite En by done. intros Ht'.
    rewrite (agree_insert u m root p j t v Hok Hp Ht Hj q t' i Hq1 Ht' (valid_snoc _ _ Hq));
      [by eapply pt_inner|].
    intros [= -> ->]. destruct Hq as [_ Hq]. rewrite length_app, Hl in Hq. simpl in Hq. lia.
Qed.

(** What the walk finds after a leaf was written. *)
Lemma walk_write_leaf u m root virt t v w :
  pt_ok u m root -> node m root (path virt) = Some t ->
  walk (<[t + 8 * PT_IDX virt := v]> m) root w =
  if decide (same_page w virt) then (if has v PTE_PRESENT then Some v else None)
  else walk m root w.
Proof.
  intros Hok Ht. assert (0 <= PT_IDX virt < 512) as Hi by apply idx_range. case_decide as Hw.
  - destruct (same_page_indices _ _ Hw) as [Ep Ei]. unfold walk, leaf. rewrite Ep, Ei.
    rewrite (node_write_leaf u m root (path virt)), Ht by (done || apply valid_path).
    unfold entry. by rewrite rd_insert, decide_True.
  - apply (leaf_frame_virt _ _ _ (path virt) (PT_IDX virt)); [by eapply agree_insert; [|apply valid_path|..]|].
    intros [k Hk]. apply Hw. unfold path in Hk. destruct k; [|done]. simpl in Hk.
    injection Hk as E1 E2 E3 E4. apply indices_same_page; [|done]. unfold path. congruence.
Qed.

(** A table with no entries is an address space that maps nothing. *)
Lemma pt_ok_fresh u m root :
  table_frame u root -> (forall i, 0 <= i < 512 -> entry m root i = 0) ->
  pt_ok u m root /\ forall v, walk m root v = None.
Proof.
  intros Hr Hz.
  assert (forall i p, 0 <= i < 512 -> node m root (i :: p) = None) as Hn.
  { intros i p Hi. simpl. unfold child. by rewrite Hz. }
  assert (forall p t, valid p -> node m root p = Some t -> p = [] /\ t = root) as Hall.
  { intros [|i p] t [Hf _]; [by intros [= <-]|]. by rewrite Hn by (by inversion Hf). }
  split; [split|].
  - intros p t Hp Ht. by destruct (Hall p t Hp Ht) as [_ ->].
  - intros p q t Hp Hq Ht Ht'. by destruct (Hall p t Hp Ht) as [-> _], (Hall q t Hq Ht') as [-> _].
  - intros p i t Hp Ht. destruct (Hall p t (valid_prefix _ _ Hp) Ht) as [-> ->].
    left. apply Hz. by eapply valid_snoc.
  - intros v. unfold walk, leaf, path. by rewrite Hn by apply idx_range.
Qed.

(** *** Adding an empty table in an absent slot *)

Section new_table.
Context (u : Z -> bool) (m : gmap Z Z) (root : Z) (p : list Z) (j t t0 : Z).
Context (Hok : pt_ok u m root) (Hp : valid (p ++ [j])) (Ht : node m root p = Some t).
Context (Habs : has (entry m t j) PTE_PRESENT = false).
Context (Hal : t0 mod PAGE_SIZE = 0) (Hrg : 0 < t0 < 2 ^ 40) (Hfresh : u (t0 / PAGE_SIZE) = false).

Definition with_table : gmap Z Z := <[t + 8 * j := table_entry t0]> (zero_page t0 m).

Lemma fresh_not_node q t' : valid q -> node m root q = Some t' -> t' <> t0.
Proof.
  intros Hq Ht' ->. destruct (pt_frames _ _ _ Hok q t0 Hq Ht') as (_ & _ & Hu). congruence.
Qed.

Lemma rd_zero_other t' i :
  t' mod PAGE_SIZE = 0 -> t' <> t0 -> 0 <= i < 512 -> rd (zero_page t0 m) (t' + 8 * i) = rd m (t' + 8 * i).
Proof.
  intros Ha Hne Hi. apply rd_zero_page_out. intros k Hk E.
  by destruct (slot_inj t' t0 i k) as [-> _].
Qed.

Lemma agree_with_table : agree_but m with_table root p j.
Proof.
  intros q t' i Hq Ht' Hi Hne. pose proof (pt_frames _ _ _ Hok q t' Hq Ht') as (Ha' & _).
  pose proof (agree_insert u m root p j t (table_entry t0) Hok (valid_prefix _ _ Hp) Ht
    (valid_snoc _ _ Hp) q t' i Hq Ht' Hi Hne) as E.
  unfold with_table, entry in *. rewrite rd_insert in *.
  destruct (decide (t + 8 * j = t' + 8 * i)); [done|].
  apply rd_zero_other; [done|by eapply fresh_not_node|done].
Qed.

Lemma entry_fresh i : 0 <= i < 512 -> entry with_table t0 i = 0.
Proof.
  intros Hi. pose proof (pt_frames _ _ _ Hok p t (valid_prefix _ _ Hp) Ht) as (Ha & _).
  unfold entry, with_table. rewrite rd_insert, decide_False; [by apply rd_zero_page_in|].
  intros E. destruct (slot_inj t t0 j i) as [-> _]; [done|done|by eapply valid_snoc|done|done|].
  by apply (fresh_not_node p t0 (valid_prefix _ _ Hp) Ht).
Qed.

Lemma entry_linked : entry with_table t j = table_entry t0.
Proof. unfold entry, with_table. by rewrite rd_insert, decide_True. Qed.

Lemma node_linked : node with_table root (p ++ [j]) = Some t0.
Proof.
  rewrite node_snoc, (node_frame m with_table root p j), Ht.
  - unfold child. rewrite entry_linked, table_entry_present.
    by rewrite table_entry_mask, land_mask_frame by (done || lia).
  - apply agree_with_table.
  - by eapply valid_prefix.
  - intros Hpre%prefix_length. rewrite length_app in Hpre. simpl in Hpre. lia.
Qed.

Lemma node_absent : node m root (p ++ [j]) = None.
Proof. rewrite node_snoc, Ht. unfold child. by rewrite Habs. Qed.

(** The table is the only new node. *)
Lemma node_with_table q :
  valid q ->
  node with_table root q =
  if decide ((p ++ [j]) `prefix_of` q) then (if decide (q = p ++ [j]) then Some t0 else None)
  else node m root q.
Proof.
  intros Hq. case_decide as Hpre.
  - destruct Hpre as [r ->]. rewrite node_app, node_linked. destruct r as [|k r].
    + rewrite app_nil_r. by rewrite decide_True.
    + rewrite decide_False.
      * cbn [node]. unfold child. destruct Hq as [Hq _]. apply Forall_app in Hq as [_ Hq].
        inversion Hq; subst. by rewrite entry_fresh.
      * intros E. apply (f_equal length) in E. rewrite length_app in E. simpl in E. lia.
  - by apply (node_frame m with_table root p j); [apply agree_with_table|..].
Qed.

Lemma pt_ok_with_table u' :
  (forall y, u y = true -> u' y = true) -> u' (t0 / PAGE_SIZE) = true -> pt_ok u' with_table root.
Proof.
  intros Hu Hu0. split.
  - intros q t' Hq. rewrite node_with_table by done. repeat case_decide; [|done|].
    + intros [= <-]. done.
    + intros Ht'. destruct (pt_frames _ _ _ Hok q t' Hq Ht') as (? & ? & ?).
      unfold table_frame. auto.
  - intros q q' t' Hq Hq'. rewrite !node_with_table by done. repeat case_decide; try done.
    + congruence.
    + intros [= <-] E. by apply fresh_not_node in E.
    + intros E [= <-]. by apply fresh_not_node in E.
    + by apply (pt_tree _ _ _ Hok).
  - intros q i t' Hq. pose proof (valid_prefix _ _ Hq) as Hq1.
    rewrite node_with_table by done. repeat case_decide; [|done|].
    + intros [= <-]. left. by rewrite entry_fresh by (by eapply valid_snoc).
    + intros Ht'. destruct (decide ((q, i) = (p, j))) as [[= -> ->]|Hne].
      * rewrite Ht in Ht'. injection Ht' as <-. rewrite entry_linked. right. apply table_entry_inner.
      * rewrite (agree_with_table q t' i) by (done || by eapply valid_snoc). by eapply pt_inner.
Qed.

(** It translates nothing yet. *)
Lemma walk_with_table v : walk with_table root v = walk m root v.
Proof.
  destruct (decide ((p ++ [j]) `prefix_of` path v)) as [[r Er]|Hpre].
  - unfold walk, leaf. rewrite (node_with_table (path v) (valid_path v)), decide_True by (by exists r).
    assert (node m root (path v) = None) as -> by (by rewrite Er, node_app, node_absent).
    case_decide; [|done]. by rewrite entry_fresh by apply idx_range.
  - apply (leaf_frame_virt m with_table root p j); [apply agree_with_table|].
    intros [r Er]. destruct r as [|k r _] using rev_ind.
    + apply (f_equal length) in Er. rewrite app_nil_r in Er. destruct Hp as [_ Hl].
      rewrite <-Er in Hl. simpl in Hl. lia.
    + apply Hpre. exists r. rewrite app_assoc in Er. by apply app_inj_tail in Er as [-> _].
Qed.
End new_table.

(** ** The operations over the walk *)

Section proofs.
Context {F : Type} `{FrameAllocatorOk F}.
Implicit Types s : vmm F.

#[export] Instance vmm_hart_ok : HasHartOk (vmm F).
Proof.
  split; simpl.
  - intros h s. apply lget_lset.
  - intros h h' s. unfold set_alloc. simpl. by rewrite lset_lset.
  - intros s. unfold set_alloc. rewrite lset_lget. by destruct s.
Qed.
#[export] Instance vmm_lock_ok : LensOk (vmm_lock (F := F)).
Proof. split; by intros; try destruct s. Qed.
#[export] Instance vmm_lock_indep : LensIndep (vmm_lock (F := F)) hart_of.
Proof. by split. Qed.

(** The pointer the kernel uses for the table at physical address [t]. *)
Definition tbl s (t : Z) : Z := if kernel_pml4 s =? NULL then t else phys_to_virt t.

Lemma deref_tbl s t : 0 <= t < 2 ^ 40 -> deref_ptr (tbl s t) s = Ok (t, s).
Proof.
  intros Ht. unfold deref_ptr, tbl. cbv [bind gets]. destruct (kernel_pml4 s =? NULL); [done|].
  unfold phys_to_virt, HHDM_OFFSET. rewrite w64_small by lia. case_bool; [|lia].
  unfold ret. do 2 f_equal. lia.
Qed.

Lemma read_entry_ok s t i :
  0 <= t < 2 ^ 40 -> read_entry (tbl s t) i s = Ok (entry (mem s) t i, s).
Proof. intros Ht. unfold read_entry. by rewrite (bind_ok _ _ _ _ _ (deref_tbl s t Ht)). Qed.

Lemma write_entry_ok s t i v :
  0 <= t < 2 ^ 40 -> write_entry (tbl s t) i v s = Ok (tt, set_mem (<[t + 8 * i := v]> (mem s)) s).
Proof. intros Ht. unfold write_entry. by rewrite (bind_ok _ _ _ _ _ (deref_tbl s t Ht)). Qed.

Lemma memset_page_ok s t :
  0 <= t < 2 ^ 40 -> memset_page (tbl s t) s = Ok (tt, set_mem (zero_page t (mem s)) s).
Proof. intros Ht. unfold memset_page. by rewrite (bind_ok _ _ _ _ _ (deref_tbl s t Ht)). Qed.

Lemma get_table_ok s t : vmm_get_table t s = Ok (tbl s t, s).
Proof. done. Qed.

(** The frames the allocator manages and has handed out. *)
Definition owned (f : F) (y : Z) : bool := (y <? fa_frames f) && fa_used f y.

(** The manager's invariant for the address space rooted at [root]. *)
Record vmm_ok s (root : Z) : Prop := {
  vok_alloc : fa_ok (v_alloc s);
  vok_frames : fa_frames (v_alloc s) * PAGE_SIZE <= 2 ^ 40;
  vok_tables : pt_ok (owned (v_alloc s)) (mem s) root;
}.

(** What an unlocked operation leaves alone: the globals, the lock, the
    executing CPU and the frames in use. *)
Record stable s s' : Prop := {
  st_pml4 : kernel_pml4 s' = kernel_pml4 s;
  st_phys : kernel_pml4_phys s' = kernel_pml4_phys s;
  st_lock : vmm_lock_ s' = vmm_lock_ s;
  st_hart : lget hart_of (v_alloc s') = lget hart_of (v_alloc s);
  st_frames : fa_frames (v_alloc s') = fa_frames (v_alloc s);
  st_used : forall y, fa_used (v_alloc s) y = true -> fa_used (v_alloc s') y = true;
}.

#[export] Instance stable_preorder : PreOrder stable.
Proof.
  split.
  - by split.
  - intros s1 s2 s3 [A1 A2 A3 A4 A5 A6] [B1 B2 B3 B4 B5 B6]. split; try congruence. auto.
Qed.

Lemma owned_stable s s' y : stable s s' -> owned (v_alloc s) y = true -> owned (v_alloc s') y = true.
Proof.
  intros Hst. unfold owned. rewrite (st_frames _ _ Hst), !andb_true_iff.
  intros [? ?]. split; [done|by apply (st_used _ _ Hst)].
Qed.

Lemma tbl_stable s s' t : stable s s' -> tbl s' t = tbl s t.
Proof. intros [E _ _ _ _ _]. unfold tbl. by rewrite E. Qed.

(** A frame from the allocator, as the page tables see it. *)
Lemma alloc_table s root :
  vmm_ok s root ->
  exists r f, pmm_call fa_alloc s = Ok (r, set_alloc f s) /\ fa_ok f /\ stable s (set_alloc f s) /\
    (r = NULL \/ (r mod PAGE_SIZE = 0 /\ 0 < r < 2 ^ 40 /\
       owned (v_alloc s) (r / PAGE_SIZE) = false /\ owned f (r / PAGE_SIZE) = true)) /\
    (r = NULL -> forall y, fa_used f y = fa_used (v_alloc s) y) /\ fa_alloc (v_alloc s) = Ok (r, f).
Proof.
  intros [Ha Hf Ht]. pose proof (fa_alloc_spec (v_alloc s) Ha) as Hwp.
  apply wp_ok in Hwp as (r & f & E & Hok & Hh & Hfr & Hfresh). exists r, f.
  split; [unfold pmm_call; by rewrite E|]. split; [done|].
  destruct Hfresh as [[-> Hsame]|(x & -> & Hx & Hxn & Hfree & Hu)].
  - split; [split; simpl; try done; intros y; by rewrite Hsame|]. split_and!; [by left|done|done].
  - assert (x * PAGE_SIZE / PAGE_SIZE = x) as Ex by (by apply Z.div_mul).
    split; [split; simpl; try done; intros y Hy; rewrite Hu, Hy; apply orb_true_r|].
    split_and!; [|unfold PAGE_SIZE, NULL; lia|done]. right. rewrite Ex. split_and!.
    + apply Z.mod_mul. done.
    + unfold PAGE_SIZE. lia.
    + unfold PAGE_SIZE in *. lia.
    + unfold owned. rewrite Hfree by lia. apply andb_false_r.
    + unfold owned. rewrite Hu, Hfr. destruct (Z.ltb_spec x (fa_frames (v_alloc s))); [|lia].
      destruct (Z.leb_spec x x), (Z.ltb_spec x (x + 1)); lia || done.
Qed.

(** Rewriting an entry with flags it already has changes nothing. *)
Lemma rewrite_flag s root p i t k :
  vmm_ok s root -> valid (p ++ [i]) -> node (mem s) root p = Some t ->
  has (entry (mem s) t i) PTE_PRESENT = true -> k = 1 \/ k = 2 ->
  (e <- read_entry (tbl s t) i ;; write_entry (tbl s t) i (Z.lor e (Z.shiftl 1 k))) s = Ok (tt, s).
Proof.
  intros [_ _ Ht] Hp Hn He Hk.
  destruct (pt_frames _ _ _ Ht p t (valid_prefix _ _ Hp) Hn) as (_ & Hr & _).
  destruct (pt_inner _ _ _ Ht p i t Hp Hn) as [E0|Hin]; [by rewrite E0 in He|]. unfold inner_bits in Hin.
  repeat (apply andb_true_iff in Hin as [Hin ?]).
  rewrite (bind_ok _ _ _ _ _ (read_entry_ok s t i ltac:(lia))).
  rewrite write_entry_ok by lia. do 2 f_equal.
  assert (Z.lor (entry (mem s) t i) (Z.shiftl 1 k) = entry (mem s) t i) as ->.
  { apply lor_present; [lia|]. rewrite <-has_bit by lia. by destruct Hk as [-> | ->]. }
  unfold set_mem. rewrite insert_id; [by destruct s|].
  unfold entry, rd in He |- *. by destruct (mem s !! (t + 8 * i)).
Qed.

(** One level of the walk of [_vmm_map_unlocked]. *)
Lemma map_level_new s root p i t :
  vmm_ok s root -> valid (p ++ [i]) -> node (mem s) root p = Some t ->
  has (entry (mem s) t i) PTE_PRESENT = false ->
  exists ok s',
    (new_table_phys <- pmm_call fa_alloc ;;
     if new_table_phys =? NULL then ret false else
     new_table_virt <- vmm_get_table new_table_phys ;;
     memset_page new_table_virt ;;;
     write_entry (tbl s t) i (table_entry new_table_phys) ;;;
     ret true) s = Ok (ok, s') /\
    vmm_ok s' root /\ stable s s' /\ tlb_log s' = tlb_log s /\
    (forall v, walk (mem s') root v = walk (mem s) root v) /\
    (exists r, fa_alloc (v_alloc s) = Ok (r, v_alloc s') /\ (ok = true <-> r <> NULL)) /\
    (ok = true -> exists t', node (mem s') root (p ++ [i]) = Some t' /\ (forall j, 0 <= j < 512 -> entry (mem s') t' j = 0) /\
       node (mem s') root p = Some t /\ has (entry (mem s') t i) PTE_PRESENT = true).
Proof.
  intros Hs Hp Hn He. destruct (alloc_table s root Hs) as (r & f & E & Hf & Hst & Hr & Hr0 & Ea).
  destruct Hs as [Ha Hfr Ht]. rewrite (bind_ok _ _ _ _ _ E).
  destruct (Z.eqb_spec r NULL) as [->|Hne].
  - exists false, (set_alloc f s). split; [done|]. split_and!; try done; [|by exists NULL].
    split; [done|by rewrite (st_frames _ _ Hst)|]. destruct Ht as [T1 T2 T3]. split; try done.
    intros q t' Hq Hn'. destruct (T1 q t' Hq Hn') as (A1 & A2 & A3). unfold table_frame.
    split_and!; [done|lia|lia|]. by apply (owned_stable s (set_alloc f s)).
  - destruct Hr as [|(Hal & Hrg & Hold & Hnew)]; [done|].
    destruct (pt_frames _ _ _ Ht p t (valid_prefix _ _ Hp) Hn) as (_ & Hrt & _).
    set (s1 := set_alloc f s). rewrite (bind_ok _ _ _ _ _ (get_table_ok s1 r)).
    rewrite (bind_ok _ _ _ _ _ (memset_page_ok s1 r ltac:(lia))).
    set (s2 := set_mem (zero_page r (mem s1)) s1). change (tbl s t) with (tbl s2 t).
    rewrite (bind_ok _ _ _ _ _ (write_entry_ok s2 t i _ ltac:(lia))).
    eexists _, _. split; [reflexivity|]. simpl.
    change (mem s2) with (zero_page r (mem s)). fold (with_table (mem s) i t r).
    assert (stable s (set_mem (with_table (mem s) i t r) s2)) as Hst' by (destruct Hst; by split).
    split_and!; try done.
    + split; simpl; [done|by rewrite <-(st_frames _ _ Hst) in Hfr|].
      eapply pt_ok_with_table; try done. intros y. by apply (owned_stable s (set_alloc f s)).
    + intros v. by eapply walk_with_table.
    + by exists r.
    + intros _. exists r. split_and!.
      * by erewrite node_linked.
      * intros j Hj. by eapply entry_fresh.
      * erewrite node_with_table; [|done..|by eapply valid_prefix]. rewrite decide_False; [done|].
        intros Hpre%prefix_length. rewrite length_app in Hpre. simpl in Hpre. lia.
      * rewrite entry_linked. apply table_entry_present.
Qed.

Lemma map_level_old s root p i t flags :
  vmm_ok s root -> valid (p ++ [i]) -> node (mem s) root p = Some t ->
  has (entry (mem s) t i) PTE_PRESENT = true ->
  (when (has flags PTE_USER)
     (e <- read_entry (tbl s t) i ;; write_entry (tbl s t) i (Z.lor e PTE_USER)) ;;;
   when (has flags PTE_WRITABLE)
     (e <- read_entry (tbl s t) i ;; write_entry (tbl s t) i (Z.lor e PTE_WRITABLE)) ;;;
   ret true) s = Ok (true, s).
Proof.
  intros Hs Hp Hn He.
  pose proof (rewrite_flag s root p i t 2 Hs Hp Hn He (or_intror eq_refl)) as E2.
  pose proof (rewrite_flag s root p i t 1 Hs Hp Hn He (or_introl eq_refl)) as E1.
  destruct (has flags PTE_USER), (has flags PTE_WRITABLE); cbn [when];
    rewrite ?(bind_ok _ _ _ _ _ E2), ?(bind_ok _ _ _ _ _ E1);
    rewrite ?(bind_ok (ret tt) _ s tt s eq_refl); rewrite ?(bind_ok _ _ _ _ _ E1);
    try done.
Qed.

(** The walk of [_vmm_map_unlocked] down the remaining [idxs] from the table
    at path [p]: no translation changes, and it ends at the table of the whole
    path unless the allocator ran out. *)
Lemma map_levels_spec idxs s root p t flags :
  vmm_ok s root -> valid (p ++ idxs) -> node (mem s) root p = Some t ->
  exists o s', map_levels idxs (tbl s t) flags s = Ok (tbl s <$> o, s') /\
    vmm_ok s' root /\ stable s s' /\ tlb_log s' = tlb_log s /\
    (forall v, walk (mem s') root v = walk (mem s) root v) /\
    match o with
    | Some t' => node (mem s') root (p ++ idxs) = Some t' /\ granted (missing (mem s) t idxs) (v_alloc s) (v_alloc s')
    | None => ~ allocs (missing (mem s) t idxs) (v_alloc s)
    end.
Proof.
  revert s p t. induction idxs as [|i idxs IH]; intros s p t Hs Hp Hn.
  { exists (Some t), s. split_and!; try done. by rewrite app_nil_r. }
  rewrite cons_middle, app_assoc in Hp. pose proof (valid_prefix _ _ Hp) as Hpi.
  destruct (pt_frames _ _ _ (vok_tables _ _ Hs) p t (valid_prefix _ _ Hpi) Hn) as (_ & Hrt & _).
  cbn [map_levels]. rewrite (bind_ok _ _ _ _ _ (read_entry_ok s t i ltac:(lia))).
  assert (exists ok s1,
    (if negb (has (entry (mem s) t i) PTE_PRESENT) then
       new_table_phys <- pmm_call fa_alloc ;;
       if new_table_phys =? NULL then ret false else
       new_table_virt <- vmm_get_table new_table_phys ;;
       memset_page new_table_virt ;;;
       write_entry (tbl s t) i (table_entry new_table_phys) ;;;
       ret true
     else
       when (has flags PTE_USER)
         (e <- read_entry (tbl s t) i ;; write_entry (tbl s t) i (Z.lor e PTE_USER)) ;;;
       when (has flags PTE_WRITABLE)
         (e <- read_entry (tbl s t) i ;; write_entry (tbl s t) i (Z.lor e PTE_WRITABLE)) ;;;
       ret true) s = Ok (ok, s1) /\
    vmm_ok s1 root /\ stable s s1 /\ tlb_log s1 = tlb_log s /\
    (forall v, walk (mem s1) root v = walk (mem s) root v) /\
    (if ok then node (mem s1) root p = Some t /\ has (entry (mem s1) t i) PTE_PRESENT = true /\
       let t1 := Z.land (entry (mem s1) t i) VMM_ADDR_MASK in
       (forall f, granted (missing (mem s1) t1 idxs) (v_alloc s1) f -> granted (missing (mem s) t (i :: idxs)) (v_alloc s) f) /\
       (~ allocs (missing (mem s1) t1 idxs) (v_alloc s1) -> ~ allocs (missing (mem s) t (i :: idxs)) (v_alloc s))
     else ~ allocs (missing (mem s) t (i :: idxs)) (v_alloc s)))
    as (ok & s1 & E & Hs1 & Hst & Hlog & Hw & Hok).
  { cbn [missing]. destruct (has (entry (mem s) t i) PTE_PRESENT) eqn:He; cbn [negb].
    - exists true, s. split; [by eapply map_level_old|].
      assert (child (mem s) t i = Some (Z.land (entry (mem s) t i) VMM_ADDR_MASK)) as -> by (unfold child; by rewrite He). by split_and!.
    - destruct (map_level_new s root p i t Hs Hpi Hn He) as (ok & s1 & E & ? & ? & ? & ? & (r & Er & Hr) & Hok).
      assert (child (mem s) t i = None) as -> by (unfold child; by rewrite He).
      exists ok, s1. split_and!; try done. destruct ok; [|destruct (decide (r = NULL)) as [->|Hnr]; [by eapply alloc_fails|by apply Hr in Hnr]].
      destruct (Hok eq_refl) as (t' & Hn' & Hz & Hn1 & He1). assert (Z.land (entry (mem s1) t i) VMM_ADDR_MASK = t') as ->.
      { rewrite node_snoc, Hn1 in Hn'. unfold child in Hn'. rewrite He1 in Hn'. by injection Hn'. }
      split_and!; [done|done| |]; rewrite (missing_empty _ t') by (done || by apply (valid_suffix (p ++ [i]))).
      + intros f Hg. exists r, (v_alloc s1). split_and!; [done|by apply Hr|done].
      + intros Hna (r' & f' & E' & _ & Ha). rewrite Er in E'. by injection E' as <- <-. }
  rewrite (bind_ok _ _ _ _ _ E). destruct ok; cbn [negb].
  2:{ exists None, s1. by split_and!. }
  destruct Hok as (Hn1 & He1 & Hgr & Hfail). clear E. rewrite <-(tbl_stable _ _ t Hst).
  rewrite (bind_ok _ _ _ _ _ (read_entry_ok s1 t i ltac:(lia))).
  rewrite (bind_ok _ _ _ _ _ (get_table_ok s1 _)).
  set (t1 := Z.land (entry (mem s1) t i) VMM_ADDR_MASK).
  assert (node (mem s1) root (p ++ [i]) = Some t1) as Hn2.
  { rewrite node_snoc, Hn1. unfold child. by rewrite He1. }
  destruct (IH s1 (p ++ [i]) t1 Hs1 Hp Hn2) as (o & s2 & E & Hs2 & Hst2 & Hlog2 & Hw2 & Ho).
  exists o, s2. split_and!; [|done|by etrans|congruence|congruence|].
  - rewrite E. destruct o as [t2|]; [|done]. simpl. by rewrite (tbl_stable _ _ t2 Hst).
  - destruct o as [t2|]; [|by apply Hfail]. destruct Ho as [Ho Hg]. split; [by rewrite cons_middle, app_assoc|by apply Hgr].
Qed.

(** The entry [_vmm_map_unlocked] writes. *)
Definition leaf_entry (phys flags : Z) : Z :=
  Z.lor (Z.lor (Z.land phys VMM_ADDR_MASK) flags) PTE_PRESENT.

Lemma leaf_entry_present phys flags : has (leaf_entry phys flags) PTE_PRESENT = true.
Proof.
  unfold leaf_entry, PTE_PRESENT. rewrite has_bit, Z.lor_spec, testbit_shift1 by done.
  apply orb_true_r.
Qed.

Lemma leaf_entry_mask phys flags :
  Z.land flags VMM_ADDR_MASK = 0 ->
  Z.land (leaf_entry phys flags) VMM_ADDR_MASK = Z.land phys VMM_ADDR_MASK.
Proof. intros Hf. unfold leaf_entry. rewrite !land_mask_lor by done. apply land_mask_idem. Qed.

Lemma vmm_map_unlocked_spec s root virt phys flags :
  vmm_ok s root ->
  exists ok s', vmm_map_unlocked (tbl s root) virt phys flags s = Ok (ok, s') /\
    vmm_ok s' root /\ stable s s' /\
    (forall v, walk (mem s') root v =
       if decide (ok = true /\ same_page v virt) then Some (leaf_entry phys flags)
       else walk (mem s) root v) /\
    tlb_log s' = (if ok then Invlpg virt :: tlb_log s else tlb_log s) /\
    let n := missing (mem s) root (path virt) in
    if ok then granted n (v_alloc s) (v_alloc s') else ~ allocs n (v_alloc s).
Proof.
  intros Hs. unfold vmm_map_unlocked.
  destruct (map_levels_spec (path virt) s root [] root flags Hs (valid_path virt) eq_refl)
    as (o & s1 & E & Hs1 & Hst & Hlog & Hw & Ho). unfold path in E.
  rewrite (bind_ok _ _ _ _ _ E). destruct o as [t|]; simpl.
  2:{ exists false, s1. by split_and!. }
  destruct Ho as [Ho Hg]. simpl in Ho. pose proof (vok_tables _ _ Hs1) as Hpt.
  destruct (pt_frames _ _ _ Hpt (path virt) t (valid_path virt) Ho) as (_ & Hrt & _).
  rewrite <-(tbl_stable _ _ t Hst).
  rewrite (bind_ok _ _ _ _ _ (write_entry_ok s1 t (PT_IDX virt) _ ltac:(lia))).
  eexists true, _. split; [reflexivity|]. simpl. split_and!.
  - destruct Hs1. split; simpl; [done|done|].
    apply (pt_ok_write_leaf _ _ _ (path virt)); auto with kernel.
  - destruct Hst. by split.
  - intros v. rewrite (walk_write_leaf _ _ _ _ _ _ _ Hpt Ho).
    fold (leaf_entry phys flags). rewrite leaf_entry_present, Hw.
    destruct (decide (same_page v virt)); [by rewrite decide_True|].
    by rewrite decide_False by (intros [_ ?]; done).
  - by rewrite Hlog.
  - exact Hg.
Qed.

(** The read of one level of a walk over existing tables. *)
Lemma read_level s root p i t {A} (k : Z -> M (vmm F) A) :
  vmm_ok s root -> valid p -> node (mem s) root p = Some t ->
  (e <- read_entry (tbl s t) i ;; k e) s = k (entry (mem s) t i) s.
Proof.
  intros Hs Hp Hn. destruct (pt_frames _ _ _ (vok_tables _ _ Hs) p t Hp Hn) as (_ & Hr & _).
  by rewrite (bind_ok _ _ _ _ _ (read_entry_ok s t i ltac:(lia))).
Qed.

(** The walks of [_vmm_unmap_unlocked] and [vmm_virtual_to_physical] over the
    three upper levels, given what they do at the last-level table and at a
    missing one. *)
Lemma walk_levels s root virt {A} (miss : M (vmm F) A) (found : Z -> M (vmm F) A) :
  vmm_ok s root ->
  (e <- read_entry (tbl s root) (PML4_IDX virt) ;;
   if negb (has e PTE_PRESENT) then miss else
   pdpt <- vmm_get_table (Z.land e VMM_ADDR_MASK) ;;
   e <- read_entry pdpt (PDPT_IDX virt) ;;
   if negb (has e PTE_PRESENT) then miss else
   pd <- vmm_get_table (Z.land e VMM_ADDR_MASK) ;;
   e <- read_entry pd (PD_IDX virt) ;;
   if negb (has e PTE_PRESENT) then miss else
   pt <- vmm_get_table (Z.land e VMM_ADDR_MASK) ;;
   found pt) s =
  match node (mem s) root (path virt) with
  | Some t => found (tbl s t) s
  | None => miss s
  end.
Proof.
  intros Hs. pose proof (valid_path virt) as Hv. unfold path in *.
  rewrite (read_level s root [] _ root) by (done || apply valid_nil). cbn [node]. unfold child at 1.
  destruct (has (entry (mem s) root (PML4_IDX virt)) PTE_PRESENT) eqn:E1; cbn [negb]; [|done].
  rewrite (bind_ok _ _ _ _ _ (get_table_ok s _)).
  set (t1 := Z.land (entry (mem s) root (PML4_IDX virt)) VMM_ADDR_MASK).
  rewrite (read_level s root [PML4_IDX virt] _ t1);
    [|done|by apply (valid_prefix _ [PDPT_IDX virt; PD_IDX virt])|cbn [node]; unfold child; by rewrite E1].
  unfold child at 1.
  destruct (has (entry (mem s) t1 (PDPT_IDX virt)) PTE_PRESENT) eqn:E2; cbn [negb]; [|done].
  rewrite (bind_ok _ _ _ _ _ (get_table_ok s _)).
  set (t2 := Z.land (entry (mem s) t1 (PDPT_IDX virt)) VMM_ADDR_MASK).
  rewrite (read_level s root [PML4_IDX virt; PDPT_IDX virt] _ t2);
    [|done|by apply (valid_prefix _ [PD_IDX virt])|
     cbn [node]; unfold child; rewrite E1; fold t1; by rewrite E2].
  unfold child at 1.
  destruct (has (entry (mem s) t2 (PD_IDX virt)) PTE_PRESENT) eqn:E3; cbn [negb]; [|done].
  by rewrite (bind_ok _ _ _ _ _ (get_table_ok s _)).
Qed.

Lemma walk_absent m root v virt :
  node m root (path virt) = None -> same_page v virt -> walk m root v = None.
Proof. intros E [Ep _]%same_page_indices. unfold walk, leaf. by rewrite Ep, E. Qed.

Lemma vmm_unmap_unlocked_spec s root virt :
  vmm_ok s root ->
  exists s', vmm_unmap_unlocked (tbl s root) virt s = Ok (tt, s') /\
    vmm_ok s' root /\ stable s s' /\ v_alloc s' = v_alloc s /\
    (forall v, walk (mem s') root v = if decide (same_page v virt) then None else walk (mem s) root v) /\
    (walk (mem s) root virt <> None -> tlb_log s' = Invlpg virt :: tlb_log s).
Proof.
  intros Hs. unfold vmm_unmap_unlocked. rewrite walk_levels by done.
  destruct (node (mem s) root (path virt)) as [t|] eqn:En.
  - pose proof (vok_tables _ _ Hs) as Hpt.
    destruct (pt_frames _ _ _ Hpt (path virt) t (valid_path virt) En) as (_ & Hrt & _).
    rewrite (bind_ok _ _ _ _ _ (write_entry_ok s t (PT_IDX virt) 0 ltac:(lia))).
    eexists. split; [reflexivity|]. simpl. split_and!; [|by split|done| |done].
    + destruct Hs. split; simpl; [done|done|].
      apply (pt_ok_write_leaf _ _ _ (path virt)); auto with kernel.
    + intros v. by rewrite (walk_write_leaf _ _ _ _ _ _ _ Hpt En).
  - exists s. split; [done|]. split_and!; try done.
    + intros v. case_decide; [|done]. by eapply walk_absent.
    + unfold walk, leaf. by rewrite En.
Qed.

(** What [vmm_virtual_to_physical] computes from the walk. *)
Definition translation (o : option Z) (virt : Z) : Z :=
  match o with
  | Some e => w64 (Z.land e VMM_ADDR_MASK + Z.land virt 0xFFF)
  | None => 0
  end.

(** No entry of the upper levels has the huge-page bit. *)
Lemma not_huge s root p i t :
  vmm_ok s root -> valid (p ++ [i]) -> node (mem s) root p = Some t ->
  has (entry (mem s) t i) (Z.shiftl 1 7) = false.
Proof.
  intros [_ _ Ht] Hp Hn. destruct (pt_inner _ _ _ Ht p i t Hp Hn) as [->|Hin]; [done|].
  unfold inner_bits in Hin. apply andb_true_iff in Hin as [Hin _].
  apply andb_true_iff in Hin as [_ Hin]. by apply negb_true_iff in Hin.
Qed.

Lemma vmm_virtual_to_physical_spec s root virt :
  vmm_ok s root ->
  vmm_virtual_to_physical (tbl s root) virt s = Ok (translation (walk (mem s) root virt) virt, s).
Proof.
  intros Hs. pose proof (walk_levels s root virt (ret 0) (fun pt =>
    e <- read_entry pt (PT_IDX virt) ;;
    if negb (has e PTE_PRESENT) then ret 0 else
    ret (w64 (Z.land e VMM_ADDR_MASK + Z.land virt 0xFFF))) Hs) as E.
  transitivity (match node (mem s) root (path virt) with
    | Some t => (e <- read_entry (tbl s t) (PT_IDX virt) ;;
        if negb (has e PTE_PRESENT) then ret 0 else
        ret (w64 (Z.land e VMM_ADDR_MASK + Z.land virt 0xFFF))) s
    | None => ret 0 s end).
  - rewrite <-E. clear E. unfold vmm_virtual_to_physical.
    pose proof (valid_path virt) as Hv. unfold path in Hv.
    rewrite !(read_level s root [] _ root) by (done || apply valid_nil).
    destruct (has (entry (mem s) root (PML4_IDX virt)) PTE_PRESENT) eqn:E1; cbn [negb]; [|done].
    rewrite !(bind_ok _ _ _ _ _ (get_table_ok s _)).
    set (t1 := Z.land (entry (mem s) root (PML4_IDX virt)) VMM_ADDR_MASK).
    assert (node (mem s) root [PML4_IDX virt] = Some t1) as N1 by (cbn [node]; unfold child; by rewrite E1).
    rewrite !(read_level s root [PML4_IDX virt] _ t1)
      by (done || by apply (valid_prefix _ [PDPT_IDX virt; PD_IDX virt])).
    destruct (has (entry (mem s) t1 (PDPT_IDX virt)) PTE_PRESENT) eqn:E2; cbn [negb]; [|done].
    rewrite !(bind_ok _ _ _ _ _ (get_table_ok s _)).
    set (t2 := Z.land (entry (mem s) t1 (PDPT_IDX virt)) VMM_ADDR_MASK).
    assert (node (mem s) root [PML4_IDX virt; PDPT_IDX virt] = Some t2) as N2
      by (cbn [node]; unfold child; rewrite E1; fold t1; by rewrite E2).
    rewrite !(read_level s root [PML4_IDX virt; PDPT_IDX virt] _ t2)
      by (done || by apply (valid_prefix _ [PD_IDX virt])).
    by rewrite (not_huge s root [PML4_IDX virt; PDPT_IDX virt] (PD_IDX virt) t2).
  - unfold walk, leaf. destruct (node (mem s) root (path virt)) as [t|] eqn:En; [|done].
    rewrite (read_level s root (path virt) _ t) by (done || apply valid_path).
    by destruct (has (entry (mem s) t (PT_IDX virt)) PTE_PRESENT).
Qed.

(** ** Under the lock *)

Lemma set_hart_ok s root h :
  vmm_ok s root -> hart_ok h -> vmm_ok (lset hart_of h s) root.
Proof.
  intros [Ha Hf [T1 T2 T3]] Hh. destruct (fa_set_hart (v_alloc s) h Ha Hh) as (Ha' & Hf' & Hu).
  split; simpl; [done|by rewrite Hf'|]. split; [|done|done].
  intros p t Hp Hn. destruct (T1 p t Hp Hn) as (Ha1 & Hr1 & Hu1).
  split_and!; try done; try lia. unfold owned in *. by rewrite Hf', Hu.
Qed.

Lemma set_lock_ok s root l : vmm_ok s root -> vmm_ok (lset vmm_lock l s) root.
Proof. intros [? ? ?]. by split. Qed.

Lemma vmm_ok_enter s root : vmm_ok s root -> vmm_ok (enter vmm_lock s) root.
Proof. intros Hs. apply set_lock_ok, set_hart_ok; [done|]. apply (fa_ok_hart _ (vok_alloc _ _ Hs)). Qed.

Lemma vmm_ok_leave s s' root :
  vmm_ok s root -> vmm_ok s' root -> vmm_ok (leave vmm_lock s s') root.
Proof.
  intros Hs Hs'. apply set_hart_ok; [by apply set_lock_ok|]. apply (fa_ok_hart _ (vok_alloc _ _ Hs)).
Qed.

Lemma vmm_critical {A} (body : M (vmm F) A) s root a s' :
  vmm_ok s root -> lock_free (vmm_lock_ s) ->
  body (enter vmm_lock s) = Ok (a, s') -> stable (enter vmm_lock s) s' ->
  critical vmm_lock body s = Ok (a, leave vmm_lock s s').
Proof.
  intros Hs Hl E Hst. apply (critical_ok vmm_lock); [apply (fa_ok_hart _ (vok_alloc _ _ Hs))|done|done|..].
  - exact (st_hart _ _ Hst).
  - exact (st_lock _ _ Hst).
Qed.

(** Unmapping under the lock leaves the allocator as it was. *)
Lemma leave_used s s' y :
  v_alloc s' = v_alloc (enter vmm_lock s) ->
  fa_used (v_alloc (leave vmm_lock s s')) y = fa_used (v_alloc s) y.
Proof. simpl. intros ->. by rewrite lset_lset, lset_lget. Qed.

(** A routine that works on an address space: it returns, keeps the invariant
    and gives back the lock and the interrupt flag. *)
Definition returns {A} (m : M (vmm F) A) s root (a : A) s' : Prop :=
  m s = Ok (a, s') /\ vmm_ok s' root /\ lock_free (vmm_lock_ s') /\
  lget hart_of s' = lget hart_of s /\ kernel_pml4 s' = kernel_pml4 s.

Lemma vmm_critical_returns {A} (body : M (vmm F) A) s root a s' :
  vmm_ok s root -> lock_free (vmm_lock_ s) ->
  body (enter vmm_lock s) = Ok (a, s') -> vmm_ok s' root -> stable (enter vmm_lock s) s' ->
  returns (critical vmm_lock body) s root a (leave vmm_lock s s').
Proof.
  intros Hs Hl E Hs' Hst. split; [by eapply vmm_critical|]. split_and!.
  - by apply vmm_ok_leave.
  - by apply (released_free _ (vmm_lock_ s)).
  - apply (lget_leave_hart vmm_lock).
  - exact (st_pml4 _ _ Hst).
Qed.

(** The allocator can deliver the tables that the path to [virt] lacks. *)
Definition enough s root virt : Prop :=
  allocs (missing (mem s) root (path virt)) (v_alloc (enter vmm_lock s)).

Lemma vmm_map_spec s root virt phys flags :
  vmm_ok s root -> lock_free (vmm_lock_ s) ->
  (enough s root virt /\ exists s', returns (vmm_map (tbl s root) virt phys flags) s root tt s' /\
     (forall v, walk (mem s') root v =
        if decide (same_page v virt) then Some (leaf_entry phys flags) else walk (mem s) root v) /\
     tlb_log s' = Invlpg virt :: tlb_log s) \/
  (~ enough s root virt /\
     if HHDM_OFFSET <=? virt then vmm_map (tbl s root) virt phys flags s = Panic else
     exists s', returns (vmm_map (tbl s root) virt phys flags) s root tt s' /\
       (forall v, walk (mem s') root v = walk (mem s) root v) /\ tlb_log s' = tlb_log s).
Proof.
  intros Hs Hl.
  destruct (vmm_map_unlocked_spec (enter vmm_lock s) root virt phys flags (vmm_ok_enter s root Hs))
    as (ok & s1 & E & Hs1 & Hst & Hw & Hlog & Hn).
  destruct (vmm_critical_returns _ s root ok s1 Hs Hl E Hs1 Hst) as (Ec & R1 & R2 & R3 & R4).
  change (tbl (enter vmm_lock s) root) with (tbl s root) in Ec.
  unfold vmm_map. destruct ok.
  - left. split; [exact (granted_allocs _ _ _ Hn)|]. exists (leave vmm_lock s s1). split.
    { split_and!; [by rewrite (bind_ok _ _ _ _ _ Ec)|done..]. }
    split; [|done]. intros v. change (mem (leave vmm_lock s s1)) with (mem s1). rewrite Hw.
    destruct (decide (same_page v virt)); [by rewrite decide_True|]. by rewrite decide_False by tauto.
  - right. split; [exact Hn|]. rewrite (bind_ok _ _ _ _ _ Ec). cbn [negb]. destruct (HHDM_OFFSET <=? virt) eqn:Ev; [done|].
    exists (leave vmm_lock s s1). split.
    { split_and!; [by rewrite (bind_ok _ _ _ _ _ Ec); cbn [negb]|done..]. }
    split; [|done]. intros v. change (mem (leave vmm_lock s s1)) with (mem s1). rewrite Hw.
    by rewrite decide_False by (intros [? _]; done).
Qed.

(** C5: [vmm_map] is correct. When the frame allocator can deliver the tables
    that the path to [virt] lacks, it returns with the lock free, the interrupt
    flag restored and the tables well formed; exactly the page of [virt] now
    translates through the entry built from [phys] and [flags], every other page
    translates as before, and the stale translation was flushed. When it cannot,
    the call panics for an address of the kernel, and for a user address it
    returns with every page translated as before. *)
Theorem vmm_map_correct s root virt phys flags :
  vmm_ok s root -> lock_free (vmm_lock_ s) ->
  (enough s root virt -> exists s', returns (vmm_map (tbl s root) virt phys flags) s root tt s' /\
     (forall v, walk (mem s') root v =
        if decide (same_page v virt) then Some (leaf_entry phys flags) else walk (mem s) root v) /\
     tlb_log s' = Invlpg virt :: tlb_log s) /\
  (~ enough s root virt ->
     if HHDM_OFFSET <=? virt then vmm_map (tbl s root) virt phys flags s = Panic else
     exists s', returns (vmm_map (tbl s root) virt phys flags) s root tt s' /\
       (forall v, walk (mem s') root v = walk (mem s) root v) /\ tlb_log s' = tlb_log s).
Proof. intros Hs Hl. destruct (vmm_map_spec s root virt phys flags Hs Hl) as [[He ?]|[He ?]]; by split. Qed.

(** [vmm_unmap] removes the translation of exactly one page: afterwards
    the page of [virt] is unmapped, every other page translates as before, no
    frame was taken or given back, the local translation was flushed when
    there was one, and the other CPUs were told to flush theirs. *)
Theorem vmm_unmap_correct s root virt :
  vmm_ok s root -> lock_free (vmm_lock_ s) ->
  exists s', returns (vmm_unmap (tbl s root) virt) s root tt s' /\
    (forall v, walk (mem s') root v = if decide (same_page v virt) then None else walk (mem s) root v) /\
    (forall y, fa_used (v_alloc s') y = fa_used (v_alloc s) y) /\
    (walk (mem s) root virt <> None -> tlb_log s' = SyncTlb :: Invlpg virt :: tlb_log s).
Proof.
  intros Hs Hl.
  destruct (vmm_unmap_unlocked_spec (enter vmm_lock s) root virt (vmm_ok_enter s root Hs))
    as (s1 & E & Hs1 & Hst & Ef & Hw & Hlog).
  set (s2 := log_tlb SyncTlb s1).
  exists (leave vmm_lock s s2). split.
  { apply vmm_critical_returns; [done|done| |by destruct Hs1; split|by destruct Hst; split].
    by rewrite (bind_ok _ _ _ _ _ E). }
  split_and!; [done| |].
  - intros y. by apply leave_used.
  - intros Hn. unfold s2. simpl. by rewrite Hlog.
Qed.

(** The software translation agrees with the processor's page walk:
    [vmm_virtual_to_physical] of any address is the frame of the entry the
    walk reaches plus the offset in the page, 0 when there is none, and the
    call changes nothing. *)
Theorem vmm_translation_is_walk s root virt :
  vmm_ok s root ->
  vmm_virtual_to_physical (tbl s root) virt s =
  Ok (match walk (mem s) root virt with
      | Some e => w64 (Z.land e VMM_ADDR_MASK + virt mod PAGE_SIZE)
      | None => 0
      end, s).
Proof.
  intros Hs. rewrite vmm_virtual_to_physical_spec by done. unfold translation.
  destruct (walk (mem s) root virt) as [e|]; [|done].
  change 0xFFF with (Z.ones 12). by rewrite Z.land_ones by lia.
Qed.

(** ** Ranges *)

(** Page [i] of a range, and the number of a page within a range. *)
Definition page_at (a i : Z) : Z := w64 (a + w64 (i * PAGE_SIZE)).
Definition page_off (virt v : Z) : Z := (v / PAGE_SIZE - virt / PAGE_SIZE) mod 2 ^ 36.

Lemma page_at_number a i :
  (page_at a i / PAGE_SIZE) mod 2 ^ 36 = (a / PAGE_SIZE + i) mod 2 ^ 36.
Proof.
  unfold page_at, w64. rewrite Zplus_mod_idemp_r. change (2 ^ 64) with (PAGE_SIZE * 2 ^ 52).
  rewrite Z.rem_mul_r by done. rewrite (Z.mul_comm PAGE_SIZE ((_ / _) mod _)), Z.div_add by done.
  rewrite (Z.div_small (_ mod _)) by (by apply Z.mod_pos_bound). rewrite Z.add_0_l.
  rewrite Z.mod_mod_divide by (by exists (2 ^ 16)). by rewrite Z.div_add by done.
Qed.

Lemma same_page_at virt v i :
  0 <= i < 2 ^ 36 -> same_page v (page_at virt i) <-> page_off virt v = i.
Proof.
  intros Hi. unfold same_page, page_off. rewrite page_at_number.
  set (x := v / PAGE_SIZE). set (y := virt / PAGE_SIZE). split.
  - intros E. rewrite Zminus_mod, E, <-Zminus_mod. rewrite Z.add_simpl_l. by apply Z.mod_small.
  - intros <-. rewrite Zplus_mod_idemp_r. f_equal. lia.
Qed.

Lemma page_off_range virt v : 0 <= page_off virt v < 2 ^ 36.
Proof. by apply Z.mod_pos_bound. Qed.

Lemma vmm_unmap_pages_spec n k s root virt :
  vmm_ok s root -> 0 <= k -> k + Z.of_nat n <= 2 ^ 36 ->
  exists s', mapM_ (fun i => vmm_unmap_unlocked (tbl s root) (page_at virt i)) (seqZ k (Z.of_nat n)) s
             = Ok (tt, s') /\
    vmm_ok s' root /\ stable s s' /\ v_alloc s' = v_alloc s /\
    (forall v, walk (mem s') root v =
       if decide (k <= page_off virt v < k + Z.of_nat n) then None else walk (mem s) root v).
Proof.
  revert k s. induction n as [|n IH]; intros k s Hs Hk Hn.
  { exists s. split_and!; try done. intros v. by rewrite decide_False by lia. }
  rewrite seqZ_cons by lia. cbn [mapM_].
  destruct (vmm_unmap_unlocked_spec s root (page_at virt k) Hs) as (s1 & E & Hs1 & Hst & Ef & Hw & _).
  rewrite (bind_ok _ _ _ _ _ E). replace (Z.pred (Z.of_nat (S n))) with (Z.of_nat n) by lia.
  destruct (IH (Z.succ k) s1 Hs1 ltac:(lia) ltac:(lia)) as (s2 & E2 & Hs2 & Hst2 & Ef2 & Hw2).
  rewrite (tbl_stable _ _ root Hst) in E2.
  exists s2. split_and!; [done|done|by etrans|congruence|]. intros v. rewrite Hw2, Hw.
  destruct (decide (same_page v (page_at virt k))) as [Hsp|Hsp]; rewrite same_page_at in Hsp by lia.
  - rewrite (decide_True (P := k <= _ < _)) by lia. by case_decide.
  - destruct (decide (k <= page_off virt v < k + Z.of_nat (S n))).
    + by rewrite decide_True by lia.
    + by rewrite decide_False by lia.
Qed.

Lemma vmm_unmap_range_unlocked_spec s root virt size :
  vmm_ok s root -> num_pages_of size <= 2 ^ 36 ->
  exists s', vmm_unmap_range_unlocked (tbl s root) virt size s = Ok (tt, s') /\
    vmm_ok s' root /\ stable s s' /\ v_alloc s' = v_alloc s /\
    (forall v, walk (mem s') root v =
       if decide (page_off virt v < num_pages_of size) then None else walk (mem s) root v).
Proof.
  intros Hs Hn. assert (0 <= num_pages_of size) as Hnn by (apply Z.div_pos; [apply w64_range|done]).
  destruct (vmm_unmap_pages_spec (Z.to_nat (num_pages_of size)) 0 s root virt Hs) as (s' & E & ? & ? & ? & Hw);
    [lia|lia|].
  rewrite Z2Nat.id in * by done. exists s'. split_and!; try done. intros v. rewrite Hw.
  pose proof (page_off_range virt v). destruct (decide (page_off virt v < num_pages_of size)).
  - by rewrite decide_True by lia.
  - by rewrite decide_False by lia.
Qed.

Lemma num_pages_of_exact k : 0 <= k -> k * PAGE_SIZE < 2 ^ 64 - PAGE_SIZE -> num_pages_of (k * PAGE_SIZE) = k.
Proof.
  unfold num_pages_of, PAGE_SIZE. intros Hnn Hk. rewrite !w64_small by (rewrite ?w64_small; lia).
  Z.div_mod_to_equations; lia.
Qed.

(** The loop of [_vmm_map_range_unlocked] once [k] pages are mapped. *)
Lemma map_pages_spec n k s root virt phys flags :
  vmm_ok s root -> 0 <= k -> k + Z.of_nat n <= 2 ^ 36 ->
  exists ok s', map_pages n k (tbl s root) virt phys flags s = Ok (ok, s') /\
    vmm_ok s' root /\ stable s s' /\
    (ok = true -> forall v, walk (mem s') root v =
       if decide (k <= page_off virt v < k + Z.of_nat n)
       then Some (leaf_entry (page_at phys (page_off virt v)) flags) else walk (mem s) root v) /\
    (ok = false -> ~ allocs (3 * n) (v_alloc s) /\ exists j, k <= j < k + Z.of_nat n /\ forall v, walk (mem s') root v =
       if decide (page_off virt v < j) then None else walk (mem s) root v).
Proof.
  revert k s. induction n as [|n IH]; intros k s Hs Hk Hn.
  { exists true, s. split_and!; try done. intros _ v. by rewrite decide_False by lia. }
  cbn [map_pages]. fold (page_at virt k) (page_at phys k).
  destruct (vmm_map_unlocked_spec s root (page_at virt k) (page_at phys k) flags Hs)
    as (ok & s1 & E & Hs1 & Hst & Hw & _ & Hal).
  pose proof (missing_le (mem s) root (path (page_at virt k))) as Hmis. change (length (path _)) with 3%nat in Hmis.
  rewrite (bind_ok _ _ _ _ _ E). destruct ok; cbn [negb].
  - destruct (IH (k + 1) s1 Hs1 ltac:(lia) ltac:(lia)) as (ok & s2 & E2 & Hs2 & Hst2 & Ht & Hf).
    rewrite (tbl_stable _ _ root Hst) in E2.
    assert (forall v, walk (mem s1) root v =
      if decide (page_off virt v = k) then Some (leaf_entry (page_at phys k) flags)
      else walk (mem s) root v) as Hw1.
    { intros v. rewrite Hw. destruct (decide (page_off virt v = k)) as [Hv|Hv].
      - apply same_page_at in Hv; [|lia]. by rewrite decide_True.
      - rewrite decide_False; [done|]. intros [_ Hsp]. by apply same_page_at in Hsp; [|lia]. }
    exists ok, s2. split_and!; [done|done|by etrans|..].
    + intros ->. intros v. rewrite Ht, Hw1 by done.
      repeat case_decide; try done; try lia; by replace (page_off virt v) with k by lia.
    + intros ->. destruct (Hf eq_refl) as (Hno & j & Hj & Hwj). split.
      { intros Ha. apply Hno, (granted_rest _ _ _ _ Hal), (allocs_le _ _ _ Ha). lia. }
      exists j. split; [lia|]. intros v. rewrite Hwj, Hw1. repeat case_decide; done || lia.
  - assert (~ allocs (3 * S n) (v_alloc s)) as Hno by (intros Ha; apply Hal, (allocs_le _ _ _ Ha); lia).
    destruct (Z.ltb_spec 0 k); cbn [when].
    + rewrite w64_small by (unfold PAGE_SIZE; lia).
      assert (num_pages_of (k * PAGE_SIZE) = k) as Ek
        by (apply num_pages_of_exact; unfold PAGE_SIZE; lia).
      destruct (vmm_unmap_range_unlocked_spec s1 root virt (k * PAGE_SIZE) Hs1) as (s2 & E2 & Hs2 & Hst2 & _ & Hw2);
        [lia|]. rewrite (tbl_stable _ _ root Hst) in E2. rewrite (bind_ok _ _ _ _ _ E2).
      exists false, s2. split_and!; [done|done|by etrans|done|]. intros _. split; [done|]. exists k. split; [lia|].
      intros v. rewrite Hw2, Ek. case_decide; [done|]. rewrite Hw. by rewrite (decide_False (P := false = true /\ _)) by (by intros []).
    + exists false, s1. split_and!; [done|done|done|done|]. intros _. split; [done|]. exists k. split; [lia|].
      intros v. pose proof (page_off_range virt v). rewrite decide_False by lia.
      rewrite Hw. by rewrite (decide_False (P := false = true /\ _)) by (by intros []).
Qed.

(** The allocator can deliver the three tables a page may lack, for every page of
    the range. *)
Definition enough_for s size : Prop := allocs (3 * Z.to_nat (num_pages_of size)) (v_alloc (enter vmm_lock s)).

(** [vmm_map_range] is all or nothing on fresh pages. Either every page of the
    range translates to the frame at the same offset from [phys] with the given
    flags and every other page as before; or the allocator could not deliver
    three tables for every page, and then the call panics for a range of the
    kernel, and for a user range a prefix was rolled back to unmapped and every
    other page translates as before. *)
Theorem vmm_map_range_correct s root virt phys size flags :
  vmm_ok s root -> lock_free (vmm_lock_ s) -> num_pages_of size <= 2 ^ 36 ->
  (exists s', returns (vmm_map_range (tbl s root) virt phys size flags) s root tt s' /\
     forall v, walk (mem s') root v =
        if decide (page_off virt v < num_pages_of size)
        then Some (leaf_entry (page_at phys (page_off virt v)) flags) else walk (mem s) root v) \/
  (~ enough_for s size /\
     if HHDM_OFFSET <=? virt then vmm_map_range (tbl s root) virt phys size flags s = Panic else
     exists s', returns (vmm_map_range (tbl s root) virt phys size flags) s root tt s' /\
       exists k, 0 <= k < num_pages_of size /\ forall v, walk (mem s') root v =
        if decide (page_off virt v < k) then None else walk (mem s) root v).
Proof.
  intros Hs Hl Hn.
  assert (0 <= num_pages_of size) as Hnn by (apply Z.div_pos; [apply w64_range|done]).
  destruct (map_pages_spec (Z.to_nat (num_pages_of size)) 0 (enter vmm_lock s) root virt phys flags
    (vmm_ok_enter s root Hs)) as (ok & s1 & E & Hs1 & Hst & Ht & Hf); [lia|lia|].
  rewrite Z2Nat.id in Ht, Hf by done.
  destruct (vmm_critical_returns _ s root ok s1 Hs Hl E Hs1 Hst) as (Ec & R1 & R2 & R3 & R4).
  change (tbl (enter vmm_lock s) root) with (tbl s root) in Ec.
  unfold vmm_map_range, vmm_map_range_unlocked. rewrite (bind_ok _ _ _ _ _ Ec). destruct ok; cbn [negb].
  - left. exists (leave vmm_lock s s1). split.
    { split_and!; [by rewrite (bind_ok _ _ _ _ _ Ec)|done..]. }
    intros v. change (mem (leave vmm_lock s s1)) with (mem s1). rewrite Ht by done.
    pose proof (page_off_range virt v). destruct (decide (page_off virt v < num_pages_of size)).
    + by rewrite decide_True by lia.
    + by rewrite decide_False by lia.
  - right. destruct (Hf eq_refl) as (Hno & k & Hk & Hwk). split; [exact Hno|]. destruct (HHDM_OFFSET <=? virt) eqn:Ev; [done|].
    exists (leave vmm_lock s s1). split; [|by exists k].
    split_and!; [by rewrite (bind_ok _ _ _ _ _ Ec); cbn [negb]|done..].
Qed.

(** [vmm_unmap_range] removes exactly the translations of its pages, hands
    no frame back, and tells the other CPUs to flush. *)
Theorem vmm_unmap_range_correct s root virt size :
  vmm_ok s root -> lock_free (vmm_lock_ s) -> num_pages_of size <= 2 ^ 36 ->
  exists s', returns (vmm_unmap_range (tbl s root) virt size) s root tt s' /\
    head (tlb_log s') = Some SyncTlb /\
    (forall y, fa_used (v_alloc s') y = fa_used (v_alloc s) y) /\
    (forall v, walk (mem s') root v =
       if decide (page_off virt v < num_pages_of size) then None else walk (mem s) root v).
Proof.
  intros Hs Hl Hn.
  destruct (vmm_unmap_range_unlocked_spec (enter vmm_lock s) root virt size (vmm_ok_enter s root Hs) Hn)
    as (s1 & E & Hs1 & Hst & Ef & Hw).
  set (s2 := log_tlb SyncTlb s1). exists (leave vmm_lock s s2). split.
  { apply vmm_critical_returns; [done|done| |by destruct Hs1; split|by destruct Hst; split].
    by rewrite (bind_ok _ _ _ _ _ E). }
  split_and!; [done|intros y; by apply leave_used|done].
Qed.
End proofs.
