(* ===== verification/VmmSpace.v ===== *)
(** * User address spaces

    Proofs about [vmm_create_user_pml4] and [vmm_destroy_user_pml4] of
    [kernel/memory/vmm.c] (both defined in [Vmm]): a new address space shares
    the kernel half and maps nothing else, and tearing one down gives back
    exactly the frames of its user half. *)

From S2P Require Import Prelude Lock Boot Frames Vmm.

(** Every entry of every table under [root] is the same in both memories. *)
Definition agree (m m' : gmap Z Z) (root : Z) : Prop :=
  forall q t i, valid q -> node m root q = Some t -> 0 <= i < 512 -> entry m' t i = entry m t i.

Lemma agree_node m m' root q : agree m m' root -> valid q -> node m' root q = node m root q.
Proof.
  intros Ha Hq. apply (node_frame m m' root [] (-1)); [|done|].
  - intros p t i Hp Ht Hi _. by eapply Ha.
  - intros [k ->]. destruct Hq as [Hq _]. simpl in Hq. apply Forall_cons in Hq as [? _]. lia.
Qed.

Lemma agree_walk m m' root v : agree m m' root -> walk m' root v = walk m root v.
Proof.
  intros Ha. unfold walk, leaf. rewrite (agree_node m m') by auto with kernel.
  destruct (node m root (path v)) as [t|] eqn:E; [|done].
  by rewrite (Ha (path v) t) by auto with kernel.
Qed.

Lemma agree_pt_ok u u' m m' root :
  agree m m' root -> (forall y, u y = true -> u' y = true) -> pt_ok u m root -> pt_ok u' m' root.
Proof.
  intros Ha Hu [T1 T2 T3]. split.
  - intros p t Hp. rewrite (agree_node m m') by done. intros Hn.
    destruct (T1 p t Hp Hn) as (A1 & A2 & A3). unfold table_frame. auto.
  - intros p q t Hp Hq. rewrite !(agree_node m m') by done. by apply T2.
  - intros p i t Hp. pose proof (valid_prefix _ _ Hp) as Hp1.
    rewrite (agree_node m m') by done. intros Hn.
    rewrite (Ha p t i Hp1 Hn (valid_snoc _ _ Hp)). by eapply T3.
Qed.

Section create.
Context {F : Type} `{FrameAllocatorOk F}.
Implicit Types s : vmm F.

(** The copy loop: slots of [r] take the entries of [k]. *)
Lemma copy_entries_spec l s k r :
  0 <= k < 2 ^ 40 -> 0 <= r < 2 ^ 40 -> k mod PAGE_SIZE = 0 -> r mod PAGE_SIZE = 0 -> k <> r ->
  kernel_pml4 s = tbl s k -> Forall (fun i => 0 <= i < 512) l ->
  exists m', mapM_ (fun i =>
      k <- gets kernel_pml4 ;;
      e <- read_entry k i ;;
      write_entry (tbl s r) i e) l s = Ok (tt, set_mem m' s) /\
    (forall i, i ∈ l -> entry m' r i = entry (mem s) k i) /\
    (forall a, (forall i, i ∈ l -> a <> r + 8 * i) -> rd m' a = rd (mem s) a).
Proof.
  intros Hk Hr Ak Ar Hne. revert s. induction l as [|i l IH]; intros s Ek Hl.
  { exists (mem s). split; [by destruct s|]. split; [|done]. by intros i ?%not_elem_of_nil. }
  apply Forall_cons in Hl as [Hi Hl]. cbn [mapM_]. set (s1 := set_mem (<[r + 8 * i := entry (mem s) k i]> (mem s)) s).
  assert ((k <- gets kernel_pml4 ;; e <- read_entry k i ;; write_entry (tbl s r) i e) s = Ok (tt, s1)) as E1.
  { cbv [bind gets]. rewrite Ek, read_entry_ok by done. by rewrite write_entry_ok by done. }
  rewrite (bind_ok _ _ _ _ _ E1). destruct (IH s1 Ek Hl) as (m' & E & Hin & Hout).
  exists m'. split; [exact E|].
  assert (forall j, 0 <= j < 512 -> entry (mem s1) k j = entry (mem s) k j) as Hsame.
  { intros j Hj. unfold entry, s1. simpl. rewrite rd_insert, decide_False; [done|].
    intros E'. by destruct (slot_inj r k i j) as [? _]. }
  split.
  - intros j Hj. destruct (decide (j ∈ l)) as [Hjl|Hjl].
    { rewrite Hin by done. apply Hsame. rewrite Forall_forall in Hl. by apply Hl. }
    apply elem_of_cons in Hj as [->|]; [|done]. unfold entry at 1. rewrite Hout.
    + unfold s1. simpl. by rewrite rd_insert, decide_True.
    + intros j Hj E'. rewrite Forall_forall in Hl. specialize (Hl j Hj). assert (i = j) by lia. congruence.
  - intros a Ha. rewrite Hout by (intros j Hj; apply Ha; by right). unfold s1. simpl.
    rewrite rd_insert, decide_False; [done|]. intros <-. by apply (Ha i); [left|].
Qed.

(** The memory of a new address space: the upper half of [k]'s top level in
    [r], nothing in the lower half. *)
Record shares (m m' : gmap Z Z) (k r : Z) : Prop := {
  sh_low : forall i, 0 <= i < 256 -> entry m' r i = 0;
  sh_high : forall i, 256 <= i < 512 -> entry m' r i = entry m k i;
  sh_rest : forall t i, t mod PAGE_SIZE = 0 -> t <> r -> 0 <= i < 512 -> entry m' t i = entry m t i;
}.

Section shares.
Context (u : Z -> bool) (m m' : gmap Z Z) (k r : Z).
Context (Hk : pt_ok u m k) (Hsh : shares m m' k r).
Context (Hal : r mod PAGE_SIZE = 0) (Hrg : 0 < r < 2 ^ 40) (Hfresh : u (r / PAGE_SIZE) = false).

Lemma shares_agree : agree m m' k.
Proof.
  intros q t i Hq Hn Hi. destruct (pt_frames _ _ _ Hk q t Hq Hn) as (Ha & _ & Hu).
  apply (sh_rest _ _ _ _ Hsh); [done| |done]. intros ->. congruence.
Qed.

Lemma node_shared i p :
  valid (i :: p) -> node m' r (i :: p) = if decide (i < 256) then None else node m k (i :: p).
Proof.
  intros Hv. rewrite <-(agree_node m m' k (i :: p) shares_agree Hv). cbn [node]. unfold child.
  destruct Hv as [Hv _]. apply Forall_cons in Hv as [Hi _]. case_decide.
  - by rewrite (sh_low _ _ _ _ Hsh) by lia.
  - rewrite (sh_high _ _ _ _ Hsh) by lia.
    assert (entry m' k i = entry m k i) as -> by (apply (shares_agree [] k i valid_nil eq_refl Hi)).
    done.
Qed.

Lemma walk_shared v : walk m' r v = if decide (PML4_IDX v < 256) then None else walk m k v.
Proof.
  rewrite <-(agree_walk m m' k v shares_agree). unfold walk, leaf.
  rewrite (agree_node m m' k) by auto using shares_agree with kernel.
  unfold path. rewrite node_shared by apply valid_path. by case_decide.
Qed.

Lemma shared_pt_ok u' :
  (forall y, u y = true -> u' y = true) -> u' (r / PAGE_SIZE) = true -> pt_ok u' m' r.
Proof.
  intros Hu Hu0.
  assert (forall q t, valid q -> node m k q = Some t -> t <> r) as Hnr.
  { intros q t Hq Hn ->. destruct (pt_frames _ _ _ Hk q r Hq Hn) as (_ & _ & ?). congruence. }
  split.
  - intros [|i p] t Hp.
    + intros [= <-]. done.
    + rewrite node_shared by done. case_decide; [done|]. intros Hn.
      destruct (pt_frames _ _ _ Hk _ t Hp Hn) as (? & ? & ?). unfold table_frame. auto.
  - intros [|i p] [|j q] t Hp Hq; rewrite ?node_shared by done; repeat case_decide; try done.
    + intros [= <-] Hn. by apply Hnr in Hn.
    + intros Hn [= <-]. by apply Hnr in Hn.
    + by apply (pt_tree _ _ _ Hk).
  - intros [|j p] i t Hp.
    + intros [= <-]. pose proof (valid_snoc [] i Hp). destruct (decide (i < 256)).
      * left. apply (sh_low _ _ _ _ Hsh). lia.
      * rewrite (sh_high _ _ _ _ Hsh) by lia. by apply (pt_inner _ _ _ Hk [] i k).
    + pose proof (valid_prefix (j :: p) [i] Hp) as Hp1. rewrite node_shared by done.
      case_decide; [done|]. intros Hn.
      rewrite (shares_agree _ _ _ Hp1 Hn (valid_snoc (j :: p) i Hp)). by apply (pt_inner _ _ _ Hk (j :: p)).
Qed.
End shares.

Lemma entry_zero_other m t r i :
  t mod PAGE_SIZE = 0 -> r mod PAGE_SIZE = 0 -> t <> r -> 0 <= i < 512 ->
  entry (zero_page r m) t i = entry m t i.
Proof.
  intros At Ar Hne Hi. apply rd_zero_page_out. intros j Hj E. by destruct (slot_inj t r i j) as [? _].
Qed.

(** Zeroing [r] and copying the upper half of [k] into it. *)
Lemma fill_pml4 s k r :
  0 <= k < 2 ^ 40 -> 0 < r < 2 ^ 40 -> k mod PAGE_SIZE = 0 -> r mod PAGE_SIZE = 0 -> k <> r ->
  kernel_pml4 s = tbl s k ->
  exists m', (memset_page (tbl s r) ;;;
      mapM_ (fun i =>
        k <- gets kernel_pml4 ;;
        e <- read_entry k i ;;
        write_entry (tbl s r) i e) (seqZ 256 256) ;;;
      ret r) s = Ok (r, set_mem m' s) /\ shares (mem s) m' k r.
Proof.
  intros Hk Hr Ak Ar Hne Ek. rewrite (bind_ok _ _ _ _ _ (memset_page_ok s r ltac:(lia))).
  set (s1 := set_mem (zero_page r (mem s)) s).
  destruct (copy_entries_spec (seqZ 256 256) s1 k r) as (m' & E & Hin & Hout); try done; [lia| |].
  { apply Forall_forall. intros i Hi%elem_of_seqZ. lia. }
  change (tbl s1 r) with (tbl s r) in E. rewrite (bind_ok _ _ _ _ _ E).
  exists m'. split; [done|]. split.
  - intros i Hi. unfold entry. rewrite Hout.
    + apply rd_zero_page_in. lia.
    + intros j Hj%elem_of_seqZ. lia.
  - intros i Hi. rewrite Hin by (apply elem_of_seqZ; lia). apply entry_zero_other; done || lia.
  - intros t i At Htr Hi. rewrite <-(entry_zero_other (mem s) t r i) by done. apply Hout.
    intros j Hj%elem_of_seqZ E'. by destruct (slot_inj t r i j) as [? _]; try lia.
Qed.

(** [vmm_create_user_pml4] makes a fresh address space: when it succeeds,
    the new top-level table lies in a frame that was free, its user half maps
    nothing, its kernel half translates exactly as the kernel's own tables,
    and both address spaces are well formed. The kernel's translations never
    change, and a null result changes no frame. *)
Theorem vmm_create_user_pml4_correct s k :
  vmm_ok s k -> kernel_pml4 s = phys_to_virt k ->
  exists r s', vmm_create_user_pml4 s = Ok (r, s') /\ vmm_ok s' k /\
    (forall v, walk (mem s') k v = walk (mem s) k v) /\
    (r = 0 /\ (forall y, fa_used (v_alloc s') y = fa_used (v_alloc s) y) \/
     owned (v_alloc s) (r / PAGE_SIZE) = false /\ vmm_ok s' r /\
     (forall v, walk (mem s') r v = if decide (PML4_IDX v < 256) then None else walk (mem s) k v)).
Proof.
  intros Hs Ek. pose proof Hs as [Ha Hf Ht].
  destruct (pt_frames _ _ _ Ht [] k valid_nil eq_refl) as (Ak & Hk & Hku).
  assert (phys_to_virt k <> NULL) as Hnn.
  { unfold phys_to_virt, HHDM_OFFSET, NULL. rewrite w64_small; lia. }
  assert (kernel_pml4 s = tbl s k) as Etbl.
  { unfold tbl. by rewrite (proj2 (Z.eqb_neq _ _)) by congruence. }
  destruct (alloc_table s k Hs) as (r & f & E & Hfok & Hst & Hr & Hr0).
  assert (vmm_ok (set_alloc f s) k) as Hs1.
  { split; [done|by rewrite (st_frames _ _ Hst)|]. apply (agree_pt_ok (owned (v_alloc s)) _ (mem s)).
    - by intros q t i.
    - intros y. by apply (owned_stable s (set_alloc f s)).
    - done. }
  unfold vmm_create_user_pml4. rewrite (bind_ok _ _ _ _ _ E).
  destruct (Z.eqb_spec r NULL) as [->|Hne].
  { exists 0, (set_alloc f s). split_and!; try done. left. split; [done|]. by apply Hr0. }
  destruct Hr as [|(Ar & Hrr & Hold & Hnew)]; [done|]. set (s1 := set_alloc f s) in *.
  rewrite (bind_ok _ _ _ _ _ (get_table_ok s1 r)).
  assert (k <> r) as Hkr by congruence.
  destruct (fill_pml4 s1 k r ltac:(lia) ltac:(lia) Ak Ar Hkr Etbl) as (m' & E1 & Hsh).
  exists r, (set_mem m' s1). split; [exact E1|]. destruct Hs1 as [B1 B2 B3]. split_and!.
  - split; [done|done|]. eapply agree_pt_ok; [|done|exact B3]. by apply (shares_agree (owned (v_alloc s)) _ _ _ r).
  - intros v. apply agree_walk. by apply (shares_agree (owned (v_alloc s)) _ _ _ r).
  - right. split_and!; [done| |].
    + split; [done|done|]. apply (shared_pt_ok (owned (v_alloc s)) (mem s) m' k r); try done.
      intros y. by apply (owned_stable s s1).
    + intros v. by apply (walk_shared (owned (v_alloc s))).
Qed.
End create.

(** ** Tearing down *)

Section destroy.
Context {F : Type} `{FrameAllocatorOk F}.
Implicit Types s : vmm F.
Context (m : gmap Z Z) (n : Z) (free_frames : bool).

Definition addr (e : Z) : Z := Z.land e VMM_ADDR_MASK.

(** Freeing the frame at [a] releases frame number [y]. *)
Definition gone (a y : Z) : bool := negb (a =? NULL) && (y =? a / PAGE_SIZE).

(** Frame [y] is released when everything below table [t], [d] levels above
    the last one, is torn down. *)
Fixpoint below (d : nat) (t y : Z) : bool :=
  match d with
  | O => free_frames &&
      existsb (fun i => has (entry m t i) PTE_PRESENT && gone (addr (entry m t i)) y) (seqZ 0 512)
  | S d =>
      existsb (fun i => has (entry m t i) PTE_PRESENT &&
        (below d (addr (entry m t i)) y || gone (addr (entry m t i)) y)) (seqZ 0 512)
  end.

(** States of the tear-down: the page tables in memory never change. *)
Definition here s : Prop :=
  mem s = m /\ kernel_pml4 s <> NULL /\ fa_ok (v_alloc s) /\ fa_frames (v_alloc s) = n.

(** A step that does nothing but give back the frames in [P]. *)
Definition frees (c : M (vmm F) unit) (P : Z -> bool) s : Prop :=
  exists f, c s = Ok (tt, set_alloc f s) /\ fa_ok f /\
    lget hart_of f = lget hart_of (v_alloc s) /\ fa_frames f = fa_frames (v_alloc s) /\
    forall y, fa_used f y = negb (P y) && fa_used (v_alloc s) y.

Lemma frees_here s f : here s -> fa_ok f -> fa_frames f = fa_frames (v_alloc s) -> here (set_alloc f s).
Proof. intros (? & ? & ? & ?) Hf E. split_and!; try done. simpl. congruence. Qed.

Lemma frees_ext c P Q s : frees c P s -> (forall y, P y = Q y) -> frees c Q s.
Proof.
  intros (f & ? & ? & ? & ? & Hu) E. exists f. split_and!; try done. intros y. by rewrite <-E.
Qed.

Lemma frees_none s : here s -> frees (ret tt) (fun _ => false) s.
Proof. intros (_ & _ & ? & _). exists (v_alloc s). split_and!; try done. by destruct s. Qed.

Lemma frees_seq c1 c2 P1 P2 s :
  here s -> frees c1 P1 s -> (forall s', here s' -> frees c2 P2 s') ->
  frees (c1 ;;; c2) (fun y => P1 y || P2 y) s.
Proof.
  intros Hh (f & E & Hok & Hha & Hfr & Hu) H2.
  destruct (H2 (set_alloc f s)) as (f' & E' & Hok' & Hha' & Hfr' & Hu').
  { by apply frees_here. }
  exists f'. rewrite (bind_ok _ _ _ _ _ E). split_and!; try done; simpl in *; try congruence.
  intros y. rewrite Hu', Hu. by destruct (P1 y), (P2 y).
Qed.

Lemma frees_mapM {A} (c : A -> M (vmm F) unit) (P : A -> Z -> bool) l s :
  here s -> (forall a s', a ∈ l -> here s' -> frees (c a) (P a) s') ->
  frees (mapM_ c l) (fun y => existsb (fun a => P a y) l) s.
Proof.
  revert s. induction l as [|a l IH]; intros s Hh Hc; [by apply frees_none|].
  apply (frees_seq _ _ (P a) (fun y => existsb (fun a => P a y) l)); [done|apply Hc; [by left|done]|].
  intros s' Hh'. apply IH; [done|]. intros a' s'' Ha'. apply Hc. by right.
Qed.

Lemma frees_free a s : here s -> 0 <= a / PAGE_SIZE < n -> frees (pmm_call (fa_free a)) (gone a) s.
Proof.
  intros (_ & _ & Hok & Hn) Ha. rewrite <-Hn in Ha.
  pose proof (fa_free_spec (v_alloc s) a Hok Ha) as Hwp.
  apply wp_ok in Hwp as ([] & f & E & Hok' & Hha & Hfr & Hu). exists f.
  split_and!; try done; [unfold pmm_call; by rewrite E|]. intros y. rewrite Hu. unfold gone.
  by destruct (a =? NULL).
Qed.

Lemma frees_read t i k P s :
  here s -> 0 <= t < 2 ^ 40 -> frees (k (entry m t i)) P s ->
  frees (e <- read_entry (phys_to_virt t) i ;; k e) P s.
Proof.
  intros (Em & Hk & _ & _) Ht (f & E & Hrest). exists f. split; [|done].
  assert (phys_to_virt t = tbl s t) as ->.
  { unfold tbl. by rewrite (proj2 (Z.eqb_neq _ _)). }
  by rewrite (bind_ok _ _ _ _ _ (read_entry_ok s t i Ht)), Em.
Qed.

(** The address space to tear down: its tables are frames of the allocator,
    and so are the pages it maps when they are to be freed as well. *)
Context (root : Z).
Context (Hpt : forall p t, valid p -> node m root p = Some t -> 0 <= t < 2 ^ 40 /\ t / PAGE_SIZE < n).
Context (Hin : forall p i t, valid (p ++ [i]) -> node m root p = Some t ->
  entry m t i = 0 \/ inner_bits (entry m t i) = true).
Context (Hleaf : free_frames = true -> forall p i e, valid p -> length p = 3%nat -> 0 <= i < 512 ->
  leaf m root p i = Some e -> addr e / PAGE_SIZE < n).

Lemma entry_child p i t :
  valid (p ++ [i]) -> node m root p = Some t -> has (entry m t i) PTE_PRESENT = true ->
  node m root (p ++ [i]) = Some (addr (entry m t i)) /\ has (entry m t i) (Z.shiftl 1 7) = false.
Proof.
  intros Hp Hn He. split; [rewrite node_snoc, Hn; unfold child; by rewrite He|].
  destruct (Hin p i t Hp Hn) as [E|Hb]; [by rewrite E in He|]. unfold inner_bits in Hb.
  apply andb_true_iff in Hb as [Hb _]. apply andb_true_iff in Hb as [_ Hb]. by apply negb_true_iff in Hb.
Qed.

Lemma addr_nonneg e : 0 <= addr e / PAGE_SIZE.
Proof. apply Z.div_pos; [|done]. apply Z.land_nonneg. by right. Qed.

Lemma valid_extend p i : valid p -> (length p < 3)%nat -> 0 <= i < 512 -> valid (p ++ [i]).
Proof.
  intros [Hf _] Hl Hi. split; [|rewrite length_app; simpl; lia].
  apply Forall_app. split; [done|]. by apply Forall_singleton.
Qed.

Lemma frees_pt p t s :
  valid p -> length p = 3%nat -> node m root p = Some t -> here s ->
  frees (free_pt free_frames (phys_to_virt t)) (below 0 t) s.
Proof.
  intros Hp Hl Hn Hh. destruct (Hpt p t Hp Hn) as [Ht _]. unfold free_pt. cbn [below].
  destruct free_frames eqn:Eff; cbn [when andb]; [|by apply frees_none].
  apply (frees_mapM _ (fun i y => has (entry m t i) PTE_PRESENT && gone (addr (entry m t i)) y)); [done|].
  intros i s' Hi%elem_of_seqZ Hh'. apply frees_read; [done|done|].
  destruct (has (entry m t i) PTE_PRESENT) eqn:He; cbn [when andb]; [|by apply frees_none].
  apply frees_free; [done|]. split; [apply addr_nonneg|].
  apply (Hleaf eq_refl p i); [done|done|lia|]. unfold leaf. by rewrite Hn, He.
Qed.

(** One present entry that leads to a table: what is below it, then it. *)
Lemma frees_entry d p i t s (c : Z -> M (vmm F) unit) :
  valid (p ++ [i]) -> node m root p = Some t -> has (entry m t i) PTE_PRESENT = true -> here s ->
  (forall s', here s' -> frees (c (addr (entry m t i))) (below d (addr (entry m t i))) s') ->
  frees (c (addr (entry m t i)) ;;;
         e <- read_entry (phys_to_virt t) i ;; pmm_call (fa_free (addr e)))
    (fun y => below d (addr (entry m t i)) y || gone (addr (entry m t i)) y) s.
Proof.
  intros Hp Hn He Hh Hc. destruct (Hpt p t (valid_prefix _ _ Hp) Hn) as [Ht _].
  destruct (entry_child p i t Hp Hn He) as [Hn' _]. destruct (Hpt _ _ Hp Hn') as [_ Hr].
  apply frees_seq; [done|by apply Hc|]. intros s' Hh'. apply frees_read; [done|done|].
  apply frees_free; [done|]. split; [apply addr_nonneg|done].
Qed.

Lemma frees_pd_entry p k t s :
  valid (p ++ [k]) -> length p = 2%nat -> node m root p = Some t -> here s ->
  frees (free_pd_entry free_frames (phys_to_virt t) k)
    (fun y => has (entry m t k) PTE_PRESENT &&
       (below 0 (addr (entry m t k)) y || gone (addr (entry m t k)) y)) s.
Proof.
  intros Hp Hl Hn Hh. destruct (Hpt p t (valid_prefix _ _ Hp) Hn) as [Ht _]. unfold free_pd_entry.
  apply frees_read; [done|done|].
  destruct (has (entry m t k) PTE_PRESENT) eqn:He; cbn [negb andb]; [|by apply frees_none].
  destruct (entry_child p k t Hp Hn He) as [Hn' ->].
  apply (frees_entry 0 p k t s (fun a => free_pt free_frames (phys_to_virt a))); [done|done|done|done|].
  intros s' Hh'. apply (frees_pt (p ++ [k])); [done|rewrite length_app; simpl; lia|done|done].
Qed.

Lemma frees_pdpt_entry p j t s :
  valid (p ++ [j]) -> length p = 1%nat -> node m root p = Some t -> here s ->
  frees (free_pdpt_entry free_frames (phys_to_virt t) j)
    (fun y => has (entry m t j) PTE_PRESENT &&
       (below 1 (addr (entry m t j)) y || gone (addr (entry m t j)) y)) s.
Proof.
  intros Hp Hl Hn Hh. destruct (Hpt p t (valid_prefix _ _ Hp) Hn) as [Ht _]. unfold free_pdpt_entry.
  apply frees_read; [done|done|].
  destruct (has (entry m t j) PTE_PRESENT) eqn:He; cbn [negb andb]; [|by apply frees_none].
  destruct (entry_child p j t Hp Hn He) as [Hn' ->].
  apply (frees_entry 1 p j t s (fun a => mapM_ (free_pd_entry free_frames (phys_to_virt a)) (seqZ 0 512)));
    [done|done|done|done|].
  intros s' Hh'. apply frees_mapM; [done|]. intros k s'' Hk%elem_of_seqZ Hh''.
  assert (length (p ++ [j]) = 2)%nat as Hl2 by (rewrite length_app; simpl; lia).
  apply (frees_pd_entry (p ++ [j])); [apply valid_extend; [done|lia|lia]|done|done|done].
Qed.

Lemma frees_pml4_entry i s :
  0 <= i < 512 -> here s ->
  frees (free_pml4_entry free_frames (phys_to_virt root) i)
    (fun y => has (entry m root i) PTE_PRESENT &&
       (below 2 (addr (entry m root i)) y || gone (addr (entry m root i)) y)) s.
Proof.
  intros Hi Hh. destruct (Hpt [] root valid_nil eq_refl) as [Ht _]. unfold free_pml4_entry.
  apply frees_read; [done|done|].
  assert (valid ([] ++ [i])) as Hp by (apply valid_extend; [apply valid_nil|simpl; lia|done]).
  destruct (has (entry m root i) PTE_PRESENT) eqn:He; cbn [negb andb]; [|by apply frees_none].
  destruct (entry_child [] i root Hp eq_refl He) as [Hn' _].
  apply (frees_entry 2 [] i root s (fun a => mapM_ (free_pdpt_entry free_frames (phys_to_virt a)) (seqZ 0 512)));
    [done|done|done|done|].
  intros s' Hh'. apply frees_mapM; [done|]. intros k s'' Hk%elem_of_seqZ Hh''.
  apply (frees_pdpt_entry [i]); [apply (valid_extend [i]); [done|simpl; lia|lia]|done|done|done].
Qed.
End destroy.

(** Tables, and mapped pages, reached from [t] by paths in [ps] of at most, or
    exactly, [d] indices. *)
Definition tables_in (m : gmap Z Z) (d : nat) (t y : Z) (ps : list Z -> Prop) : Prop :=
  exists q t', ps q /\ Forall (fun i => 0 <= i < 512) q /\ (length q <= d)%nat /\
    node m t q = Some t' /\ gone t' y = true.
Definition pages_in (m : gmap Z Z) (d : nat) (t y : Z) (ps : list Z -> Prop) : Prop :=
  exists q i e, ps q /\ Forall (fun i => 0 <= i < 512) q /\ length q = d /\ 0 <= i < 512 /\
    leaf m t q i = Some e /\ gone (addr e) y = true.

Lemma node_cons m t i q :
  node m t (i :: q) =
  if has (entry m t i) PTE_PRESENT then node m (addr (entry m t i)) q else None.
Proof. simpl. unfold child. by destruct (has (entry m t i) PTE_PRESENT). Qed.

Lemma leaf_cons m t i q k :
  leaf m t (i :: q) k =
  if has (entry m t i) PTE_PRESENT then leaf m (addr (entry m t i)) q k else None.
Proof. unfold leaf. rewrite node_cons. by destruct (has (entry m t i) PTE_PRESENT). Qed.

(** One entry: the paths that start with it. *)
Lemma entry_reach m ff d t i y :
  0 <= i < 512 ->
  (forall t', below m ff d t' y = true <->
     tables_in m d t' y (fun q => q <> []) \/ (ff = true /\ pages_in m d t' y (fun _ => True))) ->
  has (entry m t i) PTE_PRESENT &&
    (below m ff d (addr (entry m t i)) y || gone (addr (entry m t i)) y) = true <->
  tables_in m (S d) t y (fun q => head q = Some i) \/
  (ff = true /\ pages_in m (S d) t y (fun q => head q = Some i)).
Proof.
  intros Hi IH. rewrite andb_true_iff, orb_true_iff, IH. split.
  - intros (He & [[(q & t' & _ & Hf & Hl & Hn & Hg)|(Hff & q & j & e & _ & Hf & Hl & Hj & Hlf & Hg)]|Hg]).
    + left. exists (i :: q), t'. rewrite node_cons, He. split_and!; try done; [by constructor|simpl; lia].
    + right. split; [done|]. exists (i :: q), j, e. rewrite leaf_cons, He.
      split_and!; try done; try lia; [by constructor|simpl; lia].
    + left. exists [i], (addr (entry m t i)). rewrite node_cons, He.
      split_and!; try done; [by apply Forall_singleton|simpl; lia].
  - intros [(q & t' & Hq & Hf & Hl & Hn & Hg)|(Hff & q & j & e & Hq & Hf & Hl & Hj & Hlf & Hg)];
      (destruct q as [|i' q]; [done|]; injection Hq as ->).
    + rewrite node_cons in Hn. destruct (has (entry m t i) PTE_PRESENT); [|done]. split; [done|].
      destruct q as [|k q]; [right; by injection Hn as ->|]. left. left. exists (k :: q), t'.
      apply Forall_cons in Hf as [_ Hf]. split_and!; try done. simpl in *. lia.
    + rewrite leaf_cons in Hlf. destruct (has (entry m t i) PTE_PRESENT); [|done]. split; [done|].
      left. right. split; [done|]. exists q, j, e. apply Forall_cons in Hf as [_ Hf].
      split_and!; try done; try lia. simpl in Hl. lia.
Qed.

(** What lies below a table, as paths. *)
Lemma below_iff m ff d t y :
  below m ff d t y = true <->
  tables_in m d t y (fun q => q <> []) \/ (ff = true /\ pages_in m d t y (fun _ => True)).
Proof.
  revert t. induction d as [|d IH]; intros t; cbn [below].
  - rewrite andb_true_iff, existsb_exists. split.
    + intros (Hff & i & Hi & He). apply list_elem_of_In, elem_of_seqZ in Hi.
      apply andb_true_iff in He as [He Hg]. right. split; [done|].
      exists [], i, (entry m t i). split_and!; try done; try lia. unfold leaf. simpl. by rewrite He.
    + intros [([|i q] & t' & Hq & _ & Hl & _)|(Hff & q & i & e & _ & _ & Hl & Hi & Hlf & Hg)];
        [done|simpl in Hl; lia|].
      apply nil_length_inv in Hl as ->. unfold leaf in Hlf. simpl in Hlf.
      destruct (has (entry m t i) PTE_PRESENT) eqn:He; [|done]. injection Hlf as <-.
      split; [done|]. exists i. split; [apply list_elem_of_In, elem_of_seqZ; lia|]. by rewrite He.
  - rewrite existsb_exists. split.
    + intros (i & Hi & He). apply list_elem_of_In, elem_of_seqZ in Hi.
      apply (entry_reach m ff d t i y ltac:(lia) IH) in He
        as [(q & t' & Hq & Hr)|(Hff & q & j & e & Hq & Hr)].
      * left. exists q, t'. split; [by intros ->|done].
      * right. split; [done|]. by exists q, j, e.
    + intros Hor. assert (exists i, 0 <= i < 512 /\
        (tables_in m (S d) t y (fun q => head q = Some i) \/
         (ff = true /\ pages_in m (S d) t y (fun q => head q = Some i)))) as (i & Hi & He).
      { destruct Hor as [([|i q] & t' & Hq & Hf & Hr)|(Hff & [|i q] & j & e & _ & Hf & Hl & Hr)]; try done;
          exists i; pose proof (Forall_inv Hf) as Hi; (split; [exact Hi|]).
        - left. by exists (i :: q), t'.
        - right. split; [done|]. by exists (i :: q), j, e. }
      exists i. split; [apply list_elem_of_In, elem_of_seqZ; lia|]. by apply (entry_reach m ff d).
Qed.

(** The user half: paths through the first 256 top-level slots. *)
Definition user_path (p : list Z) : Prop :=
  match p with [] => True | i :: _ => i < 256 end.

(** The frames an address space owns: its top-level table and the tables of
    its user half, and the mapped pages of the user half when [ff]. *)
Definition reclaimed (m : gmap Z Z) (ff : bool) (root y : Z) : Prop :=
  (exists p t, valid p /\ user_path p /\ node m root p = Some t /\ gone t y = true) \/
  (ff = true /\ exists p i e, valid p /\ length p = 3%nat /\ user_path p /\ 0 <= i < 512 /\
     leaf m root p i = Some e /\ gone (addr e) y = true).

Lemma destroyed_reclaimed m ff root y :
  existsb (fun i => has (entry m root i) PTE_PRESENT &&
    (below m ff 2 (addr (entry m root i)) y || gone (addr (entry m root i)) y)) (seqZ 0 256) ||
    gone root y = true <-> reclaimed m ff root y.
Proof.
  rewrite orb_true_iff, existsb_exists. split.
  - intros [(i & Hi & He)|Hg].
    + apply list_elem_of_In, elem_of_seqZ in Hi.
      apply (entry_reach m ff 2 root i y ltac:(lia) (fun t' => below_iff m ff 2 t' y)) in He
        as [(q & t' & Hq & Hf & Hl & Hr)|(Hff & q & j & e & Hq & Hf & Hl & Hr)];
        (destruct q as [|i' q]; [done|]; injection Hq as ->).
      * left. exists (i :: q), t'. split_and!; try apply Hr; [done|simpl; lia].
      * right. split; [done|]. exists (i :: q), j, e. split_and!; try apply Hr; try done; [split; [done|lia]|simpl; lia].
    + left. exists [], root. split_and!; try done. apply valid_nil.
  - intros Hor.
    assert (gone root y = true \/ exists i, 0 <= i < 256 /\
        (tables_in m 3 root y (fun q => head q = Some i) \/
         (ff = true /\ pages_in m 3 root y (fun q => head q = Some i)))) as [?|(i & Hi & He)]; [|by right|].
    { destruct Hor as [([|i q] & t' & Hv & Hu & Hn & Hg)|(Hff & [|i q] & j & e & Hv & Hl & Hu & Hr)];
        try done; [injection Hn as ->; by left|..]; right; exists i; pose proof (Forall_inv (proj1 Hv)) as Hi;
        cbv beta in Hi; simpl in Hu; (split; [lia|]).
      - left. exists (i :: q), t'. destruct Hv. by split_and!.
      - right. split; [done|]. exists (i :: q), j, e. destruct Hv, Hr as (? & ? & ?).
        split_and!; done || lia. }
    left. exists i. split; [apply list_elem_of_In, elem_of_seqZ; lia|].
    by apply (entry_reach m ff 2 root i y ltac:(lia) (fun t' => below_iff m ff 2 t' y)).
Qed.

(** C6: [vmm_destroy_user_pml4] gives back exactly what the address space
    owns: it returns, memory and the kernel's globals are untouched, and a
    frame is free afterwards exactly when it was free before or it is the
    top-level table, a table of the user half or, with [free_frames], a page
    mapped in the user half. *)
Theorem vmm_destroy_user_pml4_correct {F : Type} `{FrameAllocatorOk F} (s : vmm F) cr3 ff :
  vmm_ok s cr3 -> kernel_pml4 s <> NULL ->
  (ff = true -> forall p i e, valid p -> length p = 3%nat -> 0 <= i < 512 ->
     leaf (mem s) cr3 p i = Some e -> addr e / PAGE_SIZE < fa_frames (v_alloc s)) ->
  exists s', vmm_destroy_user_pml4 cr3 ff s = Ok (tt, s') /\ mem s' = mem s /\
    fa_ok (v_alloc s') /\ head (tlb_log s') = Some SyncTlb /\
    (forall y, fa_used (v_alloc s') y = false <->
       fa_used (v_alloc s) y = false \/ reclaimed (mem s) ff cr3 y).
Proof.
  intros [Ha Hf Ht] Hk Hleaf. set (m := mem s). set (n := fa_frames (v_alloc s)).
  assert (here m n s) as Hh by done.
  assert (forall p t, valid p -> node m cr3 p = Some t -> 0 <= t < 2 ^ 40 /\ t / PAGE_SIZE < n) as Hpt.
  { intros p t Hp Hn. destruct (pt_frames _ _ _ Ht p t Hp Hn) as (_ & Hr & Hu).
    unfold owned in Hu. apply andb_true_iff in Hu as [Hu%Z.ltb_lt _]. split; [lia|done]. }
  destruct (Hpt [] cr3 valid_nil eq_refl) as [Hc1 Hc2].
  assert (frees (mapM_ (free_pml4_entry ff (phys_to_virt cr3)) (seqZ 0 256) ;;; pmm_call (fa_free cr3))
    (fun y => existsb (fun i => has (entry m cr3 i) PTE_PRESENT &&
       (below m ff 2 (addr (entry m cr3 i)) y || gone (addr (entry m cr3 i)) y)) (seqZ 0 256) ||
       gone cr3 y) s) as (f & E & Hok & _ & _ & Hu).
  { apply (frees_seq m n); [done| |].
    - apply (frees_mapM m n); [done|]. intros i s' Hi%elem_of_seqZ Hh'.
      apply (frees_pml4_entry m n ff cr3 Hpt (pt_inner _ _ _ Ht) Hleaf); [lia|done].
    - intros s' Hh'. apply (frees_free m n); [done|]. split; [|done]. apply Z.div_pos; [lia|done]. }
  exists (log_tlb SyncTlb (set_alloc f s)). split.
  { unfold vmm_destroy_user_pml4. rewrite <-bind_bind. by rewrite (bind_ok _ _ _ _ _ E). }
  split_and!; try done. intros y. simpl. rewrite Hu, andb_false_iff, negb_false_iff.
  pose proof (destroyed_reclaimed m ff cr3 y) as Hd. tauto.
Qed.
