(* ===== verification/System.v ===== *)
(** * The memory subsystem assembled

    The virtual memory manager of [Vmm] over the physical memory manager of
    [Pmm], at a concrete machine: the instances at which the theorems proved
    against the frame-allocator interface apply. *)

From S2P Require Import Prelude Lock Boot Frames Pmm Vmm VmmSpace.

(** A machine with 64 frames, of which the first three are taken, one CPU
    with its locks enabled, and an empty kernel address space in frame 1. *)
Definition machine : vmm pmm :=
  mkVmm (mkPmm (mkHart 0x200 (Some 0) true) spinlock_init 0xFFFF800000100000
           [0x07; 0; 0; 0; 0; 0; 0; 0] 8 ∅)
    spinlock_init (phys_to_virt 0x1000) 0x1000 ∅ [].

Lemma machine_ok : vmm_ok machine 0x1000.
Proof.
  split; [by_decide|by_decide|]. apply pt_ok_fresh; [|done].
  split_and!; by_decide || done.
Qed.

(** Nine frames can be had, more than two pages need for tables. *)
Lemma machine_supplies : allocs 9 (v_alloc (enter vmm_lock machine)).
Proof. do 9 (eapply allocs_step; [vm_compute; reflexivity|done|]). exact I. Qed.

Lemma vmm_map_correct_witness :
  exists s', returns (vmm_map (tbl machine 0x1000) 0x400000 0x5000 7) machine 0x1000 tt s' /\ walk (mem s') 0x1000 0x400123 = Some (leaf_entry 0x5000 7).
Proof.
  destruct (vmm_map_correct machine 0x1000 0x400000 0x5000 7 machine_ok eq_refl) as [Hmap _].
  destruct Hmap as (s' & Hr & Hw & _); [apply (allocs_le 9); [exact machine_supplies|by_decide]|]. exists s'. split; [done|]. by rewrite Hw, decide_True.
Defined.

Lemma vmm_unmap_correct_witness :
  exists s', returns (vmm_unmap (tbl machine 0x1000) 0x400000) machine 0x1000 tt s' /\
    walk (mem s') 0x1000 0x400123 = None.
Proof.
  destruct (vmm_unmap_correct machine 0x1000 0x400000 machine_ok eq_refl) as (s' & Hr & Hw & _).
  exists s'. split; [done|]. by rewrite Hw, decide_True.
Defined.

Lemma vmm_translation_is_walk_witness :
  vmm_virtual_to_physical (tbl machine 0x1000) 0x400123 machine = Ok (0, machine).
Proof. apply (vmm_translation_is_walk machine 0x1000 0x400123 machine_ok). Defined.

Lemma vmm_map_range_correct_witness :
  exists s', returns (vmm_map_range (tbl machine 0x1000) 0x400000 0x5000 0x3000 7) machine 0x1000 tt s'.
Proof.
  destruct (vmm_map_range_correct machine 0x1000 0x400000 0x5000 0x3000 7 machine_ok eq_refl)
    as [(s' & Hr & _)|[Hno _]]; [done|by exists s'|].
  destruct Hno. apply (allocs_le 9); [exact machine_supplies|by_decide].
Defined.

Lemma vmm_unmap_range_correct_witness :
  exists s', returns (vmm_unmap_range (tbl machine 0x1000) 0x400000 0x3000) machine 0x1000 tt s' /\
    walk (mem s') 0x1000 0x402FFF = None.
Proof.
  destruct (vmm_unmap_range_correct machine 0x1000 0x400000 0x3000 machine_ok eq_refl)
    as (s' & Hr & _ & _ & Hw); [done|]. exists s'. split; [done|]. by rewrite Hw, decide_True.
Defined.

Lemma vmm_create_user_pml4_correct_witness :
  exists r s', vmm_create_user_pml4 machine = Ok (r, s') /\ vmm_ok s' 0x1000.
Proof.
  destruct (vmm_create_user_pml4_correct machine 0x1000 machine_ok eq_refl) as (r & s' & E & Hok & _).
  exists r, s'. split; [exact E|exact Hok].
Defined.

Lemma vmm_destroy_user_pml4_correct_witness :
  exists s', vmm_destroy_user_pml4 0x1000 false machine = Ok (tt, s') /\
    fa_used (v_alloc s') 1 = false.
Proof.
  destruct (vmm_destroy_user_pml4_correct machine 0x1000 false machine_ok) as (s' & E & _ & _ & _ & Hu);
    [done|done|].
  exists s'. split; [exact E|]. apply Hu. right. left. exists [], 0x1000.
  split; [apply valid_nil|]. by split_and!.
Defined.
