(* ===== verification/Chain.v ===== *)
(** * Linked chains

    The kernel's queues and lists are intrusive, singly linked and ended by a
    null pointer. [chain nx h l e] says that following the next-pointers [nx]
    from [h] visits exactly the nodes of [l] and then arrives at [e]; the
    lemmas are the ones every list component shares. *)

From S2P Require Import Prelude.

Fixpoint chain (nx : Z -> option Z) (h : Z) (l : list Z) (e : Z) : Prop :=
  match l with
  | [] => h = e
  | x :: l => h = x /\ x <> NULL /\ exists n, nx x = Some n /\ chain nx n l e
  end.

Section chain.
Implicit Types nx : Z -> option Z.

Lemma chain_app nx h l1 l2 e :
  chain nx h (l1 ++ l2) e <-> exists m, chain nx h l1 m /\ chain nx m l2 e.
Proof.
  revert h. induction l1 as [|x l1 IH]; intros h; simpl.
  - split; [by exists h|]. by intros (m & -> & ?).
  - split.
    + intros (-> & Hx & n & Hn & Hc). apply IH in Hc as (m & ? & ?). exists m. split; [|done].
      split_and!; [done|done|by exists n].
    + intros (m & (-> & Hx & n & Hn & Hc) & Hc2). split_and!; [done|done|].
      exists n. split; [done|]. apply IH. by exists m.
Qed.

Lemma chain_frame nx nx' h l e :
  (forall x, x ∈ l -> nx' x = nx x) -> chain nx h l e -> chain nx' h l e.
Proof.
  revert h. induction l as [|x l IH]; intros h Hf; simpl; [done|].
  intros (-> & Hx & n & Hn & Hc). split_and!; [done|done|]. exists n. split.
  - by rewrite Hf by (by left).
  - apply IH; [|done]. intros y Hy. apply Hf. by right.
Qed.

Lemma chain_head nx h l : chain nx h l NULL -> h = default NULL (head l).
Proof. destruct l; simpl; [done|]. by intros [-> _]. Qed.

Lemma chain_nil nx l : chain nx NULL l NULL -> l = [].
Proof. destruct l; [done|]. by intros (<- & ? & _). Qed.

Lemma chain_cons nx h l :
  h <> NULL -> chain nx h l NULL ->
  exists n l', l = h :: l' /\ nx h = Some n /\ chain nx n l' NULL.
Proof.
  intros Hh. destruct l as [|x l]; simpl; [done|]. intros (-> & _ & n & ? & ?). by exists n, l.
Qed.

Lemma chain_elem nx h l e x : chain nx h l e -> x ∈ l -> x <> NULL /\ is_Some (nx x).
Proof.
  revert h. induction l as [|y l IH]; intros h; simpl; [by intros _ ?%not_elem_of_nil|].
  intros (-> & Hy & n & Hn & Hc) [->|Hx]%elem_of_cons; [by rewrite Hn|by eapply IH].
Qed.

Lemma chain_det nx h l l' : chain nx h l NULL -> chain nx h l' NULL -> l = l'.
Proof.
  revert h l'. induction l as [|x l IH]; intros h [|x' l']; simpl; [done|..].
  - by intros -> (<- & ? & _).
  - by intros (-> & ? & _) E.
  - intros (-> & _ & n & Hn & Hc) (<- & _ & n' & Hn' & Hc'). f_equal.
    rewrite Hn in Hn'. injection Hn' as <-. by eapply IH.
Qed.

(** A chain that ends visits no node twice. *)
Lemma chain_NoDup nx h l : chain nx h l NULL -> NoDup l.
Proof.
  revert h. induction l as [|x l IH]; intros h; simpl; [constructor|].
  intros (-> & Hx & n & Hn & Hc). constructor; [|by eapply IH].
  intros Hin. apply list_elem_of_split in Hin as (l1 & l2 & ->).
  pose proof Hc as Hc'. apply chain_app in Hc' as (m & _ & Hc2). simpl in Hc2.
  destruct Hc2 as (-> & _ & n' & Hn' & Hc2). rewrite Hn in Hn'. injection Hn' as <-.
  pose proof (chain_det nx n _ _ Hc Hc2) as E. apply (f_equal length) in E.
  rewrite length_app in E. simpl in E. lia.
Qed.

(** Redirecting a node outside the chain leaves it; redirecting the last node
    moves its end. *)
Definition redirect (nx : Z -> option Z) (x n : Z) : Z -> option Z :=
  fun y => if decide (y = x) then Some n else nx y.

Lemma chain_redirect_out nx h l e x n : x ∉ l -> chain nx h l e -> chain (redirect nx x n) h l e.
Proof.
  intros Hx. apply chain_frame. intros y Hy. unfold redirect. rewrite decide_False; [done|]. by intros ->.
Qed.

Lemma chain_redirect_last nx h l x e n :
  x ∉ l -> chain nx h (l ++ [x]) e -> chain (redirect nx x n) h (l ++ [x]) n.
Proof.
  intros Hx Hc. apply chain_app in Hc as (m & Hc1 & Hc2). apply chain_app. exists m. split.
  - by apply chain_redirect_out.
  - simpl in *. destruct Hc2 as (-> & Hn & n' & _ & _). split_and!; [done|done|]. exists n.
    split; [|done]. unfold redirect. by rewrite decide_True.
Qed.
End chain.
