(* ===== verification/Sched.v ===== *)
(** * Scheduler

    Models [kernel/sched/sched.c] with [kernel/include/sched/sched.h],
    [sched_utils.h], the scheduler half of [cpu_context_t] in
    [kernel/include/cpu/cpu.h], the timer interrupt of
    [kernel/arch/x86_64/idt.c] and [msleep] of [kernel/arch/x86_64/timer.c].

    - [task] and [cpu_context] are the C structures; both live in stores keyed
      by address, and every pointer is dereferenced through the store, so a
      null or stale pointer is a [Fault].
    - [sched] is the state one CPU sees: its own context is [this_cpu]
      ([get_cpu()]), the other CPUs' contexts are reached by [cpu_table].
    - The [while] loops that chase pointers run on fuel, one more than the
      number of tasks; a cyclic list exhausts it and is a [Hang]. *)

From S2P Require Import Prelude Lock Chain.

(** ** Data *)

(** [task_prio_t] *)
Definition PRIO_HIGH : Z := 0.
Definition PRIO_NORMAL : Z := 1.
Definition PRIO_LOW : Z := 2.
Definition PRIO_IDLE : Z := 3.
Definition PRIORITY_LEVELS : Z := 4.
Definition PRIORITY_BOOST : Z := 100.

Inductive task_state :=
| TASK_READY | TASK_RUNNING | TASK_SLEEPING | TASK_ZOMBIE | TASK_FINISHED | TASK_BLOCKED.
Inductive task_reason := REASON_KEYBOARD | REASON_MUTEX.

#[global] Instance task_state_eq_dec : EqDecision task_state.
Proof. solve_decision. Defined.
#[global] Instance task_reason_eq_dec : EqDecision task_reason.
Proof. solve_decision. Defined.

(** [task_t], without its [vma_mutex] *)
Record task := mkTask {
  tid : Z;
  rsp : Z;
  stack_base : Z;
  stack_size : Z;
  state : task_state;
  wait_reason : task_reason;
  is_user : bool;
  cr3 : Z;
  vma_tree_root : Z;
  vma_list_head : Z;
  vma_count : Z;
  heap_start : Z;
  heap_curr : Z;
  heap_end : Z;
  next : Z;
  prev : Z;
  sched_next : Z;
  priority : Z;
  base_priority : Z;
  task_cpu : Z;
  sleep_until : Z;
}.

Definition set_rsp (v : Z) (r : task) : task :=
  mkTask (tid r) v (stack_base r) (stack_size r) (state r) (wait_reason r) (is_user r) (cr3 r)
    (vma_tree_root r) (vma_list_head r) (vma_count r) (heap_start r) (heap_curr r) (heap_end r)
    (next r) (prev r) (sched_next r) (priority r) (base_priority r) (task_cpu r) (sleep_until r).
Definition set_state (v : task_state) (r : task) : task :=
  mkTask (tid r) (rsp r) (stack_base r) (stack_size r) v (wait_reason r) (is_user r) (cr3 r)
    (vma_tree_root r) (vma_list_head r) (vma_count r) (heap_start r) (heap_curr r) (heap_end r)
    (next r) (prev r) (sched_next r) (priority r) (base_priority r) (task_cpu r) (sleep_until r).
Definition set_wait_reason (v : task_reason) (r : task) : task :=
  mkTask (tid r) (rsp r) (stack_base r) (stack_size r) (state r) v (is_user r) (cr3 r)
    (vma_tree_root r) (vma_list_head r) (vma_count r) (heap_start r) (heap_curr r) (heap_end r)
    (next r) (prev r) (sched_next r) (priority r) (base_priority r) (task_cpu r) (sleep_until r).
Definition set_sched_next (v : Z) (r : task) : task :=
  mkTask (tid r) (rsp r) (stack_base r) (stack_size r) (state r) (wait_reason r) (is_user r)
    (cr3 r) (vma_tree_root r) (vma_list_head r) (vma_count r) (heap_start r) (heap_curr r)
    (heap_end r) (next r) (prev r) v (priority r) (base_priority r) (task_cpu r) (sleep_until r).
Definition set_priority (v : Z) (r : task) : task :=
  mkTask (tid r) (rsp r) (stack_base r) (stack_size r) (state r) (wait_reason r) (is_user r)
    (cr3 r) (vma_tree_root r) (vma_list_head r) (vma_count r) (heap_start r) (heap_curr r)
    (heap_end r) (next r) (prev r) (sched_next r) v (base_priority r) (task_cpu r) (sleep_until r).
Definition set_task_cpu (v : Z) (r : task) : task :=
  mkTask (tid r) (rsp r) (stack_base r) (stack_size r) (state r) (wait_reason r) (is_user r)
    (cr3 r) (vma_tree_root r) (vma_list_head r) (vma_count r) (heap_start r) (heap_curr r)
    (heap_end r) (next r) (prev r) (sched_next r) (priority r) (base_priority r) v (sleep_until r).
Definition set_sleep_until (v : Z) (r : task) : task :=
  mkTask (tid r) (rsp r) (stack_base r) (stack_size r) (state r) (wait_reason r) (is_user r)
    (cr3 r) (vma_tree_root r) (vma_list_head r) (vma_count r) (heap_start r) (heap_curr r)
    (heap_end r) (next r) (prev r) (sched_next r) (priority r) (base_priority r) (task_cpu r) v.

(** The scheduler's part of [cpu_context_t]; the four-entry arrays are maps
    from the priority. *)
Record cpu_context := mkCpu {
  ctx_id : Z;
  kernel_stack : Z;
  tss_rsp0 : Z;
  current_task : Z;
  idle_task : Z;
  rq_lock : spinlock;
  rq_head : gmap Z Z;
  rq_tail : gmap Z Z;
  rq_count : gmap Z Z;
  current_quanta : gmap Z Z;
  next_priority_boost : Z;
  sleep_lock : spinlock;
  sleeping_list : Z;
}.

Definition set_kernel_stack (v : Z) (r : cpu_context) : cpu_context :=
  mkCpu (ctx_id r) v (tss_rsp0 r) (current_task r) (idle_task r) (rq_lock r) (rq_head r)
    (rq_tail r) (rq_count r) (current_quanta r) (next_priority_boost r) (sleep_lock r)
    (sleeping_list r).
Definition set_tss_rsp0 (v : Z) (r : cpu_context) : cpu_context :=
  mkCpu (ctx_id r) (kernel_stack r) v (current_task r) (idle_task r) (rq_lock r) (rq_head r)
    (rq_tail r) (rq_count r) (current_quanta r) (next_priority_boost r) (sleep_lock r)
    (sleeping_list r).
Definition set_current_task (v : Z) (r : cpu_context) : cpu_context :=
  mkCpu (ctx_id r) (kernel_stack r) (tss_rsp0 r) v (idle_task r) (rq_lock r) (rq_head r)
    (rq_tail r) (rq_count r) (current_quanta r) (next_priority_boost r) (sleep_lock r)
    (sleeping_list r).
Definition set_rq_lock (v : spinlock) (r : cpu_context) : cpu_context :=
  mkCpu (ctx_id r) (kernel_stack r) (tss_rsp0 r) (current_task r) (idle_task r) v (rq_head r)
    (rq_tail r) (rq_count r) (current_quanta r) (next_priority_boost r) (sleep_lock r)
    (sleeping_list r).
Definition set_rq_head (v : gmap Z Z) (r : cpu_context) : cpu_context :=
  mkCpu (ctx_id r) (kernel_stack r) (tss_rsp0 r) (current_task r) (idle_task r) (rq_lock r) v
    (rq_tail r) (rq_count r) (current_quanta r) (next_priority_boost r) (sleep_lock r)
    (sleeping_list r).
Definition set_rq_tail (v : gmap Z Z) (r : cpu_context) : cpu_context :=
  mkCpu (ctx_id r) (kernel_stack r) (tss_rsp0 r) (current_task r) (idle_task r) (rq_lock r)
    (rq_head r) v (rq_count r) (current_quanta r) (next_priority_boost r) (sleep_lock r)
    (sleeping_list r).
Definition set_rq_count (v : gmap Z Z) (r : cpu_context) : cpu_context :=
  mkCpu (ctx_id r) (kernel_stack r) (tss_rsp0 r) (current_task r) (idle_task r) (rq_lock r)
    (rq_head r) (rq_tail r) v (current_quanta r) (next_priority_boost r) (sleep_lock r)
    (sleeping_list r).
Definition set_current_quanta (v : gmap Z Z) (r : cpu_context) : cpu_context :=
  mkCpu (ctx_id r) (kernel_stack r) (tss_rsp0 r) (current_task r) (idle_task r) (rq_lock r)
    (rq_head r) (rq_tail r) (rq_count r) v (next_priority_boost r) (sleep_lock r)
    (sleeping_list r).
Definition set_next_priority_boost (v : Z) (r : cpu_context) : cpu_context :=
  mkCpu (ctx_id r) (kernel_stack r) (tss_rsp0 r) (current_task r) (idle_task r) (rq_lock r)
    (rq_head r) (rq_tail r) (rq_count r) (current_quanta r) v (sleep_lock r) (sleeping_list r).
Definition set_sleep_lock (v : spinlock) (r : cpu_context) : cpu_context :=
  mkCpu (ctx_id r) (kernel_stack r) (tss_rsp0 r) (current_task r) (idle_task r) (rq_lock r)
    (rq_head r) (rq_tail r) (rq_count r) (current_quanta r) (next_priority_boost r) v
    (sleeping_list r).
Definition set_sleeping_list (v : Z) (r : cpu_context) : cpu_context :=
  mkCpu (ctx_id r) (kernel_stack r) (tss_rsp0 r) (current_task r) (idle_task r) (rq_lock r)
    (rq_head r) (rq_tail r) (rq_count r) (current_quanta r) (next_priority_boost r) (sleep_lock r)
    v.

Record sched := mkSched {
  s_hart : hart;
  tasks : gmap Z task;
  cpus : gmap Z cpu_context;
  cpu_table : gmap Z Z;
  this_cpu : Z;
  uptime_ms : Z;
  cr3_reg : Z;
  dead_task_list : Z;
  blocked_task_list : Z;
  dead_lock_ : spinlock;
  blocked_lock_ : spinlock;
}.

Definition set_tasks (v : gmap Z task) (r : sched) : sched :=
  mkSched (s_hart r) v (cpus r) (cpu_table r) (this_cpu r) (uptime_ms r) (cr3_reg r)
    (dead_task_list r) (blocked_task_list r) (dead_lock_ r) (blocked_lock_ r).
Definition set_cpus (v : gmap Z cpu_context) (r : sched) : sched :=
  mkSched (s_hart r) (tasks r) v (cpu_table r) (this_cpu r) (uptime_ms r) (cr3_reg r)
    (dead_task_list r) (blocked_task_list r) (dead_lock_ r) (blocked_lock_ r).
Definition set_uptime_ms (v : Z) (r : sched) : sched :=
  mkSched (s_hart r) (tasks r) (cpus r) (cpu_table r) (this_cpu r) v (cr3_reg r)
    (dead_task_list r) (blocked_task_list r) (dead_lock_ r) (blocked_lock_ r).
Definition set_cr3_reg (v : Z) (r : sched) : sched :=
  mkSched (s_hart r) (tasks r) (cpus r) (cpu_table r) (this_cpu r) (uptime_ms r) v
    (dead_task_list r) (blocked_task_list r) (dead_lock_ r) (blocked_lock_ r).
Definition set_dead_task_list (v : Z) (r : sched) : sched :=
  mkSched (s_hart r) (tasks r) (cpus r) (cpu_table r) (this_cpu r) (uptime_ms r) (cr3_reg r) v
    (blocked_task_list r) (dead_lock_ r) (blocked_lock_ r).
Definition set_blocked_task_list (v : Z) (r : sched) : sched :=
  mkSched (s_hart r) (tasks r) (cpus r) (cpu_table r) (this_cpu r) (uptime_ms r) (cr3_reg r)
    (dead_task_list r) v (dead_lock_ r) (blocked_lock_ r).

#[export] Instance sched_hart : HasHart sched := Lens s_hart
  (fun h s => mkSched h (tasks s) (cpus s) (cpu_table s) (this_cpu s) (uptime_ms s) (cr3_reg s)
                (dead_task_list s) (blocked_task_list s) (dead_lock_ s) (blocked_lock_ s)).
#[export] Instance sched_hart_ok : HasHartOk sched.
Proof. split; by intros; try destruct s. Qed.

Definition dead_lock : lens sched spinlock := Lens dead_lock_
  (fun l s => mkSched (s_hart s) (tasks s) (cpus s) (cpu_table s) (this_cpu s) (uptime_ms s) (cr3_reg s)
                (dead_task_list s) (blocked_task_list s) l (blocked_lock_ s)).
Definition blocked_lock : lens sched spinlock := Lens blocked_lock_
  (fun l s => mkSched (s_hart s) (tasks s) (cpus s) (cpu_table s) (this_cpu s) (uptime_ms s) (cr3_reg s)
                (dead_task_list s) (blocked_task_list s) (dead_lock_ s) l).
#[export] Instance dead_lock_ok : LensOk dead_lock.
Proof. split; by intros; try destruct s. Qed.
#[export] Instance dead_lock_indep : LensIndep dead_lock hart_of.
Proof. by split. Qed.
#[export] Instance blocked_lock_ok : LensOk blocked_lock.
Proof. split; by intros; try destruct s. Qed.
#[export] Instance blocked_lock_indep : LensIndep blocked_lock hart_of.
Proof. by split. Qed.

#[global] Instance task_eq_dec : EqDecision task.
Proof. solve_decision. Defined.
#[global] Instance spinlock_eq_dec : EqDecision spinlock.
Proof. solve_decision. Defined.
#[global] Instance cpu_context_eq_dec : EqDecision cpu_context.
Proof. solve_decision. Defined.

(** ** Access *)

Definition get_task (p : Z) : M sched task :=
  ts <- gets tasks ;; deref (ts !! p).
Definition upd_task (p : Z) (f : task -> task) : M sched unit :=
  t <- get_task p ;;
  modify (fun s => set_tasks (<[p := f t]> (tasks s)) s).

Definition get_ctx (c : Z) : M sched cpu_context :=
  cs <- gets cpus ;; deref (cs !! c).
Definition upd_ctx (c : Z) (f : cpu_context -> cpu_context) : M sched unit :=
  x <- get_ctx c ;;
  modify (fun s => set_cpus (<[c := f x]> (cpus s)) s).

Definition get_cpu : M sched Z := gets this_cpu.
Definition get_uptime_ms : M sched Z := gets uptime_ms.

(** [cpu_table[id]], null above the table's 32 entries *)
Definition get_cpu_by_id (id : Z) : M sched Z :=
  if 32 <=? id then ret NULL else
  tab <- gets cpu_table ;; ret (rd tab id).

(** [&cpu->rq_lock] and [&cpu->sleep_lock] *)
Definition ctx_lock (get : cpu_context -> spinlock) (set : spinlock -> cpu_context -> cpu_context)
  (c : Z) : lens sched spinlock := Lens
  (fun s => match cpus s !! c with Some x => get x | None => spinlock_init end)
  (fun l s => set_cpus (alter (set l) c (cpus s)) s).
Definition rq_lock_at : Z -> lens sched spinlock := ctx_lock rq_lock set_rq_lock.
Definition sleep_lock_at : Z -> lens sched spinlock := ctx_lock sleep_lock set_sleep_lock.

Definition sched_get_current : M sched Z :=
  c <- get_cpu ;; x <- get_ctx c ;; ret (current_task x).

(** [(uint64_t)-1] *)
Definition NO_CPU : Z := 2 ^ 64 - 1.

Definition priority_quanta (p : Z) : Z :=
  if p =? 0 then 10 else if p =? 1 then 5 else if p =? 2 then 2 else 1.

(** ** Runqueues *)

Definition enqueue_task (cpu task : Z) : M sched unit :=
  _ <- get_ctx cpu ;;
  spin_lock (rq_lock_at cpu) ;;;
  upd_task task (fun t => set_priority (base_priority t) t) ;;;
  t <- get_task task ;;
  let p := if PRIORITY_LEVELS <=? priority t then PRIO_NORMAL else priority t in
  upd_ctx cpu (fun x => set_current_quanta (<[p := 0]> (current_quanta x)) x) ;;;
  upd_task task (set_sched_next NULL) ;;;
  x <- get_ctx cpu ;;
  (if negb (rd (rq_tail x) p =? NULL) then
     upd_task (rd (rq_tail x) p) (set_sched_next task)
   else
     upd_ctx cpu (fun x => set_rq_head (<[p := task]> (rq_head x)) x)) ;;;
  upd_ctx cpu (fun x => set_rq_tail (<[p := task]> (rq_tail x)) x) ;;;
  upd_ctx cpu (fun x => set_rq_count (<[p := w32 (rd (rq_count x) p + 1)]> (rq_count x)) x) ;;;
  t <- get_task task ;;
  x <- get_ctx cpu ;;
  when (task_cpu t =? NO_CPU) (upd_task task (set_task_cpu (ctx_id x))) ;;;
  spin_unlock (rq_lock_at cpu).

(** [work_below]: a lower level, idle excluded, has a task *)
Definition work_below (x : cpu_context) (p : Z) : bool :=
  existsb (fun low => negb (rd (rq_head x) low =? NULL)) (seqZ (p + 1) (PRIORITY_LEVELS - 1 - (p + 1))).

(** The loop of [dequeue_task] over the levels [ps] *)
Fixpoint dequeue_levels (ps : list Z) (cpu : Z) : M sched Z :=
  match ps with
  | [] => ret NULL
  | p :: ps =>
      x <- get_ctx cpu ;;
      let reset := upd_ctx cpu (fun x => set_current_quanta (<[p := 0]> (current_quanta x)) x) in
      if rd (rq_head x) p =? NULL then reset ;;; dequeue_levels ps cpu else
      let expired := priority_quanta p <=? rd (current_quanta x) p in
      if expired && work_below x p then reset ;;; dequeue_levels ps cpu else
      when expired reset ;;;
      let t := rd (rq_head x) p in
      tk <- get_task t ;;
      upd_ctx cpu (fun x => set_rq_head (<[p := sched_next tk]> (rq_head x)) x) ;;;
      when (sched_next tk =? NULL)
        (upd_ctx cpu (fun x => set_rq_tail (<[p := NULL]> (rq_tail x)) x)) ;;;
      upd_ctx cpu (fun x => set_rq_count (<[p := w32 (rd (rq_count x) p - 1)]> (rq_count x)) x) ;;;
      upd_ctx cpu (fun x => set_current_quanta
        (<[p := w32 (rd (current_quanta x) p + 1)]> (current_quanta x)) x) ;;;
      ret t
  end.

Definition dequeue_task (cpu : Z) : M sched Z :=
  _ <- get_ctx cpu ;;
  spin_lock (rq_lock_at cpu) ;;;
  t <- dequeue_levels (seqZ 0 (PRIORITY_LEVELS - 1)) cpu ;;
  spin_unlock (rq_lock_at cpu) ;;;
  ret t.

(** ** Sleeping *)

(** Fuel for a walk along a list of tasks *)
Definition list_fuel : M sched nat := gets (fun s => S (size (tasks s))).

(** The first loop of [sched_update_sleepers]: expired tasks move, one by one,
    from the sleeping list to the local [ready_queue] *)
Fixpoint collect_ready (fuel : nat) (cpu now ready_queue : Z) : M sched Z :=
  match fuel with
  | O => hang
  | S fuel =>
      x <- get_ctx cpu ;;
      let t := sleeping_list x in
      if t =? NULL then ret ready_queue else
      tk <- get_task t ;;
      if now <? sleep_until tk then ret ready_queue else
      upd_ctx cpu (set_sleeping_list (sched_next tk)) ;;;
      upd_task t (set_sched_next ready_queue) ;;;
      collect_ready fuel cpu now t
  end.

(** The second loop: the collected tasks become ready and are enqueued *)
Fixpoint enqueue_ready (fuel : nat) (cpu ready_queue : Z) : M sched unit :=
  match fuel with
  | O => hang
  | S fuel =>
      if ready_queue =? NULL then ret tt else
      let t := ready_queue in
      tk <- get_task t ;;
      upd_task t (set_state TASK_READY) ;;;
      upd_task t (set_sched_next NULL) ;;;
      enqueue_task cpu t ;;;
      enqueue_ready fuel cpu (sched_next tk)
  end.

Definition sched_update_sleepers : M sched unit :=
  cpu <- get_cpu ;;
  now <- get_uptime_ms ;;
  f <- spin_irq_save ;;
  _ <- get_ctx cpu ;;
  spin_lock (sleep_lock_at cpu) ;;;
  n <- list_fuel ;;
  ready_queue <- collect_ready n cpu now NULL ;;
  spin_unlock (sleep_lock_at cpu) ;;;
  enqueue_ready n cpu ready_queue ;;;
  spin_irq_restore f.

(** What [task_t** pp] points at *)
Inductive link := SleepHead (cpu : Z) | BlockedHead | NextOf (t : Z).

Definition read_link (pp : link) : M sched Z :=
  match pp with
  | SleepHead c => x <- get_ctx c ;; ret (sleeping_list x)
  | BlockedHead => gets blocked_task_list
  | NextOf t => tk <- get_task t ;; ret (sched_next tk)
  end.
Definition write_link (pp : link) (v : Z) : M sched unit :=
  match pp with
  | SleepHead c => upd_ctx c (set_sleeping_list v)
  | BlockedHead => modify (set_blocked_task_list v)
  | NextOf t => upd_task t (set_sched_next v)
  end.

(** [while ( *pp && ( *pp)->sleep_until < deadline) pp = &( *pp)->sched_next;] *)
Fixpoint find_slot (fuel : nat) (deadline : Z) (pp : link) : M sched link :=
  match fuel with
  | O => hang
  | S fuel =>
      t <- read_link pp ;;
      if t =? NULL then ret pp else
      tk <- get_task t ;;
      if sleep_until tk <? deadline then find_slot fuel deadline (NextOf t) else ret pp
  end.

Definition sched_make_task_sleep (ms : Z) : M sched unit :=
  current <- sched_get_current ;;
  if current =? NULL then ret tt else
  cpu <- get_cpu ;;
  now <- get_uptime_ms ;;
  upd_task current (set_state TASK_SLEEPING) ;;;
  upd_task current (set_sleep_until (w64 (now + ms))) ;;;
  critical (sleep_lock_at cpu) (
    n <- list_fuel ;;
    pp <- find_slot n (w64 (now + ms)) (SleepHead cpu) ;;
    nxt <- read_link pp ;;
    upd_task current (set_sched_next nxt) ;;;
    write_link pp current).

(** ** Blocking *)

Definition sched_block_current (reason : task_reason) : M sched unit :=
  current <- sched_get_current ;;
  if current =? NULL then ret tt else
  critical blocked_lock (
    upd_task current (set_state TASK_BLOCKED) ;;;
    upd_task current (set_wait_reason reason) ;;;
    h <- gets blocked_task_list ;;
    upd_task current (set_sched_next h) ;;;
    modify (set_blocked_task_list current)).

(** The first loop of [sched_wakeup]: matching tasks move from the blocked
    list to [tasks_to_wake] *)
Fixpoint collect_blocked (fuel : nat) (reason : task_reason) (pp : link) (tasks_to_wake : Z)
  : M sched Z :=
  match fuel with
  | O => hang
  | S fuel =>
      t <- read_link pp ;;
      if t =? NULL then ret tasks_to_wake else
      tk <- get_task t ;;
      if decide (wait_reason tk = reason) then
        write_link pp (sched_next tk) ;;;
        upd_task t (set_sched_next tasks_to_wake) ;;;
        upd_task t (set_state TASK_READY) ;;;
        collect_blocked fuel reason pp t
      else collect_blocked fuel reason (NextOf t) tasks_to_wake
  end.

(** The second loop: each collected task goes to its CPU's runqueue *)
Fixpoint enqueue_woken (fuel : nat) (tasks_to_wake : Z) : M sched unit :=
  match fuel with
  | O => hang
  | S fuel =>
      if tasks_to_wake =? NULL then ret tt else
      let t := tasks_to_wake in
      tk <- get_task t ;;
      target <- get_cpu_by_id (task_cpu tk) ;;
      here <- get_cpu ;;
      enqueue_task (if target =? NULL then here else target) t ;;;
      enqueue_woken fuel (sched_next tk)
  end.

Definition sched_wakeup (reason : task_reason) : M sched unit :=
  n <- list_fuel ;;
  tasks_to_wake <- critical blocked_lock (collect_blocked n reason BlockedHead NULL) ;;
  enqueue_woken n tasks_to_wake.

(** ** Load balancing *)

(** The [while (curr)] loop of [steal_task_from_cpu] on level [p] *)
Fixpoint steal_level (fuel : nat) (other p curr prev : Z) : M sched Z :=
  match fuel with
  | O => hang
  | S fuel =>
      if curr =? NULL then ret NULL else
      tk <- get_task curr ;;
      if 10 <=? tid tk then
        (if negb (prev =? NULL) then upd_task prev (set_sched_next (sched_next tk))
         else upd_ctx other (fun x => set_rq_head (<[p := sched_next tk]> (rq_head x)) x)) ;;;
        x <- get_ctx other ;;
        when (rd (rq_tail x) p =? curr)
          (upd_ctx other (fun x => set_rq_tail (<[p := prev]> (rq_tail x)) x)) ;;;
        upd_ctx other (fun x => set_rq_count (<[p := w32 (rd (rq_count x) p - 1)]> (rq_count x)) x) ;;;
        upd_task curr (set_sched_next NULL) ;;;
        ret curr
      else steal_level fuel other p (sched_next tk) curr
  end.

Fixpoint steal_levels (ps : list Z) (other : Z) : M sched Z :=
  match ps with
  | [] => ret NULL
  | p :: ps =>
      x <- get_ctx other ;;
      n <- list_fuel ;;
      stolen <- steal_level n other p (rd (rq_head x) p) NULL ;;
      if negb (stolen =? NULL) then ret stolen else steal_levels ps other
  end.

Definition steal_task_from_cpu (other : Z) : M sched Z :=
  _ <- get_ctx other ;;
  ok <- spin_trylock (rq_lock_at other) ;;
  if negb ok then ret NULL else
  stolen <- steal_levels (seqZ 0 (PRIORITY_LEVELS - 1)) other ;;
  spin_unlock (rq_lock_at other) ;;;
  ret stolen.

(** One step of [prio_boost]: level [p + 1] is appended to level [p] *)
Definition boost_level (cpu p : Z) : M sched unit :=
  x <- get_ctx cpu ;;
  if rd (rq_head x) (p + 1) =? NULL then ret tt else
  (if negb (rd (rq_tail x) p =? NULL) then
     upd_task (rd (rq_tail x) p) (set_sched_next (rd (rq_head x) (p + 1)))
   else
     upd_ctx cpu (fun x => set_rq_head (<[p := rd (rq_head x) (p + 1)]> (rq_head x)) x)) ;;;
  upd_ctx cpu (fun x => set_rq_tail (<[p := rd (rq_tail x) (p + 1)]> (rq_tail x)) x) ;;;
  upd_ctx cpu (fun x => set_rq_count
    (<[p := w32 (rd (rq_count x) p + rd (rq_count x) (p + 1))]> (rq_count x)) x) ;;;
  upd_ctx cpu (fun x => set_rq_head (<[p + 1 := NULL]> (rq_head x)) x) ;;;
  upd_ctx cpu (fun x => set_rq_tail (<[p + 1 := NULL]> (rq_tail x)) x) ;;;
  upd_ctx cpu (fun x => set_rq_count (<[p + 1 := 0]> (rq_count x)) x).

Definition prio_boost (cpu : Z) : M sched unit :=
  mapM_ (boost_level cpu) (seqZ PRIO_HIGH (PRIO_LOW - PRIO_HIGH)).

(** ** The scheduler *)

(** The search over the other CPUs, [ids] still to try *)
Fixpoint steal_from (ids : list Z) (cpu : Z) : M sched Z :=
  match ids with
  | [] => ret NULL
  | i :: ids =>
      other <- get_cpu_by_id i ;;
      if (other =? NULL) || (other =? cpu) then steal_from ids cpu else
      t <- steal_task_from_cpu other ;;
      if negb (t =? NULL) then ret t else steal_from ids cpu
  end.

(** The outgoing task: saved, and queued again when it is still runnable *)
Definition put_current (cpu current frame : Z) : M sched unit :=
  when (negb (current =? NULL))
    (upd_task current (set_rsp frame) ;;;
     t <- get_task current ;;
     when (bool_decide (state t = TASK_RUNNING) && negb (priority t =? PRIO_IDLE))
       (upd_task current (set_state TASK_READY) ;;; enqueue_task cpu current) ;;;
     t <- get_task current ;;
     when (10 <=? tid t) (upd_task current (set_task_cpu NO_CPU))).

(** The incoming task: the runqueue's, else one stolen from another CPU, else
    the idle task *)
Definition pick_next (cpu : Z) : M sched Z :=
  t0 <- dequeue_task cpu ;;
  t1 <- (if negb (t0 =? NULL) then ret t0 else steal_from (seqZ 0 32) cpu) ;;
  if negb (t1 =? NULL) then ret t1 else x <- get_ctx cpu ;; ret (idle_task x).

(** The switch: the task's state, the CPU's current task and its stacks, and
    the page table *)
Definition switch_to (cpu scheduled_next : Z) : M sched unit :=
  x <- get_ctx cpu ;;
  upd_task scheduled_next (set_state TASK_RUNNING) ;;;
  upd_task scheduled_next (set_task_cpu (ctx_id x)) ;;;
  upd_ctx cpu (set_current_task scheduled_next) ;;;
  t <- get_task scheduled_next ;;
  upd_ctx cpu (set_tss_rsp0 (w64 (stack_base t + stack_size t))) ;;;
  upd_ctx cpu (fun x => set_kernel_stack (tss_rsp0 x) x) ;;;
  c3 <- gets cr3_reg ;;
  when (negb (cr3 t =? 0) && negb (cr3 t =? c3)) (modify (set_cr3_reg (cr3 t))).

Definition schedule (frame : Z) : M sched Z :=
  f <- spin_irq_save ;;
  cpu <- get_cpu ;;
  x <- get_ctx cpu ;;
  let current := current_task x in
  now <- get_uptime_ms ;;
  when (next_priority_boost x <=? now)
    (prio_boost cpu ;;;
     upd_ctx cpu (set_next_priority_boost (w64 (now + PRIORITY_BOOST)))) ;;;
  put_current cpu current frame ;;;
  scheduled_next <- pick_next cpu ;;
  switch_to cpu scheduled_next ;;;
  spin_irq_restore f ;;;
  t <- get_task scheduled_next ;;
  ret (rsp t).

(** The branch of [interrupt_dispatch] for vector 32, the timer's; the end of
    interrupt is a write to the local APIC. Its result is the stack pointer
    to resume. *)
Definition timer_interrupt (frame : Z) : M sched Z :=
  c <- get_cpu ;;
  x <- get_ctx c ;;
  when (ctx_id x =? 0) (modify (fun s => set_uptime_ms (w64 (uptime_ms s + 5)) s)) ;;;
  sched_update_sleepers ;;;
  schedule frame.

(** [int $32]: the CPU pushes [frame] and takes the timer's interrupt *)
Definition sched_yield (frame : Z) : M sched Z := timer_interrupt frame.

(** [task_exit] up to its loop: the current task becomes a zombie. Its message
    goes to the log, which is not part of the scheduler's state. *)
Definition exit_current : M sched unit :=
  current <- sched_get_current ;;
  if current =? NULL then ret tt else
  critical dead_lock (
    upd_task current (set_state TASK_ZOMBIE) ;;;
    upd_task current (set_task_cpu NO_CPU) ;;;
    h <- gets dead_task_list ;;
    upd_task current (set_sched_next h) ;;;
    modify (set_dead_task_list current)).

(** [task_exit] of a task interrupted at [frame] by the first [sched_yield] of
    its endless loop. It returns to its caller, [None], only when there is no
    current task; otherwise it ends with the stack pointer of the task the CPU
    goes on with, and a turn of the loop is left only for a zombie that is
    resumed, which no scheduling step does: it takes tasks from runqueues. *)
Definition task_exit (frame : Z) : M sched (option Z) :=
  current <- sched_get_current ;;
  exit_current ;;;
  if current =? NULL then ret None else
  rsp <- sched_yield frame ;;
  ret (Some rsp).

(** [msleep] once the scheduler runs: the busy-wait branch, taken without a
    current task or with the locks disabled, never ends on one CPU *)
Definition msleep (ms frame : Z) : M sched Z :=
  current <- sched_get_current ;;
  h <- gets s_hart ;;
  if (current =? NULL) || negb (g_lock_enabled h) then
    (if 0 <? ms then hang else ret frame)
  else
  sched_make_task_sleep ms ;;;
  sched_yield frame.
