(* ===== verification/Runqueue.v ===== *)
(** * Runqueues: representation and correctness

    The abstract view of the scheduler's lists ([Sched]): every list the
    kernel threads through [sched_next] is a place, a place holds a sequence
    of tasks, and no task is in two places. [enqueue_task], [dequeue_task],
    [steal_task_from_cpu] and [prio_boost] are proved to be the corresponding
    operations on sequences. *)

From S2P Require Import Prelude Lock Chain Sched.

(** ** Places *)

Inductive place :=
| Rq (cpu p : Z)
| Sleep (cpu : Z)
| Blocked
| Dead.

#[global] Instance place_eq_dec : EqDecision place.
Proof. solve_decision. Defined.

Definition nx (ts : gmap Z task) : Z -> option Z := fun x => sched_next <$> ts !! x.

(** The head pointer of a place. *)
Definition head_of (s : sched) (a : place) : option Z :=
  match a with
  | Rq c p => (fun x => rd (rq_head x) p) <$> cpus s !! c
  | Sleep c => sleeping_list <$> cpus s !! c
  | Blocked => Some (blocked_task_list s)
  | Dead => Some (dead_task_list s)
  end.

(** Tail pointer and length field of a runqueue that holds [l]. *)
Definition rq_fields (x : cpu_context) (p : Z) (l : list Z) : Prop :=
  rd (rq_tail x) p = default NULL (last l) /\ rd (rq_count x) p = w32 (Z.of_nat (length l)).

Record rep (s : sched) (v : place -> list Z) : Prop := {
  rep_chain : forall a h, head_of s a = Some h -> chain (nx (tasks s)) h (v a) NULL;
  rep_fields : forall c x p, cpus s !! c = Some x -> rq_fields x p (v (Rq c p));
  rep_disj : forall a b t, t ∈ v a -> t ∈ v b -> a = b;
  rep_none : forall a, head_of s a = None -> v a = [];
}.

Definition vset (a : place) (l : list Z) (v : place -> list Z) : place -> list Z :=
  fun b => if decide (b = a) then l else v b.

Lemma vset_eq a l v : vset a l v a = l.
Proof. unfold vset. by rewrite decide_True. Qed.
Lemma vset_ne a l v b : b <> a -> vset a l v b = v b.
Proof. intros. unfold vset. by rewrite decide_False. Qed.

(** A task that is in no list. *)
Definition idle_in (v : place -> list Z) (t : Z) : Prop := forall a, t ∉ v a.

Definition disj (v : place -> list Z) : Prop := forall a b t, t ∈ v a -> t ∈ v b -> a = b.

Lemma disj_vset v a l :
  disj v -> (forall u, u ∈ l -> u ∈ v a \/ idle_in v u) -> disj (vset a l v).
Proof.
  intros Hd Hl b b' u. unfold vset. repeat case_decide; subst; try done.
  - intros [Hu|Hu]%Hl Hb; [by apply (Hd a b' u)|by apply Hu in Hb].
  - intros Hb [Hu|Hu]%Hl; [by apply (Hd b a u)|by apply Hu in Hb].
  - by apply Hd.
Qed.

(** A step that changes only the places [D] preserves the representation when
    it rebuilds the chains of [D] and touches no link of another place. *)
Lemma rep_step s s' v v' (D : list place) :
  rep s v ->
  (forall a, a ∉ D -> head_of s' a = head_of s a /\ v' a = v a /\
     forall u, u ∈ v a -> nx (tasks s') u = nx (tasks s) u) ->
  (forall a, a ∈ D -> exists h, head_of s' a = Some h /\ chain (nx (tasks s')) h (v' a) NULL) ->
  (forall c x p, cpus s' !! c = Some x -> rq_fields x p (v' (Rq c p))) ->
  disj v' -> rep s' v'.
Proof.
  intros Hr Hout Hin Hf Hd. split; [|done|done|].
  - intros a h Hh. destruct (decide (a ∈ D)) as [Ha|Ha].
    + destruct (Hin a Ha) as (h' & Hh' & Hc). congruence.
    + destruct (Hout a Ha) as (E & -> & Hn). rewrite E in Hh.
      apply (chain_frame (nx (tasks s))); [done|]. by apply (rep_chain _ _ Hr).
  - intros a Hh. destruct (decide (a ∈ D)) as [Ha|Ha].
    + destruct (Hin a Ha) as (h' & Hh' & _). congruence.
    + destruct (Hout a Ha) as (E & -> & _). apply (rep_none _ _ Hr). congruence.
Qed.

(** ** Symbolic execution: states that differ in tasks and contexts *)

Definition mk (s : sched) (ts : gmap Z task) (cs : gmap Z cpu_context) : sched :=
  set_cpus cs (set_tasks ts s).

Lemma mk_id s : mk s (tasks s) (cpus s) = s.
Proof. by destruct s. Qed.

(** The head pointers after context [c] became [y]. *)
Lemma head_of_mk s ts c y a :
  head_of (mk s ts (<[c := y]> (cpus s))) a =
  match a with
  | Rq d p => if decide (d = c) then Some (rd (rq_head y) p) else head_of s a
  | Sleep d => if decide (d = c) then Some (sleeping_list y) else head_of s a
  | _ => head_of s a
  end.
Proof.
  destruct a as [d p|d| |]; cbn [head_of mk set_cpus cpus]; try done;
    (case_decide; [subst; by rewrite lookup_insert_eq|by rewrite lookup_insert_ne]).
Qed.

Section steps.
Context (s : sched) (ts : gmap Z task) (cs : gmap Z cpu_context).

Lemma get_task_mk p t : ts !! p = Some t -> get_task p (mk s ts cs) = Ok (t, mk s ts cs).
Proof. intros E. unfold get_task. cbv [bind gets]. simpl. by rewrite E. Qed.

Lemma upd_task_mk p t f :
  ts !! p = Some t -> upd_task p f (mk s ts cs) = Ok (tt, mk s (<[p := f t]> ts) cs).
Proof. intros E. unfold upd_task. by rewrite (bind_ok _ _ _ _ _ (get_task_mk p t E)). Qed.

Lemma get_ctx_mk c x : cs !! c = Some x -> get_ctx c (mk s ts cs) = Ok (x, mk s ts cs).
Proof. intros E. unfold get_ctx. cbv [bind gets]. simpl. by rewrite E. Qed.

Lemma upd_ctx_mk c x f :
  cs !! c = Some x -> upd_ctx c f (mk s ts cs) = Ok (tt, mk s ts (<[c := f x]> cs)).
Proof. intros E. unfold upd_ctx. by rewrite (bind_ok _ _ _ _ _ (get_ctx_mk c x E)). Qed.

Lemma alter_insert_map {A} (f : A -> A) (m : gmap Z A) c x :
  m !! c = Some x -> alter f c m = <[c := f x]> m.
Proof.
  intros E. apply map_eq. intros d. destruct (decide (d = c)) as [->|].
  - by rewrite lookup_alter_eq, E, lookup_insert_eq.
  - by rewrite lookup_alter_ne, lookup_insert_ne.
Qed.

Lemma lset_ctx_lock get set c x l :
  cs !! c = Some x -> lset (ctx_lock get set c) l (mk s ts cs) = mk s ts (<[c := set l x]> cs).
Proof. intros E. simpl. by rewrite (alter_insert_map _ _ _ _ E). Qed.

Lemma lget_ctx_lock get set c x :
  cs !! c = Some x -> lget (ctx_lock get set c) (mk s ts cs) = get x.
Proof. intros E. simpl. by rewrite E. Qed.
End steps.

Lemma ctx_lock_mk get set s ts cs c x :
  (forall l y, get (set l y) = l) -> (forall l l' y, set l (set l' y) = set l y) ->
  (forall y, set (get y) y = y) ->
  cs !! c = Some x -> hart_ok (s_hart s) -> lock_free (get x) ->
  spin_lock (ctx_lock get set c) (mk s ts cs) =
  Ok (tt, mk s ts (<[c := set (held (s_hart s) (get x)) x]> cs)).
Proof.
  intros G1 G2 G3 E Hh Hl. rewrite spin_lock_at.
  - by rewrite (lget_ctx_lock _ _ _ get set c x E), (lset_ctx_lock _ _ _ get set c x _ E).
  - intros l. rewrite (lset_ctx_lock _ _ _ get set c x _ E).
    rewrite (lget_ctx_lock _ _ _ get set c (set l x)); [done|apply lookup_insert_eq].
  - intros l l'. rewrite !(lset_ctx_lock _ _ _ get set c x _ E).
    rewrite (lset_ctx_lock _ _ _ get set c (set l' x)) by apply lookup_insert_eq.
    by rewrite insert_insert_eq, G2.
  - rewrite (lget_ctx_lock _ _ _ get set c x E), (lset_ctx_lock _ _ _ get set c x _ E), G3.
    by rewrite insert_id.
  - done.
  - done.
  - by rewrite (lget_ctx_lock _ _ _ get set c x E).
Qed.

Lemma ctx_unlock_mk get set s ts cs c x :
  (forall y, set (get y) y = y) -> cs !! c = Some x ->
  spin_unlock (ctx_lock get set c) (mk s ts cs) =
  Ok (tt, mk s ts (<[c := set (unheld (s_hart s) (get x)) x]> cs)).
Proof.
  intros G3 E. rewrite spin_unlock_at.
  - by rewrite (lget_ctx_lock _ _ _ get set c x E), (lset_ctx_lock _ _ _ get set c x _ E).
  - rewrite (lget_ctx_lock _ _ _ get set c x E), (lset_ctx_lock _ _ _ get set c x _ E), G3.
    by rewrite insert_id.
Qed.

Lemma rq_lock_mk s ts cs c x :
  cs !! c = Some x -> hart_ok (s_hart s) -> lock_free (rq_lock x) ->
  spin_lock (rq_lock_at c) (mk s ts cs) =
  Ok (tt, mk s ts (<[c := set_rq_lock (held (s_hart s) (rq_lock x)) x]> cs)).
Proof. apply ctx_lock_mk; intros; try destruct y; done. Qed.

Lemma rq_unlock_mk s ts cs c x :
  cs !! c = Some x ->
  spin_unlock (rq_lock_at c) (mk s ts cs) =
  Ok (tt, mk s ts (<[c := set_rq_lock (unheld (s_hart s) (rq_lock x)) x]> cs)).
Proof. apply ctx_unlock_mk. by intros []. Qed.

Lemma sleep_lock_mk s ts cs c x :
  cs !! c = Some x -> hart_ok (s_hart s) -> lock_free (sleep_lock x) ->
  spin_lock (sleep_lock_at c) (mk s ts cs) =
  Ok (tt, mk s ts (<[c := set_sleep_lock (held (s_hart s) (sleep_lock x)) x]> cs)).
Proof. apply ctx_lock_mk; intros; try destruct y; done. Qed.

Lemma sleep_unlock_mk s ts cs c x :
  cs !! c = Some x ->
  spin_unlock (sleep_lock_at c) (mk s ts cs) =
  Ok (tt, mk s ts (<[c := set_sleep_lock (unheld (s_hart s) (sleep_lock x)) x]> cs)).
Proof. apply ctx_unlock_mk. by intros []. Qed.

(** One step of a routine, as a rewriting rule. *)
Section binds.
Context {A : Type} (s : sched) (ts : gmap Z task) (cs : gmap Z cpu_context).

Lemma get_task_bind p t (k : task -> M sched A) :
  ts !! p = Some t -> (y <- get_task p ;; k y) (mk s ts cs) = k t (mk s ts cs).
Proof. intros E. by rewrite (bind_ok _ _ _ _ _ (get_task_mk s ts cs p t E)). Qed.
Lemma upd_task_bind p t f (k : unit -> M sched A) :
  ts !! p = Some t ->
  (y <- upd_task p f ;; k y) (mk s ts cs) = k tt (mk s (<[p := f t]> ts) cs).
Proof. intros E. by rewrite (bind_ok _ _ _ _ _ (upd_task_mk s ts cs p t f E)). Qed.
Lemma get_ctx_bind c x (k : cpu_context -> M sched A) :
  cs !! c = Some x -> (y <- get_ctx c ;; k y) (mk s ts cs) = k x (mk s ts cs).
Proof. intros E. by rewrite (bind_ok _ _ _ _ _ (get_ctx_mk s ts cs c x E)). Qed.
Lemma upd_ctx_bind c x f (k : unit -> M sched A) :
  cs !! c = Some x ->
  (y <- upd_ctx c f ;; k y) (mk s ts cs) = k tt (mk s ts (<[c := f x]> cs)).
Proof. intros E. by rewrite (bind_ok _ _ _ _ _ (upd_ctx_mk s ts cs c x f E)). Qed.
Lemma get_cpu_bind (k : Z -> M sched A) : (y <- get_cpu ;; k y) (mk s ts cs) = k (this_cpu s) (mk s ts cs).
Proof. done. Qed.
Lemma uptime_bind (k : Z -> M sched A) :
  (y <- get_uptime_ms ;; k y) (mk s ts cs) = k (uptime_ms s) (mk s ts cs).
Proof. done. Qed.
Lemma fuel_bind (k : nat -> M sched A) :
  (y <- list_fuel ;; k y) (mk s ts cs) = k (S (size ts)) (mk s ts cs).
Proof. done. Qed.
End binds.

(** Finds the value of a lookup in an updated store. *)
Ltac find_in_store :=
  first [ eassumption | apply lookup_insert_eq
        | rewrite lookup_insert_ne by congruence; find_in_store ].

(** Executes the next access of a routine. *)
Ltac exec_step :=
  first [ erewrite get_task_bind by find_in_store
        | erewrite upd_task_bind by find_in_store
        | erewrite get_ctx_bind by find_in_store
        | erewrite upd_ctx_bind by find_in_store ];
  rewrite ?insert_insert_eq.

(** ** Enqueueing *)

(** The queue a task of base priority [b] goes to. *)
Definition level (b : Z) : Z := if PRIORITY_LEVELS <=? b then PRIO_NORMAL else b.

(** The context, the task and the other tasks after [enqueue_task]. *)
Definition enq_ctx (h : hart) (x : cpu_context) (p t : Z) : cpu_context :=
  let x1 := set_current_quanta (<[p := 0]> (current_quanta x)) x in
  let x2 := if rd (rq_tail x) p =? NULL then set_rq_head (<[p := t]> (rq_head x)) x1 else x1 in
  let x3 := set_rq_tail (<[p := t]> (rq_tail x)) x2 in
  let x4 := set_rq_count (<[p := w32 (rd (rq_count x) p + 1)]> (rq_count x)) x3 in
  set_rq_lock (released h (rq_lock x)) x4.

#[global] Arguments enq_ctx : simpl never.

Definition enq_task (x : cpu_context) (tk : task) : task :=
  let tk1 := set_sched_next NULL (set_priority (base_priority tk) tk) in
  if task_cpu tk =? NO_CPU then set_task_cpu (ctx_id x) tk1 else tk1.

Definition link_tail (tail t : Z) (ts : gmap Z task) (u : Z) : option task :=
  if decide (u = tail /\ tail <> NULL) then set_sched_next t <$> ts !! u else ts !! u.

Lemma enqueue_run s ts cs c x t tk :
  let p := level (base_priority tk) in
  let tail := rd (rq_tail x) p in
  cs !! c = Some x -> ts !! t = Some tk -> t <> tail -> (tail <> NULL -> is_Some (ts !! tail)) ->
  hart_ok (s_hart s) -> lock_free (rq_lock x) ->
  exists ts', enqueue_task c t (mk s ts cs)
              = Ok (tt, mk s ts' (<[c := enq_ctx (s_hart s) x p t]> cs)) /\
    ts' !! t = Some (enq_task x tk) /\ (forall u, u <> t -> ts' !! u = link_tail tail t ts u).
Proof.
  intros p tail Hx Ht Hne Htail Hh Hl. unfold enqueue_task. exec_step.
  rewrite (bind_ok _ _ _ _ _ (rq_lock_mk s ts cs c x Hx Hh Hl)).
  exec_step. exec_step. cbn [priority set_priority]. fold (level (base_priority tk)). fold p.
  exec_step. exec_step. exec_step. cbn [rq_tail set_current_quanta set_rq_lock]. fold tail.
  unfold enq_ctx, enq_task. fold tail. cbv zeta. destruct (Z.eqb_spec tail NULL) as [E0|E0]; cbn [negb].
  - do 5 exec_step. cbn [task_cpu set_sched_next set_priority].
    exists (<[t := enq_task x tk]> ts). split.
    + unfold enq_task. destruct (task_cpu tk =? NO_CPU); cbn [when].
      * exec_step. erewrite rq_unlock_mk by find_in_store. by rewrite insert_insert_eq.
      * rewrite (bind_ok (ret tt) _ _ tt _ eq_refl).
        erewrite rq_unlock_mk by find_in_store. by rewrite insert_insert_eq.
    + split; [apply lookup_insert_eq|]. intros u Hu. unfold link_tail.
      rewrite decide_False by tauto. by rewrite lookup_insert_ne.
  - destruct (Htail E0) as [tl Htl]. do 5 exec_step. cbn [task_cpu set_sched_next set_priority].
    exists (<[t := enq_task x tk]> (<[tail := set_sched_next t tl]> ts)). split.
    + unfold enq_task. destruct (task_cpu tk =? NO_CPU); cbn [when].
      * exec_step. erewrite rq_unlock_mk by find_in_store. rewrite insert_insert_eq.
        by rewrite (insert_insert_ne ts tail t), insert_insert_eq by done.
      * rewrite (bind_ok (ret tt) _ _ tt _ eq_refl).
        erewrite rq_unlock_mk by find_in_store. rewrite insert_insert_eq.
        by rewrite (insert_insert_ne ts tail t) by done.
    + split; [apply lookup_insert_eq|]. intros u Hu. unfold link_tail.
      rewrite lookup_insert_ne by done. destruct (decide (u = tail)) as [->|].
      * rewrite decide_True by done. by rewrite lookup_insert_eq, Htl.
      * rewrite decide_False by tauto. by rewrite lookup_insert_ne.
Qed.

Lemma enq_ctx_head h x p t p' :
  rd (rq_head (enq_ctx h x p t)) p' =
  if decide (p' = p /\ rd (rq_tail x) p = NULL) then t else rd (rq_head x) p'.
Proof.
  unfold enq_ctx. destruct (Z.eqb_spec (rd (rq_tail x) p) NULL); simpl.
  - rewrite rd_insert. destruct (decide (p = p')) as [->|]; [by rewrite decide_True|].
    by rewrite decide_False by (intros [? _]; congruence).
  - by rewrite decide_False by tauto.
Qed.

Lemma enq_ctx_fields h x p t l :
  rq_fields x p l -> rq_fields (enq_ctx h x p t) p (l ++ [t]).
Proof.
  intros [_ Hc]. unfold rq_fields, enq_ctx. rewrite last_snoc, length_app.
  case_bool; simpl; rewrite !rd_insert, !decide_True by done; (split; [done|]);
    rewrite Hc; unfold w32; rewrite Zplus_mod_idemp_l; f_equal; lia.
Qed.

Lemma enq_ctx_fields_ne h x p t p' l :
  p' <> p -> rq_fields x p' l -> rq_fields (enq_ctx h x p t) p' l.
Proof.
  intros Hp. unfold rq_fields, enq_ctx.
  by case_bool; simpl; rewrite !rd_insert, !decide_False by done.
Qed.

Lemma enq_ctx_sleeping h x p t : sleeping_list (enq_ctx h x p t) = sleeping_list x.
Proof. unfold enq_ctx. by case_bool. Qed.

(** Two task stores that differ only in links. *)
Definition unlinked (t : task) : task := set_sched_next NULL t.
Definition same_tasks (ts ts' : gmap Z task) : Prop :=
  forall u, unlinked <$> ts' !! u = unlinked <$> ts !! u.

Lemma rep_task s v a t : rep s v -> t ∈ v a -> t <> NULL /\ is_Some (tasks s !! t).
Proof.
  intros Hr Ht. destruct (head_of s a) as [h|] eqn:E.
  - destruct (chain_elem _ _ _ _ t (rep_chain _ _ Hr a h E) Ht) as [? Hs]. split; [done|].
    by apply fmap_is_Some in Hs.
  - rewrite (rep_none _ _ Hr a E) in Ht. by apply not_elem_of_nil in Ht.
Qed.

(** The tail of a runqueue is its last task. *)
Lemma rep_tail s v c x p :
  rep s v -> cpus s !! c = Some x ->
  rd (rq_tail x) p = NULL /\ v (Rq c p) = [] \/
  exists l0, v (Rq c p) = l0 ++ [rd (rq_tail x) p] /\ rd (rq_tail x) p <> NULL.
Proof.
  intros Hr Hx. destruct (rep_fields _ _ Hr c x p Hx) as [-> _].
  destruct (v (Rq c p)) as [|y l _] eqn:E using rev_ind; [by left|]. right. exists l.
  rewrite last_snoc. simpl. split; [done|].
  apply (rep_task s v (Rq c p)); [done|]. rewrite E. apply elem_of_app. right. by left.
Qed.

(** Appending to a queue whose last node is redirected to the new one. *)
Lemma chain_append nxf nxf' h l t :
  chain nxf h l NULL -> t <> NULL -> nxf' t = Some NULL ->
  (forall u, u ∈ l -> nxf' u = if decide (last l = Some u) then Some t else nxf u) ->
  chain nxf' (if decide (l = []) then t else h) (l ++ [t]) NULL.
Proof.
  intros Hc Ht Hn Hl. destruct l as [|y l _] using rev_ind.
  - rewrite decide_True by done. simpl. split_and!; [done|done|]. by exists NULL.
  - rewrite decide_False by (by destruct l). apply chain_app. exists t.
    split; [|simpl; split_and!; [done|done|by exists NULL]].
    assert (y ∉ l) as Hy.
    { pose proof (chain_NoDup _ _ _ Hc) as Hnd. apply NoDup_app in Hnd as (_ & Hd & _).
      intros Hin. apply (Hd y Hin). by left. }
    apply (chain_frame (redirect nxf y t)); [|by eapply chain_redirect_last].
    intros u Hu. rewrite Hl by done. rewrite last_snoc. unfold redirect.
    destruct (decide (u = y)) as [->|]; [by rewrite decide_True|]. by rewrite decide_False by congruence.
Qed.

Lemma enqueue_rep s v c x t tk ts' :
  let p := level (base_priority tk) in
  rep s v -> cpus s !! c = Some x -> tasks s !! t = Some tk -> t <> NULL -> idle_in v t ->
  ts' !! t = Some (enq_task x tk) ->
  (forall u, u <> t -> ts' !! u = link_tail (rd (rq_tail x) p) t (tasks s) u) ->
  rep (mk s ts' (<[c := enq_ctx (s_hart s) x p t]> (cpus s))) (vset (Rq c p) (v (Rq c p) ++ [t]) v).
Proof.
  intros p Hr Hx Htk Ht0 Hidle Ht Hu. destruct (rep_fields _ _ Hr c x p Hx) as [Htail _].
  set (l := v (Rq c p)) in *. set (tail := rd (rq_tail x) p) in *.
  assert (forall u, u ∈ l -> u <> t) as Hnt by (intros u Hin ->; by apply (Hidle (Rq c p))).
  assert (forall u, u <> t -> nx ts' u = if decide (last l = Some u) then Some t else nx (tasks s) u) as Hns.
  { intros u Hut. unfold nx. rewrite Hu by done. unfold link_tail.
    destruct (decide (last l = Some u)) as [El|El].
    - assert (u ∈ l) as Hul by (by apply last_Some_elem_of).
      destruct (rep_task s v (Rq c p) u Hr Hul) as [Hn [tu Htu]].
      rewrite El in Htail. simpl in Htail. rewrite decide_True by (by rewrite Htail). by rewrite Htu.
    - rewrite decide_False; [done|]. intros [-> Hn]. rewrite Htail in El, Hn. by destruct (last l). }
  apply (rep_step s _ v _ [Rq c p]); [done|..].
  - intros a Ha. rewrite not_elem_of_cons in Ha. destruct Ha as [Ha _]. split_and!; [|by apply vset_ne|].
    + rewrite head_of_mk. destruct a as [d q|d| |]; try done; (case_decide; [subst d|done]).
      * rewrite enq_ctx_head. cbn [head_of]. rewrite Hx, decide_False; [done|]. by intros [-> _].
      * rewrite enq_ctx_sleeping. cbn [head_of]. by rewrite Hx.
    + intros u Hin. simpl. rewrite Hns by (intros ->; by apply (Hidle a)). rewrite decide_False; [done|].
      intros El%last_Some_elem_of. apply Ha. by apply (rep_disj _ _ Hr a (Rq c p) u).
  - intros a ->%list_elem_of_singleton. eexists. split; [rewrite head_of_mk; by rewrite decide_True|].
    change (tasks (mk s ts' _)) with ts'. rewrite vset_eq, enq_ctx_head. fold tail.
    assert (chain (nx (tasks s)) (rd (rq_head x) p) l NULL) as Hc.
    { apply (rep_chain _ _ Hr (Rq c p)). simpl. by rewrite Hx. }
    replace (if decide (p = p /\ tail = NULL) then t else rd (rq_head x) p)
      with (if decide (l = []) then t else rd (rq_head x) p).
    { apply (chain_append (nx (tasks s))); try done; [unfold nx; rewrite Ht; unfold enq_task; by case_bool|].
      intros u Hin. apply Hns. by apply Hnt. }
    destruct (decide (l = [])) as [El|El].
    + rewrite decide_True; [done|]. by rewrite Htail, El.
    + rewrite decide_False; [done|]. intros [_ E]. rewrite Htail in E.
      destruct (last l) as [y|] eqn:Ey; [|by apply last_None in Ey]. simpl in E.
      destruct (rep_task s v (Rq c p) y Hr) as [Hy _]; [by apply last_Some_elem_of|done].
  - intros d y q. cbn [mk set_cpus cpus]. intros Hy. destruct (decide (d = c)) as [->|].
    + rewrite lookup_insert_eq in Hy. injection Hy as <-. destruct (decide (q = p)) as [->|].
      * rewrite vset_eq. apply enq_ctx_fields. by apply (rep_fields _ _ Hr).
      * rewrite vset_ne by congruence. apply enq_ctx_fields_ne; [done|]. by apply (rep_fields _ _ Hr).
    + rewrite lookup_insert_ne in Hy by done. rewrite vset_ne by congruence. by apply (rep_fields _ _ Hr).
  - apply disj_vset; [exact (rep_disj _ _ Hr)|]. intros u [?| ->%list_elem_of_singleton]%elem_of_app; [by left|by right].
Qed.

(** ** The invariant *)

(** The lists are represented, and no lock is held. *)
Record sched_ok (s : sched) (v : place -> list Z) : Prop := {
  so_rep : rep s v;
  so_hart : hart_ok (s_hart s);
  so_locks : map_Forall (fun _ x => lock_free (rq_lock x) /\ lock_free (sleep_lock x)) (cpus s);
  so_dead : lock_free (dead_lock_ s);
  so_blocked : lock_free (blocked_lock_ s);
}.

(** What queue operations leave alone: everything but links, queues, locks and
    the tasks in [T]. *)
Definition ctx_core (x : cpu_context) : Z * Z * Z * Z * Z * Z :=
  (ctx_id x, kernel_stack x, tss_rsp0 x, current_task x, idle_task x, next_priority_boost x).

Record framed (T : Z -> Prop) (s s' : sched) : Prop := {
  fr_rest : s' = mk s (tasks s') (cpus s');
  fr_ctx : forall c, ctx_core <$> cpus s' !! c = ctx_core <$> cpus s !! c;
  fr_tasks : forall u, ~ T u -> unlinked <$> tasks s' !! u = unlinked <$> tasks s !! u;
  fr_dom : forall u, is_Some (tasks s' !! u) <-> is_Some (tasks s !! u);
}.

Lemma framed_refl T s : framed T s s.
Proof. split; try done. by rewrite mk_id. Qed.

Lemma framed_trans T s1 s2 s3 : framed T s1 s2 -> framed T s2 s3 -> framed T s1 s3.
Proof.
  intros [A1 A2 A3 A4] [B1 B2 B3 B4]. split.
  - rewrite B1, A1. done.
  - intros c. by rewrite B2, A2.
  - intros u Hu. by rewrite B3, A3.
  - intros u. by rewrite B4.
Qed.

Lemma framed_mono (T T' : Z -> Prop) s s' : (forall u, T u -> T' u) -> framed T s s' -> framed T' s s'.
Proof. intros HT [A1 A2 A3 A4]. split; try done. intros u Hu. apply A3. by intros ?%HT. Qed.

Lemma framed_hart T s s' : framed T s s' -> s_hart s' = s_hart s.
Proof. by intros [-> _ _ _]. Qed.

(** [enqueue_task] appends the task to the queue of its base priority. *)
Lemma enqueue_full s v c x t tk :
  let p := level (base_priority tk) in
  sched_ok s v -> cpus s !! c = Some x -> tasks s !! t = Some tk -> t <> NULL -> idle_in v t ->
  exists s', enqueue_task c t s = Ok (tt, s') /\
    sched_ok s' (vset (Rq c p) (v (Rq c p) ++ [t]) v) /\ framed (fun u => u = t) s s' /\
    tasks s' !! t = Some (enq_task x tk) /\
    forall u, u <> t -> idle_in v u -> tasks s' !! u = tasks s !! u.
Proof.
  intros p [Hr Hh Hl Hd Hb] Hx Ht Ht0 Hi. set (tail := rd (rq_tail x) p).
  destruct (Hl c x Hx) as [Hl1 Hl2].
  assert (t <> tail /\ (tail <> NULL -> is_Some (tasks s !! tail))) as [Hne Hts].
  { destruct (rep_tail s v c x p Hr Hx) as [[E _]|(l0 & El & _)].
    - fold tail in E. split; [congruence|done].
    - fold tail in El. assert (tail ∈ v (Rq c p)) as Hin by (rewrite El; apply elem_of_app; right; by left).
      split; [intros E; apply (Hi (Rq c p)); by rewrite E|]. intros _. by apply (rep_task s v (Rq c p)). }
  destruct (enqueue_run s (tasks s) (cpus s) c x t tk) as (ts' & E & Et & Eu); try done.
  rewrite mk_id in E. fold p in E, Eu. fold tail in Eu.
  eexists. split; [exact E|]. split_and!; [| |done|].
  - split; try done; [by apply (enqueue_rep s v c x t tk)|].
    cbn [mk set_cpus cpus]. apply map_Forall_insert_2; [|done]. unfold enq_ctx.
    case_bool; simpl; by split; [apply released_free|].
  - split; cbn [mk set_cpus set_tasks cpus tasks]; try done.
    + intros d. destruct (decide (d = c)) as [->|]; [|by rewrite lookup_insert_ne].
      rewrite lookup_insert_eq, Hx. simpl. unfold enq_ctx. by case_bool.
    + intros u Hu. rewrite Eu by done. unfold link_tail. case_decide; [|done].
      by destruct (tasks s !! u).
    + intros u. destruct (decide (u = t)) as [->|]; [by rewrite Et, Ht|].
      rewrite Eu by done. unfold link_tail. case_decide; [|done]. apply fmap_is_Some.
  - intros u Hu Hiu. cbn [mk set_cpus set_tasks tasks]. rewrite Eu by done. unfold link_tail. rewrite decide_False; [done|].
    intros [-> Hn]. destruct (rep_tail s v c x p Hr Hx) as [[E0 _]|(l0 & El & _)]; [done|]. fold tail in El.
    apply (Hiu (Rq c p)). rewrite El. apply elem_of_app. right. by left.
Qed.

Lemma enqueue_spec s v c x t tk :
  let p := level (base_priority tk) in
  sched_ok s v -> cpus s !! c = Some x -> tasks s !! t = Some tk -> t <> NULL -> idle_in v t ->
  exists s', enqueue_task c t s = Ok (tt, s') /\
    sched_ok s' (vset (Rq c p) (v (Rq c p) ++ [t]) v) /\ framed (fun u => u = t) s s' /\
    tasks s' !! t = Some (enq_task x tk).
Proof.
  intros p Hs Hx Ht Ht0 Hi. destruct (enqueue_full s v c x t tk Hs Hx Ht Ht0 Hi) as (s' & E & H1 & H2 & H3 & _). by exists s'.
Qed.

(** ** Dequeueing *)

Definition expired (x : cpu_context) (p : Z) : bool := priority_quanta p <=? rd (current_quanta x) p.

(** The level [dequeue_task] serves: the first of [ps] that has a task and
    has not used up its quantum while a lower level has work. *)
Fixpoint pick (ps : list Z) (x : cpu_context) : option Z :=
  match ps with
  | [] => None
  | p :: ps =>
      if (rd (rq_head x) p =? NULL) || (expired x p && work_below x p) then pick ps x else Some p
  end.

(** The context after level [p] lost its head, whose successor is [n]; [qs]
    are the quanta. *)
Definition deq_ctx (x : cpu_context) (p n : Z) (qs : gmap Z Z) : cpu_context :=
  let x1 := set_rq_head (<[p := n]> (rq_head x)) x in
  let x2 := if n =? NULL then set_rq_tail (<[p := NULL]> (rq_tail x)) x1 else x1 in
  let x3 := set_rq_count (<[p := w32 (rd (rq_count x) p - 1)]> (rq_count x)) x2 in
  set_current_quanta qs x3.
#[global] Arguments deq_ctx : simpl never.

Lemma deq_ctx_quanta x qs0 p n qs : deq_ctx (set_current_quanta qs0 x) p n qs = deq_ctx x p n qs.
Proof. unfold deq_ctx. by case_bool. Qed.

Lemma pick_quanta ps x qs :
  (forall p, p ∈ ps -> rd qs p = rd (current_quanta x) p) -> pick ps (set_current_quanta qs x) = pick ps x.
Proof.
  induction ps as [|p ps IH]; intros Hq; [done|]. cbn [pick]. unfold expired. simpl.
  rewrite (Hq p) by (by left). rewrite IH by (intros q Hin; apply Hq; by right). done.
Qed.

Lemma pick_elem ps x p : pick ps x = Some p -> p ∈ ps /\ rd (rq_head x) p <> NULL.
Proof.
  induction ps as [|q ps IH]; [done|]. cbn [pick].
  destruct (Z.eqb_spec (rd (rq_head x) q) NULL); cbn [orb].
  - intros [? ?]%IH. split; [by right|done].
  - destruct (_ && _); [intros [? ?]%IH; split; [by right|done]|]. intros [= <-]. split; [by left|done].
Qed.

Lemma dequeue_levels_run ps s ts cs c x :
  NoDup ps -> cs !! c = Some x ->
  (forall p, p ∈ ps -> rd (rq_head x) p <> NULL -> is_Some (ts !! rd (rq_head x) p)) ->
  exists r qs, (forall p, p ∉ ps -> rd qs p = rd (current_quanta x) p) /\
  match pick ps x with
  | None => r = NULL /\ dequeue_levels ps c (mk s ts cs) = Ok (r, mk s ts (<[c := set_current_quanta qs x]> cs))
  | Some p => exists tk, r = rd (rq_head x) p /\ ts !! r = Some tk /\
      dequeue_levels ps c (mk s ts cs) = Ok (r, mk s ts (<[c := deq_ctx x p (sched_next tk) qs]> cs)) /\
      rd qs p = if expired x p then 1 else w32 (rd (current_quanta x) p + 1)
  end.
Proof.
  revert cs x. induction ps as [|p ps IH]; intros cs x Hnd Hx Hts.
  { exists NULL, (current_quanta x). split; [done|]. cbn [pick dequeue_levels]. split; [done|].
    replace (set_current_quanta (current_quanta x) x) with x by (by destruct x). by rewrite insert_id. }
  apply NoDup_cons in Hnd as [Hp Hnd].
  assert (forall q, q ∈ ps -> rd (<[p := 0]> (current_quanta x)) q = rd (current_quanta x) q) as Hq.
  { intros q Hin. rewrite rd_insert, decide_False; [done|]. congruence. }
  assert (exists r qs, (forall q, q ∉ p :: ps -> rd qs q = rd (current_quanta x) q) /\
    match pick ps x with
    | None => r = NULL /\ (upd_ctx c (fun x => set_current_quanta (<[p := 0]> (current_quanta x)) x) ;;;
        dequeue_levels ps c) (mk s ts cs) = Ok (r, mk s ts (<[c := set_current_quanta qs x]> cs))
    | Some p' => exists tk, r = rd (rq_head x) p' /\ ts !! r = Some tk /\
        (upd_ctx c (fun x => set_current_quanta (<[p := 0]> (current_quanta x)) x) ;;;
         dequeue_levels ps c) (mk s ts cs) = Ok (r, mk s ts (<[c := deq_ctx x p' (sched_next tk) qs]> cs)) /\
        rd qs p' = if expired x p' then 1 else w32 (rd (current_quanta x) p' + 1)
    end) as Hskip.
  { erewrite upd_ctx_bind by done. set (x1 := set_current_quanta (<[p := 0]> (current_quanta x)) x).
    destruct (IH (<[c := x1]> cs) x1 Hnd) as (r & qs & Hqs & Hm).
    { apply lookup_insert_eq. }
    { intros q Hin. apply (Hts q). by right. }
    rewrite (pick_quanta ps x _ Hq : pick ps x1 = pick ps x) in Hm. exists r, qs. split.
    { intros q Hin. rewrite not_elem_of_cons in Hin. destruct Hin as [Hqp Hin]. rewrite Hqs by done. simpl.
      by rewrite rd_insert, decide_False. }
    destruct (pick ps x) as [p'|] eqn:Ep.
    - destruct Hm as (tk & -> & Htk & E & Eq). exists tk. split_and!; [done|done| |].
      + rewrite E, insert_insert_eq. unfold x1. by rewrite deq_ctx_quanta.
      + rewrite Eq. unfold expired. simpl. destruct (pick_elem _ _ _ Ep) as [Hin _]. by rewrite Hq.
    - destruct Hm as [-> E]. split; [done|]. rewrite E. by rewrite insert_insert_eq. }
  cbn [dequeue_levels pick]. erewrite get_ctx_bind by done. cbv zeta.
  destruct (Z.eqb_spec (rd (rq_head x) p) NULL) as [E0|E0]; cbn [orb]; [exact Hskip|].
  fold (expired x p). destruct (expired x p && work_below x p) eqn:Ew; [exact Hskip|]. clear Hskip IH.
  destruct (Hts p ltac:(by left) E0) as [tk Htk].
  exists (rd (rq_head x) p),
    (<[p := if expired x p then 1 else w32 (rd (current_quanta x) p + 1)]> (current_quanta x)). split.
  { intros q Hin. rewrite not_elem_of_cons in Hin. destruct Hin as [Hqp _]. by rewrite rd_insert, decide_False. }
  exists tk. split_and!; [done|done| |by rewrite rd_insert, decide_True].
  unfold deq_ctx. destruct (expired x p); cbn [when];
    [|rewrite (bind_ok (ret tt) _ _ tt _ eq_refl)]; repeat exec_step;
    (destruct (sched_next tk =? NULL); cbn [when];
      [|rewrite (bind_ok (ret tt) _ _ tt _ eq_refl)]; repeat exec_step; unfold ret; simpl;
      rewrite ?rd_insert, ?decide_True, ?insert_insert_eq by done; try done).
Qed.

Definition levels : list Z := seqZ 0 (PRIORITY_LEVELS - 1).

(** No level is left behind: the search gives up only on empty queues. *)
Lemma pick_none x : pick levels x = None -> forall p, p ∈ levels -> rd (rq_head x) p = NULL.
Proof.
  unfold levels. change (seqZ 0 (PRIORITY_LEVELS - 1)) with [0; 1; 2]. cbn [pick].
  unfold work_below. change (seqZ (0 + 1) _) with [1; 2]. change (seqZ (1 + 1) _) with [2].
  change (seqZ (2 + 1) _) with (@nil Z). cbn [existsb].
  destruct (Z.eqb_spec (rd (rq_head x) 2) NULL) as [E2|E2]; cbn [orb negb];
    [|rewrite andb_false_r; by repeat match goal with |- context [if ?b then _ else _] => destruct b end].
  destruct (Z.eqb_spec (rd (rq_head x) 1) NULL) as [E1|E1]; cbn [orb negb];
    [|rewrite andb_false_r; by repeat match goal with |- context [if ?b then _ else _] => destruct b end].
  destruct (Z.eqb_spec (rd (rq_head x) 0) NULL) as [E0|E0]; cbn [orb negb]; [|by rewrite andb_false_r].
  intros _ p Hp. repeat (apply elem_of_cons in Hp as [->|Hp]; [done|]). by apply not_elem_of_nil in Hp.
Qed.

Lemma w32_pred n : w32 (w32 (Z.of_nat (S n)) - 1) = w32 (Z.of_nat n).
Proof. unfold w32. rewrite Zminus_mod_idemp_l. f_equal. lia. Qed.

Lemma deq_ctx_fields x p n qs t l :
  (n = NULL <-> l = []) -> rq_fields x p (t :: l) -> rq_fields (deq_ctx x p n qs) p l.
Proof.
  intros Hn [Ht Hc]. unfold rq_fields, deq_ctx. case_bool; simpl; rewrite !rd_insert, !decide_True by done.
  - rewrite (proj1 Hn) by done. split; [done|]. rewrite Hc, (proj1 Hn) by done. apply w32_pred.
  - rewrite Ht, Hc. split; [|apply w32_pred]. destruct l; [by pose proof (proj2 Hn eq_refl)|]. by rewrite last_cons_cons.
Qed.

Lemma deq_ctx_other x p n qs p' :
  p' <> p -> rd (rq_head (deq_ctx x p n qs)) p' = rd (rq_head x) p' /\
  forall l, rq_fields x p' l -> rq_fields (deq_ctx x p n qs) p' l.
Proof.
  intros Hp. unfold rq_fields, deq_ctx. by case_bool; simpl; rewrite !rd_insert, !decide_False.
Qed.

Lemma deq_ctx_core x p n qs :
  rd (rq_head (deq_ctx x p n qs)) p = n /\ sleeping_list (deq_ctx x p n qs) = sleeping_list x /\
  ctx_core (deq_ctx x p n qs) = ctx_core x /\ rq_lock (deq_ctx x p n qs) = rq_lock x /\
  sleep_lock (deq_ctx x p n qs) = sleep_lock x.
Proof. unfold deq_ctx. case_bool; simpl; by rewrite rd_insert, decide_True. Qed.

(** Taking the head off a runqueue. *)
Lemma dequeue_rep s v c x y p t tk l qs :
  rep s v -> cpus s !! c = Some x -> v (Rq c p) = t :: l -> tasks s !! t = Some tk ->
  rq_head y = rq_head (deq_ctx x p (sched_next tk) qs) ->
  rq_tail y = rq_tail (deq_ctx x p (sched_next tk) qs) ->
  rq_count y = rq_count (deq_ctx x p (sched_next tk) qs) -> sleeping_list y = sleeping_list x ->
  rep (mk s (tasks s) (<[c := y]> (cpus s))) (vset (Rq c p) l v).
Proof.
  intros Hr Hx Hv Ht Eh Et Ec Es.
  assert (chain (nx (tasks s)) (rd (rq_head x) p) (t :: l) NULL) as Hc.
  { rewrite <-Hv. apply (rep_chain _ _ Hr (Rq c p)). simpl. by rewrite Hx. }
  destruct Hc as (Eht & Ht0 & n & Hn & Hc). unfold nx in Hn. rewrite Ht in Hn. simpl in Hn.
  injection Hn as <-. destruct (deq_ctx_core x p (sched_next tk) qs) as (Ehead & _).
  assert (forall q l', rq_fields (deq_ctx x p (sched_next tk) qs) q l' -> rq_fields y q l') as Hfy.
  { intros q l'. unfold rq_fields. by rewrite Et, Ec. }
  apply (rep_step s _ v _ [Rq c p]); [done|..].
  - intros a Ha. rewrite not_elem_of_cons in Ha. destruct Ha as [Ha _]. split_and!; [|by apply vset_ne|done].
    rewrite head_of_mk. destruct a as [d q|d| |]; try done; (case_decide; [subst d|done]); cbn [head_of]; rewrite Hx.
    + rewrite Eh. destruct (deq_ctx_other x p (sched_next tk) qs q) as [-> _]; [congruence|done].
    + by rewrite Es.
  - intros a ->%list_elem_of_singleton. eexists. rewrite head_of_mk, decide_True by done.
    split; [done|]. by rewrite vset_eq, Eh, Ehead.
  - intros d z q. cbn [mk set_cpus cpus]. destruct (decide (d = c)) as [->|].
    + rewrite lookup_insert_eq. intros [= <-]. apply Hfy. destruct (decide (q = p)) as [->|].
      * rewrite vset_eq. apply (deq_ctx_fields _ _ _ _ t); [|rewrite <-Hv; by apply (rep_fields _ _ Hr)].
        rewrite (chain_head _ _ _ Hc). destruct l as [|u l]; [done|]. simpl.
        split; [intros ->; by destruct Hc as (_ & ? & _)|done].
      * rewrite vset_ne by congruence. apply deq_ctx_other; [done|]. by apply (rep_fields _ _ Hr).
    + rewrite lookup_insert_ne by done. rewrite vset_ne by congruence. by apply (rep_fields _ _ Hr).
  - apply disj_vset; [exact (rep_disj _ _ Hr)|]. intros u Hu. left. rewrite Hv. by right.
Qed.

(** A change of quanta or locks is invisible to the lists. *)
Lemma rep_ctx s v c x y :
  rep s v -> cpus s !! c = Some x -> rq_head y = rq_head x -> rq_tail y = rq_tail x ->
  rq_count y = rq_count x -> sleeping_list y = sleeping_list x ->
  rep (mk s (tasks s) (<[c := y]> (cpus s))) v.
Proof.
  intros Hr Hx Eh Et Ec Es. apply (rep_step s _ v _ []); [done|..].
  - intros a _. split_and!; [|done|done].
    rewrite head_of_mk. destruct a as [d q|d| |]; try done; (case_decide; [subst d|done]); cbn [head_of];
      by rewrite Hx, ?Eh, ?Es.
  - by intros a ?%not_elem_of_nil.
  - intros d z q. cbn [mk set_cpus cpus]. destruct (decide (d = c)) as [->|].
    + rewrite lookup_insert_eq. intros [= <-]. unfold rq_fields. rewrite Et, Ec. by apply (rep_fields _ _ Hr).
    + rewrite lookup_insert_ne by done. by apply (rep_fields _ _ Hr).
  - exact (rep_disj _ _ Hr).
Qed.

(** A task that is in no list may change in any way. *)
Lemma rep_idle_upd s v t tk' : rep s v -> idle_in v t -> rep (mk s (<[t := tk']> (tasks s)) (cpus s)) v.
Proof.
  intros Hr Hi. apply (rep_step s _ v _ []); [done|..].
  - intros a _. split_and!; [by destruct a|done|]. intros u Hu. unfold nx. cbn [mk set_cpus set_tasks tasks].
    rewrite lookup_insert_ne; [done|]. intros ->. by apply (Hi a).
  - by intros a ?%not_elem_of_nil.
  - intros c x p Hx. by apply (rep_fields _ _ Hr).
  - exact (rep_disj _ _ Hr).
Qed.

Lemma sched_ok_idle_upd s v t tk' :
  sched_ok s v -> idle_in v t -> sched_ok (mk s (<[t := tk']> (tasks s)) (cpus s)) v.
Proof. intros [Hr Hh Hl Hd Hb] Hi. split; try done. by apply rep_idle_upd. Qed.

(** Putting the locks of a context back into place. *)
Lemma sched_ok_ctx s v v' c y :
  sched_ok s v -> rep (mk s (tasks s) (<[c := y]> (cpus s))) v' ->
  lock_free (rq_lock y) -> lock_free (sleep_lock y) ->
  sched_ok (mk s (tasks s) (<[c := y]> (cpus s))) v'.
Proof.
  intros [_ Hh Hl Hd Hb] Hr H1 H2. split; try done. cbn [mk set_cpus cpus]. by apply map_Forall_insert_2.
Qed.

Lemma framed_ctx T s c x y :
  cpus s !! c = Some x -> ctx_core y = ctx_core x -> framed T s (mk s (tasks s) (<[c := y]> (cpus s))).
Proof.
  intros Hx E. split; try done. cbn [mk set_cpus cpus]. intros d.
  destruct (decide (d = c)) as [->|]; [|by rewrite lookup_insert_ne].
  rewrite lookup_insert_eq, Hx. simpl. by rewrite E.
Qed.

(** What [dequeue_task] does to the lists. *)
Definition dequeued (s : sched) (v : place -> list Z) (c : Z) (x : cpu_context) (r : Z) (s' : sched)
  (v' : place -> list Z) : Prop :=
  match pick levels x with
  | None => r = NULL /\ v' = v /\ forall p, p ∈ levels -> v (Rq c p) = []
  | Some p => exists l, v (Rq c p) = r :: l /\ v' = vset (Rq c p) l v /\
      forall y, cpus s' !! c = Some y ->
        rd (current_quanta y) p = if expired x p then 1 else w32 (rd (current_quanta x) p + 1)
  end.

Lemma dequeue_spec s v c x :
  sched_ok s v -> cpus s !! c = Some x ->
  exists r s' v', dequeue_task c s = Ok (r, s') /\ sched_ok s' v' /\ tasks s' = tasks s /\
    framed (fun _ => False) s s' /\ dequeued s v c x r s' v'.
Proof.
  intros Hs Hx. pose proof Hs as [Hr Hh Hl Hd Hb]. destruct (Hl c x Hx) as [Hl1 Hl2].
  set (x0 := set_rq_lock (held (s_hart s) (rq_lock x)) x).
  destruct (dequeue_levels_run levels s (tasks s) (<[c := x0]> (cpus s)) c x0)
    as (r & qs & _ & Hm).
  { apply NoDup_seqZ. }
  { apply lookup_insert_eq. }
  { intros p Hp Hn. assert (head_of s (Rq c p) = Some (rd (rq_head x) p)) as Hhd by (simpl; by rewrite Hx).
    destruct (chain_cons _ _ _ Hn (rep_chain _ _ Hr _ _ Hhd)) as (n & l & Ev & _).
    apply (rep_task s v (Rq c p)); [done|]. rewrite Ev. by left. }
  change (pick levels x0) with (pick levels x) in Hm.
  assert (forall m, dequeue_levels levels c (mk s (tasks s) (<[c := x0]> (cpus s))) = m ->
    dequeue_task c s = bind (fun _ => m) (fun t => spin_unlock (rq_lock_at c) ;;; ret t) s) as Hrun.
  { intros m Em. unfold dequeue_task. rewrite <-(mk_id s) at 1. erewrite get_ctx_bind by done.
    rewrite (bind_ok _ _ _ _ _ (rq_lock_mk s _ _ c x Hx Hh Hl1)). unfold bind. by rewrite <-Em. }
  unfold dequeued. destruct (pick levels x) as [p|] eqn:Ep.
  - destruct Hm as (tk & -> & Htk & E & Eq). apply Hrun in E. cbv [bind] in E.
    erewrite rq_unlock_mk in E by apply lookup_insert_eq. rewrite !insert_insert_eq in E.
    destruct (pick_elem _ _ _ Ep) as [_ Hne]. change (rq_head x0) with (rq_head x) in *.
    set (y := set_rq_lock (unheld (s_hart s) (rq_lock (deq_ctx x0 p (sched_next tk) qs)))
                (deq_ctx x0 p (sched_next tk) qs)) in E.
    assert (head_of s (Rq c p) = Some (rd (rq_head x) p)) as Hhd by (simpl; by rewrite Hx).
    destruct (chain_cons _ _ _ Hne (rep_chain _ _ Hr _ _ Hhd)) as (n & l & Ev & _).
    destruct (deq_ctx_core x0 p (sched_next tk) qs) as (_ & E1 & E2 & E3 & E4).
    eexists _, _, (vset (Rq c p) l v). split; [exact E|]. split_and!; [|done| |].
    + apply (sched_ok_ctx s v); [done| | |].
      * apply (dequeue_rep s v c x y p (rd (rq_head x) p) tk l qs); try done; unfold y, deq_ctx; by case_bool.
      * unfold y. rewrite E3. simpl. by apply released_free.
      * change (lock_free (sleep_lock (deq_ctx x0 p (sched_next tk) qs))). by rewrite E4.
    + by apply (framed_ctx _ _ _ x).
    + exists l. split_and!; [done|done|]. cbn [mk set_cpus cpus]. rewrite lookup_insert_eq.
      intros z [= <-]. etrans; [|exact Eq]. unfold y, deq_ctx. by case_bool.
  - destruct Hm as [-> E]. apply Hrun in E. cbv [bind] in E.
    erewrite rq_unlock_mk in E by apply lookup_insert_eq. rewrite !insert_insert_eq in E.
    eexists _, _, v. split; [exact E|]. split_and!; [|done| |done|done|].
    + apply (sched_ok_ctx s v); [done|by apply (rep_ctx s v c x)|simpl; by apply released_free|done].
    + by apply (framed_ctx _ _ _ x).
    + intros p Hp. assert (head_of s (Rq c p) = Some (rd (rq_head x) p)) as Hhd by (simpl; by rewrite Hx).
      pose proof (rep_chain _ _ Hr _ _ Hhd) as Hc. rewrite (pick_none x Ep p Hp) in Hc. by apply chain_nil in Hc.
Qed.

(** A task taken off its list is in no list. *)
Lemma taken_idle s v a t l1 l2 : rep s v -> v a = l1 ++ t :: l2 -> idle_in (vset a (l1 ++ l2) v) t.
Proof.
  intros Hr Hv b. assert (t ∈ v a) as Ht by (rewrite Hv; apply elem_of_app; right; by left).
  destruct (decide (b = a)) as [->|Hb].
  - rewrite vset_eq. destruct (head_of s a) as [h|] eqn:E.
    + pose proof (chain_NoDup _ _ _ (rep_chain _ _ Hr a h E)) as Hnd. rewrite Hv in Hnd.
      apply NoDup_app in Hnd as (_ & Hd & Hnd). apply NoDup_cons in Hnd as [Hnt _].
      intros [Hin|Hin]%elem_of_app; [|done]. apply (Hd t Hin). by left.
    + rewrite (rep_none _ _ Hr a E) in Hv. by destruct l1.
  - rewrite vset_ne by done. intros Hin. apply Hb. by apply (rep_disj _ _ Hr b a t).
Qed.

Lemma removed_idle s v a t l : rep s v -> v a = t :: l -> idle_in (vset a l v) t.
Proof. intros Hr Hv. by apply (taken_idle s v a t [] l). Qed.

(** [enqueue_task] appends to a queue. Given lists that are represented and
    a task that is in none of them, it returns with every lock free, the task
    is the new last element of the runqueue of its base priority (the normal
    one when that is out of range), every other list is as before, and the
    task's priority is reset to its base priority. *)
Theorem enqueue_task_correct s v c x t tk :
  let p := level (base_priority tk) in
  sched_ok s v -> cpus s !! c = Some x -> tasks s !! t = Some tk -> t <> NULL -> idle_in v t ->
  exists s' tk', enqueue_task c t s = Ok (tt, s') /\
    sched_ok s' (vset (Rq c p) (v (Rq c p) ++ [t]) v) /\
    tasks s' !! t = Some tk' /\ priority tk' = base_priority tk /\ state tk' = state tk /\
    (forall u, u <> t -> unlinked <$> tasks s' !! u = unlinked <$> tasks s !! u).
Proof.
  intros p Hs Hx Ht Ht0 Hi.
  destruct (enqueue_spec s v c x t tk Hs Hx Ht Ht0 Hi) as (s' & E & Hok & Hfr & Et).
  exists s', (enq_task x tk). split_and!; try done; [by unfold enq_task; case_bool..|].
  intros u Hu. by apply (fr_tasks _ _ _ Hfr).
Qed.

(** [dequeue_task] is work conserving and first in, first out. It returns
    null exactly when the high, normal and low runqueues are all empty;
    otherwise it takes the head of one of them, which is the only change to
    the lists. *)
Theorem dequeue_task_correct s v c x :
  sched_ok s v -> cpus s !! c = Some x ->
  exists r s' v', dequeue_task c s = Ok (r, s') /\ sched_ok s' v' /\ tasks s' = tasks s /\
    (r = NULL <-> forall p, p ∈ levels -> v (Rq c p) = []) /\
    (r = NULL -> v' = v) /\
    (r <> NULL -> exists p l, p ∈ levels /\ v (Rq c p) = r :: l /\ v' = vset (Rq c p) l v /\ idle_in v' r).
Proof.
  intros Hs Hx. destruct (dequeue_spec s v c x Hs Hx) as (r & s' & v' & E & Hok & Ets & _ & Hd).
  exists r, s', v'. split_and!; [done|done|done|..]; unfold dequeued in Hd;
    destruct (pick levels x) as [p|] eqn:Ep.
  - destruct Hd as (l & Hv & _). destruct (pick_elem _ _ _ Ep) as [Hp _]. split.
    + intros ->. by destruct (rep_task s v (Rq c p) NULL (so_rep _ _ Hs)) as [? _]; [rewrite Hv; left|].
    + intros Hall. by rewrite Hall in Hv.
  - by destruct Hd as (-> & _ & Hall).
  - destruct Hd as (l & Hv & _). intros ->.
    by destruct (rep_task s v (Rq c p) NULL (so_rep _ _ Hs)) as [? _]; [rewrite Hv; left|].
  - by destruct Hd as (_ & -> & _).
  - destruct Hd as (l & Hv & -> & _). destruct (pick_elem _ _ _ Ep) as [Hp _]. intros _.
    exists p, l. split_and!; try done. by eapply removed_idle; [apply Hs|].
  - by destruct Hd as (-> & _).
Qed.
