(* ===== verification/Balance.v ===== *)
(** * Priority boost and work stealing

    [prio_boost] and [steal_task_from_cpu] of [kernel/sched/sched.c], as
    operations on the lists of [Runqueue]. *)

From S2P Require Import Prelude Lock Chain Sched Runqueue.

Lemma rep_ext s v v' : (forall a, v' a = v a) -> rep s v -> rep s v'.
Proof.
  intros E [R1 R2 R3 R4]. split.
  - intros a h. rewrite E. apply R1.
  - intros c x p. rewrite E. apply R2.
  - intros a b t. rewrite !E. apply R3.
  - intros a. rewrite E. apply R4.
Qed.

(** ** Boosting *)

(** The context after level [p + 1] was appended to level [p]. *)
Definition boost_ctx (x : cpu_context) (p : Z) : cpu_context :=
  let x1 := if rd (rq_tail x) p =? NULL
            then set_rq_head (<[p := rd (rq_head x) (p + 1)]> (rq_head x)) x else x in
  let x2 := set_rq_tail (<[p := rd (rq_tail x) (p + 1)]> (rq_tail x)) x1 in
  let x3 := set_rq_count (<[p := w32 (rd (rq_count x) p + rd (rq_count x) (p + 1))]> (rq_count x)) x2 in
  let x4 := set_rq_head (<[p + 1 := NULL]> (rq_head x3)) x3 in
  let x5 := set_rq_tail (<[p + 1 := NULL]> (rq_tail x4)) x4 in
  set_rq_count (<[p + 1 := 0]> (rq_count x5)) x5.

Lemma boost_level_run s ts cs c x p :
  let tail := rd (rq_tail x) p in
  cs !! c = Some x -> rd (rq_head x) (p + 1) <> NULL -> (tail <> NULL -> is_Some (ts !! tail)) ->
  exists ts', boost_level c p (mk s ts cs) = Ok (tt, mk s ts' (<[c := boost_ctx x p]> cs)) /\
    forall u, ts' !! u = link_tail tail (rd (rq_head x) (p + 1)) ts u.
Proof.
  intros tail Hx Hn Ht. unfold boost_level. exec_step. rewrite (proj2 (Z.eqb_neq _ _)) by done.
  fold tail. unfold boost_ctx. fold tail. destruct (Z.eqb_spec tail NULL) as [E0|E0]; cbn [negb].
  - repeat exec_step. exists ts. split; [erewrite upd_ctx_mk by find_in_store; by rewrite insert_insert_eq|].
    intros u. unfold link_tail. by rewrite decide_False by tauto.
  - destruct (Ht E0) as [tl Htl]. repeat exec_step.
    exists (<[tail := set_sched_next (rd (rq_head x) (p + 1)) tl]> ts).
    split; [erewrite upd_ctx_mk by find_in_store; by rewrite insert_insert_eq|].
    intros u. unfold link_tail. destruct (decide (u = tail)) as [->|].
    + rewrite decide_True by done. by rewrite lookup_insert_eq, Htl.
    + rewrite decide_False by tauto. by rewrite lookup_insert_ne.
Qed.

Lemma boost_ctx_fields x p :
  (forall q, rd (rq_head (boost_ctx x p)) q =
     if decide (q = p + 1) then NULL
     else if decide (q = p /\ rd (rq_tail x) p = NULL) then rd (rq_head x) (p + 1) else rd (rq_head x) q) /\
  (forall q, rd (rq_tail (boost_ctx x p)) q =
     if decide (q = p + 1) then NULL else if decide (q = p) then rd (rq_tail x) (p + 1) else rd (rq_tail x) q) /\
  (forall q, rd (rq_count (boost_ctx x p)) q =
     if decide (q = p + 1) then 0
     else if decide (q = p) then w32 (rd (rq_count x) p + rd (rq_count x) (p + 1)) else rd (rq_count x) q).
Proof.
  unfold boost_ctx. split_and!; intros q; case_bool; simpl; rewrite ?rd_insert;
    repeat (case_decide; subst; simpl); try done; try lia; try tauto; exfalso; naive_solver lia.
Qed.

(** Joining two chains at the last node of the first. *)
Lemma chain_join nxf nxf' h l h' l' :
  chain nxf h l NULL -> chain nxf h' l' NULL -> (forall u, u ∈ l -> u ∉ l') ->
  (forall u, u ∈ l -> nxf' u = if decide (last l = Some u) then Some h' else nxf u) ->
  (forall u, u ∈ l' -> nxf' u = nxf u) ->
  chain nxf' (if decide (l = []) then h' else h) (l ++ l') NULL.
Proof.
  intros Hc Hc' Hd Hl Hl'. assert (chain nxf' h' l' NULL) as Hc2 by (by apply (chain_frame nxf)).
  destruct l as [|y l _] using rev_ind; [by rewrite decide_True|].
  rewrite decide_False by (by destruct l). apply chain_app. exists h'. split; [|done].
  assert (y ∉ l) as Hy.
  { pose proof (chain_NoDup _ _ _ Hc) as Hnd. apply NoDup_app in Hnd as (_ & Hdd & _).
    intros Hin. apply (Hdd y Hin). by left. }
  apply (chain_frame (redirect nxf y h')); [|by eapply chain_redirect_last].
  intros u Hu. rewrite Hl by done. rewrite last_snoc. unfold redirect.
  destruct (decide (u = y)) as [->|]; [by rewrite decide_True|]. by rewrite decide_False by congruence.
Qed.

(** Level [p + 1] behind level [p]. *)
Definition boosted (c p : Z) (v : place -> list Z) : place -> list Z :=
  vset (Rq c (p + 1)) [] (vset (Rq c p) (v (Rq c p) ++ v (Rq c (p + 1))) v).

Lemma boosted_disj c p v : disj v -> disj (boosted c p v).
Proof.
  intros Hd a b t. unfold boosted, vset.
  repeat (case_decide; subst); try done; rewrite ?elem_of_app, ?elem_of_nil; try tauto.
  - intros [Ha|Ha] Hb; [by apply (Hd (Rq c p) b t)|]. by destruct (Hd (Rq c (p + 1)) b t Ha Hb).
  - intros Ha [Hb|Hb]; [by apply (Hd a (Rq c p) t)|]. by destruct (Hd a (Rq c (p + 1)) t Ha Hb).
  - apply Hd.
Qed.

Lemma boosted_at c p v q :
  boosted c p v (Rq c q) =
  if decide (q = p + 1) then [] else if decide (q = p) then v (Rq c p) ++ v (Rq c (p + 1)) else v (Rq c q).
Proof. unfold boosted, vset. repeat case_decide; subst; try done; congruence. Qed.

Lemma boosted_other c p v a :
  a ∉ [Rq c p; Rq c (p + 1)] -> boosted c p v a = v a.
Proof.
  rewrite !not_elem_of_cons. intros (Ha & Hb & _). unfold boosted. by rewrite !vset_ne.
Qed.

(** The last element of a queue joined to another. *)
Lemma last_join {A} (l l' : list A) : l' <> [] -> last (l ++ l') = last l'.
Proof. intros Hl. destruct l' as [|y l' _] using rev_ind; [done|]. by rewrite app_assoc, !last_snoc. Qed.

Lemma boost_rep s v c x p ts' :
  rep s v -> cpus s !! c = Some x -> rd (rq_head x) (p + 1) <> NULL ->
  (forall u, ts' !! u = link_tail (rd (rq_tail x) p) (rd (rq_head x) (p + 1)) (tasks s) u) ->
  rep (mk s ts' (<[c := boost_ctx x p]> (cpus s))) (boosted c p v).
Proof.
  intros Hr Hx Hn Hu. destruct (boost_ctx_fields x p) as (Bh & Bt & Bc).
  destruct (rep_fields _ _ Hr c x p Hx) as [Htail Hcnt].
  destruct (rep_fields _ _ Hr c x (p + 1) Hx) as [Htail' Hcnt'].
  assert (forall q, chain (nx (tasks s)) (rd (rq_head x) q) (v (Rq c q)) NULL) as Hc.
  { intros q. apply (rep_chain _ _ Hr (Rq c q)). simpl. by rewrite Hx. }
  set (l := v (Rq c p)) in *. set (l' := v (Rq c (p + 1))) in *. set (tail := rd (rq_tail x) p) in *.
  assert (l' <> []) as Hl'.
  { intros E. specialize (Hc (p + 1)). fold l' in Hc. rewrite E in Hc. done. }
  assert (forall u, nx ts' u = if decide (last l = Some u) then Some (rd (rq_head x) (p + 1)) else nx (tasks s) u) as Hns.
  { intros u. unfold nx. rewrite Hu. unfold link_tail. destruct (decide (last l = Some u)) as [El|El].
    - destruct (rep_task s v (Rq c p) u Hr) as [Hun [tu Htu]]; [by apply last_Some_elem_of|].
      rewrite El in Htail. simpl in Htail. rewrite decide_True by (by rewrite Htail). by rewrite Htu.
    - rewrite decide_False; [done|]. intros [-> Hn0]. rewrite Htail in El, Hn0. by destruct (last l). }
  assert (forall a u, a <> Rq c p -> u ∈ v a -> nx ts' u = nx (tasks s) u) as Hother.
  { intros a u Ha Hin. rewrite Hns, decide_False; [done|]. intros El%last_Some_elem_of.
    apply Ha. by apply (rep_disj _ _ Hr a (Rq c p) u). }
  apply (rep_step s _ v _ [Rq c p; Rq c (p + 1)]); [done|..].
  - intros a Ha. split_and!; [|by apply boosted_other|].
    + rewrite !not_elem_of_cons in Ha. destruct Ha as (Ha & Ha' & _). rewrite head_of_mk.
      destruct a as [d q|d| |]; try done; (destruct (decide (d = c)) as [->|]; [|done]);
        cbn [head_of]; rewrite Hx.
      * rewrite Bh. rewrite !decide_False by (intros [? _] || idtac; congruence). done.
      * simpl. f_equal. unfold boost_ctx. by case_bool.
    + intros u Hin. apply (Hother a); [|done]. intros ->. apply Ha. by left.
  - intros a Ha. rewrite head_of_mk. change (tasks (mk s ts' _)) with ts'.
    rewrite !elem_of_cons in Ha. destruct Ha as [->|[->|?%not_elem_of_nil]]; [| |done]; eexists;
      rewrite (decide_True (P := c = c)) by done; (split; [done|]); rewrite boosted_at, Bh.
    + rewrite !(decide_False (P := p = p + 1)), (decide_True (P := p = p)) by lia. fold l l' tail.
      replace (if decide (p = p /\ tail = NULL) then _ else _)
        with (if decide (l = []) then rd (rq_head x) (p + 1) else rd (rq_head x) p).
      * apply (chain_join (nx (tasks s))); try apply Hc.
        -- intros u Ha Hb. assert (Rq c p = Rq c (p + 1)) as [=] by (by apply (rep_disj _ _ Hr _ _ u)). lia.
        -- intros u _. apply Hns.
        -- intros u Hin. apply (Hother (Rq c (p + 1))); [intros [=]; lia|done].
      * destruct (decide (l = [])) as [El|El].
        -- rewrite decide_True; [done|]. by rewrite Htail, El.
        -- rewrite decide_False; [done|]. intros [_ E]. rewrite Htail in E.
           destruct (last l) as [y|] eqn:Ey; [|by apply last_None in Ey]. simpl in E.
           destruct (rep_task s v (Rq c p) y Hr) as [Hy _]; [by apply last_Some_elem_of|done].
    + by rewrite !decide_True.
  - intros d z q. cbn [mk set_cpus cpus]. destruct (decide (d = c)) as [->|].
    + rewrite lookup_insert_eq. intros [= <-]. unfold rq_fields. rewrite Bt, Bc, boosted_at. fold l l'.
      destruct (decide (q = p + 1)); [done|]. destruct (decide (q = p)) as [->|].
      * rewrite last_join by done. split; [done|]. rewrite Hcnt, Hcnt', length_app. unfold w32.
        rewrite <-Zplus_mod. f_equal. lia.
      * by apply (rep_fields _ _ Hr).
    + rewrite lookup_insert_ne by done. rewrite boosted_other; [by apply (rep_fields _ _ Hr)|].
      rewrite !not_elem_of_cons. split_and!; [congruence|congruence|apply not_elem_of_nil].
  - apply boosted_disj. exact (rep_disj _ _ Hr).
Qed.

Lemma sched_ok_ext s v v' : (forall a, v' a = v a) -> sched_ok s v -> sched_ok s v'.
Proof. intros E [R1 R2 R3 R4 R5]. split; try done. by apply (rep_ext s v). Qed.

Lemma framed_cpu T s s' c x : framed T s s' -> cpus s !! c = Some x ->
  exists x', cpus s' !! c = Some x' /\ ctx_core x' = ctx_core x.
Proof.
  intros Hf Hx. pose proof (fr_ctx _ _ _ Hf c) as E. rewrite Hx in E.
  destruct (cpus s' !! c) as [x'|]; [|done]. exists x'. simpl in E. split; [done|congruence].
Qed.

Lemma boost_level_spec s v c x p :
  sched_ok s v -> cpus s !! c = Some x ->
  exists s', boost_level c p s = Ok (tt, s') /\ sched_ok s' (boosted c p v) /\ framed (fun _ => False) s s'.
Proof.
  intros Hs Hx. pose proof Hs as [Hr Hh Hl Hd Hb].
  destruct (Z.eq_dec (rd (rq_head x) (p + 1)) NULL) as [E0|E0].
  - exists s. split_and!; [| |apply framed_refl].
    + unfold boost_level. rewrite <-(mk_id s) at 1. erewrite get_ctx_bind by done.
      rewrite E0. simpl. unfold ret. by rewrite mk_id.
    + apply (sched_ok_ext s v); [|done]. intros a.
      assert (v (Rq c (p + 1)) = []) as En.
      { assert (head_of s (Rq c (p + 1)) = Some NULL) as Hhd by (simpl; by rewrite Hx, <-E0).
        exact (chain_nil _ _ (rep_chain _ _ Hr _ _ Hhd)). }
      unfold boosted, vset. repeat case_decide; subst; try done. by rewrite En, app_nil_r.
  - destruct (boost_level_run s (tasks s) (cpus s) c x p) as (ts' & E & Hu); [done|done| |].
    { destruct (rep_tail s v c x p Hr Hx) as [[? _]|(l0 & El & _)]; [done|]. intros _.
      apply (rep_task s v (Rq c p)); [done|]. rewrite El. apply elem_of_app. right. by left. }
    rewrite mk_id in E. eexists. split; [exact E|]. split.
    + split; try done; [by apply boost_rep|]. cbn [mk set_cpus cpus]. apply map_Forall_insert_2; [|done].
      destruct (Hl c x Hx). unfold boost_ctx. by case_bool.
    + split; cbn [mk set_cpus set_tasks cpus tasks]; try done.
      * intros d. destruct (decide (d = c)) as [->|]; [|by rewrite lookup_insert_ne].
        rewrite lookup_insert_eq, Hx. simpl. f_equal. unfold boost_ctx. by case_bool.
      * intros u _. rewrite Hu. unfold link_tail. case_decide; [|done]. by destruct (tasks s !! u).
      * intros u. rewrite Hu. unfold link_tail. case_decide; [|done]. apply fmap_is_Some.
Qed.

(** The lists after [prio_boost]. *)
Definition promoted (c : Z) (v : place -> list Z) (a : place) : list Z :=
  match a with
  | Rq d p =>
      if decide (d = c) then
        if decide (p = PRIO_HIGH) then v (Rq c PRIO_HIGH) ++ v (Rq c PRIO_NORMAL)
        else if decide (p = PRIO_NORMAL) then v (Rq c PRIO_LOW)
        else if decide (p = PRIO_LOW) then [] else v a
      else v a
  | _ => v a
  end.

Lemma prio_boost_spec s v c x :
  sched_ok s v -> cpus s !! c = Some x ->
  exists s', prio_boost c s = Ok (tt, s') /\ sched_ok s' (promoted c v) /\ framed (fun _ => False) s s'.
Proof.
  intros Hs Hx. unfold prio_boost. change (seqZ PRIO_HIGH (PRIO_LOW - PRIO_HIGH)) with [0; 1]. cbn [mapM_].
  destruct (boost_level_spec s v c x 0 Hs Hx) as (s1 & E1 & Hs1 & Hf1).
  destruct (framed_cpu _ _ _ _ _ Hf1 Hx) as (x1 & Hx1 & _).
  destruct (boost_level_spec s1 _ c x1 1 Hs1 Hx1) as (s2 & E2 & Hs2 & Hf2).
  exists s2. rewrite (bind_ok _ _ _ _ _ E1), (bind_ok _ _ _ _ _ E2).
  split; [done|]. split; [|by eapply framed_trans].
  eapply sched_ok_ext; [|exact Hs2]. intros a. unfold promoted, PRIO_HIGH, PRIO_NORMAL, PRIO_LOW.
  destruct a as [d p|d| |].
  - destruct (decide (d = c)) as [->|].
    + rewrite boosted_at. simpl. rewrite !boosted_at. simpl.
      repeat (case_decide; try (subst; done)); try lia; done.
    + rewrite !boosted_other; [done|..]; rewrite !not_elem_of_cons;
        (split_and!; [congruence|congruence|apply not_elem_of_nil]).
  - rewrite !boosted_other; [done|..]; rewrite !not_elem_of_cons; (split_and!; [done|done|apply not_elem_of_nil]).
  - rewrite !boosted_other; [done|..]; rewrite !not_elem_of_cons; (split_and!; [done|done|apply not_elem_of_nil]).
  - rewrite !boosted_other; [done|..]; rewrite !not_elem_of_cons; (split_and!; [done|done|apply not_elem_of_nil]).
Qed.

(** ** Stealing *)

Definition steal_ctx (x : cpu_context) (p prev t n : Z) : cpu_context :=
  let x1 := if prev =? NULL then set_rq_head (<[p := n]> (rq_head x)) x else x in
  let x2 := if rd (rq_tail x) p =? t then set_rq_tail (<[p := prev]> (rq_tail x)) x1 else x1 in
  set_rq_count (<[p := w32 (rd (rq_count x) p - 1)]> (rq_count x)) x2.

(** Unlinking [t], whose predecessor is [prev] and successor [n]. *)
Definition unlink (ts : gmap Z task) (prev t n u : Z) : option task :=
  if decide (u = t) then set_sched_next NULL <$> ts !! t
  else if decide (u = prev /\ prev <> NULL) then set_sched_next n <$> ts !! u else ts !! u.

Lemma steal_found fuel s ts cs o x p prev t tk :
  cs !! o = Some x -> ts !! t = Some tk -> t <> NULL -> 10 <= tid tk -> prev <> t ->
  (prev <> NULL -> is_Some (ts !! prev)) ->
  exists ts', steal_level (S fuel) o p t prev (mk s ts cs) =
    Ok (t, mk s ts' (<[o := steal_ctx x p prev t (sched_next tk)]> cs)) /\
    forall u, ts' !! u = unlink ts prev t (sched_next tk) u.
Proof.
  intros Hx Ht Ht0 Htid Hpt Hprev. cbn [steal_level]. rewrite (proj2 (Z.eqb_neq _ _)) by done.
  erewrite get_task_bind by done. rewrite (proj2 (Z.leb_le _ _)) by done. unfold steal_ctx, unlink.
  destruct (Z.eqb_spec prev NULL) as [E0|E0]; cbn [negb].
  - exists (<[t := set_sched_next NULL tk]> ts). split.
    + do 2 exec_step. cbn [rq_tail set_rq_head]. destruct (rd (rq_tail x) p =? t); cbn [when].
      * by do 3 exec_step.
      * rewrite (bind_ok (ret tt) _ _ tt _ eq_refl). by do 2 exec_step.
    + intros u. case_decide as Eu; [subst u; by rewrite lookup_insert_eq, Ht|].
      rewrite decide_False by tauto. by rewrite lookup_insert_ne.
  - destruct (Hprev E0) as [pk Hpk].
    exists (<[t := set_sched_next NULL tk]> (<[prev := set_sched_next (sched_next tk) pk]> ts)). split.
    + do 2 exec_step. destruct (rd (rq_tail x) p =? t); cbn [when].
      * by do 3 exec_step.
      * rewrite (bind_ok (ret tt) _ _ tt _ eq_refl). by do 2 exec_step.
    + intros u. case_decide as Eu; [subst u; by rewrite lookup_insert_eq, Ht|].
      rewrite lookup_insert_ne by done. destruct (decide (u = prev)) as [->|].
      * rewrite decide_True by done. by rewrite lookup_insert_eq, Hpk.
      * rewrite decide_False by tauto. by rewrite lookup_insert_ne.
Qed.

(** A task that may migrate. *)
Definition movable (ts : gmap Z task) (u : Z) : bool :=
  match ts !! u with Some tk => 10 <=? tid tk | None => false end.

Lemma steal_level_run fuel s ts cs o x p l1 l2 h :
  cs !! o = Some x -> chain (nx ts) h (l1 ++ l2) NULL -> (length l2 < fuel)%nat ->
  Forall (fun u => movable ts u = false) l1 ->
  let m := steal_level fuel o p (default NULL (head l2)) (default NULL (last l1)) (mk s ts cs) in
  (Forall (fun u => movable ts u = false) l2 /\ m = Ok (NULL, mk s ts cs)) \/
  exists l2a t l2b tk ts', l2 = l2a ++ t :: l2b /\ ts !! t = Some tk /\ movable ts t = true /\
    let prev := default NULL (last (l1 ++ l2a)) in
    Forall (fun u => movable ts u = false) l2a /\
    m = Ok (t, mk s ts' (<[o := steal_ctx x p prev t (sched_next tk)]> cs)) /\
    forall u, ts' !! u = unlink ts prev t (sched_next tk) u.
Proof.
  intros Hx. revert fuel l1 h. induction l2 as [|t l2 IH]; intros fuel l1 h Hc Hf Hl1 m.
  { left. split; [done|]. unfold m. by destruct fuel; [simpl in Hf; lia|]. }
  destruct fuel as [|fuel]; [simpl in Hf; lia|].
  assert (t <> NULL /\ is_Some (nx ts t)) as [Ht0 Hnt].
  { apply (chain_elem _ _ _ _ t Hc). apply elem_of_app. right. by left. }
  apply fmap_is_Some in Hnt as [tk Htk]. pose proof (chain_NoDup _ _ _ Hc) as Hnd.
  destruct (movable ts t) eqn:Em.
  - right. exists [], t, l2, tk. rewrite app_nil_r.
    destruct (steal_found fuel s ts cs o x p (default NULL (last l1)) t tk) as (ts' & E & Hu); try done.
    + unfold movable in Em. rewrite Htk in Em. lia.
    + intros E. destruct (last l1) as [y|] eqn:Ey; simpl in E; [|done]. subst y.
      apply NoDup_app in Hnd as (_ & Hd & _). apply (Hd t); [by apply last_Some_elem_of|by left].
    + destruct (last l1) as [y|] eqn:Ey; simpl; [intros _|done].
      apply (fmap_is_Some sched_next). apply (chain_elem _ _ _ _ y Hc).
      apply elem_of_app. left. by apply last_Some_elem_of.
    + exists ts'. split_and!; done.
  - assert (sched_next tk = default NULL (head l2)) as En.
    { apply chain_app in Hc as (m' & _ & Hc2). destruct Hc2 as (_ & _ & n & Hn & Hc2).
      unfold nx in Hn. rewrite Htk in Hn. injection Hn as <-. by apply chain_head in Hc2. }
    rewrite cons_middle, app_assoc in Hc.
    destruct (IH fuel (l1 ++ [t]) h Hc) as [[Hall E]|(l2a & t' & l2b & tk' & ts' & El & Ht' & Hm' & Hall & E & Hu)].
    { simpl in Hf. lia. }
    { apply Forall_app. split; [done|]. by apply Forall_singleton. }
    all: rewrite last_snoc in E; simpl in E.
    all: assert (m = steal_level fuel o p (default NULL (head l2)) t (mk s ts cs)) as Em'
      by (unfold m; cbn [steal_level head default]; rewrite (proj2 (Z.eqb_neq _ _)) by done;
          erewrite get_task_bind by done; unfold movable in Em; rewrite Htk in Em; rewrite Em; by rewrite En).
    + left. split; [by constructor|]. by rewrite Em'.
    + right. exists (t :: l2a), t', l2b, tk', ts'. rewrite (cons_middle t l1 l2a), app_assoc, El.
      split_and!; try done. intros prev. split_and!; [by constructor|by rewrite Em'|done].
Qed.

Lemma steal_ctx_fields x p prev t n :
  (forall q, rd (rq_head (steal_ctx x p prev t n)) q =
     if decide (q = p /\ prev = NULL) then n else rd (rq_head x) q) /\
  (forall q, rd (rq_tail (steal_ctx x p prev t n)) q =
     if decide (q = p /\ rd (rq_tail x) p = t) then prev else rd (rq_tail x) q) /\
  (forall q, rd (rq_count (steal_ctx x p prev t n)) q =
     if decide (q = p) then w32 (rd (rq_count x) p - 1) else rd (rq_count x) q).
Proof.
  unfold steal_ctx. split_and!; intros q;
    (destruct (Z.eqb_spec prev NULL), (Z.eqb_spec (rd (rq_tail x) p) t)); simpl; rewrite ?rd_insert;
    repeat (case_decide; subst; simpl); try done; try tauto; exfalso; intuition congruence.
Qed.

(** Removing a node from the middle of a chain. *)
Lemma chain_remove nxf nxf' h l1 t l2 n :
  chain nxf h (l1 ++ t :: l2) NULL -> nxf t = Some n ->
  (forall u, u ∈ l1 -> nxf' u = if decide (last l1 = Some u) then Some n else nxf u) ->
  (forall u, u ∈ l2 -> nxf' u = nxf u) ->
  chain nxf' (if decide (l1 = []) then n else h) (l1 ++ l2) NULL.
Proof.
  intros Hc Hn Hl1 Hl2. pose proof (chain_NoDup _ _ _ Hc) as Hnd.
  apply chain_app in Hc as (m & Hc1 & Hc2). destruct Hc2 as (-> & _ & n' & Hn' & Hc2).
  rewrite Hn in Hn'. injection Hn' as <-.
  assert (chain nxf' n l2 NULL) as Hc3 by (by apply (chain_frame nxf)).
  destruct l1 as [|y l1 _] using rev_ind; [by rewrite decide_True|].
  rewrite decide_False by (by destruct l1). apply chain_app. exists n. split; [|done].
  assert (y ∉ l1) as Hy.
  { apply NoDup_app in Hnd as (Hnd & _). apply NoDup_app in Hnd as (_ & Hd & _).
    intros Hin. apply (Hd y Hin). by left. }
  apply (chain_frame (redirect nxf y n)); [|by eapply chain_redirect_last].
  intros u Hu. rewrite Hl1 by done. rewrite last_snoc. unfold redirect.
  destruct (decide (u = y)) as [->|]; [by rewrite decide_True|]. by rewrite decide_False by congruence.
Qed.

Lemma last_remove (l1 l2 : list Z) t :
  NoDup (l1 ++ t :: l2) -> t <> NULL ->
  default NULL (last (l1 ++ l2)) =
  if decide (default NULL (last (l1 ++ t :: l2)) = t) then default NULL (last l1)
  else default NULL (last (l1 ++ t :: l2)).
Proof.
  intros Hnd Ht. destruct l2 as [|y l2 _] using rev_ind.
  - by rewrite app_nil_r, last_snoc, decide_True.
  - rewrite !app_comm_cons, !app_assoc, !last_snoc. simpl. rewrite decide_False; [done|]. intros ->.
    apply NoDup_app in Hnd as (_ & _ & Hnd). apply NoDup_cons in Hnd as [Hnd _]. apply Hnd.
    apply elem_of_app. right. by left.
Qed.

Lemma steal_rep s v o x y p l1 t l2 tk ts' :
  let prev := default NULL (last l1) in
  rep s v -> cpus s !! o = Some x -> v (Rq o p) = l1 ++ t :: l2 -> tasks s !! t = Some tk ->
  (forall u, ts' !! u = unlink (tasks s) prev t (sched_next tk) u) ->
  rq_head y = rq_head (steal_ctx x p prev t (sched_next tk)) ->
  rq_tail y = rq_tail (steal_ctx x p prev t (sched_next tk)) ->
  rq_count y = rq_count (steal_ctx x p prev t (sched_next tk)) -> sleeping_list y = sleeping_list x ->
  rep (mk s ts' (<[o := y]> (cpus s))) (vset (Rq o p) (l1 ++ l2) v).
Proof.
  intros prev Hr Hx Hv Ht Hu Eh Et Ec Es.
  destruct (steal_ctx_fields x p prev t (sched_next tk)) as (Bh & Bt & Bc).
  destruct (rep_fields _ _ Hr o x p Hx) as [Htail Hcnt]. rewrite Hv in Htail, Hcnt.
  assert (chain (nx (tasks s)) (rd (rq_head x) p) (l1 ++ t :: l2) NULL) as Hc.
  { rewrite <-Hv. apply (rep_chain _ _ Hr (Rq o p)). simpl. by rewrite Hx. }
  assert (forall u, u ∈ l1 ++ t :: l2 -> u ∈ v (Rq o p)) as Hin by (by rewrite Hv).
  assert (forall u, u ∈ l1 -> u <> NULL /\ u <> t) as Hl1.
  { intros u Hu1. split; [apply (rep_task s v (Rq o p)); [done|]; apply Hin, elem_of_app; by left|].
    intros ->. pose proof (chain_NoDup _ _ _ Hc) as (_ & Hd & _)%NoDup_app. apply (Hd t Hu1). by left. }
  assert (t <> NULL) as Ht0.
  { apply (rep_task s v (Rq o p)); [done|]. apply Hin, elem_of_app. right. by left. }
  assert (forall u, u <> t -> nx ts' u = if decide (last l1 = Some u) then Some (sched_next tk) else nx (tasks s) u) as Hns.
  { intros u Hut. unfold nx. rewrite Hu. unfold unlink. rewrite decide_False by done.
    unfold prev. destruct (decide (last l1 = Some u)) as [El|El].
    - rewrite El. simpl. pose proof (last_Some_elem_of _ _ El) as Hul. destruct (Hl1 u Hul) as [Hu0 _].
      rewrite decide_True by done. destruct (rep_task s v (Rq o p) u Hr) as [_ [tu ->]]; [|done].
      apply Hin, elem_of_app. by left.
    - rewrite decide_False; [done|]. intros [-> Hn0]. by destruct (last l1). }
  assert (forall a u, a <> Rq o p -> u ∈ v a -> nx ts' u = nx (tasks s) u) as Hother.
  { intros a u Ha Hua. rewrite Hns.
    - rewrite decide_False; [done|]. intros El%last_Some_elem_of. apply Ha.
      apply (rep_disj _ _ Hr a (Rq o p) u Hua), Hin, elem_of_app. by left.
    - intros ->. apply Ha, (rep_disj _ _ Hr a (Rq o p) t Hua), Hin, elem_of_app. right. by left. }
  apply (rep_step s _ v _ [Rq o p]); [done|..].
  - intros a Ha. rewrite not_elem_of_cons in Ha. destruct Ha as [Ha _]. split_and!; [|by apply vset_ne|intros u Hin'; by apply (Hother a)].
    rewrite head_of_mk. destruct a as [d q|d| |]; try done; (destruct (decide (d = o)) as [->|]; [|done]);
      cbn [head_of]; rewrite Hx; [|by rewrite Es].
    rewrite Eh, Bh, decide_False; [done|]. by intros [-> _].
  - intros a ->%list_elem_of_singleton. rewrite head_of_mk, decide_True by done. eexists. split; [done|].
    change (tasks (mk s ts' _)) with ts'. rewrite vset_eq, Eh, Bh.
    replace (if decide (p = p /\ prev = NULL) then _ else _)
      with (if decide (l1 = []) then sched_next tk else rd (rq_head x) p).
    + apply (chain_remove (nx (tasks s)) _ _ l1 t); [done|unfold nx; by rewrite Ht|..].
      * intros u Hul. apply Hns. by apply Hl1.
      * intros u Hul. pose proof (chain_NoDup _ _ _ Hc) as (_ & Hd & Hnd)%NoDup_app.
        apply NoDup_cons in Hnd as [Hnt _]. rewrite Hns by (by intros ->).
        rewrite decide_False; [done|]. intros El%last_Some_elem_of. apply (Hd u El). by right.
    + unfold prev. destruct (decide (l1 = [])) as [->|El]; [by rewrite decide_True|].
      rewrite decide_False; [done|]. intros [_ E]. destruct (last l1) as [z|] eqn:Ez; [|by apply last_None in Ez].
      simpl in E. by destruct (Hl1 z (last_Some_elem_of _ _ Ez)).
  - intros d z q. cbn [mk set_cpus cpus]. destruct (decide (d = o)) as [->|].
    + rewrite lookup_insert_eq. intros [= <-]. unfold rq_fields. rewrite Et, Ec, Bt, Bc.
      destruct (decide (q = p)) as [->|].
      * rewrite vset_eq. rewrite (last_remove l1 l2 t (chain_NoDup _ _ _ Hc) Ht0), <-Htail. fold prev. split.
        -- destruct (decide (rd (rq_tail x) p = t)); [by rewrite decide_True|]. by rewrite decide_False by tauto.
        -- rewrite Hcnt, !length_app. simpl. rewrite Nat.add_succ_r. apply w32_pred.
      * rewrite vset_ne by congruence. rewrite (decide_False (P := q = p /\ _)) by tauto. by apply (rep_fields _ _ Hr).
    + rewrite lookup_insert_ne by done. rewrite vset_ne by congruence. by apply (rep_fields _ _ Hr).
  - apply disj_vset; [exact (rep_disj _ _ Hr)|]. intros u Hu'. left. apply Hin.
    apply elem_of_app in Hu' as [?|?]; apply elem_of_app; [by left|right; by right].
Qed.

Lemma rep_length s v a : rep s v -> (length (v a) < S (size (tasks s)))%nat.
Proof.
  intros Hr. apply fuel_enough; [|intros u Hu; by apply (rep_task s v a u Hr)].
  destruct (head_of s a) as [h|] eqn:E; [|rewrite (rep_none _ _ Hr a E); apply NoDup_nil_2].
  exact (chain_NoDup _ _ _ (rep_chain _ _ Hr a h E)).
Qed.

(** The victim: the first migratable task of the first level that has one. *)
Definition victim (ts : gmap Z task) (v : place -> list Z) (o p r : Z) (l1 l2 : list Z) : Prop :=
  v (Rq o p) = l1 ++ r :: l2 /\ Forall (fun u => movable ts u = false) l1 /\ movable ts r = true.

Lemma steal_levels_run ps s v o x x0 :
  rep s v -> cpus s !! o = Some x -> rq_head x0 = rq_head x ->
  let m := steal_levels ps o (mk s (tasks s) (<[o := x0]> (cpus s))) in
  ((forall p, p ∈ ps -> Forall (fun u => movable (tasks s) u = false) (v (Rq o p))) /\
    m = Ok (NULL, mk s (tasks s) (<[o := x0]> (cpus s)))) \/
  exists p r l1 l2 tk ts', p ∈ ps /\ victim (tasks s) v o p r l1 l2 /\ tasks s !! r = Some tk /\ r <> NULL /\
    let prev := default NULL (last l1) in
    m = Ok (r, mk s ts' (<[o := steal_ctx x0 p prev r (sched_next tk)]> (cpus s))) /\
    forall u, ts' !! u = unlink (tasks s) prev r (sched_next tk) u.
Proof.
  intros Hr Hx E0. induction ps as [|p ps IH].
  { left. split; [|done]. by intros p ?%not_elem_of_nil. }
  assert (chain (nx (tasks s)) (rd (rq_head x0) p) (v (Rq o p)) NULL) as Hc.
  { rewrite E0. apply (rep_chain _ _ Hr (Rq o p)). simpl. by rewrite Hx. }
  cbn [steal_levels]. erewrite get_ctx_bind by apply lookup_insert_eq. rewrite fuel_bind.
  rewrite (chain_head _ _ _ Hc).
  destruct (steal_level_run (S (size (tasks s))) s (tasks s) (<[o := x0]> (cpus s)) o x0 p [] (v (Rq o p)) _
    ltac:(apply lookup_insert_eq) Hc (rep_length s v _ Hr) ltac:(done))
    as [[Hall E]|(l1 & r & l2 & tk & ts' & El & Htk & Hm & Hall & E & Hu)]; cbn [last default] in E.
  - rewrite (bind_ok _ _ _ _ _ E). change (negb (NULL =? NULL)) with false. cbv iota.
    destruct IH as [[Hps ->]|(q & r & l1 & l2 & tk & ts' & Hq & ?)].
    + left. split; [|done]. intros q [->|Hq]%elem_of_cons; [done|by apply Hps].
    + right. exists q, r, l1, l2, tk, ts'. split; [by right|done].
  - right. assert (r <> NULL) as Hr0.
    { apply (rep_task s v (Rq o p)); [done|]. rewrite El. apply elem_of_app. right. by left. }
    exists p, r, l1, l2, tk, ts'. split; [by left|]. split; [done|]. split_and!; try done.
    rewrite (bind_ok _ _ _ _ _ E), (proj2 (Z.eqb_neq _ _)) by done. cbn [negb]. unfold ret.
    by rewrite insert_insert_eq.
Qed.

(** Taking the lock of a runqueue without waiting. *)
Lemma rq_trylock_mk s ts cs c x :
  cs !! c = Some x -> hart_ok (s_hart s) -> g_lock_enabled (s_hart s) = true -> lock_free (rq_lock x) ->
  spin_trylock (rq_lock_at c) (mk s ts cs) =
  Ok (true, mk s ts (<[c := set_rq_lock (held (s_hart s) (rq_lock x)) x]> cs)).
Proof.
  intros Hx Hh He Hf. unfold lock_free in Hf. destruct (Hh He) as [id Hid].
  unfold spin_trylock, rq_lock_at. cbv [bind gets modify]. rewrite (lget_ctx_lock _ _ _ _ _ c x Hx).
  rewrite <-Hf, !Z.eqb_refl. cbn [negb]. rewrite (lset_ctx_lock _ _ _ _ _ c x _ Hx).
  unfold get_cpu_id, held. cbv [bind gets]. cbn [hart_of sched_hart lget mk set_cpus set_tasks s_hart].
  rewrite Hid, He. cbn [deref ret from_option default]. unfold ret.
  change (set_cpus ?cs0 (set_tasks ?ts0 s)) with (mk s ts0 cs0).
  rewrite (lset_ctx_lock _ _ _ _ _ c _ _ (lookup_insert_eq _ _ _)), insert_insert_eq.
  by rewrite Hf.
Qed.

Lemma steal_ctx_core x p prev t n :
  ctx_core (steal_ctx x p prev t n) = ctx_core x /\ rq_lock (steal_ctx x p prev t n) = rq_lock x /\
  sleep_lock (steal_ctx x p prev t n) = sleep_lock x /\ sleeping_list (steal_ctx x p prev t n) = sleeping_list x.
Proof. unfold steal_ctx. by repeat case_bool. Qed.

(** What [steal_task_from_cpu] does to the lists. *)
Definition stolen (s : sched) (v : place -> list Z) (o r : Z) (v' : place -> list Z) : Prop :=
  (r = NULL /\ v' = v /\
     forall p, p ∈ levels -> Forall (fun u => movable (tasks s) u = false) (v (Rq o p))) \/
  (r <> NULL /\ exists p l1 l2, p ∈ levels /\ victim (tasks s) v o p r l1 l2 /\ v' = vset (Rq o p) (l1 ++ l2) v).

Lemma steal_spec s v o x :
  sched_ok s v -> g_lock_enabled (s_hart s) = true -> cpus s !! o = Some x ->
  exists r s' v', steal_task_from_cpu o s = Ok (r, s') /\ sched_ok s' v' /\
    framed (fun _ => False) s s' /\ stolen s v o r v'.
Proof.
  intros Hs He Hx. pose proof Hs as [Hr Hh Hl Hd Hb]. destruct (Hl o x Hx) as [Hl1 Hl2].
  set (x0 := set_rq_lock (held (s_hart s) (rq_lock x)) x).
  assert (steal_task_from_cpu o s =
    (st <- steal_levels levels o ;; spin_unlock (rq_lock_at o) ;;; ret st)
      (mk s (tasks s) (<[o := x0]> (cpus s)))) as ->.
  { unfold steal_task_from_cpu. rewrite <-(mk_id s) at 1. erewrite get_ctx_bind by done.
    by rewrite (bind_ok _ _ _ _ _ (rq_trylock_mk s _ _ o x Hx Hh He Hl1)). }
  destruct (steal_levels_run levels s v o x x0 Hr Hx eq_refl)
    as [[Hall E]|(p & r & l1 & l2 & tk & ts' & Hp & Hv & Htk & Hr0 & E & Hu)];
    rewrite (bind_ok _ _ _ _ _ E); cbv [bind]; erewrite rq_unlock_mk by apply lookup_insert_eq;
    rewrite insert_insert_eq; unfold ret.
  - eexists _, _, v. split; [done|]. split_and!.
    + apply (sched_ok_ctx s v); [done|by apply (rep_ctx s v o x)|simpl; by apply released_free|done].
    + by apply (framed_ctx _ _ _ x).
    + by left.
  - destruct (steal_ctx_core x0 p (default NULL (last l1)) r (sched_next tk)) as (C1 & C2 & C3 & C4).
    set (y := steal_ctx x0 p (default NULL (last l1)) r (sched_next tk)) in *.
    eexists _, _, (vset (Rq o p) (l1 ++ l2) v). split; [done|]. split_and!.
    + split; try done.
      * apply (steal_rep s v o x _ p l1 r l2 tk); try done; [by destruct Hv|..];
          unfold y, steal_ctx; by repeat case_bool.
      * cbn [mk set_cpus cpus]. apply map_Forall_insert_2; [|done].
        change (lock_free (unheld (s_hart s) (rq_lock y)) /\ lock_free (sleep_lock y)). rewrite C2, C3.
        split; [by apply released_free|done].
    + split; cbn [mk set_cpus set_tasks cpus tasks]; try done.
      * intros d. destruct (decide (d = o)) as [->|]; [|by rewrite lookup_insert_ne].
        rewrite lookup_insert_eq, Hx. simpl. f_equal. exact C1.
      * intros u _. rewrite Hu. unfold unlink. case_decide as E1; [subst u; by rewrite Htk|].
        case_decide; [|done]. by destruct (tasks s !! u).
      * intros u. rewrite Hu. unfold unlink. case_decide as E1; [subst u; by rewrite Htk|].
        case_decide; [apply fmap_is_Some|done].
    + right. split; [done|]. by exists p, l1, l2.
Qed.

(** [prio_boost] moves whole levels up without losing, duplicating or
    reordering a task: the high queue becomes the old high queue followed by
    the old normal one, the normal queue the old low one, the low queue
    becomes empty, and every other list, every lock and every task's fields
    but its link are as before. *)
Theorem prio_boost_correct s v c x :
  sched_ok s v -> cpus s !! c = Some x ->
  exists s', prio_boost c s = Ok (tt, s') /\ sched_ok s' (promoted c v) /\
    (forall u, unlinked <$> tasks s' !! u = unlinked <$> tasks s !! u) /\
    promoted c v (Rq c PRIO_HIGH) = v (Rq c PRIO_HIGH) ++ v (Rq c PRIO_NORMAL) /\
    promoted c v (Rq c PRIO_NORMAL) = v (Rq c PRIO_LOW) /\ promoted c v (Rq c PRIO_LOW) = [].
Proof.
  intros Hs Hx. destruct (prio_boost_spec s v c x Hs Hx) as (s' & E & Hok & Hf).
  exists s'. split_and!; [done|done|intros u; apply (fr_tasks _ _ _ Hf); tauto|..];
    unfold promoted; by rewrite decide_True.
Qed.

(** [steal_task_from_cpu] returns the first task with an identifier of at
    least 10 of the first level that has one and unlinks exactly that task,
    the tail pointer and the length of the queue included; it returns null,
    and changes no list, when the CPU has no such task. *)
Theorem steal_task_from_cpu_correct s v o x :
  sched_ok s v -> g_lock_enabled (s_hart s) = true -> cpus s !! o = Some x ->
  exists r s' v', steal_task_from_cpu o s = Ok (r, s') /\ sched_ok s' v' /\ stolen s v o r v' /\
    (r <> NULL -> idle_in v' r) /\ forall u, unlinked <$> tasks s' !! u = unlinked <$> tasks s !! u.
Proof.
  intros Hs He Hx. destruct (steal_spec s v o x Hs He Hx) as (r & s' & v' & E & Hok & Hf & Hst).
  exists r, s', v'. split_and!; try done; [|intros u; apply (fr_tasks _ _ _ Hf); tauto].
  intros Hr0. destruct Hst as [(? & _)|(_ & p & l1 & l2 & _ & Hv & ->)]; [done|].
  by apply (taken_idle s v (Rq o p) r l1 l2 (so_rep _ _ Hs)), Hv.
Qed.
