(* ===== verification/Schedule.v ===== *)
(** * The scheduling step

    [schedule] of [kernel/sched/sched.c] as a step on the lists of [Runqueue]:
    which task runs next, where the outgoing one goes, and that nothing else
    changes. *)

From S2P Require Import Prelude Lock Chain Sched Runqueue Balance.

(** ** Steps that touch no list *)

Lemma rep_same s s' v :
  tasks s' = tasks s -> cpus s' = cpus s -> blocked_task_list s' = blocked_task_list s ->
  dead_task_list s' = dead_task_list s -> rep s v -> rep s' v.
Proof.
  intros Et Ec Eb Ed [R1 R2 R3 R4].
  assert (forall a, head_of s' a = head_of s a) as Eh.
  { intros []; cbn [head_of]; by rewrite ?Ec, ?Eb, ?Ed. }
  split; [|by rewrite Ec|done|].
  - intros a h. rewrite Eh, Et. apply R1.
  - intros a. rewrite Eh. apply R4.
Qed.

(** A change of a task's fields other than its link. *)
Lemma rep_upd s v t tk tk' :
  rep s v -> tasks s !! t = Some tk -> sched_next tk' = sched_next tk ->
  rep (mk s (<[t := tk']> (tasks s)) (cpus s)) v.
Proof.
  intros Hr Ht En. apply (rep_step s _ v _ []); [done|..].
  - intros a _. split_and!; [by destruct a|done|]. intros u _. unfold nx. cbn [mk set_cpus set_tasks tasks].
    destruct (decide (u = t)) as [->|]; [|by rewrite lookup_insert_ne].
    rewrite lookup_insert_eq, Ht. simpl. by rewrite En.
  - by intros a ?%not_elem_of_nil.
  - intros c x p Hx. by apply (rep_fields _ _ Hr).
  - exact (rep_disj _ _ Hr).
Qed.

Lemma sched_ok_upd s v t tk tk' :
  sched_ok s v -> tasks s !! t = Some tk -> sched_next tk' = sched_next tk ->
  sched_ok (mk s (<[t := tk']> (tasks s)) (cpus s)) v.
Proof. intros [Hr Hh Hl Hd Hb] Ht En. split; try done. by apply (rep_upd s v t tk). Qed.

Lemma framed_upd (T : Z -> Prop) s t tk tk' :
  T t -> tasks s !! t = Some tk -> framed T s (mk s (<[t := tk']> (tasks s)) (cpus s)).
Proof.
  intros HT Ht. split; cbn [mk set_cpus set_tasks tasks cpus]; try done.
  - intros u Hu. rewrite lookup_insert_ne; [done|]. by intros ->.
  - intros u. destruct (decide (u = t)) as [->|]; [|by rewrite lookup_insert_ne]. by rewrite lookup_insert_eq, Ht.
Qed.

Lemma framed_task T s s' t tk : framed T s s' -> tasks s !! t = Some tk -> ~ T t ->
  exists tk', tasks s' !! t = Some tk' /\ unlinked tk' = unlinked tk.
Proof.
  intros Hf Ht HT. pose proof (fr_tasks _ _ _ Hf t HT) as E. rewrite Ht in E.
  destruct (tasks s' !! t) as [tk'|]; [|done]. exists tk'. split; [done|]. simpl in E. congruence.
Qed.

Lemma framed_movable T s s' u : framed T s s' -> ~ T u -> movable (tasks s') u = movable (tasks s) u.
Proof.
  intros Hf Hu. pose proof (fr_tasks _ _ _ Hf u Hu) as E. unfold movable.
  destruct (tasks s' !! u) as [a|], (tasks s !! u) as [b|]; simpl in E; try done.
  injection E as E. by rewrite E.
Qed.

Lemma framed_table T s s' : framed T s s' -> cpu_table s' = cpu_table s.
Proof. by intros [-> _ _ _]. Qed.

(** ** The outgoing task *)

Definition runnable (tk : task) : bool :=
  bool_decide (state tk = TASK_RUNNING) && negb (priority tk =? PRIO_IDLE).

Definition saved (x : cpu_context) (frame : Z) (tk : task) : task :=
  let tk1 := set_rsp frame tk in
  let tk2 := if runnable tk then enq_task x (set_state TASK_READY tk1) else tk1 in
  if 10 <=? tid tk then set_task_cpu NO_CPU tk2 else tk2.

(** The lists after the outgoing task was put back. *)
Definition requeued (c cur : Z) (tk : task) (v : place -> list Z) : place -> list Z :=
  let p := level (base_priority tk) in
  if runnable tk then vset (Rq c p) (v (Rq c p) ++ [cur]) v else v.

Lemma put_current_spec s v c x cur tk frame :
  sched_ok s v -> cpus s !! c = Some x -> cur <> NULL -> tasks s !! cur = Some tk ->
  (runnable tk = true -> idle_in v cur) ->
  exists s', put_current c cur frame s = Ok (tt, s') /\ sched_ok s' (requeued c cur tk v) /\
    framed (fun u => u = cur) s s' /\ tasks s' !! cur = Some (saved x frame tk).
Proof.
  intros Hs Hx Hc Ht Hi. set (s1 := mk s (<[cur := set_rsp frame tk]> (tasks s)) (cpus s)).
  assert (put_current c cur frame s =
    (when (runnable tk) (upd_task cur (set_state TASK_READY) ;;; enqueue_task c cur) ;;;
     t <- get_task cur ;; when (10 <=? tid t) (upd_task cur (set_task_cpu NO_CPU))) s1) as ->.
  { unfold put_current. rewrite (proj2 (Z.eqb_neq _ _)) by done. cbn [negb when].
    rewrite <-(mk_id s) at 1. by repeat exec_step. }
  assert (sched_ok s1 v) as Hs1 by (by apply (sched_ok_upd s v cur tk)).
  assert (framed (fun u => u = cur) s s1) as Hf1 by (by apply (framed_upd _ s cur tk)).
  assert (exists s2 tk2, when (runnable tk) (upd_task cur (set_state TASK_READY) ;;; enqueue_task c cur) s1 = Ok (tt, s2) /\
    sched_ok s2 (requeued c cur tk v) /\ framed (fun u => u = cur) s s2 /\ tasks s2 !! cur = Some tk2 /\
    tk2 = if runnable tk then enq_task x (set_state TASK_READY (set_rsp frame tk)) else set_rsp frame tk)
    as (s2 & tk2 & E2 & Hs2 & Hf2 & Ht2 & Etk2).
  { unfold requeued. destruct (runnable tk); cbn [when].
    - unfold s1 at 1. erewrite upd_task_bind by apply lookup_insert_eq. rewrite insert_insert_eq.
      set (s1' := mk s (<[cur := set_state TASK_READY (set_rsp frame tk)]> (tasks s)) (cpus s)).
      destruct (enqueue_spec s1' v c x cur (set_state TASK_READY (set_rsp frame tk))) as (s2 & E & Hok & Hf & Et); try done.
      + by apply (sched_ok_upd s v cur tk).
      + apply lookup_insert_eq.
      + by apply Hi.
      + exists s2, (enq_task x (set_state TASK_READY (set_rsp frame tk))). split_and!; try done.
        eapply framed_trans; [|exact Hf]. by apply (framed_upd _ s cur tk).
    - exists s1, (set_rsp frame tk). split_and!; try done. apply lookup_insert_eq. }
  rewrite (bind_ok _ _ _ _ _ E2). rewrite <-(mk_id s2). erewrite get_task_bind by done.
  assert (tid tk2 = tid tk) as Etid.
  { rewrite Etk2. unfold enq_task. destruct (runnable tk); [by case_bool|done]. }
  unfold saved. rewrite Etid, <-Etk2. destruct (10 <=? tid tk); cbn [when].
  - rewrite (upd_task_mk s2 _ _ cur tk2) by done. eexists. split; [done|]. split_and!.
    + by apply (sched_ok_upd s2 _ cur tk2).
    + eapply framed_trans; [exact Hf2|]. by apply (framed_upd _ s2 cur tk2).
    + apply lookup_insert_eq.
  - exists s2. unfold ret. by rewrite mk_id.
Qed.

(** ** The incoming task *)

(** The contexts of [cpu_table] exist. *)
Definition table_ok (s : sched) : Prop :=
  forall i, rd (cpu_table s) i <> NULL -> is_Some (cpus s !! rd (cpu_table s) i).

(** The other CPU behind entry [i] of the table. *)
Definition other_cpu (s : sched) (c i o : Z) : Prop :=
  0 <= i < 32 /\ rd (cpu_table s) i = o /\ o <> NULL /\ o <> c.

(** Which task runs next, and the lists it leaves. *)
Inductive chosen (s : sched) (v : place -> list Z) (c : Z) (x : cpu_context) : Z -> (place -> list Z) -> Prop :=
| ChosenLocal p r l :
    p ∈ levels -> v (Rq c p) = r :: l -> chosen s v c x r (vset (Rq c p) l v)
| ChosenStolen i o p r l1 l2 :
    (forall q, q ∈ levels -> v (Rq c q) = []) -> other_cpu s c i o -> p ∈ levels ->
    victim (tasks s) v o p r l1 l2 -> chosen s v c x r (vset (Rq o p) (l1 ++ l2) v)
| ChosenIdle :
    (forall q, q ∈ levels -> v (Rq c q) = []) ->
    (forall i o q, other_cpu s c i o -> q ∈ levels -> Forall (fun u => movable (tasks s) u = false) (v (Rq o q))) ->
    chosen s v c x (idle_task x) v.

Lemma get_cpu_by_id_eq s i : 0 <= i < 32 -> get_cpu_by_id i s = Ok (rd (cpu_table s) i, s).
Proof. intros Hi. unfold get_cpu_by_id. by destruct (Z.leb_spec 32 i); [lia|]. Qed.

Lemma steal_from_spec ids s v c :
  sched_ok s v -> g_lock_enabled (s_hart s) = true -> table_ok s -> (forall i, i ∈ ids -> 0 <= i < 32) ->
  exists r s' v', steal_from ids c s = Ok (r, s') /\ sched_ok s' v' /\ framed (fun _ => False) s s' /\
    ((r = NULL /\ v' = v /\ forall i o q, i ∈ ids -> other_cpu s c i o -> q ∈ levels ->
        Forall (fun u => movable (tasks s) u = false) (v (Rq o q))) \/
     (r <> NULL /\ exists i o p l1 l2, other_cpu s c i o /\ p ∈ levels /\ victim (tasks s) v o p r l1 l2 /\
        v' = vset (Rq o p) (l1 ++ l2) v)).
Proof.
  revert s. induction ids as [|i ids IH]; intros s Hs He Ht Hids.
  { exists NULL, s, v. split_and!; [done|done|apply framed_refl|]. left. split_and!; [done|done|].
    by intros i o q ?%not_elem_of_nil. }
  assert (0 <= i < 32) as Hi by (apply Hids; by left). cbn [steal_from].
  rewrite (bind_ok _ _ _ _ _ (get_cpu_by_id_eq s i Hi)). set (o := rd (cpu_table s) i).
  assert (forall j, j ∈ ids -> 0 <= j < 32) as Hids' by (intros j Hj; apply Hids; by right).
  destruct ((o =? NULL) || (o =? c)) eqn:Eo.
  - destruct (IH s Hs He Ht Hids') as (r & s' & v' & E & Hok & Hf & Hm). exists r, s', v'. split_and!; [done..|].
    destruct Hm as [(-> & -> & Hm)|Hm]; [left|by right]. split_and!; [done|done|].
    intros j o' q [->|Hj]%elem_of_cons (Hj' & <- & Ho1 & Ho2); [exfalso; lia|]. by apply (Hm j).
  - apply orb_false_iff in Eo as [Eo1%Z.eqb_neq Eo2%Z.eqb_neq]. destruct (Ht i Eo1) as [y Hy].
    destruct (steal_spec s v o y Hs He Hy) as (r & s1 & v1 & E1 & Hok1 & Hf1 & Hst).
    rewrite (bind_ok _ _ _ _ _ E1). destruct Hst as [(-> & -> & Hall)|(Hr0 & p & l1 & l2 & Hp & Hv & ->)].
    + change (negb (NULL =? NULL)) with false. cbv iota.
      destruct (IH s1 Hok1) as (r & s' & v' & E & Hok & Hf & Hm).
      { by rewrite (framed_hart _ _ _ Hf1). }
      { intros j Hj. rewrite (framed_table _ _ _ Hf1) in *. destruct (Ht j Hj) as [z Hz].
        destruct (framed_cpu _ _ _ _ _ Hf1 Hz) as (z' & -> & _). by exists z'. }
      { done. }
      assert (forall u, movable (tasks s1) u = movable (tasks s) u) as Hmv.
      { intros u. apply (framed_movable _ _ _ u Hf1). tauto. }
      assert (forall j o', other_cpu s c j o' <-> other_cpu s1 c j o') as Hoc.
      { intros j o'. unfold other_cpu. by rewrite (framed_table _ _ _ Hf1). }
      exists r, s', v'. split_and!; [done|done|by eapply framed_trans|].
      destruct Hm as [(-> & -> & Hm)|(Hr & j & o' & p & l1 & l2 & Ho' & Hp & (Hv & Hl1 & Hmr) & ->)].
      * left. split_and!; [done|done|]. intros j o' q [->|Hj]%elem_of_cons Ho' Hq.
        -- destruct Ho' as (_ & <- & _). by apply Hall.
        -- eapply Forall_impl; [by apply (Hm j o' q Hj); [apply Hoc|]|]. intros u; cbv beta; by rewrite Hmv.
      * right. split; [done|]. exists j, o', p, l1, l2. split_and!; [by apply Hoc|done| |done].
        split_and!; [done| |by rewrite <-Hmv]. eapply Forall_impl; [exact Hl1|]. intros u; cbv beta; by rewrite Hmv.
    + rewrite (proj2 (Z.eqb_neq _ _)) by done. exists r, s1, (vset (Rq o p) (l1 ++ l2) v).
      split_and!; [done..|]. right. split; [done|]. by exists i, o, p, l1, l2.
Qed.

Lemma pick_next_spec s v c x :
  sched_ok s v -> g_lock_enabled (s_hart s) = true -> table_ok s -> cpus s !! c = Some x ->
  exists r s' v', pick_next c s = Ok (r, s') /\ sched_ok s' v' /\ framed (fun _ => False) s s' /\
    chosen s v c x r v'.
Proof.
  intros Hs He Ht Hx. destruct (dequeue_spec s v c x Hs Hx) as (r & s1 & v1 & E1 & Hok1 & Ets & Hf1 & Hd).
  unfold pick_next. rewrite (bind_ok _ _ _ _ _ E1). unfold dequeued in Hd.
  destruct (pick levels x) as [p|] eqn:Ep.
  - destruct Hd as (l & Hv & -> & _). destruct (pick_elem _ _ _ Ep) as [Hp _].
    assert (r <> NULL) as Hr by (apply (rep_task s v (Rq c p)); [apply Hs|rewrite Hv; by left]).
    rewrite (proj2 (Z.eqb_neq _ _)) by done. cbn [negb]. cbv [bind ret].
    rewrite (proj2 (Z.eqb_neq _ _)) by done. eexists _, _, _. split; [done|]. split_and!; [done|done|].
    by apply ChosenLocal.
  - destruct Hd as (-> & -> & Hempty). change (negb (NULL =? NULL)) with false. cbv iota.
    assert (table_ok s1) as Ht1.
    { intros j Hj. rewrite (framed_table _ _ _ Hf1) in *. destruct (Ht j Hj) as [z Hz].
      destruct (framed_cpu _ _ _ _ _ Hf1 Hz) as (z' & -> & _). by exists z'. }
    destruct (steal_from_spec (seqZ 0 32) s1 v c Hok1) as (r & s2 & v2 & E2 & Hok2 & Hf2 & Hm).
    { by rewrite (framed_hart _ _ _ Hf1). }
    { done. }
    { intros j Hj. apply elem_of_seqZ in Hj. lia. }
    rewrite (bind_ok _ _ _ _ _ E2). rewrite Ets in Hm.
    assert (framed (fun _ => False) s s2) as Hf by (by eapply framed_trans).
    assert (forall j o', other_cpu s c j o' <-> other_cpu s1 c j o') as Hoc.
    { intros j o'. unfold other_cpu. by rewrite (framed_table _ _ _ Hf1). }
    destruct Hm as [(-> & -> & Hm)|(Hr & j & o & p & l1 & l2 & Ho & Hp & Hv & ->)].
    + change (negb (NULL =? NULL)) with false. cbv iota. rewrite <-(mk_id s2).
      destruct (framed_cpu _ _ _ _ _ Hf Hx) as (x2 & Hx2 & Ec). erewrite get_ctx_bind by done.
      rewrite mk_id. eexists _, _, _. split; [done|]. split_and!; [done|done|].
      replace (idle_task x2) with (idle_task x) by (unfold ctx_core in Ec; congruence).
      apply ChosenIdle; [done|]. intros j o q Ho. apply (Hm j o q); [|by apply Hoc].
      apply elem_of_seqZ. destruct Ho. lia.
    + rewrite (proj2 (Z.eqb_neq _ _)) by done. eexists _, _, _. split; [done|]. split_and!; [done|done|].
      apply (ChosenStolen s v c x j o p r l1 l2); try done. by apply Hoc.
Qed.

(** ** Frames *)

(** What changes between two states outside the context [c] and the tasks [T]. *)
Record stepped (T : Z -> Prop) (c : Z) (s s' : sched) : Prop := {
  st_table : cpu_table s' = cpu_table s;
  st_this : this_cpu s' = this_cpu s;
  st_ctx : forall d, d <> c -> ctx_core <$> cpus s' !! d = ctx_core <$> cpus s !! d;
  st_dom : forall d, is_Some (cpus s' !! d) <-> is_Some (cpus s !! d);
  st_tasks : forall u, ~ T u -> unlinked <$> tasks s' !! u = unlinked <$> tasks s !! u;
}.

Lemma stepped_trans T c s1 s2 s3 : stepped T c s1 s2 -> stepped T c s2 s3 -> stepped T c s1 s3.
Proof.
  intros [A1 A2 A3 A4 A5] [B1 B2 B3 B4 B5]. split.
  - congruence.
  - congruence.
  - intros d Hd. by rewrite B3, A3.
  - intros d. by rewrite B4.
  - intros u Hu. by rewrite B5, A5.
Qed.

(** ** The switch *)

Definition started (id : Z) (tk : task) : task := set_task_cpu id (set_state TASK_RUNNING tk).

Definition installed (t : Z) (tk : task) (x : cpu_context) : cpu_context :=
  let top := w64 (stack_base tk + stack_size tk) in
  set_kernel_stack top (set_tss_rsp0 top (set_current_task t x)).

Definition loaded_cr3 (tk : task) (c3 : Z) : Z := if cr3 tk =? 0 then c3 else cr3 tk.

Lemma switch_to_run s c x t tk :
  cpus s !! c = Some x -> tasks s !! t = Some tk ->
  switch_to c t s = Ok (tt, set_cr3_reg (loaded_cr3 tk (cr3_reg s))
    (mk s (<[t := started (ctx_id x) tk]> (tasks s)) (<[c := installed t tk x]> (cpus s)))).
Proof.
  intros Hx Ht. unfold switch_to. rewrite <-(mk_id s) at 1. repeat exec_step.
  cbn [cr3 stack_base stack_size set_task_cpu set_state]. unfold installed, loaded_cr3.
  cbv [bind gets modify]. cbn [cr3_reg mk set_cpus set_tasks].
  destruct (Z.eqb_spec (cr3 tk) 0) as [E0|E0]; cbn [negb andb when]; [done|].
  destruct (Z.eqb_spec (cr3 tk) (cr3_reg s)) as [E1|E1]; cbn [negb when]; [|done].
  by rewrite E1.
Qed.

Lemma switch_to_spec s v c x t tk :
  sched_ok s v -> cpus s !! c = Some x -> tasks s !! t = Some tk ->
  exists s', switch_to c t s = Ok (tt, s') /\ sched_ok s' v /\ s_hart s' = s_hart s /\
    tasks s' = <[t := started (ctx_id x) tk]> (tasks s) /\ cpus s' = <[c := installed t tk x]> (cpus s) /\
    cr3_reg s' = loaded_cr3 tk (cr3_reg s) /\ stepped (fun u => u = t) c s s'.
Proof.
  intros Hs Hx Ht. eexists. split; [by apply switch_to_run|]. split_and!; try done.
  2: { split; cbn [set_cr3_reg mk set_cpus set_tasks tasks cpus]; try done.
       - intros d Hd. by rewrite lookup_insert_ne.
       - intros d. destruct (decide (d = c)) as [->|]; [by rewrite lookup_insert_eq, Hx|by rewrite lookup_insert_ne].
       - intros u Hu. by rewrite lookup_insert_ne. }
  pose proof (sched_ok_upd s v t tk (started (ctx_id x) tk) Hs Ht eq_refl) as Hs1.
  destruct Hs as [Hr Hh Hl Hd Hb]. split; try done.
  - eapply rep_same; [..|apply (rep_ctx _ v c x (installed t tk x) (so_rep _ _ Hs1) Hx)]; done.
  - apply map_Forall_insert_2; [by apply (Hl c x)|done].
Qed.

(** ** Bookkeeping *)

Lemma idle_promoted c v u : idle_in v u -> idle_in (promoted c v) u.
Proof.
  intros Hi a. unfold promoted. destruct a as [d p|d| |]; try apply Hi.
  repeat case_decide; try apply Hi; try apply not_elem_of_nil.
  rewrite elem_of_app. intros [Hin|Hin]; by apply Hi in Hin.
Qed.

Lemma idle_requeued c cur tk v u : idle_in v u -> (runnable tk = true -> u <> cur) -> idle_in (requeued c cur tk v) u.
Proof.
  intros Hi Hu a. unfold requeued. destruct (runnable tk); [|apply Hi]. unfold vset. case_decide; [|apply Hi].
  rewrite elem_of_app, list_elem_of_singleton. intros [Hin|E]; [by apply Hi in Hin|by apply Hu].
Qed.

Lemma chosen_ext s s' v c x x' r v' :
  (forall u, movable (tasks s') u = movable (tasks s) u) -> cpu_table s' = cpu_table s ->
  idle_task x' = idle_task x -> chosen s' v c x' r v' -> chosen s v c x r v'.
Proof.
  intros Hm Et Ei. assert (forall j o, other_cpu s c j o <-> other_cpu s' c j o) as Ho.
  { intros j o. unfold other_cpu. by rewrite Et. }
  intros [p r' l Hp Hv|i o p r' l1 l2 He Hoc Hp (Hv & Hl & Hmr)|He Hall].
  - by apply ChosenLocal.
  - apply (ChosenStolen s v c x i o p r' l1 l2); try done; [by apply Ho|].
    split_and!; [done| |by rewrite <-Hm]. eapply Forall_impl; [exact Hl|]. intros u; cbv beta. by rewrite Hm.
  - rewrite Ei. apply ChosenIdle; [done|]. intros i o q Hoc Hq. eapply Forall_impl; [apply (Hall i o q); [by apply Ho|done]|].
    intros u; cbv beta. by rewrite Hm.
Qed.

(** The chosen task leaves every list. *)
Lemma chosen_idle s s0 v c x r v' :
  rep s v -> idle_in v (idle_task x) -> chosen s0 v c x r v' -> idle_in v' r.
Proof.
  intros Hr Hi [p r' l Hp Hv|i o p r' l1 l2 He Hoc Hp (Hv & Hl & Hmr)|He Hall].
  - by apply (removed_idle s).
  - by apply (taken_idle s).
  - done.
Qed.

(** The chosen task was in a list, or is the idle task. *)
Lemma chosen_from s v c x r v' : chosen s v c x r v' -> r = idle_task x \/ exists a, r ∈ v a.
Proof.
  intros [p r' l Hp Hv|i o p r' l1 l2 He Hoc Hp (Hv & Hl & Hmr)|He Hall]; [right..|by left].
  - exists (Rq c p). rewrite Hv. by left.
  - exists (Rq o p). rewrite Hv. apply elem_of_app. right. by left.
Qed.

(** ** The whole step *)

Lemma framed_stepped (T T' : Z -> Prop) c s s' : (forall u, T u -> T' u) -> framed T s s' -> stepped T' c s s'.
Proof.
  intros HT Hf. split.
  - by rewrite (fr_rest _ _ _ Hf).
  - by rewrite (fr_rest _ _ _ Hf).
  - intros d _. apply (fr_ctx _ _ _ Hf).
  - intros d. pose proof (fr_ctx _ _ _ Hf d) as E.
    destruct (cpus s' !! d), (cpus s !! d); done.
  - intros u Hu. apply (fr_tasks _ _ _ Hf). by intros ?%HT.
Qed.

Lemma table_stepped T c s s' : stepped T c s s' -> table_ok s -> table_ok s'.
Proof.
  intros Hf Ht i. rewrite (st_table _ _ _ _ Hf). intros Hi. apply (st_dom _ _ _ _ Hf). by apply Ht.
Qed.

Lemma sched_ok_hart s v h : hart_ok h -> sched_ok s v -> sched_ok (lset hart_of h s) v.
Proof. intros Hh [Hr _ Hl Hd Hb]. split; try done. by apply (rep_same s). Qed.

Definition boost_due (s : sched) (x : cpu_context) : bool := next_priority_boost x <=? uptime_ms s.

Lemma boost_step_spec (T : Z -> Prop) s v c x :
  sched_ok s v -> cpus s !! c = Some x ->
  exists s' x', when (boost_due s x) (prio_boost c ;;;
      upd_ctx c (set_next_priority_boost (w64 (uptime_ms s + PRIORITY_BOOST)))) s = Ok (tt, s') /\
    sched_ok s' (if boost_due s x then promoted c v else v) /\ stepped T c s s' /\ s_hart s' = s_hart s /\
    (forall u, unlinked <$> tasks s' !! u = unlinked <$> tasks s !! u) /\
    cpus s' !! c = Some x' /\ ctx_id x' = ctx_id x /\ idle_task x' = idle_task x /\
    cr3_reg s' = cr3_reg s.
Proof.
  intros Hs Hx. destruct (boost_due s x); cbn [when].
  - destruct (prio_boost_spec s v c x Hs Hx) as (s1 & E1 & Hok & Hf).
    destruct (framed_cpu _ _ _ _ _ Hf Hx) as (x1 & Hx1 & Ec). unfold ctx_core in Ec.
    assert (forall u, unlinked <$> tasks s1 !! u = unlinked <$> tasks s !! u) as Hu
      by (intros u; apply (fr_tasks _ _ _ Hf); tauto).
    pose proof Hok as [Hr Hh Hl Hd Hb]. destruct (Hl c x1 Hx1) as [Hl1 Hl2].
    set (b := w64 (uptime_ms s + PRIORITY_BOOST)).
    exists (mk s1 (tasks s1) (<[c := set_next_priority_boost b x1]> (cpus s1))), (set_next_priority_boost b x1).
    rewrite (bind_ok _ _ _ _ _ E1). split_and!.
    + rewrite <-(mk_id s1) at 1. by rewrite (upd_ctx_mk _ _ _ c x1).
    + apply (sched_ok_ctx s1 (promoted c v)); try done. by apply (rep_ctx s1 _ c x1).
    + eapply stepped_trans; [by eapply (framed_stepped _ T); [|exact Hf]|].
      split; cbn [mk set_cpus cpus set_tasks tasks]; try done.
      * intros d Hdc. by rewrite lookup_insert_ne.
      * intros d. destruct (decide (d = c)) as [->|]; [by rewrite lookup_insert_eq, Hx1|by rewrite lookup_insert_ne].
    + by rewrite <-(framed_hart _ _ _ Hf).
    + done.
    + apply lookup_insert_eq.
    + simpl. congruence.
    + simpl. congruence.
    + change (cr3_reg s1 = cr3_reg s). by rewrite (fr_rest _ _ _ Hf).
  - exists s, x. by split_and!.
Qed.

(** The CPU's idle task exists and is in no list; its current task exists and,
    while it can be put back, is in no list and is not the idle task. *)
Record cpu_ok (s : sched) (v : place -> list Z) (x : cpu_context) (cur : task) : Prop := {
  co_idle : is_Some (tasks s !! idle_task x);
  co_idle_out : idle_in v (idle_task x);
  co_null : current_task x <> NULL;
  co_current : tasks s !! current_task x = Some cur;
  co_current_out : runnable cur = true -> idle_in v (current_task x) /\ current_task x <> idle_task x;
}.

(** The lists before the choice. *)
Definition offered (s : sched) (v : place -> list Z) (c : Z) (x : cpu_context) (cur : task) : place -> list Z :=
  requeued c (current_task x) cur (if boost_due s x then promoted c v else v).

Lemma offered_idle s v c x cur u :
  idle_in v u -> (runnable cur = true -> u <> current_task x) -> idle_in (offered s v c x cur) u.
Proof.
  intros Hi Hu. apply idle_requeued; [|done]. destruct (boost_due s x); [by apply idle_promoted|done].
Qed.

(** What the scheduler leaves behind. *)
Record scheduled (s s' : sched) (c : Z) (x : cpu_context) (cur : task) (frame nxt : Z) (tk' : task) : Prop := {
  sc_running : tasks s' !! nxt = Some tk' /\ state tk' = TASK_RUNNING /\ task_cpu tk' = ctx_id x;
  sc_cpu : exists y, cpus s' !! c = Some y /\ current_task y = nxt /\ idle_task y = idle_task x /\
    ctx_id y = ctx_id x /\ tss_rsp0 y = w64 (stack_base tk' + stack_size tk') /\ kernel_stack y = tss_rsp0 y;
  sc_cr3 : cr3_reg s' = loaded_cr3 tk' (cr3_reg s);
  sc_hart : s_hart s' = s_hart s;
  sc_saved : if decide (nxt = current_task x) then rsp tk' = frame
             else exists t', tasks s' !! current_task x = Some t' /\ rsp t' = frame /\
                    state t' = if runnable cur then TASK_READY else state cur;
  sc_frame : stepped (fun u => u = current_task x \/ u = nxt) c s s';
}.

Lemma saved_fields x frame tk :
  rsp (saved x frame tk) = frame /\ state (saved x frame tk) = (if runnable tk then TASK_READY else state tk) /\
  tid (saved x frame tk) = tid tk.
Proof. unfold saved, enq_task. destruct (runnable tk), (10 <=? tid tk); by repeat case_bool. Qed.

Lemma unlinked_runnable a b :
  unlinked a = unlinked b ->
  runnable a = runnable b /\ state a = state b /\ tid a = tid b /\ base_priority a = base_priority b /\
  rsp a = rsp b /\ cr3 a = cr3 b.
Proof.
  destruct a, b. unfold unlinked, set_sched_next, runnable. simpl. intros [=]. subst. done.
Qed.

Lemma framed_cr3 T s s' : framed T s s' -> cr3_reg s' = cr3_reg s.
Proof. by intros [-> _ _ _]. Qed.

Lemma stepped_mono (T T' : Z -> Prop) c s s' : (forall u, T u -> T' u) -> stepped T c s s' -> stepped T' c s s'.
Proof. intros HT [A1 A2 A3 A4 A5]. split; try done. intros u Hu. apply A5. by intros ?%HT. Qed.

Lemma stepped_task T c s s' t tk : stepped T c s s' -> tasks s !! t = Some tk -> ~ T t ->
  exists tk', tasks s' !! t = Some tk' /\ unlinked tk' = unlinked tk.
Proof.
  intros Hf Ht HT. pose proof (st_tasks _ _ _ _ Hf t HT) as E. rewrite Ht in E.
  destruct (tasks s' !! t) as [tk'|]; [|done]. exists tk'. split; [done|]. simpl in E. congruence.
Qed.

Lemma stepped_movable T c s s' u : stepped T c s s' -> ~ T u -> movable (tasks s') u = movable (tasks s) u.
Proof.
  intros Hf Hu. pose proof (st_tasks _ _ _ _ Hf u Hu) as E. unfold movable.
  destruct (tasks s' !! u) as [a|], (tasks s !! u) as [b|]; simpl in E; try done. injection E as E. by rewrite E.
Qed.

(** The boost and the outgoing task: from the interrupt to the choice. *)
Lemma offer_spec s v c x cur frame :
  sched_ok s v -> cpus s !! c = Some x -> cpu_ok s v x cur ->
  exists s' x' tk', (when (boost_due s x) (prio_boost c ;;;
        upd_ctx c (set_next_priority_boost (w64 (uptime_ms s + PRIORITY_BOOST)))) ;;;
      put_current c (current_task x) frame) s = Ok (tt, s') /\
    sched_ok s' (offered s v c x cur) /\ stepped (fun u => u = current_task x) c s s' /\
    s_hart s' = s_hart s /\ cr3_reg s' = cr3_reg s /\
    cpus s' !! c = Some x' /\ ctx_id x' = ctx_id x /\ idle_task x' = idle_task x /\
    tasks s' !! current_task x = Some tk' /\ rsp tk' = frame /\
    state tk' = (if runnable cur then TASK_READY else state cur) /\ tid tk' = tid cur.
Proof.
  intros Hs Hx [Hidle Hiout Hc0 Hcur Hcout]. set (T := fun u => u = current_task x).
  destruct (boost_step_spec T s v c x Hs Hx) as (s1 & x1 & E1 & Hs1 & Hst1 & Hh1 & Hu1 & Hx1 & Eid1 & Eidle1 & Ecr1).
  set (v1 := if boost_due s x then promoted c v else v) in *.
  assert (exists tk1, tasks s1 !! current_task x = Some tk1 /\ unlinked tk1 = unlinked cur) as (tk1 & Htk1 & Eu1).
  { pose proof (Hu1 (current_task x)) as E. rewrite Hcur in E.
    destruct (tasks s1 !! current_task x) as [t1|]; [|done]. exists t1. simpl in E. split; [done|congruence]. }
  destruct (unlinked_runnable _ _ Eu1) as (Er1 & Es1 & Et1 & Eb1 & _).
  destruct (put_current_spec s1 v1 c x1 (current_task x) tk1 frame Hs1 Hx1 Hc0 Htk1) as (s2 & E2 & Hs2 & Hf2 & Htk2).
  { rewrite Er1. intros Hrun. destruct (Hcout Hrun) as [Hi _]. unfold v1. destruct (boost_due s x); [by apply idle_promoted|done]. }
  destruct (framed_cpu _ _ _ _ _ Hf2 Hx1) as (x2 & Hx2 & Ec2). unfold ctx_core in Ec2.
  destruct (saved_fields x1 frame tk1) as (F1 & F2 & F3).
  exists s2, x2, (saved x1 frame tk1). rewrite (bind_ok _ _ _ _ _ E1).
  split_and!; try done; try congruence.
  - unfold offered. unfold requeued in Hs2 |- *. by rewrite Er1, Eb1 in Hs2.
  - eapply stepped_trans; [exact Hst1|]. by eapply framed_stepped; [|exact Hf2].
  - by rewrite (framed_hart _ _ _ Hf2).
  - by rewrite (framed_cr3 _ _ _ Hf2).
  - by rewrite F2, Er1, Es1.
Qed.

Lemma schedule_run s c x frame nxt s2 s3 s4 tk :
  let h := s_hart s in
  let s0 := lset hart_of (masked h) s in
  this_cpu s = c -> cpus s !! c = Some x ->
  (when (boost_due s x) (prio_boost c ;;;
      upd_ctx c (set_next_priority_boost (w64 (uptime_ms s + PRIORITY_BOOST)))) ;;;
   put_current c (current_task x) frame) s0 = Ok (tt, s2) ->
  pick_next c s2 = Ok (nxt, s3) -> switch_to c nxt s3 = Ok (tt, s4) -> tasks s4 !! nxt = Some tk ->
  schedule frame s = Ok (rsp tk, lset hart_of (set_rflags (rflags h) (s_hart s4)) s4).
Proof.
  intros h s0 Hc Hx E2 E3 E4 Ht. unfold schedule. rewrite (bind_ok _ _ _ _ _ (spin_irq_save_eq s)).
  change (lset hart_of (masked (lget hart_of s)) s) with s0. rewrite <-(mk_id s0), get_cpu_bind.
  change (this_cpu s0) with (this_cpu s). rewrite Hc. erewrite get_ctx_bind by done.
  rewrite uptime_bind, mk_id. fold (boost_due s x). change (uptime_ms s0) with (uptime_ms s).
  fold (boost_due s x). revert E2. unfold bind at 1. intros E2.
  unfold bind at 1. destruct (when _ _ s0) as [[[] s1]| | |]; try done. cbv beta iota in E2 |- *. rewrite (bind_ok _ _ _ _ _ E2).
  rewrite (bind_ok _ _ _ _ _ E3), (bind_ok _ _ _ _ _ E4), (bind_ok _ _ _ _ _ (spin_irq_restore_eq s4 _)).
  set (s5 := lset hart_of _ s4). rewrite <-(mk_id s5). by erewrite get_task_bind by done.
Qed.

Lemma schedule_spec s v c x cur frame :
  this_cpu s = c -> sched_ok s v -> g_lock_enabled (s_hart s) = true -> table_ok s ->
  cpus s !! c = Some x -> cpu_ok s v x cur ->
  exists nxt tk' s' v', schedule frame s = Ok (rsp tk', s') /\ sched_ok s' v' /\
    chosen s (offered s v c x cur) c x nxt v' /\ idle_in v' nxt /\ scheduled s s' c x cur frame nxt tk'.
Proof.
  intros Hc Hs He Htab Hx Hco. set (h := s_hart s). set (s0 := lset hart_of (masked h) s).
  assert (sched_ok s0 v) as Hs0 by (by apply sched_ok_hart; [apply Hs|]).
  destruct (offer_spec s0 v c x cur frame Hs0 Hx) as
    (s2 & x2 & tk2 & E2 & Hs2 & Hst2 & Hh2 & Ecr2 & Hx2 & Eid2 & Eidle2 & Htk2 & Ersp & Est & Etid); [by destruct Hco|].
  change (offered s0 v c x cur) with (offered s v c x cur) in Hs2. destruct Hco as [Hidle Hiout Hc0 Hcur Hcout].
  destruct (pick_next_spec s2 (offered s v c x cur) c x2 Hs2) as (nxt & s3 & v' & E3 & Hs3 & Hf3 & Hch);
    [by rewrite Hh2|by apply (table_stepped (fun u => u = current_task x) c s0)|done|].
  apply (chosen_ext s _ _ _ x) in Hch; [| |by rewrite (st_table _ _ _ _ Hst2)|congruence].
  2: { intros u. destruct (decide (u = current_task x)) as [->|Hu]; [|by apply (stepped_movable _ c _ _ u Hst2)].
       unfold movable. by rewrite Htk2, Hcur, Etid. }
  assert (is_Some (tasks s3 !! nxt)) as [tk3 Htk3].
  { apply (fr_dom _ _ _ Hf3). destruct (chosen_from _ _ _ _ _ _ Hch) as [->|[a Ha]]; [|by apply (rep_task s2 _ a nxt (so_rep _ _ Hs2))].
    destruct (decide (idle_task x = current_task x)) as [->|Hne]; [by rewrite Htk2|]. destruct Hidle as [ti Hti].
    destruct (stepped_task _ _ _ _ _ ti Hst2 Hti Hne) as (t' & -> & _). by exists t'. }
  destruct (framed_cpu _ _ _ _ _ Hf3 Hx2) as (x3 & Hx3 & Ec3). unfold ctx_core in Ec3.
  destruct (switch_to_spec s3 v' c x3 nxt tk3 Hs3 Hx3 Htk3) as (s4 & E4 & Hs4 & Hh4 & Ets4 & Ecs4 & Ecr4 & Hst4).
  assert (s_hart s4 = masked h) as Hm4 by (by rewrite Hh4, (framed_hart _ _ _ Hf3), Hh2).
  exists nxt, (started (ctx_id x3) tk3), (lset hart_of (set_rflags (rflags h) (s_hart s4)) s4), v'.
  split_and!; [|by apply sched_ok_hart; [rewrite Hm4; apply Hs|]|done| |].
  - apply (schedule_run s c x frame nxt s2 s3 s4); try done. rewrite Ets4. apply lookup_insert_eq.
  - eapply (chosen_idle s2 s); [apply Hs2| |exact Hch]. apply offered_idle; [done|].
    intros Hrun. destruct (Hcout Hrun) as [_ Hne]. congruence.
  - split; cbn [lset hart_of sched_hart tasks cpus cr3_reg s_hart].
    + rewrite Ets4, lookup_insert_eq. split_and!; [done|done|]. simpl. congruence.
    + rewrite Ecs4, lookup_insert_eq. eexists. split; [done|]. simpl. split_and!; try done; congruence.
    + rewrite Ecr4, (framed_cr3 _ _ _ Hf3), Ecr2. done.
    + rewrite Hm4. apply set_rflags_masked.
    + rewrite Ets4. destruct (framed_task _ _ _ (current_task x) _ Hf3 Htk2) as (t3 & Ht3 & Eu3); [tauto|].
      destruct (unlinked_runnable _ _ Eu3) as (_ & Es3 & _ & _ & Er3 & _). destruct (decide (nxt = current_task x)) as [En|En].
      * simpl. rewrite En, Ht3 in Htk3. injection Htk3 as <-. congruence.
      * exists t3. rewrite lookup_insert_ne by done. split_and!; congruence.
    + eapply (stepped_trans _ _ s s4); [|done]. eapply stepped_trans; [|eapply stepped_mono; [|exact Hst4]; by right].
      eapply stepped_trans; [|eapply framed_stepped; [|exact Hf3]; by intros ? []].
      eapply (stepped_trans _ _ s s0); [done|]. eapply stepped_mono; [|exact Hst2]. by left.
Qed.

(** C8: [schedule] switches the CPU correctly. It returns the saved stack
    pointer of the task it makes current; that task is [RUNNING], bound to
    this CPU, in no list, and its stack and page table are installed; the
    outgoing task is saved with its frame and, when it was still running, is
    [READY] at the end of its runqueue. The choice is the head of a local
    runqueue; only when these are all empty a task another CPU can give away;
    and only when no CPU of the table has one, the idle task. No other task,
    no other CPU's registers and no list but the one the task came from
    change, every lock is free again and the interrupt flag is the caller's. *)
Theorem schedule_correct s v c x cur frame :
  this_cpu s = c -> sched_ok s v -> g_lock_enabled (s_hart s) = true -> table_ok s ->
  cpus s !! c = Some x -> cpu_ok s v x cur ->
  exists nxt tk' s' v', schedule frame s = Ok (rsp tk', s') /\ sched_ok s' v' /\
    chosen s (offered s v c x cur) c x nxt v' /\ idle_in v' nxt /\ scheduled s s' c x cur frame nxt tk'.
Proof. apply schedule_spec. Qed.

(** a scheduling step never makes a task current that is current on
    another CPU: if the other CPUs' current tasks are in no list, and are
    neither this CPU's idle task nor its current task, then after [schedule]
    this CPU's current task still differs from each of theirs. *)
Theorem schedule_exclusive s v c x cur frame d y :
  this_cpu s = c -> sched_ok s v -> g_lock_enabled (s_hart s) = true -> table_ok s ->
  cpus s !! c = Some x -> cpu_ok s v x cur -> cpus s !! d = Some y -> d <> c ->
  idle_in v (current_task y) -> current_task y <> idle_task x -> current_task y <> current_task x ->
  exists r s' x' y', schedule frame s = Ok (r, s') /\ cpus s' !! c = Some x' /\ cpus s' !! d = Some y' /\
    current_task y' = current_task y /\ current_task x' <> current_task y'.
Proof.
  intros Hc Hs He Htab Hx Hco Hy Hdc Hout Hni Hnc.
  destruct (schedule_spec s v c x cur frame Hc Hs He Htab Hx Hco) as (nxt & tk' & s' & v' & E & _ & Hch & _ & Hsc).
  destruct (sc_cpu _ _ _ _ _ _ _ _ Hsc) as (x' & Hx' & Ex' & _).
  pose proof (st_ctx _ _ _ _ (sc_frame _ _ _ _ _ _ _ _ Hsc) d Hdc) as Ey. rewrite Hy in Ey.
  destruct (cpus s' !! d) as [y'|] eqn:Hy'; [|done]. unfold ctx_core in Ey. injection Ey as _ _ _ Ey _ _.
  exists (rsp tk'), s', x', y'. split_and!; try done. rewrite Ex', Ey.
  destruct (chosen_from _ _ _ _ _ _ Hch) as [->|[a Ha]]; [congruence|].
  intros ->. by apply (offered_idle s v c x cur _ Hout ltac:(done) a).
Qed.

(** The outgoing task is published before the CPU leaves its stack. Once
    [schedule] has put a running task that may migrate back into its
    runqueue, and before it has switched to another one, a second CPU that
    scans this runqueue can take that very task: [steal_task_from_cpu]
    returns the task that is still [current_task] of the first CPU. *)
Theorem running_task_can_be_stolen s v c x cur frame :
  sched_ok s v -> g_lock_enabled (s_hart s) = true -> cpus s !! c = Some x -> cpu_ok s v x cur ->
  runnable cur = true -> 10 <= tid cur -> level (base_priority cur) ∈ levels ->
  (forall p, v (Rq c p) = []) ->
  exists s1 s2 y, put_current c (current_task x) frame s = Ok (tt, s1) /\
    steal_task_from_cpu c s1 = Ok (current_task x, s2) /\
    cpus s2 !! c = Some y /\ current_task y = current_task x.
Proof.
  intros Hs He Hx [_ _ Hc0 Hcur Hcout] Hrun Htid Hlev Hempty.
  destruct (put_current_spec s v c x (current_task x) cur frame Hs Hx Hc0 Hcur) as (s1 & E1 & Hs1 & Hf1 & Ht1).
  { intros _. by apply Hcout. }
  destruct (framed_cpu _ _ _ _ _ Hf1 Hx) as (x1 & Hx1 & Ec1).
  destruct (steal_spec s1 _ c x1 Hs1) as (r & s2 & v2 & E2 & _ & Hf2 & Hst); [by rewrite (framed_hart _ _ _ Hf1)|done|].
  destruct (framed_cpu _ _ _ _ _ Hf2 Hx1) as (x2 & Hx2 & Ec2). unfold ctx_core in Ec1, Ec2.
  exists s1, s2, x2. split_and!; [done| |done|congruence]. rewrite E2. do 2 f_equal.
  set (p := level (base_priority cur)) in *.
  assert (forall q, requeued c (current_task x) cur v (Rq c q) = if decide (q = p) then [current_task x] else []) as Hv.
  { intros q. unfold requeued. rewrite Hrun. fold p. unfold vset. rewrite Hempty.
    destruct (decide (q = p)) as [->|]; [by rewrite decide_True|]. rewrite decide_False by congruence. apply Hempty. }
  destruct Hst as [(_ & _ & Hall)|(_ & q & l1 & l2 & _ & (Hl & _ & _) & _)].
  - specialize (Hall p Hlev). rewrite Hv, decide_True, Forall_singleton in Hall by done. exfalso.
    unfold movable in Hall. rewrite Ht1 in Hall. destruct (saved_fields x frame cur) as (_ & _ & Et).
    rewrite Et in Hall. lia.
  - rewrite Hv in Hl. case_decide; [|by destruct l1]. destruct l1 as [|a l1]; [|by destruct l1].
    simpl in Hl. congruence.
Qed.
