(* ===== verification/SchedDemo.v ===== *)
(** * A concrete scheduler

    Two CPUs, their idle tasks and three tasks: the states the scheduler's
    theorems are instantiated at. *)

From S2P Require Import Prelude Lock Chain Sched Runqueue Balance Schedule.

(** A scheduler whose lists are all empty. *)
Definition lists_empty (s : sched) : Prop :=
  map_Forall (fun _ x => rq_head x = ∅ /\ rq_tail x = ∅ /\ rq_count x = ∅ /\ sleeping_list x = NULL) (cpus s) /\
  blocked_task_list s = NULL /\ dead_task_list s = NULL.

Lemma sched_ok_empty s :
  lists_empty s -> hart_ok (s_hart s) ->
  map_Forall (fun _ x => lock_free (rq_lock x) /\ lock_free (sleep_lock x)) (cpus s) ->
  lock_free (dead_lock_ s) -> lock_free (blocked_lock_ s) -> sched_ok s (fun _ => []).
Proof.
  intros (Hl & Hb & Hd) Hh Hlocks Hdl Hbl. split; try done. split; [| |by intros a b t ?%not_elem_of_nil|done].
  - intros [c p|c| |] h; cbn [head_of]; [| |intros [= <-]; done..].
    + intros (x & E & ->)%fmap_Some. by destruct (Hl c x E) as (-> & _).
    + intros (x & E & ->)%fmap_Some. by destruct (Hl c x E) as (_ & _ & _ & ->).
  - intros c x p E. destruct (Hl c x E) as (_ & Ht & Hc & _). split; [by rewrite Ht|by rewrite Hc].
Qed.

Definition demo_task (id prio : Z) (st : task_state) : task :=
  mkTask id 0x9000 (0x10000 + id * 0x4000) 0x4000 st REASON_KEYBOARD false (0x1000 * id) NULL NULL 0 0 0 0
    NULL NULL NULL prio prio NO_CPU 0.

(** An idle task, as [create_idle_struct] leaves it: its base priority is 0. *)
Definition demo_idle (id : Z) (st : task_state) : task :=
  mkTask id 0x9000 (0x10000 + id * 0x4000) 0x4000 st REASON_KEYBOARD false (0x1000 * id) NULL NULL 0 0 0 0
    NULL NULL NULL PRIO_IDLE PRIO_HIGH NO_CPU 0.

Definition demo_cpu (id cur idle : Z) : cpu_context :=
  mkCpu id 0 0 cur idle spinlock_init ∅ ∅ ∅ ∅ 100 spinlock_init NULL.

Definition CPU0 : Z := 0x100.
Definition CPU1 : Z := 0x200.
Definition IDLE0 : Z := 0x1000.
Definition IDLE1 : Z := 0x1100.
Definition TASK_A : Z := 0x2000.
Definition TASK_B : Z := 0x2100.
Definition TASK_K : Z := 0x2200.

(** CPU 0 runs task A and CPU 1 task K; task B is in no list. *)
Definition demo : sched := mkSched
  (mkHart 0x202 (Some 0) true)
  (list_to_map [(IDLE0, demo_idle 1 TASK_READY); (IDLE1, demo_idle 2 TASK_READY);
    (TASK_A, demo_task 10 PRIO_NORMAL TASK_RUNNING); (TASK_B, demo_task 11 PRIO_HIGH TASK_READY);
    (TASK_K, demo_task 3 PRIO_NORMAL TASK_RUNNING)])
  (list_to_map [(CPU0, demo_cpu 0 TASK_A IDLE0); (CPU1, demo_cpu 1 TASK_K IDLE1)])
  (list_to_map [(0, CPU0); (1, CPU1)]) CPU0 42 0x1000 NULL NULL spinlock_init spinlock_init.

Lemma demo_ok : sched_ok demo (fun _ => []).
Proof. apply sched_ok_empty; [split_and!; by_decide|by_decide..]. Qed.

Definition run {A} (m : M sched A) (s : sched) : sched :=
  match m s with Ok (_, s') => s' | _ => s end.

(** Task B on CPU 1's high queue. *)
Definition demo1 : sched := run (enqueue_task CPU1 TASK_B) demo.
Definition view1 : place -> list Z := vset (Rq CPU1 0) [TASK_B] (fun _ => []).

Lemma demo1_ok : sched_ok demo1 view1.
Proof.
  destruct (enqueue_spec demo (fun _ => []) CPU1 (demo_cpu 1 TASK_K IDLE1) TASK_B (demo_task 11 PRIO_HIGH TASK_READY)
    demo_ok ltac:(by_decide) ltac:(by_decide) ltac:(done) ltac:(intros a; apply not_elem_of_nil)) as (s' & E & Hok & _).
  unfold demo1, run. rewrite E. exact Hok.
Qed.

Lemma demo1_idle u : u <> TASK_B -> idle_in view1 u.
Proof.
  intros Hu a. unfold view1, vset. case_decide; [|apply not_elem_of_nil]. by rewrite list_elem_of_singleton.
Qed.

Definition ctx_at (s : sched) (c : Z) : cpu_context := default (demo_cpu 0 NULL NULL) (cpus s !! c).
Definition task_at (s : sched) (t : Z) : task := default (demo_task 0 0 TASK_READY) (tasks s !! t).

Lemma demo1_cpu_ok c x cur :
  cpus demo1 !! c = Some x -> is_Some (tasks demo1 !! idle_task x) -> idle_task x <> TASK_B ->
  current_task x <> NULL -> tasks demo1 !! current_task x = Some cur -> current_task x <> TASK_B ->
  current_task x <> idle_task x -> cpu_ok demo1 view1 x cur.
Proof. intros. split; try done; [by apply demo1_idle|]. intros _. split; [by apply demo1_idle|done]. Qed.

Lemma demo1_table : table_ok demo1.
Proof.
  intros i. change (cpu_table demo1) with (list_to_map [(0, CPU0); (1, CPU1)] : gmap Z Z). unfold rd. simpl.
  destruct (decide (i = 0)) as [->|H0]; [intros _; by_decide|].
  destruct (decide (i = 1)) as [->|H1]; [intros _; by_decide|].
  rewrite !lookup_insert_ne by congruence. by rewrite lookup_empty.
Qed.

(** ** The theorems at these states *)

Lemma enqueue_task_correct_witness :
  exists s' tk', enqueue_task CPU1 TASK_B demo = Ok (tt, s') /\
    sched_ok s' (vset (Rq CPU1 0) [TASK_B] (fun _ => [])) /\ tasks s' !! TASK_B = Some tk' /\ priority tk' = 0.
Proof.
  destruct (enqueue_task_correct demo (fun _ => []) CPU1 (demo_cpu 1 TASK_K IDLE1) TASK_B
    (demo_task 11 PRIO_HIGH TASK_READY) demo_ok ltac:(by_decide) ltac:(by_decide) ltac:(done)
    ltac:(intros a; apply not_elem_of_nil)) as (s' & tk' & E & Hok & Ht & Hp & _).
  exists s', tk'. exact (conj E (conj Hok (conj Ht Hp))).
Defined.

Lemma dequeue_task_correct_witness :
  exists r s' v', dequeue_task CPU1 demo1 = Ok (r, s') /\ sched_ok s' v' /\ r <> NULL.
Proof.
  destruct (dequeue_task_correct demo1 view1 CPU1 (ctx_at demo1 CPU1) demo1_ok ltac:(by_decide))
    as (r & s' & v' & E & Hok & _ & Hn & _).
  exists r, s', v'. split; [exact E|]. split; [exact Hok|].
  intros Hr. pose proof (proj1 Hn Hr 0 ltac:(by_decide)) as Hv. discriminate Hv.
Defined.

Lemma prio_boost_correct_witness :
  exists s', prio_boost CPU1 demo1 = Ok (tt, s') /\ sched_ok s' (promoted CPU1 view1).
Proof.
  destruct (prio_boost_correct demo1 view1 CPU1 (ctx_at demo1 CPU1) demo1_ok ltac:(by_decide)) as (s' & E & Hok & _).
  exists s'. exact (conj E Hok).
Defined.

Lemma steal_task_from_cpu_correct_witness :
  exists r s' v', steal_task_from_cpu CPU1 demo1 = Ok (r, s') /\ sched_ok s' v' /\ stolen demo1 view1 CPU1 r v'.
Proof.
  destruct (steal_task_from_cpu_correct demo1 view1 CPU1 (ctx_at demo1 CPU1) demo1_ok ltac:(by_decide) ltac:(by_decide))
    as (r & s' & v' & E & Hok & Hst & _).
  exists r, s', v'. exact (conj E (conj Hok Hst)).
Defined.

Lemma demo1_cpu0 : cpu_ok demo1 view1 (ctx_at demo1 CPU0) (task_at demo1 TASK_A).
Proof. by apply (demo1_cpu_ok CPU0); by_decide. Qed.

Lemma schedule_correct_witness :
  exists nxt tk' s' v', schedule 0x8f00 demo1 = Ok (rsp tk', s') /\ sched_ok s' v' /\ idle_in v' nxt /\
    scheduled demo1 s' CPU0 (ctx_at demo1 CPU0) (task_at demo1 TASK_A) 0x8f00 nxt tk'.
Proof.
  destruct (schedule_correct demo1 view1 CPU0 (ctx_at demo1 CPU0) (task_at demo1 TASK_A) 0x8f00
    ltac:(by_decide) demo1_ok ltac:(by_decide) demo1_table ltac:(by_decide) demo1_cpu0)
    as (nxt & tk' & s' & v' & E & Hok & _ & Hi & Hsc).
  exists nxt, tk', s', v'. exact (conj E (conj Hok (conj Hi Hsc))).
Defined.

Lemma schedule_exclusive_witness :
  exists r s' x' y', schedule 0x8f00 demo1 = Ok (r, s') /\ cpus s' !! CPU0 = Some x' /\ cpus s' !! CPU1 = Some y' /\
    current_task y' = TASK_K /\ current_task x' <> current_task y'.
Proof.
  exact (schedule_exclusive demo1 view1 CPU0 (ctx_at demo1 CPU0) (task_at demo1 TASK_A) 0x8f00 CPU1 (ctx_at demo1 CPU1)
    ltac:(by_decide) demo1_ok ltac:(by_decide) demo1_table ltac:(by_decide) demo1_cpu0 ltac:(by_decide) ltac:(by_decide)
    (demo1_idle TASK_K ltac:(by_decide)) ltac:(by_decide) ltac:(by_decide)).
Defined.

Lemma running_task_can_be_stolen_witness :
  exists s1 s2 y, put_current CPU0 TASK_A 0x8f00 demo1 = Ok (tt, s1) /\
    steal_task_from_cpu CPU0 s1 = Ok (TASK_A, s2) /\ cpus s2 !! CPU0 = Some y /\ current_task y = TASK_A.
Proof.
  exact (running_task_can_be_stolen demo1 view1 CPU0 (ctx_at demo1 CPU0) (task_at demo1 TASK_A) 0x8f00
    demo1_ok ltac:(by_decide) ltac:(by_decide) demo1_cpu0 ltac:(by_decide) ltac:(by_decide) ltac:(by_decide)
    (fun p => eq_refl)).
Defined.
