(* ===== verification/Mutex.v ===== *)
(** * Mutexes

    Models the mutex half of [kernel/atomic/atomic.c] on top of the scheduler
    ([Sched]).

    - [mutex] is [mutex_t]; [mstate] is one mutex beside the scheduler.
    - [mutex_pass] is one turn of the loop of [mutex_lock]: it acquires the
      mutex, or puts the current task on the wait list; the caller then yields
      and, once it runs again, takes the next turn.
    - [mutex_unlock] is the whole routine. *)

From S2P Require Import Prelude Lock Chain Sched Runqueue Balance Schedule SchedDemo.

(** [mutex_t] *)
Record mutex := mkMutex { count : Z; wait_lock_ : spinlock; wait_list : Z; owner : Z }.

Record mstate := mkMstate { ms_sched : sched; ms_mutex : mutex }.

Definition set_sched (s : sched) (m : mstate) : mstate := mkMstate s (ms_mutex m).
Definition set_mutex (x : mutex) (m : mstate) : mstate := mkMstate (ms_sched m) x.

#[export] Instance mstate_hart : HasHart mstate := Lens
  (fun m => lget hart_of (ms_sched m)) (fun h m => set_sched (lset hart_of h (ms_sched m)) m).
#[export] Instance mstate_hart_ok : HasHartOk mstate.
Proof. split; intros; try destruct s as [[] ?]; done. Qed.

Definition wait_lock : lens mstate spinlock := Lens
  (fun m => wait_lock_ (ms_mutex m))
  (fun l m => set_mutex (mkMutex (count (ms_mutex m)) l (wait_list (ms_mutex m)) (owner (ms_mutex m))) m).
#[export] Instance wait_lock_ok : LensOk wait_lock.
Proof. split; intros; try destruct s as [? []]; done. Qed.
#[export] Instance wait_lock_indep : LensIndep wait_lock hart_of.
Proof. by split. Qed.

(** A scheduler routine, run beside the mutex. *)
Definition on_sched {A} (m : M sched A) : M mstate A := fun s =>
  match m (ms_sched s) with
  | Ok (a, s') => Ok (a, set_sched s' s)
  | Fault => Fault
  | Hang => Hang
  | Panic => Panic
  end.

Definition upd_mutex (f : mutex -> mutex) : M mstate unit := modify (fun m => set_mutex (f (ms_mutex m)) m).
Definition set_count (v : Z) (m : mutex) : mutex := mkMutex v (wait_lock_ m) (wait_list m) (owner m).
Definition set_wait_list (v : Z) (m : mutex) : mutex := mkMutex (count m) (wait_lock_ m) v (owner m).
Definition set_owner (v : Z) (m : mutex) : mutex := mkMutex (count m) (wait_lock_ m) (wait_list m) v.

(** ** Operations *)

(** One turn of the loop of [mutex_lock]: true when the mutex was acquired *)
Definition mutex_turn (current : Z) : M mstate bool :=
  critical wait_lock (
    m <- gets ms_mutex ;;
    if 0 <? count m then
      upd_mutex (set_count 0) ;;;
      upd_mutex (set_owner current) ;;;
      ret true
    else
      on_sched (upd_task current (set_state TASK_BLOCKED)) ;;;
      on_sched (upd_task current (set_wait_reason REASON_MUTEX)) ;;;
      on_sched (upd_task current (set_sched_next (wait_list m))) ;;;
      upd_mutex (set_wait_list current) ;;;
      ret false).

(** [mutex_lock] up to its first [sched_yield]; a task that was put on the
    wait list takes another [mutex_turn] each time it runs again *)
Definition mutex_lock : M mstate bool :=
  h <- gets (lget hart_of) ;;
  if negb (g_lock_enabled h) then ret true else
  current <- on_sched sched_get_current ;;
  mutex_turn current.

Definition mutex_unlock : M mstate unit :=
  h <- gets (lget hart_of) ;;
  if negb (g_lock_enabled h) then ret tt else
  task_to_wake <- critical wait_lock (
    upd_mutex (set_owner NULL) ;;;
    m <- gets ms_mutex ;;
    if negb (wait_list m =? NULL) then
      let t := wait_list m in
      tk <- on_sched (get_task t) ;;
      upd_mutex (set_wait_list (sched_next tk)) ;;;
      on_sched (upd_task t (set_sched_next NULL)) ;;;
      ret t
    else
      upd_mutex (set_count 1) ;;;
      ret NULL) ;;
  when (negb (task_to_wake =? NULL))
    (on_sched (upd_task task_to_wake (set_state TASK_READY)) ;;;
     tk <- on_sched (get_task task_to_wake) ;;
     target_cpu <- on_sched (get_cpu_by_id (task_cpu tk)) ;;
     on_sched (enqueue_task target_cpu task_to_wake)).

(** ** One turn *)

(** Nobody is inside the mutex's own spinlock. *)
Definition mutex_idle (s : mstate) : Prop := hart_ok (lget hart_of s) /\ lock_free (wait_lock_ (ms_mutex s)).

Definition waiting (next : Z) (tk : task) : task :=
  set_sched_next next (set_wait_reason REASON_MUTEX (set_state TASK_BLOCKED tk)).

(** The state after the mutex's spinlock was taken and released. *)
Definition settle (s : mstate) (sc : sched) (m : mutex) : mstate :=
  mkMstate sc (mkMutex (count m) (released (lget hart_of s) (wait_lock_ (ms_mutex s))) (wait_list m) (owner m)).

Lemma settle_idle s sc m :
  mutex_idle s -> s_hart sc = s_hart (ms_sched s) -> mutex_idle (settle s sc m).
Proof. intros [Hh Hl] E. split; cbn; [by rewrite E|by apply released_free]. Qed.

Lemma mutex_turn_open s t :
  mutex_idle s -> 0 < count (ms_mutex s) ->
  mutex_turn t s = Ok (true, settle s (ms_sched s) (set_owner t (set_count 0 (ms_mutex s)))).
Proof.
  intros [Hh Hl] Hc. unfold mutex_turn.
  rewrite (critical_ok wait_lock _ s true
    (mkMstate (ms_sched (enter wait_lock s)) (set_owner t (set_count 0 (ms_mutex (enter wait_lock s)))))); try done.
  - destruct s as [[] []]; done.
  - unfold bind, gets. cbn [ms_mutex enter set_mutex set_sched lset lget wait_lock hart_of mstate_hart count].
    by rewrite (proj2 (Z.ltb_lt _ _)) by done.
Qed.

Lemma on_sched_upd s t tk f :
  tasks (ms_sched s) !! t = Some tk ->
  on_sched (upd_task t f) s = Ok (tt, set_sched (set_tasks (<[t := f tk]> (tasks (ms_sched s))) (ms_sched s)) s).
Proof. intros Ht. unfold on_sched, upd_task, get_task. cbv [bind gets]. by rewrite Ht. Qed.

Lemma on_sched_upd_bind {A} s t tk f (k : unit -> M mstate A) :
  tasks (ms_sched s) !! t = Some tk ->
  (y <- on_sched (upd_task t f) ;; k y) s =
  k tt (set_sched (set_tasks (<[t := f tk]> (tasks (ms_sched s))) (ms_sched s)) s).
Proof. intros Ht. by rewrite (bind_ok _ _ _ _ _ (on_sched_upd s t tk f Ht)). Qed.

Lemma mutex_turn_shut s t tk :
  mutex_idle s -> count (ms_mutex s) <= 0 -> tasks (ms_sched s) !! t = Some tk ->
  mutex_turn t s = Ok (false, settle s
    (set_tasks (<[t := waiting (wait_list (ms_mutex s)) tk]> (tasks (ms_sched s))) (ms_sched s))
    (set_wait_list t (ms_mutex s))).
Proof.
  intros [Hh Hl] Hc Ht. unfold mutex_turn.
  set (e := enter wait_lock s).
  rewrite (critical_ok wait_lock _ s false
    (mkMstate (set_tasks (<[t := waiting (wait_list (ms_mutex s)) tk]> (tasks (ms_sched s))) (ms_sched e))
       (set_wait_list t (ms_mutex e)))); try done.
  fold e. unfold bind at 1, gets at 1. change (count (ms_mutex e)) with (count (ms_mutex s)).
  rewrite (proj2 (Z.ltb_ge _ _)) by done.
  rewrite (bind_ok _ _ _ _ _ (on_sched_upd e t tk _ Ht)).
  do 2 (erewrite on_sched_upd_bind; [|apply lookup_insert_eq]).
  cbn [ms_sched set_sched tasks set_tasks]. by rewrite !insert_insert_eq.
Qed.

(** Turns of several tasks, one after the other. *)
Fixpoint turns (us : list Z) : M mstate (list bool) :=
  match us with
  | [] => ret []
  | u :: us => b <- mutex_turn u ;; bs <- turns us ;; ret (b :: bs)
  end.

(** A mutex that is taken stays taken, whoever asks for it. *)
Lemma turns_shut us s :
  mutex_idle s -> count (ms_mutex s) <= 0 -> (forall u, u ∈ us -> is_Some (tasks (ms_sched s) !! u)) ->
  exists s', turns us s = Ok ((fun _ => false) <$> us, s') /\ mutex_idle s' /\
    count (ms_mutex s') = count (ms_mutex s) /\ owner (ms_mutex s') = owner (ms_mutex s).
Proof.
  revert s. induction us as [|u us IH]; intros s Hs Hc Hts; [by exists s|].
  destruct (Hts u ltac:(by left)) as [tk Ht]. cbn [turns].
  rewrite (bind_ok _ _ _ _ _ (mutex_turn_shut s u tk Hs Hc Ht)). set (s1 := settle s _ _).
  destruct (IH s1) as (s' & E & Hs' & Ec & Eo); [by apply settle_idle|done| |].
  { intros w Hw. cbn [s1 settle ms_sched set_tasks tasks]. destruct (decide (w = u)) as [->|].
    - by rewrite lookup_insert_eq.
    - rewrite lookup_insert_ne by done. apply Hts. by right. }
  exists s'. rewrite (bind_ok _ _ _ _ _ E). by split_and!.
Qed.

(** ** Unlocking *)

Lemma mutex_unlock_run s :
  mutex_idle s -> g_lock_enabled (lget hart_of s) = true -> wait_list (ms_mutex s) = NULL ->
  mutex_unlock s = Ok (tt, settle s (ms_sched s) (set_count 1 (set_owner NULL (ms_mutex s)))).
Proof.
  intros [Hh Hl] He Hw. unfold mutex_unlock. unfold bind at 1, gets at 1. rewrite He. cbn [negb].
  set (e := enter wait_lock s).
  erewrite bind_ok; [|apply (critical_ok wait_lock _ s NULL
    (mkMstate (ms_sched e) (set_count 1 (set_owner NULL (ms_mutex e))))); try done].
  - destruct s as [[] []]; done.
  - fold e. unfold bind, upd_mutex, modify, gets. cbn [ms_mutex set_mutex].
    change (wait_list (set_owner NULL (ms_mutex e))) with (wait_list (ms_mutex s)). by rewrite Hw.
Qed.

(** The waiter, taken off the list and made ready. *)
Definition woken (tk : task) : task := set_state TASK_READY (set_sched_next NULL tk).

Lemma mutex_unlock_wakes s tk :
  let t := wait_list (ms_mutex s) in
  let sc := set_tasks (<[t := woken tk]> (tasks (ms_sched s))) (ms_sched s) in
  mutex_idle s -> g_lock_enabled (lget hart_of s) = true -> t <> NULL -> tasks (ms_sched s) !! t = Some tk ->
  mutex_unlock s = on_sched (c <- get_cpu_by_id (task_cpu tk) ;; enqueue_task c t)
    (settle s sc (set_wait_list (sched_next tk) (set_owner NULL (ms_mutex s)))).
Proof.
  intros t sc [Hh Hl] He Ht0 Ht. unfold mutex_unlock. unfold bind at 1, gets at 1. rewrite He. cbn [negb].
  set (e := enter wait_lock s). set (m1 := set_wait_list (sched_next tk) (set_owner NULL (ms_mutex s))).
  set (ts1 := <[t := set_sched_next NULL tk]> (tasks (ms_sched s))).
  erewrite bind_ok; [|apply (critical_ok wait_lock _ s t
    (mkMstate (set_tasks ts1 (ms_sched e)) (set_wait_list (sched_next tk) (set_owner NULL (ms_mutex e))))); try done].
  - rewrite (proj2 (Z.eqb_neq _ _)) by done. cbn [negb when].
    replace (leave wait_lock s _) with (settle s (set_tasks ts1 (ms_sched s)) m1) by (destruct s as [[] []]; done).
    erewrite on_sched_upd_bind by apply lookup_insert_eq.
    cbn [ms_sched settle set_tasks set_sched tasks]. unfold ts1. rewrite insert_insert_eq.
    fold (woken tk). unfold on_sched at 1. unfold get_task. cbv [bind gets]. cbn [ms_sched set_sched set_tasks tasks].
    rewrite lookup_insert_eq. cbn [deref]. unfold ret. unfold on_sched, get_cpu_by_id, bind, gets, ret.
    change (task_cpu (woken tk)) with (task_cpu tk). cbn [ms_sched set_sched settle].
    by destruct (32 <=? task_cpu tk).
  - fold e. unfold bind at 1, upd_mutex at 1, modify at 1. unfold bind at 1, gets at 1. cbn [ms_mutex set_mutex].
    change (wait_list (set_owner NULL (ms_mutex e))) with t. rewrite (proj2 (Z.eqb_neq _ _)) by done. cbn [negb].
    unfold bind at 1, on_sched at 1, get_task. cbv [bind gets]. cbn [ms_sched set_mutex e enter lset wait_lock hart_of mstate_hart set_sched sched_hart tasks lget].
    rewrite Ht. cbn [deref]. unfold ret. cbn [upd_mutex modify]. unfold upd_mutex, modify.
    erewrite on_sched_upd; [done|]. exact Ht.
Qed.

(** ** Correctness *)

Lemma current_of s x :
  cpus (ms_sched s) !! this_cpu (ms_sched s) = Some x ->
  on_sched sched_get_current s = Ok (current_task x, s).
Proof.
  intros Hx. unfold on_sched, sched_get_current, get_cpu, get_ctx. cbv [bind gets]. rewrite Hx. by destruct s.
Qed.

(** [mutex_lock] lets exactly one task in. On an open mutex the caller
    becomes the owner and the mutex is closed; on a closed one it does not get
    in, owner and count are unchanged, and the caller is blocked at the front
    of the wait list. *)
Theorem mutex_lock_correct s x tk :
  let sc := ms_sched s in let m := ms_mutex s in let t := current_task x in
  mutex_idle s -> g_lock_enabled (lget hart_of s) = true ->
  cpus sc !! this_cpu sc = Some x -> tasks sc !! t = Some tk ->
  exists b s', mutex_lock s = Ok (b, s') /\ mutex_idle s' /\ (b = true <-> 0 < count m) /\
    count (ms_mutex s') = (if b then 0 else count m) /\ owner (ms_mutex s') = (if b then t else owner m) /\
    (b = false -> wait_list (ms_mutex s') = t /\ tasks (ms_sched s') !! t = Some (waiting (wait_list m) tk)).
Proof.
  intros sc m t Hs He Hx Ht. unfold mutex_lock. unfold bind at 1, gets at 1. rewrite He. cbn [negb].
  rewrite (bind_ok _ _ _ _ _ (current_of s x Hx)). fold t. destruct (Z.lt_ge_cases 0 (count m)) as [Hc|Hc].
  - rewrite (mutex_turn_open s t Hs Hc). eexists true, _. split; [done|]. split; [by apply settle_idle|]. by split_and!.
  - rewrite (mutex_turn_shut s t tk Hs Hc Ht). eexists false, _. split; [done|]. split; [by apply settle_idle|].
    split; [by split; [|lia]|]. split_and!; [done|done|]. intros _. split; [done|]. apply lookup_insert_eq.
Qed.

(** Without a waiter [mutex_unlock] reopens the mutex: the owner is
    cleared, the count is one, and the scheduler is untouched, so that the
    next [mutex_lock] gets in. *)
Theorem mutex_unlock_reopens s u :
  mutex_idle s -> g_lock_enabled (lget hart_of s) = true -> wait_list (ms_mutex s) = NULL ->
  exists s' s2, mutex_unlock s = Ok (tt, s') /\ mutex_idle s' /\ ms_sched s' = ms_sched s /\
    count (ms_mutex s') = 1 /\ owner (ms_mutex s') = NULL /\ mutex_turn u s' = Ok (true, s2).
Proof.
  intros Hs He Hw. rewrite (mutex_unlock_run s Hs He Hw). eexists _, _.
  split; [done|]. split; [by apply settle_idle|]. split_and!; try done.
  apply mutex_turn_open; [by apply settle_idle|done].
Qed.

(** C37: unlocking a mutex that somebody waits for loses it. [mutex_unlock]
    wakes the first waiter but leaves the mutex closed and without an owner;
    from then on every turn of every task, the woken one included, fails and
    blocks its caller, in any order and any number. *)
Theorem mutex_unlock_loses_mutex s v tk y :
  let sc := ms_sched s in let t := wait_list (ms_mutex s) in
  mutex_idle s -> g_lock_enabled (lget hart_of s) = true -> count (ms_mutex s) = 0 ->
  sched_ok sc v -> t <> NULL -> tasks sc !! t = Some tk -> idle_in v t ->
  0 <= task_cpu tk < 32 -> cpus sc !! rd (cpu_table sc) (task_cpu tk) = Some y ->
  exists s1, mutex_unlock s = Ok (tt, s1) /\ count (ms_mutex s1) = 0 /\ owner (ms_mutex s1) = NULL /\
    forall us, (forall u, u ∈ us -> is_Some (tasks sc !! u)) ->
    exists s2, turns us s1 = Ok ((fun _ => false) <$> us, s2) /\ count (ms_mutex s2) = 0 /\ owner (ms_mutex s2) = NULL.
Proof.
  intros sc t Hs He Hc Hok Ht0 Ht Hi Hcpu Hy. rewrite (mutex_unlock_wakes s tk Hs He Ht0 Ht). fold sc t.
  set (c := rd (cpu_table sc) (task_cpu tk)) in *. set (sc1 := mk sc (<[t := woken tk]> (tasks sc)) (cpus sc)).
  destruct (enqueue_spec sc1 v c y t (woken tk)) as (sc2 & E & Hok2 & Hf & Et); try done.
  { by apply sched_ok_idle_upd. }
  { apply lookup_insert_eq. }
  replace (set_tasks (<[t := woken tk]> (tasks sc)) sc) with sc1 by (by destruct sc).
  set (m1 := set_wait_list (sched_next tk) (set_owner NULL (ms_mutex s))).
  assert (on_sched (c <- get_cpu_by_id (task_cpu tk) ;; enqueue_task c t) (settle s sc1 m1) = Ok (tt, settle s sc2 m1)) as ->.
  { unfold on_sched. cbn [ms_sched settle].
    rewrite (bind_ok _ _ _ _ _ (get_cpu_by_id_eq sc1 (task_cpu tk) Hcpu)).
    change (rd (cpu_table sc1) (task_cpu tk)) with c. by rewrite E. }
  eexists. split; [done|]. split_and!; [done|done|]. intros us Hus.
  destruct (turns_shut us (settle s sc2 m1)) as (s2 & E2 & _ & Ec & Eo).
  - apply settle_idle; [done|]. by rewrite (framed_hart _ _ _ Hf).
  - cbn. by rewrite Hc.
  - intros u Hu. cbn [ms_sched settle]. apply (fr_dom _ _ _ Hf). cbn [sc1 mk set_cpus set_tasks tasks].
    destruct (decide (u = t)) as [->|]; [by rewrite lookup_insert_eq|]. rewrite lookup_insert_ne by done. by apply Hus.
  - exists s2. split; [done|]. rewrite Ec, Eo. by rewrite <-Hc.
Qed.

(** Unlocking a mutex whose first waiter is a migratable task faults. The
    scheduler clears the [cpu_id] of such a task when it switches away from
    it, so [get_cpu_by_id] gives [mutex_unlock] a null context to enqueue the
    task on. *)
Theorem mutex_unlock_faults s tk :
  let t := wait_list (ms_mutex s) in
  mutex_idle s -> g_lock_enabled (lget hart_of s) = true -> t <> NULL -> tasks (ms_sched s) !! t = Some tk ->
  task_cpu tk = NO_CPU -> cpus (ms_sched s) !! NULL = None -> mutex_unlock s = Fault.
Proof.
  intros t Hs He Ht0 Ht Hn H0. rewrite (mutex_unlock_wakes s tk Hs He Ht0 Ht). fold t.
  unfold on_sched, get_cpu_by_id. rewrite Hn. change (32 <=? NO_CPU) with true. cbv iota.
  cbv [bind ret]. unfold enqueue_task, get_ctx. cbv [bind gets]. cbn [ms_sched settle set_tasks cpus]. by rewrite H0.
Qed.

(** ** The theorems at concrete states *)

(** A mutex task A holds and task K, bound to CPU 1, waits for. *)
Definition demo_mutex (wl : Z) : mutex := mkMutex 0 spinlock_init wl TASK_A.
Definition demo_waiter (cpu : Z) : sched :=
  set_tasks (<[TASK_K := set_task_cpu cpu (waiting NULL (demo_task 3 PRIO_NORMAL TASK_RUNNING))]> (tasks demo)) demo.

Lemma demo_idle m : lock_free (wait_lock_ m) -> mutex_idle (mkMstate demo m).
Proof. split; [intros _; by exists 0|done]. Qed.

Lemma mutex_lock_correct_witness :
  exists b s', mutex_lock (mkMstate demo (demo_mutex NULL)) = Ok (b, s') /\ b = false.
Proof.
  destruct (mutex_lock_correct (mkMstate demo (demo_mutex NULL)) (demo_cpu 0 TASK_A IDLE0)
    (demo_task 10 PRIO_NORMAL TASK_RUNNING) (demo_idle (demo_mutex NULL) eq_refl) eq_refl
    ltac:(vm_compute; reflexivity) ltac:(vm_compute; reflexivity)) as (b & s' & E & _ & Hb & _).
  exists b, s'. split; [exact E|]. destruct b; [|reflexivity]. pose proof (proj1 Hb eq_refl) as H0. by vm_compute in H0.
Defined.

Lemma mutex_unlock_reopens_witness :
  exists s' s2, mutex_unlock (mkMstate demo (demo_mutex NULL)) = Ok (tt, s') /\ mutex_turn TASK_K s' = Ok (true, s2).
Proof.
  destruct (mutex_unlock_reopens (mkMstate demo (demo_mutex NULL)) TASK_K (demo_idle (demo_mutex NULL) eq_refl)
    eq_refl eq_refl) as (s' & s2 & E & _ & _ & _ & _ & E2).
  exists s', s2. exact (conj E E2).
Defined.

Lemma demo_waiter_ok cpu : sched_ok (demo_waiter cpu) (fun _ => []).
Proof.
  pose proof (sched_ok_idle_upd demo (fun _ => []) TASK_K
    (set_task_cpu cpu (waiting NULL (demo_task 3 PRIO_NORMAL TASK_RUNNING))) demo_ok
    ltac:(intros a; apply not_elem_of_nil)) as Hok. exact Hok.
Qed.

Lemma mutex_unlock_loses_mutex_witness :
  exists s1 s2, mutex_unlock (mkMstate (demo_waiter 1) (demo_mutex TASK_K)) = Ok (tt, s1) /\
    turns [TASK_K; TASK_A] s1 = Ok ([false; false], s2).
Proof.
  destruct (mutex_unlock_loses_mutex (mkMstate (demo_waiter 1) (demo_mutex TASK_K)) (fun _ => [])
    (set_task_cpu 1 (waiting NULL (demo_task 3 PRIO_NORMAL TASK_RUNNING))) (demo_cpu 1 TASK_K IDLE1)
    ltac:(split; by_decide) eq_refl eq_refl (demo_waiter_ok 1) ltac:(by_decide) ltac:(vm_compute; reflexivity)
    ltac:(intros a; apply not_elem_of_nil) ltac:(by_decide) ltac:(vm_compute; reflexivity)) as (s1 & E & _ & _ & Hall).
  destruct (Hall [TASK_K; TASK_A]) as (s2 & E2 & _).
  { intros u Hu. apply elem_of_cons in Hu as [->|Hu]; [by_decide|]. apply list_elem_of_singleton in Hu as ->. by_decide. }
  exists s1, s2. exact (conj E E2).
Defined.

Lemma mutex_unlock_faults_witness :
  mutex_unlock (mkMstate (demo_waiter NO_CPU) (demo_mutex TASK_K)) = Fault.
Proof.
  exact (mutex_unlock_faults (mkMstate (demo_waiter NO_CPU) (demo_mutex TASK_K))
    (set_task_cpu NO_CPU (waiting NULL (demo_task 3 PRIO_NORMAL TASK_RUNNING)))
    ltac:(split; by_decide) eq_refl ltac:(by_decide) ltac:(vm_compute; reflexivity) eq_refl ltac:(vm_compute; reflexivity)).
Defined.
