(* ===== verification/Wakeup.v ===== *)
(** * Waking blocked tasks

    [sched_wakeup] splits the blocked list: the tasks that wait for the reason
    go to the runqueues of their CPUs, in reverse order, the others stay. *)

From S2P Require Import Prelude Lock Chain Sched Runqueue Balance Schedule.

(** ** Splitting the blocked list *)

(** States that differ in the tasks and the head of the blocked list. *)
Definition bk (s : sched) (ts : gmap Z task) (b : Z) : sched := set_blocked_task_list b (mk s ts (cpus s)).

Definition waits_for (reason : task_reason) (ts : gmap Z task) (u : Z) : bool :=
  match ts !! u with Some t => bool_decide (wait_reason t = reason) | None => false end.

(** [pp] after the tasks [k] were passed over. *)
Definition link_after (k : list Z) : link := match last k with None => BlockedHead | Some t => NextOf t end.

Lemma nx_upd ts t tk tk' u : ts !! t = Some tk -> nx (<[t := tk']> ts) u = if decide (u = t) then Some (sched_next tk') else nx ts u.
Proof.
  intros Ht. unfold nx. case_decide; subst; [by rewrite lookup_insert_eq|by rewrite lookup_insert_ne].
Qed.

Lemma read_link_after s ts b k r :
  chain (nx ts) b (k ++ r) NULL -> read_link (link_after k) (bk s ts b) = Ok (default NULL (head r), bk s ts b).
Proof.
  intros Hc. apply chain_app in Hc as (h & Hk & Hr). rewrite <-(chain_head _ _ _ Hr). unfold link_after.
  destruct k as [|x k _] using rev_ind; [simpl in Hk; by subst h|]. rewrite last_snoc. apply chain_app in Hk as (h' & Hk & (-> & Hx & n & Hn & ->)).
  unfold nx in Hn. destruct (ts !! x) as [tk|] eqn:E; [|done]. injection Hn as <-.
  cbn [read_link]. unfold get_task, bind, gets, deref. cbn [bk set_blocked_task_list mk set_cpus set_tasks tasks]. by rewrite E.
Qed.

(** Unlinking the first remaining task. *)
Lemma write_link_after s ts b k t r v :
  chain (nx ts) b (k ++ t :: r) NULL -> NoDup (k ++ t :: r) -> nx ts t = Some v ->
  exists ts' b', write_link (link_after k) v (bk s ts b) = Ok (tt, bk s ts' b') /\ chain (nx ts') b' (k ++ r) NULL /\
    (forall u, u ∉ k -> ts' !! u = ts !! u) /\ same_tasks ts ts'.
Proof.
  intros Hc Hnd Hv. apply chain_app in Hc as (h & Hk & (-> & Ht & n & Hn & Hr)). rewrite Hv in Hn. injection Hn as ->.
  unfold link_after. destruct k as [|x k _] using rev_ind; [by exists ts, n|]. rewrite last_snoc. apply chain_app in Hk as (h' & Hk & (-> & Hx & n' & Hn & ->)).
  unfold nx in Hn. destruct (ts !! x) as [tk|] eqn:E; [|done].
  exists (<[x := set_sched_next n tk]> ts), b. split_and!.
  - cbn [write_link]. unfold upd_task, get_task, bind, gets, deref, modify. cbn [bk set_blocked_task_list mk set_cpus set_tasks tasks]. by rewrite E.
  - rewrite <-app_assoc in Hnd. apply NoDup_app in Hnd as (_ & Hd & Hnd). simpl in Hnd. apply NoDup_cons in Hnd as [Hn1 Hnd].
    rewrite <-app_assoc. apply chain_app. exists x. split; [|simpl; split_and!; [done|done|]].
    + apply (chain_frame (nx ts)); [|done]. intros u Hu. rewrite (nx_upd _ _ tk) by done. rewrite decide_False; [done|]. intros ->. apply (Hd x Hu). by left.
    + exists n. split; [by rewrite (nx_upd _ _ tk), decide_True|]. apply (chain_frame (nx ts)); [|done].
      intros u Hu. rewrite (nx_upd _ _ tk) by done. rewrite decide_False; [done|]. intros ->. apply Hn1. by right.
  - intros u Hu. rewrite lookup_insert_ne; [done|]. intros ->. apply Hu, elem_of_app. right. by left.
  - intros u. destruct (decide (u = x)) as [->|]; [by rewrite lookup_insert_eq, E|by rewrite lookup_insert_ne].
Qed.

Lemma get_task_bk {A} s ts b t tk (k : task -> M sched A) : ts !! t = Some tk -> (x <- get_task t ;; k x) (bk s ts b) = k tk (bk s ts b).
Proof. intros E. unfold get_task, bind, gets, deref. cbn [bk set_blocked_task_list mk set_cpus set_tasks tasks]. by rewrite E. Qed.

Lemma upd_task_bk {A} s ts b t tk f (k : unit -> M sched A) : ts !! t = Some tk ->
  bind (upd_task t f) k (bk s ts b) = k tt (bk s (<[t := f tk]> ts) b).
Proof. intros E. unfold upd_task. rewrite bind_bind. exact (get_task_bk _ _ _ _ tk _ E). Qed.

Lemma filter_ext_in (P Q : Z -> bool) (l : list Z) : (forall u, u ∈ l -> P u = Q u) -> filter P l = filter Q l.
Proof.
  induction l as [|x l IH]; intros H; [done|]. rewrite !filter_cons, (H x) by (by left). rewrite IH; [done|]. intros u Hu. apply H. by right.
Qed.

Lemma filter_none (l : list Z) : filter (fun _ => false) l = [].
Proof. by induction l as [|x l IH]. Qed.

Definition ready (t : task) : task := set_state TASK_READY t.

Section collect.
Context (reason : task_reason) (s : sched).
Notation waits ts := (waits_for reason ts).
Notation stays ts := (fun u => negb (waits_for reason ts u)).

Lemma collect_run fuel ts b k r w tw :
  (length r < fuel)%nat -> chain (nx ts) b (k ++ r) NULL -> chain (nx ts) tw w NULL -> NoDup (k ++ r ++ w) ->
  exists ts' b' tw', collect_blocked fuel reason (link_after k) tw (bk s ts b) = Ok (tw', bk s ts' b') /\
    chain (nx ts') b' (k ++ filter (stays ts) r) NULL /\ chain (nx ts') tw' (reverse (filter (waits ts) r) ++ w) NULL /\
    (forall u, unlinked <$> ts' !! u =
      (if decide (u ∈ r /\ waits ts u) then unlinked ∘ ready else unlinked) <$> ts !! u) /\
    forall u, u ∉ k ++ r ++ w -> ts' !! u = ts !! u.
Proof.
  revert ts b k r w tw. induction fuel as [|fuel IH]; intros ts b k r w tw Hf Hc Hw Hnd; [lia|]. cbn [collect_blocked].
  rewrite (bind_ok _ _ _ _ _ (read_link_after s ts b k r Hc)). destruct r as [|t r]; cbn [default head from_option]; [|change (id t) with t].
  { exists ts, b, tw. rewrite Z.eqb_refl. by split_and!. }
  pose proof Hc as Hct. apply chain_app in Hct as (h & _ & (_ & Ht0 & n & Hn & _)). rewrite (proj2 (Z.eqb_neq _ _)) by done.
  assert (exists tk, ts !! t = Some tk /\ sched_next tk = n) as (tk & Et & En).
  { unfold nx in Hn. destruct (ts !! t) as [tk|]; [|done]. injection Hn as <-. by exists tk. }
  rewrite (get_task_bk s ts b t tk) by done. rewrite !filter_cons.
  assert (waits ts t = bool_decide (wait_reason tk = reason)) as Ew by (unfold waits_for; by rewrite Et). rewrite Ew.
  assert (t ∉ k /\ t ∉ r /\ t ∉ w) as (Nk & Nr & Nw).
  { apply NoDup_app in Hnd as (_ & Hd & [Hn1 _]%NoDup_cons). split; [intros Hk; apply (Hd t Hk); by left|]. set_solver. }
  destruct (decide (wait_reason tk = reason)) as [Er|Er].
  - rewrite bool_decide_true by done. cbn [negb]. rewrite (decide_False (P := Is_true false)), (decide_True (P := Is_true true)) by (done || by intros []).
    destruct (write_link_after s ts b k t r n) as (ts1 & b1 & E1 & Hc1 & Ho1 & Hs1); [done| |done|].
    { rewrite app_assoc in Hnd. apply NoDup_app in Hnd as (? & _ & _). done. }
    rewrite En, (bind_ok _ _ _ _ _ E1). assert (ts1 !! t = Some tk) as Et1 by (by rewrite Ho1).
    rewrite (upd_task_bk _ _ _ _ tk) by done. rewrite (upd_task_bk _ _ _ _ (set_sched_next tw tk)) by (by rewrite lookup_insert_eq). rewrite insert_insert_eq.
    set (ts2 := <[t := set_state TASK_READY (set_sched_next tw tk)]> ts1).
    assert (forall u, u <> t -> ts2 !! u = ts1 !! u) as Ho2 by (intros u Hu; unfold ts2; by rewrite lookup_insert_ne).
    assert (forall u, u <> t -> nx ts2 u = nx ts1 u) as Hnx2 by (intros u Hu; unfold nx; by rewrite Ho2).
    destruct (IH ts2 b1 k r (t :: w) t) as (ts' & b' & tw' & E & Hc' & Hw' & Hu & Ho).
    { simpl in Hf. lia. }
    { apply (chain_frame (nx ts1)); [|done]. intros u Hu. apply Hnx2. intros ->. set_solver. }
    { simpl. split_and!; [done|done|]. exists tw. split; [unfold nx, ts2; by rewrite lookup_insert_eq|].
      apply (chain_frame (nx ts)); [|done]. intros u Huw. rewrite Hnx2 by (by intros ->). unfold nx. rewrite Ho1; [done|].
      intros Hk. apply NoDup_app in Hnd as (_ & Hd & _). apply (Hd u Hk). set_solver. }
    { revert Hnd. apply nodup_perm. solve_Permutation. }
    assert (forall u, u ∈ r -> waits ts2 u = waits ts u) as Hwr.
    { intros u Hur. unfold waits_for. rewrite Ho2 by (by intros ->). rewrite Ho1; [done|]. intros Hk. apply NoDup_app in Hnd as (_ & Hd & _). apply (Hd u Hk). set_solver. }
    exists ts', b', tw'. split_and!; [done| | | |].
    + rewrite (filter_ext_in _ (stays ts2)); [done|]. intros u Hur. by rewrite Hwr.
    + rewrite reverse_cons, <-app_assoc. rewrite (filter_ext_in _ (waits ts2)); [done|]. intros u Hur. by rewrite Hwr.
    + intros u. rewrite Hu. destruct (decide (u = t)) as [->|Hut].
      * rewrite decide_False by (by intros [? _]). rewrite decide_True by (split; [by left|by rewrite Ew, bool_decide_true]).
        unfold ts2. rewrite lookup_insert_eq, Et. done.
      * rewrite Ho2 by done. destruct (decide (u ∈ r)) as [Hur|Hur].
        -- rewrite (decide_ext (u ∈ r /\ waits ts2 u) (u ∈ t :: r /\ waits ts u)) by (rewrite Hwr by done; set_solver).
           rewrite Ho1; [done|]. intros Hk. apply NoDup_app in Hnd as (_ & Hd & _). apply (Hd u Hk). set_solver.
        -- rewrite !decide_False by set_solver. apply Hs1.
    + intros u Hou. rewrite Ho by set_solver. rewrite Ho2 by set_solver. apply Ho1. set_solver.
  - rewrite bool_decide_false by done. cbn [negb]. rewrite (decide_False (P := Is_true false)), (decide_True (P := Is_true true)) by (done || by intros []).
    assert (link_after (k ++ [t]) = NextOf t) as El by (unfold link_after; by rewrite last_snoc). rewrite <-El.
    destruct (IH ts b (k ++ [t]) r w tw) as (ts' & b' & tw' & E & Hc' & Hw' & Hu & Ho); [simpl in Hf; lia|by rewrite <-app_assoc|done|by rewrite <-app_assoc|].
    exists ts', b', tw'. split_and!; [done|by rewrite <-app_assoc in Hc'|done| |].
    + intros u. rewrite Hu. rewrite (decide_ext (u ∈ r /\ waits ts u) (u ∈ t :: r /\ waits ts u)); [done|].
      split; [intros [? ?]; split; [by right|done]|]. intros [[->|?]%elem_of_cons Hwu]; [|done]. by rewrite Ew, bool_decide_false in Hwu.
    + intros u Hou. apply Ho. set_solver.
Qed.
End collect.

(** ** Handing the woken tasks to their CPUs *)

(** The CPU [sched_wakeup] picks for a task. *)
Definition target_cpu (s : sched) (id : Z) : Z :=
  let c := if 32 <=? id then NULL else rd (cpu_table s) id in if c =? NULL then this_cpu s else c.

Definition dest (s : sched) (ts : gmap Z task) (t : Z) : place :=
  match ts !! t with Some tk => Rq (target_cpu s (task_cpu tk)) (level (base_priority tk)) | None => Blocked end.

(** [w] appended, each task to its destination. *)
Definition handed (s : sched) (ts : gmap Z task) (w : list Z) (v : place -> list Z) : place -> list Z :=
  fun a => v a ++ filter (fun u => bool_decide (dest s ts u = a)) w.

Lemma target_run {A} s id (k : Z -> Z -> M sched A) :
  (target <- get_cpu_by_id id ;; here <- get_cpu ;; k target here) s = k (if 32 <=? id then NULL else rd (cpu_table s) id) (this_cpu s) s.
Proof. unfold get_cpu_by_id, get_cpu, bind, gets. by destruct (32 <=? id). Qed.

Lemma target_exists s id : table_ok s -> is_Some (cpus s !! this_cpu s) -> is_Some (cpus s !! target_cpu s id).
Proof.
  intros Ht Hc. unfold target_cpu. cbv zeta. destruct (32 <=? id); [by rewrite Z.eqb_refl|].
  destruct (Z.eqb_spec (rd (cpu_table s) id) NULL); [done|by apply Ht].
Qed.

Lemma unlinked_state (o o' : option task) : unlinked <$> o = unlinked <$> o' -> state <$> o = state <$> o'.
Proof.
  destruct o as [a|], o' as [b|]; simpl; try done. intros E%(inj Some). f_equal. change (state (unlinked a) = state (unlinked b)). by rewrite E.
Qed.

Lemma enqueue_woken_spec fuel s v w tw :
  (length w < fuel)%nat -> sched_ok s v -> table_ok s -> is_Some (cpus s !! this_cpu s) ->
  chain (nx (tasks s)) tw w NULL -> NoDup w -> (forall u, u ∈ w -> idle_in v u) ->
  exists s', enqueue_woken fuel tw s = Ok (tt, s') /\ sched_ok s' (handed s (tasks s) w v) /\ framed (fun u => u ∈ w) s s' /\
    forall u, u ∈ w -> state <$> tasks s' !! u = state <$> tasks s !! u.
Proof.
  revert fuel s v tw. induction w as [|t w IH]; intros fuel s v tw Hf Hok Htab Hcpu Hc Hnd Hi; (destruct fuel as [|fuel]; [simpl in Hf; lia|]); cbn [enqueue_woken].
  { simpl in Hc. subst tw. exists s. split_and!; [done| |apply framed_refl|done].
    apply (sched_ok_ext s v); [|done]. intros a. unfold handed. by rewrite app_nil_r. }
  destruct Hc as (-> & Ht0 & n & Hn & Hc). rewrite (proj2 (Z.eqb_neq _ _)) by done.
  unfold nx in Hn. destruct (tasks s !! t) as [tk|] eqn:Et; [|done]. injection Hn as En.
  rewrite (bind_ok _ _ s tk s) by (unfold get_task, bind, gets, deref; by rewrite Et).
  cbv zeta. rewrite target_run. fold (target_cpu s (task_cpu tk)). set (c := target_cpu s (task_cpu tk)).
  destruct (target_exists s (task_cpu tk) Htab Hcpu) as [x Hx]. fold c in Hx.
  destruct (enqueue_full s v c x t tk Hok Hx Et Ht0 (Hi t ltac:(by left))) as (s1 & E1 & Hok1 & Hf1 & Et1 & Ho1).
  apply NoDup_cons in Hnd as [Hnt Hnd]. pose proof (fr_rest _ _ _ Hf1) as Er.
  assert (cpu_table s1 = cpu_table s /\ this_cpu s1 = this_cpu s) as [Etab Ethis] by (by rewrite Er).
  assert (forall d, is_Some (cpus s !! d) -> is_Some (cpus s1 !! d)) as Hdom.
  { intros d Hd. rewrite <-(fmap_is_Some ctx_core) in Hd |- *. by rewrite (fr_ctx _ _ _ Hf1). }
  destruct (IH fuel s1 _ n ltac:(simpl in Hf; lia) Hok1) as (s2 & E2 & Hok2 & Hf2 & Hst2).
  - intros i. rewrite Etab. intros Hi0. by apply Hdom, Htab.
  - rewrite Ethis. by apply Hdom.
  - apply (chain_frame (nx (tasks s))); [|done]. intros u Hu. unfold nx. rewrite Ho1; [done|by intros ->|apply Hi; by right].
  - done.
  - intros u Hu a. unfold vset. case_decide; [|apply Hi; by right]. rewrite elem_of_app, list_elem_of_singleton.
    intros [Hin| ->]; [|done]. by apply (Hi u ltac:(by right) _ Hin).
  - exists s2. split_and!.
    + rewrite (bind_ok _ _ _ _ _ E1), En. exact E2.
    + apply (sched_ok_ext s2 (handed s1 (tasks s1) w (vset (Rq c (level (base_priority tk))) (v (Rq c (level (base_priority tk))) ++ [t]) v))); [|done].
      intros a. unfold handed. rewrite filter_cons.
      assert (dest s (tasks s) t = Rq c (level (base_priority tk))) as Ed by (unfold dest; by rewrite Et).
      rewrite (filter_ext_in (fun u => bool_decide (dest s (tasks s) u = a)) (fun u => bool_decide (dest s1 (tasks s1) u = a))).
      * unfold vset. rewrite Ed. destruct (decide (a = Rq c (level (base_priority tk)))) as [->|Ha].
        -- rewrite bool_decide_true, decide_True by done. by rewrite <-app_assoc.
        -- rewrite bool_decide_false by congruence. done.
      * intros u Hu. unfold dest, target_cpu. rewrite Etab, Ethis, Ho1; [done|by intros ->|apply Hi; by right].
    + eapply framed_trans; (eapply framed_mono; [|done]); simpl; intros u Hu; [subst; by left|by right].
    + intros u [->|Hu]%elem_of_cons.
      * rewrite (unlinked_state _ _ (fr_tasks _ _ _ Hf2 t Hnt)), Et1, Et. simpl. unfold enq_task. by case_match.
      * rewrite Hst2 by done. rewrite Ho1; [done|by intros ->|apply Hi; by right].
Qed.

(** ** The whole routine *)

(** The lists after a wake-up for [reason]. *)
Definition woken_view (reason : task_reason) (s : sched) (v : place -> list Z) : place -> list Z := fun a =>
  if decide (a = Blocked) then filter (fun u => negb (waits_for reason (tasks s) u)) (v Blocked)
  else v a ++ filter (fun u => bool_decide (dest s (tasks s) u = a)) (reverse (filter (waits_for reason (tasks s)) (v Blocked))).

(** The critical section: the blocked list is split. *)
Lemma split_blocked reason s v :
  sched_ok s v ->
  let w := reverse (filter (waits_for reason (tasks s)) (v Blocked)) in
  exists tw ts' b', let s1 := leave blocked_lock s (bk (enter blocked_lock s) ts' b') in
    critical blocked_lock (collect_blocked (S (size (tasks s))) reason BlockedHead NULL) s = Ok (tw, s1) /\
    sched_ok s1 (vset Blocked (filter (fun u => negb (waits_for reason (tasks s) u)) (v Blocked)) v) /\
    chain (nx ts') tw w NULL /\
    (forall u, unlinked <$> ts' !! u = (if decide (u ∈ v Blocked /\ waits_for reason (tasks s) u) then unlinked ∘ ready else unlinked) <$> tasks s !! u).
Proof.
  intros Hok w. pose proof Hok as [Hr Hh Hl Hd Hb]. pose proof (rep_chain _ _ Hr Blocked _ eq_refl) as Hc.
  destruct (collect_run reason (enter blocked_lock s) (S (size (tasks s))) (tasks s) (blocked_task_list s) [] (v Blocked) [] NULL)
    as (ts' & b' & tw & E & Hc' & Hw' & Hu & Ho); [by apply (rep_length s v Blocked)|done|done|rewrite app_nil_r; by apply (chain_NoDup _ _ _ Hc)|].
  rewrite app_nil_r in Hw'. exists tw, ts', b'. cbv zeta. split_and!; [| |done|done].
  - apply (critical_ok blocked_lock); [done|done|exact E|done|done].
  - split; try done; [|by apply released_free]. apply (rep_step s _ v _ [Blocked]); [done| | | |].
    + intros a Ha. assert (a <> Blocked) as Hne by set_solver. split_and!; [by destruct a|by rewrite vset_ne|].
      intros u Hua. unfold nx. change (tasks (leave _ _ _)) with ts'. rewrite Ho; [done|]. rewrite app_nil_r, app_nil_l. intros Hub. by apply Hne, (rep_disj _ _ Hr a Blocked u).
    + intros a ->%list_elem_of_singleton. exists b'. split; [done|]. rewrite vset_eq. exact Hc'.
    + intros c x p Hx. rewrite vset_ne by done. by apply (rep_fields _ _ Hr).
    + apply disj_vset; [exact (rep_disj _ _ Hr)|]. intros u Hin. left. by apply list_elem_of_filter in Hin as [_ ?].
Qed.

Lemma sched_wakeup_spec reason s v :
  sched_ok s v -> table_ok s -> is_Some (cpus s !! this_cpu s) ->
  exists s', sched_wakeup reason s = Ok (tt, s') /\ sched_ok s' (woken_view reason s v) /\
    s_hart s' = s_hart s /\ cpu_table s' = cpu_table s /\ this_cpu s' = this_cpu s /\
    (forall c, ctx_core <$> cpus s' !! c = ctx_core <$> cpus s !! c) /\
    (forall u, u ∈ v Blocked -> waits_for reason (tasks s) u -> state <$> tasks s' !! u = Some TASK_READY) /\
    (forall u, ~ (u ∈ v Blocked /\ waits_for reason (tasks s) u) -> unlinked <$> tasks s' !! u = unlinked <$> tasks s !! u).
Proof.
  intros Hok Htab Hcpu. destruct (split_blocked reason s v Hok) as (tw & ts' & b' & E1 & Hok1 & Hc1 & Hu1).
  set (s1 := leave _ _ _) in *. set (w := reverse _) in *. pose proof (rep_chain _ _ (so_rep _ _ Hok) Blocked _ eq_refl) as Hc.
  assert (forall u, u ∈ w <-> u ∈ v Blocked /\ waits_for reason (tasks s) u) as Hin.
  { intros u. unfold w. rewrite elem_of_reverse, list_elem_of_filter. tauto. }
  assert (NoDup w) as Hndw. { unfold w. eapply nodup_perm; [symmetry; apply reverse_Permutation|]. apply NoDup_filter. by apply (chain_NoDup _ _ _ Hc). }
  set (v1 := vset _ _ _) in *.
  destruct (enqueue_woken_spec (S (size (tasks s))) s1 v1 w tw) as (s2 & E2 & Hok2 & Hf2 & Hst2); try done.
  - apply fuel_enough; [done|]. intros u Hu%Hin. apply (rep_task s v Blocked u (so_rep _ _ Hok)). tauto.
  - intros u Hu%Hin a. unfold v1, vset. case_decide as Ea.
    + rewrite list_elem_of_filter. intros [Hn _]. destruct Hu as [_ Hw]. by destruct (waits_for reason (tasks s) u).
    + intros Ha. apply Ea, (rep_disj _ _ (so_rep _ _ Hok) a Blocked u); tauto.
  - exists s2. split_and!.
    + unfold sched_wakeup, list_fuel. unfold bind at 1, gets at 1. cbv beta iota. rewrite (bind_ok _ _ _ _ _ E1). exact E2.
    + apply (sched_ok_ext s2 (handed s1 (tasks s1) w (vset Blocked (filter (fun u => negb (waits_for reason (tasks s) u)) (v Blocked)) v))); [|done].
      intros a. unfold woken_view, handed. fold w. fold v1.
      assert (forall u, u ∈ w -> dest s1 (tasks s1) u = dest s (tasks s) u) as Hd.
      { intros u Hu%Hin. unfold dest. change (tasks s1) with ts'. specialize (Hu1 u). rewrite decide_True in Hu1 by done.
        destruct (ts' !! u) as [a'|], (tasks s !! u) as [b0|]; simplify_eq/=; [|done].
        assert (task_cpu a' = task_cpu b0 /\ base_priority a' = base_priority b0) as [-> ->]; [|done].
        by destruct a', b0; simplify_eq/=. }
      case_decide as Ea; unfold v1; [subst a; rewrite vset_eq|rewrite vset_ne by done].
      * rewrite (filter_ext_in (fun u => bool_decide (dest s1 (tasks s1) u = Blocked)) (fun _ => false)); [rewrite filter_none; by rewrite app_nil_r|].
        intros u Hu. apply bool_decide_false. rewrite Hd by done. unfold dest. apply Hin in Hu as [Hub _].
        destruct (rep_task s v Blocked u (so_rep _ _ Hok) Hub) as [_ [tk ->]]. done.
      * f_equal. symmetry. apply filter_ext_in. intros u Hu. by rewrite Hd.
    + by rewrite (framed_hart _ _ _ Hf2).
    + by rewrite (fr_rest _ _ _ Hf2).
    + by rewrite (fr_rest _ _ _ Hf2).
    + intros c. by rewrite (fr_ctx _ _ _ Hf2).
    + intros u Hu Hw. rewrite Hst2 by (by apply Hin). change (tasks s1) with ts'. specialize (Hu1 u). rewrite decide_True in Hu1 by done.
      destruct (rep_task s v Blocked u (so_rep _ _ Hok) Hu) as [_ [tk Etk]]. rewrite Etk in Hu1.
      by rewrite (unlinked_state _ (Some (ready tk)) Hu1).
    + intros u Hn. rewrite (fr_tasks _ _ _ Hf2) by (by intros ?%Hin). change (tasks s1) with ts'. by rewrite Hu1, decide_False.
Qed.

(** C10: [sched_wakeup] returns with the lists well formed: the tasks that wait
    for the reason have left the blocked list and are ready at the end of the
    runqueue of their base priority, on the CPU they last ran on or, when they
    have none, on the executing one; the others stay blocked in their order,
    and no task is lost. *)
Theorem sched_wakeup_correct reason s v :
  sched_ok s v -> table_ok s -> is_Some (cpus s !! this_cpu s) ->
  exists s', sched_wakeup reason s = Ok (tt, s') /\ sched_ok s' (woken_view reason s v) /\
    s_hart s' = s_hart s /\
    (forall u, u ∈ v Blocked -> waits_for reason (tasks s) u -> state <$> tasks s' !! u = Some TASK_READY) /\
    (forall u, ~ (u ∈ v Blocked /\ waits_for reason (tasks s) u) -> unlinked <$> tasks s' !! u = unlinked <$> tasks s !! u).
Proof.
  intros Hok Htab Hcpu. destruct (sched_wakeup_spec reason s v Hok Htab Hcpu) as (s' & E & Hok' & Hh & _ & _ & _ & R). by exists s'.
Qed.

(** ** Blocking *)

Lemma sched_block_spec reason s v cur tk :
  sched_ok s v -> sched_get_current s = Ok (cur, s) -> cur <> NULL -> tasks s !! cur = Some tk -> idle_in v cur ->
  exists s', sched_block_current reason s = Ok (tt, s') /\ sched_ok s' (vset Blocked (cur :: v Blocked) v) /\
    tasks s' = <[cur := set_sched_next (blocked_task_list s) (set_wait_reason reason (set_state TASK_BLOCKED tk))]> (tasks s) /\
    cpus s' = cpus s /\ cpu_table s' = cpu_table s /\ this_cpu s' = this_cpu s /\ s_hart s' = s_hart s.
Proof.
  intros Hok Hcur Hc0 Ht Hi. pose proof Hok as [Hr Hh Hl Hd Hb].
  set (tk' := set_sched_next (blocked_task_list s) (set_wait_reason reason (set_state TASK_BLOCKED tk))).
  exists (leave blocked_lock s (bk (enter blocked_lock s) (<[cur := tk']> (tasks s)) cur)). split_and!; try done.
  - unfold sched_block_current. rewrite (bind_ok _ _ _ _ _ Hcur), (proj2 (Z.eqb_neq _ _)) by done.
    apply (critical_ok blocked_lock); [done|done| |done|done].
    change (enter blocked_lock s) with (bk (enter blocked_lock s) (tasks s) (blocked_task_list s)) at 1.
    rewrite (upd_task_bk _ _ _ _ tk) by done. rewrite (upd_task_bk _ _ _ _ (set_state TASK_BLOCKED tk)) by (by rewrite lookup_insert_eq).
    rewrite insert_insert_eq. unfold bind at 1, gets at 1. cbv beta iota.
    rewrite (upd_task_bk _ _ _ _ (set_wait_reason reason (set_state TASK_BLOCKED tk))) by (by rewrite lookup_insert_eq).
    rewrite insert_insert_eq. done.
  - split; try done; [|by apply released_free]. apply (rep_step s _ v _ [Blocked]); [done| | | |].
    + intros a Ha. assert (a <> Blocked) as Hne by set_solver. split_and!; [by destruct a|by rewrite vset_ne|].
      intros u Hua. change (tasks (leave _ _ _)) with (<[cur := tk']> (tasks s)). rewrite (nx_upd _ _ tk) by done.
      rewrite decide_False; [done|]. intros ->. by apply (Hi a).
    + intros a ->%list_elem_of_singleton. exists cur. split; [done|]. rewrite vset_eq.
      change (tasks (leave _ _ _)) with (<[cur := tk']> (tasks s)). simpl. split_and!; [done|done|].
      exists (blocked_task_list s). split; [by rewrite (nx_upd _ _ tk), decide_True|].
      apply (chain_frame (nx (tasks s))); [|exact (rep_chain _ _ Hr Blocked _ eq_refl)].
      intros u Hu. rewrite (nx_upd _ _ tk) by done. rewrite decide_False; [done|]. intros ->. by apply (Hi Blocked).
    + intros c x p Hx. rewrite vset_ne by done. by apply (rep_fields _ _ Hr).
    + apply disj_vset; [exact (rep_disj _ _ Hr)|]. intros u [->|Hu]%elem_of_cons; [by right|by left].
Qed.
