(* ===== verification/Sleep.v ===== *)
(** * Sleeping tasks

    [sched_make_task_sleep] and [sched_update_sleepers] of [Sched] on the lists
    of [Runqueue]: the sleeping list of a CPU is kept sorted by the time its
    tasks wake, a task that goes to sleep is inserted in front of the first one
    that does not wake before it, and an update wakes the prefix of the list
    whose time has come. *)

From stdpp Require Import sorting.
From S2P Require Import Prelude Lock Chain Sched Runqueue Balance Schedule SchedDemo Wakeup.

(** ** Prefixes *)

(** The longest prefix whose elements satisfy [p], and the rest. *)
Fixpoint prefix_while (p : Z -> bool) (l : list Z) : list Z :=
  match l with
  | [] => []
  | u :: l => if p u then u :: prefix_while p l else []
  end.
Fixpoint rest_while (p : Z -> bool) (l : list Z) : list Z :=
  match l with
  | [] => []
  | u :: l' => if p u then rest_while p l' else l
  end.

Lemma while_app p l : prefix_while p l ++ rest_while p l = l.
Proof. induction l as [|u l IH]; simpl; [done|]. destruct (p u); simpl; [by rewrite IH|done]. Qed.

Lemma while_ext p q l : (forall u, u ∈ l -> p u = q u) -> prefix_while p l = prefix_while q l /\ rest_while p l = rest_while q l.
Proof.
  induction l as [|u l IH]; intros H; simpl; [done|]. rewrite (H u) by (by left).
  destruct (IH ltac:(intros w Hw; apply H; by right)) as [-> ->]. by destruct (q u).
Qed.

Lemma prefix_while_all p l : Forall (fun u => p u = true) (prefix_while p l).
Proof. induction l as [|u l IH]; simpl; [constructor|]. destruct (p u) eqn:E; by constructor. Qed.

Lemma rest_while_head p l u r : rest_while p l = u :: r -> p u = false.
Proof. induction l as [|w l IH]; simpl; [done|]. destruct (p w) eqn:E; [done|]. by intros [= <- _]. Qed.

(** ** Deadlines *)

Definition deadline (ts : gmap Z task) (u : Z) : Z :=
  match ts !! u with Some t => sleep_until t | None => 0 end.

(** Sorted by the time to wake. *)
Definition by_deadline (ts : gmap Z task) (l : list Z) : Prop :=
  StronglySorted (fun a b => deadline ts a <= deadline ts b) l.

(** In a sorted list the tasks due before a time are a prefix. *)
Lemma due_prefix ts d l : by_deadline ts l ->
  prefix_while (fun u => deadline ts u <? d) l = filter (fun u => deadline ts u < d) l /\
  rest_while (fun u => deadline ts u <? d) l = filter (fun u => d <= deadline ts u) l.
Proof.
  induction l as [|u l IH]; intros Hs; [done|]. apply StronglySorted_inv in Hs as [Hs Hall]. rewrite !filter_cons. simpl.
  destruct (Z.ltb_spec (deadline ts u) d) as [Hd|Hd].
  - destruct (IH Hs) as [-> ->]. rewrite decide_True, decide_False by lia. done.
  - rewrite decide_False, decide_True by lia. rewrite Forall_forall in Hall. split.
    + symmetry. destruct (filter _ l) as [|w r] eqn:E; [done|]. assert (w ∈ w :: r) as Hw by (by left).
      rewrite <-E in Hw. apply list_elem_of_filter in Hw as [Hw Hin]. specialize (Hall w Hin). lia.
    + f_equal. symmetry. clear IH Hs. induction l as [|w l IH]; [done|]. rewrite filter_cons, decide_True.
      * f_equal. apply IH. intros z Hz. apply Hall. by right.
      * specialize (Hall w ltac:(by left)). lia.
Qed.

(** ** Finding the slot *)

(** [pp] after the tasks [k] of the sleeping list of [c] were passed over. *)
Definition slot_after (c : Z) (k : list Z) : link := match last k with None => SleepHead c | Some t => NextOf t end.

Section slot.
Context (s : sched) (c : Z) (cs : gmap Z cpu_context) (x : cpu_context) (Hx : cs !! c = Some x).

Lemma chain_next ts t n : nx ts t = Some n -> exists tk, ts !! t = Some tk /\ sched_next tk = n.
Proof. unfold nx. destruct (ts !! t) as [tk|]; [|done]. intros [= <-]. by exists tk. Qed.

Lemma read_slot ts k r : chain (nx ts) (sleeping_list x) (k ++ r) NULL ->
  read_link (slot_after c k) (mk s ts cs) = Ok (default NULL (head r), mk s ts cs).
Proof using Hx.
  intros Hc. apply chain_app in Hc as (h & Hk & Hr). rewrite <-(chain_head _ _ _ Hr). unfold slot_after.
  destruct k as [|y k _] using rev_ind; [simpl in Hk; subst h; cbn [last read_link]; by erewrite get_ctx_bind|].
  rewrite last_snoc. apply chain_app in Hk as (h' & _ & (-> & _ & n & (tk & E & En)%chain_next & ->)).
  cbn [read_link]. erewrite get_task_bind by done. by rewrite En.
Qed.

Lemma find_slot_run d fuel ts k r : chain (nx ts) (sleeping_list x) (k ++ r) NULL -> (length r < fuel)%nat ->
  find_slot fuel d (slot_after c k) (mk s ts cs) =
  Ok (slot_after c (k ++ prefix_while (fun u => deadline ts u <? d) r), mk s ts cs).
Proof using Hx.
  revert fuel k. induction r as [|t r IH]; intros fuel k Hc Hf; (destruct fuel as [|fuel]; [simpl in Hf; lia|]); cbn [find_slot];
    rewrite (bind_ok _ _ _ _ _ (read_slot _ _ _ Hc)); cbn [default head from_option].
  - by rewrite app_nil_r.
  - unfold id. pose proof Hc as Hct. apply chain_app in Hct as (h & _ & (_ & Ht0 & n & (tk & Et & _)%chain_next & _)).
    rewrite (proj2 (Z.eqb_neq _ _)) by done. erewrite get_task_bind by done. cbn [prefix_while].
    assert (deadline ts t = sleep_until tk) as -> by (unfold deadline; by rewrite Et).
    destruct (sleep_until tk <? d); [|by rewrite app_nil_r].
    assert (slot_after c (k ++ [t]) = NextOf t) as <- by (unfold slot_after; by rewrite last_snoc).
    rewrite IH; [|by rewrite <-app_assoc|simpl in Hf; lia]. by rewrite <-app_assoc.
Qed.

(** Linking a task into the slot. *)
Lemma write_slot ts k r cur tk : chain (nx ts) (sleeping_list x) (k ++ r) NULL -> ts !! cur = Some tk ->
  cur <> NULL -> cur ∉ k ++ r -> sched_next tk = default NULL (head r) ->
  exists ts' x', write_link (slot_after c k) cur (mk s ts cs) = Ok (tt, mk s ts' (<[c := x']> cs)) /\
    chain (nx ts') (sleeping_list x') (k ++ cur :: r) NULL /\ x' = set_sleeping_list (sleeping_list x') x /\
    ts' !! cur = Some tk /\ (forall u, u ∉ k -> ts' !! u = ts !! u) /\ same_tasks ts ts'.
Proof using Hx.
  intros Hc Ht Hc0 Hn En. pose proof (chain_NoDup _ _ _ Hc) as Hnd. apply chain_app in Hc as (h & Hk & Hr). pose proof (chain_head _ _ _ Hr) as Eh. unfold slot_after.
  assert (forall ts', (forall u, u ∈ cur :: r -> ts' !! u = ts !! u) -> chain (nx ts') cur (cur :: r) NULL) as Hins.
  { intros ts' Ho. simpl. split_and!; [done|done|]. exists h. split; [unfold nx; rewrite Ho, Ht by (by left); simpl; congruence|].
    apply (chain_frame (nx ts)); [|done]. intros u Hu. unfold nx. by rewrite Ho by (by right). }
  destruct k as [|y k _] using rev_ind.
  - exists ts, (set_sleeping_list cur x). cbn [last write_link]. rewrite (upd_ctx_mk _ _ _ _ x) by done.
    split_and!; [done|by apply Hins|done|done|done|done].
  - rewrite last_snoc. apply chain_app in Hk as (h' & Hk & (-> & Hy & n & (ty & Ey & _)%chain_next & ->)).
    assert (cur <> y) as Hcy by (intros ->; apply Hn; rewrite <-app_assoc; apply elem_of_app; right; by left).
    rewrite <-app_assoc in Hnd. apply NoDup_app in Hnd as (_ & Hd & [Hyr _]%NoDup_cons). simpl in Hd.
    exists (<[y := set_sched_next cur ty]> ts), x. cbn [write_link]. rewrite (upd_task_mk _ _ _ _ ty), (insert_id cs) by done. split_and!.
    + done.
    + rewrite <-app_assoc. apply chain_app. exists y. split; [|simpl; split_and!; [done|done|]].
      * apply (chain_frame (nx ts)); [|done]. intros u Hu. rewrite (nx_upd _ _ ty), decide_False; [done| |done].
        intros ->. apply (Hd y Hu). by left.
      * exists cur. split; [by rewrite (nx_upd _ _ ty), decide_True|]. apply Hins. intros u Hu.
        rewrite lookup_insert_ne; [done|]. intros <-. apply elem_of_cons in Hu as [->|Hu]; done.
    + by destruct x.
    + by rewrite lookup_insert_ne.
    + intros u Hu. rewrite lookup_insert_ne; [done|]. intros <-. apply Hu, elem_of_app. right. by left.
    + intros u. destruct (decide (u = y)) as [->|]; [by rewrite lookup_insert_eq, Ey|by rewrite lookup_insert_ne].
Qed.
End slot.

(** ** Going to sleep *)

(** [t] in front of the first task of [l] that does not wake before [d]. *)
Definition insert_sleeper (ts : gmap Z task) (d t : Z) (l : list Z) : list Z :=
  prefix_while (fun u => deadline ts u <? d) l ++ t :: rest_while (fun u => deadline ts u <? d) l.

Definition asleep (until : Z) (tk : task) : task := set_sleep_until until (set_state TASK_SLEEPING tk).

Lemma deadline_unlinked ts ts' u : unlinked <$> ts' !! u = unlinked <$> ts !! u -> deadline ts' u = deadline ts u.
Proof.
  unfold deadline. destruct (ts' !! u) as [a|], (ts !! u) as [b|]; simpl; try done. intros E%(inj Some).
  change (sleep_until (unlinked a) = sleep_until (unlinked b)). by rewrite E.
Qed.

(** Insertion keeps a sorted list sorted. *)
Lemma insert_sleeper_sorted ts ts' d t l :
  by_deadline ts l -> t ∉ l -> (forall u, u ∈ l -> deadline ts' u = deadline ts u) -> deadline ts' t = d ->
  by_deadline ts' (insert_sleeper ts d t l).
Proof.
  intros Hs Hn Ho Ht. unfold insert_sleeper. destruct (due_prefix ts d l Hs) as [Ep Er].
  assert (by_deadline ts' l) as Hs'.
  { clear Ep Er Hn. induction Hs as [|a l Hl IH Ha]; constructor; [apply IH; intros u Hu; apply Ho; by right|].
    apply Forall_forall. rewrite Forall_forall in Ha. intros b Hb. rewrite !Ho by (by left || by right). by apply Ha. }
  rewrite <-(while_app (fun u => deadline ts u <? d) l) in Hs' at 1. unfold by_deadline in *.
  apply StronglySorted_app in Hs' as (Hc & Hp & Hr). apply StronglySorted_app. split_and!; [|done|].
  - intros a b Ha [->|Hb]%elem_of_cons; [|by apply Hc]. rewrite Ht, Ho.
    + rewrite Ep in Ha. apply list_elem_of_filter in Ha as [? _]. lia.
    + rewrite Ep in Ha. by apply list_elem_of_filter in Ha as [_ ?].
  - constructor; [done|]. apply Forall_forall. intros b Hb. rewrite Er in Hb. apply list_elem_of_filter in Hb as [Hb ?].
    by rewrite Ht, Ho.
Qed.

Lemma elem_insert_sleeper ts d t l u : u ∈ insert_sleeper ts d t l <-> u = t \/ u ∈ l.
Proof.
  unfold insert_sleeper. rewrite <-(while_app (fun u => deadline ts u <? d) l) at 3.
  rewrite !elem_of_app, elem_of_cons. tauto.
Qed.

(** A step that rebuilds the sleeping list of [c] and leaves the links of the
    tasks outside the old and the new list alone. *)
Lemma sleep_list_ok s v c x ts' y l :
  sched_ok s v -> cpus s !! c = Some x ->
  rq_head y = rq_head x /\ rq_tail y = rq_tail x /\ rq_count y = rq_count x /\ lock_free (rq_lock y) /\ lock_free (sleep_lock y) ->
  chain (nx ts') (sleeping_list y) l NULL -> (forall u, u ∈ l -> u ∈ v (Sleep c) \/ idle_in v u) ->
  (forall u, u ∉ v (Sleep c) -> u ∉ l -> ts' !! u = tasks s !! u) ->
  sched_ok (mk s ts' (<[c := y]> (cpus s))) (vset (Sleep c) l v).
Proof.
  intros [Hr Hh Hl Hd Hb] Hx (Eh & Et & Ec & Hl1 & Hl2) Hch Hin Ho. split; try done.
  - apply (rep_step s _ v _ [Sleep c]); [done| | | |].
    + intros a Ha. assert (a <> Sleep c) as Hna by set_solver. split_and!; [|by rewrite vset_ne|].
      * rewrite head_of_mk. destruct a as [d p|d| |]; try done; (case_decide as Ed; [subst d|done]); [|done]. cbn [head_of]. by rewrite Hx, Eh.
      * intros u Hu. cbn [mk set_cpus set_tasks tasks]. unfold nx. rewrite Ho; [done| |].
        -- intros Hk. by apply Hna, (rep_disj _ _ Hr a (Sleep c) u).
        -- intros [Hk|Hk]%Hin; [by apply Hna, (rep_disj _ _ Hr a (Sleep c) u)|by apply (Hk a)].
    + intros a ->%list_elem_of_singleton. exists (sleeping_list y). by rewrite head_of_mk, decide_True, vset_eq.
    + intros d z p. cbn [mk set_cpus set_tasks cpus]. rewrite vset_ne by done. destruct (decide (d = c)) as [->|Hdc].
      * rewrite lookup_insert_eq. intros [= <-]. unfold rq_fields. rewrite Et, Ec. exact (rep_fields _ _ Hr c x p Hx).
      * rewrite lookup_insert_ne by done. apply (rep_fields _ _ Hr).
    + by apply disj_vset; [exact (rep_disj _ _ Hr)|].
  - cbn [mk set_cpus cpus]. by apply map_Forall_insert_2.
Qed.

Lemma make_task_sleep_spec s v ms x tk :
  let c := this_cpu s in
  let cur := current_task x in
  let until := w64 (uptime_ms s + ms) in
  let l := insert_sleeper (tasks s) until cur (v (Sleep c)) in
  sched_ok s v -> cpus s !! c = Some x -> cur <> NULL -> tasks s !! cur = Some tk -> idle_in v cur ->
  exists s', sched_make_task_sleep ms s = Ok (tt, s') /\ sched_ok s' (vset (Sleep c) l v) /\
    framed (fun u => u = cur) s s' /\ unlinked <$> tasks s' !! cur = Some (unlinked (asleep until tk)) /\
    (by_deadline (tasks s) (v (Sleep c)) -> by_deadline (tasks s') l).
Proof.
  intros c cur until l Hok Hx Hc0 Ht Hi. pose proof Hok as [Hr Hh Hl Hd Hb]. destruct (Hl c x Hx) as [Hl1 Hl2].
  set (h := s_hart s). set (s0 := lset hart_of (masked h) s). set (tk1 := asleep until tk).
  set (ts1 := <[cur := tk1]> (tasks s)). set (x1 := set_sleep_lock (held h (sleep_lock x)) x).
  assert (forall u, u ∈ v (Sleep c) -> u <> cur) as Hne by (intros u Hu ->; by apply (Hi (Sleep c))).
  set (r1 := prefix_while (fun u => deadline (tasks s) u <? until) (v (Sleep c))).
  set (r2 := rest_while (fun u => deadline (tasks s) u <? until) (v (Sleep c))).
  assert (r1 ++ r2 = v (Sleep c)) as Er by apply while_app.
  set (ts2 := <[cur := set_sched_next (default NULL (head r2)) tk1]> (tasks s)).
  assert (forall ts, (forall u, u <> cur -> ts !! u = tasks s !! u) -> chain (nx ts) (sleeping_list x1) (v (Sleep c)) NULL) as Hch.
  { intros ts Ho. apply (chain_frame (nx (tasks s))); [intros u Hu; unfold nx; rewrite Ho; [done|by apply Hne]|].
    apply (rep_chain _ _ Hr). simpl. by rewrite Hx. }
  assert (forall tk', forall u, u <> cur -> <[cur := tk']> (tasks s) !! u = tasks s !! u) as Hins by (intros; by rewrite lookup_insert_ne).
  destruct (write_slot s0 c (<[c := x1]> (cpus s)) x1 ltac:(apply lookup_insert_eq) ts2 r1 r2 cur _
    ltac:(rewrite Er; apply Hch, Hins) ltac:(apply lookup_insert_eq) Hc0 ltac:(rewrite Er; apply Hi) eq_refl)
    as (ts' & x' & E & Hch' & Ex' & Ec' & Ho' & Hsame).
  assert (forall u, u <> cur -> unlinked <$> ts' !! u = unlinked <$> tasks s !! u) as Hun.
  { intros u Hu. rewrite Hsame. unfold ts2. by rewrite Hins. }
  exists (mk s ts' (<[c := set_sleep_lock (released h (sleep_lock x)) x']> (cpus s))). split_and!.
  - unfold sched_make_task_sleep. rewrite <-(mk_id s) at 1.
    rewrite (bind_ok _ _ _ cur (mk s (tasks s) (cpus s))) by (unfold sched_get_current; rewrite get_cpu_bind; by erewrite get_ctx_bind).
    rewrite (proj2 (Z.eqb_neq _ _)) by done. rewrite get_cpu_bind, uptime_bind. fold c until.
    erewrite upd_task_bind by done. erewrite upd_task_bind by apply lookup_insert_eq. rewrite insert_insert_eq. fold (asleep until tk).
    unfold critical. rewrite (bind_ok _ _ _ (rflags h) (mk s0 ts1 (cpus s))) by done.
    rewrite (bind_ok _ _ _ _ _ (sleep_lock_mk s0 ts1 (cpus s) c x Hx Hh Hl2)). change (held (s_hart s0) (sleep_lock x)) with (held h (sleep_lock x)). fold x1.
    rewrite (bind_ok _ _ _ tt (mk s0 ts' (<[c := x']> (<[c := x1]> (cpus s))))).
    + rewrite (bind_ok _ _ _ _ _ (sleep_unlock_mk s0 ts' _ c x' ltac:(apply lookup_insert_eq))), !insert_insert_eq.
      rewrite Ex'. change (unheld (s_hart s0) (sleep_lock (set_sleeping_list (sleeping_list x') x1))) with (released h (sleep_lock x)).
      rewrite (bind_ok _ _ _ _ _ (spin_irq_restore_eq _ _)). unfold ret. do 2 f_equal. unfold mk, s0, h. by destruct s as [[? ? ?] ? ? ? ? ? ? ? ? ? ?].
    + rewrite fuel_bind. change (SleepHead c) with (slot_after c []).
      rewrite (bind_ok _ _ _ _ _ (find_slot_run s0 c _ x1 ltac:(apply lookup_insert_eq) until (S (size ts1)) ts1 [] (v (Sleep c))
        ltac:(apply Hch, Hins) ltac:(eapply Nat.lt_le_trans; [by apply (rep_length s v (Sleep c))|]; unfold ts1; rewrite map_size_insert_Some by done; lia))).
      rewrite app_nil_l. rewrite (proj1 (while_ext (fun u => deadline ts1 u <? until) (fun u => deadline (tasks s) u <? until) _
        ltac:(intros u Hu; simpl; unfold deadline, ts1; by rewrite Hins by (by apply Hne)))). fold r1.
      rewrite (bind_ok _ _ _ _ _ (read_slot s0 c _ x1 ltac:(apply lookup_insert_eq) ts1 r1 r2 ltac:(rewrite Er; apply Hch, Hins))).
      erewrite upd_task_bind by apply lookup_insert_eq. unfold ts1. rewrite insert_insert_eq. exact E.
  - apply (sleep_list_ok s v c x); [done|done|rewrite Ex'; split_and!; try done; simpl; by apply released_free|exact Hch'| |].
    + intros u Hu%elem_insert_sleeper. destruct Hu as [->|Hu]; [by right|by left].
    + intros u Hu1 Hu2. rewrite Ho'; [unfold ts2; apply Hins|].
      * intros ->. by apply Hu2, elem_insert_sleeper; left.
      * intros Hk. apply Hu1. rewrite <-Er. apply elem_of_app. by left.
  - split; cbn [mk set_cpus set_tasks tasks cpus]; [done| |done|].
    + intros d. destruct (decide (d = c)) as [->|]; [|by rewrite lookup_insert_ne]. rewrite lookup_insert_eq, Hx, Ex'. done.
    + intros u. destruct (decide (u = cur)) as [->|Hu]; [by rewrite Ec', Ht|].
      specialize (Hun u Hu). by destruct (ts' !! u), (tasks s !! u).
  - cbn [mk set_cpus set_tasks tasks]. by rewrite Ec'.
  - intros Hs. cbn [mk set_cpus set_tasks tasks]. apply insert_sleeper_sorted; [done|apply Hi| |].
    + intros u Hu. by apply deadline_unlinked, Hun, Hne.
    + unfold deadline. by rewrite Ec'.
Qed.

(** C28: sched_make_task_sleep puts the running task to sleep: it returns with
    every lock free and the interrupt flag as it was; the task is in state
    sleeping with the wake-up time uptime + ms (wrapping at 2^64) and is in the
    sleeping list of its CPU, in front of the first task that does not wake
    before it, so that a list sorted by wake-up time stays sorted; every other
    list and every other task is as before. *)
Theorem sched_make_task_sleep_correct s v ms x tk :
  let c := this_cpu s in
  let cur := current_task x in
  let until := w64 (uptime_ms s + ms) in
  let l := insert_sleeper (tasks s) until cur (v (Sleep c)) in
  sched_ok s v -> cpus s !! c = Some x -> cur <> NULL -> tasks s !! cur = Some tk -> idle_in v cur ->
  exists s', sched_make_task_sleep ms s = Ok (tt, s') /\ sched_ok s' (vset (Sleep c) l v) /\
    framed (fun u => u = cur) s s' /\ unlinked <$> tasks s' !! cur = Some (unlinked (asleep until tk)) /\
    (by_deadline (tasks s) (v (Sleep c)) -> by_deadline (tasks s') l).
Proof. apply make_task_sleep_spec. Qed.

(** ** Waking up *)

Definition due (ts : gmap Z task) (now : Z) (u : Z) : bool := deadline ts u <=? now.

Section collect.
Context (s : sched) (c now : Z).

Lemma collect_ready_run fuel ts cs x l w rq :
  cs !! c = Some x -> (length l < fuel)%nat -> chain (nx ts) (sleeping_list x) l NULL -> chain (nx ts) rq w NULL -> NoDup (l ++ w) ->
  exists ts' x' rq', collect_ready fuel c now rq (mk s ts cs) = Ok (rq', mk s ts' (<[c := x']> cs)) /\
    x' = set_sleeping_list (sleeping_list x') x /\
    chain (nx ts') (sleeping_list x') (rest_while (due ts now) l) NULL /\
    chain (nx ts') rq' (reverse (prefix_while (due ts now) l) ++ w) NULL /\ same_tasks ts ts' /\
    forall u, u ∉ prefix_while (due ts now) l -> ts' !! u = ts !! u.
Proof.
  revert fuel ts cs x w rq. induction l as [|t l IH]; intros fuel ts cs x w rq Hx Hf Hc Hw Hnd;
    (destruct fuel as [|fuel]; [simpl in Hf; lia|]); cbn [collect_ready]; erewrite get_ctx_bind by done.
  - simpl in Hc. rewrite Hc. exists ts, x, rq. rewrite insert_id by done. split_and!; try done. by destruct x.
  - destruct Hc as (Eh & Ht0 & n & (tk & Et & En)%chain_next & Hc). rewrite Eh, (proj2 (Z.eqb_neq _ _)) by done. erewrite get_task_bind by done.
    cbn [prefix_while rest_while].
    assert (due ts now t = negb (now <? sleep_until tk)) as -> by (unfold due, deadline; rewrite Et, Z.leb_antisym; done).
    destruct (now <? sleep_until tk); cbn [negb].
    { exists ts, x, rq. rewrite insert_id by done. split_and!; try done; [by destruct x|].
      simpl. split_and!; [done|done|]. exists n. split; [unfold nx; rewrite Et; simpl; by rewrite En|done]. }
    simpl in Hnd. apply NoDup_cons in Hnd as [Hnt Hnd]. rewrite not_elem_of_app in Hnt. destruct Hnt as [Hnl Hnw].
    erewrite upd_ctx_bind by done. erewrite upd_task_bind by done. rewrite En.
    set (ts1 := <[t := set_sched_next rq tk]> ts).
    assert (forall u, u <> t -> ts1 !! u = ts !! u) as Ho1 by (intros; unfold ts1; by rewrite lookup_insert_ne).
    assert (forall h k, t ∉ k -> chain (nx ts) h k NULL -> chain (nx ts1) h k NULL) as Hfr.
    { intros h k Hk. apply chain_frame. intros u Hu. unfold nx. rewrite Ho1; [done|]. by intros ->. }
    destruct (IH fuel ts1 (<[c := set_sleeping_list n x]> cs) (set_sleeping_list n x) (t :: w) t) as (ts' & x' & rq' & E & Ex & H1 & H2 & H3 & H4).
    { apply lookup_insert_eq. } { simpl in Hf. lia. } { by apply Hfr. }
    { simpl. split_and!; [done|done|]. exists rq. split; [unfold nx, ts1; by rewrite lookup_insert_eq|by apply Hfr]. }
    { revert Hnd. intros Hnd. eapply nodup_perm; [apply Permutation_middle|]. constructor; [|done]. by rewrite not_elem_of_app. }
    destruct (while_ext (due ts1 now) (due ts now) l) as [Ep Er].
    { intros u Hu. unfold due, deadline. rewrite Ho1; [done|]. by intros ->. }
    rewrite Er in H1. rewrite Ep in H2, H4. rewrite insert_insert_eq in E. exists ts', x', rq'. split_and!.
    + exact E.
    + rewrite Ex. by destruct x.
    + done.
    + by rewrite reverse_cons, <-app_assoc.
    + intros u. rewrite H3. unfold ts1. destruct (decide (u = t)) as [->|]; [by rewrite lookup_insert_eq, Et|by rewrite lookup_insert_ne].
    + intros u Hu. rewrite not_elem_of_cons in Hu. destruct Hu as [Hut Hu]. by rewrite H4, Ho1.
Qed.
End collect.

(** [w] appended to the runqueues of [c], each task by its base priority. *)
Definition dest_on (c : Z) (ts : gmap Z task) (u : Z) : place :=
  match ts !! u with Some tk => Rq c (level (base_priority tk)) | None => Blocked end.
Definition queued_on (c : Z) (ts : gmap Z task) (w : list Z) (v : place -> list Z) : place -> list Z :=
  fun a => v a ++ filter (fun u => bool_decide (dest_on c ts u = a)) w.

Lemma queued_on_cons c ts ts' t w v tk : ts !! t = Some tk -> (forall u, u ∈ w -> ts' !! u = ts !! u) ->
  let q := Rq c (level (base_priority tk)) in
  forall a, queued_on c ts (t :: w) v a = queued_on c ts' w (vset q (v q ++ [t]) v) a.
Proof.
  intros Et Ho q a. unfold queued_on. rewrite filter_cons.
  assert (dest_on c ts t = q) as -> by (unfold dest_on; by rewrite Et).
  rewrite (filter_ext_in (fun u => bool_decide (dest_on c ts u = a)) (fun u => bool_decide (dest_on c ts' u = a))).
  - unfold vset. destruct (decide (a = q)) as [->|Ha].
    + rewrite bool_decide_true, decide_True by done. by rewrite <-app_assoc.
    + rewrite bool_decide_false by congruence. done.
  - intros u Hu. unfold dest_on. by rewrite Ho.
Qed.

Lemma enqueue_ready_spec fuel s v c w rq :
  (length w < fuel)%nat -> sched_ok s v -> is_Some (cpus s !! c) ->
  chain (nx (tasks s)) rq w NULL -> NoDup w -> (forall u, u ∈ w -> idle_in v u) ->
  exists s', enqueue_ready fuel c rq s = Ok (tt, s') /\ sched_ok s' (queued_on c (tasks s) w v) /\
    framed (fun u => u ∈ w) s s' /\ forall u, u ∈ w -> state <$> tasks s' !! u = Some TASK_READY.
Proof.
  revert fuel s v rq. induction w as [|t w IH]; intros fuel s v rq Hf Hok [x Hx] Hc Hnd Hi;
    (destruct fuel as [|fuel]; [simpl in Hf; lia|]); cbn [enqueue_ready].
  { simpl in Hc. subst rq. exists s. split_and!; [done| |apply framed_refl|by intros u ?%not_elem_of_nil].
    apply (sched_ok_ext s v); [|done]. intros a. unfold queued_on. by rewrite app_nil_r. }
  destruct Hc as (-> & Ht0 & n & (tk & Et & En)%chain_next & Hc). rewrite (proj2 (Z.eqb_neq _ _)) by done. cbv zeta.
  apply NoDup_cons in Hnd as [Hnt Hnd]. set (tk1 := set_sched_next NULL (set_state TASK_READY tk)). set (s1 := mk s (<[t := tk1]> (tasks s)) (cpus s)).
  assert (sched_ok s1 v) as Hok1 by (apply sched_ok_idle_upd; [done|apply Hi; by left]).
  destruct (enqueue_full s1 v c x t tk1 Hok1 Hx ltac:(apply lookup_insert_eq) Ht0 (Hi t ltac:(by left))) as (s2 & E2 & Hok2 & Hf2 & Et2 & Ho2).
  assert (forall u, u ∈ w -> tasks s2 !! u = tasks s !! u) as Ho.
  { intros u Hu. rewrite Ho2 by (by intros -> || (apply Hi; by right)). unfold s1. cbn [mk set_cpus set_tasks tasks].
    rewrite lookup_insert_ne; [done|]. by intros ->. }
  assert (is_Some (cpus s2 !! c)) as Hx2.
  { pose proof (fr_ctx _ _ _ Hf2 c) as E. change (cpus s1) with (cpus s) in E. rewrite Hx in E. by destruct (cpus s2 !! c). }
  destruct (IH fuel s2 _ n ltac:(simpl in Hf; lia) Hok2 Hx2) as (s3 & E3 & Hok3 & Hf3 & Hst3).
  - apply (chain_frame (nx (tasks s))); [|done]. intros u Hu. unfold nx. by rewrite Ho.
  - done.
  - intros u Hu a. unfold vset. case_decide; [|apply Hi; by right]. rewrite elem_of_app, list_elem_of_singleton.
    intros [Hin| ->]; [|done]. by apply (Hi u ltac:(by right) _ Hin).
  - exists s3. split_and!.
    + rewrite <-(mk_id s) at 1. erewrite get_task_bind by done. erewrite upd_task_bind by done.
      erewrite upd_task_bind by apply lookup_insert_eq. rewrite insert_insert_eq, En. by rewrite (bind_ok _ _ _ _ _ E2).
    + eapply sched_ok_ext; [|exact Hok3]. exact (queued_on_cons c (tasks s) (tasks s2) t w v tk Et Ho).
    + eapply framed_trans; [|eapply framed_mono; [|exact Hf3]; simpl; intros u Hu; by right].
      eapply framed_trans; [apply (framed_upd _ s t tk tk1); [by left|done]|].
      eapply framed_mono; [|exact Hf2]. simpl. intros u ->. by left.
    + intros u [->|Hu]%elem_of_cons; [|by apply Hst3].
      rewrite (unlinked_state _ _ (fr_tasks _ _ _ Hf3 t Hnt)), Et2. simpl. unfold enq_task. by case_match.
Qed.

(** The tasks of the sleeping list of [c] that wake now, and the others. *)
Definition waking (s : sched) (l : list Z) : list Z := prefix_while (due (tasks s) (uptime_ms s)) l.
Definition still_asleep (s : sched) (l : list Z) : list Z := rest_while (due (tasks s) (uptime_ms s)) l.

(** The lists after an update of the sleepers of [c]. *)
Definition awake_view (s : sched) (c : Z) (v : place -> list Z) : place -> list Z :=
  queued_on c (tasks s) (reverse (waking s (v (Sleep c)))) (vset (Sleep c) (still_asleep s (v (Sleep c))) v).

(** In a sorted list exactly the tasks whose time has come wake. *)
Lemma waking_sorted s l : by_deadline (tasks s) l ->
  waking s l = filter (fun u => deadline (tasks s) u <= uptime_ms s) l /\
  still_asleep s l = filter (fun u => uptime_ms s < deadline (tasks s) u) l.
Proof.
  intros Hs. unfold waking, still_asleep. destruct (due_prefix (tasks s) (uptime_ms s + 1) l Hs) as [E1 E2].
  destruct (while_ext (due (tasks s) (uptime_ms s)) (fun u => deadline (tasks s) u <? uptime_ms s + 1) l) as [-> ->].
  { intros u _. unfold due. destruct (Z.leb_spec (deadline (tasks s) u) (uptime_ms s)), (Z.ltb_spec (deadline (tasks s) u) (uptime_ms s + 1)); lia. }
  rewrite E1, E2. split; apply list_filter_iff; intros u; lia.
Qed.

Lemma sorted_suffix ts ts' l1 l2 :
  by_deadline ts (l1 ++ l2) -> (forall u, u ∈ l2 -> deadline ts' u = deadline ts u) -> by_deadline ts' l2.
Proof.
  unfold by_deadline. intros (_ & _ & Hs)%StronglySorted_app Ho. induction Hs as [|a l Hl IH Ha]; constructor.
  - apply IH. intros u Hu. apply Ho. by right.
  - apply Forall_forall. rewrite Forall_forall in Ha. intros b Hb. rewrite !Ho by (by left || by right). by apply Ha.
Qed.

(** The critical section: the due prefix leaves the sleeping list. *)
Lemma split_sleepers s v x :
  let c := this_cpu s in
  let s0 := lset hart_of (masked (s_hart s)) s in
  sched_ok s v -> cpus s !! c = Some x ->
  exists s1 rq, (_ <- get_ctx c ;; spin_lock (sleep_lock_at c) ;;; n <- list_fuel ;;
      rq <- collect_ready n c (uptime_ms s) NULL ;; spin_unlock (sleep_lock_at c) ;;; ret (n, rq)) s0 =
      Ok (S (size (tasks s)), rq, s1) /\
    sched_ok s1 (vset (Sleep c) (still_asleep s (v (Sleep c))) v) /\ framed (fun _ => False) s0 s1 /\
    chain (nx (tasks s1)) rq (reverse (waking s (v (Sleep c)))) NULL.
Proof.
  intros c s0 Hok Hx. pose proof Hok as [Hr Hh Hl Hd Hb]. destruct (Hl c x Hx) as [Hl1 Hl2]. set (h := s_hart s).
  set (x1 := set_sleep_lock (held h (sleep_lock x)) x). set (l := v (Sleep c)).
  assert (chain (nx (tasks s)) (sleeping_list x1) l NULL) as Hc by (apply (rep_chain _ _ Hr); simpl; by rewrite Hx).
  destruct (collect_ready_run s0 c (uptime_ms s) (S (size (tasks s))) (tasks s) (<[c := x1]> (cpus s)) x1 l [] NULL)
    as (ts' & x' & rq & E & Ex & Hc1 & Hc2 & Hsame & Ho); [apply lookup_insert_eq|by apply rep_length|done|done|rewrite app_nil_r; by apply (chain_NoDup _ _ _ Hc)|].
  fold (waking s l) in *. fold (still_asleep s l) in *. rewrite app_nil_r in Hc2. rewrite insert_insert_eq in E.
  set (y := set_sleep_lock (released h (sleep_lock x)) x').
  assert (l = waking s l ++ still_asleep s l) as El by (symmetry; apply while_app).
  exists (mk s0 ts' (<[c := y]> (cpus s))), rq. split_and!; [| | |done].
  - rewrite <-(mk_id s0) at 1. erewrite get_ctx_bind by done. rewrite (bind_ok _ _ _ _ _ (sleep_lock_mk s0 _ (cpus s0) c x Hx Hh Hl2)).
    rewrite fuel_bind. change (held (s_hart s0) (sleep_lock x)) with (held h (sleep_lock x)). fold x1.
    change (tasks s0) with (tasks s). change (cpus s0) with (cpus s). rewrite (bind_ok _ _ _ _ _ E).
    rewrite (bind_ok _ _ _ _ _ (sleep_unlock_mk s0 ts' _ c x' ltac:(apply lookup_insert_eq))), insert_insert_eq.
    unfold y. replace (sleep_lock x') with (held h (sleep_lock x)) by (by rewrite Ex). done.
  - apply (sleep_list_ok s0 v c x); [by apply sched_ok_hart|done|unfold y; rewrite Ex; split_and!; try done; simpl; by apply released_free|exact Hc1| |].
    + intros u Hu. left. fold l. rewrite El. apply elem_of_app. by right.
    + intros u Hu _. apply Ho. intros Hw. apply Hu. fold l. rewrite El. apply elem_of_app. by left.
  - split; cbn [mk set_cpus set_tasks tasks cpus]; [done| | |].
    + intros d. destruct (decide (d = c)) as [->|]; [|by rewrite lookup_insert_ne]. change (cpus s0) with (cpus s). rewrite lookup_insert_eq, Hx. unfold y. by rewrite Ex.
    + intros u _. apply Hsame.
    + intros u. specialize (Hsame u). change (tasks s0) with (tasks s). by destruct (ts' !! u), (tasks s !! u).
Qed.

Lemma update_sleepers_spec s v x :
  let c := this_cpu s in
  let l := v (Sleep c) in
  sched_ok s v -> cpus s !! c = Some x ->
  exists s', sched_update_sleepers s = Ok (tt, s') /\ sched_ok s' (awake_view s c v) /\
    framed (fun u => u ∈ waking s l) s s' /\
    (forall u, u ∈ waking s l -> state <$> tasks s' !! u = Some TASK_READY) /\
    (by_deadline (tasks s) l ->
       waking s l = filter (fun u => deadline (tasks s) u <= uptime_ms s) l /\
       still_asleep s l = filter (fun u => uptime_ms s < deadline (tasks s) u) l /\
       by_deadline (tasks s') (still_asleep s l)).
Proof.
  intros c l Hok Hx. pose proof Hok as [Hr Hh _ _ _]. set (s0 := lset hart_of (masked (s_hart s)) s).
  destruct (split_sleepers s v x Hok Hx) as (s1 & rq & E1 & Hok1 & Hf1 & Hc1). fold c s0 in E1, Hok1, Hf1. fold c l in Hok1, Hc1.
  assert (NoDup l) as Hnd by (apply (chain_NoDup (nx (tasks s)) (sleeping_list x)), (rep_chain _ _ Hr); simpl; by rewrite Hx).
  assert (l = waking s l ++ still_asleep s l) as El by (symmetry; apply while_app).
  rewrite El in Hnd. apply NoDup_app in Hnd as (Hndw & Hdis & _).
  destruct (enqueue_ready_spec (S (size (tasks s))) s1 (vset (Sleep c) (still_asleep s l) v) c (reverse (waking s l)) rq) as (s2 & E2 & Hok2 & Hf2 & Hst2); [|done| |done| | |].
  { rewrite length_reverse. eapply Nat.le_lt_trans; [|by apply (rep_length s v (Sleep c))]. fold l. rewrite El at 2. rewrite length_app. lia. }
  { pose proof (fr_ctx _ _ _ Hf1 c) as E. change (cpus s0) with (cpus s) in E. rewrite Hx in E. by destruct (cpus s1 !! c). }
  { eapply nodup_perm; [symmetry; apply reverse_Permutation|done]. }
  { intros u Hu a. rewrite elem_of_reverse in Hu. unfold vset. case_decide as Ea; [by apply Hdis|]. intros Ha. apply Ea, (rep_disj _ _ Hr a (Sleep c) u); [done|].
    fold l. rewrite El. apply elem_of_app. by left. }
  assert (framed (fun u => u ∈ waking s l) s0 s2) as Hf.
  { eapply framed_trans; (eapply framed_mono; [|done]); simpl; [done|]. intros u Hu. by rewrite elem_of_reverse in Hu. }
  exists (lset hart_of (s_hart s) s2). split_and!.
  - unfold sched_update_sleepers. rewrite (bind_ok _ _ _ c s), (bind_ok _ _ _ (uptime_ms s) s), (bind_ok _ _ _ (rflags (s_hart s)) s0) by done.
    revert E1. unfold bind, ret. destruct (get_ctx c s0) as [[z sa]| | |]; [|done..].
    destruct (spin_lock _ sa) as [[[] sb]| | |]; [|done..]. destruct (list_fuel sb) as [[n sc]| | |]; [|done..].
    destruct (collect_ready n _ _ _ sc) as [[rq' sd]| | |]; [|done..]. destruct (spin_unlock _ sd) as [[[] se]| | |]; [|done..].
    intros [= -> -> ->]. rewrite E2, spin_irq_restore_eq. unfold lget, hart_of, sched_hart. rewrite (framed_hart _ _ _ Hf). simpl. by rewrite set_rflags_masked.
  - apply sched_ok_hart; [done|]. eapply sched_ok_ext; [|exact Hok2]. intros a. unfold awake_view, queued_on. fold l. f_equal.
    apply filter_ext_in. intros u _. unfold dest_on. pose proof (fr_tasks _ _ _ Hf1 u (fun H => H)) as E. change (tasks s0) with (tasks s) in E.
    destruct (tasks s1 !! u) as [p|], (tasks s !! u) as [q|]; simplify_eq/=; try done. by replace (base_priority q) with (base_priority p) by (destruct p, q; simplify_eq/=; done).
  - destruct Hf as [F1 F2 F3 F4]. split; [|done..]. rewrite F1. by destruct s.
  - intros u Hu. apply Hst2. by apply elem_of_reverse.
  - intros Hs. destruct (waking_sorted s l Hs) as [E3 E4]. split_and!; [done|done|]. rewrite El in Hs.
    apply (sorted_suffix (tasks s) _ _ _ Hs). intros u Hu. apply deadline_unlinked. apply (fr_tasks _ _ _ Hf u). intros Hw. by apply (Hdis u).
Qed.

(** C29: sched_update_sleepers returns with every lock free and the interrupt
    flag as it was. The tasks at the front of the sleeping list of the CPU
    whose time has come are ready at the ends of the runqueues of their base
    priorities, the one that was due first last; the others stay asleep in
    their order. When the list is sorted by wake-up time, these are exactly the
    tasks whose time has come, so nobody oversleeps and nobody wakes early, and
    the rest is sorted. Nothing else changes. *)
Theorem sched_update_sleepers_correct s v x :
  let c := this_cpu s in
  let l := v (Sleep c) in
  sched_ok s v -> cpus s !! c = Some x ->
  exists s', sched_update_sleepers s = Ok (tt, s') /\ sched_ok s' (awake_view s c v) /\
    framed (fun u => u ∈ waking s l) s s' /\
    (forall u, u ∈ waking s l -> state <$> tasks s' !! u = Some TASK_READY) /\
    (by_deadline (tasks s) l ->
       waking s l = filter (fun u => deadline (tasks s) u <= uptime_ms s) l /\
       still_asleep s l = filter (fun u => uptime_ms s < deadline (tasks s) u) l /\
       by_deadline (tasks s') (still_asleep s l)).
Proof. apply update_sleepers_spec. Qed.

(** ** Witnesses *)

(** Task A of CPU 0 goes to sleep for no time, and is due at once. *)
Lemma sched_make_task_sleep_correct_witness :
  exists s', sched_make_task_sleep 0 demo = Ok (tt, s') /\ sched_ok s' (vset (Sleep CPU0) [TASK_A] (fun _ => [])) /\
    unlinked <$> tasks s' !! TASK_A = Some (unlinked (asleep 42 (demo_task 10 PRIO_NORMAL TASK_RUNNING))).
Proof.
  destruct (sched_make_task_sleep_correct demo (fun _ => []) 0 (demo_cpu 0 TASK_A IDLE0) (demo_task 10 PRIO_NORMAL TASK_RUNNING)
    demo_ok ltac:(by_decide) ltac:(done) ltac:(by_decide) ltac:(intros a; apply not_elem_of_nil)) as (s' & E & Hok & _ & Ht & _).
  by exists s'.
Defined.

Definition demo_slept : sched := run (sched_make_task_sleep 0) demo.

Lemma demo_slept_ok : sched_ok demo_slept (vset (Sleep CPU0) [TASK_A] (fun _ => [])).
Proof.
  destruct (make_task_sleep_spec demo (fun _ => []) 0 (demo_cpu 0 TASK_A IDLE0) (demo_task 10 PRIO_NORMAL TASK_RUNNING)
    demo_ok ltac:(by_decide) ltac:(done) ltac:(by_decide) ltac:(intros a; apply not_elem_of_nil)) as (s' & E & Hok & _).
  unfold demo_slept, run. rewrite E. exact Hok.
Qed.

Lemma sched_update_sleepers_correct_witness :
  exists s', sched_update_sleepers demo_slept = Ok (tt, s') /\ (state <$> (tasks s' !! TASK_A)) = Some TASK_READY /\ by_deadline (tasks s') [].
Proof.
  destruct (sched_update_sleepers_correct demo_slept (vset (Sleep CPU0) [TASK_A] (fun _ => [])) (ctx_at demo_slept CPU0)
    demo_slept_ok ltac:(by vm_compute)) as (s' & E & _ & _ & Hst & Hs).
  exists s'. split_and!; [done| |].
  - apply Hst. vm_compute. by left.
  - apply Hs. vm_compute. constructor; constructor.
Defined.
