(* ===== verification/Preserve.v ===== *)
(** * Preservation along runs

    A reflexive and transitive relation between states that every elementary
    access respects is respected by every routine built from such accesses.
    The calculus is used where a property depends only on which fields a
    routine can write, not on what it computes: here, that no routine of the
    scheduler adds or drops a task structure, and that the effective priority
    of a task is only ever reset to its base priority. *)

From S2P Require Import Prelude Lock Chain Sched.

(** Whenever [m] returns, the states before and after it are related. *)
Definition preserves {S A} (R : relation S) (m : M S A) : Prop :=
  forall s a s', m s = Ok (a, s') -> R s s'.

Create HintDb keep.

Section calculus.
Context {S : Type} (R : relation S) `{!PreOrder R}.

Lemma preserves_ret {A} (a : A) : preserves R (ret a).
Proof. by intros s b s' [= -> ->]. Qed.

Lemma preserves_gets {A} (f : S -> A) : preserves R (gets f).
Proof. by intros s b s' [= _ ->]. Qed.

Lemma preserves_deref {A} (o : option A) : preserves R (deref o).
Proof. destruct o; [apply preserves_ret|]. by intros s b s'. Qed.

Lemma preserves_hang {A} : preserves R (@hang S A).
Proof. by intros s b s'. Qed.

Lemma preserves_modify (f : S -> S) : (forall s, R s (f s)) -> preserves R (modify f).
Proof. intros Hf s b s' [= _ <-]. apply Hf. Qed.

Lemma preserves_bind {A B} (m : M S A) (f : A -> M S B) :
  preserves R m -> (forall a, preserves R (f a)) -> preserves R (bind m f).
Proof. intros Hm Hf s b s' (a & s1 & E1 & E2)%bind_inv. by transitivity s1; [apply (Hm s a)|apply (Hf a s1 b)]. Qed.

Lemma preserves_when b (m : M S unit) : preserves R m -> preserves R (when b m).
Proof. intros Hm. destruct b; [done|apply preserves_ret]. Qed.

Lemma preserves_if {A} (b : bool) (m n : M S A) : preserves R m -> preserves R n -> preserves R (if b then m else n).
Proof. by destruct b. Qed.

Lemma preserves_mapM {A} (f : A -> M S unit) l : (forall a, preserves R (f a)) -> preserves R (mapM_ f l).
Proof. intros Hf. induction l as [|a l IH]; [apply preserves_ret|]. by apply preserves_bind. Qed.
End calculus.

#[export] Hint Resolve preserves_ret preserves_gets preserves_deref preserves_hang preserves_bind preserves_when
  preserves_if preserves_mapM : keep.

Section locks.
Context {S : Type} `{HasHart S} (R : relation S) `{!PreOrder R} (hart_kept : forall h s, R s (lset hart_of h s)).

Lemma preserves_irq_save : preserves R spin_irq_save.
Proof. apply preserves_bind; [done|auto with keep|]. intros h. apply preserves_bind; [done|by apply preserves_modify|auto with keep]. Qed.

Lemma preserves_irq_restore f : preserves R (spin_irq_restore f).
Proof. apply preserves_bind; [done|auto with keep|]. intros h. by apply preserves_modify. Qed.

Context (L : lens S spinlock) (lock_kept : forall l s, R s (lset L l s)).

Lemma preserves_lock : preserves R (spin_lock L).
Proof.
  unfold spin_lock, get_cpu_id. repeat (first [apply preserves_modify; done | apply preserves_bind; [done| |intros ?] | apply preserves_if | progress auto with keep]).
Qed.

Lemma preserves_unlock : preserves R (spin_unlock L).
Proof.
  unfold spin_unlock. repeat (first [apply preserves_modify; done | apply preserves_bind; [done| |intros ?] | apply preserves_if | progress auto with keep]).
Qed.

Lemma preserves_trylock : preserves R (spin_trylock L).
Proof.
  unfold spin_trylock, get_cpu_id. cbv zeta. repeat (first [apply preserves_modify; done | apply preserves_bind; [done| |intros ?] | apply preserves_if | progress auto with keep]).
Qed.

Lemma preserves_critical {A} (body : M S A) : preserves R body -> preserves R (critical L body).
Proof.
  intros Hb. unfold critical. repeat (first [apply preserves_irq_save | apply preserves_irq_restore | apply preserves_lock | apply preserves_unlock | done | apply preserves_bind; [done| |intros ?] | progress auto with keep]).
Qed.
End locks.

(** ** Priorities *)

(** What may happen to a task structure: it stays, with its base priority, and
    its effective priority is unchanged or, unless it is the lowest or the task
    is exempt, becomes the base priority. *)
Definition calm (exempt : Prop) (o o' : option task) : Prop :=
  match o, o' with
  | None, None => True
  | Some t, Some t' => base_priority t' = base_priority t /\
      (priority t' = priority t \/ (exempt \/ priority t <> PRIO_IDLE) /\ priority t' = base_priority t)
  | _, _ => False
  end.

(** The tasks of [X] are exempt. *)
Definition priorities_kept (X : Z -> Prop) (s s' : sched) : Prop := forall u, calm (X u) (tasks s !! u) (tasks s' !! u).

#[global] Instance priorities_kept_preorder X : PreOrder (priorities_kept X).
Proof.
  split.
  - intros s u. unfold calm. destruct (tasks s !! u); [by split; [|left]|done].
  - intros s1 s2 s3 H1 H2 u. specialize (H1 u). specialize (H2 u). unfold calm in *.
    destruct (tasks s1 !! u), (tasks s2 !! u), (tasks s3 !! u); try done.
    destruct H1 as [B1 [P1|[X1 P1]]], H2 as [B2 [P2|[X2 P2]]]; (split; [congruence|]); rewrite P2; [left; congruence|right..];
      (split; [|congruence]); try done. by rewrite <-P1.
Qed.

Lemma kept_same X s s' : tasks s' = tasks s -> priorities_kept X s s'.
Proof. intros E u. rewrite E. unfold calm. destruct (tasks s !! u); [by split; [|left]|done]. Qed.

Lemma kept_mono (X Y : Z -> Prop) s s' :
  (forall u t, tasks s !! u = Some t -> priority t = PRIO_IDLE -> X u -> Y u) -> priorities_kept X s s' -> priorities_kept Y s s'.
Proof.
  intros HXY Hk u. specialize (Hk u). unfold calm in *. destruct (tasks s !! u) as [t|] eqn:E; [|done]. destruct (tasks s' !! u); [|done].
  destruct Hk as [B [P|[HX P]]]; (split; [done|]); [by left|]. right. split; [|done].
  destruct (decide (priority t = PRIO_IDLE)) as [Ep|]; [|by right]. left. destruct HX as [HX|HX]; [|done]. by apply (HXY u t).
Qed.

Section kept.
Context (X : Z -> Prop).

Lemma kept_hart h s : priorities_kept X s (lset hart_of h s).
Proof. by apply kept_same. Qed.
Lemma kept_rq_lock c l s : priorities_kept X s (lset (rq_lock_at c) l s).
Proof. by apply kept_same. Qed.
Lemma kept_sleep_lock c l s : priorities_kept X s (lset (sleep_lock_at c) l s).
Proof. by apply kept_same. Qed.
Lemma kept_blocked_lock l s : priorities_kept X s (lset blocked_lock l s).
Proof. by apply kept_same. Qed.
Lemma kept_dead_lock l s : priorities_kept X s (lset dead_lock l s).
Proof. by apply kept_same. Qed.

Lemma kept_upd_task p f : (forall t, calm (X p) (Some t) (Some (f t))) -> preserves (priorities_kept X) (upd_task p f).
Proof.
  intros Hf s a s' E. unfold upd_task, get_task, bind, gets, deref in E. destruct (tasks s !! p) as [t|] eqn:Ep; [|done].
  injection E as _ <-. intros u. cbn [set_tasks tasks]. destruct (decide (u = p)) as [->|Hu].
  - rewrite lookup_insert_eq, Ep. apply Hf.
  - rewrite lookup_insert_ne by done. by apply kept_same.
Qed.

Lemma kept_upd_ctx c f : preserves (priorities_kept X) (upd_ctx c f).
Proof.
  intros s a s' E. unfold upd_ctx, get_ctx, bind, gets, deref in E. destruct (cpus s !! c) as [x|]; [|done].
  injection E as _ <-. by apply kept_same.
Qed.
End kept.

(** Accesses first, then the structure of the routine. *)
Ltac keep_access := first
  [ apply kept_upd_ctx
  | apply kept_upd_task; intros ?; unfold calm; simpl; split; [done|auto]
  | apply preserves_modify; intros ?; by apply kept_same
  | apply (preserves_irq_save _ (kept_hart _)) | apply (preserves_irq_restore _ (kept_hart _))
  | apply preserves_lock; [tc_solve|done] | apply preserves_unlock; [tc_solve|done] | apply preserves_trylock; [tc_solve|done]
  | apply (preserves_critical _ (kept_hart _)); [done|] ].

Ltac keep := repeat first
  [ progress (intros; cbv zeta) | solve [eauto 2 with keep typeclass_instances] | keep_access
  | apply preserves_bind; [tc_solve| |intros ?] | apply preserves_when; [tc_solve|] | apply preserves_if | case_match ].

Lemma keeps_get_task X p : preserves (priorities_kept X) (get_task p).
Proof. unfold get_task. keep. Qed.
Lemma keeps_get_ctx X c : preserves (priorities_kept X) (get_ctx c).
Proof. unfold get_ctx. keep. Qed.
Lemma keeps_by_id X i : preserves (priorities_kept X) (get_cpu_by_id i).
Proof. unfold get_cpu_by_id. keep. Qed.
#[export] Hint Resolve keeps_get_task keeps_get_ctx keeps_by_id : keep.
#[export] Hint Unfold get_cpu get_uptime_ms list_fuel : keep.

Lemma keeps_read_link X pp : preserves (priorities_kept X) (read_link pp).
Proof. destruct pp; unfold read_link; keep. Qed.
Lemma keeps_write_link X pp w : preserves (priorities_kept X) (write_link pp w).
Proof. destruct pp; unfold write_link; keep. Qed.
Lemma keeps_current X : preserves (priorities_kept X) sched_get_current.
Proof. unfold sched_get_current. keep. Qed.

(** Only an enqueued task has its priority reset. *)
Lemma keeps_enqueue (X : Z -> Prop) c t : X t -> preserves (priorities_kept X) (enqueue_task c t).
Proof. intros HX. unfold enqueue_task. keep. Qed.
#[export] Hint Resolve keeps_read_link keeps_write_link keeps_current keeps_enqueue : keep.

Lemma keeps_dequeue X c : preserves (priorities_kept X) (dequeue_task c).
Proof.
  assert (forall ps, preserves (priorities_kept X) (dequeue_levels ps c)) by (intros ps; induction ps; simpl; keep).
  unfold dequeue_task. keep.
Qed.

(** No task is exempt, or every one. *)
Notation none_exempt := (fun _ : Z => False).
Notation all_exempt := (fun _ : Z => True).

Lemma keeps_sleepers : preserves (priorities_kept all_exempt) sched_update_sleepers.
Proof.
  assert (forall n c now q, preserves (priorities_kept all_exempt) (collect_ready n c now q)) by (intros n; induction n; simpl; keep).
  assert (forall n c q, preserves (priorities_kept all_exempt) (enqueue_ready n c q)) by (intros n; induction n; simpl; keep).
  unfold sched_update_sleepers. keep.
Qed.

Lemma keeps_sleep X ms : preserves (priorities_kept X) (sched_make_task_sleep ms).
Proof.
  assert (forall n d pp, preserves (priorities_kept X) (find_slot n d pp)) by (intros n; induction n; simpl; keep).
  unfold sched_make_task_sleep. keep.
Qed.

Lemma keeps_block X reason : preserves (priorities_kept X) (sched_block_current reason).
Proof. unfold sched_block_current. keep. Qed.

Lemma keeps_wakeup reason : preserves (priorities_kept all_exempt) (sched_wakeup reason).
Proof.
  assert (forall n pp q, preserves (priorities_kept all_exempt) (collect_blocked n reason pp q)) by (intros n; induction n; simpl; keep).
  assert (forall n q, preserves (priorities_kept all_exempt) (enqueue_woken n q)) by (intros n; induction n; simpl; keep).
  unfold sched_wakeup. keep.
Qed.

Lemma keeps_exit X : preserves (priorities_kept X) exit_current.
Proof. unfold exit_current. keep. Qed.

Lemma keeps_steal X o : preserves (priorities_kept X) (steal_task_from_cpu o).
Proof.
  assert (forall n p q r, preserves (priorities_kept X) (steal_level n o p q r)) by (intros n; induction n; simpl; keep).
  assert (forall ps, preserves (priorities_kept X) (steal_levels ps o)) by (intros ps; induction ps; simpl; keep).
  unfold steal_task_from_cpu. keep.
Qed.
#[export] Hint Resolve keeps_dequeue keeps_steal : keep.

(** The outgoing task is put back only when its priority is not the lowest. *)
Lemma keeps_requeue c t : preserves (priorities_kept none_exempt)
  (tk <- get_task t ;;
   when (bool_decide (state tk = TASK_RUNNING) && negb (priority tk =? PRIO_IDLE)) (upd_task t (set_state TASK_READY) ;;; enqueue_task c t)).
Proof.
  intros s a s' E. unfold get_task, bind at 1 2, gets, deref in E. destruct (tasks s !! t) as [tk|] eqn:Et; [|done]. unfold ret at 1 in E. cbv beta iota in E.
  destruct (bool_decide (state tk = TASK_RUNNING)); [|injection E as _ <-; by apply kept_same]. destruct (Z.eqb_spec (priority tk) PRIO_IDLE) as [|Hp]; [injection E as _ <-; by apply kept_same|].
  apply (kept_mono (eq t)).
  - intros u tu Hu Ep <-. rewrite Et in Hu. by injection Hu as <-.
  - revert E. apply (preserves_bind (priorities_kept (eq t))); keep.
Qed.

Lemma keeps_put c t frame : preserves (priorities_kept none_exempt) (put_current c t frame).
Proof.
  unfold put_current. apply preserves_when; [tc_solve|]. apply preserves_bind; [tc_solve|keep|intros _].
  intros s a s' E. rewrite <-bind_bind in E. revert E. apply preserves_bind; [tc_solve|apply keeps_requeue|intros _; keep].
Qed.
#[export] Hint Resolve keeps_put : keep.

Lemma keeps_schedule frame : preserves (priorities_kept none_exempt) (schedule frame).
Proof.
  assert (forall ids c, preserves (priorities_kept none_exempt) (steal_from ids c)) by (intros ids; induction ids; simpl; keep).
  assert (forall c p, preserves (priorities_kept none_exempt) (boost_level c p)) by (intros; unfold boost_level; keep).
  unfold schedule, pick_next, switch_to, prio_boost. keep.
Qed.
