(* ===== verification/Ring.v ===== *)
(** * Circular buffers

    The characters of a circular buffer of [N] cells between a tail (the next
    to read) and a head (the next to write), as the keyboard driver and the
    log keep them: the buffer is empty when the two are equal, and full with
    [N - 1] characters in it. *)

From S2P Require Import Prelude.

Section ring.
Context (N : Z) (HN : 1 < N).

(** The characters from the tail to the head, oldest first. *)
Definition ring_contents (buf : gmap Z Z) (head tail : Z) : list Z :=
  (fun i => rd buf ((tail + i) mod N)) <$> seqZ 0 ((head - tail) mod N).

Lemma length_ring buf h t : length (ring_contents buf h t) = Z.to_nat ((h - t) mod N).
Proof. unfold ring_contents. by rewrite length_fmap, length_seqZ. Qed.

(** A sum or a difference of two cell numbers, reduced. *)
Lemma ring_mod x : - N <= x < 2 * N ->
  (x mod N = x /\ 0 <= x < N) \/ (x mod N = x + N /\ x < 0) \/ (x mod N = x - N /\ N <= x).
Proof.
  intros Hx. destruct (decide (x < 0)); [right; left|destruct (decide (x < N)); [left|right; right]].
  - split; [|lia]. rewrite <-(Z.mod_small (x + N) N) by lia.
    replace (x + N) with (x + 1 * N) by lia. rewrite Z.mod_add; lia.
  - split; [|lia]. apply Z.mod_small. lia.
  - split; [|lia]. rewrite <-(Z.mod_small (x - N) N) by lia.
    replace (x - N) with (x + (-1) * N) by lia. rewrite Z.mod_add; lia.
Qed.

Lemma ring_empty buf h : ring_contents buf h h = [].
Proof. unfold ring_contents. by rewrite Z.sub_diag, Z.mod_0_l by lia. Qed.

(** The next head meets the tail exactly when all but one cell are used. *)
Lemma ring_full buf h t : 0 <= h < N -> 0 <= t < N ->
  (h + 1) mod N = t <-> Z.of_nat (length (ring_contents buf h t)) = N - 1.
Proof.
  intros Hh Ht. rewrite length_ring. pose proof (ring_mod (h + 1) ltac:(lia)).
  pose proof (ring_mod (h - t) ltac:(lia)). lia.
Qed.

Lemma ring_push buf h t c : 0 <= h < N -> 0 <= t < N -> (h + 1) mod N <> t ->
  ring_contents (<[h := c]> buf) ((h + 1) mod N) t = ring_contents buf h t ++ [c].
Proof.
  intros Hh Ht Hne. unfold ring_contents.
  pose proof (ring_mod (h + 1) ltac:(lia)) as M1. pose proof (ring_mod (h - t) ltac:(lia)) as M2.
  pose proof (ring_mod ((h + 1) mod N - t) ltac:(lia)) as M3.
  replace (((h + 1) mod N - t) mod N) with ((h - t) mod N + 1) by lia.
  rewrite seqZ_app, fmap_app by lia. f_equal.
  - apply list_fmap_ext. intros i x Hi%list_elem_of_lookup_2%elem_of_seqZ.
    rewrite rd_insert, decide_False; [done|]. pose proof (ring_mod (t + x) ltac:(lia)). lia.
  - change (seqZ (0 + (h - t) mod N) 1) with [0 + (h - t) mod N]. cbn [fmap list_fmap].
    rewrite rd_insert, decide_True; [done|].
    pose proof (ring_mod (t + (0 + (h - t) mod N)) ltac:(lia)). lia.
Qed.

Lemma ring_pop buf h t : 0 <= h < N -> 0 <= t < N -> h <> t ->
  ring_contents buf h t = rd buf t :: ring_contents buf h ((t + 1) mod N).
Proof.
  intros Hh Ht Hne. unfold ring_contents.
  pose proof (ring_mod (h - t) ltac:(lia)) as M1. pose proof (ring_mod (t + 1) ltac:(lia)) as M2.
  pose proof (ring_mod (h - (t + 1) mod N) ltac:(lia)) as M3.
  replace ((h - (t + 1) mod N) mod N) with ((h - t) mod N - 1) by lia.
  rewrite (seqZ_cons 0 ((h - t) mod N)) by lia. cbn [fmap list_fmap].
  rewrite Z.add_0_r, (Z.mod_small t) by lia. f_equal.
  replace (Z.pred ((h - t) mod N)) with ((h - t) mod N - 1) by lia. change (Z.succ 0) with (1 + 0).
  rewrite <-(fmap_add_seqZ 1 0), <-list_fmap_compose. apply list_fmap_ext.
  intros i x Hx%list_elem_of_lookup_2%elem_of_seqZ. simpl. f_equal.
  pose proof (ring_mod ((t + 1) mod N + x) ltac:(lia)).
  pose proof (ring_mod (t + (1 + x)) ltac:(lia)). lia.
Qed.

(** The writer that gives up the oldest character when the buffer is full. *)
Lemma ring_push_full buf h t c : 0 <= h < N -> 0 <= t < N -> (h + 1) mod N = t ->
  ring_contents (<[h := c]> buf) ((h + 1) mod N) ((t + 1) mod N) = tail (ring_contents buf h t) ++ [c].
Proof.
  intros Hh Ht E. pose proof (ring_mod (h + 1) ltac:(lia)) as M1.
  pose proof (ring_mod (t + 1) ltac:(lia)) as M2.
  rewrite (ring_pop buf h t) by lia. cbn [tail]. apply ring_push; lia.
Qed.
End ring.
