(* ===== verification/Kbd.v ===== *)
(** * Keyboard

    Models [kernel/arch/x86_64/drivers/ps2/ps2_kbd.c] and
    [kernel/include/arch/x86_64/drivers/ps2/ps2_kbd.h] on top of the scheduler:
    the scancode state machine and the circular buffer between the interrupt
    handler and the readers.

    - [kbd] holds the driver's static variables; [data_port] is the byte the
      next [inb(PS2_DATA_PORT)] reads, which the device sets.
    - A [char] is a byte. *)

From S2P Require Import Prelude Lock Ring Chain Sched Runqueue Balance Schedule Wakeup.

(** ** Data *)

Definition scancode_set2_lower : list Z := [
  0; 0x89; 0; 0x8A; 0x8B; 0x8C; 0x8D; 0x96;
  0; 0x97; 0x98; 0x99; 0x9A; 9; 96; 0;
  0; 0x88; 0x85; 0; 0x87; 113; 49; 0;
  0; 0; 122; 115; 97; 119; 50; 0;
  0; 99; 120; 100; 101; 52; 51; 0;
  0; 32; 118; 102; 116; 114; 53; 0;
  0; 110; 98; 104; 103; 121; 54; 0;
  0; 0; 109; 106; 117; 55; 56; 0;
  0; 44; 107; 105; 111; 48; 57; 0;
  0; 46; 47; 108; 59; 112; 45; 0;
  0; 0; 39; 0; 91; 61; 0; 0;
  0x84; 0x86; 10; 93; 0; 92; 0; 0;
  0; 0; 0; 0; 0; 0; 8; 0;
  0; 49; 0; 52; 55; 0; 0; 0;
  48; 46; 50; 53; 54; 56; 0x1B; 0;
  0x9B; 43; 51; 45; 42; 57; 0; 0].

Definition scancode_set2_upper : list Z := [
  0; 0; 0; 0; 0; 0; 0; 0;
  0; 0; 0; 0; 0; 9; 126; 0;
  0; 0; 0; 0; 0; 81; 33; 0;
  0; 0; 90; 83; 65; 87; 64; 0;
  0; 67; 88; 68; 69; 36; 35; 0;
  0; 32; 86; 70; 84; 82; 37; 0;
  0; 78; 66; 72; 71; 89; 94; 0;
  0; 0; 77; 74; 85; 38; 42; 0;
  0; 60; 75; 73; 79; 41; 40; 0;
  0; 62; 63; 76; 58; 80; 95; 0;
  0; 0; 34; 0; 123; 43; 0; 0;
  0; 0; 10; 125; 0; 124; 0; 0;
  0; 0; 0; 0; 0; 0; 8; 0;
  0; 49; 0; 52; 55; 0; 0; 0;
  48; 46; 50; 53; 54; 56; 0x1B; 0;
  0; 61; 51; 45; 42; 57; 0; 0].

Definition KBD_BUF_SIZE : Z := 256.

(** The flags of the scancode decoder *)
Record flags := mkFlags { is_caps : bool; is_break : bool; is_shifted : bool; is_extended : bool }.

#[global] Instance flags_eq_dec : EqDecision flags.
Proof. solve_decision. Defined.

Record kbd := mkKbd {
  kbd_sched : sched;
  kbd_lock_ : spinlock;
  kbd_flags : flags;
  kbd_buffer : gmap Z Z;
  kbd_head : Z;
  kbd_tail : Z;
  data_port : Z;
}.

Definition set_kbd_sched (v : sched) (k : kbd) : kbd :=
  mkKbd v (kbd_lock_ k) (kbd_flags k) (kbd_buffer k) (kbd_head k) (kbd_tail k) (data_port k).
Definition set_kbd_flags (v : flags) (k : kbd) : kbd :=
  mkKbd (kbd_sched k) (kbd_lock_ k) v (kbd_buffer k) (kbd_head k) (kbd_tail k) (data_port k).
Definition set_kbd_buffer (v : gmap Z Z) (k : kbd) : kbd :=
  mkKbd (kbd_sched k) (kbd_lock_ k) (kbd_flags k) v (kbd_head k) (kbd_tail k) (data_port k).
Definition set_kbd_head (v : Z) (k : kbd) : kbd :=
  mkKbd (kbd_sched k) (kbd_lock_ k) (kbd_flags k) (kbd_buffer k) v (kbd_tail k) (data_port k).
Definition set_kbd_tail (v : Z) (k : kbd) : kbd :=
  mkKbd (kbd_sched k) (kbd_lock_ k) (kbd_flags k) (kbd_buffer k) (kbd_head k) v (data_port k).

#[export] Instance kbd_hart : HasHart kbd :=
  Lens (fun k => s_hart (kbd_sched k)) (fun h k => set_kbd_sched (lset hart_of h (kbd_sched k)) k).
#[export] Instance kbd_hart_ok : HasHartOk kbd.
Proof. split; intros; try destruct s as [[] ? ? ? ? ? ?]; done. Qed.

Definition kbd_lock : lens kbd spinlock := Lens kbd_lock_
  (fun l k => mkKbd (kbd_sched k) l (kbd_flags k) (kbd_buffer k) (kbd_head k) (kbd_tail k) (data_port k)).
#[export] Instance kbd_lock_ok : LensOk kbd_lock.
Proof. split; intros; try destruct s; done. Qed.
#[export] Instance kbd_lock_indep : LensIndep kbd_lock hart_of.
Proof. by split. Qed.

Definition on_sched {A} (m : M sched A) : M kbd A := fun k =>
  match m (kbd_sched k) with
  | Ok (a, s) => Ok (a, set_kbd_sched s k)
  | Fault => Fault
  | Panic => Panic
  | Hang => Hang
  end.

(** ** Operations *)

Definition kbd_push_char (c : Z) : M kbd unit :=
  head <- gets kbd_head ;;
  tail <- gets kbd_tail ;;
  let next := (head + 1) mod KBD_BUF_SIZE in
  when (negb (next =? tail))
    (modify (fun k => set_kbd_buffer (<[head := c]> (kbd_buffer k)) k) ;;; modify (set_kbd_head next)).

Definition kbd_pop_char : M kbd (option Z) :=
  critical kbd_lock (
    head <- gets kbd_head ;;
    tail <- gets kbd_tail ;;
    if head =? tail then ret None else
    c <- gets (fun k => rd (kbd_buffer k) tail) ;;
    modify (set_kbd_tail ((tail + 1) mod KBD_BUF_SIZE)) ;;;
    ret (Some c)).

Definition upd_flags (f : flags -> flags) : M kbd unit := modify (fun k => set_kbd_flags (f (kbd_flags k)) k).
Definition set_is_caps (b : bool) (f : flags) : flags := mkFlags b (is_break f) (is_shifted f) (is_extended f).
Definition set_is_break (b : bool) (f : flags) : flags := mkFlags (is_caps f) b (is_shifted f) (is_extended f).
Definition set_is_shifted (b : bool) (f : flags) : flags := mkFlags (is_caps f) (is_break f) b (is_extended f).
Definition set_is_extended (b : bool) (f : flags) : flags := mkFlags (is_caps f) (is_break f) (is_shifted f) b.

Definition is_shift_key (scancode : Z) : bool := (scancode =? 0x12) || (scancode =? 0x59).

Definition ps2_keyboard_handler : M kbd unit :=
  critical kbd_lock (
    scancode <- gets data_port ;;
    f <- gets kbd_flags ;;
    if scancode =? 0xE0 then upd_flags (set_is_extended true)
    else if scancode =? 0xF0 then upd_flags (set_is_break true)
    else if is_break f then
      upd_flags (set_is_break false) ;;;
      upd_flags (set_is_extended false) ;;;
      when (is_shift_key scancode) (upd_flags (set_is_shifted false))
    else if is_shift_key scancode then upd_flags (set_is_shifted true)
    else if scancode =? 0x58 then upd_flags (set_is_caps (negb (is_caps f)))
    else
      when (scancode <? 0x80)
        (let use_upper := xorb (is_shifted f) (is_caps f) in
         ascii <- deref ((if use_upper then scancode_set2_upper else scancode_set2_lower) !! Z.to_nat scancode) ;;
         when (negb (ascii =? 0)) (kbd_push_char ascii ;;; on_sched (sched_wakeup REASON_KEYBOARD))) ;;;
      upd_flags (set_is_extended false)).

(** ** The buffer is a bounded queue *)

(** The characters between tail and head, oldest first. *)
Definition pending (k : kbd) : list Z := ring_contents KBD_BUF_SIZE (kbd_buffer k) (kbd_head k) (kbd_tail k).

Definition ring_ok (k : kbd) : Prop := 0 <= kbd_head k < KBD_BUF_SIZE /\ 0 <= kbd_tail k < KBD_BUF_SIZE.

(** [kbd_push_char] appends unless 255 characters are pending. *)
Lemma push_spec k c :
  ring_ok k -> exists k', kbd_push_char c k = Ok (tt, k') /\ ring_ok k' /\
    pending k' = (if (length (pending k) <? 255)%nat then pending k ++ [c] else pending k) /\
    kbd_sched k' = kbd_sched k /\ kbd_lock_ k' = kbd_lock_ k /\ kbd_flags k' = kbd_flags k /\ data_port k' = data_port k.
Proof.
  intros [Hh Ht]. pose proof (ring_full KBD_BUF_SIZE eq_refl (kbd_buffer k) _ _ Hh Ht) as Hfull.
  fold (pending k) in Hfull. unfold kbd_push_char, bind, gets.
  destruct (Z.eqb_spec ((kbd_head k + 1) mod KBD_BUF_SIZE) (kbd_tail k)) as [E|E]; cbn [negb when].
  - exists k. split_and!; try done. rewrite (proj2 (Nat.ltb_ge _ _)); [done|]. apply Hfull in E. unfold KBD_BUF_SIZE in E. lia.
  - eexists. split; [reflexivity|]. split_and!; try done; [split; [by apply Z.mod_pos_bound|done]|].
    rewrite (proj2 (Nat.ltb_lt _ _)); [by apply (ring_push KBD_BUF_SIZE)|].
    pose proof (length_ring KBD_BUF_SIZE (kbd_buffer k) (kbd_head k) (kbd_tail k)) as Hl. fold (pending k) in Hl.
    pose proof (Z.mod_pos_bound (kbd_head k - kbd_tail k) KBD_BUF_SIZE eq_refl).
    unfold KBD_BUF_SIZE in *. lia.
Qed.

(** What the driver promises of its own state. *)
Record kbd_core (k : kbd) (v : place -> list Z) : Prop := {
  ko_ring : ring_ok k;
  ko_sched : sched_ok (kbd_sched k) v;
  ko_table : table_ok (kbd_sched k);
  ko_cpu : is_Some (cpus (kbd_sched k) !! this_cpu (kbd_sched k));
}.
Definition kbd_ok (k : kbd) (v : place -> list Z) : Prop := lock_free (kbd_lock_ k) /\ kbd_core k v.

Lemma head_pending k : ring_ok k -> kbd_head k <> kbd_tail k ->
  exists l, pending k = rd (kbd_buffer k) (kbd_tail k) :: l /\ pending (set_kbd_tail ((kbd_tail k + 1) mod KBD_BUF_SIZE) k) = l.
Proof.
  intros [Hh Ht] Hne. eexists. split; [|reflexivity]. by apply (ring_pop KBD_BUF_SIZE).
Qed.

(** [kbd_pop_char] takes the oldest pending character out of the buffer, or
    answers false and changes nothing when none is pending. *)
Theorem kbd_pop_char_correct k v :
  kbd_ok k v ->
  exists k', kbd_pop_char k = Ok (head (pending k), k') /\ kbd_ok k' v /\ pending k' = tail (pending k) /\ kbd_flags k' = kbd_flags k.
Proof.
  intros [Hl [Hr Hs Ht Hc]]. set (k1 := enter kbd_lock k).
  assert (sched_ok (kbd_sched k) v -> hart_ok (lget hart_of k)) as Hh by (by intros []).
  assert (forall k', kbd_sched (leave kbd_lock k k') = lset hart_of (s_hart (kbd_sched k)) (kbd_sched k') /\
    kbd_lock_ (leave kbd_lock k k') = released (s_hart (kbd_sched k)) (kbd_lock_ k)) as Hlv by done.
  assert (lset hart_of (s_hart (kbd_sched k)) (lset hart_of (masked (s_hart (kbd_sched k))) (kbd_sched k)) = kbd_sched k) as Es
    by (by destruct (kbd_sched k)).
  destruct (decide (kbd_head k = kbd_tail k)) as [E|E].
  - assert (pending k = []) as Hp by (unfold pending; rewrite E; by apply ring_empty).
    exists (leave kbd_lock k k1). rewrite Hp. split; [|split; [|done]].
    + apply (critical_ok kbd_lock); [by apply Hh|done| |done|done]. unfold bind, gets. change (kbd_head (enter kbd_lock k)) with (kbd_head k).
      change (kbd_tail (enter kbd_lock k)) with (kbd_tail k). by rewrite E, Z.eqb_refl.
    + split; [by apply released_free|]. split; [done|..]; (change (kbd_sched (leave kbd_lock k k1)) with (lset hart_of (s_hart (kbd_sched k)) (lset hart_of (masked (s_hart (kbd_sched k))) (kbd_sched k))); by rewrite Es).
  - destruct (head_pending k Hr E) as (l & Hp & Hp'). rewrite Hp. cbn [head tail].
    set (k2 := set_kbd_tail ((kbd_tail k + 1) mod KBD_BUF_SIZE) k1). exists (leave kbd_lock k k2). split; [|split; [|split; [|done]]].
    + apply (critical_ok kbd_lock); [by apply Hh|done| |done|done]. unfold bind, gets. change (kbd_head (enter kbd_lock k)) with (kbd_head k).
      change (kbd_tail (enter kbd_lock k)) with (kbd_tail k). by rewrite (proj2 (Z.eqb_neq _ _)).
    + split; [by apply released_free|]. split; [|(change (kbd_sched (leave kbd_lock k k2)) with (lset hart_of (s_hart (kbd_sched k)) (lset hart_of (masked (s_hart (kbd_sched k))) (kbd_sched k))); by rewrite Es)..].
      destruct Hr as [Hr1 Hr2]. split; [done|]. change (kbd_tail (leave kbd_lock k k2)) with ((kbd_tail k + 1) mod KBD_BUF_SIZE).
      apply Z.mod_pos_bound. done.
    + exact Hp'.
Qed.

(** ** The scancode decoder *)

(** The character a make code stands for, 0 when it has none. *)
Definition key_char (upper : bool) (scancode : Z) : Z :=
  default 0 ((if upper then scancode_set2_upper else scancode_set2_lower) !! Z.to_nat scancode).

(** What a byte from the keyboard means: the new flags and, for the make code
    of a key with a character, that character. *)
Definition decode (f : flags) (scancode : Z) : flags * option Z :=
  if scancode =? 0xE0 then (set_is_extended true f, None)
  else if scancode =? 0xF0 then (set_is_break true f, None)
  else if is_break f then
    (mkFlags (is_caps f) false (if is_shift_key scancode then false else is_shifted f) false, None)
  else if is_shift_key scancode then (set_is_shifted true f, None)
  else if scancode =? 0x58 then (set_is_caps (negb (is_caps f)) f, None)
  else
    let c := key_char (xorb (is_shifted f) (is_caps f)) scancode in
    (set_is_extended false f, if (scancode <? 0x80) && negb (c =? 0) then Some c else None).

(** The buffer after a character arrived, or none. *)
Definition arrive (o : option Z) (l : list Z) : list Z :=
  match o with Some c => if (length l <? 255)%nat then l ++ [c] else l | None => l end.

Definition woken_by (o : option Z) (s : sched) (v : place -> list Z) : place -> list Z :=
  match o with Some _ => woken_view REASON_KEYBOARD s v | None => v end.

Lemma lookup_scancode (b : bool) scancode : 0 <= scancode < 0x80 ->
  (if b then scancode_set2_upper else scancode_set2_lower) !! Z.to_nat scancode = Some (key_char b scancode).
Proof.
  intros Hs. unfold key_char. destruct (lookup_lt_is_Some_2 (if b then scancode_set2_upper else scancode_set2_lower) (Z.to_nat scancode)) as [c ->]; [|done].
  destruct b; simpl length; lia.
Qed.

(** A key with a character: it is queued and the readers are woken. *)
Lemma type_spec k v c :
  kbd_core k v -> exists k', (kbd_push_char c ;;; on_sched (sched_wakeup REASON_KEYBOARD)) k = Ok (tt, k') /\
    kbd_core k' (woken_view REASON_KEYBOARD (kbd_sched k) v) /\ pending k' = arrive (Some c) (pending k) /\ kbd_flags k' = kbd_flags k /\
    s_hart (kbd_sched k') = s_hart (kbd_sched k) /\ kbd_lock_ k' = kbd_lock_ k.
Proof.
  intros [Hr Hs Ht Hc]. destruct (push_spec k c Hr) as (k1 & E1 & Hr1 & Hp1 & Es1 & El1 & Ef1 & _).
  destruct (sched_wakeup_spec REASON_KEYBOARD (kbd_sched k) v Hs Ht Hc) as (s2 & E2 & Hs2 & Hh2 & Htab & Hthis & Hdom & _).
  exists (set_kbd_sched s2 k1). split; [|split; [|by split_and!]].
  - rewrite (bind_ok _ _ _ _ _ E1). unfold on_sched. by rewrite Es1, E2.
  - assert (Hsome : forall c, is_Some (cpus (kbd_sched k) !! c) -> is_Some (cpus s2 !! c)).
    { intros i. by rewrite <-!(fmap_is_Some ctx_core), Hdom. }
    split; try done; [intros i; cbn; rewrite Htab; intros Hi; by apply Hsome, Ht|cbn; rewrite Hthis; by apply Hsome].
Qed.

(** The body of the handler, with interrupts masked and the lock held. *)
Lemma handler_body k v (f := kbd_flags k) (code := data_port k) :
  kbd_core k v -> 0 <= code < 256 ->
  exists k', (scancode <- gets data_port ;;
    f <- gets kbd_flags ;;
    if scancode =? 0xE0 then upd_flags (set_is_extended true)
    else if scancode =? 0xF0 then upd_flags (set_is_break true)
    else if is_break f then
      upd_flags (set_is_break false) ;;; upd_flags (set_is_extended false) ;;; when (is_shift_key scancode) (upd_flags (set_is_shifted false))
    else if is_shift_key scancode then upd_flags (set_is_shifted true)
    else if scancode =? 0x58 then upd_flags (set_is_caps (negb (is_caps f)))
    else
      when (scancode <? 0x80)
        (let use_upper := xorb (is_shifted f) (is_caps f) in
         ascii <- deref ((if use_upper then scancode_set2_upper else scancode_set2_lower) !! Z.to_nat scancode) ;;
         when (negb (ascii =? 0)) (kbd_push_char ascii ;;; on_sched (sched_wakeup REASON_KEYBOARD))) ;;;
      upd_flags (set_is_extended false)) k = Ok (tt, k') /\
    kbd_core k' (woken_by (decode f code).2 (kbd_sched k) v) /\ kbd_flags k' = (decode f code).1 /\
    pending k' = arrive (decode f code).2 (pending k) /\ s_hart (kbd_sched k') = s_hart (kbd_sched k) /\ kbd_lock_ k' = kbd_lock_ k.
Proof.
  intros Hk Hcode. assert (forall g, kbd_core (set_kbd_flags g k) v) as Hset by (intros g; by destruct Hk).
  unfold bind at 1 2, gets at 1 2. cbv beta iota. fold code f. unfold decode.
  destruct (code =? 0xE0); [by eexists|]. destruct (code =? 0xF0); [by eexists|].
  destruct (is_break f) eqn:Eb.
  { unfold upd_flags, modify, bind, when, ret. fold f.
    destruct (is_shift_key code); eexists; (split; [reflexivity|]); split_and!; try done; apply Hset. }
  destruct (is_shift_key code); [by eexists|]. destruct (code =? 0x58); [by eexists|].
  destruct (Z.ltb_spec code 0x80) as [Hlt|Hge]; cbn [when andb]; [|eexists; split; [reflexivity|]; by split_and!].
  unfold bind at 1. cbv zeta. rewrite lookup_scancode by lia. unfold bind at 1, deref, ret at 1. cbv beta iota.
  set (c := key_char _ code). destruct (negb (c =? 0)) eqn:Ec; cbn [when fst snd]; [|eexists; split; [reflexivity|]; by split_and!].
  destruct (type_spec k v c Hk) as (k1 & E1 & [A1 A2 A3 A4] & Hp & Hf & Hh & Hl). rewrite E1. eexists. split; [reflexivity|].
  split_and!; try done. cbn [kbd_flags set_kbd_flags]. by rewrite Hf.
Qed.

(** C11: the keyboard interrupt, for every byte the keyboard can send and in every
    state of the decoder: shift, caps lock, break and extension prefixes change
    the flags as the scancode set says, the make code of a key with a character
    queues that character unless 255 are pending and wakes exactly the tasks
    that wait for the keyboard, and everything else is left alone. *)
Theorem ps2_keyboard_handler_correct k v :
  kbd_ok k v -> 0 <= data_port k < 256 ->
  let '(f', o) := decode (kbd_flags k) (data_port k) in
  exists k', ps2_keyboard_handler k = Ok (tt, k') /\ kbd_ok k' (woken_by o (kbd_sched k) v) /\
    kbd_flags k' = f' /\ pending k' = arrive o (pending k) /\ s_hart (kbd_sched k') = s_hart (kbd_sched k).
Proof.
  intros [Hl [Hr Hs Ht Hc]] Hcode. pose proof (so_hart _ _ Hs) as Hh.
  assert (kbd_core (enter kbd_lock k) v) as Hk1 by (split; try done; by apply sched_ok_hart).
  destruct (handler_body (enter kbd_lock k) v Hk1 Hcode) as (k2 & E & [A1 A2 A3 A4] & Hf & Hp & Hh2 & Hl2).
  change (kbd_flags (enter kbd_lock k)) with (kbd_flags k) in *. change (data_port (enter kbd_lock k)) with (data_port k) in *.
  change (pending (enter kbd_lock k)) with (pending k) in Hp.
  assert (woken_by (decode (kbd_flags k) (data_port k)).2 (kbd_sched (enter kbd_lock k)) v = woken_by (decode (kbd_flags k) (data_port k)).2 (kbd_sched k) v) as Ev
    by (by destruct (decode _ _) as [? []]).
  rewrite Ev in A2. destruct (decode (kbd_flags k) (data_port k)) as [f' o]. cbn [fst snd] in *.
  exists (leave kbd_lock k k2). split; [|split; [|by split_and!]].
  - apply (critical_ok kbd_lock); [done|done|exact E|exact Hh2|exact Hl2].
  - split; [by apply released_free|]. split; try done. by apply sched_ok_hart.
Qed.
