(* ===== verification/KbdDemo.v ===== *)
(** * A concrete keyboard

    The two-CPU scheduler of [SchedDemo] with task A blocked on the keyboard,
    and a key arriving: the states the theorems on waking and on the keyboard
    are instantiated at. *)

From S2P Require Import Prelude Lock Chain Sched Runqueue Balance Schedule SchedDemo Wakeup Kbd.

Definition blocked_a : sched := run (sched_block_current REASON_KEYBOARD) demo.
Definition view_a : place -> list Z := vset Blocked [TASK_A] (fun _ => []).

Lemma blocked_a_ok : sched_ok blocked_a view_a.
Proof.
  destruct (sched_block_spec REASON_KEYBOARD demo (fun _ => []) TASK_A (task_at demo TASK_A) demo_ok eq_refl ltac:(done)
    ltac:(by_decide) ltac:(intros a; apply not_elem_of_nil)) as (s' & E & Hok & _).
  unfold blocked_a, run. rewrite E. exact Hok.
Qed.

Lemma blocked_a_table : table_ok blocked_a.
Proof.
  intros i. change (cpu_table blocked_a) with (list_to_map [(0, CPU0); (1, CPU1)] : gmap Z Z). unfold rd. simpl.
  destruct (decide (i = 0)) as [->|H0]; [intros _; by_decide|].
  destruct (decide (i = 1)) as [->|H1]; [intros _; by_decide|].
  rewrite !lookup_insert_ne by congruence. by rewrite lookup_empty.
Qed.

Lemma sched_wakeup_correct_witness :
  exists s', sched_wakeup REASON_KEYBOARD blocked_a = Ok (tt, s') /\ sched_ok s' (woken_view REASON_KEYBOARD blocked_a view_a) /\
    woken_view REASON_KEYBOARD blocked_a view_a (Rq CPU0 1) = [TASK_A].
Proof.
  destruct (sched_wakeup_correct REASON_KEYBOARD blocked_a view_a blocked_a_ok blocked_a_table ltac:(by_decide)) as (s' & E & Hok & _).
  exists s'. split; [exact E|]. split; [exact Hok|]. vm_compute. reflexivity.
Defined.

(** The make code of the key A arrives while caps lock is on. *)
Definition keyboard : kbd := mkKbd blocked_a spinlock_init (mkFlags true false false false) ∅ 255 254 0x1C.

Lemma keyboard_ok : kbd_ok keyboard view_a.
Proof.
  split; [done|]. split; [|exact blocked_a_ok|exact blocked_a_table|by_decide]. unfold ring_ok, KBD_BUF_SIZE. cbn. lia.
Qed.

Lemma ps2_keyboard_handler_correct_witness :
  exists k' v', ps2_keyboard_handler keyboard = Ok (tt, k') /\ kbd_ok k' v' /\ pending k' = [0; 65].
Proof.
  destruct (ps2_keyboard_handler_correct keyboard view_a keyboard_ok ltac:(cbn; lia)) as (k' & E & Hk & _ & Hp & _).
  exists k', (woken_view REASON_KEYBOARD blocked_a view_a). split; [exact E|]. split; [exact Hk|]. rewrite Hp. vm_compute. reflexivity.
Defined.

Lemma kbd_pop_char_correct_witness : exists c k', kbd_pop_char keyboard = Ok (Some c, k') /\ kbd_ok k' view_a.
Proof.
  destruct (kbd_pop_char_correct keyboard view_a keyboard_ok) as (k' & E & Hk & _).
  exists 0, k'. split; [exact E|exact Hk].
Defined.
