(* ===== verification/Dll.v ===== *)
(** * Doubly linked lists

    Segments of nodes linked both ways, over a function that gives the
    [next] and [prev] pointers of a node: the slabs of a cache and the blocks
    of the heap. *)

From S2P Require Import Prelude.

(** The nodes [l], from [h] on; the first [prev] pointer is [p] and the last
    [next] pointer [e]. *)
Fixpoint dseg (lk : Z -> option (Z * Z)) (p h : Z) (l : list Z) (e : Z) : Prop :=
  match l with
  | [] => h = e
  | a :: l => h = a /\ a <> NULL /\ exists n, lk a = Some (n, p) /\ dseg lk a n l e
  end.

Definition dll (lk : Z -> option (Z * Z)) (h : Z) (l : list Z) : Prop := dseg lk NULL h l NULL /\ NoDup l.

Lemma dseg_app lk p h l1 l2 e :
  dseg lk p h (l1 ++ l2) e <-> exists m, dseg lk p h l1 m /\ dseg lk (default p (last l1)) m l2 e.
Proof.
  revert p h. induction l1 as [|a l1 IH]; intros p h; simpl.
  - split; [by exists h|]. by intros (m & -> & ?).
  - assert (default p (last (a :: l1)) = default a (last l1)) as El.
    { destruct l1 as [|b l1]; [done|]. rewrite last_cons_cons. by destruct (last (b :: l1)) eqn:E; [|by apply last_None in E]. }
    simpl in El. rewrite El. split.
    + intros (-> & Ha & n & Hn & Hd). apply IH in Hd as (m & ? & ?). exists m. split; [|done]. split_and!; [done|done|by exists n].
    + intros (m & (-> & Ha & n & Hn & Hd) & Hd2). split_and!; [done|done|]. exists n. split; [done|]. apply IH. by exists m.
Qed.

Lemma dseg_elem lk p h l e a : dseg lk p h l e -> a ∈ l -> a <> NULL /\ is_Some (lk a).
Proof.
  revert p h. induction l as [|b l IH]; intros p h Hl Ha; [by apply not_elem_of_nil in Ha|].
  destruct Hl as (-> & Hb & n & Hn & Hl). apply elem_of_cons in Ha as [->|Ha]; [by rewrite Hn|by eapply IH].
Qed.

Lemma dseg_frame lk lk' p h l e :
  (forall a, a ∈ l -> lk' a = lk a) -> dseg lk p h l e -> dseg lk' p h l e.
Proof.
  revert p h. induction l as [|b l IH]; intros p h Hf Hl; [done|].
  destruct Hl as (-> & Hb & n & Hn & Hl). split_and!; [done|done|]. exists n.
  rewrite Hf by (by left). split; [done|]. apply IH; [|done]. intros a Ha. apply Hf. by right.
Qed.

(** The links after [x]'s next pointer became [n] and [y]'s previous one [p]. *)
Definition relink (lk : Z -> option (Z * Z)) (x : option Z) (n : Z) (y : option Z) (p : Z) (u : Z) : option (Z * Z) :=
  (fun '(nx, pv) => (if decide (x = Some u) then n else nx, if decide (y = Some u) then p else pv)) <$> lk u.

Lemma relink_id lk x n y p u : x <> Some u -> y <> Some u -> relink lk x n y p u = lk u.
Proof. intros Hx Hy. unfold relink. destruct (lk u) as [[nx pv]|]; [|done]. simpl. by rewrite !decide_False. Qed.

(** Moving the end of a segment. *)
Lemma dseg_end lk p h l e e' y q :
  NoDup l -> (forall u, u ∈ l -> y <> Some u) -> dseg lk p h l e ->
  dseg (relink lk (last l) e' y q) p (if decide (l = []) then e' else h) l e'.
Proof.
  intros Hnd Hy Hd. destruct l as [|a l _] using rev_ind; [by rewrite decide_True|].
  rewrite decide_False by (by destruct l). apply dseg_app in Hd as (m & Hd & (-> & Ha & n & Hn & _)).
  apply NoDup_app in Hnd as (_ & Hnd & _). rewrite last_snoc. apply dseg_app. exists a. split.
  - eapply dseg_frame; [|exact Hd]. intros u Hu. apply relink_id.
    + intros [= ->]. apply (Hnd u Hu). by left.
    + apply Hy, elem_of_app. by left.
  - split_and!; [done|done|]. exists e'. split; [|done]. unfold relink. rewrite Hn. simpl.
    rewrite decide_True, decide_False; [done| |done]. apply Hy, elem_of_app. right. by left.
Qed.

(** Changing what precedes a segment. *)
Lemma dseg_prev lk p p' h l e x n :
  NoDup l -> (forall u, u ∈ l -> x <> Some u) -> dseg lk p h l e ->
  dseg (relink lk x n (head l) p') p' h l e.
Proof.
  intros Hnd Hx Hd. destruct l as [|a l]; [done|]. destruct Hd as (-> & Ha & m & Hm & Hd).
  apply NoDup_cons in Hnd as [Hnd _]. split_and!; [done|done|]. exists m. split.
  - unfold relink. rewrite Hm. simpl. rewrite decide_False, decide_True; [done|done|]. apply Hx. by left.
  - eapply dseg_frame; [|exact Hd]. intros u Hu. apply relink_id; [apply Hx; by right|]. intros [= ->]. done.
Qed.

Lemma dll_links lk h l1 a l2 :
  dll lk h (l1 ++ a :: l2) ->
  a <> NULL /\ lk a = Some (default NULL (head l2), default NULL (last l1)).
Proof.
  intros [Hd _]. apply dseg_app in Hd as (m & _ & (-> & Ha & n & Hn & Hd)). split; [done|]. rewrite Hn.
  destruct l2; [by rewrite Hd|]. by destruct Hd as [-> _].
Qed.

Lemma dll_head lk h l : dll lk h l -> h = default NULL (head l).
Proof. intros [Hd _]. destruct l; [done|]. by destruct Hd as [-> _]. Qed.

(** Removing a node. *)
Lemma dll_remove lk lk' h l1 a l2 :
  dll lk h (l1 ++ a :: l2) ->
  (forall u, u <> a -> lk' u = relink lk (last l1) (default NULL (head l2)) (head l2) (default NULL (last l1)) u) ->
  dll lk' (if decide (l1 = []) then default NULL (head l2) else h) (l1 ++ l2).
Proof.
  intros Hd Hlk. destruct (dll_links _ _ _ _ _ Hd) as [Ha0 Ha]. destruct Hd as [Hd Hnd].
  apply dseg_app in Hd as (m & Hd1 & (-> & _ & n & Hn & Hd2)). rewrite Ha in Hn. injection Hn as <-.
  apply NoDup_app in Hnd as (Hn1 & Hd12 & Hn2). apply NoDup_cons in Hn2 as [Hna Hn2]. split.
  - apply dseg_app. eexists. split.
    + eapply dseg_frame; [intros u Hu; apply Hlk|apply (dseg_end lk NULL h l1 a); [done| |exact Hd1]].
      * intros ->. apply (Hd12 a Hu). by left.
      * intros u Hu Hh. apply (Hd12 u Hu). right. by apply head_Some_elem_of.
    + eapply dseg_frame; [intros u Hu; apply Hlk|apply (dseg_prev lk a); [done| |exact Hd2]].
      * intros ->. done.
      * intros u Hu Hl. apply last_Some_elem_of in Hl. apply (Hd12 u Hl). by right.
  - apply NoDup_app. split_and!; [done| |done]. intros u Hu Hu2. apply (Hd12 u Hu). by right.
Qed.

(** Adding a node in front. *)
Lemma dll_push lk lk' h l a :
  dll lk h l -> a ∉ l -> a <> NULL -> lk' a = Some (h, NULL) ->
  (forall u, u ∈ l -> lk' u = relink lk None 0 (head l) a u) -> dll lk' a (a :: l).
Proof.
  intros [Hd Hnd] Ha Ha0 Hla Hl. split; [|by constructor]. split_and!; [done|done|]. exists h. split; [done|].
  eapply dseg_frame; [exact Hl|]. by apply (dseg_prev lk NULL).
Qed.

Lemma dll_frame lk lk' h l : (forall a, a ∈ l -> lk' a = lk a) -> dll lk h l -> dll lk' h l.
Proof. intros Hf [Hd Hnd]. split; [by apply (dseg_frame lk)|done]. Qed.

Lemma dll_elem lk h l a : dll lk h l -> a ∈ l -> a <> NULL /\ is_Some (lk a).
Proof. intros [Hd _]. by apply dseg_elem with (1 := Hd). Qed.

(** Adding a node between two segments. *)
Lemma dll_insert lk lk' h l1 x l2 :
  dll lk h (l1 ++ l2) -> x ∉ l1 ++ l2 -> x <> NULL ->
  lk' x = Some (default NULL (head l2), default NULL (last l1)) ->
  (forall u, u ∈ l1 ++ l2 -> lk' u = relink lk (last l1) x (head l2) x u) ->
  dll lk' (if decide (l1 = []) then x else h) (l1 ++ x :: l2).
Proof.
  intros [Hd Hnd] Hx Hx0 Hlx Hlk. apply NoDup_app in Hnd as (Hn1 & Hd12 & Hn2).
  apply dseg_app in Hd as (m & Hd1 & Hd2). assert (m = default NULL (head l2)) as ->.
  { destruct l2; [done|]. by destruct Hd2 as [-> _]. }
  rewrite not_elem_of_app in Hx. destruct Hx as [Hx1 Hx2]. split.
  - apply dseg_app. exists x. split.
    + eapply dseg_frame; [intros u Hu; apply Hlk, elem_of_app; by left|]. eapply dseg_end; [done| |exact Hd1].
      intros u Hu Hh. apply (Hd12 u Hu). by apply head_Some_elem_of.
    + split_and!; [done|done|]. exists (default NULL (head l2)). split; [done|].
      eapply dseg_frame; [intros u Hu; apply Hlk, elem_of_app; by right|]. eapply dseg_prev; [done| |exact Hd2].
      intros u Hu Hl. apply last_Some_elem_of in Hl. by apply (Hd12 u Hl).
  - apply NoDup_app. split_and!; [done| |by constructor]. intros u Hu [->|Hu2]%elem_of_cons; [done|by apply (Hd12 u Hu)].
Qed.

(** The store after a guarded update through a pointer that may be null. *)
Lemma lookup_alter_opt {A} (f : A -> A) (hd : gmap Z A) o u :
  (if negb (o =? NULL) then alter f o hd else hd) !! u =
  if decide (o <> NULL /\ u = o) then f <$> hd !! u else hd !! u.
Proof.
  destruct (Z.eqb_spec o NULL); cbn [negb]; [by rewrite decide_False by tauto|].
  destruct (decide (u = o)) as [->|].
  - by rewrite decide_True, lookup_alter_eq by done.
  - rewrite decide_False by tauto. by rewrite lookup_alter_ne.
Qed.

Lemma default_Some (o : option Z) u :
  (forall w, o = Some w -> w <> NULL) -> (default NULL o <> NULL /\ u = default NULL o) <-> o = Some u.
Proof.
  intros Ho. destruct o as [w|]; simpl; [|split; [tauto|done]].
  split; [intros [_ ->]; done|]. intros [= ->]. split; [by apply Ho|done].
Qed.

