(* ===== verification/Slab.v ===== *)
(** * The slab allocator

    Models [kernel/memory/slab.c] and [kernel/include/memory/slab.h].

    - A slab is one page: the header [slab] at its first byte and equal-sized
      objects behind it, the free ones linked through their first word
      ([objs]). The headers are kept by the address of their page.
    - [&kmalloc_caches[i]] is the index [i]; the three lists of a cache are
      doubly linked through the headers.
    - The contents of an allocated object belong to its owner and are not part
      of the state. *)

From S2P Require Import Prelude Lock Frames Chain Dll.

Definition SLAB_MAGIC : Z := 0x51AB51AB.
Definition NUM_KMALLOC_CACHES : Z := 8.
Definition cache_sizes : list Z := [16; 32; 64; 128; 256; 512; 1024; 2048].

(** [slab_t]; its [data] is never used *)
Record slab := mkSlab {
  magic : Z;
  parent_cache : Z;
  free_list : Z;
  free_count : Z;
  s_next : Z;
  s_prev : Z;
}.
Definition sizeof_slab : Z := 56.

(** [slab_cache_t], without its name *)
Record slab_cache := mkCache {
  obj_size : Z;
  partial_slabs : Z;
  full_slabs : Z;
  empty_slabs : Z;
  cache_lock_ : spinlock;
}.

(** The three lists of a cache, [slab_t** list] *)
Inductive kind := Partial | Full | Empty.
#[global] Instance kind_eq_dec : EqDecision kind.
Proof. solve_decision. Defined.

Definition list_of (k : kind) (c : slab_cache) : Z :=
  match k with Partial => partial_slabs c | Full => full_slabs c | Empty => empty_slabs c end.
Definition set_list (k : kind) (v : Z) (c : slab_cache) : slab_cache :=
  match k with
  | Partial => mkCache (obj_size c) v (full_slabs c) (empty_slabs c) (cache_lock_ c)
  | Full => mkCache (obj_size c) (partial_slabs c) v (empty_slabs c) (cache_lock_ c)
  | Empty => mkCache (obj_size c) (partial_slabs c) (full_slabs c) v (cache_lock_ c)
  end.
Definition set_cache_lock (l : spinlock) (c : slab_cache) : slab_cache :=
  mkCache (obj_size c) (partial_slabs c) (full_slabs c) (empty_slabs c) l.

Definition set_next (v : Z) (s : slab) : slab :=
  mkSlab (magic s) (parent_cache s) (free_list s) (free_count s) v (s_prev s).
Definition set_prev (v : Z) (s : slab) : slab :=
  mkSlab (magic s) (parent_cache s) (free_list s) (free_count s) (s_next s) v.
Definition set_free_list (v : Z) (s : slab) : slab :=
  mkSlab (magic s) (parent_cache s) v (free_count s) (s_next s) (s_prev s).
Definition set_free_count (v : Z) (s : slab) : slab :=
  mkSlab (magic s) (parent_cache s) (free_list s) v (s_next s) (s_prev s).

Section slab.
Context {F : Type} `{FrameAllocator F}.

Record slabs := mkSlabs {
  sl_pmm : F;
  headers : gmap Z slab;
  objs : gmap Z Z;
  kmalloc_caches : gmap Z slab_cache;
}.

Definition set_sl_pmm (f : F) (s : slabs) : slabs := mkSlabs f (headers s) (objs s) (kmalloc_caches s).
Definition set_headers (m : gmap Z slab) (s : slabs) : slabs := mkSlabs (sl_pmm s) m (objs s) (kmalloc_caches s).
Definition set_objs (m : gmap Z Z) (s : slabs) : slabs := mkSlabs (sl_pmm s) (headers s) m (kmalloc_caches s).
Definition set_caches (m : gmap Z slab_cache) (s : slabs) : slabs := mkSlabs (sl_pmm s) (headers s) (objs s) m.

#[export] Instance slabs_hart : HasHart slabs :=
  Lens (fun s => lget hart_of (sl_pmm s)) (fun h s => set_sl_pmm (lset hart_of h (sl_pmm s)) s).

(** A routine of the frame allocator, run inside. *)
Definition on_pmm {A} (m : M F A) : M slabs A := fun s =>
  match m (sl_pmm s) with
  | Ok (a, f) => Ok (a, set_sl_pmm f s)
  | Fault => Fault
  | Panic => Panic
  | Hang => Hang
  end.

(** ** Access *)

Definition get_slab (a : Z) : M slabs slab := m <- gets headers ;; deref (m !! a).
Definition upd_slab (a : Z) (f : slab -> slab) : M slabs unit :=
  x <- get_slab a ;; modify (fun s => set_headers (<[a := f x]> (headers s)) s).
Definition get_cache (i : Z) : M slabs slab_cache := m <- gets kmalloc_caches ;; deref (m !! i).
Definition upd_cache (i : Z) (f : slab_cache -> slab_cache) : M slabs unit :=
  c <- get_cache i ;; modify (fun s => set_caches (<[i := f c]> (kmalloc_caches s)) s).
Definition obj_next (o : Z) : M slabs Z := m <- gets objs ;; deref (m !! o).
Definition set_obj_next (o n : Z) : M slabs unit := modify (fun s => set_objs (<[o := n]> (objs s)) s).

Definition cache_lock (i : Z) : lens slabs spinlock := Lens
  (fun s => match kmalloc_caches s !! i with Some c => cache_lock_ c | None => spinlock_init end)
  (fun l s => set_caches (alter (set_cache_lock l) i (kmalloc_caches s)) s).

(** [(slab_t* )((uintptr_t)ptr & ~0xFFF)] *)
Definition get_slab_from_ptr (p : Z) : Z := PAGE_ALIGN_DOWN p.

(** ** Lists *)

Definition slab_list_remove (i : Z) (k : kind) (a : Z) : M slabs unit :=
  x <- get_slab a ;;
  when (negb (s_prev x =? NULL)) (upd_slab (s_prev x) (set_next (s_next x))) ;;;
  x <- get_slab a ;;
  when (negb (s_next x =? NULL)) (upd_slab (s_next x) (set_prev (s_prev x))) ;;;
  c <- get_cache i ;;
  x <- get_slab a ;;
  when (list_of k c =? a) (upd_cache i (set_list k (s_next x))) ;;;
  upd_slab a (fun x => set_next NULL (set_prev NULL x)).

Definition slab_list_push (i : Z) (k : kind) (a : Z) : M slabs unit :=
  c <- get_cache i ;;
  upd_slab a (set_next (list_of k c)) ;;;
  upd_slab a (set_prev NULL) ;;;
  when (negb (list_of k c =? NULL)) (upd_slab (list_of k c) (set_prev a)) ;;;
  upd_cache i (set_list k a).

(** ** Growing *)

(** The loop that links the objects: [n] iterations from [curr] *)
Fixpoint link_objs (n : nat) (size curr : Z) : M slabs Z :=
  match n with
  | O => ret curr
  | S n => set_obj_next curr (w64 (curr + size)) ;;; link_objs n size (w64 (curr + size))
  end.

Definition slab_grow (i : Z) : M slabs unit :=
  frame <- on_pmm fa_alloc ;;
  let virt := phys_to_virt frame in
  c <- get_cache i ;;
  let start := Z.land (w64 (w64 (virt + sizeof_slab) + 15)) (w64 (Z.lnot 15)) in
  let max_objs := w64 (w64 (virt + 4096) - start) / obj_size c in
  modify (fun s => set_headers (<[virt := mkSlab SLAB_MAGIC i start max_objs
    (match headers s !! virt with Some x => s_next x | None => 0 end)
    (match headers s !! virt with Some x => s_prev x | None => 0 end)]> (headers s)) s) ;;;
  curr <- link_objs (Z.to_nat (w64 (max_objs - 1))) (obj_size c) start ;;
  set_obj_next curr NULL ;;;
  slab_list_push i Empty virt.

Definition slab_init : M slabs unit :=
  mapM_ (fun i =>
    modify (fun s => set_caches (<[i := mkCache (nth (Z.to_nat i) cache_sizes 0) NULL NULL NULL spinlock_init]>
      (kmalloc_caches s)) s) ;;;
    slab_grow i) (seqZ 0 NUM_KMALLOC_CACHES).

(** ** Allocation and release *)

(** The slab to allocate from: a partial one, else an empty one, grown when
    there is none, that becomes partial *)
Definition slab_pick (i : Z) : M slabs Z :=
  c <- get_cache i ;;
  if negb (partial_slabs c =? NULL) then ret (partial_slabs c) else
  (if empty_slabs c =? NULL then slab_grow i else ret tt) ;;;
  c <- get_cache i ;;
  let slab := empty_slabs c in
  (slab_list_remove i Empty slab ;;; slab_list_push i Partial slab) ;;;
  ret slab.

(** Its first free object; a slab that is used up becomes full *)
Definition slab_take (i slab : Z) : M slabs Z :=
  x <- get_slab slab ;;
  let obj := free_list x in
  n <- obj_next obj ;;
  upd_slab slab (set_free_list n) ;;;
  upd_slab slab (fun x => set_free_count (w64 (free_count x - 1)) x) ;;;
  x <- get_slab slab ;;
  when (free_count x =? 0)
    (slab_list_remove i Partial slab ;;; slab_list_push i Full slab) ;;;
  ret obj.

Definition slab_cache_alloc (i : Z) : M slabs Z :=
  critical (cache_lock i) (slab <- slab_pick i ;; slab_take i slab).

Definition slab_cache_free (i p : Z) : M slabs unit :=
  let slab := get_slab_from_ptr p in
  critical (cache_lock i) (
    x <- get_slab slab ;;
    set_obj_next p (free_list x) ;;;
    upd_slab slab (set_free_list p) ;;;
    upd_slab slab (fun x => set_free_count (w64 (free_count x + 1)) x) ;;;
    c <- get_cache i ;;
    let max_objs := (4096 - sizeof_slab) / obj_size c in
    x <- get_slab slab ;;
    if free_count x =? 1 then
      slab_list_remove i Full slab ;;; slab_list_push i Partial slab
    else if free_count x =? max_objs then
      slab_list_remove i Partial slab ;;; slab_list_push i Empty slab
    else ret tt).

(** The first cache from [i] on whose objects are large enough *)
Fixpoint find_cache (i : Z) (sizes : list Z) (size : Z) : option Z :=
  match sizes with
  | [] => None
  | c :: sizes => if size <=? c then Some i else find_cache (i + 1) sizes size
  end.

Definition slab_alloc (size : Z) : M slabs Z :=
  match find_cache 0 cache_sizes size with
  | Some i => slab_cache_alloc i
  | None => ret NULL
  end.

Definition slab_free (p : Z) : M slabs unit :=
  if p =? NULL then ret tt else
  x <- get_slab (get_slab_from_ptr p) ;;
  if negb (magic x =? SLAB_MAGIC) then panic else
  slab_cache_free (parent_cache x) p.
End slab.
Arguments slabs F : clear implicits.
