(* ===== verification/SlabProof.v ===== *)
(** * The slab allocator: correctness

    The lists of a cache are doubly linked ([Dll]), the free objects of a slab
    a chain ([Chain]); allocation and release are proved to add exactly one
    object to the set of live objects and to remove it again. *)

From S2P Require Import Prelude Lock Frames Chain Dll Slab.

(** ** Representation *)

Definition lk (hd : gmap Z slab) (u : Z) : option (Z * Z) := (fun x => (s_next x, s_prev x)) <$> hd !! u.

Definition core (x : slab) : Z * Z * Z * Z := (magic x, parent_cache x, free_list x, free_count x).
Definition same_core (hd hd' : gmap Z slab) : Prop := forall u, core <$> hd' !! u = core <$> hd !! u.

(** [a] is now the head of, or no longer in, the lists a function of caches
    and kinds describes. *)
Definition view := Z -> kind -> list Z.
Definition view_set (i : Z) (k : kind) (l : list Z) (v : view) : view :=
  fun j k' => if decide (j = i /\ k' = k) then l else v j k'.

Record lists_rep (hd : gmap Z slab) (cs : gmap Z slab_cache) (v : view) : Prop := {
  lr_dll : forall i c k, cs !! i = Some c -> dll (lk hd) (list_of k c) (v i k);
  lr_disj : forall i k j k' a, a ∈ v i k -> a ∈ v j k' -> i = j /\ k = k';
  lr_none : forall i k, cs !! i = None -> v i k = [];
}.

Definition relink_slab (x : option Z) (n : Z) (y : option Z) (p u : Z) (s : slab) : slab :=
  mkSlab (magic s) (parent_cache s) (free_list s) (free_count s)
    (if decide (x = Some u) then n else s_next s) (if decide (y = Some u) then p else s_prev s).

Lemma relink_slab_lk hd hd' x n y p u :
  hd' !! u = relink_slab x n y p u <$> hd !! u -> lk hd' u = relink (lk hd) x n y p u.
Proof. intros E. unfold lk, relink. rewrite E. by destruct (hd !! u). Qed.

Lemma relink_slab_core x n y p u s : core (relink_slab x n y p u s) = core s.
Proof. done. Qed.

Lemma list_of_set k v c k' : list_of k' (set_list k v c) = if decide (k' = k) then v else list_of k' c.
Proof. by destruct k, k'. Qed.

Lemma set_list_fields k v c : obj_size (set_list k v c) = obj_size c /\ cache_lock_ (set_list k v c) = cache_lock_ c.
Proof. by destruct k. Qed.

Section run.
Context {F : Type} `{FrameAllocator F}.
Implicit Types s : slabs F.

Definition mks s (hd : gmap Z slab) (ob : gmap Z Z) (cs : gmap Z slab_cache) : slabs F :=
  mkSlabs (sl_pmm s) hd ob cs.
Lemma mks_id s : mks s (headers s) (objs s) (kmalloc_caches s) = s.
Proof. by destruct s. Qed.

Section binds.
Context {A : Type} (s : slabs F) (hd : gmap Z slab) (ob : gmap Z Z) (cs : gmap Z slab_cache).
Lemma get_slab_bind a x (k : slab -> M (slabs F) A) :
  hd !! a = Some x -> (y <- get_slab a ;; k y) (mks s hd ob cs) = k x (mks s hd ob cs).
Proof. intros E. unfold get_slab. cbv [bind gets]. simpl. by rewrite E. Qed.
Lemma upd_slab_bind a x f (k : unit -> M (slabs F) A) :
  hd !! a = Some x -> (y <- upd_slab a f ;; k y) (mks s hd ob cs) = k tt (mks s (<[a := f x]> hd) ob cs).
Proof. intros E. unfold upd_slab, get_slab. cbv [bind gets]. simpl. by rewrite E. Qed.
Lemma get_cache_bind i c (k : slab_cache -> M (slabs F) A) :
  cs !! i = Some c -> (y <- get_cache i ;; k y) (mks s hd ob cs) = k c (mks s hd ob cs).
Proof. intros E. unfold get_cache. cbv [bind gets]. simpl. by rewrite E. Qed.
Lemma upd_cache_bind i c f (k : unit -> M (slabs F) A) :
  cs !! i = Some c -> (y <- upd_cache i f ;; k y) (mks s hd ob cs) = k tt (mks s hd ob (<[i := f c]> cs)).
Proof. intros E. unfold upd_cache, get_cache. cbv [bind gets]. simpl. by rewrite E. Qed.
Lemma obj_next_bind o n (k : Z -> M (slabs F) A) :
  ob !! o = Some n -> (y <- obj_next o ;; k y) (mks s hd ob cs) = k n (mks s hd ob cs).
Proof. intros E. unfold obj_next. cbv [bind gets]. simpl. by rewrite E. Qed.
Lemma set_obj_bind o n (k : unit -> M (slabs F) A) :
  (y <- set_obj_next o n ;; k y) (mks s hd ob cs) = k tt (mks s hd (<[o := n]> ob) cs).
Proof. done. Qed.
End binds.

Lemma upd_slab_eq s hd ob cs a x f :
  hd !! a = Some x -> upd_slab a f (mks s hd ob cs) = Ok (tt, mks s (<[a := f x]> hd) ob cs).
Proof. intros E. unfold upd_slab, get_slab. cbv [bind gets]. simpl. by rewrite E. Qed.
Lemma upd_cache_eq s hd ob cs i c f :
  cs !! i = Some c -> upd_cache i f (mks s hd ob cs) = Ok (tt, mks s hd ob (<[i := f c]> cs)).
Proof. intros E. unfold upd_cache, get_cache. cbv [bind gets]. simpl. by rewrite E. Qed.

(** A conditional update of a header. *)
Lemma when_upd_slab s hd ob cs (b : bool) a f :
  (b = true -> is_Some (hd !! a)) ->
  when b (upd_slab a f) (mks s hd ob cs) =
  Ok (tt, mks s (if b then alter f a hd else hd) ob cs).
Proof.
  intros Hb. destruct b; [|done]. destruct (Hb eq_refl) as [x Hx]. cbn [when]. rewrite (upd_slab_eq s hd ob cs a x f Hx).
  do 3 f_equal. apply map_eq. intros u. destruct (decide (u = a)) as [->|].
  - by rewrite lookup_insert_eq, lookup_alter_eq, Hx.
  - by rewrite lookup_insert_ne, lookup_alter_ne.
Qed.

Lemma remove_run s hd ob cs i k c l1 a l2 :
  cs !! i = Some c -> dll (lk hd) (list_of k c) (l1 ++ a :: l2) ->
  exists hd' x, slab_list_remove i k a (mks s hd ob cs) =
    Ok (tt, mks s hd' ob (if decide (l1 = []) then <[i := set_list k (default NULL (head l2)) c]> cs else cs)) /\
    hd !! a = Some x /\ hd' !! a = Some (set_next NULL (set_prev NULL x)) /\
    forall u, u <> a -> hd' !! u =
      relink_slab (last l1) (default NULL (head l2)) (head l2) (default NULL (last l1)) u <$> hd !! u.
Proof.
  intros Hc Hd. destruct (dll_links _ _ _ _ _ Hd) as [Ha0 Ha]. pose proof (dll_head _ _ _ Hd) as Hh.
  assert (exists x, hd !! a = Some x /\ s_next x = default NULL (head l2) /\ s_prev x = default NULL (last l1))
    as (x & Hx & En & Ep).
  { unfold lk in Ha. destruct (hd !! a) as [x|]; [|done]. exists x. injection Ha as <- <-. done. }
  assert (forall u, u ∈ l1 ++ l2 -> u <> NULL /\ u <> a /\ is_Some (hd !! u)) as Hl.
  { intros u Hu. destruct (dll_elem _ _ _ u Hd) as [Hu0 Hs].
    { apply elem_of_app in Hu as [?|?]; apply elem_of_app; [by left|right; by right]. }
    split_and!; [done| |by apply fmap_is_Some in Hs]. intros ->. destruct Hd as [_ Hnd].
    apply NoDup_app in Hnd as (_ & Hdis & Hnd). apply NoDup_cons in Hnd as [Hnd _].
    apply elem_of_app in Hu as [Hu|Hu]; [apply (Hdis a Hu); by left|done]. }
  assert (forall u, last l1 = Some u -> u ∈ l1 ++ l2) as Hlast.
  { intros u Hu. apply elem_of_app. left. by apply last_Some_elem_of. }
  assert (forall u, head l2 = Some u -> u ∈ l1 ++ l2) as Hhead.
  { intros u Hu. apply elem_of_app. right. by apply head_Some_elem_of. }
  set (hd1 := if negb (s_prev x =? NULL) then alter (set_next (s_next x)) (s_prev x) hd else hd).
  set (hd2 := if negb (s_next x =? NULL) then alter (set_prev (s_prev x)) (s_next x) hd1 else hd1).
  assert (s_prev x <> a /\ s_next x <> a) as [Hpa Hna].
  { rewrite Ep, En. split; [destruct (last l1) as [u|] eqn:E|destruct (head l2) as [u|] eqn:E]; simpl; try congruence.
    - by apply Hl, Hlast. - by apply Hl, Hhead. }
  assert (hd1 !! a = Some x) as Hx1 by (unfold hd1; rewrite lookup_alter_opt, decide_False; [done|intros [_ ?]; congruence]).
  assert (hd2 !! a = Some x) as Hx2 by (unfold hd2; rewrite lookup_alter_opt, decide_False; [done|intros [_ ?]; congruence]).
  exists (<[a := set_next NULL (set_prev NULL x)]> hd2), x. split_and!; [|done|apply lookup_insert_eq|].
  - unfold slab_list_remove. rewrite (get_slab_bind _ _ _ _ a x _ Hx). erewrite bind_ok; [|apply when_upd_slab].
    2: { intros Hb%negb_true_iff%Z.eqb_neq. rewrite Ep in *. destruct (last l1) as [u|] eqn:E; [|done]. by apply Hl, Hlast. }
    fold hd1. rewrite (get_slab_bind _ _ _ _ a x _ Hx1). erewrite bind_ok; [|apply when_upd_slab].
    2: { intros Hb%negb_true_iff%Z.eqb_neq. rewrite En in *. destruct (head l2) as [u|] eqn:E; [|done].
         destruct (Hl u (Hhead u eq_refl)) as (_ & _ & Hs). unfold hd1. cbn [default].
         rewrite lookup_alter_opt. case_decide; [by apply fmap_is_Some|done]. }
    fold hd2. rewrite (get_cache_bind _ _ _ _ i c _ Hc), (get_slab_bind _ _ _ _ a x _ Hx2).
    destruct (decide (l1 = [])) as [->|Hn1].
    + simpl in Hh. rewrite Hh, Z.eqb_refl. cbn [when]. rewrite (upd_cache_bind _ _ _ _ i c _ _ Hc).
      rewrite (upd_slab_eq _ _ _ _ a x _ Hx2). by rewrite En.
    + assert (list_of k c <> a) as Hne.
      { rewrite Hh. destruct l1 as [|b l1]; [done|]. simpl. destruct (Hl b ltac:(by left)) as (_ & ? & _). done. }
      rewrite (proj2 (Z.eqb_neq _ _)) by done. cbn [when]. unfold bind at 1, ret at 1. by rewrite (upd_slab_eq _ _ _ _ a x _ Hx2).
  - intros u Hu. rewrite lookup_insert_ne by done. unfold hd2, hd1. rewrite !lookup_alter_opt, Ep, En.
    unfold relink_slab. destruct (hd !! u) as [y|] eqn:Hy; [|by repeat case_decide].
    rewrite (decide_ext (default NULL (last l1) <> NULL /\ u = default NULL (last l1)) (last l1 = Some u)),
      (decide_ext (default NULL (head l2) <> NULL /\ u = default NULL (head l2)) (head l2 = Some u)).
    + repeat case_decide; simpl; by destruct y.
    + apply default_Some. intros w Hw. by apply Hl, Hhead.
    + apply default_Some. intros w Hw. by apply Hl, Hlast.
Qed.

Lemma push_run s hd ob cs i k c a x l :
  cs !! i = Some c -> dll (lk hd) (list_of k c) l -> a ∉ l -> hd !! a = Some x ->
  exists hd', slab_list_push i k a (mks s hd ob cs) = Ok (tt, mks s hd' ob (<[i := set_list k a c]> cs)) /\
    hd' !! a = Some (set_prev NULL (set_next (list_of k c) x)) /\
    forall u, u <> a -> hd' !! u = relink_slab None 0 (head l) a u <$> hd !! u.
Proof.
  intros Hc Hd Ha Hx. pose proof (dll_head _ _ _ Hd) as Hh.
  assert (forall u, head l = Some u -> u <> NULL /\ u <> a /\ is_Some (hd !! u)) as Hl.
  { intros u Hu%head_Some_elem_of. destruct (dll_elem _ _ _ u Hd Hu) as [Hu0 Hs%fmap_is_Some].
    split_and!; [done| |done]. by intros ->. }
  set (hd1 := <[a := set_prev NULL (set_next (list_of k c) x)]> hd).
  exists (if negb (list_of k c =? NULL) then alter (set_prev a) (list_of k c) hd1 else hd1). split_and!.
  - unfold slab_list_push. rewrite (get_cache_bind _ _ _ _ i c _ Hc), (upd_slab_bind _ _ _ _ a x _ _ Hx).
    rewrite (upd_slab_bind _ _ _ _ a _ _ _ (lookup_insert_eq _ _ _)), insert_insert_eq. fold hd1.
    erewrite bind_ok; [|apply when_upd_slab].
    + by rewrite (upd_cache_eq _ _ _ _ i c _ Hc).
    + intros Hb%negb_true_iff%Z.eqb_neq. rewrite Hh in *. destruct (head l) as [u|]; [|done].
      destruct (Hl u eq_refl) as (_ & Hua & Hs). cbn [default]. unfold hd1. by rewrite lookup_insert_ne.
  - rewrite lookup_alter_opt, decide_False; [apply lookup_insert_eq|]. rewrite Hh. intros [Hn ->].
    destruct (head l) as [u|]; [|done]. by destruct (Hl u eq_refl) as (_ & ? & _).
  - intros u Hu. rewrite lookup_alter_opt. unfold hd1. rewrite lookup_insert_ne by done. rewrite Hh.
    rewrite (decide_ext (default NULL (head l) <> NULL /\ u = default NULL (head l)) (head l = Some u)).
    + unfold relink_slab. destruct (hd !! u) as [y|]; [|by case_decide]. case_decide; simpl; by destruct y.
    + apply default_Some. intros w Hw. by apply Hl.
Qed.
End run.

(** Lists after a header moved from one list of a cache to another. *)
Definition moved (i : Z) (k : kind) (rest : list Z) (k' : kind) (a : Z) (v : view) : view :=
  view_set i k' (a :: v i k') (view_set i k rest v).

Lemma view_set_eq i k l v : view_set i k l v i k = l.
Proof. unfold view_set. by rewrite decide_True. Qed.
Lemma view_set_ne i k l v j k' : ~ (j = i /\ k' = k) -> view_set i k l v j k' = v j k'.
Proof. intros. unfold view_set. by rewrite decide_False. Qed.

Lemma lists_rep_remove hd hd' cs v i c k l1 a l2 :
  lists_rep hd cs v -> cs !! i = Some c -> v i k = l1 ++ a :: l2 ->
  (forall u, u <> a -> hd' !! u =
     relink_slab (last l1) (default NULL (head l2)) (head l2) (default NULL (last l1)) u <$> hd !! u) ->
  lists_rep hd' (if decide (l1 = []) then <[i := set_list k (default NULL (head l2)) c]> cs else cs)
    (view_set i k (l1 ++ l2) v).
Proof.
  intros [Hd Hdis Hnone] Hc Hv Hhd'. set (cs' := if decide (l1 = []) then _ else _).
  assert (forall j k', ~ (j = i /\ k' = k) -> forall d, cs' !! j = Some d -> exists d0, cs !! j = Some d0 /\ list_of k' d = list_of k' d0) as Hcs.
  { intros j k' Hjk d. unfold cs'. case_decide; [|intros; by exists d]. destruct (decide (j = i)) as [->|].
    - rewrite lookup_insert_eq. intros [= <-]. exists c. split; [done|]. rewrite list_of_set, decide_False; [done|]. tauto.
    - rewrite lookup_insert_ne by done. intros; by exists d. }
  assert (forall u, u ∈ v i k -> u = a \/ u ∈ l1 ++ l2) as Hin.
  { intros u. rewrite Hv, !elem_of_app, elem_of_cons. tauto. }
  assert (forall u, u ∈ l1 ++ l2 -> u ∈ v i k) as Hin'.
  { intros u. rewrite Hv, !elem_of_app, elem_of_cons. tauto. }
  split.
  - intros j d k' Hj. destruct (decide (j = i /\ k' = k)) as [[-> ->]|Hjk].
    + rewrite view_set_eq. replace (list_of k d) with (if decide (l1 = []) then default NULL (head l2) else list_of k c).
      * apply (dll_remove (lk hd) _ _ l1 a); [rewrite <-Hv; by apply Hd|]. intros u Hu. by apply relink_slab_lk, Hhd'.
      * unfold cs' in Hj. destruct (decide (l1 = [])); [|congruence]. rewrite lookup_insert_eq in Hj.
        injection Hj as <-. by rewrite list_of_set, decide_True.
    + rewrite view_set_ne by done. destruct (Hcs j k' Hjk d Hj) as (d0 & Hd0 & ->).
      apply (dll_frame (lk hd)); [|by apply Hd]. intros u Hu.
      assert (u ∉ v i k) as Hni by (intros Hu'; by destruct (Hdis _ _ _ _ u Hu Hu') as [-> ->]; apply Hjk).
      rewrite (relink_slab_lk hd hd' (last l1) (default NULL (head l2)) (head l2) (default NULL (last l1))).
      * apply relink_id; intros Hl; apply Hni, Hin', elem_of_app; [left; by apply last_Some_elem_of|right; by apply head_Some_elem_of].
      * apply Hhd'. intros ->. apply Hni. rewrite Hv. apply elem_of_app. right. by left.
  - intros j k1 j' k2 u. unfold view_set. do 2 case_decide; destruct_and?; subst; try done.
    + intros Hu%Hin' Hu2. by apply (Hdis _ _ _ _ u).
    + intros Hu Hu2%Hin'. by apply (Hdis _ _ _ _ u).
    + by apply Hdis.
  - intros j k' Hj. assert (cs !! j = None /\ j <> i) as [Hj' Hji].
    { unfold cs' in Hj. destruct (decide (j = i)) as [->|Hji].
      - destruct (decide (l1 = [])); [by rewrite lookup_insert_eq in Hj|congruence].
      - split; [|done]. destruct (decide (l1 = [])); [by rewrite lookup_insert_ne in Hj|done]. }
    rewrite view_set_ne by tauto. by apply Hnone.
Qed.

Lemma lists_rep_push hd hd' cs v i c k a x :
  lists_rep hd cs v -> cs !! i = Some c -> (forall j k', a ∉ v j k') -> a <> NULL ->
  hd' !! a = Some (set_prev NULL (set_next (list_of k c) x)) ->
  (forall u, u <> a -> hd' !! u = relink_slab None 0 (head (v i k)) a u <$> hd !! u) ->
  lists_rep hd' (<[i := set_list k a c]> cs) (view_set i k (a :: v i k) v).
Proof.
  intros [Hd Hdis Hnone] Hc Ha Ha0 Hx Hhd'.
  assert (forall u, u <> a -> lk hd' u = relink (lk hd) None 0 (head (v i k)) a u) as Hlk.
  { intros u Hu. by apply relink_slab_lk, Hhd'. }
  split.
  - intros j d k' Hj. destruct (decide (j = i /\ k' = k)) as [[-> ->]|Hjk].
    + rewrite view_set_eq. rewrite lookup_insert_eq in Hj. injection Hj as <-. rewrite list_of_set, decide_True by done.
      apply (dll_push (lk hd) _ (list_of k c)); try done; [by apply Hd|unfold lk; by rewrite Hx|].
      intros u Hu. apply Hlk. intros ->. by apply (Ha i k).
    + rewrite view_set_ne by done.
      assert (exists d0, cs !! j = Some d0 /\ list_of k' d = list_of k' d0) as (d0 & Hd0 & ->).
      { destruct (decide (j = i)) as [->|].
        - rewrite lookup_insert_eq in Hj. injection Hj as <-. exists c. rewrite list_of_set, decide_False by tauto. done.
        - rewrite lookup_insert_ne in Hj by done. by exists d. }
      apply (dll_frame (lk hd)); [|by apply Hd]. intros u Hu. rewrite Hlk by (intros ->; by apply (Ha j k')).
      apply relink_id; [done|]. intros Hl%head_Some_elem_of. apply Hjk. by destruct (Hdis _ _ _ _ u Hu Hl) as [-> ->].
  - intros j k1 j' k2 u. unfold view_set. do 2 case_decide; destruct_and?; subst; try done.
    + intros [->|Hu]%elem_of_cons Hu2; [by apply Ha in Hu2|by apply (Hdis _ _ _ _ u)].
    + intros Hu2 [->|Hu]%elem_of_cons; [by apply Ha in Hu2|by apply (Hdis _ _ _ _ u)].
    + by apply Hdis.
  - intros j k' Hj. destruct (decide (j = i)) as [->|]; [by rewrite lookup_insert_eq in Hj|].
    rewrite lookup_insert_ne in Hj by done. rewrite view_set_ne by tauto. by apply Hnone.
Qed.

Lemma same_core_relink hd hd' a x y n1 n2 n3 n4 :
  hd !! a = Some x -> hd' !! a = Some y -> core y = core x ->
  (forall u, u <> a -> hd' !! u = relink_slab n1 n2 n3 n4 u <$> hd !! u) -> same_core hd hd'.
Proof.
  intros Hx Hy E Hu u. destruct (decide (u = a)) as [->|Hne]; [rewrite Hx, Hy; simpl; by rewrite E|].
  rewrite Hu by done. by destruct (hd !! u).
Qed.

(** The caches after a change of lists: sizes and locks are the same. *)
Definition same_caches (cs cs' : gmap Z slab_cache) : Prop :=
  forall i, (fun c => (obj_size c, cache_lock_ c)) <$> cs' !! i = (fun c => (obj_size c, cache_lock_ c)) <$> cs !! i.

Lemma same_caches_set cs i c k v : cs !! i = Some c -> same_caches cs (<[i := set_list k v c]> cs).
Proof.
  intros Hc j. destruct (decide (j = i)) as [->|]; [|by rewrite lookup_insert_ne].
  rewrite lookup_insert_eq, Hc. simpl. by destruct k.
Qed.

Section move.
Context {F : Type} `{FrameAllocator F}.
Implicit Types s : slabs F.

(** A header moved to the front of another list of its cache. *)
Lemma move_spec s hd ob cs v i c k k' l1 a l2 :
  lists_rep hd cs v -> cs !! i = Some c -> v i k = l1 ++ a :: l2 -> k <> k' ->
  exists hd' cs', (slab_list_remove i k a ;;; slab_list_push i k' a) (mks s hd ob cs) = Ok (tt, mks s hd' ob cs') /\
    lists_rep hd' cs' (moved i k (l1 ++ l2) k' a v) /\ same_core hd hd' /\ same_caches cs cs'.
Proof.
  intros Hl Hc Hv Hk. pose proof (lr_dll _ _ _ Hl i c k Hc) as Hd. rewrite Hv in Hd.
  destruct (remove_run s hd ob cs i k c l1 a l2 Hc Hd) as (hd1 & x & E1 & Hx & Hx1 & Hu1).
  pose proof (lists_rep_remove hd hd1 cs v i c k l1 a l2 Hl Hc Hv Hu1) as Hl1.
  set (cs1 := if decide (l1 = []) then _ else _) in *. set (v1 := view_set i k (l1 ++ l2) v) in *.
  assert (same_caches cs cs1 /\ is_Some (cs1 !! i)) as [Hs1 [c1 Hc1]].
  { unfold cs1. destruct (decide (l1 = [])); [|by rewrite Hc]. split; [by apply same_caches_set|by rewrite lookup_insert_eq]. }
  assert (forall j k2, a ∉ v1 j k2) as Ha.
  { intros j k2. assert (a ∈ v i k) as Hin by (rewrite Hv; apply elem_of_app; right; by left).
    destruct (decide (j = i /\ k2 = k)) as [[-> ->]|Hne].
    - unfold v1. rewrite view_set_eq. destruct Hd as [_ Hnd]. apply NoDup_app in Hnd as (_ & Hd12 & Hnd).
      apply NoDup_cons in Hnd as [Hnd _]. intros [Hu|Hu]%elem_of_app; [apply (Hd12 a Hu); by left|done].
    - unfold v1. rewrite view_set_ne by done. intros Hu. apply Hne. by destruct (lr_disj _ _ _ Hl _ _ _ _ a Hu Hin). }
  destruct (push_run s hd1 ob cs1 i k' c1 a _ (v1 i k') Hc1 (lr_dll _ _ _ Hl1 i c1 k' Hc1) (Ha i k') Hx1) as (hd2 & E2 & Hx2 & Hu2).
  exists hd2, (<[i := set_list k' a c1]> cs1). split_and!.
  - by rewrite (bind_ok _ _ _ _ _ E1).
  - unfold moved. replace (v i k') with (v1 i k') by (unfold v1; rewrite view_set_ne; [done|intros [_ ?]; congruence]).
    eapply lists_rep_push; [exact Hl1|exact Hc1|exact Ha| |exact Hx2|exact Hu2]. by destruct (dll_links _ _ _ _ _ Hd).
  - intros u. rewrite <-(same_core_relink hd hd1 a x _ _ _ _ _ Hx Hx1 ltac:(done) Hu1).
    exact (same_core_relink hd1 hd2 a _ _ _ _ _ _ Hx1 Hx2 ltac:(done) Hu2 u).
  - intros j. rewrite <-(Hs1 j). by apply same_caches_set.
Qed.
End move.

(** ** Slots *)

(** The page behind frame [n]. *)
Definition page_of (a n : Z) : Prop := 0 < n < 2 ^ 35 /\ a = phys_to_virt (n * PAGE_SIZE).

Definition capacity (size : Z) : Z := 4032 / size.
Definition slots (a size : Z) : list Z := steps (Z.to_nat (capacity size)) (a + 64) size.

Lemma page_of_eq a n : page_of a n -> a = 2 ^ 64 - 2 ^ 47 + n * 4096 /\ 0 < a <= 2 ^ 64 - 4096 /\ a mod 4096 = 0.
Proof.
  intros [Hn ->]. unfold phys_to_virt, HHDM_OFFSET, PAGE_SIZE. rewrite w64_small by lia.
  split; [lia|]. split; [lia|]. rewrite Z.add_mod, Z.mod_mul by lia. done.
Qed.

Lemma page_of_inj a b n : page_of a n -> page_of b n -> a = b.
Proof. intros [_ ->] [_ ->]. done. Qed.

Lemma size_cases (P : Z -> Prop) size : size ∈ cache_sizes ->
  P 16 -> P 32 -> P 64 -> P 128 -> P 256 -> P 512 -> P 1024 -> P 2048 -> P size.
Proof. intros Hs. unfold cache_sizes in Hs. set_unfold. intuition (subst; done). Qed.

Lemma size_facts size : size ∈ cache_sizes ->
  16 <= size <= 2048 /\ 1 <= capacity size <= 252 /\ capacity size * size <= 4032 /\
  (4096 - sizeof_slab) / size = capacity size.
Proof.
  intros Hs. apply (size_cases (fun size => 16 <= size <= 2048 /\ 1 <= capacity size <= 252 /\
    capacity size * size <= 4032 /\ (4096 - sizeof_slab) / size = capacity size) size Hs); by_decide.
Qed.

(** Slots lie in their page, behind the header, and do not overlap. *)
Lemma slot_bounds a n size p : page_of a n -> size ∈ cache_sizes -> p ∈ slots a size ->
  a + 64 <= p /\ p + size <= a + 4096 /\ get_slab_from_ptr p = a.
Proof.
  intros Hp Hs Hin. destruct (size_facts size Hs) as (Hsz & Hc & Hcs & _). destruct (page_of_eq a n Hp) as (_ & Ha & Hm).
  apply elem_of_steps in Hin as (k & Hk & ->). rewrite Z2Nat.id in Hk by lia.
  assert (a + 64 <= a + 64 + k * size /\ a + 64 + k * size + size <= a + 4096) as [H1 H2] by nia.
  split_and!; [done|done|]. unfold get_slab_from_ptr. rewrite page_align_down_eq by lia. unfold PAGE_SIZE.
  rewrite <-(Z.add_mod_idemp_l (a + 64)) by lia. rewrite <-(Z.add_mod_idemp_l a), Hm by lia.
  rewrite (Z.add_mod_idemp_l) by lia. rewrite Z.mod_small by nia. lia.
Qed.

Lemma slots_apart a b m n size size' p q : page_of a m -> page_of b n ->
  size ∈ cache_sizes -> size' ∈ cache_sizes -> p ∈ slots a size -> q ∈ slots b size' -> a <> b -> p <> q.
Proof.
  intros Ha Hb Hs Hs' Hp Hq Hab ->. apply Hab.
  destruct (slot_bounds a m size q Ha Hs Hp) as (_ & _ & <-). by destruct (slot_bounds b n size' q Hb Hs' Hq) as (_ & _ & ->).
Qed.

(** ** The invariant *)

Record slab_rep (ob : gmap Z Z) (i size a : Z) (l : list Z) (x : slab) : Prop := {
  sb_magic : magic x = SLAB_MAGIC;
  sb_parent : parent_cache x = i;
  sb_chain : chain (fun o => ob !! o) (free_list x) l NULL;
  sb_count : free_count x = Z.of_nat (length l);
  sb_slots : forall o, o ∈ l -> o ∈ slots a size;
}.

Definition filled (k : kind) (size : Z) (n : Z) : Prop :=
  match k with Partial => 0 < n <= capacity size | Full => n = 0 | Empty => n = capacity size end.

Record crep (hd : gmap Z slab) (ob : gmap Z Z) (cs : gmap Z slab_cache) (v : view) (fl : Z -> list Z) : Prop := {
  cr_lists : lists_rep hd cs v;
  cr_slab : forall i c k a, cs !! i = Some c -> a ∈ v i k ->
    exists x, hd !! a = Some x /\ slab_rep ob i (obj_size c) a (fl a) x;
  cr_fill : forall i c k a, cs !! i = Some c -> a ∈ v i k -> filled k (obj_size c) (Z.of_nat (length (fl a)));
  cr_size : forall i c, cs !! i = Some c -> obj_size c ∈ cache_sizes;
  cr_page : forall i k a, a ∈ v i k -> exists n, page_of a n;
}.

Definition fset (a : Z) (l : list Z) (fl : Z -> list Z) : Z -> list Z := fun b => if decide (b = a) then l else fl b.

(** The slabs of a cache stay its slabs: membership does not depend on the
    list. *)
Definition in_cache (v : view) (i a : Z) : Prop := exists k, a ∈ v i k.

Lemma crep_update hd ob cs v fl hd' ob' cs' v' i c a l' x' :
  crep hd ob cs v fl -> cs !! i = Some c -> lists_rep hd' cs' v' -> same_caches cs cs' ->
  (forall u, u <> a -> core <$> hd' !! u = core <$> hd !! u) ->
  hd' !! a = Some x' -> slab_rep ob' i (obj_size c) a l' x' ->
  (forall j k u o, u ∈ v j k -> u <> a -> o ∈ fl u -> ob' !! o = ob !! o) ->
  (forall j k u, u ∈ v' j k -> u <> a -> u ∈ v j k) ->
  (forall j k, a ∈ v' j k -> j = i /\ filled k (obj_size c) (Z.of_nat (length l')) /\ exists n, page_of a n) ->
  crep hd' ob' cs' v' (fset a l' fl).
Proof.
  intros [Hl Hsb Hf Hsz Hpg] Hc Hl' Hcs Hcore Hx' Hr' Hob Hv' Ha.
  assert (forall j d, cs' !! j = Some d -> exists d0, cs !! j = Some d0 /\ obj_size d = obj_size d0) as Hd.
  { intros j d Hj. specialize (Hcs j). rewrite Hj in Hcs. destruct (cs !! j) as [d0|]; [|done].
    exists d0. split; [done|]. simpl in Hcs. congruence. }
  assert (forall u, u <> a -> fset a l' fl u = fl u) as Hfl by (intros u Hu; unfold fset; by rewrite decide_False).
  assert (fset a l' fl a = l') as Hfa by (unfold fset; by rewrite decide_True).
  split; [done|..].
  - intros j d k u Hj Hu. destruct (Hd j d Hj) as (d0 & Hd0 & ->). destruct (decide (u = a)) as [->|Hne].
    + exists x'. rewrite Hfa. split; [done|]. destruct (Ha j k Hu) as (-> & _). congruence.
    + rewrite Hfl by done. pose proof (Hv' j k u Hu Hne) as Hu0. destruct (Hsb j d0 k u Hd0 Hu0) as (x & Hx & [R1 R2 R3 R4 R5]).
      specialize (Hcore u Hne). rewrite Hx in Hcore. destruct (hd' !! u) as [y|]; [|done]. exists y. split; [done|].
      unfold core in Hcore. injection Hcore as E1 E2 E3 E4. split; try congruence; [|done].
      rewrite E3. apply (chain_frame (fun o => ob !! o)); [|done]. intros o Ho. by apply (Hob j k u).
  - intros j d k u Hj Hu. destruct (Hd j d Hj) as (d0 & Hd0 & ->). destruct (decide (u = a)) as [->|Hne].
    + rewrite Hfa. destruct (Ha j k Hu) as (-> & ? & _). congruence.
    + rewrite Hfl by done. apply (Hf j d0); [done|by apply Hv'].
  - intros j d Hj. destruct (Hd j d Hj) as (d0 & Hd0 & ->). by apply (Hsz j).
  - intros j k u Hu. destruct (decide (u = a)) as [->|Hne]; [by destruct (Ha j k Hu) as (_ & _ & ?)|].
    apply (Hpg j k u). by apply Hv'.
Qed.

(** Moving a header within its cache. *)
Lemma moved_in v i k rest k' a l1 l2 j k2 u :
  v i k = l1 ++ a :: l2 -> rest = l1 ++ l2 -> k <> k' ->
  u ∈ moved i k rest k' a v j k2 -> (u = a /\ j = i /\ k2 = k') \/ u ∈ v j k2.
Proof.
  intros Hv -> Hk. unfold moved, view_set. repeat case_decide; destruct_and?; subst; try done; try tauto.
  - intros [->|Hu]%elem_of_cons; [by left|]. right. done.
  - intros Hu. right. rewrite Hv. apply elem_of_app in Hu as [?|?]; apply elem_of_app; [by left|right; by right].
Qed.

Lemma moved_cache v i k k' a l1 l2 j u :
  v i k = l1 ++ a :: l2 -> k <> k' -> in_cache (moved i k (l1 ++ l2) k' a v) j u <-> in_cache v j u.
Proof.
  intros Hv Hk. split; intros [k2 Hu].
  - destruct (moved_in v i k _ k' a l1 l2 j k2 u Hv eq_refl Hk Hu) as [(-> & -> & ->)|Hu']; [|by exists k2].
    exists k. rewrite Hv. apply elem_of_app. right. by left.
  - destruct (decide (u = a /\ j = i)) as [[-> ->]|Hne].
    + exists k'. unfold moved. rewrite view_set_eq. by left.
    + exists k2. unfold moved, view_set. repeat case_decide; destruct_and?; subst; try done.
      * by right.
      * rewrite Hv in Hu. apply elem_of_app in Hu as [?|[->|?]%elem_of_cons]; apply elem_of_app; [by left|tauto|by right].
Qed.

Lemma lists_rep_links hd hd' cs v : lists_rep hd cs v -> (forall u, lk hd' u = lk hd u) -> lists_rep hd' cs v.
Proof.
  intros [Hd Hdis Hn] E. split; [|done|done]. intros i c k Hc. apply (dll_frame (lk hd)); [by intros|by apply Hd].
Qed.

Lemma crep_links hd ob cs v fl : crep hd ob cs v fl -> lists_rep hd cs v.
Proof. by intros []. Qed.

(** The header of a slab whose free list changed. *)
Lemma lk_upd hd a x y u : hd !! a = Some x -> s_next y = s_next x -> s_prev y = s_prev x -> lk (<[a := y]> hd) u = lk hd u.
Proof.
  intros Hx E1 E2. unfold lk. destruct (decide (u = a)) as [->|]; [|by rewrite lookup_insert_ne].
  rewrite lookup_insert_eq, Hx. simpl. by rewrite E1, E2.
Qed.

Section ops.
Context {F : Type} `{FrameAllocator F}.
Implicit Types s : slabs F.

(** The contents of slab [a] of cache [i] change to [l'], [y]. *)
Record refill hd ob cs v fl i c k a x y ob' l' : Prop := {
  rf_crep : crep hd ob cs v fl;
  rf_cache : cs !! i = Some c;
  rf_in : a ∈ v i k;
  rf_old : hd !! a = Some x;
  rf_links : s_next y = s_next x /\ s_prev y = s_prev x;
  rf_rep : slab_rep ob' i (obj_size c) a l' y;
  rf_objs : forall j k u o, u ∈ v j k -> u <> a -> o ∈ fl u -> ob' !! o = ob !! o;
}.

Lemma refill_lists hd ob cs v fl i c k a x y ob' l' :
  refill hd ob cs v fl i c k a x y ob' l' -> lists_rep (<[a := y]> hd) cs v.
Proof.
  intros [Hr _ _ Hx [E1 E2] _ _]. apply (lists_rep_links hd); [by apply Hr|]. intros u. by apply (lk_upd hd a x).
Qed.

(** It may stay where it is, *)
Lemma refill_stay hd ob cs v fl i c k a x y ob' l' :
  refill hd ob cs v fl i c k a x y ob' l' -> filled k (obj_size c) (Z.of_nat (length l')) ->
  crep (<[a := y]> hd) ob' cs v (fset a l' fl).
Proof.
  intros Hrf Hf. pose proof (refill_lists _ _ _ _ _ _ _ _ _ _ _ _ _ Hrf) as Hl. destruct Hrf as [Hr Hc Ha Hx _ Hy Hob].
  eapply (crep_update hd ob cs v fl); try done; [intros u Hu; by rewrite lookup_insert_ne|apply lookup_insert_eq|].
  intros j k2 Hu. destruct (lr_disj _ _ _ (crep_links _ _ _ _ _ Hr) _ _ _ _ a Hu Ha) as [-> ->].
  split_and!; [done|done|]. by apply (cr_page _ _ _ _ _ Hr i k).
Qed.

(** or move to another list of its cache. *)
Lemma refill_move s hd ob cs v fl i c k k' l1 a l2 x y ob' l' :
  refill hd ob cs v fl i c k a x y ob' l' -> v i k = l1 ++ a :: l2 -> k <> k' ->
  filled k' (obj_size c) (Z.of_nat (length l')) ->
  exists hd' cs', (slab_list_remove i k a ;;; slab_list_push i k' a) (mks s (<[a := y]> hd) ob' cs) = Ok (tt, mks s hd' ob' cs') /\
    crep hd' ob' cs' (moved i k (l1 ++ l2) k' a v) (fset a l' fl) /\ same_caches cs cs'.
Proof.
  intros Hrf Hv Hk Hf. pose proof (refill_lists _ _ _ _ _ _ _ _ _ _ _ _ _ Hrf) as Hl.
  destruct Hrf as [Hr Hc Ha Hx _ [S1 S2 S3 S4 S5] Hob].
  destruct (move_spec s _ ob' cs v i c k k' l1 a l2 Hl Hc Hv Hk) as (hd' & cs' & E & Hl' & Hcore & Hcs).
  exists hd', cs'. split_and!; [done| |done].
  pose proof (Hcore a) as Hca. rewrite lookup_insert_eq in Hca. destruct (hd' !! a) as [x'|] eqn:Hx'; [|done].
  simpl in Hca. injection Hca as C1 C2 C3 C4. eapply (crep_update hd ob cs v fl); try done.
  - intros u Hu. by rewrite Hcore, lookup_insert_ne.
  - split; [congruence|congruence|by rewrite C3|congruence|done].
  - intros j k2 u Hu Hne. by destruct (moved_in v i k _ k' a l1 l2 j k2 u Hv eq_refl Hk Hu) as [(-> & _)|?].
  - intros j k2 Hu. pose proof (cr_page _ _ _ _ _ Hr i k a Ha) as Hpg.
    destruct (moved_in v i k _ k' a l1 l2 j k2 a Hv eq_refl Hk Hu) as [(_ & -> & ->)|Hin]; [done|].
    destruct (lr_disj _ _ _ (crep_links _ _ _ _ _ Hr) _ _ _ _ a Hin Ha) as [-> ->]. exfalso. revert Hu. unfold moved.
    rewrite view_set_ne by (intros [_ ?]; congruence). rewrite view_set_eq. intros Hu.
    pose proof (lr_dll _ _ _ (crep_links _ _ _ _ _ Hr) i c k Hc) as [_ Hnd]. rewrite Hv in Hnd.
    apply NoDup_app in Hnd as (_ & Hd & Hnd). apply NoDup_cons in Hnd as [Hnd _].
    apply elem_of_app in Hu as [Hu|Hu]; [apply (Hd a Hu); by left|done].
Qed.

Lemma take_spec s hd ob cs v fl i c a L :
  crep hd ob cs v fl -> cs !! i = Some c -> v i Partial = a :: L ->
  exists o l' hd' cs' v', fl a = o :: l' /\ slab_take i a (mks s hd ob cs) = Ok (o, mks s hd' ob cs') /\
    crep hd' ob cs' v' (fset a l' fl) /\ same_caches cs cs' /\ (forall j u, in_cache v' j u <-> in_cache v j u).
Proof.
  intros Hr Hc Hv. assert (a ∈ v i Partial) as Ha by (rewrite Hv; by left).
  destruct (cr_slab _ _ _ _ _ Hr i c Partial a Hc Ha) as (x & Hx & [R1 R2 R3 R4 R5]).
  pose proof (cr_fill _ _ _ _ _ Hr i c Partial a Hc Ha) as Hfill. simpl in Hfill.
  destruct (size_facts _ (cr_size _ _ _ _ _ Hr i c Hc)) as (_ & Hcap & _).
  destruct (fl a) as [|o l'] eqn:Hfl; [simpl in Hfill; lia|]. destruct R3 as (Eo & Ho & n & Hn & Hch).
  set (y := set_free_count (w64 (free_count x - 1)) (set_free_list n x)).
  assert (free_count y = Z.of_nat (length l')) as Ey.
  { simpl. rewrite R4. simpl in *. rewrite w64_small by lia. lia. }
  assert (refill hd ob cs v fl i c Partial a x y ob l') as Hrf.
  { split; try done. split; try done. intros w Hw. apply R5. by right. }
  assert (slab_take i a (mks s hd ob cs) =
    (when (free_count y =? 0) (slab_list_remove i Partial a ;;; slab_list_push i Full a) ;;; ret o)
      (mks s (<[a := y]> hd) ob cs)) as ->.
  { unfold slab_take. rewrite (get_slab_bind _ _ _ _ a x _ Hx). rewrite Eo, (obj_next_bind _ _ _ _ o n _ Hn).
    rewrite (upd_slab_bind _ _ _ _ a x _ _ Hx), (upd_slab_bind _ _ _ _ a _ _ _ (lookup_insert_eq _ _ _)), insert_insert_eq.
    rewrite (get_slab_bind _ _ _ _ a _ _ (lookup_insert_eq _ _ _)). done. }
  destruct (Z.eqb_spec (free_count y) 0) as [E0|E0]; cbn [when].
  - destruct (refill_move s hd ob cs v fl i c Partial Full [] a L x y ob l' Hrf Hv ltac:(done)) as (hd' & cs' & E & Hr' & Hcs); [simpl; lia|].
    exists o, l', hd', cs', (moved i Partial L Full a v). split_and!; try done; [by rewrite (bind_ok _ _ _ _ _ E)|].
    intros j u. by apply (moved_cache v i Partial Full a [] L).
  - exists o, l', (<[a := y]> hd), cs, v. split_and!; try done.
    apply (refill_stay hd ob cs v fl i c Partial a x y ob l' Hrf). simpl in *. lia.
Qed.
End ops.

(** ** Growing *)

Lemma steps_snoc n i step : steps (S n) i step = steps n i step ++ [i + Z.of_nat n * step].
Proof.
  revert i. induction n as [|n IH]; intros i; [simpl; by rewrite Z.add_0_r|].
  change (steps (S (S n)) i step) with (i :: steps (S n) (i + step) step). rewrite IH. simpl. do 3 f_equal. lia.
Qed.

Section grow.
Context {F : Type} `{FrameAllocatorOk F}.
Implicit Types s : slabs F.

Lemma link_objs_run n size s hd ob cs curr :
  0 < curr -> 0 < size -> curr + Z.of_nat n * size < 2 ^ 64 ->
  exists ob', link_objs n size curr (mks s hd ob cs) = Ok (curr + Z.of_nat n * size, mks s hd ob' cs) /\
    chain (fun o => ob' !! o) curr (steps n curr size) (curr + Z.of_nat n * size) /\
    forall o, o ∉ steps n curr size -> ob' !! o = ob !! o.
Proof.
  revert ob curr. induction n as [|n IH]; intros ob curr Hc Hs Hw.
  { exists ob. simpl. rewrite Z.add_0_r. done. }
  cbn [link_objs steps]. rewrite set_obj_bind, w64_small by lia.
  destruct (IH (<[curr := curr + size]> ob) (curr + size)) as (ob' & E & Hch & Hout); [lia..|].
  replace (curr + size + Z.of_nat n * size) with (curr + Z.of_nat (S n) * size) in * by lia.
  exists ob'. split_and!; [done| |].
  - split_and!; [done|unfold NULL; lia|]. exists (curr + size). split; [|done]. rewrite Hout; [apply lookup_insert_eq|].
    rewrite elem_of_steps. intros (k & Hk & E'). nia.
  - intros o Ho. rewrite not_elem_of_cons in Ho. destruct Ho as [Hne Ho]. rewrite Hout by done. by rewrite lookup_insert_ne.
Qed.

(** The whole free list of a new slab. *)
Lemma link_all n size s hd ob cs curr :
  0 < curr -> 0 < size -> curr + Z.of_nat n * size < 2 ^ 64 ->
  exists ob', (c <- link_objs n size curr ;; set_obj_next c NULL) (mks s hd ob cs) = Ok (tt, mks s hd ob' cs) /\
    chain (fun o => ob' !! o) curr (steps (S n) curr size) NULL /\
    forall o, o ∉ steps (S n) curr size -> ob' !! o = ob !! o.
Proof.
  intros Hc Hs Hw. destruct (link_objs_run n size s hd ob cs curr Hc Hs Hw) as (ob1 & E & Hch & Hout).
  set (z := curr + Z.of_nat n * size) in *. exists (<[z := NULL]> ob1). rewrite (bind_ok _ _ _ _ _ E). split_and!; [done|..].
  - rewrite steps_snoc. fold z. apply chain_app. exists z. split.
    + apply (chain_frame (fun o => ob1 !! o)); [|done]. intros o Ho. apply elem_of_steps in Ho as (k & Hk & ->).
      rewrite lookup_insert_ne; [done|]. unfold z. nia.
    + split_and!; [done|unfold z, NULL; lia|]. exists NULL. by rewrite lookup_insert_eq.
  - intros o. rewrite steps_snoc, not_elem_of_app, not_elem_of_cons. fold z. intros (Ho & Hz & _).
    rewrite lookup_insert_ne by done. by apply Hout.
Qed.

Lemma slab_start virt n : page_of virt n ->
  Z.land (w64 (w64 (virt + sizeof_slab) + 15)) (w64 (Z.lnot 15)) = virt + 64 /\
  w64 (w64 (virt + 4096) - (virt + 64)) = 4032.
Proof.
  intros Hp. destruct (page_of_eq virt n Hp) as (_ & Hv & Hm). unfold sizeof_slab. split.
  - rewrite (w64_small (virt + 56)), (w64_small (virt + 56 + 15)) by lia.
    change 15 with (Z.ones 4) at 2. rewrite (land_lnot_ones _ 4) by lia. change (2 ^ 4) with 16.
    Z.div_mod_to_equations. lia.
  - unfold w64. rewrite Zminus_mod_idemp_l. replace (virt + 4096 - (virt + 64)) with 4032 by lia. done.
Qed.

Definition pages_used (f : F) (v : view) : Prop :=
  forall i k a n, a ∈ v i k -> page_of a n -> fa_used f n = true.

Lemma page_of_det a n m : page_of a n -> page_of a m -> n = m.
Proof.
  intros Hn Hm. destruct (page_of_eq a n Hn) as (E & _). destruct (page_of_eq a m Hm) as (E' & _). lia.
Qed.

Lemma grow_spec s hd ob cs v fl i c n f' :
  let virt := phys_to_virt (n * PAGE_SIZE) in
  crep hd ob cs v fl -> cs !! i = Some c -> pages_used (sl_pmm s) v -> page_of virt n ->
  fa_used (sl_pmm s) n = false -> fa_alloc (sl_pmm s) = Ok (n * PAGE_SIZE, f') ->
  exists hd' ob' cs', slab_grow i (mks s hd ob cs) = Ok (tt, mkSlabs f' hd' ob' cs') /\
    crep hd' ob' cs' (view_set i Empty (virt :: v i Empty) v) (fset virt (slots virt (obj_size c)) fl) /\ same_caches cs cs'.
Proof.
  intros virt Hr Hc Hpu Hpg Hfree Ea. set (size := obj_size c).
  destruct (size_facts size (cr_size _ _ _ _ _ Hr i c Hc)) as (Hsz & Hcap & Hcs & _).
  destruct (slab_start virt n Hpg) as [Es Em]. destruct (page_of_eq virt n Hpg) as (_ & Hv & _).
  assert (forall j k, virt ∉ v j k) as Hnew by (intros j k Hin; pose proof (Hpu j k virt n Hin Hpg); congruence).
  set (s1 := mkSlabs f' hd ob cs).
  set (h0 := mkSlab SLAB_MAGIC i (virt + 64) (capacity size) (match hd !! virt with Some x => s_next x | None => 0 end)
    (match hd !! virt with Some x => s_prev x | None => 0 end)).
  set (hd1 := <[virt := h0]> hd). set (nn := Z.to_nat (capacity size - 1)).
  destruct (link_all nn size s1 hd1 ob cs (virt + 64)) as (ob' & E2 & Hch & Hout); [lia|lia|nia|].
  assert (steps (S nn) (virt + 64) size = slots virt size) as Esl by (unfold slots; f_equal; lia).
  rewrite Esl in Hch, Hout.
  assert (lists_rep hd1 cs v) as Hl1.
  { destruct (cr_lists _ _ _ _ _ Hr) as [Hd Hdis Hn]. split; [|done|done]. intros j d k Hj.
    apply (dll_frame (lk hd)); [|by apply Hd]. intros u Hu. unfold lk, hd1. rewrite lookup_insert_ne; [done|]. intros <-. by apply (Hnew j k). }
  destruct (push_run s1 hd1 ob' cs i Empty c virt h0 (v i Empty) Hc (lr_dll _ _ _ Hl1 i c Empty Hc) (Hnew i Empty) (lookup_insert_eq _ _ _))
    as (hd2 & E3 & Hx2 & Hu2).
  exists hd2, ob', (<[i := set_list Empty virt c]> cs). split_and!; [| |by apply same_caches_set].
  - unfold slab_grow, on_pmm. unfold bind at 1. cbn [mks sl_pmm]. rewrite Ea. fold virt.
    change (set_sl_pmm f' (mks s hd ob cs)) with (mks s1 hd ob cs). rewrite (get_cache_bind _ _ _ _ i c _ Hc).
    rewrite Es, Em. fold size. fold (capacity size). rewrite w64_small by lia. fold nn.
    unfold bind at 1, modify at 1. change (set_headers _ (mks s1 hd ob cs)) with (mks s1 hd1 ob cs).
    unfold bind in E2 |- *. destruct (link_objs nn size (virt + 64) (mks s1 hd1 ob cs)) as [[curr s2]| | |]; try done.
    rewrite E2. exact E3.
  - apply (crep_update hd ob cs v fl hd2 ob' _ _ i c virt (slots virt size)
      (set_prev NULL (set_next (list_of Empty c) h0))); try done.
    + eapply lists_rep_push; [exact Hl1|exact Hc|exact Hnew|unfold NULL; lia|exact Hx2|exact Hu2].
    + by apply same_caches_set.
    + intros u Hu. rewrite Hu2 by done. unfold hd1. rewrite lookup_insert_ne by done. by destruct (hd !! u).
    + split; try done. simpl. unfold slots. rewrite length_steps. rewrite Z2Nat.id by lia. done.
    + intros j k u o Hu Hne Ho. apply Hout. intros Ho'. pose proof (lr_none _ _ _ (crep_links _ _ _ _ _ Hr) j k) as Hnn.
      destruct (cs !! j) as [d|] eqn:Hj; [|rewrite Hnn in Hu by done; by apply not_elem_of_nil in Hu].
      destruct (cr_slab _ _ _ _ _ Hr j d k u Hj Hu) as (x & _ & [_ _ _ _ R5]).
      destruct (cr_page _ _ _ _ _ Hr j k u Hu) as [m Hm].
      by apply (slots_apart u virt m n (obj_size d) size o o Hm Hpg (cr_size _ _ _ _ _ Hr j d Hj) (cr_size _ _ _ _ _ Hr i c Hc) (R5 o Ho) Ho' Hne).
    + intros j k u Hu Hne. revert Hu. unfold view_set. case_decide; destruct_and?; subst; [|done].
      by intros [->|?]%elem_of_cons.
    + intros j k. unfold view_set. case_decide; destruct_and?; subst; [|by intros ?%Hnew]. intros _.
      split_and!; [done| |by exists n]. simpl. fold size. unfold slots. rewrite length_steps. lia.
Qed.
End grow.
