(* ===== verification/SlabSpec.v ===== *)
(** * The slab allocator: allocation and release

    [slab_cache_alloc] and [slab_cache_free] as operations on the set of live
    objects. *)

From S2P Require Import Prelude Lock Frames Chain Dll Slab SlabProof.

Section spec.
Context {F : Type} `{FrameAllocatorOk F}.
Implicit Types s : slabs F.

#[export] Instance slabs_hart_ok : HasHartOk (slabs F).
Proof.
  split; intros; cbn [lget lset hart_of slabs_hart set_sl_pmm sl_pmm]; [apply lget_lset|by rewrite lset_lset|].
  rewrite lset_lget. by destruct s.
Qed.

(** An object that is handed out: a slot of a slab of the cache that is not
    on the slab's free list. *)
Definition live (cs : gmap Z slab_cache) (v : view) (fl : Z -> list Z) (p : Z) : Prop :=
  exists i c a, cs !! i = Some c /\ in_cache v i a /\ p ∈ slots a (obj_size c) /\ p ∉ fl a.

Record srep s (v : view) (fl : Z -> list Z) : Prop := {
  sr_crep : crep (headers s) (objs s) (kmalloc_caches s) v fl;
  sr_locks : map_Forall (fun _ c => lock_free (cache_lock_ c)) (kmalloc_caches s);
  sr_pmm : fa_ok (sl_pmm s);
  sr_used : pages_used (sl_pmm s) v;
  sr_frames : fa_frames (sl_pmm s) <= 2 ^ 35;
}.

(** ** The lock of a cache *)

Lemma alter_insert_cache (f : slab_cache -> slab_cache) (m : gmap Z slab_cache) i c :
  m !! i = Some c -> alter f i m = <[i := f c]> m.
Proof.
  intros E. apply map_eq. intros j. destruct (decide (j = i)) as [->|].
  - by rewrite lookup_alter_eq, E, lookup_insert_eq.
  - by rewrite lookup_alter_ne, lookup_insert_ne.
Qed.

Lemma lset_cache_lock s i c l : kmalloc_caches s !! i = Some c ->
  lset (cache_lock i) l s = set_caches (<[i := set_cache_lock l c]> (kmalloc_caches s)) s.
Proof. intros E. simpl. by rewrite (alter_insert_cache _ _ _ _ E). Qed.

Lemma lget_cache_lock s i c : kmalloc_caches s !! i = Some c -> lget (cache_lock i) s = cache_lock_ c.
Proof. intros E. simpl. by rewrite E. Qed.

(** The state inside the critical section of cache [i]. *)
Definition inside s i c : slabs F :=
  set_caches (<[i := set_cache_lock (held (lget hart_of s) (cache_lock_ c)) c]> (kmalloc_caches s))
    (lset hart_of (masked (lget hart_of s)) s).

Definition outside s i c' (s' : slabs F) : slabs F :=
  mkSlabs (lset hart_of (lget hart_of s) (sl_pmm s')) (headers s') (objs s')
    (<[i := set_cache_lock (unheld (lget hart_of s) (cache_lock_ c')) c']> (kmalloc_caches s')).

Lemma cache_critical {A} (body : M (slabs F) A) s i c a s' c' :
  kmalloc_caches s !! i = Some c -> hart_ok (lget hart_of s) -> lock_free (cache_lock_ c) ->
  body (inside s i c) = Ok (a, s') -> lget hart_of s' = masked (lget hart_of s) ->
  kmalloc_caches s' !! i = Some c' ->
  critical (cache_lock i) body s = Ok (a, outside s i c' s').
Proof.
  intros Hc Hh Hl Hb Hs' Hc'. unfold critical. rewrite (bind_ok _ _ _ _ _ (spin_irq_save_eq s)).
  set (s0 := lset hart_of (masked (lget hart_of s)) s). assert (kmalloc_caches s0 !! i = Some c) as Hc0 by done.
  assert (lget hart_of s0 = masked (lget hart_of s)) as Hh0 by (simpl; apply lget_lset).
  rewrite (bind_ok _ _ _ tt (inside s i c)).
  2: { rewrite spin_lock_at.
       - by rewrite (lget_cache_lock s0 i c Hc0), (lset_cache_lock s0 i c _ Hc0), Hh0.
       - intros l. rewrite (lset_cache_lock s0 i c _ Hc0). simpl. by rewrite lookup_insert_eq.
       - intros l l'. rewrite !(lset_cache_lock s0 i c _ Hc0).
         rewrite (lset_cache_lock _ i (set_cache_lock l' c)) by apply lookup_insert_eq.
         unfold set_caches. simpl. by rewrite insert_insert_eq.
       - rewrite (lget_cache_lock s0 i c Hc0), (lset_cache_lock s0 i c _ Hc0).
         replace (set_cache_lock (cache_lock_ c) c) with c by (by destruct c). rewrite insert_id by done. by destruct s0.
       - done.
       - by rewrite Hh0.
       - by rewrite (lget_cache_lock s0 i c Hc0). }
  rewrite (bind_ok _ _ _ _ _ Hb). erewrite bind_ok; [|apply spin_unlock_at].
  - rewrite (lget_cache_lock s' i c' Hc'), (lset_cache_lock s' i c' _ Hc'), Hs'.
    rewrite (bind_ok _ _ _ _ _ (spin_irq_restore_eq _ _)). unfold ret, outside. do 2 f_equal.
    assert (lget hart_of (sl_pmm s') = masked (lget hart_of s)) as E' by exact Hs'.
    unfold set_caches. simpl. rewrite E', set_rflags_masked. done.
  - rewrite (lget_cache_lock s' i c' Hc'), (lset_cache_lock s' i c' _ Hc').
    replace (set_cache_lock (cache_lock_ c') c') with c' by (by destruct c'). rewrite insert_id by done. by destruct s'.
Qed.

(** The representation does not see locks. *)
Lemma crep_lock hd ob cs v fl i c l :
  crep hd ob cs v fl -> cs !! i = Some c -> crep hd ob (<[i := set_cache_lock l c]> cs) v fl.
Proof.
  intros [[Hd Hdis Hn] Hsb Hf Hsz Hpg] Hc.
  assert (forall j d, <[i := set_cache_lock l c]> cs !! j = Some d ->
    exists d0, cs !! j = Some d0 /\ obj_size d = obj_size d0 /\ forall k, list_of k d = list_of k d0) as Hcs.
  { intros j d. destruct (decide (j = i)) as [->|].
    - rewrite lookup_insert_eq. intros [= <-]. exists c. split_and!; [done|done|]. by intros [].
    - rewrite lookup_insert_ne by done. intros Hj. by exists d. }
  split; [split|..].
  - intros j d k Hj. destruct (Hcs j d Hj) as (d0 & Hd0 & _ & ->). by apply Hd.
  - done.
  - intros j k Hj. apply Hn. destruct (decide (j = i)) as [->|]; [by rewrite lookup_insert_eq in Hj|].
    by rewrite lookup_insert_ne in Hj.
  - intros j d k a Hj Ha. destruct (Hcs j d Hj) as (d0 & Hd0 & -> & _). by apply (Hsb j d0 k).
  - intros j d k a Hj Ha. destruct (Hcs j d Hj) as (d0 & Hd0 & -> & _). by apply (Hf j d0 k).
  - intros j d Hj. destruct (Hcs j d Hj) as (d0 & Hd0 & -> & _). by apply (Hsz j).
  - done.
Qed.

Lemma same_caches_lookup cs cs' i c : same_caches cs cs' -> cs !! i = Some c ->
  exists c', cs' !! i = Some c' /\ obj_size c' = obj_size c /\ cache_lock_ c' = cache_lock_ c.
Proof.
  intros Hs Hc. specialize (Hs i). rewrite Hc in Hs. destruct (cs' !! i) as [c'|]; [|done].
  exists c'. simpl in Hs. split_and!; congruence.
Qed.

(** Live objects depend on the slabs, their free lists and the sizes only. *)
Lemma live_ext cs cs' v v' fl fl' :
  (forall j, obj_size <$> cs' !! j = obj_size <$> cs !! j) -> (forall j u, in_cache v' j u <-> in_cache v j u) ->
  (forall j u, in_cache v j u -> fl' u = fl u) -> forall p, live cs' v' fl' p <-> live cs v fl p.
Proof.
  intros Hs Hv Hf p. unfold live. split; intros (j & d & u & Hd & Hu & Hp & Hn).
  - specialize (Hs j). rewrite Hd in Hs. destruct (cs !! j) as [d0|] eqn:E; [|done]. injection Hs as Hs.
    exists j, d0, u. apply Hv in Hu. rewrite (Hf j u Hu) in Hn. by rewrite Hs in Hp.
  - specialize (Hs j). rewrite Hd in Hs. destruct (cs' !! j) as [d0|] eqn:E; [|done]. injection Hs as Hs.
    exists j, d0, u. rewrite (Hf j u Hu). split_and!; [done|by apply Hv|by rewrite Hs|done].
Qed.

Lemma same_caches_sizes cs cs' : same_caches cs cs' -> forall j, obj_size <$> cs' !! j = obj_size <$> cs !! j.
Proof.
  intros Hs j. specialize (Hs j). destruct (cs' !! j), (cs !! j); try done. simpl in *. congruence.
Qed.

(** ** Choosing a slab *)

Lemma crep_ext hd ob cs v fl fl' : (forall j u, in_cache v j u -> fl' u = fl u) -> crep hd ob cs v fl -> crep hd ob cs v fl'.
Proof.
  intros E [Hl Hsb Hf Hsz Hpg]. split; try done.
  - intros j d k u Hj Hu. rewrite (E j u) by (by exists k). by apply (Hsb j d k).
  - intros j d k u Hj Hu. rewrite (E j u) by (by exists k). by apply (Hf j d k).
Qed.

(** A slab changes lists without changing its contents. *)
Lemma relocate_spec s hd ob cs v fl i c k k' l1 a l2 :
  crep hd ob cs v fl -> cs !! i = Some c -> v i k = l1 ++ a :: l2 -> k <> k' ->
  filled k' (obj_size c) (Z.of_nat (length (fl a))) ->
  exists hd' cs', (slab_list_remove i k a ;;; slab_list_push i k' a) (mks s hd ob cs) = Ok (tt, mks s hd' ob cs') /\
    crep hd' ob cs' (moved i k (l1 ++ l2) k' a v) fl /\ same_caches cs cs'.
Proof.
  intros Hr Hc Hv Hk Hf. assert (a ∈ v i k) as Ha by (rewrite Hv; apply elem_of_app; right; by left).
  destruct (cr_slab _ _ _ _ _ Hr i c k a Hc Ha) as (x & Hx & Hsr).
  destruct (refill_move s hd ob cs v fl i c k k' l1 a l2 x x ob (fl a)) as (hd' & cs' & E & Hr' & Hcs); try done.
  exists hd', cs'. rewrite insert_id in E by done. split_and!; try done.
  apply (crep_ext _ _ _ _ (fset a (fl a) fl)); [intros j u _; unfold fset; by case_decide; [subst|]|done].
Qed.

Lemma pages_used_moved (f : F) v i k l1 a l2 k' :
  v i k = l1 ++ a :: l2 -> k <> k' -> pages_used f v -> pages_used f (moved i k (l1 ++ l2) k' a v).
Proof.
  intros Hv Hk Hu j k2 u n Hin. destruct (moved_in v i k _ k' a l1 l2 j k2 u Hv eq_refl Hk Hin) as [(-> & -> & ->)|Hin'].
  - apply (Hu i k). rewrite Hv. apply elem_of_app. right. by left.
  - by apply (Hu j k2).
Qed.

(** What choosing a slab leaves: the first partial slab, and the same live
    objects. *)
Record picked s cs v fl i a s' v' fl' : Prop := {
  pk_crep : crep (headers s') (objs s') (kmalloc_caches s') v' fl';
  pk_head : exists L, v' i Partial = a :: L;
  pk_same : same_caches cs (kmalloc_caches s');
  pk_ok : fa_ok (sl_pmm s');
  pk_hart : lget hart_of s' = lget hart_of s;
  pk_frames : fa_frames (sl_pmm s') = fa_frames (sl_pmm s);
  pk_used : pages_used (sl_pmm s') v';
  pk_live : forall p, live (kmalloc_caches s') v' fl' p <-> live cs v fl p;
}.

Lemma promote_spec s hd ob cs v fl i c a L :
  crep hd ob cs v fl -> cs !! i = Some c -> v i Empty = a :: L -> pages_used (sl_pmm s) v -> fa_ok (sl_pmm s) ->
  exists s' v', (c <- get_cache i ;;
      (slab_list_remove i Empty (empty_slabs c) ;;; slab_list_push i Partial (empty_slabs c)) ;;; ret (empty_slabs c))
      (mks s hd ob cs) = Ok (a, s') /\ picked s cs v fl i a s' v' fl.
Proof.
  intros Hr Hc Hv Hpu Hok. pose proof (lr_dll _ _ _ (cr_lists _ _ _ _ _ Hr) i c Empty Hc) as Hd.
  rewrite Hv in Hd. pose proof (dll_head _ _ _ Hd) as Hh. simpl in Hh.
  assert (a ∈ v i Empty) as Ha by (rewrite Hv; by left).
  pose proof (cr_fill _ _ _ _ _ Hr i c Empty a Hc Ha) as Hf. simpl in Hf.
  destruct (size_facts _ (cr_size _ _ _ _ _ Hr i c Hc)) as (_ & Hcap & _).
  destruct (relocate_spec s hd ob cs v fl i c Empty Partial [] a L Hr Hc Hv ltac:(done)) as (hd' & cs' & E & Hr' & Hcs); [simpl; lia|].
  exists (mks s hd' ob cs'), (moved i Empty L Partial a v). split.
  - rewrite (get_cache_bind _ _ _ _ i c _ Hc), Hh. by rewrite (bind_ok _ _ _ _ _ E).
  - split; try done.
    + exists (v i Partial). unfold moved. by rewrite view_set_eq.
    + by apply (pages_used_moved (sl_pmm s) v i Empty [] a L Partial).
    + apply live_ext; [by apply same_caches_sizes|by intros; apply (moved_cache v i Empty Partial a [] L)|done].
Qed.

(** A new slab adds free objects only. *)
Lemma live_grown cs v fl i c virt :
  cs !! i = Some c -> (forall j k, virt ∉ v j k) -> (forall j, cs !! j = None -> forall k, v j k = []) ->
  forall p, live cs (view_set i Empty (virt :: v i Empty) v) (fset virt (slots virt (obj_size c)) fl) p <-> live cs v fl p.
Proof.
  intros Hc Hnew Hnone p. split; intros (j & d & u & Hd & [k Hu] & Hp & Hn).
  - unfold view_set in Hu. destruct (decide (j = i /\ k = Empty)) as [[-> ->]|Hne].
    + rewrite Hc in Hd. injection Hd as <-. apply elem_of_cons in Hu as [->|Hu].
      * unfold fset in Hn. by rewrite decide_True in Hn.
      * exists i, c, u. split_and!; [done|by exists Empty|done|]. unfold fset in Hn.
        rewrite decide_False in Hn; [done|]. intros ->. by apply (Hnew i Empty).
    + exists j, d, u. split_and!; [done|by exists k|done|]. unfold fset in Hn.
      rewrite decide_False in Hn; [done|]. intros ->. by apply (Hnew j k).
  - exists j, d, u. split_and!; [done| |done|].
    + exists k. unfold view_set. case_decide; destruct_and?; subst; [by right|done].
    + unfold fset. rewrite decide_False; [done|]. intros ->. by apply (Hnew j k).
Qed.

Lemma pick_spec s hd ob cs v fl i c :
  crep hd ob cs v fl -> cs !! i = Some c -> pages_used (sl_pmm s) v -> fa_ok (sl_pmm s) ->
  fa_frames (sl_pmm s) <= 2 ^ 35 ->
  (v i Partial <> [] \/ v i Empty <> [] \/ wp fa_alloc (fun r _ => r <> NULL) (sl_pmm s)) ->
  exists a s' v' fl', slab_pick i (mks s hd ob cs) = Ok (a, s') /\ picked s cs v fl i a s' v' fl'.
Proof.
  intros Hr Hc Hpu Hok Hfr Hroom. unfold slab_pick. rewrite (get_cache_bind _ _ _ _ i c _ Hc).
  pose proof (lr_dll _ _ _ (cr_lists _ _ _ _ _ Hr) i c) as Hd.
  pose proof (dll_head _ _ _ (Hd Partial Hc)) as Hp. pose proof (dll_head _ _ _ (Hd Empty Hc)) as He.
  cbn [list_of] in Hp, He. destruct (v i Partial) as [|a L] eqn:Hv.
  2: { assert (a <> NULL) as Ha by (apply (dll_elem _ _ _ a (Hd Partial Hc)); rewrite Hv; by left).
       simpl in Hp. rewrite Hp, (proj2 (Z.eqb_neq _ _)) by done. exists a, (mks s hd ob cs), v, fl. split; [done|].
       split; try done. by exists L. }
  simpl in Hp. rewrite Hp. change (negb (NULL =? NULL)) with false. cbv iota. destruct (v i Empty) as [|a L] eqn:Hv2.
  2: { assert (a <> NULL) as Ha by (apply (dll_elem _ _ _ a (Hd Empty Hc)); rewrite Hv2; by left).
       simpl in He. rewrite He, (proj2 (Z.eqb_neq _ _)) by done. unfold bind at 1, ret at 1.
       destruct (promote_spec s hd ob cs v fl i c a L Hr Hc Hv2 Hpu Hok) as (s' & v' & E & Hpk). by exists a, s', v', fl. }
  simpl in He. rewrite He, Z.eqb_refl. destruct Hroom as [?|[?|Hroom]]; [done|done|].
  apply wp_ok in Hroom as (r & f' & Ea & Hr0).
  pose proof (fa_alloc_spec (sl_pmm s) Hok) as Hspec. unfold wp in Hspec. rewrite Ea in Hspec.
  destruct Hspec as (Hok' & Hh' & Hfr' & [[-> _]|(n & -> & Hn & Hle & Hfree & Hused')]); [done|].
  assert (page_of (phys_to_virt (n * PAGE_SIZE)) n) as Hpg by (split; [lia|done]).
  destruct (grow_spec s hd ob cs v fl i c n f' Hr Hc Hpu Hpg (Hfree n ltac:(lia)) Ea) as (hd1 & ob1 & cs1 & E1 & Hr1 & Hcs1).
  set (virt := phys_to_virt (n * PAGE_SIZE)) in *. set (v1 := view_set i Empty (virt :: v i Empty) v) in *.
  set (fl1 := fset virt (slots virt (obj_size c)) fl) in *. set (s1 := mkSlabs f' hd1 ob1 cs1).
  destruct (same_caches_lookup cs cs1 i c Hcs1 Hc) as (c1 & Hc1 & _).
  assert (forall j k, virt ∉ v j k) as Hnew.
  { intros j k Hin. pose proof (Hpu j k virt n Hin Hpg) as Hu. rewrite (Hfree n) in Hu by lia. done. }
  assert (pages_used f' v1) as Hpu1.
  { intros j k u m Hin Hm. rewrite Hused'. unfold v1, view_set in Hin. case_decide; destruct_and?; subst.
    - apply elem_of_cons in Hin as [->|Hin].
      + rewrite (page_of_det virt m n Hm Hpg). rewrite (proj2 (Z.leb_le n n)), (proj2 (Z.ltb_lt _ _)) by lia. done.
      + rewrite (Hpu i Empty u m Hin Hm). apply orb_true_r.
    - rewrite (Hpu j k u m Hin Hm). apply orb_true_r. }
  destruct (promote_spec s1 hd1 ob1 cs1 v1 fl1 i c1 virt [] Hr1 Hc1) as (s' & v' & E & [P1 P2 P3 P4 P5 P6 P7 P8]); [|done|done|].
  { unfold v1. by rewrite view_set_eq, Hv2. }
  exists virt, s', v', fl1. split; [rewrite (bind_ok _ _ _ _ _ E1); exact E|]. split; try done.
  - intros j. rewrite (P3 j). apply Hcs1.
  - rewrite P5. exact Hh'.
  - rewrite P6. exact Hfr'.
  - intros p. rewrite P8. rewrite (live_ext cs cs1 v1 v1 fl1 fl1); [|by apply same_caches_sizes|done|done].
    by apply live_grown; [|done|intros j Hj k; apply (lr_none _ _ _ (cr_lists _ _ _ _ _ Hr))].
Qed.

(** ** Allocation *)

(** The free objects of a slab are not live, and are distinct slots of it. *)
Lemma free_facts hd ob cs v fl i c a :
  crep hd ob cs v fl -> cs !! i = Some c -> in_cache v i a ->
  NoDup (fl a) /\ forall o, o ∈ fl a -> o ∈ slots a (obj_size c) /\ ~ live cs v fl o.
Proof.
  intros Hr Hc [k Ha]. destruct (cr_slab _ _ _ _ _ Hr i c k a Hc Ha) as (x & Hx & [R1 R2 R3 R4 R5]).
  split; [by apply chain_NoDup in R3|]. intros o Ho. split; [by apply R5|].
  intros (j & d & u & Hd & [k2 Hu] & Hp & Hn). destruct (decide (u = a)) as [->|Hne]; [done|].
  destruct (cr_page _ _ _ _ _ Hr i k a Ha) as [n Hpa]. destruct (cr_page _ _ _ _ _ Hr j k2 u Hu) as [m Hpu].
  by apply (slots_apart u a m n (obj_size d) (obj_size c) o o Hpu Hpa (cr_size _ _ _ _ _ Hr j d Hd)
    (cr_size _ _ _ _ _ Hr i c Hc) Hp (R5 o Ho) Hne).
Qed.

(** A slab is in one cache only. *)
Lemma in_cache_inj hd cs v i j a : lists_rep hd cs v -> in_cache v i a -> in_cache v j a -> i = j.
Proof. intros Hl [k Hk] [k' Hk']. by destruct (lr_disj _ _ _ Hl _ _ _ _ a Hk Hk'). Qed.

Lemma live_take hd ob cs v fl i c a o l' cs' v' :
  crep hd ob cs v fl -> cs !! i = Some c -> in_cache v i a -> fl a = o :: l' ->
  (forall j u, in_cache v' j u <-> in_cache v j u) -> (forall j, obj_size <$> cs' !! j = obj_size <$> cs !! j) ->
  forall p, live cs' v' (fset a l' fl) p <-> live cs v fl p \/ p = o.
Proof.
  intros Hr Hc Ha Hfl Hv Hs p. rewrite (live_ext cs cs' v v' (fset a l' fl)); [|done|done|done].
  destruct (free_facts _ _ _ _ _ _ _ _ Hr Hc Ha) as [Hnd Hsl]. rewrite Hfl in Hnd. apply NoDup_cons in Hnd as [Hno _].
  unfold live, fset. split.
  - intros (j & d & u & Hd & Hu & Hp & Hn). destruct (decide (u = a)) as [->|].
    + destruct (decide (p = o)) as [->|Hpo]; [by right|]. left. exists j, d, a. split_and!; try done.
      rewrite Hfl. by rewrite not_elem_of_cons.
    + left. by exists j, d, u.
  - intros [(j & d & u & Hd & Hu & Hp & Hn)| ->].
    + exists j, d, u. split_and!; try done. case_decide; [|done]. subst u. rewrite Hfl, not_elem_of_cons in Hn. tauto.
    + exists i, c, a. split_and!; try done; [|by rewrite decide_True].
      destruct (Hsl o) as [? _]; [rewrite Hfl; by left|done].
Qed.

(** Memory for the request: a slab with a free object, or a free frame. *)
Definition room s (v : view) (i : Z) : Prop :=
  v i Partial <> [] \/ v i Empty <> [] \/
  wp fa_alloc (fun r _ => r <> NULL) (lset hart_of (masked (lget hart_of s)) (sl_pmm s)).

Lemma pages_used_iff (f f' : F) v v' :
  (forall n, fa_used f' n = fa_used f n) -> (forall j u, in_cache v' j u -> in_cache v j u) -> pages_used f v -> pages_used f' v'.
Proof.
  intros Hf Hv Hu j k a n Ha Hn. rewrite Hf. destruct (Hv j a) as [k' Ha']; [by exists k|]. by apply (Hu j k' a n).
Qed.

(** Leaving the critical section. *)
Lemma outside_srep s i c' (s' : slabs F) v fl :
  hart_ok (lget hart_of s) -> crep (headers s') (objs s') (kmalloc_caches s') v fl -> kmalloc_caches s' !! i = Some c' ->
  map_Forall (fun j c => j <> i -> lock_free (cache_lock_ c)) (kmalloc_caches s') ->
  lock_free (unheld (lget hart_of s) (cache_lock_ c')) -> fa_ok (sl_pmm s') -> pages_used (sl_pmm s') v ->
  fa_frames (sl_pmm s') <= 2 ^ 35 -> srep (outside s i c' s') v fl /\ lget hart_of (outside s i c' s') = lget hart_of s.
Proof.
  intros Hh Hr Hc' Hlk Hl Hok Hpu Hfr. destruct (fa_set_hart (sl_pmm s') (lget hart_of s) Hok Hh) as (Hok' & Hfr' & Hu').
  split; [|unfold hart_of, slabs_hart, outside; cbn [lget sl_pmm]; apply lget_lset]. split; cbn [outside sl_pmm headers objs kmalloc_caches].
  - by apply crep_lock.
  - intros j d. destruct (decide (j = i)) as [->|].
    + rewrite lookup_insert_eq. by intros [= <-].
    + rewrite lookup_insert_ne by done. intros Hj. by apply (Hlk j d Hj).
  - done.
  - by apply (pages_used_iff (sl_pmm s') _ v v).
  - by rewrite Hfr'.
Qed.

Lemma alloc_spec s v fl i c :
  srep s v fl -> kmalloc_caches s !! i = Some c -> room s v i ->
  exists o a s' v' fl', slab_cache_alloc i s = Ok (o, s') /\ srep s' v' fl' /\ lget hart_of s' = lget hart_of s /\
    in_cache v' i a /\ o ∈ slots a (obj_size c) /\ ~ live (kmalloc_caches s) v fl o /\
    (exists c', kmalloc_caches s' !! i = Some c' /\ obj_size c' = obj_size c) /\
    forall p, live (kmalloc_caches s') v' fl' p <-> live (kmalloc_caches s) v fl p \/ p = o.
Proof.
  intros [Hr Hlk Hok Hpu Hfr] Hc Hroom. pose proof (fa_ok_hart _ Hok) as Hh. set (h := lget hart_of s).
  destruct (fa_set_hart (sl_pmm s) (masked h) Hok) as (Hok0 & Hfr0 & Hu0); [done|].
  set (s0 := lset hart_of (masked h) s). set (cs0 := <[i := set_cache_lock (held h (cache_lock_ c)) c]> (kmalloc_caches s)).
  assert (crep (headers s) (objs s) cs0 v fl) as Hr0 by (by apply crep_lock).
  destruct (pick_spec s0 (headers s) (objs s) cs0 v fl i _ Hr0 (lookup_insert_eq _ _ _)) as (a & s1 & v1 & fl1 & E1 & [P1 [L P2] P3 P4 P5 P6 P7 P8]); try done.
  { by apply (pages_used_iff (sl_pmm s) _ v v). }
  { change (fa_frames (lset hart_of (masked h) (sl_pmm s)) <= 2 ^ 35). by rewrite Hfr0. }
  destruct (same_caches_lookup _ _ i _ P3 (lookup_insert_eq _ _ _)) as (c1 & Hc1 & Es1 & El1). cbn [obj_size cache_lock_ set_cache_lock] in Es1, El1.
  destruct (take_spec s1 (headers s1) (objs s1) (kmalloc_caches s1) v1 fl1 i c1 a L P1 Hc1 P2) as (o & l' & hd' & cs' & v' & Hfl & E2 & Hr2 & Hcs2 & Hin2).
  rewrite mks_id in E2. set (s2 := mks s1 hd' (objs s1) cs').
  destruct (same_caches_lookup _ _ i _ Hcs2 Hc1) as (c2 & Hc2 & Es2 & El2).
  assert (in_cache v1 i a) as Hina by (exists Partial; rewrite P2; by left).
  destruct (free_facts _ _ _ _ _ _ _ _ P1 Hc1 Hina) as [_ Hfree]. destruct (Hfree o) as [Hslot Hnl]; [rewrite Hfl; by left|].
  assert (forall j, obj_size <$> cs0 !! j = obj_size <$> kmalloc_caches s !! j) as Hsz0.
  { intros j. unfold cs0. destruct (decide (j = i)) as [->|]; [by rewrite lookup_insert_eq, Hc|by rewrite lookup_insert_ne]. }
  assert (forall p, live (kmalloc_caches s1) v1 fl1 p <-> live (kmalloc_caches s) v fl p) as Hlive1.
  { intros p. rewrite P8. by apply live_ext. }
  destruct (outside_srep s i c2 s2 v' (fset a l' fl1)) as [Hsr Hh2]; try done.
  { intros j d Hj Hji. pose proof (Hcs2 j) as Ej. pose proof (P3 j) as Ej'. change (kmalloc_caches s2 !! j) with (cs' !! j) in Hj.
    rewrite Hj in Ej. destruct (kmalloc_caches s1 !! j) as [d1|]; [|done]. unfold cs0 in Ej'. rewrite lookup_insert_ne in Ej' by done.
    destruct (kmalloc_caches s !! j) as [d0|] eqn:E0; [|done]. simpl in Ej, Ej'. injection Ej as _ Ej. injection Ej' as _ Ej'.
    rewrite Ej, Ej'. by apply (Hlk j d0). }
  { rewrite El2, El1. by apply released_free, (Hlk i c). }
  { by apply (pages_used_iff (sl_pmm s1) _ v1 v'); [|intros j u ?; apply Hin2|]. }
  { cbn [s2 mks sl_pmm]. rewrite P6. change (fa_frames (lset hart_of (masked h) (sl_pmm s)) <= 2 ^ 35). by rewrite Hfr0. }
  exists o, a, (outside s i c2 s2), v', (fset a l' fl1). split_and!; try done.
  - apply (cache_critical _ s i c o s2 c2); try done; [by apply (Hlk i c)| |].
    + change (inside s i c) with (mks s0 (headers s) (objs s) cs0). by rewrite (bind_ok _ _ _ _ _ E1).
    + change (lget hart_of s2) with (lget hart_of s1). rewrite P5. apply lget_lset.
  - by apply Hin2.
  - by rewrite <-Es1.
  - by rewrite <-Hlive1.
  - eexists. cbn [outside kmalloc_caches]. rewrite lookup_insert_eq. split; [done|]. simpl. by rewrite Es2.
  - intros p. rewrite (live_ext cs' _ v' v' (fset a l' fl1) (fset a l' fl1)); [|..|done|done].
    + rewrite (live_take _ _ _ _ _ i c1 a o l' cs' v' P1 Hc1 Hina Hfl Hin2 (same_caches_sizes _ _ Hcs2)). by rewrite Hlive1.
    + intros j. cbn [outside kmalloc_caches s2 mks]. destruct (decide (j = i)) as [->|]; [by rewrite lookup_insert_eq, Hc2|by rewrite lookup_insert_ne].
Qed.

(** ** Release *)

Lemma length_lt_capacity a size l p :
  size ∈ cache_sizes -> NoDup l -> (forall o, o ∈ l -> o ∈ slots a size) -> p ∈ slots a size -> p ∉ l ->
  Z.of_nat (length l) < capacity size.
Proof.
  intros Hs Hnd Hl Hp Hn. destruct (size_facts size Hs) as (_ & Hcap & _).
  assert (length (p :: l) <= length (slots a size))%nat as Hle.
  { apply submseteq_length, NoDup_submseteq; [by constructor|]. intros o [->|Ho]%elem_of_cons; [done|by apply Hl]. }
  unfold slots in Hle. rewrite length_steps in Hle. simpl in Hle. lia.
Qed.

Lemma put_spec s hd ob cs v fl i c a p :
  crep hd ob cs v fl -> cs !! i = Some c -> in_cache v i a -> p ∈ slots a (obj_size c) -> p ∉ fl a ->
  exists hd' ob' cs' v', (
    x <- get_slab a ;;
    set_obj_next p (free_list x) ;;;
    upd_slab a (set_free_list p) ;;;
    upd_slab a (fun x => set_free_count (w64 (free_count x + 1)) x) ;;;
    c <- get_cache i ;;
    x <- get_slab a ;;
    if free_count x =? 1 then slab_list_remove i Full a ;;; slab_list_push i Partial a
    else if free_count x =? (4096 - sizeof_slab) / obj_size c then
      slab_list_remove i Partial a ;;; slab_list_push i Empty a
    else ret tt) (mks s hd ob cs) = Ok (tt, mks s hd' ob' cs') /\
    crep hd' ob' cs' v' (fset a (p :: fl a) fl) /\ same_caches cs cs' /\ (forall j u, in_cache v' j u <-> in_cache v j u).
Proof.
  intros Hr Hc [k Ha] Hp Hn. pose proof (cr_size _ _ _ _ _ Hr i c Hc) as Hsz.
  destruct (size_facts _ Hsz) as (_ & Hcap & _ & Emax).
  destruct (cr_slab _ _ _ _ _ Hr i c k a Hc Ha) as (x & Hx & [R1 R2 R3 R4 R5]).
  pose proof (cr_fill _ _ _ _ _ Hr i c k a Hc Ha) as Hfill. destruct (cr_page _ _ _ _ _ Hr i k a Ha) as [n Hpg].
  pose proof (length_lt_capacity a _ (fl a) p Hsz (chain_NoDup _ _ _ R3) R5 Hp Hn) as Hlt.
  set (y := set_free_count (w64 (free_count x + 1)) (set_free_list p x)). set (ob' := <[p := free_list x]> ob).
  assert (free_count y = Z.of_nat (length (fl a)) + 1) as Ey by (simpl; rewrite R4, w64_small; lia).
  assert (p <> NULL) as Hp0.
  { destruct (slot_bounds a n _ p Hpg Hsz Hp) as (Hb & _). destruct (page_of_eq a n Hpg) as (_ & ? & _). unfold NULL. lia. }
  assert (refill hd ob cs v fl i c k a x y ob' (p :: fl a)) as Hrf.
  { split; try done.
    - split; try done.
      + split_and!; [done|done|]. exists (free_list x). split; [apply lookup_insert_eq|].
        apply (chain_frame (fun o => ob !! o)); [|done]. intros o Ho. unfold ob'. rewrite lookup_insert_ne; [done|]. by intros ->.
      + rewrite Ey. simpl. lia.
      + intros o [->|Ho]%elem_of_cons; [done|by apply R5].
    - intros j k2 u o Hu Hne Ho. unfold ob'. rewrite lookup_insert_ne; [done|]. intros <-.
      destruct (cs !! j) as [d|] eqn:Hj; [|rewrite (lr_none _ _ _ (cr_lists _ _ _ _ _ Hr) j k2 Hj) in Hu; by apply not_elem_of_nil in Hu].
      destruct (cr_slab _ _ _ _ _ Hr j d k2 u Hj Hu) as (z & _ & [_ _ _ _ T5]). destruct (cr_page _ _ _ _ _ Hr j k2 u Hu) as [m Hm].
      by apply (slots_apart u a m n (obj_size d) (obj_size c) p p Hm Hpg (cr_size _ _ _ _ _ Hr j d Hj) Hsz (T5 p Ho) Hp Hne). }
  rewrite (get_slab_bind _ _ _ _ a x _ Hx), set_obj_bind, (upd_slab_bind _ _ _ _ a x _ _ Hx).
  rewrite (upd_slab_bind _ _ _ _ a _ _ _ (lookup_insert_eq _ _ _)), insert_insert_eq, (get_cache_bind _ _ _ _ i c _ Hc).
  rewrite (get_slab_bind _ _ _ _ a y _ (lookup_insert_eq _ _ _)), Emax.
  change (mks s _ _ cs) with (mks s (<[a := y]> hd) ob' cs).
  destruct (list_elem_of_split _ _ Ha) as (l1 & l2 & Hv). rewrite Ey.
  destruct (Z.eqb_spec (Z.of_nat (length (fl a)) + 1) 1) as [E1|E1].
  - assert (k = Full) as -> by (destruct k; simpl in Hfill; [lia|done|lia]).
    destruct (refill_move s hd ob cs v fl i c Full Partial l1 a l2 x y ob' _ Hrf Hv ltac:(done)) as (hd' & cs' & E & Hr' & Hcs); [simpl; lia|].
    exists hd', ob', cs', (moved i Full (l1 ++ l2) Partial a v). split_and!; try done. intros j u. by apply moved_cache.
  - assert (k = Partial) as -> by (destruct k; simpl in Hfill; [done|lia|lia]).
    destruct (Z.eqb_spec (Z.of_nat (length (fl a)) + 1) (capacity (obj_size c))) as [E2|E2].
    + destruct (refill_move s hd ob cs v fl i c Partial Empty l1 a l2 x y ob' _ Hrf Hv ltac:(done)) as (hd' & cs' & E & Hr' & Hcs); [simpl; lia|].
      exists hd', ob', cs', (moved i Partial (l1 ++ l2) Empty a v). split_and!; try done. intros j u. by apply moved_cache.
    + exists (<[a := y]> hd), ob', cs, v. split_and!; try done.
      apply (refill_stay hd ob cs v fl i c Partial a x y ob' _ Hrf). simpl. lia.
Qed.

Lemma live_put hd ob cs v fl i c a p cs' v' :
  crep hd ob cs v fl -> cs !! i = Some c -> in_cache v i a -> p ∈ slots a (obj_size c) ->
  (forall j u, in_cache v' j u <-> in_cache v j u) -> (forall j, obj_size <$> cs' !! j = obj_size <$> cs !! j) ->
  forall q, live cs' v' (fset a (p :: fl a) fl) q <-> live cs v fl q /\ q <> p.
Proof.
  intros Hr Hc Ha Hp Hv Hs q. rewrite (live_ext cs cs' v v' (fset a (p :: fl a) fl)); [|done|done|done].
  unfold live, fset. split.
  - intros (j & d & u & Hd & [k Hu] & Hq & Hn). destruct (decide (u = a)) as [->|Hne].
    + rewrite not_elem_of_cons in Hn. split; [|tauto]. exists j, d, a. split_and!; try done; [by exists k|tauto].
    + split; [exists j, d, u; split_and!; try done; by exists k|]. destruct Ha as [k2 Ha].
      destruct (cr_page _ _ _ _ _ Hr j k u Hu) as [m Hm]. destruct (cr_page _ _ _ _ _ Hr i k2 a Ha) as [n Hpn].
      exact (slots_apart u a m n (obj_size d) (obj_size c) q p Hm Hpn (cr_size _ _ _ _ _ Hr j d Hd) (cr_size _ _ _ _ _ Hr i c Hc) Hq Hp Hne).
  - intros [(j & d & u & Hd & Hu & Hq & Hn) Hqp]. exists j, d, u. split_and!; try done.
    case_decide; [|done]. subst u. rewrite not_elem_of_cons. tauto.
Qed.

Lemma free_spec s v fl i c a p :
  srep s v fl -> kmalloc_caches s !! i = Some c -> in_cache v i a -> p ∈ slots a (obj_size c) -> p ∉ fl a ->
  exists s' v' fl', slab_cache_free i p s = Ok (tt, s') /\ srep s' v' fl' /\ lget hart_of s' = lget hart_of s /\
    forall q, live (kmalloc_caches s') v' fl' q <-> live (kmalloc_caches s) v fl q /\ q <> p.
Proof.
  intros [Hr Hlk Hok Hpu Hfr] Hc Ha Hp Hn. pose proof (fa_ok_hart _ Hok) as Hh. set (h := lget hart_of s).
  destruct (fa_set_hart (sl_pmm s) (masked h) Hok) as (Hok0 & Hfr0 & Hu0); [done|].
  set (s0 := lset hart_of (masked h) s). set (cs0 := <[i := set_cache_lock (held h (cache_lock_ c)) c]> (kmalloc_caches s)).
  assert (crep (headers s) (objs s) cs0 v fl) as Hr0 by (by apply crep_lock).
  assert (get_slab_from_ptr p = a) as Eptr.
  { destruct Ha as [k Ha]. destruct (cr_page _ _ _ _ _ Hr i k a Ha) as [n Hpg].
    by apply (slot_bounds a n (obj_size c) p Hpg (cr_size _ _ _ _ _ Hr i c Hc)). }
  destruct (put_spec s0 (headers s) (objs s) cs0 v fl i _ a p Hr0 (lookup_insert_eq _ _ _) Ha Hp Hn) as (hd' & ob' & cs' & v' & E & Hr' & Hcs & Hin).
  destruct (same_caches_lookup _ _ i _ Hcs (lookup_insert_eq _ _ _)) as (c' & Hc' & Es & El). cbn [obj_size cache_lock_ set_cache_lock] in Es, El.
  assert (forall j, obj_size <$> cs0 !! j = obj_size <$> kmalloc_caches s !! j) as Hsz0.
  { intros j. unfold cs0. destruct (decide (j = i)) as [->|]; [by rewrite lookup_insert_eq, Hc|by rewrite lookup_insert_ne]. }
  set (s1 := mks s0 hd' ob' cs'). destruct (outside_srep s i c' s1 v' (fset a (p :: fl a) fl)) as [Hsr Hh2]; try done.
  { intros j d Hj Hji. pose proof (Hcs j) as Ej. change (kmalloc_caches s1 !! j) with (cs' !! j) in Hj.
    rewrite Hj in Ej. unfold cs0 in Ej. rewrite lookup_insert_ne in Ej by done.
    destruct (kmalloc_caches s !! j) as [d0|] eqn:E0; [|done]. simpl in Ej. injection Ej as _ Ej. rewrite Ej. by apply (Hlk j d0). }
  { rewrite El. by apply released_free, (Hlk i c). }
  { by apply (pages_used_iff (sl_pmm s) _ v v'); [|intros j u ?; apply Hin|]. }
  { change (fa_frames (lset hart_of (masked h) (sl_pmm s)) <= 2 ^ 35). by rewrite Hfr0. }
  exists (outside s i c' s1), v', (fset a (p :: fl a) fl). split_and!; try done.
  - unfold slab_cache_free. rewrite Eptr. apply (cache_critical _ s i c tt s1 c'); try done; [by apply (Hlk i c)|].
    change (lget hart_of s1) with (lget hart_of s0). apply lget_lset.
  - intros q. rewrite (live_ext cs' _ v' v' (fset a (p :: fl a) fl) (fset a (p :: fl a) fl)); [|..|done|done].
    + rewrite (live_put _ _ _ _ _ i c a p cs' v' Hr Hc Ha Hp Hin); [done|].
      intros j. by rewrite (same_caches_sizes _ _ Hcs j), Hsz0.
    + intros j. cbn [outside kmalloc_caches s1 mks]. destruct (decide (j = i)) as [->|]; [by rewrite lookup_insert_eq, Hc'|by rewrite lookup_insert_ne].
Qed.

(** ** Start-up *)

Lemma crep_new_cache hd ob cs v fl i size :
  crep hd ob cs v fl -> cs !! i = None -> size ∈ cache_sizes ->
  crep hd ob (<[i := mkCache size NULL NULL NULL spinlock_init]> cs) v fl.
Proof.
  intros [[Hd Hdis Hn] Hsb Hf Hsz Hpg] Hi Hs.
  assert (forall j k u, u ∈ v j k -> j <> i) as Hne.
  { intros j k u Hu ->. rewrite Hn in Hu by done. by apply not_elem_of_nil in Hu. }
  split; [split|..].
  - intros j c k. destruct (decide (j = i)) as [->|]; [|by rewrite lookup_insert_ne; [apply Hd|]].
    rewrite lookup_insert_eq. intros [= <-]. rewrite Hn by done. by destruct k; split; [|constructor..].
  - done.
  - intros j k Hj. apply Hn. destruct (decide (j = i)) as [->|]; [done|]. by rewrite lookup_insert_ne in Hj.
  - intros j c k a Hj Ha. rewrite lookup_insert_ne in Hj by (intros ->; by eapply Hne). by apply (Hsb j c k).
  - intros j c k a Hj Ha. rewrite lookup_insert_ne in Hj by (intros ->; by eapply Hne). by apply (Hf j c k).
  - intros j c. destruct (decide (j = i)) as [->|]; [rewrite lookup_insert_eq; by intros [= <-]|].
    rewrite lookup_insert_ne by done. by apply Hsz.
  - done.
Qed.

Lemma live_new_cache cs v fl i c : cs !! i = None -> (forall k, v i k = []) ->
  forall p, live (<[i := c]> cs) v fl p <-> live cs v fl p.
Proof.
  intros Hi Hv p. split; intros (j & d & a & Hd & Ha & Hp & Hn); exists j, d, a; split_and!; try done.
  - destruct (decide (j = i)) as [->|]; [destruct Ha as [k Ha]; rewrite Hv in Ha; by apply not_elem_of_nil in Ha|].
    by rewrite lookup_insert_ne in Hd.
  - rewrite lookup_insert_ne; [done|]. intros ->. congruence.
Qed.

Definition cache_core (c : slab_cache) : Z * spinlock := (obj_size c, cache_lock_ c).

Lemma init_spec ids s v fl :
  srep s v fl -> NoDup ids -> (forall i, i ∈ ids -> 0 <= i < 8 /\ kmalloc_caches s !! i = None) ->
  allocs (length ids) (sl_pmm s) ->
  exists s' v' fl', mapM_ (fun i =>
      modify (fun s => set_caches (<[i := mkCache (nth (Z.to_nat i) cache_sizes 0) NULL NULL NULL spinlock_init]>
        (kmalloc_caches s)) s) ;;; slab_grow i) ids s = Ok (tt, s') /\ srep s' v' fl' /\
    (forall i, i ∈ ids -> exists a, cache_core <$> kmalloc_caches s' !! i = Some (nth (Z.to_nat i) cache_sizes 0, spinlock_init) /\
       v' i Empty = [a] /\ v' i Partial = [] /\ v' i Full = []) /\
    (forall i, i ∉ ids -> cache_core <$> kmalloc_caches s' !! i = cache_core <$> kmalloc_caches s !! i /\ forall k, v' i k = v i k) /\
    forall p, live (kmalloc_caches s') v' fl' p <-> live (kmalloc_caches s) v fl p.
Proof.
  revert s v fl. induction ids as [|i ids IH]; intros s v fl Hs Hnd His Hal.
  { exists s, v, fl. split_and!; try done. by intros i ?%not_elem_of_nil. }
  apply NoDup_cons in Hnd as [Hni Hnd]. destruct (His i) as [Hi Hnone]; [by left|]. destruct Hal as (r & f' & Ea & Hr0 & Hal).
  destruct Hs as [Hr Hlk Hok Hpu Hfr]. set (size := nth (Z.to_nat i) cache_sizes 0).
  assert (size ∈ cache_sizes) as Hsz by (unfold size; apply list_elem_of_In, nth_In; simpl; lia).
  set (c0 := mkCache size NULL NULL NULL spinlock_init). set (cs0 := <[i := c0]> (kmalloc_caches s)).
  pose proof (fa_alloc_spec (sl_pmm s) Hok) as Hspec. unfold wp in Hspec. rewrite Ea in Hspec.
  destruct Hspec as (Hok' & Hh' & Hfr' & [[-> _]|(n & -> & Hn & Hle & Hfree & Hused')]); [done|].
  assert (page_of (phys_to_virt (n * PAGE_SIZE)) n) as Hpg by (split; [lia|done]).
  assert (forall k, v i k = []) as Hvi by (intros k; by apply (lr_none _ _ _ (cr_lists _ _ _ _ _ Hr))).
  destruct (grow_spec s (headers s) (objs s) cs0 v fl i c0 n f' (crep_new_cache _ _ _ _ _ i size Hr Hnone Hsz)
    (lookup_insert_eq _ _ _) Hpu Hpg (Hfree n ltac:(lia)) Ea) as (hd1 & ob1 & cs1 & E1 & Hr1 & Hcs1).
  set (virt := phys_to_virt (n * PAGE_SIZE)) in *. set (s1 := mkSlabs f' hd1 ob1 cs1).
  set (v1 := view_set i Empty (virt :: v i Empty) v) in *. set (fl1 := fset virt (slots virt (obj_size c0)) fl) in *.
  assert (forall j, cache_core <$> cs1 !! j = cache_core <$> cs0 !! j) as Hcore by exact Hcs1.
  assert (forall j k, virt ∉ v j k) as Hnew.
  { intros j k Hin. pose proof (Hpu j k virt n Hin Hpg) as Hu. rewrite (Hfree n) in Hu by lia. done. }
  assert (srep s1 v1 fl1) as Hs1.
  { split; [done| |done| |by rewrite <-Hfr' in Hfr].
    - intros j d Hj. pose proof (Hcore j) as Ej. change (kmalloc_caches s1) with cs1 in Hj. rewrite Hj in Ej. unfold cs0 in Ej.
      destruct (decide (j = i)) as [->|]; [rewrite lookup_insert_eq in Ej|rewrite lookup_insert_ne in Ej by done].
      + injection Ej as _ ->. done.
      + destruct (kmalloc_caches s !! j) as [d0|] eqn:E0; [|done]. injection Ej as _ ->. by apply (Hlk j d0).
    - intros j k u m Hin Hm. cbn [s1 sl_pmm]. rewrite Hused'. unfold v1, view_set in Hin. case_decide; destruct_and?; subst.
      + rewrite Hvi in Hin. apply list_elem_of_singleton in Hin as ->. rewrite (page_of_det virt m n Hm Hpg).
        rewrite (proj2 (Z.leb_le n n)), (proj2 (Z.ltb_lt _ _)) by lia. done.
      + rewrite (Hpu j k u m Hin Hm). apply orb_true_r. }
  destruct (IH s1 v1 fl1 Hs1 Hnd) as (s' & v' & fl' & E & Hs' & Hin & Hout & Hlive); [|done|].
  { intros j Hj. destruct (His j) as [Hj8 Hjn]; [by right|]. split; [done|]. pose proof (Hcore j) as Ej. unfold cs0 in Ej.
    rewrite lookup_insert_ne, Hjn in Ej by (intros ->; done). change (kmalloc_caches s1) with cs1. by destruct (cs1 !! j). }
  exists s', v', fl'. split_and!; [|done|..].
  - cbn [mapM_]. unfold bind at 1. unfold bind at 1, modify at 1.
    change (set_caches _ s) with (mks s (headers s) (objs s) cs0). by rewrite E1.
  - intros j [->|Hj]%elem_of_cons; [|by apply Hin]. destruct (Hout i Hni) as [Ec Ev]. exists virt. rewrite Ec, !Ev.
    change (kmalloc_caches s1) with cs1. rewrite Hcore. unfold cs0. rewrite lookup_insert_eq. unfold v1.
    rewrite view_set_eq, !view_set_ne by (intros [_ [=]]). by rewrite !Hvi.
  - intros j Hj. rewrite not_elem_of_cons in Hj. destruct Hj as [Hji Hj]. destruct (Hout j Hj) as [Ec Ev]. split.
    + rewrite Ec. change (kmalloc_caches s1) with cs1. rewrite Hcore. unfold cs0. by rewrite lookup_insert_ne.
    + intros k. rewrite Ev. unfold v1. by rewrite view_set_ne by tauto.
  - intros p. rewrite Hlive. change (kmalloc_caches s1) with cs1.
    rewrite (live_ext cs0 cs1 v1 v1 fl1 fl1); [|by apply same_caches_sizes|done|done].
    etrans; [apply (live_grown cs0 v fl i c0 virt (lookup_insert_eq _ _ _) Hnew)|by apply live_new_cache].
    intros j Hj k. apply (lr_none _ _ _ (cr_lists _ _ _ _ _ Hr)). unfold cs0 in Hj.
      destruct (decide (j = i)) as [->|]; [done|]. by rewrite lookup_insert_ne in Hj.
Qed.

(** ** Correctness *)

(** Two different slots do not overlap. *)
Lemma slots_disjoint hd ob cs v fl i c a j d b p q :
  crep hd ob cs v fl -> cs !! i = Some c -> in_cache v i a -> p ∈ slots a (obj_size c) ->
  cs !! j = Some d -> in_cache v j b -> q ∈ slots b (obj_size d) -> p <> q ->
  p + obj_size c <= q \/ q + obj_size d <= p.
Proof.
  intros Hr Hc Ha Hp Hd Hb Hq Hpq. pose proof (cr_size _ _ _ _ _ Hr i c Hc) as Hsc. pose proof (cr_size _ _ _ _ _ Hr j d Hd) as Hsd.
  destruct (decide (a = b)) as [->|Hab].
  - pose proof (in_cache_inj _ _ _ _ _ _ (cr_lists _ _ _ _ _ Hr) Ha Hb) as ->. rewrite Hc in Hd. injection Hd as <-.
    destruct (size_facts _ Hsc) as (Hsz & _). apply elem_of_steps in Hp as (k & _ & ->). apply elem_of_steps in Hq as (l & _ & ->).
    destruct (Z.lt_total k l) as [?|[->|?]]; [left; nia|done|right; nia].
  - destruct Ha as [k Ha], Hb as [l Hb]. destruct (cr_page _ _ _ _ _ Hr i k a Ha) as [m Hm]. destruct (cr_page _ _ _ _ _ Hr j l b Hb) as [n Hn].
    destruct (slot_bounds a m _ p Hm Hsc Hp) as (A1 & A2 & _). destruct (slot_bounds b n _ q Hn Hsd Hq) as (B1 & B2 & _).
    destruct (page_of_eq a m Hm) as (Ea & _). destruct (page_of_eq b n Hn) as (Eb & _). lia.
Qed.

(** C12: [slab_cache_alloc] hands out one fresh object. When the cache has a
    slab with a free object, or the frame allocator has a frame for a new
    slab, it returns an object of a slab of this cache that was not handed out
    before; exactly this object joins the live ones, it overlaps no object of any
    cache, and the caches' lists, free lists, counts and locks are consistent
    again. *)
Theorem slab_cache_alloc_correct s v fl i c :
  srep s v fl -> kmalloc_caches s !! i = Some c -> room s v i ->
  exists o a s' v' fl', slab_cache_alloc i s = Ok (o, s') /\ srep s' v' fl' /\ lget hart_of s' = lget hart_of s /\
    in_cache v' i a /\ o ∈ slots a (obj_size c) /\
    ~ live (kmalloc_caches s) v fl o /\
    (forall p, live (kmalloc_caches s') v' fl' p <-> live (kmalloc_caches s) v fl p \/ p = o) /\
    (forall j d b q, kmalloc_caches s' !! j = Some d -> in_cache v' j b -> q ∈ slots b (obj_size d) -> q <> o ->
       o + obj_size c <= q \/ q + obj_size d <= o).
Proof.
  intros Hs Hc Hroom. destruct (alloc_spec s v fl i c Hs Hc Hroom) as (o & a & s' & v' & fl' & E & Hs' & Hh & Ha & Ho & Hnl & (c' & Hc' & Ec) & Hl).
  exists o, a, s', v', fl'. split_and!; try done. intros j d b q Hd Hb Hq Hqo. rewrite <-Ec. rewrite <-Ec in Ho.
  exact (slots_disjoint _ _ _ _ _ i c' a j d b o q (sr_crep _ _ _ Hs') Hc' Ha Ho Hd Hb Hq (not_eq_sym Hqo)).
Qed.

(** [slab_free] takes exactly the given live object back: it finds the
    object's slab and cache from the address alone, the object leaves the
    live ones and no other does, and it never panics on a live object. *)
Theorem slab_free_correct s v fl p :
  srep s v fl -> live (kmalloc_caches s) v fl p ->
  exists s' v' fl', slab_free p s = Ok (tt, s') /\ srep s' v' fl' /\ lget hart_of s' = lget hart_of s /\
    forall q, live (kmalloc_caches s') v' fl' q <-> live (kmalloc_caches s) v fl q /\ q <> p.
Proof.
  intros Hs (i & c & a & Hc & Ha & Hp & Hn). pose proof (sr_crep _ _ _ Hs) as Hr.
  destruct (free_spec s v fl i c a p Hs Hc Ha Hp Hn) as (s' & v' & fl' & E & Hs' & Hh & Hl).
  exists s', v', fl'. split_and!; try done. destruct Ha as [k Ha]. destruct (cr_page _ _ _ _ _ Hr i k a Ha) as [n Hpg].
  destruct (slot_bounds a n _ p Hpg (cr_size _ _ _ _ _ Hr i c Hc) Hp) as (Hb & _ & Eptr).
  destruct (page_of_eq a n Hpg) as (_ & Ha0 & _). destruct (cr_slab _ _ _ _ _ Hr i c k a Hc Ha) as (x & Hx & [R1 R2 _ _ _]).
  unfold slab_free. rewrite (proj2 (Z.eqb_neq _ _)) by (unfold NULL; lia). rewrite Eptr, <-(mks_id s), (get_slab_bind _ _ _ _ a x _ Hx).
  rewrite R1, Z.eqb_refl, R2, mks_id. exact E.
Qed.

Lemma slab_init_spec s :
  headers s = ∅ -> objs s = ∅ -> kmalloc_caches s = ∅ -> fa_ok (sl_pmm s) -> fa_frames (sl_pmm s) <= 2 ^ 35 ->
  allocs 8 (sl_pmm s) ->
  exists s' v' fl', slab_init s = Ok (tt, s') /\ srep s' v' fl' /\
    (forall i, 0 <= i < 8 -> exists c a, kmalloc_caches s' !! i = Some c /\ obj_size c = nth (Z.to_nat i) cache_sizes 0 /\
       v' i Empty = [a] /\ v' i Partial = [] /\ v' i Full = []) /\
    forall p, ~ live (kmalloc_caches s') v' fl' p.
Proof.
  intros E1 E2 E3 Hok Hfr Hal.
  assert (srep s (fun _ _ => []) (fun _ => [])) as Hs.
  { split; [|rewrite E3; apply map_Forall_empty|done|by intros i k a n ?%not_elem_of_nil|done]. rewrite E1, E2, E3. split; [split|..].
    - by intros i c k ?%lookup_empty_Some.
    - by intros i k j k' a ?%not_elem_of_nil.
    - done.
    - by intros i c k a ?%lookup_empty_Some.
    - by intros i c k a ?%lookup_empty_Some.
    - by intros i c ?%lookup_empty_Some.
    - by intros i k a ?%not_elem_of_nil. }
  destruct (init_spec (seqZ 0 NUM_KMALLOC_CACHES) s _ _ Hs) as (s' & v' & fl' & E & Hs' & Hin & _ & Hl); [apply NoDup_seqZ| |done|].
  { intros i Hi. apply elem_of_seqZ in Hi. unfold NUM_KMALLOC_CACHES in Hi. split; [lia|]. by rewrite E3. }
  exists s', v', fl'. split_and!; try done.
  - intros i Hi. destruct (Hin i) as (a & Ec & Hv); [apply elem_of_seqZ; unfold NUM_KMALLOC_CACHES; lia|].
    destruct (kmalloc_caches s' !! i) as [c|]; [|done]. exists c, a. split; [done|]. split; [|done]. apply (inj Some) in Ec. exact (f_equal fst Ec).
  - intros p Hp. apply Hl in Hp as (i & c & a & _ & [k Ha] & _). by apply not_elem_of_nil in Ha.
Qed.

(** [slab_init] leaves eight caches, one per size class, each with one
    empty slab and nothing handed out, when eight frames can be allocated. *)
Theorem slab_init_correct s :
  headers s = ∅ -> objs s = ∅ -> kmalloc_caches s = ∅ -> fa_ok (sl_pmm s) -> fa_frames (sl_pmm s) <= 2 ^ 35 ->
  allocs 8 (sl_pmm s) ->
  exists s' v' fl', slab_init s = Ok (tt, s') /\ srep s' v' fl' /\
    (forall i, 0 <= i < 8 -> exists c a, kmalloc_caches s' !! i = Some c /\ obj_size c = nth (Z.to_nat i) cache_sizes 0 /\
       v' i Empty = [a] /\ v' i Partial = [] /\ v' i Full = []) /\
    forall p, ~ live (kmalloc_caches s') v' fl' p.
Proof. apply slab_init_spec. Qed.

(** [slab_grow] does not notice that there is no frame: given the null
    result of the frame allocator it builds its slab all the same, at the
    direct map's address of physical page zero. *)
Theorem slab_grow_ignores_oom s i c f' :
  kmalloc_caches s !! i = Some c -> obj_size c ∈ cache_sizes -> empty_slabs c = NULL ->
  fa_alloc (sl_pmm s) = Ok (NULL, f') ->
  exists s' x c', slab_grow i s = Ok (tt, s') /\ headers s' !! HHDM_OFFSET = Some x /\ magic x = SLAB_MAGIC /\
    kmalloc_caches s' !! i = Some c' /\ empty_slabs c' = HHDM_OFFSET.
Proof.
  intros Hc Hs He Ea. destruct (size_facts _ Hs) as (Hsz & Hcap & Hcs & _).
  set (virt := HHDM_OFFSET). set (s1 := mkSlabs f' (headers s) (objs s) (kmalloc_caches s)).
  set (h0 := mkSlab SLAB_MAGIC i (virt + 64) (capacity (obj_size c)) (match headers s !! virt with Some x => s_next x | None => 0 end)
    (match headers s !! virt with Some x => s_prev x | None => 0 end)).
  destruct (link_all (Z.to_nat (capacity (obj_size c) - 1)) (obj_size c) s1 (<[virt := h0]> (headers s)) (objs s) (kmalloc_caches s) (virt + 64))
    as (ob' & E2 & _); [done|lia|unfold virt, HHDM_OFFSET; nia|].
  destruct (push_run s1 (<[virt := h0]> (headers s)) ob' (kmalloc_caches s) i Empty c virt h0 [] Hc) as (hd2 & E3 & Hx2 & _).
  { simpl. rewrite He. split; [done|constructor]. }
  { apply not_elem_of_nil. }
  { apply lookup_insert_eq. }
  exists (mks s1 hd2 ob' (<[i := set_list Empty virt c]> (kmalloc_caches s))). eexists _, _. split_and!; [|exact Hx2|done|apply lookup_insert_eq|done].
  unfold slab_grow, on_pmm. unfold bind at 1. rewrite Ea. rewrite <-(mks_id s). change (set_sl_pmm f' _) with (mks s1 (headers s) (objs s) (kmalloc_caches s)).
  change (phys_to_virt NULL) with virt. rewrite (get_cache_bind _ _ _ _ i c _ Hc).
  change (Z.land _ _) with (virt + 64). change (w64 (w64 (virt + 4096) - (virt + 64))) with 4032. fold (capacity (obj_size c)).
  rewrite w64_small by lia. unfold bind at 1, modify at 1. change (set_headers _ (mks s1 _ _ _)) with (mks s1 (<[virt := h0]> (headers s)) (objs s) (kmalloc_caches s)).
  unfold bind in E2 |- *. destruct (link_objs _ _ (virt + 64) _) as [[curr s2]| | |]; try done. rewrite E2. exact E3.
Qed.
End spec.
