(* ===== verification/SlabDemo.v ===== *)
(** * A concrete slab allocator

    The slab allocator started on the physical memory manager of [Pmm], with
    64 frames: the states its theorems are instantiated at. *)

From S2P Require Import Prelude Lock Boot Frames Pmm Chain Dll Slab SlabProof SlabSpec.

(** 64 frames of which the first three are taken, and the same with none free. *)
Definition frames64 : pmm :=
  mkPmm (mkHart 0x200 (Some 0) true) spinlock_init 0xFFFF800000100000 [0x07; 0; 0; 0; 0; 0; 0; 0] 8 ∅.
Definition no_frames : pmm :=
  mkPmm (mkHart 0x200 (Some 0) true) spinlock_init 0xFFFF800000100000 [0xFF; 0xFF; 0xFF; 0xFF; 0xFF; 0xFF; 0xFF; 0xFF] 8 ∅.

Definition cold : slabs pmm := mkSlabs frames64 ∅ ∅ ∅.
Definition booted : slabs pmm := match slab_init cold with Ok (_, s) => s | _ => cold end.

Lemma frames64_ok : fa_ok (sl_pmm cold).
Proof. change (pmm_ok frames64). by_decide. Qed.

Lemma cold_allocs : allocs 8 (sl_pmm cold).
Proof. do 8 (eapply allocs_step; [vm_compute; reflexivity|done|]). exact I. Qed.

Lemma slab_init_correct_witness :
  exists s' v' fl', slab_init cold = Ok (tt, s') /\ srep s' v' fl'.
Proof.
  destruct (slab_init_correct cold eq_refl eq_refl eq_refl frames64_ok ltac:(by_decide) cold_allocs) as (s' & v' & fl' & E & Hs & _).
  exists s', v', fl'. exact (conj E Hs).
Defined.

Lemma booted_ok : exists v fl, srep booted v fl /\ v 2 Empty <> [].
Proof.
  destruct (slab_init_spec cold eq_refl eq_refl eq_refl frames64_ok ltac:(by_decide) cold_allocs) as (s' & v' & fl' & E & Hs & Hin & _).
  exists v', fl'. unfold booted. rewrite E. clear E. split; [exact Hs|].
  destruct (Hin 2 ltac:(lia)) as (c & a & _ & _ & Ev & _). rewrite Ev. discriminate.
Qed.

Definition cache2 : slab_cache := default (mkCache 0 0 0 0 spinlock_init) (kmalloc_caches booted !! 2).

Lemma cache2_eq : kmalloc_caches booted !! 2 = Some cache2.
Proof. vm_compute. reflexivity. Qed.

Lemma slab_cache_alloc_correct_witness :
  exists o s' v' fl', slab_cache_alloc 2 booted = Ok (o, s') /\ srep s' v' fl'.
Proof.
  destruct booted_ok as (v & fl & Hs & Hv).
  destruct (slab_cache_alloc_correct booted v fl 2 cache2 Hs cache2_eq (or_intror (or_introl Hv))) as (o & a & s' & v' & fl' & E & Hs' & _).
  exists o, s', v', fl'. exact (conj E Hs').
Defined.

Lemma slab_free_correct_witness :
  exists o s1 s2 v2 fl2, slab_cache_alloc 2 booted = Ok (o, s1) /\ slab_free o s1 = Ok (tt, s2) /\ srep s2 v2 fl2.
Proof.
  destruct booted_ok as (v & fl & Hs & Hv).
  destruct (alloc_spec booted v fl 2 cache2 Hs cache2_eq (or_intror (or_introl Hv)))
    as (o & a & s1 & v1 & fl1 & E & Hs1 & _ & _ & _ & _ & _ & Hl).
  destruct (slab_free_correct s1 v1 fl1 o Hs1 (proj2 (Hl o) (or_intror eq_refl))) as (s2 & v2 & fl2 & E2 & Hs2 & _).
  exists o, s1, s2, v2, fl2. exact (conj E (conj E2 Hs2)).
Defined.

Definition starved : slabs pmm := mkSlabs no_frames ∅ ∅ {[ 0 := mkCache 16 NULL NULL NULL spinlock_init ]}.

Lemma slab_grow_ignores_oom_witness :
  exists s' x, slab_grow 0 starved = Ok (tt, s') /\ headers s' !! HHDM_OFFSET = Some x /\ magic x = SLAB_MAGIC.
Proof.
  destruct (slab_grow_ignores_oom starved 0 (mkCache 16 NULL NULL NULL spinlock_init)
    (match fa_alloc (sl_pmm starved) with Ok (_, f) => f | _ => no_frames end)
    ltac:(vm_compute; reflexivity) ltac:(by_decide) eq_refl ltac:(vm_compute; reflexivity)) as (s' & x & c' & E & Hx & Hm & _).
  exists s', x. exact (conj E (conj Hx Hm)).
Defined.
