(* ===== verification/Kmalloc.v ===== *)
(** * The kernel heap

    Models [kernel/memory/kmalloc.c] and [kernel/include/memory/kmalloc.h] on
    top of the slab allocator ([Slab]) and the frame allocator ([Frames]).

    - [blocks] holds the block headers by address; the heap is the doubly
      linked list of headers that starts at [heap_start], in no particular
      address order. A header that a merge has absorbed stays in memory until
      somebody writes over it.
    - Of the payload only the 32-bit words at page boundaries are kept
      ([page_words]), because [kfree] inspects the first word of the page of
      the pointer it is given. *)

From S2P Require Import Prelude Lock Frames Chain Dll Slab.

Definition KMALLOC_MAGIC : Z := 0xCAFEBABE.
Definition HEAP_MIN_BLOCK_SIZE : Z := 16.

(** [m_header_t] *)
Record m_header := mkHeader {
  m_magic : Z;
  m_size : Z;
  is_free : Z;
  m_next : Z;
  m_prev : Z;
}.
Definition sizeof_m_header : Z := 40.

Definition set_m_size (v : Z) (h : m_header) : m_header := mkHeader (m_magic h) v (is_free h) (m_next h) (m_prev h).
Definition set_is_free (v : Z) (h : m_header) : m_header := mkHeader (m_magic h) (m_size h) v (m_next h) (m_prev h).
Definition set_m_next (v : Z) (h : m_header) : m_header := mkHeader (m_magic h) (m_size h) (is_free h) v (m_prev h).
Definition set_m_prev (v : Z) (h : m_header) : m_header := mkHeader (m_magic h) (m_size h) (is_free h) (m_next h) v.

Section kmalloc.
Context {F : Type} `{FrameAllocator F}.

Record kheap := mkKheap {
  km_slab : slabs F;
  blocks : gmap Z m_header;
  heap_start : Z;
  heap_lock_ : spinlock;
  page_words : gmap Z Z;
}.

Definition set_km_slab (v : slabs F) (k : kheap) : kheap :=
  mkKheap v (blocks k) (heap_start k) (heap_lock_ k) (page_words k).
Definition set_blocks (v : gmap Z m_header) (k : kheap) : kheap :=
  mkKheap (km_slab k) v (heap_start k) (heap_lock_ k) (page_words k).
Definition set_heap_start (v : Z) (k : kheap) : kheap :=
  mkKheap (km_slab k) (blocks k) v (heap_lock_ k) (page_words k).
Definition set_page_words (v : gmap Z Z) (k : kheap) : kheap :=
  mkKheap (km_slab k) (blocks k) (heap_start k) (heap_lock_ k) v.

#[export] Instance kheap_hart : HasHart kheap :=
  Lens (fun k => lget hart_of (km_slab k)) (fun h k => set_km_slab (lset hart_of h (km_slab k)) k).
Definition heap_lock : lens kheap spinlock := Lens heap_lock_
  (fun l k => mkKheap (km_slab k) (blocks k) (heap_start k) l (page_words k)).
#[export] Instance heap_lock_ok : LensOk heap_lock.
Proof. split; intros; try destruct s; done. Qed.
#[export] Instance heap_lock_indep : LensIndep heap_lock hart_of.
Proof. by split. Qed.

(** A routine of the slab allocator, and one of the frame allocator. *)
Definition on_slab {A} (m : M (slabs F) A) : M kheap A := fun k =>
  match m (km_slab k) with
  | Ok (a, s) => Ok (a, set_km_slab s k)
  | Fault => Fault
  | Panic => Panic
  | Hang => Hang
  end.

(** ** Access *)

Definition get_block (a : Z) : M kheap m_header := m <- gets blocks ;; deref (m !! a).
Definition put_block (a : Z) (h : m_header) : M kheap unit := modify (fun k => set_blocks (<[a := h]> (blocks k)) k).
Definition upd_block (a : Z) (f : m_header -> m_header) : M kheap unit := h <- get_block a ;; put_block a (f h).

Definition in_range (p len a : Z) : bool := (p <=? a) && (a <? p + len).

(** [memset(p, 0, len)]: no header and no payload word survives there *)
Definition memset0 (p len : Z) : M kheap unit := modify (fun k =>
  set_page_words (filter (fun w => in_range p len w.1 = false) (page_words k))
    (set_blocks (filter (fun b => in_range p len b.1 = false) (blocks k)) k)).

(** The 32-bit word at the start of a page: a slab's magic number, a header's,
    or payload *)
Definition word_at (page : Z) : M kheap Z := fun k => Ok (
  match headers (km_slab k) !! page with
  | Some x => magic x
  | None => match blocks k !! page with Some b => m_magic b | None => rd (page_words k) page end
  end, k).

(** ** Operations *)

Definition kmalloc_init : M kheap unit :=
  first_frame <- on_slab (on_pmm fa_alloc) ;;
  if first_frame =? NULL then panic else
  let virt_addr := phys_to_virt first_frame in
  memset0 virt_addr 4096 ;;;
  modify (set_heap_start virt_addr) ;;;
  put_block virt_addr (mkHeader KMALLOC_MAGIC (4096 - sizeof_m_header) 1 NULL NULL) ;;;
  on_slab slab_init.

Definition block_fuel : M kheap nat := gets (fun k => S (size (blocks k))).

(** The search: the first free block of at least [size] bytes, or the last
    block *)
Fixpoint first_fit (fuel : nat) (size current last : Z) : M kheap (Z * Z) :=
  match fuel with
  | O => hang
  | S fuel =>
      if current =? NULL then ret (NULL, last) else
      h <- get_block current ;;
      if negb (is_free h =? 0) && (size <=? m_size h) then ret (current, last)
      else first_fit fuel size (m_next h) current
  end.

(** The block is split when the rest can hold a header and the minimum *)
Definition take_block (current size : Z) : M kheap unit :=
  h <- get_block current ;;
  when (w64 (w64 (size + sizeof_m_header) + HEAP_MIN_BLOCK_SIZE) <=? m_size h)
    (let next_block := w64 (w64 (current + sizeof_m_header) + size) in
     put_block next_block (mkHeader KMALLOC_MAGIC (w64 (w64 (m_size h - size) - sizeof_m_header)) 1 (m_next h) current) ;;;
     nb <- get_block next_block ;;
     when (negb (m_next nb =? NULL)) (upd_block (m_next nb) (set_m_prev next_block)) ;;;
     upd_block current (set_m_size size) ;;;
     upd_block current (set_m_next next_block)) ;;;
  upd_block current (set_is_free 0).

(** A new block of [num_frames] frames at [virt_addr], split likewise and
    hung behind [last] *)
Definition add_block (virt_addr num_frames size last : Z) : M kheap unit :=
  let new_size := w64 (w64 (num_frames * 4096) - sizeof_m_header) in
  put_block virt_addr (mkHeader KMALLOC_MAGIC new_size 0 NULL last) ;;;
  when (w64 (w64 (size + sizeof_m_header) + HEAP_MIN_BLOCK_SIZE) <=? new_size)
    (let split_block := w64 (w64 (virt_addr + sizeof_m_header) + size) in
     put_block split_block (mkHeader KMALLOC_MAGIC (w64 (w64 (new_size - size) - sizeof_m_header)) 1 NULL 0) ;;;
     upd_block virt_addr (set_m_size size) ;;;
     upd_block virt_addr (set_m_next split_block) ;;;
     upd_block split_block (set_m_prev virt_addr)) ;;;
  if negb (last =? NULL) then upd_block last (set_m_next virt_addr)
  else modify (set_heap_start virt_addr) ;;; upd_block virt_addr (set_m_prev NULL).

(** [kmalloc] of more than the slabs hold, [size] already rounded *)
Definition heap_alloc (size : Z) : M kheap Z :=
  r <- critical heap_lock (
    n <- block_fuel ;;
    start <- gets heap_start ;;
    r <- first_fit n size start NULL ;;
    when (negb (r.1 =? NULL)) (take_block r.1 size) ;;;
    ret r) ;;
  if negb (r.1 =? NULL) then
    let p := w64 (r.1 + sizeof_m_header) in
    h <- get_block r.1 ;;
    memset0 p (m_size h) ;;;
    ret p
  else
  let required_with_header := w64 (size + sizeof_m_header) in
  let num_frames := w64 (required_with_header + 4095) / 4096 in
  new_frames <- on_slab (on_pmm (fa_alloc_n num_frames)) ;;
  if new_frames =? NULL then ret NULL else
  let virt_addr := phys_to_virt new_frames in
  memset0 virt_addr (w64 (num_frames * 4096)) ;;;
  critical heap_lock (add_block virt_addr num_frames size r.2) ;;;
  ret (w64 (virt_addr + sizeof_m_header)).

Definition round16 (size : Z) : Z := Z.land (w64 (size + 15)) (w64 (Z.lnot 15)).

Definition kmalloc (size : Z) : M kheap Z :=
  if size =? 0 then ret NULL else
  p <- (if size <=? 2048 then on_slab (slab_alloc size) else ret NULL) ;;
  if negb (p =? NULL) then memset0 p size ;;; ret p else
  heap_alloc (round16 size).

(** Merging a freed block with its free neighbours, when they are adjacent in
    memory too *)
Definition merge_next (header : Z) : M kheap unit :=
  h <- get_block header ;;
  when (negb (m_next h =? NULL)) (
    n <- get_block (m_next h) ;;
    when (negb (is_free n =? 0)) (
      let e := w64 (w64 (header + sizeof_m_header) + m_size h) in
      when (e =? m_next h) (
        upd_block header (fun h => set_m_size (w64 (m_size h + w64 (m_size n + sizeof_m_header))) h) ;;;
        upd_block header (set_m_next (m_next n)) ;;;
        when (negb (m_next n =? NULL)) (upd_block (m_next n) (set_m_prev header))))).

Definition merge_prev (header : Z) : M kheap unit :=
  h <- get_block header ;;
  when (negb (m_prev h =? NULL)) (
    p <- get_block (m_prev h) ;;
    when (negb (is_free p =? 0)) (
      let e := w64 (w64 (m_prev h + sizeof_m_header) + m_size p) in
      when (e =? header) (
        upd_block (m_prev h) (fun p => set_m_size (w64 (m_size p + w64 (m_size h + sizeof_m_header))) p) ;;;
        upd_block (m_prev h) (set_m_next (m_next h)) ;;;
        when (negb (m_next h =? NULL)) (upd_block (m_next h) (set_m_prev (m_prev h)))))).

Definition kfree (p : Z) : M kheap unit :=
  if p =? NULL then ret tt else
  w <- word_at (get_slab_from_ptr p) ;;
  if w =? SLAB_MAGIC then on_slab (slab_free p) else
  let header := w64 (p - sizeof_m_header) in
  h <- get_block header ;;
  if negb (m_magic h =? KMALLOC_MAGIC) then panic else
  if negb (is_free h =? 0) then panic else
  critical heap_lock (
    upd_block header (set_is_free 1) ;;;
    merge_next header ;;;
    merge_prev header).
End kmalloc.
Arguments kheap F : clear implicits.
