(* ===== verification/KmallocProof.v ===== *)
(** * The kernel heap: correctness

    The heap is a set of disjoint extents, each a header and its payload, in
    used frames. Allocation adds one extent to the allocated ones, release
    takes one out; splitting and merging change neither the others nor the
    disjointness. *)

From S2P Require Import Prelude Lock Frames Chain Dll Slab Kmalloc.

(** ** Representation *)

Definition lkb (bs : gmap Z m_header) (u : Z) : option (Z * Z) := (fun h => (m_next h, m_prev h)) <$> bs !! u.

(** The size and state of a block. *)
Definition blk (bs : gmap Z m_header) (a : Z) : option (Z * bool) :=
  h ← bs !! a; if decide (m_magic h = KMALLOC_MAGIC) then Some (m_size h, negb (is_free h =? 0)) else None.

Definition stop_of (a sz : Z) : Z := a + sizeof_m_header + sz.

Definition apart (a sz b sz' : Z) : Prop := stop_of a sz <= b \/ stop_of b sz' <= a.

Section rep.
Context {F : Type} `{FrameAllocator F}.

(** The frame of address [y] is in use. *)
Definition byte_used (f : F) (y : Z) : Prop := fa_used f ((y - HHDM_OFFSET) / PAGE_SIZE) = true.

Record hrep (f : F) (bs : gmap Z m_header) (start : Z) (l : list Z) : Prop := {
  hr_dll : dll (lkb bs) start l;
  hr_blk : forall a, a ∈ l -> exists sz fr, blk bs a = Some (sz, fr) /\ 0 <= sz /\ HHDM_OFFSET <= a /\
    stop_of a sz <= 2 ^ 64 - 4096;
  hr_apart : forall a b sz fr sz' fr', a ∈ l -> b ∈ l -> a <> b -> blk bs a = Some (sz, fr) -> blk bs b = Some (sz', fr') ->
    apart a sz b sz';
  hr_used : forall a sz fr y, a ∈ l -> blk bs a = Some (sz, fr) -> a <= y < stop_of a sz -> byte_used f y;
}.

(** Block [a], of [sz] bytes, is handed out. *)
Definition allocated (bs : gmap Z m_header) (l : list Z) (a sz : Z) : Prop := a ∈ l /\ blk bs a = Some (sz, false).
End rep.

(** What a block operation does to a header: links and size, never the
    magic number. *)
Lemma blk_ext bs bs' a h : bs !! a = Some h -> forall h', bs' !! a = Some h' -> m_magic h' = m_magic h ->
  m_size h' = m_size h -> is_free h' = is_free h -> blk bs' a = blk bs a.
Proof. intros Hh h' Hh' E1 E2 E3. unfold blk. rewrite Hh, Hh'. simpl. by rewrite E1, E2, E3. Qed.

Definition relink_blk (x : option Z) (n : Z) (y : option Z) (p u : Z) (h : m_header) : m_header :=
  mkHeader (m_magic h) (m_size h) (is_free h)
    (if decide (x = Some u) then n else m_next h) (if decide (y = Some u) then p else m_prev h).

Lemma relink_blk_lk bs bs' x n y p u :
  bs' !! u = relink_blk x n y p u <$> bs !! u -> lkb bs' u = relink (lkb bs) x n y p u.
Proof. intros E. unfold lkb, relink. rewrite E. by destruct (bs !! u). Qed.

Lemma relink_blk_blk bs bs' x n y p u : bs' !! u = relink_blk x n y p u <$> bs !! u -> blk bs' u = blk bs u.
Proof. intros E. unfold blk. rewrite E. by destruct (bs !! u). Qed.

Lemma blk_lookup bs a sz fr : blk bs a = Some (sz, fr) ->
  exists h, bs !! a = Some h /\ m_magic h = KMALLOC_MAGIC /\ m_size h = sz /\ fr = negb (is_free h =? 0).
Proof.
  unfold blk. destruct (bs !! a) as [h|]; [|done]. simpl. case_decide; [|done]. intros [= <- <-]. by exists h.
Qed.

Lemma blk_header bs a h : bs !! a = Some h -> m_magic h = KMALLOC_MAGIC -> blk bs a = Some (m_size h, negb (is_free h =? 0)).
Proof. intros Hh E. unfold blk. rewrite Hh. simpl. by rewrite decide_True. Qed.

Section lists.
Context {F : Type} `{FrameAllocator F}.
Implicit Types f : F.

(** A new extent beside the others, from a part of memory no block uses. *)
Lemma hrep_insert f f' bs bs' start l1 l2 x szx frx :
  hrep f bs start (l1 ++ l2) -> x ∉ l1 ++ l2 -> x <> NULL ->
  lkb bs' x = Some (default NULL (head l2), default NULL (last l1)) ->
  (forall u, u ∈ l1 ++ l2 -> lkb bs' u = relink (lkb bs) (last l1) x (head l2) x u) ->
  blk bs' x = Some (szx, frx) -> 0 <= szx -> HHDM_OFFSET <= x -> stop_of x szx <= 2 ^ 64 - 4096 ->
  (forall y, x <= y < stop_of x szx -> byte_used f' y) ->
  (forall u, u ∈ l1 ++ l2 -> exists sz sz' fr fr', blk bs u = Some (sz, fr) /\ blk bs' u = Some (sz', fr') /\
     0 <= sz' <= sz /\ apart u sz' x szx) ->
  (forall y, byte_used f y -> byte_used f' y) ->
  hrep f' bs' (if decide (l1 = []) then x else start) (l1 ++ x :: l2).
Proof.
  intros [Hd Hb Ha Hu] Hx Hx0 Hlx Hlk Hbx Hsz Hlo Hhi Hux Hold Hf.
  assert (forall u, u ∈ l1 ++ x :: l2 <-> u = x \/ u ∈ l1 ++ l2) as Hin.
  { intros u. rewrite !elem_of_app, elem_of_cons. tauto. }
  split.
  - by apply (dll_insert (lkb bs)).
  - intros u [->|Hul]%Hin; [by exists szx, frx|].
    destruct (Hold u Hul) as (sz & sz' & fr & fr' & E & E' & Hle & _). destruct (Hb u Hul) as (sz0 & fr0 & E0 & ? & ? & ?).
    rewrite E in E0. injection E0 as <- <-. exists sz', fr'. unfold stop_of in *. split_and!; [done|lia..].
  - intros a b sz fr sz' fr' [->|Hal]%Hin [->|Hbl]%Hin Hab E E'; [done|..].
    + destruct (Hold b Hbl) as (s0 & s1 & f0 & f1 & _ & E1 & _ & Hap). rewrite E' in E1. injection E1 as -> ->.
      rewrite Hbx in E. injection E as <- <-. unfold apart in *. tauto.
    + destruct (Hold a Hal) as (s0 & s1 & f0 & f1 & _ & E1 & _ & Hap). rewrite E in E1. injection E1 as -> ->.
      rewrite Hbx in E'. by injection E' as <- <-.
    + destruct (Hold a Hal) as (sa & sa' & fa & fa' & A1 & A2 & A3 & _). destruct (Hold b Hbl) as (sb & sb' & fb & fb' & B1 & B2 & B3 & _).
      rewrite E in A2. injection A2 as -> ->. rewrite E' in B2. injection B2 as -> ->.
      pose proof (Ha a b sa fa sb fb Hal Hbl Hab A1 B1) as Hap. unfold apart, stop_of in *. lia.
  - intros a sz fr y [->|Hal]%Hin E Hy.
    + rewrite Hbx in E. injection E as <- <-. by apply Hux.
    + destruct (Hold a Hal) as (sa & sa' & fa & fa' & A1 & A2 & A3 & _). rewrite E in A2. injection A2 as -> ->.
      apply Hf. apply (Hu a sa fa y Hal A1). unfold stop_of in *. lia.
Qed.

(** A block absorbed by its neighbour [m]. *)
Lemma hrep_absorb f bs bs' start l1 x l2 m szm frm szx frx frm' :
  hrep f bs start (l1 ++ x :: l2) -> m ∈ l1 ++ l2 ->
  (forall u, u <> x -> lkb bs' u = relink (lkb bs) (last l1) (default NULL (head l2)) (head l2) (default NULL (last l1)) u) ->
  blk bs m = Some (szm, frm) -> blk bs x = Some (szx, frx) -> stop_of m szm = x ->
  blk bs' m = Some (szm + szx + sizeof_m_header, frm') ->
  (forall u, u ∈ l1 ++ l2 -> u <> m -> blk bs' u = blk bs u) ->
  hrep f bs' (if decide (l1 = []) then default NULL (head l2) else start) (l1 ++ l2).
Proof.
  intros [Hd Hb Ha Hu] Hm Hlk Bm Bx Estop Bm' Hother. unfold sizeof_m_header in *.
  assert (forall u, u ∈ l1 ++ l2 -> u ∈ l1 ++ x :: l2) as Hin.
  { intros u. rewrite !elem_of_app, elem_of_cons. tauto. }
  assert (x ∈ l1 ++ x :: l2) as Hx by (apply elem_of_app; right; by left).
  assert (forall u, u ∈ l1 ++ l2 -> u <> x) as Hne.
  { intros u Hul ->. destruct Hd as [_ Hnd]. apply NoDup_app in Hnd as (_ & Hd12 & Hnd). apply NoDup_cons in Hnd as [Hnd _].
    apply elem_of_app in Hul as [Hul|Hul]; [apply (Hd12 x Hul); by left|done]. }
  destruct (Hb m (Hin m Hm)) as (s0 & f0 & E0 & M1 & M2 & M3). rewrite Bm in E0. injection E0 as <- <-.
  destruct (Hb x Hx) as (s0 & f0 & E0 & X1 & X2 & X3). rewrite Bx in E0. injection E0 as <- <-.
  assert (stop_of m (szm + szx + 40) = stop_of x szx) as Es by (unfold stop_of, sizeof_m_header in *; lia).
  assert (forall b sz' fr', b ∈ l1 ++ l2 -> b <> m -> blk bs b = Some (sz', fr') -> apart m (szm + szx + 40) b sz') as Hap.
  { intros b sz' fr' Hbl Hbm Eb. pose proof (Ha m b _ _ _ _ (Hin m Hm) (Hin b Hbl) (not_eq_sym Hbm) Bm Eb) as A1.
    pose proof (Ha x b _ _ _ _ Hx (Hin b Hbl) (not_eq_sym (Hne b Hbl)) Bx Eb) as A2.
    destruct (Hb b (Hin b Hbl)) as (s1 & f1 & E1 & B1 & _). rewrite Eb in E1. injection E1 as <- <-.
    unfold apart, stop_of, sizeof_m_header in *. lia. }
  split.
  - by apply (dll_remove (lkb bs) _ _ l1 x).
  - intros u Hul. destruct (decide (u = m)) as [->|Hum].
    + exists (szm + szx + 40), frm'. rewrite Es. split_and!; [done|lia|done|done].
    + rewrite Hother by done. by apply Hb, Hin.
  - intros a b sz fr sz' fr' Hal Hbl Hab E E'. destruct (decide (a = m)) as [->|Ham].
    + rewrite Bm' in E. injection E as <- <-. rewrite Hother in E' by (done || congruence). by apply (Hap b sz' fr').
    + rewrite Hother in E by done. destruct (decide (b = m)) as [->|Hbm].
      * rewrite Bm' in E'. injection E' as <- <-. pose proof (Hap a sz fr Hal Ham E) as A1. unfold apart in *. tauto.
      * rewrite Hother in E' by done. by apply (Ha a b sz fr sz' fr'); [apply Hin|apply Hin|..].
  - intros a sz fr y Hal E Hy. destruct (decide (a = m)) as [->|Ham].
    + rewrite Bm' in E. injection E as <- <-. destruct (Z.lt_ge_cases y x) as [Hyx|Hyx].
      * apply (Hu m szm frm y (Hin m Hm) Bm). lia.
      * apply (Hu x szx frx y Hx Bx). rewrite Es in Hy. lia.
    + rewrite Hother in E by done. by apply (Hu a sz fr y (Hin a Hal)).
Qed.
End lists.

(** ** Symbolic execution *)

Section run.
Context {F : Type} `{FrameAllocator F}.
Implicit Types k : kheap F.

Definition mkk k (bs : gmap Z m_header) : kheap F := set_blocks bs k.
Lemma mkk_id k : mkk k (blocks k) = k.
Proof. by destruct k. Qed.

Lemma get_block_bind {A} k bs a h (c : m_header -> M (kheap F) A) :
  bs !! a = Some h -> (y <- get_block a ;; c y) (mkk k bs) = c h (mkk k bs).
Proof. intros E. unfold get_block. cbv [bind gets]. simpl. by rewrite E. Qed.
Lemma put_block_bind {A} k bs a h (c : unit -> M (kheap F) A) :
  (y <- put_block a h ;; c y) (mkk k bs) = c tt (mkk k (<[a := h]> bs)).
Proof. done. Qed.
Lemma upd_block_bind {A} k bs a h f (c : unit -> M (kheap F) A) :
  bs !! a = Some h -> (y <- upd_block a f ;; c y) (mkk k bs) = c tt (mkk k (<[a := f h]> bs)).
Proof. intros E. unfold upd_block, get_block. cbv [bind gets]. simpl. by rewrite E. Qed.
Lemma upd_block_eq k bs a h f : bs !! a = Some h -> upd_block a f (mkk k bs) = Ok (tt, mkk k (<[a := f h]> bs)).
Proof. intros E. unfold upd_block, get_block. cbv [bind gets]. simpl. by rewrite E. Qed.

Lemma when_upd_block k bs a f :
  (a <> NULL -> is_Some (bs !! a)) ->
  when (negb (a =? NULL)) (upd_block a f) (mkk k bs) =
  Ok (tt, mkk k (if negb (a =? NULL) then alter f a bs else bs)).
Proof.
  intros Hb. destruct (Z.eqb_spec a NULL); cbn [negb when]; [done|]. destruct Hb as [h Hh]; [done|].
  rewrite (upd_block_eq k bs a h f Hh). do 3 f_equal. apply map_eq. intros u. destruct (decide (u = a)) as [->|].
  - by rewrite lookup_insert_eq, lookup_alter_eq, Hh.
  - by rewrite lookup_insert_ne, lookup_alter_ne.
Qed.

(** ** First fit *)

Definition fits (bs : gmap Z m_header) (size a : Z) : bool :=
  match bs !! a with Some h => negb (is_free h =? 0) && (size <=? m_size h) | None => false end.

Lemma first_fit_spec fuel size k bs start l1 l2 :
  dll (lkb bs) start (l1 ++ l2) -> (length l2 < fuel)%nat ->
  (first_fit fuel size (default NULL (head l2)) (default NULL (last l1)) (mkk k bs) =
     Ok ((NULL, default NULL (last (l1 ++ l2))), mkk k bs) /\ forall u, u ∈ l2 -> fits bs size u = false) \/
  exists l2a a l2b, l2 = l2a ++ a :: l2b /\ fits bs size a = true /\ (forall u, u ∈ l2a -> fits bs size u = false) /\
    first_fit fuel size (default NULL (head l2)) (default NULL (last l1)) (mkk k bs) =
      Ok ((a, default NULL (last (l1 ++ l2a))), mkk k bs).
Proof.
  revert fuel l1. induction l2 as [|a l2 IH]; intros fuel l1 Hd Hf.
  { left. destruct fuel; [simpl in Hf; lia|]. rewrite app_nil_r. split; [done|]. by intros u ?%not_elem_of_nil. }
  destruct fuel as [|fuel]; [simpl in Hf; lia|]. destruct (dll_links _ _ _ _ _ Hd) as [Ha0 Ha].
  unfold lkb in Ha. destruct (bs !! a) as [h|] eqn:Hh; [|done]. injection Ha as En Ep.
  cbn [first_fit head default]. rewrite (proj2 (Z.eqb_neq _ _)) by done. rewrite (get_block_bind k bs a h _ Hh).
  assert (fits bs size a = negb (is_free h =? 0) && (size <=? m_size h)) as Ef by (unfold fits; by rewrite Hh).
  rewrite <-Ef. destruct (fits bs size a) eqn:Efit.
  - right. exists [], a, l2. rewrite app_nil_r. split_and!; try done. by intros u ?%not_elem_of_nil.
  - rewrite cons_middle, app_assoc in Hd. rewrite En.
    destruct (IH fuel (l1 ++ [a]) Hd) as [[E Hno]|(l2a & b & l2b & -> & Hb & Hno & E)]; [simpl in Hf; lia| |];
      rewrite last_snoc in E; cbn [default] in E.
    + left. rewrite E, <-app_assoc. split; [done|]. intros u [->|Hu]%elem_of_cons; [done|by apply Hno].
    + right. exists (a :: l2a), b, l2b. rewrite E, <-app_assoc. split_and!; try done.
      intros u [->|Hu]%elem_of_cons; [done|by apply Hno].
Qed.
End run.

(** A change of states that keeps links and sizes. *)
Lemma hrep_state `{FrameAllocator F} (f f' : F) bs bs' start l :
  hrep f bs start l -> (forall u, u ∈ l -> lkb bs' u = lkb bs u) ->
  (forall u sz fr, u ∈ l -> blk bs u = Some (sz, fr) -> exists fr', blk bs' u = Some (sz, fr')) ->
  (forall y, byte_used f y -> byte_used f' y) -> hrep f' bs' start l.
Proof.
  intros [Hd Hb Ha Hu] Hlk Hbl Hf.
  assert (forall u sz fr', u ∈ l -> blk bs' u = Some (sz, fr') -> exists fr, blk bs u = Some (sz, fr)) as Hback.
  { intros u sz fr' Hul E. destruct (Hb u Hul) as (s0 & f0 & E0 & _). destruct (Hbl u s0 f0 Hul E0) as (f1 & E1).
    rewrite E in E1. injection E1 as -> _. by exists f0. }
  split.
  - by apply (dll_frame (lkb bs)).
  - intros u Hul. destruct (Hb u Hul) as (sz & fr & E & Hrest). destruct (Hbl u sz fr Hul E) as (fr' & E'). by exists sz, fr'.
  - intros a b sz fr sz' fr' Hal Hbl' Hab E E'. destruct (Hback a sz fr Hal E) as (f0 & E0). destruct (Hback b sz' fr' Hbl' E') as (f1 & E1).
    by apply (Ha a b sz f0 sz' f1).
  - intros a sz fr y Hal E Hy. destruct (Hback a sz fr Hal E) as (f0 & E0). apply Hf. by apply (Hu a sz f0).
Qed.

Section take.
Context {F : Type} `{FrameAllocator F}.
Implicit Types k : kheap F.

(** The front of the block stays, the rest becomes a free block. *)
Lemma split_rep (f : F) bs bs' start l1 a l2 h size :
  let nb := a + sizeof_m_header + size in
  hrep f bs start (l1 ++ a :: l2) -> bs !! a = Some h -> m_magic h = KMALLOC_MAGIC ->
  0 <= size -> size + 56 <= m_size h ->
  bs' !! nb = Some (mkHeader KMALLOC_MAGIC (m_size h - size - sizeof_m_header) 1 (m_next h) a) ->
  bs' !! a = Some (mkHeader KMALLOC_MAGIC size 0 nb (m_prev h)) ->
  (forall u, u <> a -> u <> nb -> bs' !! u = relink_blk None 0 (head l2) nb u <$> bs !! u) ->
  hrep f bs' start (l1 ++ a :: nb :: l2) /\
  forall b s, allocated bs' (l1 ++ a :: nb :: l2) b s <->
    (b = a /\ s = size) \/ (b <> a /\ allocated bs (l1 ++ a :: l2) b s).
Proof.
  intros nb Hr Ha Hm Hs Hfit Hnb Ha' Hu. pose proof Hr as [Hd Hb Hap Hus].
  assert (a ∈ l1 ++ a :: l2) as Hain by (apply elem_of_app; right; by left).
  pose proof (blk_header bs a h Ha Hm) as Ba. destruct (Hb a Hain) as (s0 & f0 & E0 & _ & Hlo & Hhi). rewrite Ba in E0. injection E0 as <- <-.
  unfold stop_of, sizeof_m_header in *.
  assert (nb ∉ l1 ++ a :: l2) as Hnin.
  { intros Hin. destruct (Hb nb Hin) as (s1 & f1 & E1 & Hs1 & _). pose proof (Hap a nb _ _ _ _ Hain Hin ltac:(unfold nb; lia) Ba E1) as A.
    unfold apart, stop_of, sizeof_m_header in A. unfold nb in *. lia. }
  destruct (dll_links _ _ _ _ _ Hd) as [Ha0 Hlka]. unfold lkb in Hlka. rewrite Ha in Hlka. injection Hlka as En Ep.
  assert (forall u, u ∈ l1 ++ a :: l2 -> u <> a -> u <> nb) as Hun by (intros u Hin _ ->; done).
  assert (forall u, u ∈ l1 ++ a :: l2 -> u <> a -> blk bs' u = blk bs u) as Hblk.
  { intros u Hin Hne. apply (relink_blk_blk bs bs' None 0 (head l2) nb). apply Hu; [done|by apply Hun]. }
  assert (l1 ++ a :: l2 = (l1 ++ [a]) ++ l2) as El by (by rewrite <-app_assoc).
  split.
  - replace (l1 ++ a :: nb :: l2) with ((l1 ++ [a]) ++ nb :: l2) by (by rewrite <-app_assoc).
    replace start with (if decide (l1 ++ [a] = []) then nb else start) by (rewrite decide_False; [done|by destruct l1]).
    rewrite El in *. apply (hrep_insert f f bs bs' start (l1 ++ [a]) l2 nb (m_size h - size - 40) true); try done.
    + unfold nb, NULL. unfold HHDM_OFFSET in Hlo. lia.
    + rewrite last_snoc. unfold lkb. rewrite Hnb. simpl. by rewrite En.
    + intros u Hin. rewrite last_snoc. destruct (decide (u = a)) as [->|Hne].
      * unfold lkb, relink. rewrite Ha, Ha'. simpl. rewrite decide_True by done. rewrite decide_False; [done|].
        intros Hh%head_Some_elem_of. destruct Hd as [_ Hnd]. apply NoDup_app in Hnd as (_ & Hd2 & _).
        apply (Hd2 a); [apply elem_of_app; right; by left|done].
      * rewrite (relink_blk_lk bs bs' None 0 (head l2) nb) by (apply Hu; [done|by apply Hun]).
        unfold relink. destruct (lkb bs u) as [[n0 p0]|]; [|done]. simpl. by rewrite (decide_False (P := Some a = Some u)) by congruence.
    + rewrite (blk_header bs' nb _ Hnb) by done. done.
    + lia.
    + unfold nb. lia.
    + unfold stop_of, sizeof_m_header, nb. lia.
    + intros y Hy. apply (Hus a _ _ y Hain Ba). unfold stop_of, sizeof_m_header, nb in *. lia.
    + intros u Hin. destruct (decide (u = a)) as [->|Hne].
      * exists (m_size h), size, (negb (is_free h =? 0)), false. rewrite (blk_header bs' a _ Ha') by done.
        split_and!; try done; [lia|]. left. unfold stop_of, sizeof_m_header, nb. lia.
      * destruct (Hb u Hin) as (su & fu & Eu & Hsu & _). exists su, su, fu, fu. rewrite (Hblk u Hin Hne). split_and!; try done.
        pose proof (Hap a u _ _ _ _ Hain Hin (not_eq_sym Hne) Ba Eu) as A. unfold apart, stop_of, sizeof_m_header, nb in *. lia.
  - intros b s. unfold allocated. assert (b ∈ l1 ++ a :: nb :: l2 <-> b = nb \/ b ∈ l1 ++ a :: l2) as Hin.
    { rewrite !elem_of_app, !elem_of_cons. tauto. }
    rewrite Hin. split.
    + intros [[->|Hbl] E]; [rewrite (blk_header bs' nb _ Hnb) in E by done; done|]. destruct (decide (b = a)) as [->|Hne].
      * left. rewrite (blk_header bs' a _ Ha') in E by done. injection E as <-. done.
      * right. rewrite Hblk in E by done. done.
    + intros [[-> ->]|[Hne [Hbl E]]].
      * split; [by right|]. by rewrite (blk_header bs' a _ Ha').
      * split; [by right|]. by rewrite Hblk.
Qed.

Lemma take_block_spec k (f : F) bs start l1 a l2 h size :
  hrep f bs start (l1 ++ a :: l2) -> bs !! a = Some h -> m_magic h = KMALLOC_MAGIC -> is_free h <> 0 ->
  0 <= size <= m_size h ->
  exists bs' l' sz, take_block a size (mkk k bs) = Ok (tt, mkk k bs') /\ hrep f bs' start l' /\ size <= sz /\
    (exists h', bs' !! a = Some h' /\ m_size h' = sz) /\
    forall b s, allocated bs' l' b s <-> (b = a /\ s = sz) \/ (b <> a /\ allocated bs (l1 ++ a :: l2) b s).
Proof.
  intros Hr Ha Hm Hfr Hs. pose proof Hr as [Hd Hb Hap Hus]. unfold take_block. rewrite (get_block_bind k bs a h _ Ha).
  assert (a ∈ l1 ++ a :: l2) as Hain by (apply elem_of_app; right; by left).
  pose proof (blk_header bs a h Ha Hm) as Ba. destruct (Hb a Hain) as (s0 & f0 & E0 & _ & Hlo & Hhi). rewrite Ba in E0. injection E0 as <- <-.
  unfold stop_of, sizeof_m_header, HEAP_MIN_BLOCK_SIZE, HHDM_OFFSET in *.
  rewrite !(w64_small (size + 40)), (w64_small (size + 40 + 16)) by lia.
  destruct (Z.leb_spec (size + 40 + 16) (m_size h)) as [Hfit|Hfit]; cbn [when].
  - rewrite !(w64_small (a + 40)), (w64_small (a + 40 + size)), (w64_small (m_size h - size)), (w64_small (m_size h - size - 40)) by lia.
    set (nb := a + 40 + size). destruct (dll_links _ _ _ _ _ Hd) as [Ha0 Hlka]. unfold lkb in Hlka. rewrite Ha in Hlka. injection Hlka as En Ep.
    assert (forall u, u ∈ l1 ++ a :: l2 -> u <> nb) as Hnin.
    { intros u Hin ->. destruct (Hb nb Hin) as (s1 & f1 & E1 & Hs1 & _). pose proof (Hap a nb _ _ _ _ Hain Hin ltac:(unfold nb; lia) Ba E1) as A.
      unfold apart, stop_of, sizeof_m_header in A. unfold nb in *. lia. }
    assert (forall u, head l2 = Some u -> u <> NULL /\ u <> a /\ u <> nb /\ is_Some (bs !! u)) as Hhead.
    { intros u Hu%head_Some_elem_of. assert (u ∈ l1 ++ a :: l2) as Hin by (apply elem_of_app; right; by right).
      destruct (dll_elem _ _ _ u Hd Hin) as [Hu0 Hsu]. split_and!; [done| |by apply Hnin|by apply fmap_is_Some in Hsu].
      intros ->. destruct Hd as [_ Hnd]. apply NoDup_app in Hnd as (_ & _ & Hnd). by apply NoDup_cons in Hnd as [? _]. }
    set (h0 := mkHeader KMALLOC_MAGIC (m_size h - size - 40) 1 (m_next h) a). set (bs1 := <[nb := h0]> bs).
    set (bs2 := if negb (m_next h =? NULL) then alter (set_m_prev nb) (m_next h) bs1 else bs1).
    assert (bs2 !! a = Some h) as Ha2.
    { unfold bs2. rewrite lookup_alter_opt, decide_False.
      - unfold bs1. rewrite lookup_insert_ne; [done|]. intros E. by apply (Hnin a).
      - intros [Hn E]. rewrite En in Hn, E. destruct (head l2) as [u|]; [|done]. destruct (Hhead u eq_refl) as (_ & Hne & _). simpl in E. congruence. }
    set (bs3 := <[a := mkHeader KMALLOC_MAGIC size 0 nb (m_prev h)]> bs2).
    destruct (split_rep f bs bs3 start l1 a l2 h size Hr Ha Hm) as [Hr' Hal]; [lia|lia| |apply lookup_insert_eq| |].
    { change (a + sizeof_m_header + size) with nb. unfold bs3. rewrite lookup_insert_ne by (intros E; by apply (Hnin a)). unfold bs2. rewrite lookup_alter_opt, decide_False.
      - unfold bs1. rewrite lookup_insert_eq. done.
      - intros [Hn E]. rewrite En in Hn, E. destruct (head l2) as [u|]; [|done]. destruct (Hhead u eq_refl) as (_ & _ & Hne & _). simpl in E. unfold nb, sizeof_m_header in *. lia. }
    { change (a + sizeof_m_header + size) with nb. intros u Hua Hun. unfold bs3. rewrite lookup_insert_ne by done. unfold bs2. rewrite lookup_alter_opt. unfold bs1.
      rewrite lookup_insert_ne by done. rewrite En.
      rewrite (decide_ext (default NULL (head l2) <> NULL /\ u = default NULL (head l2)) (head l2 = Some u)).
      - unfold relink_blk. destruct (bs !! u) as [x|]; [|by case_decide]. case_decide; simpl; by destruct x.
      - apply default_Some. intros w Hw. by apply Hhead. }
    exists bs3, (l1 ++ a :: nb :: l2), size. split_and!; try done; [|by eexists; split; [apply lookup_insert_eq|]].
    unfold bind at 1. rewrite put_block_bind. fold h0 bs1. rewrite (get_block_bind k bs1 nb h0) by apply lookup_insert_eq.
    erewrite bind_ok; [|apply when_upd_block; intros Hn; cbn [h0 m_next] in Hn |- *; rewrite En in Hn |- *; destruct (head l2) as [u|]; [|done];
      destruct (Hhead u eq_refl) as (_ & _ & Hne & Hsu); cbn [default]; unfold bs1; rewrite lookup_insert_ne by (intros E; apply Hne; symmetry; exact E); done].
    cbn [h0 m_next]. fold bs2. rewrite (upd_block_bind k bs2 a h _ _ Ha2), (upd_block_eq k _ a _ _ (lookup_insert_eq _ _ _)).
    rewrite (upd_block_eq k _ a _ _ (lookup_insert_eq _ _ _)), !insert_insert_eq. unfold set_m_next, set_m_size, set_is_free. simpl. by rewrite Hm.
  - unfold bind at 1, ret at 1. exists (<[a := set_is_free 0 h]> bs), (l1 ++ a :: l2), (m_size h).
    rewrite (upd_block_eq k bs a h _ Ha). split_and!; [done| |lia|by eexists; split; [apply lookup_insert_eq|]|].
    + apply (hrep_state f f bs); try done.
      * intros u Hu. unfold lkb. destruct (decide (u = a)) as [->|]; [by rewrite lookup_insert_eq, Ha|by rewrite lookup_insert_ne].
      * intros u sz fr Hu E. destruct (decide (u = a)) as [->|].
        -- exists false. rewrite Ba in E. injection E as <- <-. by rewrite (blk_header _ a _ (lookup_insert_eq _ _ _)).
        -- exists fr. unfold blk. rewrite lookup_insert_ne by done. done.
    + intros b s. unfold allocated. destruct (decide (b = a)) as [->|Hne].
      * rewrite (blk_header _ a _ (lookup_insert_eq _ _ _)) by done. simpl. split; [intros [_ [= <-]]; by left|].
        intros [[_ ->]|[? _]]; done.
      * unfold blk. rewrite lookup_insert_ne by done. fold (blk bs b). tauto.
Qed.
End take.

(** ** A block of new frames *)

Section add.
Context {F : Type} `{FrameAllocator F}.
Implicit Types k : kheap F.

(** The frames of [x, x + n) joined the used ones. *)
Definition grown (f f' : F) (x n : Z) : Prop :=
  (forall y, x <= y < x + n -> fa_used f y = false) /\
  (forall y, fa_used f' y = ((x <=? y) && (y <? x + n)) || fa_used f y).

Lemma grown_used (f f' : F) x n y : grown f f' x n -> byte_used f y -> byte_used f' y.
Proof. intros [_ Hu] Hy. unfold byte_used in *. rewrite Hu, Hy. apply orb_true_r. Qed.

Lemma frame_of_byte x n y : 0 <= n ->
  HHDM_OFFSET + x * 4096 <= y < HHDM_OFFSET + (x + n) * 4096 <-> x <= (y - HHDM_OFFSET) / PAGE_SIZE < x + n.
Proof.
  intros Hn. unfold PAGE_SIZE. pose proof (Z.div_mod (y - HHDM_OFFSET) 4096 ltac:(lia)) as E.
  pose proof (Z.mod_pos_bound (y - HHDM_OFFSET) 4096 eq_refl) as B. lia.
Qed.

(** A block outside the new frames. *)
Lemma grown_apart (f f' : F) bs start l x n a sz fr :
  hrep f bs start l -> grown f f' x n -> 0 < n -> a ∈ l -> blk bs a = Some (sz, fr) ->
  stop_of a sz <= HHDM_OFFSET + x * 4096 \/ HHDM_OFFSET + (x + n) * 4096 <= a.
Proof.
  intros Hr [Hfree _] Hn Ha Hb. destruct (hr_blk _ _ _ _ Hr a Ha) as (s0 & f0 & E0 & Hs & _). rewrite Hb in E0. injection E0 as <- <-.
  set (v := HHDM_OFFSET + x * 4096). destruct (Z.le_gt_cases (stop_of a sz) v) as [?|Hgt]; [by left|]. right.
  destruct (Z.le_gt_cases (HHDM_OFFSET + (x + n) * 4096) a) as [?|Hlt]; [done|]. exfalso.
  set (y := Z.max a v). assert (byte_used f y) as Hy.
  { apply (hr_used _ _ _ _ Hr a sz fr y Ha Hb). unfold stop_of, sizeof_m_header in *. lia. }
  unfold byte_used in Hy. rewrite (Hfree ((y - HHDM_OFFSET) / PAGE_SIZE)) in Hy; [done|]. apply frame_of_byte; [lia|].
  unfold y, v, stop_of, sizeof_m_header in *. lia.
Qed.

Lemma append_rep (f f' : F) bs start l x n :
  let virt := HHDM_OFFSET + x * 4096 in let la := default NULL (last l) in
  let h0 := mkHeader KMALLOC_MAGIC (n * 4096 - sizeof_m_header) 0 NULL la in
  let bs' := if negb (la =? NULL) then alter (set_m_next virt) la (<[virt := h0]> bs) else (<[virt := h0]> bs) in
  hrep f bs start l -> grown f f' x n -> 0 < x -> 0 < n -> x + n < 2 ^ 35 ->
  hrep f' bs' (if decide (l = []) then virt else start) (l ++ [virt]) /\ (virt ∉ l) /\
  bs' !! virt = Some h0 /\ (forall u, u ∈ l -> blk bs' u = blk bs u) /\
  (la <> NULL <-> l <> []).
Proof.
  intros virt la h0 bs' Hr Hg Hx Hn Hb. pose proof Hr as [Hd Hbl Hap Hus].
  assert (virt ∉ l) as Hnin.
  { intros Hin. destruct (Hbl virt Hin) as (s0 & f0 & E0 & Hs & _). destruct (grown_apart f f' bs start l x n virt s0 f0 Hr Hg ltac:(lia) Hin E0) as [A|A];
      unfold stop_of, sizeof_m_header, virt in A; lia. }
  assert (forall u, last l = Some u -> u <> NULL /\ u ∈ l) as Hlast.
  { intros u Hu%last_Some_elem_of. split; [|done]. by apply (dll_elem _ _ _ u Hd). }
  assert (la <> NULL <-> l <> []) as Hla.
  { unfold la. destruct (last l) as [u|] eqn:E; simpl.
    - split; [intros _ ->; done|]. intros _. by apply Hlast.
    - apply last_None in E. by rewrite E. }
  assert (bs' !! virt = Some h0) as Hv.
  { unfold bs'. rewrite lookup_alter_opt, decide_False; [apply lookup_insert_eq|]. intros [Hn0 E]. unfold la in *.
    destruct (last l) as [u|]; [|done]. destruct (Hlast u eq_refl) as [_ Hin]. simpl in E. by rewrite E in Hnin. }
  assert (forall u, u ∈ l -> bs' !! u = relink_blk (last l) virt None 0 u <$> bs !! u) as Hlk.
  { intros u Hu. unfold bs'. rewrite lookup_alter_opt, lookup_insert_ne by (intros <-; done).
    rewrite (decide_ext (la <> NULL /\ u = la) (last l = Some u)) by (apply default_Some; intros w Hw; by apply Hlast).
    unfold relink_blk. destruct (bs !! u) as [h|]; [|by case_decide]. case_decide; simpl; by destruct h. }
  assert (forall u, u ∈ l -> blk bs' u = blk bs u) as Hblk.
  { intros u Hu. by apply (relink_blk_blk bs bs' (last l) virt None 0), Hlk. }
  split_and!; try done. rewrite <-(app_nil_r l) in Hr.
  assert (HHDM_OFFSET + 2 ^ 35 * 4096 = 2 ^ 64) as Etop by done.
  apply (hrep_insert f f' bs bs' start l [] virt (n * 4096 - 40) false); rewrite ?app_nil_r; try done.
  - unfold virt, NULL, HHDM_OFFSET. lia.
  - unfold lkb. rewrite Hv. done.
  - intros u Hu. rewrite (relink_blk_lk bs bs' (last l) virt None 0 u) by (by apply Hlk).
    unfold relink. simpl. by destruct (lkb bs u) as [[]|].
  - by rewrite (blk_header bs' virt h0 Hv).
  - lia.
  - unfold virt. lia.
  - unfold stop_of, sizeof_m_header, virt. lia.
  - intros y Hy. destruct Hg as [_ Hu]. unfold byte_used. rewrite Hu.
    assert (x <= (y - HHDM_OFFSET) / PAGE_SIZE < x + n) as [Hy1 Hy2].
    { apply frame_of_byte; [lia|]. unfold stop_of, sizeof_m_header, virt in Hy. lia. }
    by rewrite (proj2 (Z.leb_le _ _) Hy1), (proj2 (Z.ltb_lt _ _) Hy2).
  - intros u Hu. destruct (Hbl u Hu) as (su & fu & Eu & Hsu & _). exists su, su, fu, fu. rewrite (Hblk u Hu).
    split_and!; try done. pose proof (grown_apart f f' bs start l x n u su fu ltac:(by rewrite app_nil_r in Hr) Hg ltac:(lia) Hu Eu) as A.
    unfold apart, stop_of, sizeof_m_header, virt in *. lia.
  - intros y. by apply (grown_used f f' x n).
Qed.

(** The last step: hanging the new block behind the last one. *)
Definition hang_block (virt la : Z) : M (kheap F) unit :=
  if negb (la =? NULL) then upd_block la (set_m_next virt)
  else modify (set_heap_start virt) ;;; upd_block virt (set_m_prev NULL).

Lemma hang_run k bs virt la h (l : list Z) :
  la = default NULL (last l) -> (la <> NULL <-> l <> []) -> (la <> NULL -> is_Some (bs !! la)) ->
  bs !! virt = Some h -> m_prev h = la ->
  hang_block virt la (mkk k bs) =
  Ok (tt, mkk (set_heap_start (if decide (l = []) then virt else heap_start k) k)
            (if negb (la =? NULL) then alter (set_m_next virt) la bs else bs)).
Proof.
  intros -> Hl Hs Hv Hp. unfold hang_block. destruct (Z.eqb_spec (default NULL (last l)) NULL) as [E|E]; cbn [negb].
  - rewrite decide_True by (destruct (decide (l = [])); [done|]; exfalso; by apply Hl).
    unfold bind at 1, modify at 1. change (set_heap_start virt (mkk k bs)) with (mkk (set_heap_start virt k) bs).
    rewrite (upd_block_eq _ bs virt h _ Hv). do 3 f_equal. rewrite insert_id; [done|].
    rewrite Hv. f_equal. destruct h. simpl in Hp. unfold set_m_prev. simpl. congruence.
  - rewrite decide_False by (by apply Hl). destruct (Hs E) as [x Hx]. rewrite (upd_block_eq k bs _ x _ Hx).
    change (mkk (set_heap_start (heap_start k) k) ?m) with (mkk k m). do 3 f_equal.
    apply map_eq. intros u. destruct (decide (u = default NULL (last l))) as [->|].
    + by rewrite lookup_insert_eq, lookup_alter_eq, Hx.
    + by rewrite lookup_insert_ne, lookup_alter_ne.
Qed.

Lemma add_block_spec k (f f' : F) bs l x n size :
  let virt := HHDM_OFFSET + x * 4096 in let la := default NULL (last l) in
  hrep f bs (heap_start k) l -> grown f f' x n -> 0 < x -> 0 < n -> x + n < 2 ^ 35 ->
  0 <= size -> size + sizeof_m_header <= n * 4096 ->
  exists bs' l' start' sz, add_block virt n size la (mkk k bs) = Ok (tt, mkk (set_heap_start start' k) bs') /\
    hrep f' bs' start' l' /\ size <= sz /\
    forall b s, allocated bs' l' b s <-> (b = virt /\ s = sz) \/ allocated bs l b s.
Proof.
  intros virt la Hr Hg Hx Hn Hb Hs0 Hs. unfold sizeof_m_header in Hs.
  destruct (append_rep f f' bs (heap_start k) l x n Hr Hg Hx Hn Hb) as (Hmid & Hnin & Hv & Hblk & Hla).
  fold virt la in Hmid, Hnin, Hv, Hblk, Hla. unfold sizeof_m_header in Hmid, Hv, Hblk.
  set (h0 := mkHeader KMALLOC_MAGIC (n * 4096 - 40) 0 NULL la) in *.
  set (mid := if negb (la =? NULL) then _ else _) in *. set (start' := if decide (l = []) then virt else heap_start k) in *.
  assert (la <> NULL -> la ∈ l /\ is_Some (bs !! la)) as Hlain.
  { intros E. assert (la ∈ l) as Hin by (unfold la in *; destruct (last l) eqn:El; [by apply last_Some_elem_of|done]).
    split; [done|]. destruct (hr_blk _ _ _ _ Hr la Hin) as (s0 & f0 & E0 & _). apply blk_lookup in E0 as (h & Hh & _). by exists h. }
  assert (forall b s, allocated mid (l ++ [virt]) b s <-> (b = virt /\ s = n * 4096 - 40) \/ allocated bs l b s) as Hal.
  { intros b s. unfold allocated. rewrite elem_of_app, list_elem_of_singleton. split.
    - intros [[Hbl| ->] E]; [right; by rewrite Hblk in E|]. left. rewrite (blk_header mid virt h0 Hv) in E by done. injection E as <-. done.
    - intros [[-> ->]|[Hbl E]]; [split; [by right|by rewrite (blk_header mid virt h0 Hv)]|]. rewrite Hblk by done. tauto. }
  unfold add_block, sizeof_m_header, HEAP_MIN_BLOCK_SIZE. rewrite (w64_small (n * 4096)), (w64_small (n * 4096 - 40)) by lia.
  rewrite put_block_bind. fold h0. rewrite (w64_small (size + 40)), (w64_small (size + 40 + 16)) by lia. fold (hang_block virt la).
  destruct (Z.leb_spec (size + 40 + 16) (n * 4096 - 40)) as [Hfit|Hfit]; cbn [when].
  - assert (HHDM_OFFSET + 2 ^ 35 * 4096 = 2 ^ 64) as Etop by done.
    rewrite (w64_small (virt + 40)), (w64_small (virt + 40 + size)), (w64_small (n * 4096 - 40 - size)), (w64_small (n * 4096 - 40 - size - 40))
      by (unfold virt, HHDM_OFFSET in *; lia).
    set (sb := virt + 40 + size). assert (sb <> virt) as Hsv by (unfold sb; lia).
    assert (sb ∉ l) as Hsb.
    { intros Hin. destruct (hr_blk _ _ _ _ Hr sb Hin) as (s0 & f0 & E0 & Hsz & _).
      destruct (grown_apart f f' bs _ l x n sb s0 f0 Hr Hg Hn Hin E0) as [A|A]; unfold stop_of, sizeof_m_header, sb, virt in A; lia. }
    set (hv := mkHeader KMALLOC_MAGIC size 0 sb la). set (hs := mkHeader KMALLOC_MAGIC (n * 4096 - 40 - size - 40) 1 NULL virt).
    set (bsA := <[sb := hs]> (<[virt := hv]> bs)).
    assert (bsA !! virt = Some hv) as HvA by (unfold bsA; rewrite lookup_insert_ne by done; apply lookup_insert_eq).
    set (bsF := if negb (la =? NULL) then alter (set_m_next virt) la bsA else bsA).
    assert (forall u, u = virt \/ u = sb -> bsF !! u = bsA !! u) as HF.
    { intros u Hu. unfold bsF. rewrite lookup_alter_opt, decide_False; [done|]. intros [E ->]. destruct (Hlain E) as [Hin _].
      destruct Hu as [Hu|Hu]; rewrite Hu in Hin; done. }
    destruct (split_rep f' mid bsF start' l virt [] h0 size Hmid Hv eq_refl Hs0) as [HrF HalF].
    { simpl. lia. }
    { change (virt + sizeof_m_header + size) with sb. rewrite HF by tauto. unfold bsA. by rewrite lookup_insert_eq. }
    { change (virt + sizeof_m_header + size) with sb. rewrite HF by tauto. exact HvA. }
    { change (virt + sizeof_m_header + size) with sb. intros u Hu1 Hu2. unfold bsF, mid. rewrite !lookup_alter_opt. unfold bsA.
      rewrite !lookup_insert_ne by done. unfold relink_blk. case_decide; destruct (bs !! u) as [y|]; try done; by destruct y. }
    exists bsF, (l ++ [virt; sb]), start', size. split_and!; [|exact HrF|lia|].
    + unfold bind at 1. rewrite put_block_bind. erewrite upd_block_bind by (rewrite lookup_insert_ne by done; apply lookup_insert_eq).
      erewrite upd_block_bind by apply lookup_insert_eq.
      erewrite upd_block_eq by (rewrite !lookup_insert_ne by done; apply lookup_insert_eq).
      match goal with |- hang_block virt la (mkk k ?m) = _ => replace m with bsA end.
      * apply (hang_run k bsA virt la hv l); try done. intros E. destruct (Hlain E) as [Hin Hss]. unfold bsA.
        rewrite !lookup_insert_ne by (intros E'; rewrite <-E' in Hin; done). done.
      * unfold bsA. apply map_eq. intros u. destruct (decide (u = sb)) as [->|]; [by rewrite !lookup_insert_eq|].
        rewrite (lookup_insert_ne _ sb u), (lookup_insert_ne _ sb u) by done. destruct (decide (u = virt)) as [->|].
        -- by rewrite !lookup_insert_eq.
        -- by rewrite !lookup_insert_ne by done.
    + intros b s. etrans; [apply HalF|]. rewrite Hal. destruct (decide (b = virt)) as [->|]; [|tauto].
      split; [tauto|]. intros [?|[Hin _]]; [tauto|done].
  - unfold bind at 1, ret at 1. exists mid, (l ++ [virt]), start', (n * 4096 - 40). split_and!; [|done|lia|done].
    apply (hang_run k (<[virt := h0]> bs) virt la h0 l); try done; [|apply lookup_insert_eq].
    intros E. destruct (Hlain E) as [Hin Hss]. rewrite lookup_insert_ne; [done|]. intros E'. rewrite <-E' in Hin. done.
Qed.
End add.

(** ** Merging *)

(** ** The list of the blocks, and its reference operations *)

(** A block: its address, its size and whether it is free. *)
Notation block := (Z * (Z * bool))%type (only parsing).

Definition heap_view (bs : gmap Z m_header) (l : list Z) : list block := omap (fun u => (fun b => (u, b)) <$> blk bs u) l.

Arguments heap_view : simpl never.

(** Two free neighbours that touch become one block. *)
Definition join (x y : block) : option block :=
  if x.2.2 && y.2.2 && (stop_of x.1 x.2.1 =? y.1) then Some (x.1, (x.2.1 + y.2.1 + sizeof_m_header, true)) else None.
Definition join_next (x : block) (l : list block) : list block :=
  match l with
  | y :: l' => match join x y with Some z => z :: l' | None => x :: l end
  | [] => [x]
  end.
Definition join_prev (l1 : list block) (x : block) (l2 : list block) : list block :=
  match last l1 with
  | Some p => match join p x with Some z => removelast l1 ++ z :: l2 | None => l1 ++ x :: l2 end
  | None => x :: l2
  end.

(** The blocks after [x], between [l1] and [l2], was freed. *)
Definition coalesce (l1 : list block) (x : block) (l2 : list block) : list block :=
  match join_next x l2 with
  | x' :: l2' => join_prev l1 x' l2'
  | [] => l1
  end.

Lemma view_app bs l1 l2 : heap_view bs (l1 ++ l2) = heap_view bs l1 ++ heap_view bs l2.
Proof. apply omap_app. Qed.

Lemma view_cons bs u l b : blk bs u = Some b -> heap_view bs (u :: l) = (u, b) :: heap_view bs l.
Proof. intros E. unfold heap_view. simpl. by rewrite E. Qed.

Lemma view_ext bs bs' l : (forall u, u ∈ l -> blk bs' u = blk bs u) -> heap_view bs' l = heap_view bs l.
Proof.
  induction l as [|u l IH]; intros Hl; [done|]. assert (heap_view bs' l = heap_view bs l) as E by (apply IH; intros w Hw; apply Hl; by right).
  specialize (Hl u ltac:(by left)). destruct (blk bs u) as [b|] eqn:Eb; [by rewrite (view_cons bs' u l b Hl), (view_cons bs u l b Eb), E|].
  unfold heap_view in *. simpl. by rewrite Hl, Eb.
Qed.

Lemma view_length bs l : (forall u, u ∈ l -> is_Some (blk bs u)) -> length (heap_view bs l) = length l.
Proof.
  induction l as [|u l IH]; intros Hl; [done|]. destruct (Hl u) as [b E]; [by left|]. rewrite (view_cons _ _ _ _ E). simpl.
  by rewrite IH by (intros w Hw; apply Hl; by right).
Qed.

Lemma hrep_view `{FrameAllocator F} (f : F) bs start l u : hrep f bs start l -> u ∈ l -> is_Some (blk bs u).
Proof. intros Hr Hu. destruct (hr_blk _ _ _ _ Hr u Hu) as (sz & fr & -> & _). done. Qed.

Section merge.
Context {F : Type} `{FrameAllocator F}.
Implicit Types k : kheap F.

(** Block [x] is absorbed by [m], the block before it in the list: the
    stores of the code, and what they represent. *)
Lemma absorb_spec k (f : F) bs start l1 m x l2 hm hx :
  hrep f bs start (l1 ++ m :: x :: l2) -> bs !! m = Some hm -> bs !! x = Some hx ->
  m_magic hm = KMALLOC_MAGIC -> m_magic hx = KMALLOC_MAGIC -> is_free hm <> 0 -> is_free hx <> 0 ->
  stop_of m (m_size hm) = x ->
  exists bs', (upd_block m (fun h => set_m_size (w64 (m_size h + w64 (m_size hx + sizeof_m_header))) h) ;;;
      upd_block m (set_m_next (m_next hx)) ;;;
      when (negb (m_next hx =? NULL)) (upd_block (m_next hx) (set_m_prev m))) (mkk k bs) = Ok (tt, mkk k bs') /\
    hrep f bs' start (l1 ++ m :: l2) /\ blk bs' m = Some (m_size hm + m_size hx + sizeof_m_header, true) /\
    (forall u, u <> m -> blk bs' u = blk bs u) /\
    forall b s, allocated bs' (l1 ++ m :: l2) b s <-> allocated bs (l1 ++ m :: x :: l2) b s.
Proof.
  intros Hr Hm Hx Em Ex Fm Fx Estop. pose proof Hr as [Hd Hb Hap Hus].
  assert (l1 ++ m :: x :: l2 = (l1 ++ [m]) ++ x :: l2) as El by (by rewrite <-app_assoc).
  pose proof (blk_header bs m hm Hm Em) as Bm. pose proof (blk_header bs x hx Hx Ex) as Bx.
  rewrite (proj2 (Z.eqb_neq _ _) Fm) in Bm. rewrite (proj2 (Z.eqb_neq _ _) Fx) in Bx. cbn [negb] in Bm, Bx.
  assert (m ∈ l1 ++ m :: x :: l2) as Hmin by (apply elem_of_app; right; by left).
  assert (x ∈ l1 ++ m :: x :: l2) as Hxin by (apply elem_of_app; right; right; by left).
  destruct (Hb m Hmin) as (s0 & f0 & E0 & M1 & M2 & M3). rewrite Bm in E0. injection E0 as <- <-.
  destruct (Hb x Hxin) as (s0 & f0 & E0 & X1 & X2 & X3). rewrite Bx in E0. injection E0 as <- <-.
  unfold stop_of, sizeof_m_header, HHDM_OFFSET in *. rewrite (w64_small (m_size hx + 40)) by lia.
  destruct (dll_links _ _ _ _ _ ltac:(rewrite El in Hd; exact Hd)) as [Hx0 Hlkx]. unfold lkb in Hlkx. rewrite Hx in Hlkx. injection Hlkx as En Ep.
  pose proof Hd as [_ Hnd]. apply NoDup_app in Hnd as (_ & Hd12 & Hnd). apply NoDup_cons in Hnd as [Hmx Hnd]. apply NoDup_cons in Hnd as [Hxl2 _].
  assert (forall u, head l2 = Some u -> u <> NULL /\ u <> m /\ u <> x /\ is_Some (bs !! u)) as Hhead.
  { intros u Hu%head_Some_elem_of. assert (u ∈ l1 ++ m :: x :: l2) as Hin by (apply elem_of_app; right; right; by right).
    destruct (dll_elem _ _ _ u Hd Hin) as [Hu0 Hsu]. split_and!; [done| | |by apply fmap_is_Some in Hsu].
    - intros ->. apply Hmx. by right.
    - by intros ->. }
  set (hm' := mkHeader KMALLOC_MAGIC (m_size hm + (m_size hx + 40)) (is_free hm) (m_next hx) (m_prev hm)).
  set (bs1 := <[m := hm']> bs). set (bs' := if negb (m_next hx =? NULL) then alter (set_m_prev m) (m_next hx) bs1 else bs1).
  assert (bs' !! m = Some hm') as Hm'.
  { unfold bs'. rewrite lookup_alter_opt, decide_False; [apply lookup_insert_eq|]. intros [Hn0 E]. rewrite En in Hn0, E.
    destruct (head l2) as [u|]; [|done]. destruct (Hhead u eq_refl) as (_ & ? & _). simpl in E. congruence. }
  assert (forall u, u <> m -> bs' !! u = relink_blk None 0 (head l2) m u <$> bs !! u) as Hu.
  { intros u Hum. unfold bs'. rewrite lookup_alter_opt. unfold bs1. rewrite lookup_insert_ne by done. rewrite En.
    rewrite (decide_ext (default NULL (head l2) <> NULL /\ u = default NULL (head l2)) (head l2 = Some u))
      by (apply default_Some; intros w Hw; by apply Hhead).
    unfold relink_blk. destruct (bs !! u) as [y|]; [|by case_decide]. case_decide; simpl; by destruct y. }
  assert (forall u, u <> m -> blk bs' u = blk bs u) as Hblk.
  { intros u Hum. by apply (relink_blk_blk bs bs' None 0 (head l2) m), Hu. }
  assert (blk bs' m = Some (m_size hm + m_size hx + sizeof_m_header, true)) as Bm'.
  { rewrite (blk_header bs' m hm' Hm') by done. simpl. rewrite (proj2 (Z.eqb_neq _ _) Fm). do 2 f_equal. unfold sizeof_m_header. lia. }
  exists bs'. split_and!.
  - rewrite (upd_block_bind k bs m hm _ _ Hm), (upd_block_bind k _ m _ _ _ (lookup_insert_eq _ _ _)), insert_insert_eq.
    rewrite w64_small by lia. match goal with |- when _ _ (mkk k ?b) = _ => replace b with bs1 end.
    + apply when_upd_block. intros Hn0. rewrite En in Hn0 |- *. destruct (head l2) as [u|]; [|done].
      destruct (Hhead u eq_refl) as (_ & ? & _ & ?). simpl. unfold bs1. by rewrite lookup_insert_ne.
    + unfold bs1, hm', set_m_next, set_m_size. simpl. by rewrite Em.
  - rewrite El in Hr. replace (l1 ++ m :: l2) with ((l1 ++ [m]) ++ l2) by (by rewrite <-app_assoc).
    replace start with (if decide (l1 ++ [m] = []) then default NULL (head l2) else start) by (rewrite decide_False; [done|by destruct l1]).
    apply (hrep_absorb f bs bs' start (l1 ++ [m]) x l2 m (m_size hm) true (m_size hx) true true Hr); try done.
    + apply elem_of_app. left. apply elem_of_app. right. by left.
    + intros u Hux. rewrite last_snoc. cbn [default]. destruct (decide (u = m)) as [->|Hum].
      * unfold lkb, relink. rewrite Hm', Hm. simpl. rewrite decide_True by done. rewrite En, decide_False; [done|].
        intros Hh. by destruct (Hhead m Hh) as (_ & ? & _).
      * rewrite (relink_blk_lk bs bs' None 0 (head l2) m u) by (by apply Hu). unfold relink.
        destruct (lkb bs u) as [[]|]; [|done]. simpl. by rewrite (decide_False (P := Some m = Some u)) by congruence.
    + intros u _ Hum. by apply Hblk.
  - done.
  - done.
  - intros b s. unfold allocated. split; intros [Hbl E].
    + destruct (decide (b = m)) as [->|Hbm]; [by rewrite Bm' in E|]. rewrite Hblk in E by done. split; [|done].
      apply elem_of_app in Hbl as [?|[?|?]%elem_of_cons]; apply elem_of_app; [by left|done|right; right; by right].
    + destruct (decide (b = m)) as [->|Hbm]; [by rewrite Bm in E|]. rewrite Hblk by done. split; [|done].
      apply elem_of_app in Hbl as [?|[?|[->|?]%elem_of_cons]%elem_of_cons]; apply elem_of_app; [by left|done| |right; by right].
      by rewrite Bx in E.
Qed.

Lemma merge_next_spec k (f : F) bs start l1 a l2 sz :
  hrep f bs start (l1 ++ a :: l2) -> blk bs a = Some (sz, true) ->
  exists bs' l2' sz', merge_next a (mkk k bs) = Ok (tt, mkk k bs') /\ hrep f bs' start (l1 ++ a :: l2') /\
    blk bs' a = Some (sz', true) /\
    heap_view bs' l1 = heap_view bs l1 /\ (a, (sz', true)) :: heap_view bs' l2' = join_next (a, (sz, true)) (heap_view bs l2) /\
    forall b s, allocated bs' (l1 ++ a :: l2') b s <-> allocated bs (l1 ++ a :: l2) b s.
Proof.
  intros Hr Ba. pose proof Hr as [Hd Hb _ _]. destruct (blk_lookup _ _ _ _ Ba) as (h & Hh & Em & <- & Efr).
  assert (a ∈ l1 ++ a :: l2) as Hain by (apply elem_of_app; right; by left).
  destruct (Hb a Hain) as (s0 & f0 & E0 & A1 & A2 & A3). rewrite Ba in E0. injection E0 as <- <-.
  destruct (dll_links _ _ _ _ _ Hd) as [Ha0 Hlka]. unfold lkb in Hlka. rewrite Hh in Hlka. injection Hlka as En Ep.
  unfold merge_next. rewrite (get_block_bind k bs a h _ Hh), En. destruct l2 as [|x l2]; simpl.
  { exists bs, [], (m_size h). done. }
  assert (x ∈ l1 ++ a :: x :: l2) as Hxin by (apply elem_of_app; right; right; by left).
  destruct (dll_elem _ _ _ x Hd Hxin) as [Hx0 _]. destruct (Hb x Hxin) as (sx & fx & Bx & _).
  destruct (blk_lookup _ _ _ _ Bx) as (hx & Hhx & Emx & <- & Efx).
  rewrite (proj2 (Z.eqb_neq _ _)) by done. cbn [negb when]. rewrite (get_block_bind k bs x hx _ Hhx).
  rewrite (view_cons _ _ _ _ Bx). destruct (Z.eqb_spec (is_free hx) 0) as [E0|E0]; cbn [negb when]; cbn [negb] in Efx; subst fx.
  { exists bs, (x :: l2), (m_size h). by rewrite (view_cons _ _ _ _ Bx). }
  unfold stop_of, sizeof_m_header, HHDM_OFFSET in A1, A2, A3. change (sizeof_m_header) with 40 at 1. rewrite (w64_small (a + 40)), w64_small by lia.
  assert (join (a, (m_size h, true)) (x, (m_size hx, true)) = if a + 40 + m_size h =? x then Some (a, (m_size h + m_size hx + sizeof_m_header, true)) else None) as Ej by done.
  destruct (Z.eqb_spec (a + 40 + m_size h) x) as [Ee|Ee]; cbn [when].
  2: { exists bs, (x :: l2), (m_size h). rewrite (view_cons _ _ _ _ Bx). unfold join_next. by rewrite Ej. }
  destruct (absorb_spec k f bs start l1 a x l2 h hx Hr Hh Hhx Em Emx) as (bs' & E & Hr' & Ba' & Hoth & Hal); try done.
  { symmetry in Efr. apply negb_true_iff, Z.eqb_neq in Efr. done. }
  pose proof Hd as [_ Hnd]. apply NoDup_app in Hnd as (_ & Hd12 & Hnd). apply NoDup_cons in Hnd as [Hax _].
  exists bs', l2, (m_size h + m_size hx + sizeof_m_header). split_and!; try done.
  - apply view_ext. intros u Hu. apply Hoth. intros ->. apply (Hd12 a Hu). by left.
  - unfold join_next. rewrite Ej. f_equal. apply view_ext. intros u Hu. apply Hoth. intros ->. apply Hax. by right.
Qed.

Lemma merge_prev_spec k (f : F) bs start l1 a l2 sz :
  hrep f bs start (l1 ++ a :: l2) -> blk bs a = Some (sz, true) ->
  exists bs' l', merge_prev a (mkk k bs) = Ok (tt, mkk k bs') /\ hrep f bs' start l' /\
    heap_view bs' l' = join_prev (heap_view bs l1) (a, (sz, true)) (heap_view bs l2) /\
    forall b s, allocated bs' l' b s <-> allocated bs (l1 ++ a :: l2) b s.
Proof.
  intros Hr Ba. pose proof Hr as [Hd Hb _ _]. destruct (blk_lookup _ _ _ _ Ba) as (h & Hh & Em & <- & Efr).
  destruct (dll_links _ _ _ _ _ Hd) as [Ha0 Hlka]. unfold lkb in Hlka. rewrite Hh in Hlka. injection Hlka as En Ep.
  unfold merge_prev. rewrite (get_block_bind k bs a h _ Hh), Ep. destruct l1 as [|p l1 _] using rev_ind; simpl.
  { exists bs, (a :: l2). by rewrite (view_cons _ _ _ _ Ba). }
  rewrite last_snoc. cbn [default]. rewrite <-app_assoc in Hr, Hd |- *. simpl in Hr, Hd |- *.
  assert (p ∈ l1 ++ p :: a :: l2) as Hpin by (apply elem_of_app; right; by left).
  destruct (dll_elem _ _ _ p Hd Hpin) as [Hp0 _].
  assert (forall u, u ∈ l1 ++ p :: a :: l2 -> exists sz fr, blk bs u = Some (sz, fr) /\ 0 <= sz /\ HHDM_OFFSET <= u /\ stop_of u sz <= 2 ^ 64 - 4096)
    as Hb' by (apply (hr_blk _ _ _ _ Hr)).
  destruct (Hb' p Hpin) as (sp & fp & Bp & P1 & P2 & P3). destruct (blk_lookup _ _ _ _ Bp) as (hp & Hhp & Emp & <- & Efp).
  rewrite (proj2 (Z.eqb_neq _ _)) by done. cbn [negb when]. rewrite (get_block_bind k bs p hp _ Hhp).
  assert (heap_view bs (l1 ++ p :: a :: l2) = (heap_view bs l1 ++ [(p, (m_size hp, fp))]) ++ (a, (m_size h, true)) :: heap_view bs l2) as Ev.
  { by rewrite view_app, (view_cons _ _ _ _ Bp), (view_cons _ _ _ _ Ba), <-app_assoc. }
  assert (forall z, removelast (heap_view bs l1 ++ [z]) = heap_view bs l1) as Erl by (intros z; apply removelast_last).
  assert (heap_view bs (l1 ++ [p]) = heap_view bs l1 ++ [(p, (m_size hp, fp))]) as El by (by rewrite view_app, (view_cons _ _ _ _ Bp)).
  unfold join_prev. rewrite El, last_snoc.
  destruct (Z.eqb_spec (is_free hp) 0) as [E0|E0]; cbn [negb when]; cbn [negb] in Efp; subst fp.
  { exists bs, (l1 ++ p :: a :: l2). by rewrite Ev. }
  unfold stop_of, sizeof_m_header, HHDM_OFFSET in P1, P2, P3. change (sizeof_m_header) with 40 at 1. rewrite (w64_small (p + 40)), w64_small by lia.
  assert (join (p, (m_size hp, true)) (a, (m_size h, true)) = if p + 40 + m_size hp =? a then Some (p, (m_size hp + m_size h + sizeof_m_header, true)) else None) as -> by done.
  destruct (Z.eqb_spec (p + 40 + m_size hp) a) as [Ee|Ee]; cbn [when]; [|exists bs, (l1 ++ p :: a :: l2); by rewrite Ev].
  destruct (absorb_spec k f bs start l1 p a l2 hp h Hr Hhp Hh Emp Em) as (bs' & E & Hr' & Bp' & Hoth & Hal); try done.
  { symmetry in Efr. apply negb_true_iff, Z.eqb_neq in Efr. done. }
  pose proof Hd as [_ Hnd]. apply NoDup_app in Hnd as (_ & Hd12 & Hnd). apply NoDup_cons in Hnd as [Hpa _].
  exists bs', (l1 ++ p :: l2). split_and!; [exact E|done| |exact Hal].
  rewrite Erl, view_app, (view_cons _ _ _ _ Bp'). f_equal; [|f_equal]; apply view_ext; intros u Hu; apply Hoth; intros ->.
  - apply (Hd12 p Hu). by left.
  - apply Hpa. by right.
Qed.
End merge.
