(* ===== verification/KmallocSpec.v ===== *)
(** * The kernel heap: allocation and release

    [kmalloc] and [kfree] as operations on the set of allocated blocks. *)

From S2P Require Import Prelude Lock Frames Chain Dll Slab SlabProof SlabSpec Kmalloc KmallocProof.

Section spec.
Context {F : Type} `{FrameAllocatorOk F}.
Implicit Types k : kheap F.

Definition pmm_of k : F := sl_pmm (km_slab k).

Record kheap_ok k (l : list Z) : Prop := {
  ko_rep : hrep (pmm_of k) (blocks k) (heap_start k) l;
  ko_lock : lock_free (heap_lock_ k);
  ko_pmm : fa_ok (pmm_of k);
  ko_zero : fa_used (pmm_of k) 0 = true;
  ko_frames : fa_frames (pmm_of k) < 2 ^ 35;
}.

#[export] Instance kheap_hart_ok : HasHartOk (kheap F).
Proof.
  split; intros; cbn [lget lset hart_of kheap_hart set_km_slab km_slab];
    [apply lget_lset|by rewrite lset_lset|]. rewrite lset_lget. by destruct s.
Qed.

(** The state after a critical section of the heap lock whose body left the
    blocks [bs] and the start [st]. *)
Definition after k (st : Z) (bs : gmap Z m_header) : kheap F :=
  mkKheap (km_slab k) bs st (released (lget hart_of k) (heap_lock_ k)) (page_words k).

Lemma heap_critical {A} (body : M (kheap F) A) k a st bs :
  hart_ok (lget hart_of k) -> lock_free (heap_lock_ k) ->
  body (mkk (enter heap_lock k) (blocks k)) = Ok (a, mkk (set_heap_start st (enter heap_lock k)) bs) ->
  critical heap_lock body k = Ok (a, after k st bs).
Proof.
  intros Hh Hl Hb. change (mkk (enter heap_lock k) (blocks k)) with (enter heap_lock k) in Hb. rewrite (critical_ok heap_lock body k a _ Hh Hl Hb); [|done|done].
  do 2 f_equal. unfold leave, after, enter. cbn [lset lget heap_lock hart_of kheap_hart mkk set_blocks set_heap_start set_km_slab km_slab blocks heap_start heap_lock_ page_words].
  by rewrite lset_lset, lset_lget.
Qed.

(** Headers outside a cleared range survive. *)
Lemma clear_rep (f : F) bs start l p len :
  hrep f bs start l -> (forall u, u ∈ l -> in_range p len u = false) ->
  let bs' := filter (fun b => in_range p len b.1 = false) bs in
  hrep f bs' start l /\ (forall u, u ∈ l -> bs' !! u = bs !! u) /\ forall b s, allocated bs' l b s <-> allocated bs l b s.
Proof.
  intros Hr Hout bs'. assert (forall u, u ∈ l -> bs' !! u = bs !! u) as Hl.
  { intros u Hu. unfold bs'. rewrite map_lookup_filter. destruct (bs !! u) as [h|]; [|done]. simpl.
    rewrite option_guard_True; [done|]. by apply Hout. }
  assert (forall u, u ∈ l -> blk bs' u = blk bs u) as Hb by (intros u Hu; unfold blk; by rewrite Hl).
  split_and!; [|done|].
  - apply (hrep_state f f bs); try done; [intros u Hu; unfold lkb; by rewrite Hl|]. intros u sz fr Hu E. exists fr. by rewrite Hb.
  - intros b s. unfold allocated. split; intros [Hbl E]; split; try done; by rewrite Hb in *.
Qed.

Lemma hrep_length (f : F) bs start l : hrep f bs start l -> (length l < S (size bs))%nat.
Proof.
  intros [[Hd Hnd] _ _ _]. apply fuel_enough; [done|]. intros u Hu. destruct (dseg_elem _ _ _ _ _ u Hd Hu) as [_ Hs].
  by apply fmap_is_Some in Hs.
Qed.

(** The search and the split, under the lock. *)
Definition fit_body (size : Z) : M (kheap F) (Z * Z) :=
  n <- block_fuel ;;
  start <- gets heap_start ;;
  r <- first_fit n size start NULL ;;
  when (negb (r.1 =? NULL)) (take_block r.1 size) ;;;
  ret r.

Lemma fit_body_spec k (f : F) l size :
  hrep f (blocks k) (heap_start k) l -> 0 <= size ->
  (fit_body size (mkk k (blocks k)) = Ok ((NULL, default NULL (last l)), mkk k (blocks k)) /\
     forall u, u ∈ l -> fits (blocks k) size u = false) \/
  exists a la bs' l' sz h', fit_body size (mkk k (blocks k)) = Ok ((a, la), mkk k bs') /\ hrep f bs' (heap_start k) l' /\
    size <= sz /\ a <> NULL /\ a ∈ l' /\ bs' !! a = Some h' /\ m_size h' = sz /\
    (forall s, ~ allocated (blocks k) l a s) /\
    forall b s, allocated bs' l' b s <-> (b = a /\ s = sz) \/ allocated (blocks k) l b s.
Proof.
  intros Hr Hs.
  assert (fit_body size (mkk k (blocks k)) = (r <- first_fit (S (base.size (blocks k))) size (default NULL (head l)) NULL ;;
    when (negb (r.1 =? NULL)) (take_block r.1 size) ;;; ret r) (mkk k (blocks k))) as ->.
  { by rewrite <-(dll_head _ _ _ (hr_dll _ _ _ _ Hr)). }
  destruct (first_fit_spec (S (base.size (blocks k))) size k (blocks k) (heap_start k) [] l (hr_dll _ _ _ _ Hr) (hrep_length _ _ _ _ Hr))
    as [[E Hno]|(l1 & a & l2 & El & Hfit & Hno & E)]; cbn [last default] in E.
  - left. by rewrite (bind_ok _ _ _ _ _ E).
  - right. subst l. unfold fits in Hfit. destruct (blocks k !! a) as [h|] eqn:Ha; [|done].
    apply andb_true_iff in Hfit as [Hfr%negb_true_iff%Z.eqb_neq Hle%Z.leb_le].
    assert (a ∈ l1 ++ a :: l2) as Hain by (apply elem_of_app; right; by left).
    destruct (hr_blk _ _ _ _ Hr a Hain) as (s0 & f0 & B0 & _). destruct (blk_lookup _ _ _ _ B0) as (h1 & Hh1 & Em & Esz & Efr).
    rewrite Ha in Hh1. injection Hh1 as <-.
    destruct (take_block_spec k f (blocks k) (heap_start k) l1 a l2 h size Hr Ha Em Hfr ltac:(lia)) as (bs' & l' & sz & E2 & Hr' & Hsz & (h' & Hh' & Es') & Hal).
    destruct (dll_elem _ _ _ a (hr_dll _ _ _ _ Hr) Hain) as [Ha0 _].
    assert (forall s, ~ allocated (blocks k) (l1 ++ a :: l2) a s) as Hna.
    { intros s [_ Bs]. rewrite B0 in Bs. injection Bs as _ ->. symmetry in Efr. apply negb_false_iff, Z.eqb_eq in Efr. done. }
    exists a, (default NULL (last l1)), bs', l', sz, h'. split_and!; try done.
    + rewrite (bind_ok _ _ _ _ _ E). cbn [fst]. rewrite (proj2 (Z.eqb_neq _ _)) by done. cbn [negb when].
      by rewrite (bind_ok _ _ _ _ _ E2).
    + apply (Hal a sz). by left.
    + intros b s. rewrite Hal. destruct (decide (b = a)) as [->|]; [|tauto]. split; [tauto|]. intros [?|Hn]; [tauto|by apply Hna in Hn].
Qed.

Definition frames_for (size : Z) : Z := w64 (w64 (size + sizeof_m_header) + 4095) / 4096.

(** What an allocation leaves behind. *)
Definition alloc_post (size : Z) k (l : list Z) (p : Z) (bs' : gmap Z m_header) (l' : list Z) : Prop :=
  (p = NULL /\ (exists f', fa_alloc_n (frames_for size) (pmm_of k) = Ok (NULL, f')) /\
     forall b s, allocated bs' l' b s <-> allocated (blocks k) l b s) \/
  (exists a sz, p = a + sizeof_m_header /\ p <> NULL /\ size <= sz /\ (forall s, ~ allocated (blocks k) l a s) /\
     forall b s, allocated bs' l' b s <-> (b = a /\ s = sz) \/ allocated (blocks k) l b s).

(** A block that was found in the list: its payload is cleared. *)
Lemma found_spec k (f : F) start bs' l' a h' :
  hrep f bs' start l' -> blocks k = bs' -> a ∈ l' -> bs' !! a = Some h' ->
  let p := a + sizeof_m_header in
  exists bs2, (h <- get_block a ;; memset0 p (m_size h) ;;; ret p) k =
      Ok (p, set_page_words (filter (fun w => in_range p (m_size h') w.1 = false) (page_words k)) (set_blocks bs2 k)) /\
    hrep f bs2 start l' /\ forall b s, allocated bs2 l' b s <-> allocated bs' l' b s.
Proof.
  intros Hr Ek Ha Hh p. destruct (hr_blk _ _ _ _ Hr a Ha) as (sz & fr & Ba & Hsz & _).
  destruct (blk_lookup _ _ _ _ Ba) as (h & Hh2 & _ & Esz & _). rewrite Hh in Hh2. injection Hh2 as <-.
  destruct (clear_rep f bs' start l' p (m_size h') Hr) as (Hr2 & _ & Hal).
  { intros u Hu. unfold in_range. apply andb_false_iff. destruct (decide (u = a)) as [->|Hne]; [left; apply Z.leb_gt; unfold p, sizeof_m_header; lia|].
    destruct (hr_blk _ _ _ _ Hr u Hu) as (su & fu & Bu & Hsu & _). pose proof (hr_apart _ _ _ _ Hr a u _ _ _ _ Ha Hu (not_eq_sym Hne) Ba Bu) as A.
    rewrite Z.leb_gt, Z.ltb_ge. unfold p, apart, stop_of, sizeof_m_header in *. lia. }
  exists (filter (fun b => in_range p (m_size h') b.1 = false) bs'). split_and!; [|done|done].
  rewrite <-(mkk_id k), (get_block_bind k (blocks k) a h') by (by rewrite Ek). rewrite mkk_id. unfold bind, memset0, modify, ret. by rewrite Ek.
Qed.

Lemma frames_for_eq size : 0 <= size <= 2 ^ 62 ->
  0 < frames_for size < 2 ^ 64 /\ size + sizeof_m_header <= frames_for size * 4096.
Proof.
  intros Hs. unfold frames_for, sizeof_m_header. rewrite !w64_small by (rewrite ?w64_small; lia).
  pose proof (Z.div_mod (size + 40 + 4095) 4096 ltac:(lia)) as E. pose proof (Z.mod_pos_bound (size + 40 + 4095) 4096 ltac:(lia)) as B. lia.
Qed.

(** New frames: the second half of [kmalloc]. *)
Lemma expand_spec k l size :
  kheap_ok k l -> 0 <= size <= 2 ^ 62 ->
  exists p k' l', (new_frames <- on_slab (on_pmm (fa_alloc_n (frames_for size))) ;;
      if new_frames =? NULL then ret NULL else
      memset0 (phys_to_virt new_frames) (w64 (frames_for size * 4096)) ;;;
      critical heap_lock (add_block (phys_to_virt new_frames) (frames_for size) size (default NULL (last l))) ;;;
      ret (w64 (phys_to_virt new_frames + sizeof_m_header))) k = Ok (p, k') /\ kheap_ok k' l' /\
    lget hart_of k' = lget hart_of k /\ alloc_post size k l p (blocks k') l'.
Proof.
  intros [Hr Hl Hok Hz Hfr] Hs. destruct (frames_for_eq size Hs) as [Hn Hcap]. set (n := frames_for size) in *.
  pose proof (fa_alloc_n_spec (pmm_of k) n Hok ltac:(lia) Hz) as Hspec. apply wp_ok in Hspec as (r & f' & Ea & Hok' & Hh' & Hfr' & Hfresh).
  set (k1 := set_km_slab (set_sl_pmm f' (km_slab k)) k).
  assert (on_slab (on_pmm (fa_alloc_n n)) k = Ok (r, k1)) as E1.
  { unfold on_slab, on_pmm. change (sl_pmm (km_slab k)) with (pmm_of k). by rewrite Ea. }
  rewrite (bind_ok _ _ _ _ _ E1). destruct Hfresh as [[-> Hu]|(x & -> & Hx & Hle & Hfree & Hu)].
  - exists NULL, k1, l. split_and!; [done| |done|left; split_and!; [done|by exists f'|done]]. split; try done.
    + apply (hrep_state (pmm_of k) _ (blocks k)); try done; [by intros u sz fr _ E; exists fr|].
      intros y. unfold byte_used. cbn. by rewrite Hu.
    + change (fa_used f' 0 = true). by rewrite Hu.
    + change (fa_frames f' < 2 ^ 35). by rewrite Hfr'.
  - unfold PAGE_SIZE. rewrite (proj2 (Z.eqb_neq _ _)) by (unfold NULL; lia).
    assert (HHDM_OFFSET + 2 ^ 35 * 4096 = 2 ^ 64) as Etop by done.
    assert (phys_to_virt (x * 4096) = HHDM_OFFSET + x * 4096) as Ev.
    { unfold phys_to_virt. rewrite w64_small; [lia|]. unfold HHDM_OFFSET in *. lia. }
    rewrite Ev, (w64_small (n * 4096)) by lia. set (virt := HHDM_OFFSET + x * 4096).
    assert (grown (pmm_of k) f' x n) as Hg by (split; [exact Hfree|exact Hu]).
    destruct (clear_rep (pmm_of k) (blocks k) (heap_start k) l virt (n * 4096) Hr) as (Hr1 & _ & Hal1).
    { intros u Hul. destruct (hr_blk _ _ _ _ Hr u Hul) as (su & fu & Bu & Hsu & _).
      pose proof (grown_apart (pmm_of k) f' (blocks k) (heap_start k) l x n u su fu Hr Hg ltac:(lia) Hul Bu) as A.
      unfold in_range. rewrite andb_false_iff, Z.leb_gt, Z.ltb_ge. unfold stop_of, sizeof_m_header, virt in *. lia. }
    set (bs1 := filter (fun b => in_range virt (n * 4096) b.1 = false) (blocks k)) in *.
    set (k2 := set_page_words (filter (fun w => in_range virt (n * 4096) w.1 = false) (page_words k1)) (set_blocks bs1 k1)).
    unfold bind at 1, memset0, modify at 1. change (set_page_words _ _) with k2.
    assert (hrep (pmm_of k) bs1 (heap_start (enter heap_lock k2)) l) as Hr1' by exact Hr1.
    destruct (add_block_spec (enter heap_lock k2) (pmm_of k) f' bs1 l x n size Hr1' Hg Hx ltac:(lia) ltac:(lia) ltac:(lia) Hcap)
      as (bs' & l' & st & sz & E2 & Hr2 & Hsz & Hal2). fold virt in E2, Hal2.
    assert (hart_ok (lget hart_of k2)) as Hh2.
    { change (hart_ok (lget hart_of f')). by apply fa_ok_hart. }
    erewrite bind_ok; [|apply (heap_critical _ k2 tt st bs' Hh2 Hl E2)].
    rewrite w64_small by (unfold virt, sizeof_m_header, HHDM_OFFSET in *; lia).
    exists (virt + sizeof_m_header), (after k2 st bs'), l'. split_and!; [done| | |].
    + split; try done; [by apply released_free| |].
      * change (fa_used f' 0 = true). by rewrite Hu, Hz, orb_true_r.
      * change (fa_frames f' < 2 ^ 35). by rewrite Hfr'.
    + exact Hh'.
    + right. exists virt, sz. split_and!; [done|unfold virt, sizeof_m_header, NULL, HHDM_OFFSET; lia|done| |].
      * intros s [Hin Bs]. destruct (hr_blk _ _ _ _ Hr virt Hin) as (s0 & f0 & B0 & Hs0 & _).
        pose proof (grown_apart (pmm_of k) f' (blocks k) (heap_start k) l x n virt s0 f0 Hr Hg ltac:(lia) Hin B0) as A.
        unfold stop_of, sizeof_m_header, virt in A. lia.
      * intros b s. change (blocks (after k2 st bs')) with bs'. by rewrite Hal2, Hal1.
Qed.

Lemma heap_alloc_spec k l size :
  kheap_ok k l -> 0 <= size <= 2 ^ 62 ->
  exists p k' l', heap_alloc size k = Ok (p, k') /\ kheap_ok k' l' /\ lget hart_of k' = lget hart_of k /\
    alloc_post size k l p (blocks k') l' /\ (p = NULL -> forall u, u ∈ l -> fits (blocks k) size u = false).
Proof.
  intros Hk Hs. pose proof Hk as [Hr Hl Hok Hz Hfr].
  assert (hart_ok (lget hart_of k)) as Hh by (exact (fa_ok_hart _ Hok)).
  unfold heap_alloc. fold (fit_body size).
  assert (hrep (pmm_of k) (blocks (enter heap_lock k)) (heap_start (enter heap_lock k)) l) as Hr0 by exact Hr.
  destruct (fit_body_spec (enter heap_lock k) (pmm_of k) l size Hr0 ltac:(lia)) as
    [[E Hno]|(a & la & bs' & l' & sz & h' & E & Hr' & Hsz & Ha0 & Hain & Hh' & Es' & Hna & Hal)].
  - erewrite bind_ok; [|apply (heap_critical _ k _ (heap_start k) (blocks k) Hh Hl E)].
    cbn [fst snd]. change (negb (NULL =? NULL)) with false. cbv iota.
    destruct (expand_spec (after k (heap_start k) (blocks k)) l size) as (p & k' & l' & E2 & Hk' & Hh' & Hpost); [|done|].
    { split; try done. by apply released_free. }
    exists p, k', l'. split_and!; [exact E2|done|by rewrite Hh'|exact Hpost|by intros _].
  - erewrite bind_ok; [|apply (heap_critical _ k _ (heap_start k) bs' Hh Hl E)].
    cbn [fst snd]. rewrite (proj2 (Z.eqb_neq _ _)) by done. cbn [negb].
    destruct (hr_blk _ _ _ _ Hr' a Hain) as (s0 & f0 & B0 & Hs0 & Hlo & Hhi).
    rewrite w64_small by (unfold stop_of, sizeof_m_header, HHDM_OFFSET in *; lia).
    destruct (found_spec (after k (heap_start k) bs') (pmm_of k) (heap_start k) bs' l' a h' Hr' eq_refl Hain Hh') as (bs2 & E2 & Hr2 & Hal2).
    eexists _, _, l'. split; [exact E2|]. split; [|split; [done|]].
    + split; try done. by apply released_free.
    + assert (a + sizeof_m_header <> NULL) as Hp0 by (unfold sizeof_m_header, NULL, HHDM_OFFSET in *; lia).
      split; [|by intros]. right. exists a, sz. split_and!; try done.
      intros b s. cbn [blocks set_page_words set_blocks]. by rewrite Hal2, Hal.
Qed.

(** ** Rounding *)

Lemma round16_eq size : 0 <= size <= 2 ^ 61 -> size <= round16 size <= size + 15.
Proof.
  intros Hs. unfold round16. rewrite (w64_small (size + 15)) by lia.
  change (w64 (Z.lnot 15)) with (2 ^ 64 - 16).
  replace (Z.land (size + 15) (2 ^ 64 - 16)) with (Z.land (size + 15) (Z.lnot (Z.ones 4))).
  - rewrite <-Z.ldiff_land, Z.ldiff_ones_r, Z.shiftl_mul_pow2, Z.shiftr_div_pow2 by lia. change (2 ^ 4) with 16.
    pose proof (Z.div_mod (size + 15) 16 ltac:(lia)) as E. pose proof (Z.mod_pos_bound (size + 15) 16 ltac:(lia)) as B. lia.
  - change (2 ^ 64 - 16) with (Z.ldiff (Z.ones 64) (Z.ones 4)). rewrite Z.ldiff_land, Z.land_assoc, Z.land_ones by lia.
    by rewrite Z.mod_small by lia.
Qed.

(** ** Release *)

(** Marking block [a] free. *)
Lemma mark_free_spec (f : F) bs start l a sz h :
  hrep f bs start l -> allocated bs l a sz -> bs !! a = Some h ->
  let bs' := <[a := set_is_free 1 h]> bs in
  hrep f bs' start l /\ blk bs' a = Some (sz, true) /\ (forall u, u <> a -> blk bs' u = blk bs u) /\
  forall b s, allocated bs' l b s <-> b <> a /\ allocated bs l b s.
Proof.
  intros Hr [Hain Ba] Hh bs'. destruct (blk_lookup _ _ _ _ Ba) as (h0 & Hh0 & Em & Esz & Efr). rewrite Hh in Hh0. injection Hh0 as <-.
  assert (blk bs' a = Some (sz, true)) as Ba'.
  { unfold blk, bs'. rewrite lookup_insert_eq. simpl. by rewrite decide_True, Esz. }
  assert (forall u, u <> a -> blk bs' u = blk bs u) as Hother by (intros u Hu; unfold blk, bs'; by rewrite lookup_insert_ne).
  split_and!; [|done|done|].
  - apply (hrep_state f f bs); try done.
    + intros u _. unfold lkb, bs'. destruct (decide (u = a)) as [->|Hu]; [by rewrite lookup_insert_eq, Hh|by rewrite lookup_insert_ne].
    + intros u su fu Hu Bu. destruct (decide (u = a)) as [->|Hne]; [|exists fu; by rewrite Hother].
      exists true. rewrite Ba in Bu. by injection Bu as <- <-.
  - intros b s. unfold allocated. destruct (decide (b = a)) as [->|Hne]; [rewrite Ba'|rewrite Hother by done]; [|tauto].
    split; [by intros [_ ?]|by intros [? _]].
Qed.

Lemma free_body_spec k (f : F) l1 a l2 sz :
  let l := l1 ++ a :: l2 in
  hrep f (blocks k) (heap_start k) l -> allocated (blocks k) l a sz ->
  exists bs' l', (upd_block a (set_is_free 1) ;;; merge_next a ;;; merge_prev a) (mkk k (blocks k)) = Ok (tt, mkk k bs') /\
    hrep f bs' (heap_start k) l' /\
    heap_view bs' l' = coalesce (heap_view (blocks k) l1) (a, (sz, true)) (heap_view (blocks k) l2) /\
    forall b s, allocated bs' l' b s <-> b <> a /\ allocated (blocks k) l b s.
Proof.
  intros l Hr Hal. pose proof Hal as [Hain Ba]. destruct (blk_lookup _ _ _ _ Ba) as (h & Hh & _).
  destruct (mark_free_spec f _ _ l a sz h Hr Hal Hh) as (Hr1 & Ba1 & Hoth & Hal1). set (bs1 := <[a := _]> (blocks k)) in *.
  destruct (merge_next_spec k f bs1 _ l1 a l2 sz Hr1 Ba1) as (bs2 & l2' & sz2 & E2 & Hr2 & Ba2 & V1 & V2 & Hal2).
  destruct (merge_prev_spec k f bs2 _ l1 a l2' sz2 Hr2 Ba2) as (bs3 & l3 & E3 & Hr3 & V3 & Hal3).
  exists bs3, l3. split_and!; [|done| |].
  - rewrite (upd_block_bind k (blocks k) a h _ _ Hh). fold bs1. by rewrite (bind_ok _ _ _ _ _ E2).
  - destruct (hr_dll _ _ _ _ Hr) as [_ Hnd]. apply NoDup_app in Hnd as (_ & Hd12 & Hnd). apply NoDup_cons in Hnd as [Ha2 _].
    assert (heap_view bs1 l1 = heap_view (blocks k) l1) as W1 by (apply view_ext; intros u Hu; apply Hoth; intros ->; apply (Hd12 a Hu); by left).
    assert (heap_view bs1 l2 = heap_view (blocks k) l2) as W2 by (apply view_ext; intros u Hu; apply Hoth; by intros ->).
    rewrite V3. unfold coalesce. by rewrite <-W2, <-V2, V1, W1.
  - intros b s. rewrite Hal3, Hal2. apply Hal1.
Qed.

(** ** What a release never changes: which headers exist, their magic numbers
    and, but for the freed block, their states *)

Definition tag (h : m_header) : Z * Z := (m_magic h, is_free h).

Definition same_tags k k' : Prop :=
  (forall u, tag <$> blocks k' !! u = tag <$> blocks k !! u) /\
  headers (km_slab k') = headers (km_slab k) /\ page_words k' = page_words k.

#[local] Instance same_tags_trans : Transitive same_tags.
Proof. intros k1 k2 k3 (A & B & C) (A' & B' & C'). split_and!; [intros u; by rewrite A', A|by rewrite B', B|by rewrite C', C]. Qed.

Definition keeps {A} (m : M (kheap F) A) : Prop := forall k a k', m k = Ok (a, k') -> same_tags k k'.

Lemma keeps_ret {A} (a : A) : keeps (ret a).
Proof. intros k b k' [= <- <-]. by split_and!. Qed.

Lemma keeps_bind {A B} (m : M (kheap F) A) (c : A -> M (kheap F) B) : keeps m -> (forall a, keeps (c a)) -> keeps (bind m c).
Proof.
  intros Hm Hc k b k' E. unfold bind in E. destruct (m k) as [[a k1]| | |] eqn:E1; try done.
  etrans; [by eapply Hm|by eapply Hc].
Qed.

Lemma keeps_when c (m : M (kheap F) unit) : keeps m -> keeps (when c m).
Proof. intros Hm. destruct c; [done|apply keeps_ret]. Qed.

Lemma keeps_get_block a : keeps (get_block a).
Proof.
  intros k h k' E. unfold get_block, bind, gets, deref in E. destruct (blocks k !! a); [|done]. injection E as <- <-. by split_and!.
Qed.

Lemma keeps_upd a g : (forall h, tag (g h) = tag h) -> keeps (upd_block a g).
Proof.
  intros Hg k [] k' E. unfold upd_block, get_block, bind, gets, deref in E. destruct (blocks k !! a) as [h|] eqn:Eh; [|done].
  injection E as <-. split_and!; [|done|done]. intros u. cbn [blocks set_blocks].
  destruct (decide (u = a)) as [->|]; [rewrite lookup_insert_eq, Eh; simpl; by rewrite Hg|by rewrite lookup_insert_ne].
Qed.

Lemma keeps_merge_next a : keeps (merge_next a).
Proof.
  unfold merge_next. cbv zeta. repeat (apply keeps_get_block || (apply keeps_upd; done) || apply keeps_when || apply keeps_bind || intros ?).
Qed.

Lemma keeps_merge_prev a : keeps (merge_prev a).
Proof.
  unfold merge_prev. cbv zeta. repeat (apply keeps_get_block || (apply keeps_upd; done) || apply keeps_when || apply keeps_bind || intros ?).
Qed.

(** A critical section that returns ran its body, and the rest of it keeps the tags. *)
Lemma critical_inv {A} (body : M (kheap F) A) k a k' :
  critical heap_lock body k = Ok (a, k') ->
  exists k1 k2, body k1 = Ok (a, k2) /\ same_tags k k1 /\ same_tags k2 k'.
Proof.
  assert (keeps spin_irq_save) as K1 by (intros k0 b k0' [= <- <-]; by split_and!).
  assert (keeps (spin_lock heap_lock)) as K2.
  { intros k0 [] k0' E. unfold spin_lock, get_cpu_id, bind, gets, modify, deref, hang, ret in E.
    repeat (match type of E with context [if ?c then _ else _] => destruct c end; try done);
    try (destruct (cpu_id _); [|done]); injection E as <-; by split_and!. }
  assert (keeps (spin_unlock heap_lock)) as K3.
  { intros k0 [] k0' E. unfold spin_unlock, bind, gets, modify, ret in E. destruct (negb _); injection E as <-; by split_and!. }
  unfold critical. intros E.
  destruct (bind_inv _ _ _ _ _ E) as (fl & ka & Ea & E1). destruct (bind_inv _ _ _ _ _ E1) as ([] & kb & Eb & E2).
  destruct (bind_inv _ _ _ _ _ E2) as (b & kc & Ec & E3). destruct (bind_inv _ _ _ _ _ E3) as ([] & kd & Ed & E4).
  injection E4 as -> <-. exists kb, kc. split_and!; [done|etrans; [by eapply K1|by eapply K2]|].
  etrans; [by eapply K3|]. by split_and!.
Qed.

(** ** The correctness of the heap *)

(** C13: a request too large for the slabs gets a block of its own: the call
    returns with the heap well formed and, unless it returns NULL, with exactly
    one more block handed out, which holds at least [size] bytes and overlaps
    none of the others. It returns NULL only when no free block is large
    enough and the frame allocator has no run of frames; then nothing changes. *)
Theorem kmalloc_large_correct k l size :
  kheap_ok k l -> 2048 < size <= 2 ^ 61 ->
  exists p k' l', kmalloc size k = Ok (p, k') /\ kheap_ok k' l' /\ lget hart_of k' = lget hart_of k /\
    ((p = NULL /\ (forall u, u ∈ l -> fits (blocks k) (round16 size) u = false) /\
        (exists f', fa_alloc_n (frames_for (round16 size)) (pmm_of k) = Ok (NULL, f')) /\
        forall b s, allocated (blocks k') l' b s <-> allocated (blocks k) l b s) \/
     (exists a sz, p = a + sizeof_m_header /\ p <> NULL /\ size <= sz /\
        (forall b s, allocated (blocks k) l b s -> b <> a /\ apart a sz b s) /\
        forall b s, allocated (blocks k') l' b s <-> (b = a /\ s = sz) \/ allocated (blocks k) l b s)).
Proof.
  intros Hk Hs. pose proof (round16_eq size ltac:(lia)) as Hr16.
  destruct (heap_alloc_spec k l (round16 size) Hk ltac:(lia)) as (p & k' & l' & E & Hk' & Hh & Hpost & Hnull).
  exists p, k', l'. split_and!; [|done|done|].
  - unfold kmalloc. rewrite (proj2 (Z.eqb_neq _ _)), (proj2 (Z.leb_gt _ _)) by lia. exact E.
  - destruct Hpost as [(-> & Hf & Hal)|(a & sz & -> & Hp0 & Hsz & Hna & Hal)]; [left; split_and!; auto|right].
    exists a, sz. split_and!; [done|done|lia| |done]. intros b s Hb.
    assert (b <> a) as Hne by (intros ->; by apply Hna in Hb). split; [done|].
    destruct (proj2 (Hal a sz) (or_introl (conj eq_refl eq_refl))) as [Ha1 Ha2]. destruct (proj2 (Hal b s) (or_intror Hb)) as [Hb1 Hb2].
    by apply (hr_apart _ _ _ _ (ko_rep _ _ Hk') a b sz false s false).
Qed.

(** A request within 15 bytes of the top of [size_t] wraps around when it
    is rounded up to 16: [kmalloc] searches for a block of 0 bytes and answers
    with one. *)
Theorem kmalloc_size_wraps k size : 2 ^ 64 - 15 <= size < 2 ^ 64 -> kmalloc size k = heap_alloc 0 k.
Proof.
  intros Hs. unfold kmalloc. rewrite (proj2 (Z.eqb_neq _ _)), (proj2 (Z.leb_gt _ _)) by lia.
  unfold bind, ret. cbn [negb]. change (NULL =? NULL) with true. cbv iota.
  assert (round16 size = 0) as ->; [|done]. unfold round16.
  assert (w64 (size + 15) = size + 15 - 2 ^ 64) as ->.
  { unfold w64. rewrite <-(Z.mod_small (size + 15 - 2 ^ 64) (2 ^ 64)) by lia.
    replace (size + 15) with (size + 15 - 2 ^ 64 + 1 * 2 ^ 64) at 1 by lia. by rewrite Z.mod_add. }
  assert (0 <= size + 15 - 2 ^ 64 < 15) as Hb by lia. generalize dependent (size + 15 - 2 ^ 64). intros z Hz.
  assert (z ∈ seqZ 0 15) as Hin by (apply elem_of_seqZ; lia). revert z Hin Hz. clear.
  assert (Forall (fun z => Z.land z (w64 (Z.lnot 15)) = 0) (seqZ 0 15)) as HF by by_decide.
  intros z Hin _. by rewrite Forall_forall in HF; apply HF.
Qed.

Lemma kfree_run k l1 a l2 sz w :
  let l := l1 ++ a :: l2 in
  kheap_ok k l -> allocated (blocks k) l a sz ->
  let p := a + sizeof_m_header in
  word_at (get_slab_from_ptr p) k = Ok (w, k) -> w <> SLAB_MAGIC ->
  exists k' l', kfree p k = Ok (tt, k') /\ kheap_ok k' l' /\ lget hart_of k' = lget hart_of k /\ km_slab k' = km_slab k /\
    heap_view (blocks k') l' = coalesce (heap_view (blocks k) l1) (a, (sz, true)) (heap_view (blocks k) l2) /\
    forall b s, allocated (blocks k') l' b s <-> b <> a /\ allocated (blocks k) l b s.
Proof.
  intros l [Hr Hl Hok Hz Hfr] Hal p Hw Hne. pose proof Hal as [Hain Ba]. destruct (blk_lookup _ _ _ _ Ba) as (h & Hh & Em & Esz & Efr).
  destruct (hr_blk _ _ _ _ Hr a Hain) as (s0 & f0 & B0 & Hs0 & Hlo & Hhi). rewrite Ba in B0. injection B0 as <- <-.
  assert (hrep (pmm_of k) (blocks (enter heap_lock k)) (heap_start (enter heap_lock k)) l) as Hr0 by exact Hr.
  destruct (free_body_spec (enter heap_lock k) (pmm_of k) l1 a l2 sz Hr0 Hal) as (bs' & l' & E & Hr' & Hv & Hal').
  pose proof (heap_critical _ k tt (heap_start k) bs' (fa_ok_hart _ Hok) Hl E) as Ec.
  exists (after k (heap_start k) bs'), l'. split_and!; try done.
  - unfold kfree. rewrite (proj2 (Z.eqb_neq _ _)) by (unfold p, sizeof_m_header, NULL, HHDM_OFFSET in *; lia).
    rewrite (bind_ok _ _ _ _ _ Hw), (proj2 (Z.eqb_neq _ _)) by done.
    replace (w64 (p - sizeof_m_header)) with a.
    2:{ unfold p. rewrite w64_small; [lia|]. unfold stop_of, sizeof_m_header, HHDM_OFFSET in *. lia. }
    cbv zeta. rewrite <-(mkk_id k), (get_block_bind k (blocks k) a h _ Hh), mkk_id, Em, Z.eqb_refl. cbn [negb].
    rewrite <-Efr. exact Ec.
  - split; try done. by apply released_free.
Qed.


(** What a release that returned did to the headers. *)
Lemma release_tags a k k' h :
  blocks k !! a = Some h ->
  critical heap_lock (upd_block a (set_is_free 1) ;;; merge_next a ;;; merge_prev a) k = Ok (tt, k') ->
  (forall u, m_magic <$> blocks k' !! u = m_magic <$> blocks k !! u) /\ is_free <$> blocks k' !! a = Some 1 /\
  headers (km_slab k') = headers (km_slab k) /\ page_words k' = page_words k.
Proof.
  intros Eh E. destruct (critical_inv _ _ _ _ E) as (k1 & k2 & Eb & (T1 & S1 & P1) & T2). clear E.
  destruct (bind_inv _ _ _ _ _ Eb) as ([] & k3 & Eu & E3). destruct (bind_inv _ _ _ _ _ E3) as ([] & k4 & En & Ep).
  assert (same_tags k3 k') as (T & HS & P).
  { etrans; [by eapply keeps_merge_next|]. etrans; [by eapply keeps_merge_prev|done]. }
  clear En Ep E3 Eb T2. pose proof (T1 a) as Ta. rewrite Eh in Ta. unfold upd_block, get_block, bind, gets, deref in Eu.
  destruct (blocks k1 !! a) as [h1|] eqn:Eh1; [|done]. injection Eu as <-. split_and!.
  - intros u. assert (m_magic <$> blocks k1 !! u = m_magic <$> blocks k !! u) as <-.
    { pose proof (T1 u) as Tu. destruct (blocks k1 !! u), (blocks k !! u); simplify_eq/=; congruence. }
    pose proof (T u) as Tu. cbn [blocks set_blocks] in Tu. destruct (decide (u = a)) as [->|Hu].
    + rewrite lookup_insert_eq in Tu. rewrite Eh1. destruct (blocks k' !! a); simplify_eq/=. congruence.
    + rewrite lookup_insert_ne in Tu by done. destruct (blocks k' !! u), (blocks k1 !! u); simplify_eq/=; congruence.
  - pose proof (T a) as Tu. cbn [blocks set_blocks] in Tu. rewrite lookup_insert_eq in Tu.
    destruct (blocks k' !! a); simplify_eq/=. congruence.
  - by rewrite HS.
  - by rewrite P.
Qed.

(** Releasing the same heap block twice in a row ends in the double-free
    panic, also when the first release merged the block into its
    predecessor. *)
Theorem kfree_twice_panics k p w k' :
  p <> NULL -> word_at (get_slab_from_ptr p) k = Ok (w, k) -> w <> SLAB_MAGIC ->
  kfree p k = Ok (tt, k') -> kfree p k' = Panic.
Proof.
  intros Hp Hw Hne E. unfold kfree in E. rewrite (proj2 (Z.eqb_neq _ _)) in E by done.
  rewrite (bind_ok _ _ _ _ _ Hw), (proj2 (Z.eqb_neq _ _)) in E by done. cbv zeta in E. set (a := w64 (p - sizeof_m_header)) in *.
  destruct (bind_inv _ _ _ _ _ E) as (h & k0 & E0 & E1). unfold get_block, bind, gets, deref in E0.
  destruct (blocks k !! a) as [h0|] eqn:Eh; [|done]. injection E0 as <- <-.
  destruct (negb (m_magic h0 =? KMALLOC_MAGIC)) eqn:Em; [done|]. destruct (negb (is_free h0 =? 0)) eqn:Ef; [done|].
  destruct (release_tags a k k' h0 Eh E1) as (HM & Hfree & HS & P). clear E E1.
  assert (word_at (get_slab_from_ptr p) k' = Ok (w, k')) as Hw'.
  { unfold word_at in *. injection Hw as Hw. do 2 f_equal. rewrite HS, P, <-Hw. destruct (headers (km_slab k) !! _); [done|].
    specialize (HM (get_slab_from_ptr p)). destruct (blocks k' !! _), (blocks k !! _); simplify_eq/=; congruence. }
  specialize (HM a). rewrite Eh in HM. destruct (blocks k' !! a) as [h'|] eqn:Eh'; [|done]. injection HM as Em'. injection Hfree as Ef'.
  unfold kfree. rewrite (proj2 (Z.eqb_neq _ _)) by done. rewrite (bind_ok _ _ _ _ _ Hw'), (proj2 (Z.eqb_neq _ _)) by done.
  fold a. cbv zeta. rewrite (bind_ok _ _ _ h' k') by (unfold get_block, bind, gets, deref; by rewrite Eh').
  by rewrite Em', Em, Ef'.
Qed.
End spec.
