(* ===== verification/KmallocDemo.v ===== *)
(** * A concrete kernel heap

    The heap brought up by [kmalloc_init] on a machine of 64 frames, with a
    block handed out: the states its theorems are instantiated at. *)

From S2P Require Import Prelude Lock Boot Frames Pmm Chain Dll Slab SlabProof SlabSpec SlabDemo Kmalloc KmallocProof KmallocSpec.

Definition bare_heap : kheap pmm := mkKheap cold ∅ NULL spinlock_init ∅.

Lemma bare_heap_ok : kheap_ok bare_heap [].
Proof.
  split; [|done|exact frames64_ok|vm_compute; reflexivity|vm_compute; reflexivity].
  split; [split; [done|constructor]|..]; intros; exfalso; by eapply not_elem_of_nil.
Qed.

Lemma kmalloc_large_correct_witness :
  exists p k' l', kmalloc 5000 bare_heap = Ok (p, k') /\ kheap_ok k' l'.
Proof.
  destruct (kmalloc_large_correct bare_heap [] 5000 bare_heap_ok ltac:(lia)) as (p & k' & l' & E & Hk & _).
  exists p, k', l'. exact (conj E Hk).
Defined.

Lemma kmalloc_size_wraps_witness : kmalloc (2 ^ 64 - 1) bare_heap = heap_alloc 0 bare_heap.
Proof. apply (kmalloc_size_wraps bare_heap (2 ^ 64 - 1)). lia. Defined.

(** One block handed out. *)
Definition run_alloc (size : Z) (k : kheap pmm) : Z * kheap pmm :=
  match kmalloc size k with Ok r => r | _ => (NULL, k) end.
Definition one_block : kheap pmm := (run_alloc 5000 bare_heap).2.
Definition block_at : Z := HHDM_OFFSET + 3 * 4096.

Lemma one_block_ok : exists l sz, kheap_ok one_block l /\ allocated (blocks one_block) l block_at sz.
Proof.
  assert (round16 5000 = 5008) as E16 by by_decide.
  destruct (heap_alloc_spec bare_heap [] 5008 bare_heap_ok ltac:(lia)) as (p & k' & l' & E & Hk & _ & Hpost & _).
  assert (kmalloc 5000 bare_heap = Ok (p, k')) as Em by (unfold kmalloc; rewrite E16; exact E).
  assert (one_block = k') as -> by (unfold one_block, run_alloc; rewrite Em; reflexivity).
  assert ((run_alloc 5000 bare_heap).1 = p) as Ep by (unfold run_alloc; rewrite Em; reflexivity).
  clear E Em. assert ((run_alloc 5000 bare_heap).1 = block_at + sizeof_m_header) as Ev by (vm_compute; reflexivity).
  rewrite Ev in Ep. clear Ev. destruct Hpost as [(En & _)|(a & sz & Ea & _ & _ & _ & Hal)].
  - exfalso. rewrite <-Ep in En. revert En. vm_compute. discriminate.
  - exists l', sz. split; [exact Hk|]. apply Hal. left. split; [|reflexivity]. clear -Ep Ea. lia.
Qed.

Definition at_page : Z := KMALLOC_MAGIC.
Lemma one_block_word : word_at (get_slab_from_ptr (block_at + sizeof_m_header)) one_block = Ok (at_page, one_block).
Proof. vm_compute. reflexivity. Qed.


Definition freed_block : kheap pmm :=
  match kfree (block_at + sizeof_m_header) one_block with Ok (_, k) => k | _ => one_block end.

Lemma kfree_twice_panics_witness : kfree (block_at + sizeof_m_header) freed_block = Panic.
Proof.
  apply (kfree_twice_panics one_block (block_at + sizeof_m_header) at_page freed_block).
  - vm_compute. discriminate.
  - exact one_block_word.
  - vm_compute. discriminate.
  - vm_compute. reflexivity.
Defined.
