(* ===== verification/Vma.v ===== *)
(** * Virtual memory areas

    Models [kernel/memory/vma.c] and [kernel/include/memory/vma.h]: the areas
    of one task, in a red-black tree ordered by start address and in a doubly
    linked list.

    - [areas] holds the descriptors by address; [tree_root], [list_head],
      [count] and [t_cr3] are the fields of the task. A descriptor given back to
      the heap leaves [areas], so that its later use is a [Fault].
    - The operations call the task's mutex, the heap, the frame allocator and
      the page tables through the interface [VmaEnv].
    - The loops run on fuel: two more than the number of descriptors, which
      bounds every path of a tree and every list. *)

From S2P Require Import Prelude Lock Frames Vmm.

(** ** Data *)

Definition VMA_READ : Z := Z.shiftl 1 0.
Definition VMA_WRITE : Z := Z.shiftl 1 1.
Definition VMA_EXEC : Z := Z.shiftl 1 2.
Definition VMA_USER : Z := Z.shiftl 1 3.
Definition VMA_STACK : Z := Z.shiftl 1 4.
Definition VMA_HEAP : Z := Z.shiftl 1 5.

(** [vma_node_color_t] *)
Inductive color := VMA_RED | VMA_BLACK.

#[global] Instance color_eq_dec : EqDecision color.
Proof. solve_decision. Defined.

(** [vma_area_t] *)
Record vma_area := mkArea {
  vm_start : Z;
  vm_end : Z;
  vm_flags : Z;
  left : Z;
  right : Z;
  parent : Z;
  a_color : color;
  a_next : Z;
  a_prev : Z;
}.
Definition sizeof_vma_area : Z := 72.

#[global] Instance vma_area_eq_dec : EqDecision vma_area.
Proof. solve_decision. Defined.

Definition set_vm_end (v : Z) (x : vma_area) : vma_area :=
  mkArea (vm_start x) v (vm_flags x) (left x) (right x) (parent x) (a_color x) (a_next x) (a_prev x).
Definition set_left (v : Z) (x : vma_area) : vma_area :=
  mkArea (vm_start x) (vm_end x) (vm_flags x) v (right x) (parent x) (a_color x) (a_next x) (a_prev x).
Definition set_right (v : Z) (x : vma_area) : vma_area :=
  mkArea (vm_start x) (vm_end x) (vm_flags x) (left x) v (parent x) (a_color x) (a_next x) (a_prev x).
Definition set_parent (v : Z) (x : vma_area) : vma_area :=
  mkArea (vm_start x) (vm_end x) (vm_flags x) (left x) (right x) v (a_color x) (a_next x) (a_prev x).
Definition set_color (v : color) (x : vma_area) : vma_area :=
  mkArea (vm_start x) (vm_end x) (vm_flags x) (left x) (right x) (parent x) v (a_next x) (a_prev x).
Definition set_next (v : Z) (x : vma_area) : vma_area :=
  mkArea (vm_start x) (vm_end x) (vm_flags x) (left x) (right x) (parent x) (a_color x) v (a_prev x).
Definition set_prev (v : Z) (x : vma_area) : vma_area :=
  mkArea (vm_start x) (vm_end x) (vm_flags x) (left x) (right x) (parent x) (a_color x) (a_next x) v.

(** The areas of a task. *)
Record mm := mkMm { areas : gmap Z vma_area; tree_root : Z; list_head : Z; vma_count : Z; t_cr3 : Z }.

Definition set_areas (v : gmap Z vma_area) (m : mm) : mm := mkMm v (tree_root m) (list_head m) (vma_count m) (t_cr3 m).
Definition set_root (v : Z) (m : mm) : mm := mkMm (areas m) v (list_head m) (vma_count m) (t_cr3 m).
Definition set_list_head (v : Z) (m : mm) : mm := mkMm (areas m) (tree_root m) v (vma_count m) (t_cr3 m).
Definition set_vma_count (v : Z) (m : mm) : mm := mkMm (areas m) (tree_root m) (list_head m) v (t_cr3 m).
Definition set_t_cr3 (v : Z) (m : mm) : mm := mkMm (areas m) (tree_root m) (list_head m) (vma_count m) v.

Definition get_area (a : Z) : M mm vma_area := m <- gets areas ;; deref (m !! a).
Definition put_area (a : Z) (x : vma_area) : M mm unit := modify (fun m => set_areas (<[a := x]> (areas m)) m).
Definition upd_area (a : Z) (f : vma_area -> vma_area) : M mm unit := x <- get_area a ;; put_area a (f x).
Definition area_fuel : M mm nat := gets (fun m => S (S (size (areas m)))).

(** ** The red-black tree *)

Definition vma_rotate_left (x : Z) : M mm unit :=
  nx <- get_area x ;;
  let y := right nx in
  ny <- get_area y ;;
  upd_area x (set_right (left ny)) ;;;
  when (negb (left ny =? NULL)) (upd_area (left ny) (set_parent x)) ;;;
  upd_area y (set_parent (parent nx)) ;;;
  (if parent nx =? NULL then modify (set_root y) else
   np <- get_area (parent nx) ;;
   if x =? left np then upd_area (parent nx) (set_left y) else upd_area (parent nx) (set_right y)) ;;;
  upd_area y (set_left x) ;;;
  upd_area x (set_parent y).

Definition vma_rotate_right (y : Z) : M mm unit :=
  ny <- get_area y ;;
  let x := left ny in
  nx <- get_area x ;;
  upd_area y (set_left (right nx)) ;;;
  when (negb (right nx =? NULL)) (upd_area (right nx) (set_parent y)) ;;;
  upd_area x (set_parent (parent ny)) ;;;
  (if parent ny =? NULL then modify (set_root x) else
   np <- get_area (parent ny) ;;
   if y =? right np then upd_area (parent ny) (set_right x) else upd_area (parent ny) (set_left x)) ;;;
  upd_area x (set_right y) ;;;
  upd_area y (set_parent x).

Definition parent_of (z : Z) : M mm Z := x <- get_area z ;; ret (parent x).
Definition is_red (y : Z) : M mm bool :=
  if y =? NULL then ret false else x <- get_area y ;; ret (bool_decide (a_color x = VMA_RED)).

(** [z->parent->color = BLACK; y->color = BLACK; z->parent->parent->color =
    RED; z = z->parent->parent;] *)
Definition recolor (z y : Z) : M mm Z :=
  p <- parent_of z ;;
  upd_area p (set_color VMA_BLACK) ;;;
  upd_area y (set_color VMA_BLACK) ;;;
  g <- parent_of p ;;
  upd_area g (set_color VMA_RED) ;;;
  ret g.

(** [z->parent->color = BLACK; z->parent->parent->color = RED;
    rotate(t, z->parent->parent);] *)
Definition hoist (rotate : Z -> M mm unit) (z : Z) : M mm unit :=
  p <- parent_of z ;;
  upd_area p (set_color VMA_BLACK) ;;;
  g <- parent_of p ;;
  upd_area g (set_color VMA_RED) ;;;
  rotate g.

(** One turn of the loop of [vma_insert_fixup]: the next [z] *)
Definition fixup_turn (z : Z) : M mm Z :=
  p <- parent_of z ;;
  g <- parent_of p ;;
  ng <- get_area g ;;
  if p =? left ng then
    let y := right ng in
    red <- is_red y ;;
    if red then recolor z y else
    np <- get_area p ;;
    z' <- (if z =? right np then vma_rotate_left p ;;; ret p else ret z) ;;
    hoist vma_rotate_right z' ;;;
    ret z'
  else
    let y := left ng in
    red <- is_red y ;;
    if red then recolor z y else
    np <- get_area p ;;
    z' <- (if z =? left np then vma_rotate_right p ;;; ret p else ret z) ;;
    hoist vma_rotate_left z' ;;;
    ret z'.

(** [while (z->parent && z->parent->color == VMA_RED)] *)
Fixpoint fixup_loop (fuel : nat) (z : Z) : M mm unit :=
  match fuel with
  | O => hang
  | S fuel =>
      p <- parent_of z ;;
      red <- is_red p ;;
      if red then z' <- fixup_turn z ;; fixup_loop fuel z' else ret tt
  end.

Definition vma_insert_fixup (z : Z) : M mm unit :=
  n <- area_fuel ;;
  fixup_loop n z ;;;
  r <- gets tree_root ;;
  upd_area r (set_color VMA_BLACK).

(** Step 7 of [vma_map]: the descent to a leaf *)
Fixpoint hang_node (fuel : nat) (new_vma node : Z) : M mm unit :=
  match fuel with
  | O => hang
  | S fuel =>
      nn <- get_area new_vma ;;
      nd <- get_area node ;;
      if vm_start nn <? vm_start nd then
        if left nd =? NULL then
          upd_area node (set_left new_vma) ;;; upd_area new_vma (set_parent node)
        else hang_node fuel new_vma (left nd)
      else
        if right nd =? NULL then
          upd_area node (set_right new_vma) ;;; upd_area new_vma (set_parent node)
        else hang_node fuel new_vma (right nd)
  end.

(** Steps 7 and 8 of [vma_map] *)
Definition tree_insert (new_vma : Z) : M mm unit :=
  r <- gets tree_root ;;
  (if r =? NULL then modify (set_root new_vma)
   else n <- area_fuel ;; hang_node n new_vma r) ;;;
  vma_insert_fixup new_vma.

(** [while (rightmost->right) rightmost = rightmost->right;] *)
Fixpoint rightmost (fuel : nat) (a : Z) : M mm Z :=
  match fuel with
  | O => hang
  | S fuel => x <- get_area a ;; if right x =? NULL then ret a else rightmost fuel (right x)
  end.

(** The removal from the tree in [vma_unmap] *)
Definition tree_remove (vma : Z) : M mm unit :=
  x <- get_area vma ;;
  replacement <- (
    if negb (left x =? NULL) then
      when (negb (right x =? NULL))
        (n <- area_fuel ;;
         rm <- rightmost n (left x) ;;
         upd_area rm (set_right (right x)) ;;;
         upd_area (right x) (set_parent rm)) ;;;
      ret (left x)
    else ret (right x)) ;;
  (if parent x =? NULL then modify (set_root replacement) else
   np <- get_area (parent x) ;;
   if left np =? vma then upd_area (parent x) (set_left replacement)
   else upd_area (parent x) (set_right replacement)) ;;;
  when (negb (replacement =? NULL)) (upd_area replacement (set_parent (parent x))).

(** ** Lookup and the list *)

Definition vma_init_task : M mm unit := modify (fun m => mkMm (areas m) NULL NULL 0 (t_cr3 m)).

Fixpoint find_loop (fuel : nat) (addr curr : Z) : M mm Z :=
  match fuel with
  | O => hang
  | S fuel =>
      if curr =? NULL then ret NULL else
      x <- get_area curr ;;
      if (vm_start x <=? addr) && (addr <? vm_end x) then ret curr else
      if addr <? vm_start x then find_loop fuel addr (left x) else find_loop fuel addr (right x)
  end.

Definition vma_find (addr : Z) : M mm Z :=
  r <- gets tree_root ;; n <- area_fuel ;; find_loop n addr r.

(** The first area of the list that satisfies [test], or NULL *)
Fixpoint list_search (fuel : nat) (test : vma_area -> bool) (curr : Z) : M mm Z :=
  match fuel with
  | O => hang
  | S fuel =>
      if curr =? NULL then ret NULL else
      x <- get_area curr ;;
      if test x then ret curr else list_search fuel test (a_next x)
  end.

(** The test of the merging loop, and of the overlap check *)
Definition adjoins (addr flags : Z) (x : vma_area) : bool := (vm_end x =? addr) && (vm_flags x =? flags).
Definition overlaps (addr size : Z) (x : vma_area) : bool := (addr <? vm_end x) && (vm_start x <? w64 (addr + size)).

(** Step 6 of [vma_map] *)
Definition list_push (new_vma : Z) : M mm unit :=
  h <- gets list_head ;;
  upd_area new_vma (set_next h) ;;;
  when (negb (h =? NULL)) (upd_area h (set_prev new_vma)) ;;;
  modify (set_list_head new_vma).

(** The removal from the list in [vma_unmap] *)
Definition list_remove (vma : Z) : M mm unit :=
  x <- get_area vma ;;
  when (negb (a_prev x =? NULL)) (upd_area (a_prev x) (set_next (a_next x))) ;;;
  when (negb (a_next x =? NULL)) (upd_area (a_next x) (set_prev (a_prev x))) ;;;
  h <- gets list_head ;;
  when (h =? vma) (modify (set_list_head (a_next x))).

(** ** The environment *)

(** What the areas use of the rest of the kernel: the task's mutex, the heap,
    the frame allocator, the direct map and the page tables. *)
Class VmaEnv (E : Type) := {
  env_lock : M E unit;                               (* mutex_lock(&t->vma_mutex) *)
  env_unlock : M E unit;                             (* mutex_unlock(&t->vma_mutex) *)
  env_kmalloc : Z -> M E Z;
  env_kfree : Z -> M E unit;
  env_alloc_frames : Z -> M E Z;
  env_free_frame : Z -> M E unit;
  env_zero : Z -> Z -> M E unit;                     (* memset(p, 0, len) *)
  env_get_table : Z -> M E Z;
  env_map_range : Z -> Z -> Z -> Z -> Z -> M E unit;
  env_translate : Z -> Z -> M E Z;                   (* vmm_virtual_to_physical *)
  env_unmap : Z -> Z -> M E unit;
  env_sync_tlb : M E unit;
  env_destroy : Z -> bool -> M E unit;               (* vmm_destroy_user_pml4 *)
}.

(** ** Operations on a task's address space *)

Section ops.
Context {E : Type} `{VmaEnv E}.

Definition on_env {A} (m : M E A) : M (E * mm) A := fun s =>
  match m s.1 with
  | Ok (a, e) => Ok (a, (e, s.2))
  | Fault => Fault
  | Panic => Panic
  | Hang => Hang
  end.
Definition on_mm {A} (m : M mm A) : M (E * mm) A := fun s =>
  match m s.2 with
  | Ok (a, x) => Ok (a, (s.1, x))
  | Fault => Fault
  | Panic => Panic
  | Hang => Hang
  end.

(** [kfree(p)] of a descriptor *)
Definition free_area (p : Z) : M (E * mm) unit :=
  on_env (env_kfree p) ;;; on_mm (modify (fun m => set_areas (delete p (areas m)) m)).

(** [uint32_t vmm_opts], of a [vm_flags] *)
Definition vmm_opts (flags : Z) : Z :=
  let o := w32 (Z.lor PTE_PRESENT PTE_USER) in
  let o := if negb (Z.land flags VMA_WRITE =? 0) then w32 (Z.lor o PTE_WRITABLE) else o in
  if Z.land flags VMA_EXEC =? 0 then w32 (Z.lor o PTE_NX) else o.

(** [vmm_map_range(vmm_get_table(t->cr3), addr, phys, size, vmm_opts);
    memset(phys_to_virt(phys), 0, size);] *)
Definition back_range (addr phys size flags : Z) : M (E * mm) unit :=
  cr3 <- on_mm (gets t_cr3) ;;
  pml4 <- on_env (env_get_table cr3) ;;
  on_env (env_map_range pml4 addr phys size (vmm_opts flags)) ;;;
  on_env (env_zero (phys_to_virt phys) size).

(** Step 1 of [vma_map], the neighbour being [curr] *)
Definition expand_area (curr addr size flags : Z) : M (E * mm) Z :=
  phys <- on_env (env_alloc_frames (size / 4096)) ;;
  if phys =? NULL then on_env env_unlock ;;; ret (-1) else
  back_range addr phys size flags ;;;
  on_mm (upd_area curr (fun x => set_vm_end (w64 (vm_end x + size)) x)) ;;;
  on_env env_unlock ;;;
  ret 0.

(** Steps 3 to 8 *)
Definition new_area (addr size flags : Z) : M (E * mm) Z :=
  new_vma <- on_env (env_kmalloc sizeof_vma_area) ;;
  if new_vma =? NULL then on_env env_unlock ;;; ret (-3) else
  on_mm (put_area new_vma (mkArea addr (w64 (addr + size)) flags NULL NULL NULL VMA_RED NULL NULL)) ;;;
  phys <- on_env (env_alloc_frames (size / 4096)) ;;
  if phys =? NULL then free_area new_vma ;;; on_env env_unlock ;;; ret (-4) else
  back_range addr phys size flags ;;;
  on_mm (list_push new_vma) ;;;
  on_mm (tree_insert new_vma) ;;;
  on_mm (modify (fun m => set_vma_count (w64 (vma_count m + 1)) m)) ;;;
  on_env env_unlock ;;;
  ret 0.

Definition vma_map (addr size flags : Z) : M (E * mm) Z :=
  if size =? 0 then ret (-1) else
  let size := PAGE_ALIGN_UP size in
  if negb (Z.land addr 0xFFF =? 0) then ret (-1) else
  on_env env_lock ;;;
  n <- on_mm area_fuel ;;
  h <- on_mm (gets list_head) ;;
  curr <- on_mm (list_search n (adjoins addr flags) h) ;;
  if negb (curr =? NULL) then expand_area curr addr size flags else
  check <- on_mm (list_search n (overlaps addr size) h) ;;
  if negb (check =? NULL) then on_env env_unlock ;;; ret (-2) else
  new_area addr size flags.

(** The body of the page loop of [vma_unmap] *)
Definition release_page (pml4 vaddr : Z) : M (E * mm) unit :=
  phys <- on_env (env_translate pml4 vaddr) ;;
  when (negb (phys =? 0)) (on_env (env_unmap pml4 vaddr) ;;; on_env (env_free_frame phys)).

(** The two cases: the tail of the area, or all of it, is gone *)
Definition shrink_area (vma addr unmap_end : Z) : M (E * mm) unit :=
  x <- on_mm (get_area vma) ;;
  if (vm_start x <? addr) && (vm_end x <=? unmap_end) then on_mm (upd_area vma (set_vm_end addr)) else
  when ((addr <=? vm_start x) && (vm_end x <=? unmap_end))
    (on_mm (list_remove vma) ;;;
     on_mm (tree_remove vma) ;;;
     on_mm (modify (fun m => set_vma_count (w64 (vma_count m - 1)) m)) ;;;
     free_area vma).

Definition vma_unmap (addr size : Z) : M (E * mm) Z :=
  if size =? 0 then ret 0 else
  on_env env_lock ;;;
  vma <- on_mm (vma_find addr) ;;
  if vma =? NULL then on_env env_unlock ;;; ret (-1) else
  let unmap_end := w64 (addr + size) in
  cr3 <- on_mm (gets t_cr3) ;;
  pml4 <- on_env (env_get_table cr3) ;;
  for_u64 addr unmap_end PAGE_SIZE (release_page pml4) ;;;
  shrink_area vma addr unmap_end ;;;
  on_env env_sync_tlb ;;;
  on_env env_unlock ;;;
  ret 0.

Fixpoint free_areas (fuel : nat) (curr : Z) : M (E * mm) unit :=
  match fuel with
  | O => hang
  | S fuel =>
      if curr =? NULL then ret tt else
      x <- on_mm (get_area curr) ;;
      free_area curr ;;;
      free_areas fuel (a_next x)
  end.

Definition vma_destroy_all : M (E * mm) unit :=
  on_env env_lock ;;;
  n <- on_mm area_fuel ;;
  h <- on_mm (gets list_head) ;;
  free_areas n h ;;;
  on_mm (modify (fun m => mkMm (areas m) NULL NULL 0 (t_cr3 m))) ;;;
  cr3 <- on_mm (gets t_cr3) ;;
  when (negb (cr3 =? 0)) (on_env (env_destroy cr3 true) ;;; on_mm (modify (set_t_cr3 0))) ;;;
  on_env env_unlock.
End ops.
