(* ===== verification/VmaTree.v ===== *)
(** * The area tree: representation and rotations

    Descriptors linked into a binary tree with parent pointers, seen as an
    inductive [tree] of descriptor addresses, and a subtree together with the
    path to the root, seen as a [tree] in a list of [frame]s. *)

From S2P Require Import Prelude Vma.

(** ** Trees and paths *)

Inductive tree := Leaf | Node (c : color) (l : tree) (a : Z) (r : tree).

Definition top (t : tree) : Z := match t with Leaf => NULL | Node _ _ a _ => a end.

Fixpoint inorder (t : tree) : list Z :=
  match t with
  | Leaf => []
  | Node _ l a r => inorder l ++ a :: inorder r
  end.

(** One step of a path: the parent [f_addr], the side of it the path took,
    and the subtree on the other side. *)
Inductive side := GoLeft | GoRight.
#[export] Instance side_eq_dec : EqDecision side.
Proof. solve_decision. Defined.

Record frame := mkFrame { f_side : side; f_color : color; f_addr : Z; f_sib : tree }.

Definition opp (d : side) : side := match d with GoLeft => GoRight | GoRight => GoLeft end.

Definition par_of (c : list frame) : Z := match c with [] => NULL | f :: _ => f_addr f end.

(** A node given from side [d]: [near] is its subtree on that side. *)
Definition node (d : side) (c : color) (near : tree) (a : Z) (far : tree) : tree :=
  match d with GoLeft => Node c near a far | GoRight => Node c far a near end.

Definition plug1 (f : frame) (t : tree) : tree := node (f_side f) (f_color f) t (f_addr f) (f_sib f).
Fixpoint plug (c : list frame) (t : tree) : tree :=
  match c with
  | [] => t
  | f :: c => plug c (plug1 f t)
  end.

(** The addresses before and after the hole, in order. *)
Fixpoint before (c : list frame) : list Z :=
  match c with
  | [] => []
  | f :: c => before c ++ match f_side f with GoLeft => [] | GoRight => inorder (f_sib f) ++ [f_addr f] end
  end.
Fixpoint after (c : list frame) : list Z :=
  match c with
  | [] => []
  | f :: c => match f_side f with GoLeft => f_addr f :: inorder (f_sib f) | GoRight => [] end ++ after c
  end.

Lemma inorder_plug c t : inorder (plug c t) = before c ++ inorder t ++ after c.
Proof.
  revert t. induction c as [|f c IH]; intros t; simpl; [by rewrite app_nil_r|]. rewrite IH. unfold plug1, node.
  destruct (f_side f); simpl; by rewrite <-?app_assoc, ?app_nil_r.
Qed.

Fixpoint path_elems (c : list frame) : list Z :=
  match c with
  | [] => []
  | f :: c => f_addr f :: inorder (f_sib f) ++ path_elems c
  end.

Lemma path_elems_perm c : path_elems c ≡ₚ before c ++ after c.
Proof.
  induction c as [|f c IH]; simpl; [done|]. rewrite IH. destruct (f_side f); simpl; solve_Permutation.
Qed.

Lemma elems_plug c t : inorder (plug c t) ≡ₚ path_elems c ++ inorder t.
Proof. rewrite inorder_plug, path_elems_perm. solve_Permutation. Qed.

(** ** Representation *)

Definition tlinks : Type := Z * Z * Z * color.
Definition links (x : vma_area) : tlinks := (left x, right x, parent x, a_color x).
Definition lk (m : gmap Z vma_area) (a : Z) : option tlinks := links <$> m !! a.

Fixpoint trep (m : gmap Z vma_area) (par : Z) (t : tree) : Prop :=
  match t with
  | Leaf => True
  | Node c l a r => a <> NULL /\ lk m a = Some (top l, top r, par, c) /\ trep m a l /\ trep m a r
  end.

(** The links of a node given from side [d]. *)
Definition dlinks (d : side) (near far par : Z) (c : color) : tlinks :=
  match d with GoLeft => (near, far, par, c) | GoRight => (far, near, par, c) end.

Lemma trep_node m par d c n a f :
  trep m par (node d c n a f) <-> a <> NULL /\ lk m a = Some (dlinks d (top n) (top f) par c) /\ trep m a n /\ trep m a f.
Proof. destruct d; simpl; tauto. Qed.

Lemma inorder_node d c n a f : inorder (node d c n a f) ≡ₚ a :: inorder n ++ inorder f.
Proof. destruct d; simpl; solve_Permutation. Qed.

Lemma top_node d c n a f : top (node d c n a f) = a.
Proof. by destruct d. Qed.

(** The links of a path's last node when its hole holds [h]. *)
Definition flinks (f : frame) (h par : Z) : tlinks := dlinks (f_side f) h (top (f_sib f)) par (f_color f).

Fixpoint crep (m : gmap Z vma_area) (c : list frame) (h root : Z) : Prop :=
  match c with
  | [] => root = h
  | f :: c => f_addr f <> NULL /\ lk m (f_addr f) = Some (flinks f h (par_of c)) /\ trep m (f_addr f) (f_sib f) /\
      crep m c (f_addr f) root
  end.

Lemma top_plug1 f t : top (plug1 f t) = f_addr f.
Proof. apply top_node. Qed.

Lemma rep_plug m c t root : trep m NULL (plug c t) /\ root = top (plug c t) <-> crep m c (top t) root /\ trep m (par_of c) t.
Proof.
  revert t. induction c as [|f c IH]; intros t; simpl; [tauto|]. rewrite IH, top_plug1. unfold plug1, node, flinks, dlinks.
  destruct (f_side f); simpl; tauto.
Qed.

Lemma trep_frame m m' par t : (forall u, u ∈ inorder t -> lk m' u = lk m u) -> trep m par t -> trep m' par t.
Proof.
  revert par. induction t as [|c l IHl a r IHr]; intros par Hf; simpl; [done|]. simpl in Hf.
  intros (Ha & Hl & H1 & H2). split_and!; [done| | |].
  - rewrite Hf by set_solver. done.
  - apply IHl; [|done]. intros u Hu. apply Hf. set_solver.
  - apply IHr; [|done]. intros u Hu. apply Hf. set_solver.
Qed.

Lemma crep_frame m m' c h root : (forall u, u ∈ path_elems c -> lk m' u = lk m u) -> crep m c h root -> crep m' c h root.
Proof.
  revert h. induction c as [|f c IH]; intros h Hf; simpl; [done|]. simpl in Hf.
  intros (Ha & Hl & Ht & Hc). split_and!; [done| | |].
  - rewrite Hf by set_solver. done.
  - apply (trep_frame m); [|done]. intros u Hu. apply Hf. set_solver.
  - apply IH; [|done]. intros u Hu. apply Hf. set_solver.
Qed.

Lemma trep_elem m par t u : trep m par t -> u ∈ inorder t -> u <> NULL /\ is_Some (m !! u).
Proof.
  revert par. induction t as [|c l IHl a r IHr]; intros par; simpl; [by intros _ ?%elem_of_nil|].
  intros (Ha & Hl & H1 & H2) [Hu|[->|Hu]%elem_of_cons]%elem_of_app; [by eapply IHl| |by eapply IHr].
  split; [done|]. unfold lk in Hl. destruct (m !! a); [done|discriminate].
Qed.

Lemma crep_elem m c h root u : crep m c h root -> u ∈ path_elems c -> u <> NULL.
Proof.
  revert h. induction c as [|f c IH]; intros h; simpl; [by intros _ ?%elem_of_nil|].
  intros (Hf0 & _ & Ht & Hc) [->|[Hu|Hu]%elem_of_app]%elem_of_cons; [done|by apply (trep_elem m (f_addr f) (f_sib f))|by eapply IH].
Qed.

(** The top of the hole changes from [h] to [h']. *)
Definition new_root (c : list frame) (h' root : Z) : Z := match c with [] => h' | _ => root end.

Lemma crep_hole m m' c h h' root :
  crep m c h root -> NoDup (path_elems c) ->
  (forall u, u ∈ path_elems c -> u <> par_of c -> lk m' u = lk m u) ->
  (forall f c', c = f :: c' -> lk m' (f_addr f) = Some (flinks f h' (par_of c'))) ->
  crep m' c h' (new_root c h' root).
Proof.
  destruct c as [|f c]; simpl; [done|]. intros (Ha & Hl & Ht & Hc) Hnd Hf Hp.
  apply NoDup_cons in Hnd as [Hn1 Hnd]. split_and!; [done|by apply Hp| |].
  - apply (trep_frame m); [|done]. intros u Hu. apply Hf; set_solver.
  - apply (crep_frame m); [|done]. intros u Hu. apply Hf; set_solver.
Qed.

(** ** Running the tree code *)

Definition mkm (s : mm) (m : gmap Z vma_area) : mm := set_areas m s.

Lemma mkm_id s : mkm s (areas s) = s.
Proof. by destruct s. Qed.

(** What the tree code never changes: the range, the flags, the list. *)
Definition data (x : vma_area) : Z * Z * Z * Z * Z := (vm_start x, vm_end x, vm_flags x, a_next x, a_prev x).
Definition same_data (m m' : gmap Z vma_area) : Prop := forall u, data <$> m' !! u = data <$> m !! u.

#[export] Instance same_data_refl : Reflexive same_data.
Proof. by intros m u. Qed.
#[export] Instance same_data_trans : Transitive same_data.
Proof. intros m1 m2 m3 H1 H2 u. by rewrite H2, H1. Qed.

Lemma same_data_alter f a m : (forall x, data (f x) = data x) -> same_data m (alter f a m).
Proof.
  intros Hf u. destruct (decide (u = a)) as [->|]; [rewrite lookup_alter_eq|by rewrite lookup_alter_ne].
  destruct (m !! a); simpl; [by rewrite Hf|done].
Qed.

Lemma same_data_Some m m' u : same_data m m' -> is_Some (m' !! u) <-> is_Some (m !! u).
Proof. intros H. specialize (H u). rewrite <-!(fmap_is_Some data). by rewrite H. Qed.

Definition child (d : side) (x : vma_area) : Z := match d with GoLeft => left x | GoRight => right x end.
Definition set_child (d : side) : Z -> vma_area -> vma_area := match d with GoLeft => set_left | GoRight => set_right end.

Definition with_child (d : side) (v : Z) (t : tlinks) : tlinks :=
  let '(l, r, p, c) := t in match d with GoLeft => (v, r, p, c) | GoRight => (l, v, p, c) end.
Definition with_parent (v : Z) (t : tlinks) : tlinks := let '(l, r, p, c) := t in (l, r, v, c).
Definition with_color (v : color) (t : tlinks) : tlinks := let '(l, r, p, c) := t in (l, r, p, v).

Lemma with_child_near d v n f p c : with_child d v (dlinks d n f p c) = dlinks d v f p c.
Proof. by destruct d. Qed.
Lemma with_child_far d v n f p c : with_child (opp d) v (dlinks d n f p c) = dlinks d n v p c.
Proof. by destruct d. Qed.
Lemma with_parent_d d v n f p c : with_parent v (dlinks d n f p c) = dlinks d n f v c.
Proof. by destruct d. Qed.
Lemma with_color_d d v n f p c : with_color v (dlinks d n f p c) = dlinks d n f p v.
Proof. by destruct d. Qed.
Lemma links_set_child d v x : links (set_child d v x) = with_child d v (links x).
Proof. by destruct d. Qed.
Lemma data_set_child d v x : data (set_child d v x) = data x.
Proof. by destruct d. Qed.

Lemma lk_alter f g a m u : (forall x, links (f x) = g (links x)) ->
  lk (alter f a m) u = if decide (u = a) then g <$> lk m u else lk m u.
Proof.
  intros Hf. unfold lk. case_decide; subst; [rewrite lookup_alter_eq|by rewrite lookup_alter_ne].
  destruct (m !! a); simpl; [by rewrite Hf|done].
Qed.

Lemma lk_child m a d v u : lk (alter (set_child d v) a m) u = if decide (u = a) then with_child d v <$> lk m u else lk m u.
Proof. apply lk_alter, links_set_child. Qed.
Lemma lk_parent m a v u : lk (alter (set_parent v) a m) u = if decide (u = a) then with_parent v <$> lk m u else lk m u.
Proof. by apply lk_alter. Qed.
Lemma lk_color m a v u : lk (alter (set_color v) a m) u = if decide (u = a) then with_color v <$> lk m u else lk m u.
Proof. by apply lk_alter. Qed.

Lemma sd_child m a d v : same_data m (alter (set_child d v) a m).
Proof. apply same_data_alter, data_set_child. Qed.
Lemma sd_parent m a v : same_data m (alter (set_parent v) a m).
Proof. by apply same_data_alter. Qed.
Lemma sd_color m a v : same_data m (alter (set_color v) a m).
Proof. by apply same_data_alter. Qed.

Lemma lk_Some d m a n f p c : lk m a = Some (dlinks d n f p c) ->
  exists x, m !! a = Some x /\ child d x = n /\ child (opp d) x = f /\ parent x = p /\ a_color x = c.
Proof. unfold lk. destruct (m !! a) as [x|]; [|discriminate]. destruct d; intros [= <- <- <- <-]; by exists x. Qed.

Lemma lk_is_Some m a t : lk m a = Some t -> is_Some (m !! a).
Proof. intros E. rewrite <-(fmap_is_Some links). by exists t. Qed.

Section run.
Context {A : Type} (s : mm) (m : gmap Z vma_area).

Lemma get_area_bind a x (k : vma_area -> M mm A) : m !! a = Some x -> (y <- get_area a ;; k y) (mkm s m) = k x (mkm s m).
Proof. intros E. unfold get_area, bind, gets, deref, mkm. cbn [areas set_areas]. by rewrite E. Qed.

Lemma upd_area_eq a f : is_Some (m !! a) -> upd_area a f (mkm s m) = Ok (tt, mkm s (alter f a m)).
Proof.
  intros [x E]. unfold upd_area, get_area, put_area, bind, gets, deref, modify, mkm. cbn [areas set_areas]. rewrite E. unfold ret.
  do 2 f_equal. unfold set_areas. cbn [areas tree_root list_head vma_count t_cr3]. f_equal.
  apply map_eq. intros u. destruct (decide (u = a)) as [->|]; [by rewrite lookup_insert_eq, lookup_alter_eq, E|].
  by rewrite lookup_insert_ne, lookup_alter_ne.
Qed.

Lemma upd_area_bind a f (k : unit -> M mm A) : is_Some (m !! a) ->
  bind (upd_area a f) k (mkm s m) = k tt (mkm s (alter f a m)).
Proof. intros Hs. by rewrite (bind_ok _ _ _ _ _ (upd_area_eq a f Hs)). Qed.

Lemma parent_of_bind d a n f p c (k : Z -> M mm A) : lk m a = Some (dlinks d n f p c) ->
  (y <- parent_of a ;; k y) (mkm s m) = k p (mkm s m).
Proof.
  intros (x & E & _ & _ & <- & _)%lk_Some. unfold parent_of. rewrite bind_bind, (get_area_bind a x) by done. done.
Qed.
End run.

Lemma when_upd_area s m a f : (a <> NULL -> is_Some (m !! a)) ->
  when (negb (a =? NULL)) (upd_area a f) (mkm s m) = Ok (tt, mkm s (if decide (a = NULL) then m else alter f a m)).
Proof.
  intros Hs. destruct (decide (a = NULL)) as [->|Ha]; [by rewrite Z.eqb_refl|].
  rewrite (proj2 (Z.eqb_neq _ _)) by done. cbn [negb when]. by apply upd_area_eq, Hs.
Qed.

(** ** Rotations *)

(** The parent's pointer to [x], or the root, is redirected to [y]. *)
Definition redirected (c : list frame) (y : Z) (m m' : gmap Z vma_area) : Prop :=
  same_data m m' /\ (forall u, u <> par_of c -> lk m' u = lk m u) /\
  forall f c', c = f :: c' -> lk m' (f_addr f) = Some (flinks f y (par_of c')).

Definition redirect (d : side) (par x y : Z) : M mm unit :=
  if par =? NULL then modify (set_root y) else
  np <- get_area par ;;
  if x =? child d np then upd_area par (set_child d y) else upd_area par (set_child (opp d) y).

Lemma opp_opp d : opp (opp d) = d.
Proof. by destruct d. Qed.

Lemma redirect_run d s m c x y :
  match c with [] => True | f :: c' => f_addr f <> NULL /\ lk m (f_addr f) = Some (flinks f x (par_of c')) /\ x <> top (f_sib f) end ->
  exists m', redirected c y m m' /\
    redirect d (par_of c) x y (mkm s m) = Ok (tt, mkm (set_root (new_root c y (tree_root s)) s) m').
Proof.
  unfold redirect. destruct c as [|f c]; simpl; [intros _; exists m; split; [split_and!; [done|done|by intros ??[=]]|done]|].
  intros (Hf0 & Hl & Hx). rewrite (proj2 (Z.eqb_neq _ _)) by done.
  assert (set_root (tree_root s) s = s) as -> by (by destruct s).
  exists (alter (set_child (f_side f) y) (f_addr f) m). split; [split_and!|].
  - apply sd_child.
  - intros u Hu. simpl in Hu. by rewrite lk_child, decide_False.
  - intros f' c' [= <- <-]. rewrite lk_child, decide_True, Hl by done. simpl. unfold flinks. by rewrite with_child_near.
  - destruct (lk_Some _ _ _ _ _ _ _ Hl) as (n & E & En & Ef & _). rewrite (get_area_bind s m _ n) by done.
    assert (d = f_side f \/ d = opp (f_side f)) as [-> | ->] by (destruct d, (f_side f); auto).
    + rewrite En, Z.eqb_refl. by rewrite upd_area_eq.
    + rewrite Ef, opp_opp, (proj2 (Z.eqb_neq _ _)) by done. by rewrite upd_area_eq.
Qed.

(** A subtree that gets a new parent. *)
Lemma trep_reparent m m' p p' t :
  trep m p t -> NoDup (inorder t) ->
  (forall u, u ∈ inorder t -> u <> top t -> lk m' u = lk m u) ->
  (top t <> NULL -> lk m' (top t) = with_parent p' <$> lk m (top t)) -> trep m' p' t.
Proof.
  destruct t as [|c l a r]; simpl; [done|]. intros (Ha & Hl & H1 & H2) (_ & Hnl & Hnd)%NoDup_app Hf Ht.
  apply NoDup_cons in Hnd as [Hnr _]. split_and!; [done|by rewrite Ht, Hl| |].
  - apply (trep_frame m); [|done]. intros u Hu. apply Hf; set_solver.
  - apply (trep_frame m); [|done]. intros u Hu. apply Hf; set_solver.
Qed.

Lemma top_elem t : top t <> NULL -> top t ∈ inorder t.
Proof. destruct t; simpl; [done|]. set_solver. Qed.

Lemma par_of_elem c : par_of c <> NULL -> par_of c ∈ path_elems c.
Proof. destruct c; simpl; [done|]. set_solver. Qed.

(** The rotation that moves [x] down on side [d]. *)
Definition rotate (d : side) (x : Z) : M mm unit :=
  nx <- get_area x ;;
  let y := child (opp d) nx in
  ny <- get_area y ;;
  upd_area x (set_child (opp d) (child d ny)) ;;;
  when (negb (child d ny =? NULL)) (upd_area (child d ny) (set_parent x)) ;;;
  upd_area y (set_parent (parent nx)) ;;;
  redirect d (parent nx) x y ;;;
  upd_area y (set_child d x) ;;;
  upd_area x (set_parent y).

Lemma rotate_left_eq x : vma_rotate_left x = rotate GoLeft x.
Proof. reflexivity. Qed.
Lemma rotate_right_eq x : vma_rotate_right x = rotate GoRight x.
Proof. reflexivity. Qed.

(** The disequalities between the nodes a rotation touches. *)
Lemma rotate_apart c d cx ta x cy tb y td :
  x <> NULL -> y <> NULL -> NoDup (path_elems c ++ inorder (node d cx ta x (node d cy tb y td))) ->
  x <> y /\ top tb <> x /\ top tb <> y /\ par_of c <> x /\ par_of c <> y /\ (top tb <> NULL -> par_of c <> top tb).
Proof.
  intros Hx0 Hy0 Hnd. pose proof (top_elem tb) as Hb. pose proof (par_of_elem c) as Hp.
  rewrite inorder_node, inorder_node in Hnd. apply NoDup_app in Hnd as (_ & Hd & Hnd).
  apply NoDup_cons in Hnd as [Hn1 Hnd]. apply NoDup_app in Hnd as (_ & _ & Hnd).
  apply NoDup_cons in Hnd as [Hn2 _].
  assert (forall u, u ∈ x :: y :: inorder tb -> u <> NULL -> par_of c <> u) as Hpar.
  { intros u Hu Hu0 E. apply (Hd u); [rewrite <-E; apply Hp; by rewrite E|]. rewrite !elem_of_cons, !elem_of_app, !elem_of_cons, !elem_of_app in *. tauto. }
  split_and!; [set_solver| | |apply Hpar; set_solver..|intros Hb0; apply Hpar; set_solver];
    intros E; (destruct (decide (top tb = NULL)) as [E0|E0]; [congruence|specialize (Hb E0); set_solver]).
Qed.

(** The links a rotation changes: those of [x], [y], the subtree between them
    and the parent. *)
Record rotated (c : list frame) (x y b : Z) (m m' : gmap Z vma_area) : Prop := {
  ro_data : same_data m m';
  ro_other : forall u, u <> x -> u <> y -> u <> b -> u <> par_of c -> lk m' u = lk m u;
  ro_mid : b <> NULL -> lk m' b = with_parent x <$> lk m b;
  ro_par : forall f c', c = f :: c' -> lk m' (f_addr f) = Some (flinks f y (par_of c'));
}.

(** The first three writes: [x] takes [b], [b] and [y] get their new parents. *)
Definition detach (d : side) (x y b p : Z) (m : gmap Z vma_area) : gmap Z vma_area :=
  let m1 := alter (set_child (opp d) b) x m in
  alter (set_parent p) y (if decide (b = NULL) then m1 else alter (set_parent x) b m1).

Lemma detach_data d x y b p m : same_data m (detach d x y b p m).
Proof. unfold detach. etrans; [|apply sd_parent]. case_decide; [apply sd_child|]. etrans; [apply sd_child|apply sd_parent]. Qed.

Lemma detach_lk d x y b p m u : x <> y -> b <> x -> b <> y ->
  lk (detach d x y b p m) u =
    if decide (u = y) then with_parent p <$> lk m u else if decide (u = x) then with_child (opp d) b <$> lk m u
    else if decide (u = b) then (if decide (b = NULL) then lk m u else with_parent x <$> lk m u) else lk m u.
Proof.
  intros D1 D2 D3. unfold detach. rewrite lk_parent.
  destruct (decide (b = NULL)); rewrite ?lk_parent, lk_child; repeat case_decide; subst; done.
Qed.

Lemma rotate_run d s m c cx ta x cy tb y td :
  crep m c x (tree_root s) -> trep m (par_of c) (node d cx ta x (node d cy tb y td)) ->
  NoDup (path_elems c ++ inorder (node d cx ta x (node d cy tb y td))) ->
  exists m', rotate d x (mkm s m) = Ok (tt, mkm (set_root (new_root c y (tree_root s)) s) m') /\
    rotated c x y (top tb) m m' /\
    lk m' x = Some (dlinks d (top ta) (top tb) y cx) /\ lk m' y = Some (dlinks d x (top td) (par_of c) cy).
Proof.
  intros Hc Ht Hnd. apply trep_node in Ht as (Hx0 & Hlx & Hta & Hty). apply trep_node in Hty as (Hy0 & Hly & Htb & Htd).
  rewrite top_node in Hlx. destruct (rotate_apart c d cx ta x cy tb y td Hx0 Hy0 Hnd) as (D1 & D2 & D3 & D4 & D5 & D6).
  set (b := top tb) in *. set (p := par_of c) in *.
  destruct (lk_Some _ _ _ _ _ _ _ Hlx) as (nx & Ex & Xn & Xf & Xp & Xc). destruct (lk_Some _ _ _ _ _ _ _ Hly) as (ny & Ey & Yn & Yf & Yp & Yc).
  assert (b <> NULL -> is_Some (m !! b)) as Sb by (intros Hb0; apply (trep_elem m y tb b Htb); by apply top_elem).
  set (m3 := detach d x y b p m). pose proof (detach_data d x y b p m : same_data m m3) as HD3.
  pose proof (fun u => detach_lk d x y b p m u D1 D2 D3 : lk m3 u = _) as HL3.
  destruct (redirect_run d s m3 c x y) as (m4 & (HD4 & HL4 & HP4) & E4).
  { destruct c as [|f c]; [done|]. destruct Hc as (Hf0 & Hf & Hsib & _). split_and!; [done| |].
    - rewrite HL3. rewrite decide_False by exact D5. rewrite decide_False by exact D4. destruct (decide (f_addr f = b)) as [Eb|Eb]; [|exact Hf].
      exfalso. apply D6; [by rewrite <-Eb|exact Eb].
    - intros E. apply NoDup_app in Hnd as (_ & Hd & _). apply (Hd x); [|rewrite inorder_node; set_solver].
      simpl. pose proof (top_elem (f_sib f)) as Hs. rewrite <-E in Hs. specialize (Hs Hx0). set_solver. }
  assert (forall u, lk (alter (set_parent y) x (alter (set_child d x) y m4)) u =
    if decide (u = x) then with_parent y <$> lk m4 u else if decide (u = y) then with_child d x <$> lk m4 u else lk m4 u) as HL6.
  { intros u. rewrite lk_parent, lk_child. repeat case_decide; subst; done. }
  eexists. split; [|split; [split|split]].
  - unfold rotate. rewrite (get_area_bind s m x nx) by done. rewrite Xf. cbv zeta. rewrite (get_area_bind s m y ny) by done. rewrite Yn, Xp.
    rewrite upd_area_bind by done. erewrite bind_ok; [|apply when_upd_area; intros Hb0; apply (same_data_Some m); [apply sd_child|by apply Sb]].
    rewrite upd_area_bind by (apply (same_data_Some m); [case_decide; [|etrans; [|apply sd_parent]]; apply sd_child|done]).
    change (alter (set_parent p) y _) with m3. rewrite (bind_ok _ _ _ _ _ E4).
    rewrite upd_area_bind by (apply (same_data_Some m); [by etrans|done]).
    rewrite upd_area_eq by (apply (same_data_Some m); [etrans; [exact HD3|]; etrans; [exact HD4|apply sd_child]|done]). reflexivity.
  - etrans; [exact HD3|]. etrans; [exact HD4|]. etrans; [apply sd_child|apply sd_parent].
  - intros u U1 U2 U3 U4. rewrite HL6, !decide_False, HL4, HL3, !decide_False by done. done.
  - intros Hb0. rewrite HL6, !decide_False, HL4 by (try done; by apply not_eq_sym, D6). rewrite HL3, !decide_False, decide_True by done.
    by rewrite decide_False.
  - intros f c' ->. rewrite HL6, !decide_False by done. by apply HP4.
  - rewrite HL6, decide_True, HL4 by done. rewrite HL3, decide_False, decide_True, Hlx by done. cbn [fmap option_fmap option_map].
    by rewrite with_child_far, with_parent_d.
  - rewrite HL6, decide_False, decide_True, HL4 by done. rewrite HL3, decide_True, Hly by done. cbn [fmap option_fmap option_map].
    by rewrite with_parent_d, with_child_near.
Qed.

Lemma rotate_spec d s m c cx ta x cy tb y td :
  crep m c x (tree_root s) -> trep m (par_of c) (node d cx ta x (node d cy tb y td)) ->
  NoDup (path_elems c ++ inorder (node d cx ta x (node d cy tb y td))) ->
  exists m' root', rotate d x (mkm s m) = Ok (tt, mkm (set_root root' s) m') /\ same_data m m' /\
    crep m' c y root' /\ trep m' (par_of c) (node d cy (node d cx ta x tb) y td).
Proof.
  intros Hc Ht Hnd. destruct (rotate_run d s m c cx ta x cy tb y td Hc Ht Hnd) as (m' & E & [HD Ho Hm Hp] & Hx & Hy).
  exists m', (new_root c y (tree_root s)). split_and!; [done|done| |];
    apply trep_node in Ht as (Hx0 & _ & Hta & Hty); apply trep_node in Hty as (Hy0 & _ & Htb & Htd);
    destruct (rotate_apart c d cx ta x cy tb y td Hx0 Hy0 Hnd) as (D1 & D2 & D3 & D4 & D5 & D6);
    rewrite inorder_node, inorder_node in Hnd; apply NoDup_app in Hnd as (Hn1 & Hd & Hn2);
    pose proof (top_elem tb) as Hbe; pose proof (par_of_elem c) as Hpe.
  - apply (crep_hole m m' c x); [done|done| |done]. intros u Hu Hup. apply Ho; [intros ->..| |done]; try (eapply Hd; [exact Hu|]; set_solver).
    intros Eb. pose proof (crep_elem _ _ _ _ _ Hc Hu) as Hu0.
    rewrite Eb in Hu0. specialize (Hbe Hu0). rewrite <-Eb in Hbe. eapply Hd; [exact Hu|]. set_solver.
  - apply NoDup_cons in Hn2 as [Nx Hn2]. apply NoDup_app in Hn2 as (Na & Nax & Hn2). apply NoDup_cons in Hn2 as [Ny Hn2].
    apply NoDup_app in Hn2 as (Nb & Nbd & Nd).
    assert (forall u, u ∈ inorder ta ++ inorder tb ++ inorder td -> u <> x /\ u <> y /\ (u <> NULL -> u <> par_of c)) as Hout.
    { intros u Hu. split_and!; [set_solver..|]. intros Hu0 Eu. eapply Hd; [rewrite Eu in Hu0; by apply Hpe|]. rewrite <-Eu. set_solver. }
    assert (forall u, u ∈ inorder ta ++ inorder tb ++ inorder td -> u <> NULL) as Hnz.
    { intros u [Hu|[Hu|Hu]%elem_of_app]%elem_of_app; [apply (trep_elem m x ta)|apply (trep_elem m y tb)|apply (trep_elem m y td)]; done. }
    apply trep_node. rewrite top_node. split_and!; [done|done| |].
    + apply trep_node. split_and!; [done|done| |].
      * apply (trep_frame m); [|done]. intros u Hu. destruct (Hout u) as (U1 & U2 & U3); [set_solver|]. apply Ho; [done|done| |apply U3, Hnz; set_solver].
        intros Eb. assert (u <> NULL) as Hu0 by (apply Hnz; set_solver). rewrite Eb in Hu0. specialize (Hbe Hu0). rewrite <-Eb in Hbe. set_solver.
      * apply (trep_reparent m m' y); [done|done| |done]. intros u Hu Hut. destruct (Hout u) as (U1 & U2 & U3); [set_solver|].
        apply Ho; [done|done|done|apply U3, Hnz; set_solver].
    + apply (trep_frame m); [|done]. intros u Hu. destruct (Hout u) as (U1 & U2 & U3); [set_solver|]. apply Ho; [done|done| |apply U3, Hnz; set_solver].
      intros Eb. assert (u <> NULL) as Hu0 by (apply Hnz; set_solver). rewrite Eb in Hu0. specialize (Hbe Hu0). rewrite <-Eb in Hbe. set_solver.
Qed.
