(* ===== verification/VmaFix.v ===== *)
(** * The area tree: rebalancing

    [vma_insert_fixup] computes the rebalanced tree [fixz] of a path and a red
    node; [fixz] keeps the order of the nodes and restores the red-black
    invariant. *)

From S2P Require Import Prelude Vma VmaTree.

(** ** Painting a node *)

Fixpoint paint (a : Z) (k : color) (t : tree) : tree :=
  match t with
  | Leaf => Leaf
  | Node c l b r => Node (if decide (b = a) then k else c) (paint a k l) b (paint a k r)
  end.

Lemma top_paint a k t : top (paint a k t) = top t.
Proof. by destruct t. Qed.

Lemma paint_out a k t : a ∉ inorder t -> paint a k t = t.
Proof.
  induction t as [|c l IHl b r IHr]; simpl; [done|]. intros Ha.
  rewrite decide_False, IHl, IHr by set_solver. done.
Qed.

Lemma inorder_paint a k t : inorder (paint a k t) = inorder t.
Proof. induction t as [|c l IHl b r IHr]; simpl; [done|]. by rewrite IHl, IHr. Qed.

Lemma paint_node a k d c n b f :
  paint a k (node d c n b f) = node d (if decide (b = a) then k else c) (paint a k n) b (paint a k f).
Proof. by destruct d. Qed.

Lemma trep_paint m a k par t : trep m par t -> trep (alter (set_color k) a m) par (paint a k t).
Proof.
  revert par. induction t as [|c l IHl b r IHr]; intros par; simpl; [done|]. intros (Hb & Hl & H1 & H2).
  split_and!; [done| |by apply IHl|by apply IHr]. rewrite lk_color, !top_paint, Hl. by case_decide.
Qed.

Lemma crep_paint_out m a k c h root : a ∉ path_elems c -> crep m c h root -> crep (alter (set_color k) a m) c h root.
Proof. intros Ha. apply crep_frame. intros u Hu. rewrite lk_color, decide_False; [done|]. by intros ->. Qed.

Lemma node_opp d c f a n : node (opp d) c f a n = node d c n a f.
Proof. by destruct d. Qed.

(** ** One turn of the loop *)

(** [hoist]: the grandparent [g] goes down on the far side. *)
Lemma hoist_spec d s m c cg cp tz p s1 g s2 :
  let t := node d cg (node d cp tz p s1) g s2 in
  crep m c g (tree_root s) -> trep m (par_of c) t -> NoDup (path_elems c ++ inorder t) -> top tz <> NULL ->
  exists m' root', hoist (rotate (opp d)) (top tz) (mkm s m) = Ok (tt, mkm (set_root root' s) m') /\ same_data m m' /\
    crep m' c p root' /\ trep m' (par_of c) (node d VMA_BLACK tz p (node d VMA_RED s1 g s2)).
Proof.
  intros t Hc Ht Hnd Hz. unfold t in *. pose proof Ht as Ht0. apply trep_node in Ht0 as (Hg0 & Hlg & Htp & Hs2).
  apply trep_node in Htp as (Hp0 & Hlp & Htz & Hs1). rewrite top_node in Hlg.
  pose proof Hnd as Hnd0. rewrite inorder_node, inorder_node in Hnd0. apply NoDup_app in Hnd0 as (_ & Hd & Hn).
  apply NoDup_cons in Hn as [Ng Hn]. simpl in Hn. apply NoDup_cons in Hn as [Np Hn].
  assert (p <> g) as Dpg by set_solver.
  set (m1 := alter (set_color VMA_BLACK) p m). set (m2 := alter (set_color VMA_RED) g m1).
  assert (crep m2 c g (tree_root s)) as Hc2.
  { apply crep_paint_out; [|apply crep_paint_out; [|done]]; intros Hin; (eapply Hd; [exact Hin|]; set_solver). }
  assert (trep m2 (par_of c) (node (opp d) VMA_RED s2 g (node (opp d) VMA_BLACK s1 p tz))) as Ht2.
  { assert (trep m2 (par_of c) (paint g VMA_RED (paint p VMA_BLACK (node d cg (node d cp tz p s1) g s2)))) as Hp.
    { by apply trep_paint, trep_paint. }
    rewrite !paint_node in Hp. rewrite !paint_out in Hp by (rewrite ?inorder_paint; set_solver).
    rewrite (decide_False (P := g = p)), (decide_True (P := p = p)), (decide_True (P := g = g)), (decide_False (P := p = g)) in Hp by congruence.
    by rewrite !node_opp. }
  assert (top tz ∈ inorder tz) as Hzin by (by apply top_elem).
  destruct tz as [|cz zl z zr]; [done|]. simpl in Hz, Hzin |- *. destruct Htz as (_ & Hlz & _).
  destruct (rotate_spec (opp d) s m2 c VMA_RED s2 g VMA_BLACK s1 p (Node cz zl z zr) Hc2 Ht2) as (m' & root' & E & HD & Hc' & Ht').
  { revert Hnd. rewrite !node_opp. rewrite !inorder_node. done. }
  exists m', root'. split_and!.
  - unfold hoist. rewrite (parent_of_bind s m GoLeft z _ _ p cz) by exact Hlz. rewrite upd_area_bind by (by eapply lk_is_Some). fold m1.
    rewrite (parent_of_bind s m1 d p (top (Node cz zl z zr)) (top s1) g VMA_BLACK).
    2:{ unfold m1. rewrite lk_color, decide_True, Hlp by done. simpl. by rewrite with_color_d. }
    rewrite upd_area_bind by (apply (same_data_Some m); [apply sd_color|by eapply lk_is_Some]). exact E.
  - etrans; [apply sd_color|]. etrans; [apply sd_color|exact HD].
  - done.
  - by rewrite !node_opp in Ht'.
Qed.

Lemma recolor_spec d d1 s m c cg cp t p s1 g cy ul y ur :
  let u := node d cg (node d1 cp t p s1) g (Node cy ul y ur) in
  crep m c g (tree_root s) -> trep m (par_of c) u -> NoDup (path_elems c ++ inorder u) -> top t <> NULL ->
  exists m', recolor (top t) y (mkm s m) = Ok (g, mkm s m') /\ same_data m m' /\ crep m' c g (tree_root s) /\
    trep m' (par_of c) (node d VMA_RED (node d1 VMA_BLACK t p s1) g (Node VMA_BLACK ul y ur)).
Proof.
  intros u Hc Ht Hnd Hz. unfold u in *. pose proof Ht as Ht0. apply trep_node in Ht0 as (Hg0 & Hlg & Htp & Hsy).
  apply trep_node in Htp as (Hp0 & Hlp & Htt & Hs1). simpl in Hsy. destruct Hsy as (Hy0 & Hly & _ & _).
  rewrite inorder_node, inorder_node in Hnd. simpl in Hnd. apply NoDup_app in Hnd as (_ & Hd & Hn).
  apply NoDup_cons in Hn as [Ng Hn]. apply NoDup_cons in Hn as [Np Hn].
  assert (y ∉ (inorder t ++ inorder s1) /\ y ∉ inorder ul ++ inorder ur) as (Ny1 & Ny2).
  { apply NoDup_app in Hn as (_ & Hn1 & Hn2). apply NoDup_app in Hn2 as (_ & Hn2 & Hn3). apply NoDup_cons in Hn3 as [Hn3 _].
    split; [intros Hin; apply (Hn1 y Hin); set_solver|]. intros [Hin|Hin]%elem_of_app; [|done]. apply (Hn2 y Hin). set_solver. }
  assert (p <> g /\ y <> p /\ y <> g) as (D1 & D2 & D3) by (split_and!; set_solver).
  set (m1 := alter (set_color VMA_BLACK) p m). set (m2 := alter (set_color VMA_BLACK) y m1). set (m3 := alter (set_color VMA_RED) g m2).
  exists m3. split_and!.
  - unfold recolor. destruct t as [|cz zl z zr]; [done|]. simpl in Hz |- *. destruct Htt as (_ & Hlz & _).
    rewrite (parent_of_bind s m GoLeft z _ _ p cz) by exact Hlz. rewrite upd_area_bind by (by eapply lk_is_Some). fold m1.
    rewrite upd_area_bind by (apply (same_data_Some m); [apply sd_color|by eapply lk_is_Some]). fold m2.
    rewrite (parent_of_bind s m2 d1 p z (top s1) g VMA_BLACK).
    2:{ unfold m2, m1. rewrite !lk_color, decide_False, decide_True, Hlp by done. simpl. by rewrite with_color_d. }
    rewrite upd_area_bind by (apply (same_data_Some m); [etrans; apply sd_color|by eapply lk_is_Some]). done.
  - etrans; [apply sd_color|]. etrans; apply sd_color.
  - repeat (apply crep_paint_out; [intros Hin; (eapply Hd; [exact Hin|]; set_solver)|]). done.
  - assert (trep m3 (par_of c) (paint g VMA_RED (paint y VMA_BLACK (paint p VMA_BLACK (node d cg (node d1 cp t p s1) g (Node cy ul y ur)))))) as Hp
      by (by apply trep_paint, trep_paint, trep_paint).
    rewrite !paint_node in Hp. cbn [paint] in Hp. rewrite !paint_out in Hp by (rewrite ?inorder_paint; set_solver).
    rewrite ?(decide_True (P := g = g)), ?(decide_True (P := p = p)), ?(decide_True (P := y = y)), ?(decide_False (P := p = g)),
      ?(decide_False (P := y = g)), ?(decide_False (P := p = y)), ?(decide_False (P := g = p)), ?(decide_False (P := g = y)) in Hp by congruence.
    exact Hp.
Qed.

(** The two halves of the turn, by the side of the grandparent. *)
Definition half (d : side) (z p : Z) (ng : vma_area) : M mm Z :=
  let y := child (opp d) ng in
  red <- is_red y ;;
  if red then recolor z y else
  np <- get_area p ;;
  z' <- (if z =? child (opp d) np then rotate d p ;;; ret p else ret z) ;;
  hoist (rotate (opp d)) z' ;;;
  ret z'.

Lemma fixup_turn_eq z : fixup_turn z =
  (p <- parent_of z ;; g <- parent_of p ;; ng <- get_area g ;;
   if p =? left ng then half GoLeft z p ng else half GoRight z p ng).
Proof. reflexivity. Qed.

Definition root_color (t : tree) : color := match t with Leaf => VMA_BLACK | Node c _ _ _ => c end.

Definition near (d : side) (t : tree) : tree := match t, d with Leaf, _ => Leaf | Node _ l _ _, GoLeft => l | Node _ _ _ r, GoRight => r end.

Lemma near_node d c n a f : near d (node d c n a f) = n.
Proof. by destruct d. Qed.

Lemma is_red_bind {A} s m par t (k : bool -> M mm A) : trep m par t ->
  (r <- is_red (top t) ;; k r) (mkm s m) = k (bool_decide (root_color t = VMA_RED)) (mkm s m).
Proof.
  destruct t as [|c l a r]; [done|]. simpl. intros (Ha & Hl & _). unfold is_red.
  rewrite (proj2 (Z.eqb_neq _ _)) by done. destruct (lk_Some GoLeft _ _ _ _ _ _ Hl) as (x & E & _ & _ & _ & <-).
  by rewrite bind_bind, (get_area_bind s m a x).
Qed.

(** The tree a turn that rotates makes of [t] below [f1] below [f2]. *)
Definition lift (f1 f2 : frame) (t : tree) : tree :=
  let d := f_side f2 in
  if decide (f_side f1 = d) then
    node d VMA_BLACK t (f_addr f1) (node d VMA_RED (f_sib f1) (f_addr f2) (f_sib f2))
  else
    node d VMA_BLACK (node d VMA_RED (f_sib f1) (f_addr f1) (near d t)) (top t)
      (node d VMA_RED (near (opp d) t) (f_addr f2) (f_sib f2)).

Definition blacken (t : tree) : tree := match t with Leaf => Leaf | Node _ l a r => Node VMA_BLACK l a r end.

(** The tree a turn that recolours makes. *)
Definition repaint (f1 f2 : frame) (t : tree) : tree :=
  node (f_side f2) VMA_RED (node (f_side f1) VMA_BLACK t (f_addr f1) (f_sib f1)) (f_addr f2) (blacken (f_sib f2)).

Lemma side_cases (d d' : side) : d' = d \/ d' = opp d.
Proof. destruct d, d'; auto. Qed.

(** A turn whose uncle is black. *)
Lemma half_rotates s m c f1 f2 t ng np :
  let d := f_side f2 in let u := plug1 f2 (plug1 f1 t) in
  crep m c (f_addr f2) (tree_root s) -> trep m (par_of c) u -> NoDup (path_elems c ++ inorder u) -> top t <> NULL ->
  root_color t = VMA_RED -> f_color f1 = VMA_RED -> root_color (f_sib f2) = VMA_BLACK ->
  m !! f_addr f2 = Some ng -> m !! f_addr f1 = Some np -> child (opp d) ng = top (f_sib f2) ->
  exists m' root' z', half d (top t) (f_addr f1) ng (mkm s m) = Ok (z', mkm (set_root root' s) m') /\ same_data m m' /\
    crep m' c (top (lift f1 f2 t)) root' /\ trep m' (par_of c) (lift f1 f2 t) /\ z' = top (near d (lift f1 f2 t)).
Proof.
  intros d u Hc Ht Hnd Hz Hred Hred1 Hblk Eg Ep Euncle. unfold u, plug1 in *. fold d in Ht, Hnd |- *. set (g := f_addr f2) in *. set (p := f_addr f1) in *.
  pose proof Ht as Ht0. apply trep_node in Ht0 as (Hg0 & Hlg & Htp & Hs2). pose proof Htp as Htp0. apply trep_node in Htp0 as (Hp0 & Hlp & Htt & Hs1).
  unfold half. rewrite Euncle. cbv zeta. rewrite (is_red_bind s m g (f_sib f2) _ Hs2), Hblk. cbv beta. rewrite bool_decide_false by done. cbv iota.
  rewrite (get_area_bind s m p np) by done. unfold lift. fold d g p.
  destruct (side_cases d (f_side f1)) as [E1|E1]; rewrite E1 in *.
  - rewrite decide_True by done. destruct (lk_Some _ _ _ _ _ _ _ Hlp) as (np' & Ep' & Nn & Nf & _). rewrite Ep in Ep'. injection Ep' as <-.
    rewrite Nf, (proj2 (Z.eqb_neq _ _)).
    2:{ intros Es. apply NoDup_app in Hnd as (_ & _ & Hn). rewrite inorder_node, inorder_node in Hn.
        apply NoDup_cons in Hn as [_ Hn]. simpl in Hn. apply NoDup_cons in Hn as [_ Hn]. apply NoDup_app in Hn as (Hn & _ & _).
        apply NoDup_app in Hn as (_ & Hn & _). apply (Hn (top t)); [by apply top_elem|]. rewrite Es in Hz |- *. by apply top_elem. }
    rewrite (bind_ok _ _ _ _ _ (eq_refl : ret (top t) (mkm s m) = Ok (top t, mkm s m))).
    destruct (hoist_spec d s m c (f_color f2) (f_color f1) t p (f_sib f1) g (f_sib f2) Hc Ht Hnd Hz) as (m' & root' & E & HD & Hc' & Ht').
    exists m', root', (top t). rewrite (bind_ok _ _ _ _ _ E). split_and!; try done; [by rewrite top_node|by destruct d].
  - rewrite decide_False by (by destruct d). rewrite node_opp in *.
    destruct t as [|cz zl z zr]; [done|]. simpl in Hz, Hred. subst cz.
    assert (Node VMA_RED zl z zr = node d VMA_RED (near d (Node VMA_RED zl z zr)) z (near (opp d) (Node VMA_RED zl z zr))) as Et by (by destruct d).
    set (zn := near d _) in *. set (zf := near (opp d) _) in *. rewrite Et in Ht, Hnd, Htp.
    destruct (lk_Some _ _ _ _ _ _ _ Hlp) as (np' & Ep' & Nn & Nf & _). rewrite Ep in Ep'. injection Ep' as <-.
    rewrite Nn. simpl top. rewrite Z.eqb_refl. rewrite bind_bind.
    assert (crep m (mkFrame d (f_color f2) g (f_sib f2) :: c) p (tree_root s)) as Hc1.
    { simpl. split_and!; try done. unfold flinks. simpl. by rewrite top_node in Hlg. }
    assert (NoDup (path_elems (mkFrame d (f_color f2) g (f_sib f2) :: c) ++ inorder (node d (f_color f1) (f_sib f1) p (node d VMA_RED zn z zf)))) as Hnd1.
    { revert Hnd. rewrite !inorder_node. simpl. apply nodup_perm. solve_Permutation. }
    destruct (rotate_spec d s m _ (f_color f1) (f_sib f1) p VMA_RED zn z zf Hc1 Htp Hnd1) as (m1 & r1 & E1' & HD1 & Hc1' & Ht1).
    rewrite (bind_ok _ _ _ _ _ E1'). simpl in Hc1'. destruct Hc1' as (_ & Hlg1 & Hs21 & Hcc1).
    rewrite (bind_ok _ _ _ _ _ (eq_refl : ret p (mkm (set_root r1 s) m1) = Ok (p, mkm (set_root r1 s) m1))).
    assert (trep m1 (par_of c) (node d (f_color f2) (node d VMA_RED (node d (f_color f1) (f_sib f1) p zn) z zf) g (f_sib f2))) as Ht2.
    { apply trep_node. rewrite top_node. by split_and!. }
    destruct (hoist_spec d (set_root r1 s) m1 c (f_color f2) VMA_RED (node d (f_color f1) (f_sib f1) p zn) z zf g (f_sib f2)) as (m' & root' & E & HD & Hc' & Ht');
      [done|done| |by rewrite top_node|].
    { revert Hnd. rewrite !inorder_node. apply nodup_perm. solve_Permutation. }
    rewrite top_node in E. exists m', root', p. rewrite (bind_ok _ _ _ _ _ E), Hred1 in *. split_and!; [by destruct s|by etrans|by rewrite top_node|done|].
    by destruct d.
Qed.

Lemma fixup_turn_spec s m c f1 f2 t :
  crep m (f1 :: f2 :: c) (top t) (tree_root s) -> trep m (f_addr f1) t -> NoDup (path_elems (f1 :: f2 :: c) ++ inorder t) ->
  top t <> NULL -> root_color t = VMA_RED -> f_color f1 = VMA_RED ->
  if decide (root_color (f_sib f2) = VMA_RED) then
    exists m', fixup_turn (top t) (mkm s m) = Ok (f_addr f2, mkm s m') /\ same_data m m' /\
      crep m' c (f_addr f2) (tree_root s) /\ trep m' (par_of c) (repaint f1 f2 t)
  else
    exists m' root' z', fixup_turn (top t) (mkm s m) = Ok (z', mkm (set_root root' s) m') /\ same_data m m' /\
      crep m' c (top (lift f1 f2 t)) root' /\ trep m' (par_of c) (lift f1 f2 t) /\ z' = top (near (f_side f2) (lift f1 f2 t)).
Proof.
  simpl. intros (Hp0 & Hlp & Hs1 & Hg0 & Hlg & Hs2 & Hc) Ht Hnd Hz Hred Hred1. simpl in Hlp.
  assert (trep m (par_of c) (plug1 f2 (plug1 f1 t))) as Hw.
  { apply trep_node. rewrite top_plug1. split_and!; [done|done| |done]. apply trep_node. by split_and!. }
  assert (NoDup (path_elems c ++ inorder (plug1 f2 (plug1 f1 t)))) as Hnd'.
  { revert Hnd. unfold plug1. rewrite !inorder_node. apply nodup_perm. solve_Permutation. }
  destruct (lk_Some _ _ _ _ _ _ _ Hlp) as (np & Ep & _). destruct (lk_Some _ _ _ _ _ _ _ Hlg) as (ng & Eg & Gn & Gf & _).
  assert (fixup_turn (top t) (mkm s m) = half (f_side f2) (top t) (f_addr f1) ng (mkm s m)) as ->.
  { rewrite fixup_turn_eq. destruct t as [|cz zl z zr]; [done|]. simpl in Ht |- *. destruct Ht as (_ & Hlz & _).
    rewrite (parent_of_bind s m GoLeft z _ _ (f_addr f1) cz) by exact Hlz. rewrite (parent_of_bind s m _ _ _ _ _ _ _ Hlp).
    rewrite (get_area_bind s m _ ng) by done. destruct (f_side f2); simpl in Gn, Gf; [by rewrite Gn, Z.eqb_refl|].
    rewrite Gf, (proj2 (Z.eqb_neq _ _)); [done|]. intros E. pose proof (top_elem (f_sib f2)) as Hin. rewrite <-E in Hin. specialize (Hin Hp0).
    apply NoDup_cons in Hnd as [Hn _]. set_solver. }
  case_decide as Hu.
  - destruct (f_sib f2) as [|cy ul y ur] eqn:Ey; [done|]. simpl in Hu. subst cy.
    destruct (recolor_spec (f_side f2) (f_side f1) s m c (f_color f2) (f_color f1) t (f_addr f1) (f_sib f1) (f_addr f2) VMA_RED ul y ur) as (m' & E & HD & Hc' & Ht').
    { done. } { unfold plug1 in Hw. by rewrite Ey in Hw. } { unfold plug1 in Hnd'. by rewrite Ey in Hnd'. } { done. }
    exists m'. split_and!; [|done|done|unfold repaint; by rewrite Ey].
    unfold half. rewrite Gf. cbv zeta. change y with (top (Node VMA_RED ul y ur)) at 1.
    rewrite (is_red_bind s m (f_addr f2) _ _ Hs2). done.
  - apply (half_rotates s m c f1 f2 t ng np); try done. by destruct (root_color (f_sib f2)).
Qed.

(** ** The loop *)

(** The rebalanced tree of [t] below the path [c]. *)
Fixpoint fixz (c : list frame) (t : tree) : tree :=
  match c with
  | f1 :: c1 =>
      match f_color f1, c1 with
      | VMA_RED, f2 :: c2 =>
          if decide (root_color (f_sib f2) = VMA_RED) then fixz c2 (repaint f1 f2 t) else plug c2 (lift f1 f2 t)
      | _, _ => plug c t
      end
  | [] => t
  end.

(** The path starts at a black root. *)
Definition root_black (c : list frame) : Prop := forall f, last c = Some f -> f_color f = VMA_BLACK.

Lemma parent_black_stops fuel s m par t z d b :
  trep m par (node d VMA_BLACK t b z) -> top t <> NULL -> fixup_loop (S fuel) (top t) (mkm s m) = Ok (tt, mkm s m).
Proof.
  intros Ht Hz. pose proof Ht as Ht0. apply trep_node in Ht0 as (Hb0 & Hlb & Htt & _). destruct t as [|cz zl a zr]; [done|].
  simpl in Htt |- *. destruct Htt as (_ & Hla & _). rewrite (parent_of_bind s m GoLeft a _ _ b cz) by exact Hla.
  rewrite <-(top_node d VMA_BLACK (Node cz zl a zr) b z). by rewrite (is_red_bind s m par _ _ Ht), bool_decide_false by (by destruct d).
Qed.

Lemma fixup_loop_spec fuel s m c t :
  (length c < fuel)%nat -> crep m c (top t) (tree_root s) -> trep m (par_of c) t -> NoDup (path_elems c ++ inorder t) ->
  top t <> NULL -> root_color t = VMA_RED -> root_black c ->
  exists m' root', fixup_loop fuel (top t) (mkm s m) = Ok (tt, mkm (set_root root' s) m') /\ same_data m m' /\
    trep m' NULL (fixz c t) /\ root' = top (fixz c t).
Proof.
  revert s m c t. induction fuel as [|fuel IH]; intros s m c t Hf Hc Ht Hnd Hz Hred Hrb; [lia|].
  assert (set_root (tree_root s) s = s) as Hs by (by destruct s).
  destruct c as [|f1 c1].
  { exists m, (tree_root s). rewrite Hs. simpl. split_and!; [|done|done|done].
    destruct t as [|cz zl z zr]; [done|]. simpl in Ht |- *. destruct Ht as (_ & Hlz & _). by rewrite (parent_of_bind s m GoLeft z _ _ NULL cz _ Hlz). }
  destruct (f_color f1) eqn:Ec1.
  2:{ exists m, (tree_root s). rewrite Hs. cbn [fixz]. rewrite Ec1. pose proof (conj Hc Ht) as Hw. apply rep_plug in Hw as [Hw Hr].
      split_and!; [|done|done|done]. simpl in Hc. destruct Hc as (Hp0 & Hlp & Hs1 & _).
      apply (parent_black_stops fuel s m (par_of c1) t (f_sib f1) (f_side f1) (f_addr f1)); [|done].
      apply trep_node. unfold flinks in Hlp. rewrite Ec1 in Hlp. by split_and!. }
  destruct c1 as [|f2 c]; [by rewrite (Hrb f1 eq_refl) in Ec1|].
  pose proof (fixup_turn_spec s m c f1 f2 t Hc Ht Hnd Hz Hred Ec1) as Hturn.
  assert (fixup_loop (S fuel) (top t) (mkm s m) = (z' <- fixup_turn (top t) ;; fixup_loop fuel z') (mkm s m)) as ->.
  { simpl in Hc. destruct Hc as (Hp0 & Hlp & Hs1 & _). destruct t as [|cz zl z zr]; [done|]. pose proof Ht as Ht0. simpl in Ht0. destruct Ht0 as (_ & Hlz & _).
    cbn [fixup_loop top]. rewrite (parent_of_bind s m GoLeft z _ _ (f_addr f1) cz) by exact Hlz.
    assert (trep m (f_addr f2) (plug1 f1 (Node cz zl z zr))) as Hw by (apply trep_node; by split_and!).
    rewrite <-(top_plug1 f1 (Node cz zl z zr)) at 1. rewrite (is_red_bind s m _ _ _ Hw), bool_decide_true; [done|].
    unfold plug1. by destruct (f_side f1). }
  cbn [fixz]. rewrite Ec1. case_decide as Hu.
  - destruct Hturn as (m' & E & HD & Hc' & Ht'). rewrite (bind_ok _ _ _ _ _ E).
    destruct (IH s m' c (repaint f1 f2 t)) as (m2 & root2 & E2 & HD2 & Hrest); [simpl in Hf; lia| |done| | | | |].
    + unfold repaint. by rewrite top_node.
    + revert Hnd. unfold repaint. rewrite !inorder_node. simpl. destruct (f_sib f2); simpl; apply nodup_perm; solve_Permutation.
    + unfold repaint. simpl in Hc. destruct Hc as (_ & _ & _ & Hg0 & _). by rewrite top_node.
    + unfold repaint. by destruct (f_side f2).
    + intros f Hl. apply Hrb. destruct c; [done|]. by rewrite !last_cons_cons.
    + unfold repaint in E2 at 1. rewrite top_node in E2. exists m2, root2. split_and!; [done|by etrans|by destruct Hrest..].
  - destruct Hturn as (m' & root' & z' & E & HD & Hc' & Ht' & ->). rewrite (bind_ok _ _ _ _ _ E).
    exists m', root'. pose proof (conj Hc' Ht') as Hw. apply rep_plug in Hw as [Hw Hr]. split_and!; [|done|done|done].
    destruct fuel as [|fuel]; [simpl in Hf; lia|]. unfold lift in Ht' |- *.
    assert (f_addr f1 <> NULL) as Hp0 by (simpl in Hc; tauto).
    case_decide; rewrite near_node; (eapply parent_black_stops; [exact Ht'|by rewrite ?top_node]).
Qed.

(** ** What rebalancing preserves and restores *)

Lemma inorder_repaint f1 f2 t : inorder (repaint f1 f2 t) = inorder (plug1 f2 (plug1 f1 t)).
Proof.
  unfold repaint, plug1, node. assert (inorder (blacken (f_sib f2)) = inorder (f_sib f2)) as E by (by destruct (f_sib f2)).
  destruct (f_side f1), (f_side f2); simpl; by rewrite E.
Qed.

Lemma inorder_lift f1 f2 t : top t <> NULL -> inorder (lift f1 f2 t) = inorder (plug1 f2 (plug1 f1 t)).
Proof.
  intros Ht. unfold lift, plug1, node. destruct t as [|c l a r]; [done|].
  destruct (f_side f1), (f_side f2); simpl; rewrite <-?app_assoc; simpl; by rewrite <-?app_assoc.
Qed.

Lemma inorder_fixz c t : (forall u, u ∈ path_elems c -> u <> NULL) -> top t <> NULL -> inorder (fixz c t) = inorder (plug c t).
Proof.
  remember (length c) as n eqn:En. revert c t En. induction n as [n IH] using lt_wf_ind. intros c t -> Hc Ht.
  destruct c as [|f1 [|f2 c]]; cbn [fixz]; [done|by destruct (f_color f1)|]. destruct (f_color f1); [|done]. case_decide.
  - rewrite (IH (length c)); [|simpl; lia|done| |].
    + cbn [plug]. rewrite !inorder_plug. by rewrite inorder_repaint.
    + intros u Hu. apply Hc. simpl. set_solver.
    + unfold repaint. rewrite top_node. apply Hc. simpl. set_solver.
  - cbn [plug]. rewrite !inorder_plug. by rewrite inorder_lift.
Qed.

(** Black height [n], and no red node with a red child. *)
Fixpoint rbt (n : nat) (t : tree) : Prop :=
  match t with
  | Leaf => n = O
  | Node VMA_RED l _ r => root_color l = VMA_BLACK /\ root_color r = VMA_BLACK /\ rbt n l /\ rbt n r
  | Node VMA_BLACK l _ r => match n with O => False | S n => rbt n l /\ rbt n r end
  end.

(** A path whose hole takes a tree of black height [n]. *)
Definition black_next (c : list frame) : Prop := match c with [] => False | f :: _ => f_color f = VMA_BLACK end.
Fixpoint path_rb (n : nat) (c : list frame) : Prop :=
  match c with
  | [] => True
  | f :: c => rbt n (f_sib f) /\
      match f_color f with
      | VMA_RED => root_color (f_sib f) = VMA_BLACK /\ black_next c /\ path_rb n c
      | VMA_BLACK => path_rb (S n) c
      end
  end.

Lemma rbt_red d n l a r : rbt n (node d VMA_RED l a r) <-> root_color l = VMA_BLACK /\ root_color r = VMA_BLACK /\ rbt n l /\ rbt n r.
Proof. destruct d; simpl; tauto. Qed.
Lemma rbt_black d n l a r : rbt (S n) (node d VMA_BLACK l a r) <-> rbt n l /\ rbt n r.
Proof. destruct d; simpl; tauto. Qed.
Lemma root_color_node d c l a r : root_color (node d c l a r) = c.
Proof. by destruct d. Qed.

Lemma plug_rbt c n t : path_rb n c -> rbt n t -> (root_color t = VMA_RED -> c = [] \/ black_next c) -> exists N, rbt N (plug c t).
Proof.
  revert n t. induction c as [|f c IH]; intros n t; simpl; [by exists n|]. intros [Hs Hp] Ht Hr.
  destruct (f_color f) eqn:Ef; unfold plug1; rewrite Ef.
  - destruct Hp as (Hb & Hn & Hp). apply (IH n); [done| |by right]. apply rbt_red. split_and!; try done.
    destruct (root_color t); [|done]. destruct Hr; [done|done|congruence].
  - apply (IH (S n)); [done|by apply rbt_black|]. by rewrite root_color_node.
Qed.

Lemma blacken_rbt n t : rbt n t -> root_color t = VMA_RED -> rbt (S n) (blacken t).
Proof. destruct t as [|[] l a r]; simpl; [done| |done]. tauto. Qed.

Lemma near_red d t n : root_color t = VMA_RED -> rbt n t -> root_color (near d t) = VMA_BLACK /\ rbt n (near d t).
Proof. destruct t as [|[] l a r]; simpl; try done. destruct d; tauto. Qed.

Lemma fixz_rbt c n t : path_rb n c -> rbt n t -> root_color t = VMA_RED -> exists N, rbt N (fixz c t).
Proof.
  remember (length c) as k eqn:Ek. revert c n t Ek. induction k as [k IH] using lt_wf_ind. intros c n t -> Hp Ht Hr.
  destruct c as [|f1 c1]; cbn [fixz]; [by exists n|]. pose proof Hp as Hp0. simpl in Hp. destruct Hp as [Hs1 Hp].
  destruct (f_color f1) eqn:E1; [|apply (plug_rbt _ n); try done; intros _; by right].
  destruct Hp as (Hb1 & Hn & Hp). destruct c1 as [|f2 c]; [done|]. simpl in Hn, Hp. rewrite Hn in Hp. destruct Hp as [Hs2 Hp].
  case_decide as Hu.
  - apply (IH (length c)) with (n := S n); [simpl; lia|done|done| |].
    + unfold repaint. apply rbt_red. rewrite root_color_node. split_and!; [done|by destruct (f_sib f2)|by apply rbt_black|by apply blacken_rbt].
    + apply root_color_node.
  - assert (root_color (f_sib f2) = VMA_BLACK) as Hb2 by (by destruct (root_color (f_sib f2))).
    destruct (near_red (f_side f2) t n Hr Ht) as [A1 A2]. destruct (near_red (opp (f_side f2)) t n Hr Ht) as [B1 B2].
    apply (plug_rbt c (S n)); [done| |].
    + unfold lift. case_decide; apply rbt_black; rewrite ?rbt_red; by split_and!.
    + unfold lift. case_decide; by rewrite root_color_node.
Qed.
