(* ===== verification/VmaSpec.v ===== *)
(** * The area tree: search, insertion, removal

    The tree of a task as an ordered sequence of disjoint areas. *)

From stdpp Require Import sorting.
From S2P Require Import Prelude Vma VmaTree VmaFix.

Definition start_of (m : gmap Z vma_area) (a : Z) : Z := from_option vm_start 0 (m !! a).
Definition end_of (m : gmap Z vma_area) (a : Z) : Z := from_option vm_end 0 (m !! a).

(** [a] lies entirely below [b]. *)
Definition below (m : gmap Z vma_area) (a b : Z) : Prop := end_of m a <= start_of m b.
Definition contains (m : gmap Z vma_area) (a addr : Z) : Prop := start_of m a <= addr < end_of m a.

Record vtree (s : mm) (t : tree) : Prop := {
  vt_rep : trep (areas s) NULL t;
  vt_root : tree_root s = top t;
  vt_nodup : NoDup (inorder t);
  vt_sorted : StronglySorted (below (areas s)) (inorder t);
  vt_size : forall a, a ∈ inorder t -> start_of (areas s) a < end_of (areas s) a;
}.

Lemma same_data_start m m' a : same_data m m' -> start_of m' a = start_of m a.
Proof. intros H. specialize (H a). unfold start_of. destruct (m' !! a), (m !! a); simplify_eq/=; congruence. Qed.
Lemma same_data_end m m' a : same_data m m' -> end_of m' a = end_of m a.
Proof. intros H. specialize (H a). unfold end_of. destruct (m' !! a), (m !! a); simplify_eq/=; congruence. Qed.

Lemma sorted_data m m' l : same_data m m' -> StronglySorted (below m) l -> StronglySorted (below m') l.
Proof.
  intros Hd. induction 1 as [|a l Hs IH Hf]; constructor; [done|]. eapply Forall_impl; [exact Hf|]. intros b. unfold below.
  by rewrite (same_data_start m m'), (same_data_end m m').
Qed.

Lemma tree_fuel s t : trep (areas s) NULL t -> NoDup (inorder t) -> (length (inorder t) < S (size (areas s)))%nat.
Proof. intros Ht Hnd. apply fuel_enough; [done|]. intros u Hu. by apply (trep_elem (areas s) NULL t u). Qed.

Lemma sorted_app m l1 a l2 : StronglySorted (below m) (l1 ++ a :: l2) ->
  StronglySorted (below m) l1 /\ StronglySorted (below m) l2 /\ (forall u, u ∈ l1 -> below m u a) /\ (forall u, u ∈ l2 -> below m a u).
Proof.
  intros H. apply StronglySorted_app in H as (H1 & Hs1 & H2). apply StronglySorted_inv in H2 as [Hs2 Hf]. rewrite Forall_forall in Hf.
  split_and!; try done. intros u Hu. apply H1; [done|]. by left.
Qed.

(** ** Search *)

Lemma find_loop_spec fuel s m par t addr :
  (length (inorder t) < fuel)%nat -> trep m par t -> StronglySorted (below m) (inorder t) ->
  (forall a, a ∈ inorder t -> start_of m a < end_of m a) ->
  exists r, find_loop fuel addr (top t) (mkm s m) = Ok (r, mkm s m) /\
    ((r = NULL /\ forall a, a ∈ inorder t -> ~ contains m a addr) \/ (r ∈ inorder t /\ r <> NULL /\ contains m r addr)).
Proof.
  revert fuel par. induction t as [|c l IHl a r IHr]; intros fuel par Hf Ht Hs Hz; (destruct fuel as [|fuel]; [simpl in Hf; lia|]); cbn [find_loop top].
  { exists NULL. split; [done|]. left. split; [done|]. by intros a ?%elem_of_nil. }
  simpl in Ht, Hs, Hz, Hf. rewrite length_app in Hf. simpl in Hf. destruct Ht as (Ha & Hl & H1 & H2). rewrite (proj2 (Z.eqb_neq _ _)) by done.
  destruct (lk_Some GoLeft _ _ _ _ _ _ Hl) as (x & Ex & Xl & Xr & _). simpl in Xl, Xr.
  assert (start_of m a = vm_start x /\ end_of m a = vm_end x) as [Es Ee] by (unfold start_of, end_of; by rewrite Ex).
  destruct (sorted_app _ _ _ _ Hs) as (Hs1 & Hs2 & Hb1 & Hb2).
  assert (forall u, u ∈ inorder l -> start_of m u < end_of m u) as Hz1 by (intros u Hu; apply Hz; set_solver).
  assert (forall u, u ∈ inorder r -> start_of m u < end_of m u) as Hz2 by (intros u Hu; apply Hz; set_solver).
  specialize (Hz a ltac:(set_solver)). rewrite (get_area_bind s m a x) by done.
  destruct ((vm_start x <=? addr) && (addr <? vm_end x)) eqn:Ec.
  { apply andb_true_iff in Ec as [E1%Z.leb_le E2%Z.ltb_lt]. exists a. split; [done|]. right. unfold contains. rewrite Es, Ee. split; [set_solver|done]. }
  assert (~ contains m a addr) as Hna.
  { unfold contains. rewrite Es, Ee. intros [E1 E2]. by rewrite (proj2 (Z.leb_le _ _)), (proj2 (Z.ltb_lt _ _)) in Ec. }
  assert (forall u, u ∈ inorder l ++ a :: inorder r <-> u ∈ inorder l \/ u = a \/ u ∈ inorder r) as Hel by set_solver.
  destruct (Z.ltb_spec addr (vm_start x)) as [Hlt|Hge].
  - rewrite Xl. destruct (IHl fuel a ltac:(lia) H1 Hs1 Hz1) as (q & E & Hq). exists q. split; [done|]. simpl inorder. setoid_rewrite Hel.
    destruct Hq as [(-> & Hq)|Hq]; [left|right; tauto]. split; [done|]. intros u [Hu|[->|Hu]]; [by apply Hq|done|].
    unfold contains. specialize (Hb2 u Hu). unfold below in Hb2. lia.
  - rewrite Xr. destruct (IHr fuel a ltac:(lia) H2 Hs2 Hz2) as (q & E & Hq). exists q. split; [done|]. simpl inorder. setoid_rewrite Hel.
    destruct Hq as [(-> & Hq)|Hq]; [left|right; tauto]. split; [done|]. intros u [Hu|[->|Hu]]; [|done|by apply Hq].
    unfold contains. specialize (Hb1 u Hu). unfold below in Hb1. unfold contains in Hna. lia.
Qed.

(** [vma_find] terminates on every task whose areas are in order, changes
    nothing, and returns the area that contains the address, or NULL when no
    area does. *)
Theorem vma_find_correct s t addr :
  vtree s t ->
  exists r, vma_find addr s = Ok (r, s) /\
    ((r = NULL /\ forall a, a ∈ inorder t -> ~ contains (areas s) a addr) \/
     (r ∈ inorder t /\ r <> NULL /\ contains (areas s) r addr)).
Proof.
  intros [Ht Hr Hnd Hs Hz]. destruct (find_loop_spec (S (S (size (areas s)))) s (areas s) NULL t addr) as (r & E & Hq); try done.
  { pose proof (tree_fuel s t Ht Hnd). lia. }
  exists r. rewrite mkm_id in E. split; [|done]. unfold vma_find. unfold bind, gets, area_fuel. rewrite Hr. unfold gets. exact E.
Qed.

(** ** Insertion *)

(** The path from [t], itself below [c], to the leaf where [key] belongs. *)
Fixpoint descend (m : gmap Z vma_area) (key : Z) (t : tree) (c : list frame) : list frame :=
  match t with
  | Leaf => c
  | Node k l a r =>
      if key <? start_of m a then descend m key l (mkFrame GoLeft k a r :: c) else descend m key r (mkFrame GoRight k a l :: c)
  end.

Lemma elems_descend m key t c : path_elems (descend m key t c) ≡ₚ inorder t ++ path_elems c.
Proof.
  revert c. induction t as [|k l IHl a r IHr]; intros c; simpl; [done|]. case_match; [rewrite IHl|rewrite IHr]; simpl; solve_Permutation.
Qed.

Lemma inorder_descend m key t c : before (descend m key t c) ++ after (descend m key t c) = before c ++ inorder t ++ after c.
Proof.
  revert c. induction t as [|k l IHl a r IHr]; intros c; simpl; [done|].
  case_match; [rewrite IHl|rewrite IHr]; simpl; by rewrite <-?app_assoc, ?app_nil_r.
Qed.

Lemma descend_root m key t f c : last (descend m key t (f :: c)) = last (f :: c).
Proof.
  revert f c. induction t as [|k l IHl a r IHr]; intros f c; simpl; [done|].
  case_match; [rewrite IHl|rewrite IHr]; by rewrite last_cons_cons.
Qed.

Lemma descend_root_black m key t : root_color t = VMA_BLACK -> root_black (descend m key t []).
Proof.
  destruct t as [|k l a r]; simpl; [by intros _ f|]. intros ->. case_match; intros f; rewrite descend_root; by intros [= <-].
Qed.

(** [a] becomes the child, on side [d], of the node [b]. *)
Lemma hang_leaf d s m c k b sib a :
  crep m (mkFrame d k b sib :: c) NULL (tree_root s) -> NoDup (path_elems (mkFrame d k b sib :: c)) ->
  a <> NULL -> a ∉ path_elems (mkFrame d k b sib :: c) -> lk m a = Some (NULL, NULL, NULL, VMA_RED) ->
  exists m', (upd_area b (set_child d a) ;;; upd_area a (set_parent b)) (mkm s m) = Ok (tt, mkm s m') /\ same_data m m' /\
    crep m' (mkFrame d k b sib :: c) a (tree_root s) /\ trep m' b (Node VMA_RED Leaf a Leaf).
Proof.
  intros Hc Hnd Ha0 Hna Hla. simpl in Hna. assert (a <> b) as Hab by set_solver.
  pose proof Hc as Hc0. simpl in Hc0. destruct Hc0 as (Hb0 & Hlb & _).
  exists (alter (set_parent b) a (alter (set_child d a) b m)). split; [|split; [|split]].
  - rewrite upd_area_bind by (by eapply lk_is_Some). apply upd_area_eq. apply (same_data_Some m); [apply sd_child|by eapply lk_is_Some].
  - etrans; [apply sd_child|apply sd_parent].
  - apply (crep_hole m _ (mkFrame d k b sib :: c) NULL a (tree_root s)); [done|done| |].
    + intros u Hu Hp. simpl in Hu, Hp. rewrite lk_parent, decide_False, lk_child, decide_False by set_solver. done.
    + intros f c' [= <- <-]. simpl. rewrite lk_parent, decide_False, lk_child, decide_True, Hlb by done. simpl. unfold flinks. simpl.
      by rewrite with_child_near.
  - simpl. split_and!; try done. rewrite lk_parent, decide_True, lk_child, decide_False, Hla by done. done.
Qed.

Lemma hang_node_spec fuel s m c t a x :
  (length (inorder t) < fuel)%nat -> t <> Leaf -> crep m c (top t) (tree_root s) -> trep m (par_of c) t ->
  NoDup (path_elems c ++ inorder t) -> a <> NULL -> a ∉ path_elems c ++ inorder t ->
  m !! a = Some x -> lk m a = Some (NULL, NULL, NULL, VMA_RED) ->
  let c' := descend m (vm_start x) t c in
  exists m', hang_node fuel a (top t) (mkm s m) = Ok (tt, mkm s m') /\ same_data m m' /\
    crep m' c' a (tree_root s) /\ trep m' (par_of c') (Node VMA_RED Leaf a Leaf).
Proof.
  intros Hf Hne Hc Ht Hnd Ha0 Hna Hx Hla. revert fuel c Hf Hne Hc Ht Hnd Hna.
  induction t as [|k l IHl b r IHr]; intros fuel c Hf Hne Hc Ht Hnd Hna; [done|]. clear Hne. simpl in Hf, Ht, Hnd, Hna, Hc.
  rewrite length_app in Hf. simpl in Hf. destruct Ht as (Hb & Hl & H1 & H2). destruct fuel as [|fuel]; [lia|]. cbn [hang_node top].
  destruct (lk_Some GoLeft _ _ _ _ _ _ Hl) as (y & Ey & Yl & Yr & _). simpl in Yl, Yr.
  rewrite (get_area_bind s m a x), (get_area_bind s m b y) by done. cbn [descend].
  assert (start_of m b = vm_start y) as -> by (unfold start_of; by rewrite Ey).
  assert (crep m (mkFrame GoLeft k b r :: c) (top l) (tree_root s)) as Hc1 by (simpl; by split_and!).
  assert (crep m (mkFrame GoRight k b l :: c) (top r) (tree_root s)) as Hc2 by (simpl; by split_and!).
  destruct (vm_start x <? vm_start y); rewrite ?Yl, ?Yr.
  - destruct l as [|k' l1 b' l2].
    + apply (hang_leaf GoLeft); try done; [|simpl; set_solver]. revert Hnd. apply nodup_perm. simpl. solve_Permutation.
    + assert (b' <> NULL) as Hb' by (simpl in H1; tauto). rewrite (proj2 (Z.eqb_neq _ _)) by done.
      apply (IHl fuel (mkFrame GoLeft k b r :: c)); [simpl in *; lia|done|done|done| |].
      * revert Hnd. apply nodup_perm. cbn [path_elems f_addr f_sib]. solve_Permutation.
      * cbn [path_elems f_addr f_sib]. clear -Hna. set_solver.
  - destruct r as [|k' r1 b' r2].
    + apply (hang_leaf GoRight); try done; [|simpl; set_solver]. revert Hnd. apply nodup_perm. simpl. solve_Permutation.
    + assert (b' <> NULL) as Hb' by (simpl in H2; tauto). rewrite (proj2 (Z.eqb_neq _ _)) by done.
      apply (IHr fuel (mkFrame GoRight k b l :: c)); [simpl in *; lia|done|done|done| |].
      * revert Hnd. apply nodup_perm. cbn [path_elems f_addr f_sib]. solve_Permutation.
      * cbn [path_elems f_addr f_sib]. clear -Hna. set_solver.
Qed.

(** Where a range that overlaps no area goes. *)
Lemma descend_order m k e t c :
  StronglySorted (below m) (inorder t) -> (forall u, u ∈ inorder t -> start_of m u < end_of m u) -> k < e ->
  (forall u, u ∈ inorder t -> end_of m u <= k \/ e <= start_of m u) ->
  (forall u, u ∈ before c -> end_of m u <= k) -> (forall u, u ∈ after c -> e <= start_of m u) ->
  (forall u, u ∈ before (descend m k t c) -> end_of m u <= k) /\ (forall u, u ∈ after (descend m k t c) -> e <= start_of m u).
Proof.
  revert c. induction t as [|col l IHl a r IHr]; intros c Hs Hz Hke Hd Hb Ha; simpl; [done|]. simpl in Hs, Hz, Hd.
  destruct (sorted_app _ _ _ _ Hs) as (Hs1 & Hs2 & Hb1 & Hb2).
  pose proof (Hz a ltac:(set_solver)) as Hza. pose proof (Hd a ltac:(set_solver)) as Hda.
  destruct (Z.ltb_spec k (start_of m a)) as [Hlt|Hge].
  - apply IHl; try done; [intros u Hu; apply Hz; set_solver|intros u Hu; apply Hd; set_solver|simpl; by rewrite app_nil_r|].
    simpl. intros u [->|[Hu|Hu]%elem_of_app]%elem_of_cons; [lia| |by apply Ha]. specialize (Hb2 u Hu). unfold below in Hb2. lia.
  - apply IHr; try done; [intros u Hu; apply Hz; set_solver|intros u Hu; apply Hd; set_solver|].
    simpl. intros u [Hu|[Hu| ->%list_elem_of_singleton]%elem_of_app]%elem_of_app; [by apply Hb| |lia]. specialize (Hb1 u Hu). unfold below in Hb1. lia.
Qed.

Lemma path_length c : (length c <= length (path_elems c))%nat.
Proof. induction c as [|f c IH]; simpl; [done|]. rewrite length_app. lia. Qed.

Lemma inorder_blacken t : inorder (blacken t) = inorder t.
Proof. by destruct t. Qed.

Lemma paint_top t : NoDup (inorder t) -> paint (top t) VMA_BLACK t = blacken t.
Proof.
  destruct t as [|c l a r]; simpl; [done|]. rewrite decide_True by done. intros (_ & Hl & Hr)%NoDup_app.
  apply NoDup_cons in Hr as [Hr _]. rewrite !paint_out; [done|done|]. intros Hin. apply (Hl a); [done|by left].
Qed.

(** [vma_insert_fixup] at the end of the path [c]. *)
Lemma insert_fixup_spec s m c a :
  crep m c a (tree_root s) -> trep m (par_of c) (Node VMA_RED Leaf a Leaf) -> NoDup (path_elems c ++ [a]) ->
  (forall u, u ∈ path_elems c -> is_Some (m !! u)) -> root_black c ->
  exists m', let t' := blacken (fixz c (Node VMA_RED Leaf a Leaf)) in
    vma_insert_fixup a (mkm s m) = Ok (tt, mkm (set_root (top t') s) m') /\ same_data m m' /\ trep m' NULL t' /\
    inorder t' = before c ++ a :: after c.
Proof.
  intros Hc Ht Hnd Hin Hrb. assert (a <> NULL) as Ha by (simpl in Ht; tauto). set (nd := Node VMA_RED Leaf a Leaf).
  destruct (fixup_loop_spec (S (S (size m))) s m c nd) as (m1 & r1 & E1 & HD1 & Ht1 & ->); try done.
  { pose proof (path_length c). pose proof (fuel_enough m (path_elems c)) as Hf.
    assert (length (path_elems c) < S (size m))%nat by (apply Hf; [by apply NoDup_app in Hnd as (? & _ & _)|done]). lia. }
  set (T := fixz c nd) in *. assert (inorder T = before c ++ a :: after c) as Ein.
  { unfold T. rewrite inorder_fixz; [by rewrite inorder_plug| |done]. intros u. apply (crep_elem _ _ _ _ _ Hc). }
  assert (NoDup (inorder T)) as HndT.
  { rewrite Ein. revert Hnd. apply nodup_perm. rewrite path_elems_perm. solve_Permutation. }
  assert (T <> Leaf) as HT by (intros ->; by destruct (before c)).
  assert (top T ∈ inorder T) as HtT by (destruct T; [done|simpl; set_solver]).
  exists (alter (set_color VMA_BLACK) (top T) m1). cbv zeta. split_and!.
  - unfold vma_insert_fixup, area_fuel. unfold bind at 1, gets at 1. cbv beta iota. change (areas (mkm s m)) with m.
    change a with (top nd). rewrite (bind_ok _ _ _ _ _ E1). unfold bind, gets. cbv beta iota. cbn [tree_root set_root mkm set_areas].
    assert (top (blacken T) = top T) as -> by (by destruct T).
    apply (upd_area_eq (set_root (top T) s) m1). by apply (trep_elem m1 NULL T).
  - etrans; [exact HD1|apply sd_color].
  - rewrite <-paint_top by done. by apply trep_paint.
  - by rewrite inorder_blacken.
Qed.

Lemma descend_rb m k t c n : path_rb n c -> rbt n t -> (root_color t = VMA_RED -> black_next c) -> path_rb 0 (descend m k t c).
Proof.
  revert c n. induction t as [|col l IHl a r IHr]; intros c n Hc Ht Hr; simpl; [simpl in Ht; by subst n|].
  destruct col; simpl in Ht, Hr.
  - destruct Ht as (Hl & Hr' & H1 & H2).
    case_match; [apply (IHl _ n)|apply (IHr _ n)]; try done; simpl; try (by rewrite ?Hl, ?Hr'); by split_and!; auto.
  - destruct n as [|n]; [done|]. destruct Ht as [H1 H2]. case_match; [apply (IHl _ n)|apply (IHr _ n)]; done.
Qed.

Lemma blacken_root t : t <> Leaf -> root_color (blacken t) = VMA_BLACK.
Proof. by destruct t. Qed.

Lemma blacken_rbt' n t : rbt n t -> exists n', rbt n' (blacken t).
Proof. destruct t as [|[] l a r]; simpl; [by exists n|intros (_ & _ & H1 & H2); by exists (S n)|by exists n]. Qed.

(** The whole insertion, step 7 and 8 of [vma_map]. *)
Lemma tree_insert_spec s t a x :
  vtree s t -> root_color t = VMA_BLACK ->
  areas s !! a = Some x -> links x = (NULL, NULL, NULL, VMA_RED) -> a <> NULL -> a ∉ inorder t ->
  vm_start x < vm_end x -> (forall u, u ∈ inorder t -> end_of (areas s) u <= vm_start x \/ vm_end x <= start_of (areas s) u) ->
  exists s' t' l1 l2, tree_insert a s = Ok (tt, s') /\ vtree s' t' /\ root_color t' = VMA_BLACK /\
    inorder t = l1 ++ l2 /\ inorder t' = l1 ++ a :: l2 /\ same_data (areas s) (areas s') /\
    list_head s' = list_head s /\ vma_count s' = vma_count s /\ t_cr3 s' = t_cr3 s /\
    forall n, rbt n t -> exists n', rbt n' t'.
Proof.
  intros [Ht Hr Hnd Hs Hz] Hrb Hx Hlx Ha Hna Hsz Hdis. set (m := areas s) in *. set (c := descend m (vm_start x) t []).
  assert (exists m1 s1, (if tree_root s =? NULL then modify (set_root a) else n <- area_fuel ;; hang_node n a (tree_root s)) s = Ok (tt, mkm s1 m1) /\
    same_data m m1 /\ crep m1 c a (tree_root s1) /\ trep m1 (par_of c) (Node VMA_RED Leaf a Leaf) /\
    list_head s1 = list_head s /\ vma_count s1 = vma_count s /\ t_cr3 s1 = t_cr3 s) as (m1 & s1 & E1 & HD1 & Hc1 & Ht1 & L1 & L2 & L3).
  { rewrite Hr. destruct t as [|k l b r].
    - exists m, (set_root a s). split_and!; try done. simpl. unfold lk. rewrite Hx. simpl. by rewrite Hlx.
    - assert (b <> NULL) as Hb by (simpl in Ht; tauto). cbn [top]. rewrite (proj2 (Z.eqb_neq _ _)) by done.
      destruct (hang_node_spec (S (S (size m))) s m [] (Node k l b r) a x) as (m1 & E & HD & Hc & Ht'); try done.
      { pose proof (tree_fuel s _ Ht Hnd) as Hf. fold m in Hf. lia. } { unfold lk. by rewrite Hx; simpl; rewrite Hlx. }
      exists m1, s. unfold m in E. rewrite mkm_id in E. split; [exact E|]. by split_and!. }
  assert (path_elems c ≡ₚ inorder t) as Pc by (unfold c; rewrite elems_descend; simpl; by rewrite app_nil_r).
  destruct (insert_fixup_spec s1 m1 c a Hc1 Ht1) as (m2 & E2 & HD2 & Ht2 & Ein).
  { rewrite Pc. apply NoDup_app. split_and!; [done| |by apply NoDup_singleton]. intros u Hu ->%list_elem_of_singleton. done. }
  { intros u Hu. apply (same_data_Some m m1 u HD1). rewrite Pc in Hu. by apply (trep_elem m NULL t). }
  { unfold c. by apply descend_root_black. }
  set (t' := blacken _) in *. assert (same_data m m2) as HD by (by etrans).
  assert (inorder t = before c ++ after c) as Eit by (unfold c; rewrite inorder_descend; simpl; by rewrite app_nil_r).
  destruct (descend_order m (vm_start x) (vm_end x) t [] Hs Hz Hsz Hdis) as [Ob Oa]; [by intros u ?%elem_of_nil..|]. fold c in Ob, Oa.
  assert (start_of m a = vm_start x /\ end_of m a = vm_end x) as [Esa Eea] by (unfold start_of, end_of; by rewrite Hx).
  exists (mkm (set_root (top t') s1) m2), t', (before c), (after c). split_and!; try done.
  - unfold tree_insert. unfold bind at 1, gets at 1. cbv beta iota. rewrite (bind_ok _ _ _ _ _ E1). exact E2.
  - split; [done|done| | |].
    + rewrite Ein. apply (nodup_perm (a :: inorder t)); [rewrite Eit; solve_Permutation|by apply NoDup_cons].
    + apply (sorted_data m); [done|]. rewrite Ein. rewrite Eit in Hs. apply StronglySorted_app in Hs as (H1 & H2 & H3).
      apply StronglySorted_app. split_and!; [|done|].
      * intros u v Hu [->|Hv]%elem_of_cons; [unfold below; rewrite Esa; by apply Ob|by apply H1].
      * apply StronglySorted_cons. split; [|done]. apply Forall_forall. intros v Hv. unfold below. rewrite Eea. by apply Oa.
    + intros u Hu. change (areas _) with m2. rewrite (same_data_start m m2), (same_data_end m m2) by done. rewrite Ein in Hu.
      destruct (decide (u = a)) as [->|Hua]; [by rewrite Esa, Eea|]. apply Hz. rewrite Eit. set_solver.
  - apply blacken_root. intros E. unfold t' in Ein. rewrite E in Ein. by destruct (before c).
  - intros n Hn. destruct (fixz_rbt c 0 (Node VMA_RED Leaf a Leaf)) as (N & HN); [|done|done|by apply blacken_rbt' in HN].
    apply (descend_rb _ _ _ _ n); [done|done|]. by rewrite Hrb.
Qed.

(** C19: the insertion into the tree terminates and keeps it a search tree:
    when the new descriptor overlaps no area and the root is black, it takes
    its place in the order of the areas, no area is lost or changed, the root
    is black again and, if the tree was a red-black tree, it is one after the
    rotations and recolourings. *)
Theorem tree_insert_correct s t a x :
  vtree s t -> root_color t = VMA_BLACK ->
  areas s !! a = Some x -> links x = (NULL, NULL, NULL, VMA_RED) -> a <> NULL -> a ∉ inorder t ->
  vm_start x < vm_end x -> (forall u, u ∈ inorder t -> end_of (areas s) u <= vm_start x \/ vm_end x <= start_of (areas s) u) ->
  exists s' t' l1 l2, tree_insert a s = Ok (tt, s') /\ vtree s' t' /\ root_color t' = VMA_BLACK /\
    inorder t = l1 ++ l2 /\ inorder t' = l1 ++ a :: l2 /\ same_data (areas s) (areas s') /\
    forall n, rbt n t -> exists n', rbt n' t'.
Proof.
  intros Hv Hb Hx Hl Ha Hn Hs Hd. destruct (tree_insert_spec s t a x Hv Hb Hx Hl Ha Hn Hs Hd) as (s' & t' & l1 & l2 & R).
  exists s', t', l1, l2. tauto.
Qed.

(** ** Removal *)

(** [r] hung below the last node of [l]. *)
Fixpoint graft (l r : tree) : tree :=
  match l with
  | Leaf => r
  | Node k ll b lr => Node k ll b (graft lr r)
  end.

Lemma inorder_graft l r : inorder (graft l r) = inorder l ++ inorder r.
Proof. induction l as [|k ll _ b lr IH]; simpl; [done|]. by rewrite IH, <-app_assoc. Qed.

Lemma graft_leaf l : graft l Leaf = l.
Proof. induction l as [|k ll _ b lr IH]; simpl; [done|]. by rewrite IH. Qed.

Lemma top_graft l r : l <> Leaf -> top (graft l r) = top l.
Proof. by destruct l. Qed.

Fixpoint last_node (t : tree) : Z := match t with Leaf => NULL | Node _ _ a Leaf => a | Node _ _ _ r => last_node r end.

Lemma last_node_elem t : t <> Leaf -> last_node t ∈ inorder t.
Proof.
  induction t as [|k l _ a r IH]; [done|]. intros _. destruct r as [|k' r1 b r2]; simpl; [set_solver|].
  specialize (IH ltac:(done)). simpl in IH. set_solver.
Qed.

Lemma rightmost_run fuel s m par t :
  (length (inorder t) < fuel)%nat -> trep m par t -> t <> Leaf -> rightmost fuel (top t) (mkm s m) = Ok (last_node t, mkm s m).
Proof.
  revert fuel par. induction t as [|k l _ a r IH]; intros fuel par Hf Ht Hne; [done|]. simpl in Hf, Ht. rewrite length_app in Hf. simpl in Hf.
  destruct Ht as (Ha & Hl & H1 & H2). destruct fuel as [|fuel]; [lia|]. cbn [rightmost top].
  destruct (lk_Some GoLeft _ _ _ _ _ _ Hl) as (x & Ex & _ & Xr & _). simpl in Xr. rewrite (get_area_bind s m a x) by done. rewrite Xr.
  destruct r as [|k' r1 b r2]; [done|]. assert (b <> NULL) as Hb by (simpl in H2; tauto). simpl top. rewrite (proj2 (Z.eqb_neq _ _)) by done.
  apply (IH fuel a); [lia|done|done].
Qed.

(** The links after the two writes that hang [r] below the last node of [l]. *)
Lemma graft_rep m par l r :
  trep m par l -> (exists p, trep m p r) -> l <> Leaf -> r <> Leaf -> NoDup (inorder l ++ inorder r) ->
  trep (alter (set_parent (last_node l)) (top r) (alter (set_child GoRight (top r)) (last_node l) m)) par (graft l r).
Proof.
  intros Hl Hr Hne Hnr Hnd. set (rm := last_node l). assert (top r ∈ inorder r) as Htr by (destruct r; [done|simpl; set_solver]).
  assert (rm ∈ inorder l) as Hrm by (by apply last_node_elem). set (m' := alter _ _ _).
  assert (rm <> top r) as Hne' by (intros E; apply NoDup_app in Hnd as (_ & Hd & _); apply (Hd rm); [done|by rewrite E]).
  assert (forall u, u <> rm -> u <> top r -> lk m' u = lk m u) as Hout
    by (intros u U1 U2; unfold m'; by rewrite lk_parent, decide_False, lk_child, decide_False).
  assert (lk m' rm = with_child GoRight (top r) <$> lk m rm) as Hlrm
    by (unfold m'; by rewrite lk_parent, decide_False, lk_child, decide_True).
  assert (lk m' (top r) = with_parent rm <$> lk m (top r)) as Hltr
    by (unfold m'; rewrite lk_parent, decide_True, lk_child, decide_False by done; done).
  assert (trep m' rm r) as Hr'.
  { destruct Hr as (p & Hr). apply (trep_reparent m m' p); [done|by apply NoDup_app in Hnd as (_ & _ & ?)| |done].
    intros u Hu Hut. apply Hout; [|done]. intros ->. apply NoDup_app in Hnd as (_ & Hd & _). by apply (Hd rm). }
  assert (forall u, u ∈ inorder l -> u <> top r) as Hlr by (intros u Hu ->; apply NoDup_app in Hnd as (_ & Hd & _); by apply (Hd (top r))).
  clearbody m'. clear Htr Hltr Hr. apply NoDup_app in Hnd as (Hnd & _ & _). subst rm. revert par Hl Hne Hrm Hnd.
  induction l as [|k ll _ b lr IH]; intros par Hl Hne Hrm Hnd; [done|]. simpl in Hl, Hnd, Hlr. destruct Hl as (Hb & Hlb & H1 & H2).
  apply NoDup_app in Hnd as (Nl & Nlb & Nr). apply NoDup_cons in Nr as [Nb Nr].
  destruct lr as [|k' r1 c r2].
  - simpl in Hne', Hout, Hlrm, Hr' |- *. split_and!; [done|by rewrite Hlrm, Hlb| |done].
    apply (trep_frame m); [|done]. intros u Hu. apply Hout; [|apply Hlr; set_solver]. intros ->. apply (Nlb b Hu). by left.
  - set (lr := Node k' r1 c r2) in *. change (last_node (Node k ll b lr)) with (last_node lr) in *.
    assert (last_node lr ∈ inorder lr) as Hrm' by (by apply last_node_elem).
    change (graft (Node k ll b lr) r) with (Node k ll b (graft lr r)). assert (lr <> Leaf) as Hlr0 by discriminate. cbn [trep].
    rewrite top_graft by exact Hlr0. split; [done|]. split; [|split].
    + rewrite Hout; [done|by intros ->|apply Hlr; set_solver].
    + apply (trep_frame m); [|done]. intros u Hu. apply Hout; [|apply Hlr; set_solver]. intros ->. apply (Nlb _ Hu). by right.
    + apply IH; try done. intros u Hu. apply Hlr. set_solver.
Qed.

(** The first half of the removal: the subtrees of the node are joined. *)
Lemma join_run s m l a r x :
  trep m a l -> trep m a r -> NoDup (inorder l ++ inorder r) -> left x = top l -> right x = top r ->
  exists m', (if negb (left x =? NULL) then
      when (negb (right x =? NULL))
        (n <- area_fuel ;; rm <- rightmost n (left x) ;; upd_area rm (set_right (right x)) ;;; upd_area (right x) (set_parent rm)) ;;;
      ret (left x)
    else ret (right x)) (mkm s m) = Ok (top (graft l r), mkm s m') /\ same_data m m' /\
    trep m' a (graft l r) /\ forall u, u ∉ inorder (graft l r) -> lk m' u = lk m u.
Proof.
  intros Hl Hr Hnd -> ->. destruct l as [|kl ll b lr]; [by exists m|].
  assert (b <> NULL) as Hb by (simpl in Hl; tauto). set (l := Node kl ll b lr) in *. change (top l) with b. rewrite (proj2 (Z.eqb_neq _ _)) by done. cbn [negb].
  destruct r as [|kr rl c rr]; [exists m; by rewrite graft_leaf|].
  assert (c <> NULL) as Hc by (simpl in Hr; tauto). set (r := Node kr rl c rr) in *. change (top r) with c. rewrite (proj2 (Z.eqb_neq _ _)) by done. cbn [negb when].
  assert (last_node l ∈ inorder l) as Hrm by (by apply last_node_elem). assert (c ∈ inorder r) as Hcr by (unfold r; simpl; set_solver).
  destruct (trep_elem m a l _ Hl Hrm) as [_ Hs1]. destruct (trep_elem m a r _ Hr Hcr) as [_ Hs2].
  exists (alter (set_parent (last_node l)) c (alter (set_child GoRight c) (last_node l) m)). split; [|split; [|split]].
  - erewrite bind_ok; [rewrite top_graft by discriminate; reflexivity|]. unfold bind at 1, area_fuel, gets at 1. cbv beta iota.
    erewrite bind_ok; [|apply (rightmost_run _ s m a l); [|done|done]].
    2:{ change (areas (mkm s m)) with m. apply Nat.lt_lt_succ_r, fuel_enough; [by apply NoDup_app in Hnd as (? & _ & _)|]. intros u Hu. by apply (trep_elem m a l). }
    rewrite upd_area_bind by done. apply upd_area_eq. apply (same_data_Some m); [apply (sd_child m _ GoRight)|done].
  - etrans; [apply sd_child|apply sd_parent].
  - apply (graft_rep m a l r); try done. by exists a.
  - intros u Hu. rewrite inorder_graft in Hu. rewrite lk_parent, decide_False, lk_child, decide_False by set_solver. done.
Qed.

Lemma tree_remove_run s m c k l a r :
  crep m c a (tree_root s) -> trep m (par_of c) (Node k l a r) -> NoDup (path_elems c ++ inorder (Node k l a r)) ->
  exists m' root', tree_remove a (mkm s m) = Ok (tt, mkm (set_root root' s) m') /\ same_data m m' /\
    crep m' c (top (graft l r)) root' /\ trep m' (par_of c) (graft l r).
Proof.
  intros Hc Ht Hnd. simpl in Ht, Hnd. destruct Ht as (Ha & Hla & Hl & Hr).
  destruct (lk_Some GoLeft _ _ _ _ _ _ Hla) as (x & Ex & Xl & Xr & Xp & _). simpl in Xl, Xr.
  assert (Hnd' := Hnd). apply NoDup_app in Hnd' as (Nc & Nd & Nt).
  assert (NoDup (inorder (graft l r)) /\ a ∉ inorder (graft l r) /\ forall u, u ∈ path_elems c -> u ∉ inorder (graft l r) /\ u <> a) as (Ng & Nga & Ngc).
  { rewrite inorder_graft. assert (NoDup (a :: inorder l ++ inorder r)) as [? ?]%NoDup_cons by (revert Nt; apply nodup_perm; solve_Permutation).
    split_and!; [done|done|]. intros u Hu. specialize (Nd u Hu). set_solver. }
  assert (NoDup (inorder l ++ inorder r)) as Nlr by (by rewrite <-inorder_graft).
  destruct (join_run s m l a r x Hl Hr Nlr Xl Xr) as (m1 & E1 & HD1 & Ht1 & Ho1). set (g := graft l r) in *.
  destruct (redirect_run GoLeft s m1 c a (top g)) as (m2 & (HD2 & Ho2 & Hp2) & E2).
  { destruct c as [|f c]; [done|]. pose proof Hc as (Hf0 & Hf & Hsib & _). split_and!; [done| |].
    - rewrite Ho1; [done|]. apply Ngc. simpl. set_solver.
    - intros E. pose proof (top_elem (f_sib f)) as Hin. rewrite <-E in Hin. specialize (Hin Ha). apply (Ngc a); [simpl; set_solver|done]. }
  set (m3 := if decide (top g = NULL) then m2 else alter (set_parent (par_of c)) (top g) m2).
  assert (same_data m m3) as HD3.
  { etrans; [exact HD1|]. etrans; [exact HD2|]. unfold m3. case_decide; [done|apply sd_parent]. }
  assert (forall u, u <> top g -> lk m3 u = lk m2 u) as Ho3 by (intros u Hu; unfold m3; case_decide; [done|by rewrite lk_parent, decide_False]).
  assert (forall u, u ∈ inorder g -> u <> par_of c) as Hgp.
  { intros u Hu ->. destruct (trep_elem _ _ _ _ Ht1 Hu) as [Hn0 _]. destruct (Ngc (par_of c)) as [Hx _]; [by apply par_of_elem|by apply Hx]. }
  exists m3, (new_root c (top g) (tree_root s)). split; [|split; [done|split]].
  - unfold tree_remove. rewrite (get_area_bind s m a x) by done. rewrite Xp. rewrite (bind_ok _ _ _ _ _ E1).
    assert ((if par_of c =? NULL then modify (set_root (top g)) else np <- get_area (par_of c) ;;
      if left np =? a then upd_area (par_of c) (set_left (top g)) else upd_area (par_of c) (set_right (top g))) (mkm s m1) =
      redirect GoLeft (par_of c) a (top g) (mkm s m1)) as Er.
    { unfold redirect. destruct (par_of c =? NULL); [reflexivity|]. unfold bind. destruct (get_area _ _) as [[np ?]| | |]; [|done..]. by rewrite Z.eqb_sym. }
    rewrite E2 in Er. rewrite (bind_ok _ _ _ _ _ Er). apply when_upd_area. intros Hg0.
    apply (same_data_Some m1 m2 (top g) HD2). apply (trep_elem m1 a g); [done|by apply top_elem].
  - apply (crep_hole m m3 c a); [done|done| |].
    + intros u Hu Hup. destruct (Ngc u Hu) as [Hu1 _]. rewrite Ho3, Ho2, Ho1; [done|done|done|].
      intros ->. destruct (decide (top g = NULL)) as [E|E]; [|by apply Hu1, top_elem].
      by apply (crep_elem _ _ _ _ _ Hc Hu).
    + intros f c' ->. rewrite Ho3; [by apply Hp2|]. intros E. assert (f_addr f <> NULL) as Hf0 by (simpl in Hc; tauto).
      destruct (Ngc (f_addr f)) as [Hx _]; [simpl; set_solver|]. apply Hx. rewrite E in Hf0 |- *. by apply top_elem.
  - apply (trep_reparent m1 m3 a); [done|done| |].
    + intros u Hu Hut. rewrite Ho3, Ho2; [done|by apply Hgp|done].
    + intros Hg0. unfold m3. rewrite decide_False, lk_parent, decide_True, Ho2 by (try done; apply Hgp; by apply top_elem). done.
Qed.

(** Every node of a tree sits at the end of a path. *)
Lemma split_at t a : a ∈ inorder t -> exists c k l r, t = plug c (Node k l a r).
Proof.
  intros Ha. assert (forall c, exists c' k l r, plug c t = plug c' (Node k l a r)) as H; [|exact (H [])].
  induction t as [|k l IHl b r IHr]; [by apply elem_of_nil in Ha|]. intros c. simpl in Ha.
  apply elem_of_app in Ha as [Ha|[->|Ha]%elem_of_cons].
  - destruct (IHl Ha (mkFrame GoLeft k b r :: c)) as (c' & k' & l' & r' & E). exists c', k', l', r'. by rewrite <-E.
  - by exists c, k, l, r.
  - destruct (IHr Ha (mkFrame GoRight k b l :: c)) as (c' & k' & l' & r' & E). exists c', k', l', r'. by rewrite <-E.
Qed.

Lemma tree_remove_spec s t a :
  vtree s t -> a ∈ inorder t ->
  exists s' t' l1 l2, tree_remove a s = Ok (tt, s') /\ vtree s' t' /\ inorder t = l1 ++ a :: l2 /\ inorder t' = l1 ++ l2 /\
    same_data (areas s) (areas s') /\ list_head s' = list_head s /\ vma_count s' = vma_count s /\ t_cr3 s' = t_cr3 s.
Proof.
  intros [Ht Hr Hnd Hs Hz] Ha. destruct (split_at t a Ha) as (c & k & l & r & ->).
  destruct (proj1 (rep_plug (areas s) c (Node k l a r) (tree_root s)) (conj Ht Hr)) as [Hc Hsub].
  destruct (tree_remove_run s (areas s) c k l a r Hc Hsub) as (m' & root' & E & HD & Hc' & Ht').
  { revert Hnd. apply nodup_perm, elems_plug. }
  destruct (proj2 (rep_plug m' c (graft l r) root') (conj Hc' Ht')) as [Hw Hroot]. rewrite mkm_id in E.
  exists (mkm (set_root root' s) m'), (plug c (graft l r)), (before c ++ inorder l), (inorder r ++ after c).
  assert (inorder (plug c (Node k l a r)) = (before c ++ inorder l) ++ a :: inorder r ++ after c) as E1
    by (rewrite inorder_plug; simpl; by rewrite <-!app_assoc).
  assert (inorder (plug c (graft l r)) = (before c ++ inorder l) ++ inorder r ++ after c) as E2
    by (rewrite inorder_plug, inorder_graft; by rewrite <-!app_assoc).
  split; [done|]. split; [|by split_and!]. rewrite E1 in Hnd, Hs, Hz. split; [done|done| | |]; rewrite E2.
  - apply NoDup_app in Hnd as (H1 & H2 & [_ H3]%NoDup_cons). apply NoDup_app. split_and!; try done. intros u Hu Hv. apply (H2 u Hu). by right.
  - apply (sorted_data (areas s)); [done|]. apply StronglySorted_app in Hs as (H1 & H2 & [_ H3]%StronglySorted_cons). apply StronglySorted_app.
    split_and!; try done. intros u v Hu Hv. apply H1; [done|by right].
  - intros u Hu. change (areas _) with m'. rewrite (same_data_start (areas s) m'), (same_data_end (areas s) m') by done. apply Hz.
    apply elem_of_app in Hu as [Hu|Hu]; apply elem_of_app; [by left|right; by right].
Qed.

(** The removal from the tree terminates and takes exactly the node out of
    the order of the areas; no other area is lost or changed. *)
Theorem tree_remove_correct s t a :
  vtree s t -> a ∈ inorder t ->
  exists s' t' l1 l2, tree_remove a s = Ok (tt, s') /\ vtree s' t' /\ inorder t = l1 ++ a :: l2 /\ inorder t' = l1 ++ l2 /\
    same_data (areas s) (areas s').
Proof.
  intros Hv Ha. destruct (tree_remove_spec s t a Hv Ha) as (s' & t' & l1 & l2 & R). exists s', t', l1, l2. tauto.
Qed.

(** a tree whose root a removal has left red breaks the next insertion: when
    the root is red and has no child, the fixup of a new node dereferences the
    parent of the root, which is NULL. *)
Theorem red_root_insert_faults s r a x :
  vtree s (Node VMA_RED Leaf r Leaf) -> areas s !! NULL = None ->
  areas s !! a = Some x -> links x = (NULL, NULL, NULL, VMA_RED) -> a <> NULL -> a <> r ->
  tree_insert a s = Fault.
Proof.
  intros [Ht Hr _ _ _] Hnull Hx Hlx Ha Har. set (t := Node VMA_RED Leaf r Leaf) in *. set (m := areas s) in *.
  assert (r <> NULL) as Hr0 by (simpl in Ht; tauto).
  assert (size m <> 0%nat) as Hsz. { intros E%map_size_empty_iff. rewrite E in Hx. by rewrite lookup_empty in Hx. }
  destruct (hang_node_spec (S (S (size m))) s m [] t a x) as (m1 & E1 & HD1 & Hc1 & Ht1); try done.
  { simpl. lia. } { simpl. apply NoDup_singleton. } { simpl. by rewrite list_elem_of_singleton. } { unfold lk. rewrite Hx. simpl. by rewrite Hlx. }
  set (c := descend m (vm_start x) t []) in *. assert (exists d, c = [mkFrame d VMA_RED r Leaf]) as [d Ec].
  { unfold c, t. simpl. case_match; [by exists GoLeft|by exists GoRight]. }
  rewrite Ec in Hc1, Ht1. simpl in Hc1, Ht1. destruct Hc1 as (_ & Hlr & _ & _). destruct Ht1 as (_ & Hla & _).
  unfold tree_insert. unfold bind at 1, gets at 1. cbv beta iota. rewrite Hr. change (top t) with r. rewrite (proj2 (Z.eqb_neq _ _)) by done.
  unfold m in E1. rewrite mkm_id in E1. rewrite (bind_ok _ _ s tt (mkm s m1)) by exact E1.
  unfold vma_insert_fixup, area_fuel. unfold bind at 1, gets at 1. cbv beta iota. unfold bind at 1. cbn [fixup_loop].
  rewrite (parent_of_bind s m1 GoLeft a _ _ r VMA_RED _ Hla). destruct (lk_Some _ _ _ _ _ _ _ Hlr) as (y & Ey & _ & _ & _ & Yc). simpl in Ey.
  unfold is_red at 1. rewrite (proj2 (Z.eqb_neq _ _)) by done. rewrite bind_bind, (get_area_bind s m1 r y) by done. rewrite Yc.
  unfold bind at 1, ret at 1. cbn [f_color]. rewrite bool_decide_true by done. unfold fixup_turn.
  rewrite bind_bind. rewrite (parent_of_bind s m1 GoLeft a _ _ r VMA_RED _ Hla). rewrite bind_bind. rewrite (parent_of_bind s m1 _ r _ _ _ _ _ Hlr).
  simpl par_of. unfold get_area, bind, gets, deref. cbv beta iota. change (areas (mkm s m1)) with m1.
  assert (m1 !! NULL = None) as ->; [|done]. destruct (m1 !! NULL) eqn:E; [|done].
  assert (is_Some (m !! NULL)) as [? ?] by (apply (same_data_Some m m1 NULL HD1); by rewrite E). congruence.
Qed.
