(* ===== verification/VmaOps.v ===== *)
(** * Address spaces: vma_map and vma_unmap

    The tree and the list of the areas together, and what the two operations on
    an address space do to the set of accessible addresses. The calls of the
    mutex, the heap, the frame allocator and the page tables are the programs
    [expand_env], [new_env] and [unmap_env], in the order the code makes them. *)

From stdpp Require Import sorting.
From S2P Require Import Prelude Dll Vma VmaTree VmaFix VmaSpec.

(** ** Well-formed address spaces *)

Definition nlk (m : gmap Z vma_area) (a : Z) : option (Z * Z) := (fun x => (a_next x, a_prev x)) <$> m !! a.

(** The areas are in the tree [t], in order and disjoint, and in the list [l];
    the count is their number. *)
Record space (s : mm) (t : tree) (l : list Z) : Prop := {
  sp_tree : vtree s t;
  sp_list : dll (nlk (areas s)) (list_head s) l;
  sp_same : l ≡ₚ inorder t;
  sp_count : vma_count s = w64 (Z.of_nat (length l));
}.

(** The address [x] is accessible with the flags [f]. *)
Definition access (s : mm) (l : list Z) (x f : Z) : Prop :=
  exists a y, a ∈ l /\ areas s !! a = Some y /\ vm_start y <= x < vm_end y /\ vm_flags y = f.

(** No area of [l] meets the range from [lo] to [hi]. *)
Definition unused (s : mm) (l : list Z) (lo hi : Z) : Prop :=
  forall u, u ∈ l -> end_of (areas s) u <= lo \/ hi <= start_of (areas s) u.

(** What the order of the areas depends on, and what access depends on. *)
Definition place_of (x : vma_area) : tlinks * (Z * Z) := (links x, (vm_start x, vm_end x)).
Definition geo (x : vma_area) : Z * Z * Z := (vm_start x, vm_end x, vm_flags x).

(** A view that another view determines is unchanged with it. *)
Lemma view_of {A B} (v : vma_area -> A) (w : vma_area -> B) (f : A -> B) (x y : option vma_area) :
  (forall a, w a = f (v a)) -> v <$> x = v <$> y -> w <$> x = w <$> y.
Proof. intros Hf H. destruct x, y; simplify_eq/=; rewrite ?Hf; congruence. Qed.

Lemma vtree_ext s s' t : (forall u, u ∈ inorder t -> place_of <$> areas s' !! u = place_of <$> areas s !! u) ->
  tree_root s' = tree_root s -> vtree s t -> vtree s' t.
Proof.
  intros Hp Hr [H1 H2 H3 H4 H5].
  assert (forall u, u ∈ inorder t -> lk (areas s') u = lk (areas s) u) as Hl.
  { intros u Hu. specialize (Hp u Hu). apply (f_equal (fmap fst)) in Hp. by rewrite <-!option_fmap_compose in Hp. }
  assert (forall u, u ∈ inorder t -> start_of (areas s') u = start_of (areas s) u /\ end_of (areas s') u = end_of (areas s) u) as Hse.
  { intros u Hu. specialize (Hp u Hu). apply (view_of place_of (fun x => (vm_start x, vm_end x)) snd) in Hp; [|done].
    unfold start_of, end_of. destruct (areas s' !! u), (areas s !! u); try done. injection Hp as E1 E2. by simpl; rewrite E1, E2. }
  split; [by apply (trep_frame (areas s))|congruence|done| |].
  - clear H1 H2 H3 H5 Hl Hp. induction H4 as [|a l Hs IH Hf]; constructor; [apply IH; intros u Hu; apply Hse; by right|].
    rewrite Forall_forall in Hf |- *. intros v Hv. unfold below. destruct (Hse a ltac:(by left)) as [_ ->], (Hse v ltac:(by right)) as [-> _].
    by apply Hf.
  - intros a Ha. destruct (Hse a Ha) as [-> ->]. by apply H5.
Qed.

Lemma access_ext s s' l l' : l' ≡ₚ l -> (forall u, u ∈ l -> geo <$> areas s' !! u = geo <$> areas s !! u) ->
  forall x f, access s' l' x f <-> access s l x f.
Proof.
  intros Hp Hg x f. unfold access. split; intros (a & y & Ha & Hy & Hx & Hf).
  - rewrite Hp in Ha. specialize (Hg a Ha). rewrite Hy in Hg. destruct (areas s !! a) as [y'|] eqn:E; [|done].
    injection Hg as E1 E2 E3. exists a, y'. by rewrite <-E1, <-E2, <-E3.
  - specialize (Hg a Ha). rewrite Hy in Hg. destruct (areas s' !! a) as [y'|] eqn:E; [|done].
    injection Hg as E1 E2 E3. exists a, y'. by rewrite Hp, E1, E2, E3.
Qed.

Lemma access_cons s a l x f y : areas s !! a = Some y ->
  access s (a :: l) x f <-> vm_start y <= x < vm_end y /\ vm_flags y = f \/ access s l x f.
Proof.
  intros Hy. unfold access. split.
  - intros (b & z & [->|Hb]%elem_of_cons & Hz & Hx & Hf); [left; by simplify_eq|right; by exists b, z].
  - intros [[Hx Hf]|(b & z & Hb & Hz)]; [exists a, y|exists b, z]; split; [by left|done|by right|done].
Qed.

(** ** The list of the areas *)

Lemma get_area_at {A} s a x (k : vma_area -> M mm A) : areas s !! a = Some x -> (y <- get_area a ;; k y) s = k x s.
Proof. intros E. unfold get_area, bind, gets, deref. by rewrite E. Qed.
Lemma get_area_run s a x : areas s !! a = Some x -> get_area a s = Ok (x, s).
Proof. intros E. unfold get_area, bind, gets, deref. by rewrite E. Qed.
Lemma upd_area_at {A} s a f (k : unit -> M mm A) : is_Some (areas s !! a) -> bind (upd_area a f) k s = k tt (mkm s (alter f a (areas s))).
Proof. intros Hs. pose proof (upd_area_bind s (areas s) a f k Hs) as E. by rewrite mkm_id in E. Qed.

Lemma list_search_spec fuel s test p h l : dseg (nlk (areas s)) p h l NULL -> (length l < fuel)%nat ->
  exists r, list_search fuel test h s = Ok (r, s) /\
    ((r = NULL /\ forall a y, a ∈ l -> areas s !! a = Some y -> test y = false) \/
     (r ∈ l /\ r <> NULL /\ exists y, areas s !! r = Some y /\ test y = true)).
Proof.
  revert fuel p h. induction l as [|a l IH]; intros fuel p h Hd Hf; (destruct fuel as [|fuel]; [simpl in Hf; lia|]); cbn [list_search].
  { simpl in Hd. subst h. exists NULL. split; [done|]. left. split; [done|]. by intros a y ?%not_elem_of_nil. }
  destruct Hd as (-> & Ha & n & Hn & Hd). rewrite (proj2 (Z.eqb_neq _ _)) by done. unfold nlk in Hn.
  destruct (areas s !! a) as [y|] eqn:Ey; [|done]. injection Hn as Hn _.
  rewrite (get_area_at s a y) by done. destruct (test y) eqn:Et.
  { exists a. split; [done|]. right. split_and!; [by left|done|by exists y]. }
  rewrite Hn. destruct (IH fuel a n Hd ltac:(simpl in Hf; lia)) as (r & E & [(-> & H)|(H1 & H2 & H3)]); [exists NULL|exists r].
  - split; [done|]. left. split; [done|]. intros b z [->|Hb]%elem_of_cons Hz; [by simplify_eq|by apply (H b z)].
  - split; [done|]. right. split_and!; [by right|done|done].
Qed.

Lemma space_fuel s l : dll (nlk (areas s)) (list_head s) l -> (length l < S (S (size (areas s))))%nat.
Proof.
  intros [Hd Hnd]. apply Nat.lt_lt_succ_r, fuel_enough; [done|]. intros u Hu. destruct (dseg_elem _ _ _ _ _ _ Hd Hu) as [_ [n Hn]].
  unfold nlk in Hn. by destruct (areas s !! u).
Qed.

Lemma nlk_alter f m a u g : (forall x, (a_next (f x), a_prev (f x)) = g (a_next x, a_prev x)) ->
  nlk (alter f a m) u = if decide (u = a) then g <$> nlk m u else nlk m u.
Proof.
  intros Hf. unfold nlk. case_decide; subst; [rewrite lookup_alter_eq|by rewrite lookup_alter_ne]. destruct (m !! a); simpl; [by rewrite Hf|done].
Qed.

(** The list code changes only the links of the list. *)
Definition off_list (x : vma_area) : tlinks * (Z * Z * Z) := (links x, geo x).
Definition same_off (m m' : gmap Z vma_area) : Prop := forall u, off_list <$> m' !! u = off_list <$> m !! u.

Lemma same_off_alter f a m : (forall x, off_list (f x) = off_list x) -> same_off m (alter f a m).
Proof.
  intros Hf u. destruct (decide (u = a)) as [->|]; [rewrite lookup_alter_eq|by rewrite lookup_alter_ne].
  destruct (m !! a); simpl; [by rewrite Hf|done].
Qed.
Lemma same_off_trans m1 m2 m3 : same_off m1 m2 -> same_off m2 m3 -> same_off m1 m3.
Proof. intros H1 H2 u. by rewrite H2, H1. Qed.
Lemma same_off_place m m' u : same_off m m' -> place_of <$> m' !! u = place_of <$> m !! u.
Proof. intros H. by apply (view_of off_list place_of (fun q => (q.1, (q.2.1.1, q.2.1.2)))). Qed.
Lemma same_off_geo m m' u : same_off m m' -> geo <$> m' !! u = geo <$> m !! u.
Proof. intros H. by apply (view_of off_list geo snd). Qed.
Lemma same_data_geo m m' u : same_data m m' -> geo <$> m' !! u = geo <$> m !! u.
Proof. intros H. by apply (view_of data geo (fun q => q.1.1)). Qed.
Lemma same_data_nlk m m' u : same_data m m' -> nlk m' u = nlk m u.
Proof. intros H. by apply (view_of data _ (fun q => (q.1.2, q.2))). Qed.

Lemma list_push_spec s l a x : dll (nlk (areas s)) (list_head s) l -> a ∉ l -> a <> NULL -> areas s !! a = Some x -> a_prev x = NULL ->
  exists m', list_push a s = Ok (tt, set_list_head a (mkm s m')) /\ same_off (areas s) m' /\ dll (nlk m') a (a :: l).
Proof.
  intros Hd Ha Ha0 Hx Hp. set (h := list_head s) in *. pose proof (dll_head _ _ _ Hd) as Hh.
  set (m1 := alter (set_next h) a (areas s)). set (m2 := if decide (h = NULL) then m1 else alter (set_prev a) h m1).
  assert (h <> NULL -> h ∈ l) as Hin by (destruct l; simpl in Hh; [done|intros _; rewrite Hh; by left]).
  assert (forall u, u ∈ l -> is_Some (areas s !! u)) as Hsome.
  { intros u Hu. destruct (dll_elem _ _ _ _ Hd Hu) as [_ [n Hn]]. unfold nlk in Hn. by destruct (areas s !! u). }
  exists m2. split; [|split].
  - unfold list_push. unfold bind at 1, gets at 1. cbv beta iota. fold h. rewrite upd_area_at by (by eexists).
    fold m1. rewrite (bind_ok _ _ _ _ _ (when_upd_area s m1 h (set_prev a) ltac:(intros ?; unfold m1; apply lookup_alter_is_Some; by apply Hsome, Hin))).
    done.
  - unfold m2. assert (same_off (areas s) m1) as H1 by (by apply same_off_alter). case_decide; [done|]. eapply same_off_trans; [done|].
    by apply same_off_alter.
  - assert (forall u, nlk m2 u = if decide (u = a) then Some (h, NULL) else relink (nlk (areas s)) None 0 (head l) a u) as Hn.
    { intros u. assert (nlk m1 u = if decide (u = a) then Some (h, NULL) else nlk (areas s) u) as H1.
      { unfold m1. rewrite (nlk_alter _ _ _ _ (fun p => (h, p.2))) by done. case_decide; [|done]. subst u. unfold nlk. rewrite Hx. simpl. by rewrite Hp. }
      unfold m2. destruct (decide (h = NULL)) as [E0|E0].
      - rewrite H1. case_decide; [done|]. assert (head l = None) as ->; [|by rewrite relink_id]. destruct l; [done|]. simpl in Hh.
        destruct (dll_elem _ _ _ z Hd ltac:(by left)). congruence.
      - rewrite (nlk_alter _ _ _ _ (fun p => (p.1, a))), H1 by done. assert (h <> a) as Hne by (intros E; apply Ha; rewrite <-E; by apply Hin).
        assert (head l = Some h) as Eh by (destruct l; simpl in Hh |- *; [done|by rewrite Hh]). rewrite Eh. unfold relink.
        destruct (decide (u = h)) as [->|Hu]; [rewrite !(decide_False (P := h = a)) by done|case_decide; [done|]].
        + destruct (nlk (areas s) h) as [[nx pv]|]; [|done]. simpl. by rewrite decide_True.
        + destruct (nlk (areas s) u) as [[nx pv]|]; [|done]. simpl. rewrite (decide_False (P := Some h = Some u)); [done|congruence]. }
    apply (dll_push (nlk (areas s)) _ h l a); [done|done|done|by rewrite Hn, decide_True|].
    intros u Hu. rewrite Hn, decide_False; [done|]. by intros ->.
Qed.

Lemma list_remove_spec s l1 a l2 : dll (nlk (areas s)) (list_head s) (l1 ++ a :: l2) ->
  exists m' h', list_remove a s = Ok (tt, set_list_head h' (mkm s m')) /\ same_off (areas s) m' /\
    forall m'', (forall u, u <> a -> nlk m'' u = nlk m' u) -> dll (nlk m'') h' (l1 ++ l2).
Proof.
  intros Hd. destruct (dll_links _ _ _ _ _ Hd) as [Ha0 Ha]. set (n := default NULL (head l2)) in *. set (p := default NULL (last l1)) in *.
  unfold nlk in Ha. destruct (areas s !! a) as [x|] eqn:Ex; [|done]. injection Ha as Hn Hp.
  assert (forall u, u ∈ l1 ++ a :: l2 -> u <> NULL /\ is_Some (areas s !! u)) as Hsome.
  { intros u Hu. destruct (dll_elem _ _ _ _ Hd Hu) as [H0 [q Hq]]. split; [done|]. unfold nlk in Hq. by destruct (areas s !! u). }
  assert (forall w, last l1 = Some w -> w ∈ l1 ++ a :: l2) as Hl1 by (intros w Hw%last_Some_elem_of; set_solver).
  assert (forall w, head l2 = Some w -> w ∈ l1 ++ a :: l2) as Hl2 by (intros w Hw%head_Some_elem_of; set_solver).
  set (m1 := if decide (p = NULL) then areas s else alter (set_next n) p (areas s)).
  set (m2 := if decide (n = NULL) then m1 else alter (set_prev p) n m1).
  set (h' := if decide (l1 = []) then n else list_head s).
  assert (p <> NULL -> is_Some (areas s !! p)) as Sp.
  { unfold p. destruct (last l1) as [w|] eqn:E; [|done]. intros _. by apply Hsome, Hl1. }
  assert (n <> NULL -> is_Some (m1 !! n)) as Sn.
  { intros H0. assert (is_Some (areas s !! n)) as S1 by (unfold n in *; destruct (head l2) as [w|]; [by apply Hsome, Hl2|done]).
    unfold m1. case_decide; [done|]. by apply lookup_alter_is_Some. }
  exists m2, h'. split; [|split].
  - unfold list_remove. rewrite (get_area_at s a x), Hn, Hp by done. rewrite <-(mkm_id s).
    rewrite (bind_ok _ _ _ _ _ (when_upd_area s (areas s) p (set_next n) Sp)). fold m1.
    rewrite (bind_ok _ _ _ _ _ (when_upd_area s m1 n (set_prev p) Sn)). fold m2. unfold bind, gets. cbn [list_head mkm set_areas].
    pose proof (dll_head _ _ _ Hd) as Hh. unfold h'. destruct l1 as [|b l1]; simpl in Hh.
    + by rewrite Hh, Z.eqb_refl, decide_True.
    + rewrite decide_False by done. rewrite (proj2 (Z.eqb_neq _ _)); [by destruct s|]. rewrite Hh. intros ->. destruct Hd as [_ Hnd].
      apply NoDup_cons in Hnd as [Hnd _]. apply Hnd. set_solver.
  - assert (same_off (areas s) m1) as H1 by (unfold m1; case_decide; [done|by apply same_off_alter]).
    unfold m2. case_decide; [done|]. eapply same_off_trans; [done|]. by apply same_off_alter.
  - intros m'' Hm''. apply (dll_remove (nlk (areas s)) _ _ _ a); [done|]. intros u Hu. rewrite Hm'' by done. fold n p.
    assert (forall w, last l1 = Some w -> w <> NULL) as N1 by (intros w Hw; by apply Hsome, Hl1).
    assert (forall w, head l2 = Some w -> w <> NULL) as N2 by (intros w Hw; by apply Hsome, Hl2).
    pose proof (default_Some (last l1) u N1) as D1. pose proof (default_Some (head l2) u N2) as D2. fold p in D1. fold n in D2.
    assert (nlk m1 u = if decide (last l1 = Some u) then (fun q => (n, q.2)) <$> nlk (areas s) u else nlk (areas s) u) as E1.
    { unfold m1. destruct (decide (p = NULL)) as [E|E]; [rewrite decide_False by tauto; done|].
      rewrite (nlk_alter _ _ _ _ (fun q => (n, q.2))) by done. destruct (decide (u = p)); [rewrite decide_True by tauto|rewrite decide_False by tauto]; done. }
    assert (nlk m2 u = if decide (head l2 = Some u) then (fun q => (q.1, p)) <$> nlk m1 u else nlk m1 u) as E2.
    { unfold m2. destruct (decide (n = NULL)) as [E|E]; [rewrite decide_False by tauto; done|].
      rewrite (nlk_alter _ _ _ _ (fun q => (q.1, p))) by done. destruct (decide (u = n)); [rewrite decide_True by tauto|rewrite decide_False by tauto]; done. }
    rewrite E2, E1. unfold relink. destruct (nlk (areas s) u) as [[nx pv]|]; repeat case_decide; done.
Qed.

(** ** Moving the end of an area *)

Lemma sorted_apart {R : Z -> Z -> Prop} (l : list Z) a b : StronglySorted R l -> a ∈ l -> b ∈ l -> a <> b -> R a b \/ R b a.
Proof.
  induction 1 as [|c l Hs IH Hf]; [by intros ?%not_elem_of_nil|]. rewrite Forall_forall in Hf.
  intros [->|Ha]%elem_of_cons [->|Hb]%elem_of_cons Hab; [done|left; by apply Hf|right; by apply Hf|by apply IH].
Qed.

Lemma space_apart s t l a b : space s t l -> a ∈ l -> b ∈ l -> a <> b -> below (areas s) a b \/ below (areas s) b a.
Proof. intros [[_ _ _ Hs _] _ Hp _] Ha Hb. rewrite Hp in Ha, Hb. by apply (sorted_apart (inorder t)). Qed.

Lemma space_sized s t l a y : space s t l -> a ∈ l -> areas s !! a = Some y -> vm_start y < vm_end y.
Proof. intros [[_ _ _ _ Hz] _ Hp _] Ha Hy. rewrite Hp in Ha. specialize (Hz a Ha). unfold start_of, end_of in Hz. by rewrite Hy in Hz. Qed.

Definition with_end (a v : Z) (s : mm) : mm := mkm s (alter (set_vm_end v) a (areas s)).

Lemma with_end_lookup a v s u : areas (with_end a v s) !! u = if decide (u = a) then set_vm_end v <$> areas s !! u else areas s !! u.
Proof. unfold with_end. cbn [areas mkm set_areas]. case_decide; subst; [by rewrite lookup_alter_eq|by rewrite lookup_alter_ne]. Qed.

Lemma with_end_run a v s : is_Some (areas s !! a) -> upd_area a (set_vm_end v) s = Ok (tt, with_end a v s).
Proof. intros Hs. pose proof (upd_area_eq s (areas s) a (set_vm_end v) Hs) as E. by rewrite mkm_id in E. Qed.

Lemma with_end_space s t l a y v : space s t l -> a ∈ l -> areas s !! a = Some y -> vm_start y < v ->
  (forall u, u ∈ l -> below (areas s) a u -> v <= start_of (areas s) u) -> space (with_end a v s) t l.
Proof.
  intros Hsp Ha Hy Hv Hu. destruct Hsp as [[H1 H2 H3 H4 H5] Hl Hp Hc].
  assert (forall u, lk (areas (with_end a v s)) u = lk (areas s) u) as Elk.
  { intros u. unfold lk. rewrite with_end_lookup. case_decide; [|done]. subst. by rewrite Hy. }
  assert (forall u, start_of (areas (with_end a v s)) u = start_of (areas s) u) as Es.
  { intros u. unfold start_of. rewrite with_end_lookup. case_decide; [|done]. subst. by rewrite Hy. }
  assert (forall u, end_of (areas (with_end a v s)) u = if decide (u = a) then v else end_of (areas s) u) as Ee.
  { intros u. unfold end_of. rewrite with_end_lookup. case_decide; [|done]. subst. by rewrite Hy. }
  split; [split; [by apply (trep_frame (areas s))|done|done| |]| |done|done].
  - assert (forall u, u ∈ inorder t -> u ∈ l) as Hin by (intros u; by rewrite Hp). clear H1 H2 H3 H5 Hp Hc Hl Ha.
    induction H4 as [|b m Hs IH Hf]; constructor; [apply IH; intros u Hm; apply Hin; by right|]. rewrite Forall_forall in Hf |- *.
    intros c Hm. unfold below. rewrite Ee, Es. destruct (decide (b = a)) as [->|]; [|by apply Hf]. apply Hu; [apply Hin; by right|by apply Hf].
  - intros u Hm. rewrite Es, Ee. case_decide; [|by apply H5]. subst u. unfold start_of. by rewrite Hy.
  - eapply dll_frame; [|exact Hl]. intros u _. unfold nlk. rewrite with_end_lookup. case_decide; [|done]. subst. by rewrite Hy.
Qed.

Lemma with_end_access s t l a y v : space s t l -> a ∈ l -> areas s !! a = Some y -> vm_start y < v ->
  forall x f, access (with_end a v s) l x f <->
    access s l x f /\ ~ (v <= x < vm_end y) \/ vm_end y <= x < v /\ f = vm_flags y.
Proof.
  intros Hsp Ha Hy Hv x f. pose proof (space_sized _ _ _ _ _ Hsp Ha Hy) as Hz. unfold access. setoid_rewrite with_end_lookup. split.
  - intros (b & z & Hb & Hbz & Hx & <-). destruct (decide (b = a)) as [->|Hne].
    + rewrite Hy in Hbz. injection Hbz as <-. cbn [vm_start vm_end vm_flags set_vm_end] in *.
      destruct (decide (x < vm_end y)); [left|right; split; [lia|done]]. split; [|lia]. exists a, y. split_and!; [done|done|lia|lia|done].
    + left. split; [by exists b, z|]. destruct (space_apart _ _ _ _ _ Hsp Hb Ha Hne) as [Hb'|Hb']; unfold below, start_of, end_of in Hb';
        rewrite Hbz, Hy in Hb'; simpl in Hb'; lia.
  - intros [((b & z & Hb & Hbz & Hx & <-) & Hn)|[Hx ->]].
    + exists b. destruct (decide (b = a)) as [->|Hne]; [|by exists z]. rewrite Hbz. rewrite Hy in Hbz. injection Hbz as <-.
      eexists. split_and!; [done|done|cbn; lia..|done].
    + exists a. rewrite decide_True, Hy by done. eexists. split_and!; [done|done|cbn; lia..|done].
Qed.

(** ** The calls of the environment *)

Section ops.
Context {E : Type} `{VmaEnv E}.

Definition back_env (c3 addr phys n flags : Z) : M E unit :=
  pml4 <- env_get_table c3 ;; env_map_range pml4 addr phys n (vmm_opts flags) ;;; env_zero (phys_to_virt phys) n.

(** A merge: the result of [vma_map] *)
Definition expand_env (c3 addr n flags : Z) : M E Z :=
  env_lock ;;;
  phys <- env_alloc_frames (n / 4096) ;;
  if phys =? NULL then env_unlock ;;; ret (-1) else back_env c3 addr phys n flags ;;; env_unlock ;;; ret 0.

(** A new area: the result of [vma_map] and the descriptor *)
Definition new_env (c3 addr n flags : Z) : M E (Z * Z) :=
  env_lock ;;;
  a <- env_kmalloc sizeof_vma_area ;;
  if a =? NULL then env_unlock ;;; ret (-3, a) else
  phys <- env_alloc_frames (n / 4096) ;;
  if phys =? NULL then env_kfree a ;;; env_unlock ;;; ret (-4, a) else
  back_env c3 addr phys n flags ;;; env_unlock ;;; ret (0, a).

Definition release_env (pml4 vaddr : Z) : M E unit :=
  phys <- env_translate pml4 vaddr ;; when (negb (phys =? 0)) (env_unmap pml4 vaddr ;;; env_free_frame phys).

(** An unmapping, which gives back the descriptor [gone] *)
Definition unmap_env (c3 addr stop : Z) (gone : option Z) : M E unit :=
  env_lock ;;;
  pml4 <- env_get_table c3 ;;
  for_u64 addr stop PAGE_SIZE (release_env pml4) ;;;
  match gone with Some a => env_kfree a | None => ret tt end ;;;
  env_sync_tlb ;;;
  env_unlock.

(** ** Running *)

Section steps.
Context {A B : Type} (e : E) (s : mm).

Lemma env_step (m : M E B) b e' (k : B -> M (E * mm) A) : m e = Ok (b, e') -> (y <- on_env m ;; k y) (e, s) = k b (e', s).
Proof. intros E1. unfold bind, on_env. cbn [fst snd]. by rewrite E1. Qed.
Lemma mm_step (m : M mm B) b s' (k : B -> M (E * mm) A) : m s = Ok (b, s') -> (y <- on_mm m ;; k y) (e, s) = k b (e, s').
Proof. intros E1. unfold bind, on_mm. cbn [fst snd]. by rewrite E1. Qed.
End steps.

Lemma env_last (m : M E unit) e e' (r : Z) (s : mm) : m e = Ok (tt, e') -> (on_env m ;;; ret r) (e, s) = Ok (r, (e', s)).
Proof. intros E1. by rewrite (env_step _ _ _ _ _ _ E1). Qed.

Lemma back_range_run e e' s addr phys n flags : back_env (t_cr3 s) addr phys n flags e = Ok (tt, e') ->
  back_range addr phys n flags (e, s) = Ok (tt, (e', s)).
Proof.
  intros (pml4 & e1 & E1 & (? & e2 & E2 & E3)%bind_inv)%bind_inv. destruct x. unfold back_range. rewrite (mm_step _ _ _ (t_cr3 s) s) by done.
  rewrite (env_step _ _ _ _ _ _ E1), (env_step _ _ _ _ _ _ E2). unfold on_env. cbn [fst snd]. by rewrite E3.
Qed.

(** The first area of the list that [vma_map] tests for, if any. *)
Definition found (s : mm) (l : list Z) (test : vma_area -> bool) (r : Z) : Prop :=
  (r = NULL /\ forall a y, a ∈ l -> areas s !! a = Some y -> test y = false) \/
  (r ∈ l /\ r <> NULL /\ exists y, areas s !! r = Some y /\ test y = true).

(** [vma_map] up to its three ways on. *)
Lemma map_prefix s l e e0 addr len flags :
  dll (nlk (areas s)) (list_head s) l -> len <> 0 -> addr mod PAGE_SIZE = 0 -> 0 <= addr -> env_lock e = Ok (tt, e0) ->
  let n := PAGE_ALIGN_UP len in
  exists c o, found s l (adjoins addr flags) c /\ found s l (overlaps addr n) o /\
    vma_map addr len flags (e, s) =
      (if negb (c =? NULL) then expand_area c addr n flags else
       if negb (o =? NULL) then on_env env_unlock ;;; ret (-2) else new_area addr n flags) (e0, s).
Proof.
  intros Hd Hs Ha H0 E0 n. pose proof (space_fuel s l Hd) as Hf. destruct Hd as [Hd _].
  destruct (list_search_spec _ s (adjoins addr flags) NULL _ l Hd Hf) as (c & Ec & Hc).
  destruct (list_search_spec _ s (overlaps addr n) NULL _ l Hd Hf) as (o & Eo & Ho). exists c, o. split_and!; [done|done|].
  unfold vma_map. rewrite (proj2 (Z.eqb_neq len 0)) by done. fold n.
  assert (Z.land addr 0xFFF = 0) as ->. { change 0xFFF with (Z.ones 12). rewrite Z.land_ones by lia. exact Ha. }
  cbn [negb Z.eqb]. rewrite (env_step _ _ _ _ _ _ E0).
  rewrite (mm_step _ _ _ (S (S (size (areas s)))) s), (mm_step _ _ _ (list_head s) s) by done. rewrite (mm_step _ _ _ _ _ _ Ec).
  destruct (Z.eqb_spec c NULL) as [->|]; cbn [negb]; [|done]. rewrite (mm_step _ _ _ _ _ _ Eo). done.
Qed.

(** ** Mapping *)

(** The range of [n] bytes at [addr] has become accessible with [flags], and
    nothing else has changed. *)
Definition opened (s : mm) (l : list Z) (s' : mm) (l' : list Z) (addr n flags : Z) : Prop :=
  forall x f, access s' l' x f <-> access s l x f \/ addr <= x < addr + n /\ f = flags.

Lemma expand_run s e e0 r e' c y addr n flags :
  areas s !! c = Some y -> vm_end y = addr -> 0 <= addr -> 0 < n -> addr + n < 2 ^ 64 ->
  env_lock e = Ok (tt, e0) -> expand_env (t_cr3 s) addr n flags e = Ok (r, e') ->
  expand_area c addr n flags (e0, s) = Ok (r, (e', if decide (r = 0) then with_end c (addr + n) s else s)) /\ (r = 0 \/ r = -1).
Proof.
  intros Hy <- H0 Hn Hw E0 ([] & e1 & E1 & (phys & e2 & E2 & E3)%bind_inv)%bind_inv. assert (e1 = e0) as -> by congruence.
  unfold expand_area. rewrite (env_step _ _ _ _ _ _ E2). destruct (Z.eqb_spec phys NULL) as [->|Hp].
  - apply bind_inv in E3 as ([] & e3 & E3 & [= <- <-]). rewrite (env_last _ _ _ _ _ E3), decide_False by done. split; [done|by right].
  - apply bind_inv in E3 as ([] & e3 & E3 & ([] & e4 & E4 & [= <- <-])%bind_inv). rewrite (bind_ok _ _ _ _ _ (back_range_run _ _ _ _ _ _ _ E3)).
    rewrite decide_True by done. split; [|by left].
    rewrite (mm_step _ _ _ tt (with_end c (vm_end y + n) s)); [by rewrite (env_last _ _ _ _ _ E4)|].
    unfold with_end. pose proof (upd_area_eq s (areas s) c (fun x => set_vm_end (w64 (vm_end x + n)) x) ltac:(by eexists)) as Eu.
    rewrite mkm_id in Eu. rewrite Eu. do 3 f_equal. apply alter_ext. intros z. rewrite Hy. intros [= <-]. by rewrite w64_small by lia.
Qed.

(** A merge into an unused range. *)
Lemma widen_space s t l c y n : space s t l -> c ∈ l -> areas s !! c = Some y -> 0 < n -> unused s l (vm_end y) (vm_end y + n) ->
  space (with_end c (vm_end y + n) s) t l /\ opened s l (with_end c (vm_end y + n) s) l (vm_end y) n (vm_flags y).
Proof.
  intros Hsp Hc Hy Hn Hun. pose proof (space_sized _ _ _ _ _ Hsp Hc Hy) as Hz. split.
  - apply (with_end_space _ _ _ _ y); [done|done|done|lia|]. intros u Hu Hb. unfold below, end_of at 1 in Hb. rewrite Hy in Hb. simpl in Hb.
    destruct (Hun u Hu) as [Hl|Hl]; [|done]. pose proof (vt_size _ _ (sp_tree _ _ _ Hsp) u) as Hzu.
    rewrite <-(sp_same _ _ _ Hsp) in Hzu. specialize (Hzu Hu). lia.
  - intros x f. rewrite (with_end_access s t l c y) by (done || lia). split; [tauto|]. intros [Hx|Hx]; [left|by right]. split; [done|lia].
Qed.

Definition fresh_area (addr n flags : Z) : vma_area := mkArea addr (w64 (addr + n)) flags NULL NULL NULL VMA_RED NULL NULL.

(** The list and the tree take the new descriptor [a]. *)
Lemma link_area s t l a addr n flags :
  space s t l -> root_color t = VMA_BLACK -> a <> NULL -> areas s !! a = None -> 0 <= addr -> 0 < n -> addr + n < 2 ^ 64 ->
  unused s l addr (addr + n) ->
  let s1 := mkm s (<[a := fresh_area addr n flags]> (areas s)) in
  exists s2 s3 t', list_push a s1 = Ok (tt, s2) /\ tree_insert a s2 = Ok (tt, s3) /\
    space (set_vma_count (w64 (vma_count s3 + 1)) s3) t' (a :: l) /\ root_color t' = VMA_BLACK /\ t_cr3 s3 = t_cr3 s /\
    (forall k, rbt k t -> exists k', rbt k' t') /\ opened s l s3 (a :: l) addr n flags /\
    (forall u, is_Some (areas s3 !! u) -> u = a \/ is_Some (areas s !! u)).
Proof.
  intros Hsp Hb Ha0 Ha H0 Hn Hw Hun s1. destruct Hsp as [Ht Hl Hp Hc]. set (x := fresh_area addr n flags) in *.
  assert (forall u, u ∈ l -> u <> a /\ is_Some (areas s !! u)) as Hne.
  { intros u Hu. destruct (dll_elem _ _ _ _ Hl Hu) as [_ [q Hq]]. unfold nlk in Hq. destruct (areas s !! u) eqn:Eu; [|done]. split; [congruence|done]. }
  assert (forall u, u ∈ l -> areas s1 !! u = areas s !! u) as E1 by (intros u Hu; apply lookup_insert_ne; symmetry; by apply Hne).
  assert (a ∉ l) as Hal by (intros Hu; by destruct (Hne a Hu)).
  assert (areas s1 !! a = Some x) as Eax by apply lookup_insert_eq.
  destruct (list_push_spec s1 l a x) as (m2 & E2 & Hoff & Hl2); [|done|done|done|done|].
  { eapply dll_frame; [|exact Hl]. intros u Hu. unfold nlk. by rewrite E1. }
  set (s2 := set_list_head a (mkm s1 m2)) in *. assert (areas s2 = m2) as Em2 by done.
  assert (forall u, u ∈ inorder t -> place_of <$> areas s2 !! u = place_of <$> areas s !! u) as Hpl.
  { intros u Hu. rewrite <-Hp in Hu. rewrite Em2, (same_off_place _ _ _ Hoff). by rewrite E1. }
  assert (vtree s2 t) as Ht2 by (by apply (vtree_ext s)).
  pose proof (Hoff a) as Hx2. rewrite Eax in Hx2. destruct (m2 !! a) as [x2|] eqn:Ex2; [|done]. injection Hx2 as X1 X2 X3 X4 X5 X6 X7.
  assert (geo x2 = (addr, addr + n, flags)) as Hg. { unfold geo. rewrite X5, X6, X7, w64_small by lia. done. }
  injection Hg as G1 G2 G3.
  destruct (tree_insert_spec s2 t a x2 Ht2 Hb) as (s3 & t' & l1 & l2 & E3 & Ht3 & Hb3 & Ei & Ei' & Hd3 & Hh3 & Hc3 & Hcr3 & Hrb); try done.
  { unfold links. by rewrite X1, X2, X3, X4. } { by rewrite <-Hp. } { lia. }
  { intros u Hu. specialize (Hpl u Hu). rewrite <-Hp in Hu. apply (view_of place_of (fun x => (vm_start x, vm_end x)) snd) in Hpl; [|done].
    destruct (Hun u Hu) as [Hq|Hq]; unfold start_of, end_of in *; destruct (areas s2 !! u), (areas s !! u); try done; try (injection Hpl as P1 P2); simpl in *; lia. }
  exists s2, s3, t'. split_and!; [done|done| |done|by rewrite Hcr3|done| |].
  - split.
    + by apply (vtree_ext s3).
    + cbn [areas set_vma_count list_head]. rewrite Hh3. eapply dll_frame; [|exact Hl2]. intros u _. by apply (same_data_nlk m2 (areas s3)).
    + rewrite Ei', Hp, Ei. solve_Permutation.
    + cbn [vma_count set_vma_count length]. rewrite Hc3. cbn [vma_count s2 set_list_head mkm set_areas s1]. rewrite Hc. unfold w64.
      rewrite Zplus_mod_idemp_l. f_equal. lia.
  - intros z f. assert (forall u, geo <$> areas s3 !! u = geo <$> m2 !! u) as Hg3 by (intros u; by apply same_data_geo).
    rewrite (access_ext s2 s3 (a :: l) (a :: l)) by done. rewrite (access_cons s2 a l z f x2), G1, G2, G3 by done.
    rewrite (access_ext s s2 l l); [split; intros [?|?]; [right|left|right|left]; naive_solver|done|].
    intros u Hu. rewrite <-E1 by done. by apply same_off_geo.
  - intros u Hu. destruct (decide (u = a)) as [|Hua]; [by left|right]. rewrite <-(fmap_is_Some data), Hd3, fmap_is_Some in Hu.
    rewrite <-(fmap_is_Some off_list) in Hu. rewrite Em2, (Hoff u), fmap_is_Some in Hu. cbn [areas s1 mkm set_areas] in Hu. by rewrite lookup_insert_ne in Hu.
Qed.

Lemma new_run s t l e e0 r a e' addr n flags :
  space s t l -> root_color t = VMA_BLACK -> (a <> NULL -> areas s !! a = None) -> 0 <= addr -> 0 < n -> addr + n < 2 ^ 64 ->
  unused s l addr (addr + n) -> env_lock e = Ok (tt, e0) -> new_env (t_cr3 s) addr n flags e = Ok (r, a, e') ->
  exists s', new_area addr n flags (e0, s) = Ok (r, (e', s')) /\ t_cr3 s' = t_cr3 s /\
    (forall u, is_Some (areas s' !! u) -> u = a \/ is_Some (areas s !! u)) /\
    (r = 0 -> a <> NULL /\ exists t', space s' t' (a :: l) /\ root_color t' = VMA_BLACK /\ (forall k, rbt k t -> exists k', rbt k' t') /\
       opened s l s' (a :: l) addr n flags) /\
    (r <> 0 -> (r = -3 \/ r = -4) /\ s' = s).
Proof.
  intros Hsp Hb Ha H0 Hn Hw Hun E0 ([] & e1 & E1 & (a' & e2 & E2 & E3)%bind_inv)%bind_inv. assert (e1 = e0) as -> by congruence.
  unfold new_area. rewrite (env_step _ _ _ _ _ _ E2). destruct (Z.eqb_spec a' NULL) as [->|Ha0].
  { apply bind_inv in E3 as ([] & e3 & E3 & [= <- <- <-]). exists s. rewrite (env_last _ _ _ _ _ E3). split_and!; [done|done|by right|done|tauto]. }
  apply bind_inv in E3 as (phys & e3 & E3 & E4). destruct (Z.eqb_spec phys NULL) as [->|Hp].
  - apply bind_inv in E4 as ([] & e4 & E4 & ([] & e5 & E5 & [= <- <- <-])%bind_inv). specialize (Ha Ha0). exists s.
    rewrite (mm_step _ _ _ tt (mkm s (<[a' := fresh_area addr n flags]> (areas s)))) by done. rewrite (env_step _ _ _ _ _ _ E3), Z.eqb_refl.
    unfold free_area. rewrite bind_bind, (env_step _ _ _ _ _ _ E4). rewrite (mm_step _ _ _ tt s).
    2:{ unfold modify, mkm, set_areas. cbn [areas tree_root list_head vma_count t_cr3]. rewrite delete_insert_id by done. by destruct s. }
    rewrite (env_last _ _ _ _ _ E5). split_and!; [done|done|by right|done|tauto].
  - apply bind_inv in E4 as ([] & e4 & E4 & ([] & e5 & E5 & [= <- <- <-])%bind_inv). specialize (Ha Ha0).
    destruct (link_area s t l a' addr n flags Hsp Hb Ha0 Ha H0 Hn Hw Hun) as (s2 & s3 & t' & L1 & L2 & Hs & Hb' & Hc & Hrb & Ho & Hdom).
    exists (set_vma_count (w64 (vma_count s3 + 1)) s3). set (s1 := mkm s _) in *. rewrite (mm_step _ _ _ tt s1) by done.
    rewrite (env_step _ _ _ _ _ _ E3). rewrite (proj2 (Z.eqb_neq _ _)) by done. rewrite (bind_ok _ _ _ _ _ (back_range_run e3 e4 s1 addr phys n flags E4)).
    rewrite (mm_step _ _ _ _ _ _ L1), (mm_step _ _ _ _ _ _ L2). rewrite (mm_step _ _ _ tt (set_vma_count (w64 (vma_count s3 + 1)) s3)) by done.
    rewrite (env_last _ _ _ _ _ E5). split_and!; [done|done|done| |done]. intros _. split; [done|]. exists t'. by split_and!.
Qed.

Lemma found_unused s t l addr n o : space s t l -> 0 <= addr -> 0 < n -> addr + n < 2 ^ 64 -> found s l (overlaps addr n) o ->
  unused s l addr (addr + n) <-> o = NULL.
Proof.
  intros Hsp H0 Hn Hw Hf. unfold found, overlaps in Hf. rewrite w64_small in Hf by lia. split.
  - intros Hun. destruct Hf as [[-> _]|(Ho & _ & y & Hy & [H1%Z.ltb_lt H2%Z.ltb_lt]%andb_true_iff)]; [done|].
    specialize (Hun o Ho). unfold start_of, end_of in Hun. rewrite Hy in Hun. simpl in Hun. lia.
  - intros ->. destruct Hf as [[_ Hf]|(_ & ? & _)]; [|done]. intros u Hu. destruct (dll_elem _ _ _ _ (sp_list _ _ _ Hsp) Hu) as [_ [q Hq]].
    unfold nlk in Hq. unfold start_of, end_of. destruct (areas s !! u) as [y|] eqn:Ey; [|done]. specialize (Hf u y Hu Ey). simpl. apply andb_false_iff in Hf as [Hf%Z.ltb_ge|Hf%Z.ltb_ge]; lia.
Qed.

(** An area of the list ends at [addr] and has the flags. *)
Definition adjacent (s : mm) (l : list Z) (addr flags : Z) : Prop :=
  exists a y, a ∈ l /\ areas s !! a = Some y /\ vm_end y = addr /\ vm_flags y = flags.

Lemma found_adjacent s l addr flags c : found s l (adjoins addr flags) c -> c = NULL -> ~ adjacent s l addr flags.
Proof.
  intros [[_ Hc]|(_ & ? & _)] ->; [|done]. intros (a & y & Ha & Hy & <- & <-). specialize (Hc a y Ha Hy). unfold adjoins in Hc. by rewrite !Z.eqb_refl in Hc.
Qed.

(** The three ways on, and when each is taken. *)
Lemma map_ways s t l e e0 addr len flags :
  let n := PAGE_ALIGN_UP len in
  let run := vma_map addr len flags (e, s) in
  space s t l -> 0 <= addr -> addr mod PAGE_SIZE = 0 -> 0 < len -> 0 < n -> addr + n < 2 ^ 64 -> env_lock e = Ok (tt, e0) ->
  (exists c y, c ∈ l /\ areas s !! c = Some y /\ vm_end y = addr /\ vm_flags y = flags /\ run = expand_area c addr n flags (e0, s)) \/
  ~ adjacent s l addr flags /\ ~ unused s l addr (addr + n) /\ run = (on_env env_unlock ;;; ret (-2)) (e0, s) \/
  ~ adjacent s l addr flags /\ unused s l addr (addr + n) /\ run = new_area addr n flags (e0, s).
Proof.
  intros n run Hsp H0 Ha Hl Hn Hw E0. destruct (map_prefix s l e e0 addr len flags (sp_list _ _ _ Hsp) ltac:(lia) Ha H0 E0) as (c & o & Hc & Ho & Er).
  fold n run in Er, Ho. pose proof (found_unused s t l addr n o Hsp H0 Hn Hw Ho) as Hun. destruct (Z.eqb_spec c NULL) as [Ec|Ec]; cbn [negb] in Er.
  - pose proof (found_adjacent _ _ _ _ _ Hc Ec) as Hna. right. destruct (Z.eqb_spec o NULL); cbn [negb] in Er; [right|left]; tauto.
  - left. destruct Hc as [[? _]|(Hcl & _ & y & Hy & [H1%Z.eqb_eq H2%Z.eqb_eq]%andb_true_iff)]; [done|]. by exists c, y.
Qed.

(** C15: [vma_map] on an address space whose areas are well formed and whose
    tree has a black root. When the page-aligned range is unused, the result
    is that of the calls it makes: after success exactly the range has become
    accessible with the flags, either because the area that ends there with the
    same flags has grown or through a new area, the address space is well formed,
    and the tree still has a black root and is a red-black tree if it was one;
    after a failure (-1, -3, -4) the areas are as before. A range that meets an
    area and adjoins none with the same flags is refused with -2. Nothing is
    said of a range that meets an area and adjoins one with the same flags: it is
    accepted, see [vma_map_merge_overlaps]. *)
Theorem vma_map_correct s t l e addr len flags :
  let n := PAGE_ALIGN_UP len in
  let run := vma_map addr len flags (e, s) in
  space s t l -> root_color t = VMA_BLACK -> 0 <= addr -> addr mod PAGE_SIZE = 0 -> 0 < len -> addr + len <= 2 ^ 64 - PAGE_SIZE ->
  (adjacent s l addr flags -> unused s l addr (addr + n) -> forall r e', expand_env (t_cr3 s) addr n flags e = Ok (r, e') ->
     exists s', run = Ok (r, (e', s')) /\ space s' t l /\ (r = 0 -> opened s l s' l addr n flags) /\ (r <> 0 -> r = -1 /\ s' = s)) /\
  (~ adjacent s l addr flags -> unused s l addr (addr + n) -> forall r a e', new_env (t_cr3 s) addr n flags e = Ok (r, a, e') ->
     (a <> NULL -> areas s !! a = None) ->
     exists s', run = Ok (r, (e', s')) /\
       (r = 0 -> exists t', space s' t' (a :: l) /\ root_color t' = VMA_BLACK /\ (forall k, rbt k t -> exists k', rbt k' t') /\
          opened s l s' (a :: l) addr n flags) /\
       (r <> 0 -> (r = -3 \/ r = -4) /\ s' = s)) /\
  (~ adjacent s l addr flags -> ~ unused s l addr (addr + n) -> forall e', (env_lock ;;; env_unlock) e = Ok (tt, e') -> run = Ok (-2, (e', s))).
Proof.
  intros n run Hsp Hb H0 Ha Hl Hw. destruct (page_align_up_bounds len) as [_ Hn]; [unfold PAGE_SIZE in *; lia|]. fold n in Hn.
  assert (0 < n /\ addr + n < 2 ^ 64) as [Hn0 Hnw] by (unfold PAGE_SIZE in *; lia).
  assert (forall e0, env_lock e = Ok (tt, e0) -> _) as W by (intros e0; exact (map_ways s t l e e0 addr len flags Hsp H0 Ha Hl Hn0 Hnw)).
  fold n run in W. split_and!.
  - intros Had Hun r e' Er. pose proof Er as ([] & e0 & E0 & _)%bind_inv.
    destruct (W e0 E0) as [(c & y & Hc & Hy & Hend & Hfl & ->)|[[? _]|[? _]]]; [|done..].
    destruct (expand_run s e e0 r e' c y addr n flags Hy Hend H0 Hn0 Hnw E0 Er) as [-> Hr]. rewrite <-Hend in Hun.
    destruct (widen_space s t l c y n Hsp Hc Hy Hn0 Hun) as [Hs' Ho']. rewrite Hend, Hfl in *.
    eexists. split; [done|]. case_decide; [by split_and!|]. split_and!; [done|done|]. intros _. by destruct Hr.
  - intros Hna Hun r a e' Er Hfr. pose proof Er as ([] & e0 & E0 & _)%bind_inv.
    destruct (W e0 E0) as [(c & y & Hc & Hy & Hend & Hfl & _)|[(_ & ? & _)|(_ & _ & ->)]]; [by destruct Hna; exists c, y|done|].
    destruct (new_run s t l e e0 r a e' addr n flags Hsp Hb Hfr H0 Hn0 Hnw Hun E0 Er) as (s' & -> & _ & _ & Hr & Hf). exists s'. split_and!; [done|tauto|done].
  - intros Hna Hun e' ([] & e0 & E0 & E1)%bind_inv.
    destruct (W e0 E0) as [(c & y & Hc & Hy & Hend & Hfl & _)|[(_ & _ & ->)|(_ & ? & _)]]; [by destruct Hna; exists c, y| |done]. by apply env_last.
Qed.

(** Merging comes before the overlap check: when another area begins inside
    the requested range, the call succeeds and afterwards two areas share
    addresses, so that no order of the areas exists any more. *)
Theorem vma_map_merge_overlaps s t l e e' addr len flags a y b :
  let n := PAGE_ALIGN_UP len in
  space s t l -> 0 <= addr -> addr mod PAGE_SIZE = 0 -> 0 < len -> addr + len <= 2 ^ 64 - PAGE_SIZE ->
  a ∈ l -> areas s !! a = Some y -> vm_end y = addr -> vm_flags y = flags ->
  b ∈ l -> b <> a -> addr <= start_of (areas s) b < addr + n -> expand_env (t_cr3 s) addr n flags e = Ok (0, e') ->
  exists s', vma_map addr len flags (e, s) = Ok (0, (e', s')) /\
    contains (areas s') a (start_of (areas s) b) /\ contains (areas s') b (start_of (areas s) b) /\ forall t' l', a ∈ l' -> b ∈ l' -> ~ space s' t' l'.
Proof.
  intros n Hsp H0 Hal Hl Hw Ha Hy Hend Hfl Hb Hne Hx Er. destruct (page_align_up_bounds len) as [_ Hn]; [unfold PAGE_SIZE in *; lia|]. fold n in Hn.
  assert (0 < n /\ addr + n < 2 ^ 64) as [Hn0 Hnw] by (unfold PAGE_SIZE in *; lia). pose proof Er as ([] & e0 & E0 & _)%bind_inv.
  destruct (map_ways s t l e e0 addr len flags Hsp H0 Hal Hl Hn0 Hnw E0) as [(c & z & Hc & Hz & Zend & _ & ->)|[[Hna _]|[Hna _]]];
    [|by destruct Hna; exists a, y..].
  fold n. pose proof (space_sized _ _ _ _ _ Hsp Ha Hy) as Sa. pose proof (space_sized _ _ _ _ _ Hsp Hc Hz) as Sc. assert (c = a) as ->.
  { destruct (decide (c = a)); [done|]. destruct (space_apart s t l c a) as [Hb'|Hb']; try done; unfold below, start_of, end_of in Hb'; rewrite Hy, Hz in Hb'; simpl in Hb'; lia. }
  rewrite Hy in Hz. injection Hz as <-. destruct (expand_run s e e0 0 e' a y addr n flags Hy Hend H0 Hn0 Hnw E0 Er) as [-> _].
  rewrite decide_True by done. exists (with_end a (addr + n) s). split; [done|]. set (s' := with_end _ _ _).
  pose proof (vt_size _ _ (sp_tree _ _ _ Hsp) b) as Sb. rewrite <-(sp_same _ _ _ Hsp) in Sb. specialize (Sb Hb).
  assert (contains (areas s') a (start_of (areas s) b)) as C1.
  { unfold contains, start_of at 1, end_of, s'. rewrite with_end_lookup, decide_True, Hy by done. simpl. lia. }
  assert (contains (areas s') b (start_of (areas s) b)) as C2.
  { unfold contains, start_of at 1, end_of, s'. rewrite with_end_lookup, decide_False by done. unfold start_of, end_of in *. lia. }
  split_and!; [done|done|]. intros t' l' Ha' Hb' Hs'. unfold contains in *. destruct (space_apart s' t' l' a b) as [Hq|Hq]; try done; unfold below in Hq; lia.
Qed.

(** ** Unmapping *)

(** The addresses from [lo] to [hi] are no longer accessible, and nothing else
    has changed. *)
Definition shut (s : mm) (l : list Z) (s' : mm) (l' : list Z) (lo hi : Z) : Prop :=
  forall x f, access s' l' x f <-> access s l x f /\ ~ (lo <= x < hi).

Lemma release_page_run pml4 v e s : release_page pml4 v (e, s) = on_env (release_env pml4 v) (e, s).
Proof.
  unfold release_page, release_env, bind, on_env. cbn [fst snd]. destruct (env_translate pml4 v e) as [[phys e1]| | |]; try done.
  destruct (negb (phys =? 0)); cbn [when]; [|done]. unfold bind, on_env. cbn [fst snd]. destruct (env_unmap pml4 v e1) as [[? e2]| | |]; try done.
Qed.

Lemma release_loop_run pml4 fuel i stop step e s :
  for_loop fuel i stop step (release_page pml4) (e, s) = on_env (for_loop fuel i stop step (release_env pml4)) (e, s).
Proof.
  revert i e. induction fuel as [|fuel IH]; intros i e; cbn [for_loop]; (destruct (i <? stop); [|done]); [done|].
  unfold bind at 1. rewrite release_page_run. unfold on_env at 1 2, bind. cbn [fst snd].
  destruct (release_env pml4 i e) as [[? e1]| | |]; try done; rewrite IH; done.
Qed.

(** The area [a] leaves the list, the tree and the heap. *)
Lemma unlink_area s t l1 a l2 y : space s t (l1 ++ a :: l2) -> areas s !! a = Some y ->
  exists s1 s2 t', list_remove a s = Ok (tt, s1) /\ tree_remove a s1 = Ok (tt, s2) /\ t_cr3 s2 = t_cr3 s /\
    (forall u, is_Some (areas s2 !! u) -> is_Some (areas s !! u)) /\
    let s' := set_areas (delete a (areas s2)) (set_vma_count (w64 (vma_count s2 - 1)) s2) in
    space s' t' (l1 ++ l2) /\ shut s (l1 ++ a :: l2) s' (l1 ++ l2) (vm_start y) (vm_end y).
Proof.
  intros Hsp Hy. pose proof Hsp as [Ht Hl Hp Hc]. destruct (list_remove_spec s l1 a l2 Hl) as (m1 & h' & E1 & Hoff & Hl').
  set (s1 := set_list_head h' (mkm s m1)) in *. assert (vtree s1 t) as Ht1.
  { apply (vtree_ext s); [|done|done]. intros u _. by apply same_off_place. }
  assert (a ∈ inorder t) as Hat by (rewrite <-Hp; set_solver).
  destruct (tree_remove_spec s1 t a Ht1 Hat) as (s2 & t' & k1 & k2 & E2 & Ht2 & Ek & Ek' & Hd2 & Hh2 & Hc2 & Hr2).
  exists s1, s2, t'. split; [done|]. split; [done|]. split; [by rewrite Hr2|]. split.
  { intros u Hu. rewrite <-(fmap_is_Some data), Hd2, fmap_is_Some in Hu. cbn [areas s1 set_list_head mkm set_areas] in Hu.
    by rewrite <-(fmap_is_Some off_list), (Hoff u), fmap_is_Some in Hu. }
  intros s'.
  assert (forall u, u <> a -> areas s' !! u = areas s2 !! u) as Hdel by (intros u Hu; by apply lookup_delete_ne).
  assert (NoDup (inorder t)) as Hnd by apply Ht. assert (a ∉ k1 ++ k2) as Hna.
  { rewrite Ek in Hnd. apply NoDup_app in Hnd as (_ & Hn1 & [Hn2 _]%NoDup_cons). intros [Hu|Hu]%elem_of_app; [apply (Hn1 a Hu); by left|done]. }
  assert (l1 ++ l2 ≡ₚ k1 ++ k2) as Hpp. { apply (Permutation_cons_inv (a := a)). rewrite !Permutation_middle, <-Ek. exact Hp. }
  split.
  - split.
    + apply (vtree_ext s2); [|done|done]. intros u Hu. rewrite Hdel; [done|]. rewrite Ek' in Hu. by intros ->.
    + cbn [list_head s' set_areas set_vma_count]. rewrite Hh2. apply Hl'. intros u Hu. unfold nlk. rewrite Hdel by done.
      by apply (same_data_nlk m1 (areas s2)).
    + by rewrite Ek'.
    + cbn [vma_count s' set_areas set_vma_count]. rewrite Hc2. cbn [vma_count s1 set_list_head mkm set_areas]. rewrite Hc, !length_app. cbn [length].
      unfold w64. rewrite Zminus_mod_idemp_l. f_equal. lia.
  - intros x f. rewrite (access_ext s s (a :: l1 ++ l2) (l1 ++ a :: l2)) by (done || solve_Permutation). rewrite (access_cons s a _ x f y) by done.
    rewrite (access_ext s s' (l1 ++ l2) (l1 ++ l2)); [|done|].
    2:{ intros u Hu. rewrite Hdel by (intros ->; rewrite Hpp in Hu; done). rewrite (same_data_geo m1 (areas s2)) by done. by apply same_off_geo. }
    split; [|tauto]. intros (b & z & Hb & Hz & Hx & Hf). split; [right; by exists b, z|].
    assert (b <> a) as Hba by (intros ->; rewrite Hpp in Hb; done).
    destruct (space_apart s t _ b a Hsp) as [Hq|Hq]; [set_solver|set_solver|done| |]; unfold below, start_of, end_of in Hq; rewrite Hz, Hy in Hq; simpl in Hq; lia.
Qed.

(** [vma_unmap] up to the change of the areas, inside the area [a]. *)
Lemma unmap_prefix s t l e e' addr stop len a y gone :
  space s t l -> a ∈ l -> areas s !! a = Some y -> vm_start y <= addr < vm_end y -> len <> 0 -> w64 (addr + len) = stop ->
  unmap_env (t_cr3 s) addr stop gone e = Ok (tt, e') ->
  exists e1, vma_unmap addr len (e, s) = (shrink_area a addr stop ;;; on_env env_sync_tlb ;;; on_env env_unlock ;;; ret 0) (e1, s) /\
    (match gone with Some a => env_kfree a | None => ret tt end ;;; env_sync_tlb ;;; env_unlock) e1 = Ok (tt, e').
Proof.
  intros Hsp Ha Hy Hin Hl Hs ([] & e0 & E0 & (pml4 & e1 & E1 & ([] & e2 & E2 & E3)%bind_inv)%bind_inv)%bind_inv. exists e2. split; [|done].
  unfold vma_unmap. rewrite (proj2 (Z.eqb_neq _ _)) by done. rewrite (env_step _ _ _ _ _ _ E0).
  destruct (vma_find_correct s t addr (sp_tree _ _ _ Hsp)) as (r & Er & Hr). rewrite (mm_step _ _ _ _ _ _ Er).
  assert (contains (areas s) a addr) as Hc by (unfold contains, start_of, end_of; rewrite Hy; done).
  assert (a ∈ inorder t) as Hat by (by rewrite <-(sp_same _ _ _ Hsp)). destruct Hr as [[_ Hr]|(Hr & Hr0 & Hrc)]; [by destruct (Hr a Hat)|].
  assert (r = a) as ->.
  { destruct (decide (r = a)); [done|]. rewrite <-(sp_same _ _ _ Hsp) in Hr. unfold contains in *.
    destruct (space_apart s t l r a) as [Hq|Hq]; try done; unfold below in Hq; lia. }
  rewrite (proj2 (Z.eqb_neq _ _)) by done. rewrite Hs. rewrite (mm_step _ _ _ (t_cr3 s) s) by done. rewrite (env_step _ _ _ _ _ _ E1).
  rewrite (bind_ok _ _ _ tt (e2, s)); [done|]. unfold for_u64. rewrite release_loop_run. unfold on_env. cbn [fst snd]. unfold for_u64 in E2. by rewrite E2.
Qed.

Lemma unmap_suffix e e' (s : mm) : (env_sync_tlb ;;; env_unlock) e = Ok (tt, e') ->
  (on_env env_sync_tlb ;;; on_env env_unlock ;;; ret 0) (e, s) = Ok (0, (e', s)).
Proof. intros ([] & e1 & E1 & E2)%bind_inv. rewrite (env_step _ _ _ _ _ _ E1). by apply env_last. Qed.

Lemma unmap_nowhere s t l e e' addr len : space s t l -> 0 < len -> (forall x f, access s l x f -> x <> addr) ->
  (env_lock ;;; env_unlock) e = Ok (tt, e') -> vma_unmap addr len (e, s) = Ok (-1, (e', s)).
Proof.
  intros Hsp Hl Hno ([] & e0 & E0 & E1)%bind_inv. unfold vma_unmap. rewrite (proj2 (Z.eqb_neq _ _)) by lia. rewrite (env_step _ _ _ _ _ _ E0).
  destruct (vma_find_correct s t addr (sp_tree _ _ _ Hsp)) as (r & Er & Hr). rewrite (mm_step _ _ _ _ _ _ Er).
  destruct Hr as [[-> _]|(Hr & _ & Hc)]; [by apply env_last|]. rewrite <-(sp_same _ _ _ Hsp) in Hr.
  destruct (dll_elem _ _ _ _ (sp_list _ _ _ Hsp) Hr) as [_ [q Hq]]. unfold nlk in Hq. unfold contains, start_of, end_of in Hc.
  destruct (areas s !! r) as [y|] eqn:Ey; [|done]. destruct (Hno addr (vm_flags y)); [|done]. by exists r, y.
Qed.

(** The area [a] loses its end, or all of it. *)
Lemma unmap_tail s t l e e' addr len a y : let stop := addr + len in
  space s t l -> 0 <= addr -> 0 < len -> stop < 2 ^ 64 -> a ∈ l -> areas s !! a = Some y -> vm_start y < addr < vm_end y -> vm_end y <= stop ->
  unmap_env (t_cr3 s) addr stop None e = Ok (tt, e') -> let s' := with_end a addr s in
  vma_unmap addr len (e, s) = Ok (0, (e', s')) /\ space s' t l /\ shut s l s' l addr (vm_end y).
Proof.
  intros stop Hsp H0 Hl Hw Ha Hy Hin Hend Er s'. assert (w64 (addr + len) = stop) as Es by (by apply w64_small; lia).
  destruct (unmap_prefix s t l e e' addr stop len a y None Hsp Ha Hy ltac:(lia) ltac:(lia) Es Er) as (e1 & -> & Ee).
  unfold shrink_area. rewrite bind_bind, (mm_step _ _ _ y s) by (by apply get_area_run).
  rewrite (proj2 (Z.ltb_lt _ _)), (proj2 (Z.leb_le _ _)) by lia. cbn [andb].
  rewrite (mm_step _ _ _ tt (with_end a addr s)) by (by apply with_end_run; eexists). split; [by apply unmap_suffix|]. split.
  - apply (with_end_space s t l a y); [done|done|done|lia|]. intros u Hu Hb. unfold below, end_of in Hb. rewrite Hy in Hb. simpl in Hb. lia.
  - intros x f. unfold s'. rewrite (with_end_access s t l a y) by (done || lia). split; [intros [?|?]; [done|lia]|by left].
Qed.

Lemma unmap_whole s t l e e' addr len a y : let stop := addr + len in
  space s t l -> 0 <= addr -> 0 < len -> stop < 2 ^ 64 -> a ∈ l -> areas s !! a = Some y -> vm_start y = addr -> addr < vm_end y -> vm_end y <= stop ->
  unmap_env (t_cr3 s) addr stop (Some a) e = Ok (tt, e') ->
  exists s' t' l1 l2, vma_unmap addr len (e, s) = Ok (0, (e', s')) /\ l = l1 ++ a :: l2 /\ space s' t' (l1 ++ l2) /\ shut s l s' (l1 ++ l2) addr (vm_end y) /\
    t_cr3 s' = t_cr3 s /\ (forall u, is_Some (areas s' !! u) -> u <> a /\ is_Some (areas s !! u)).
Proof.
  intros stop Hsp H0 Hl Hw Ha Hy Hst Hin Hend Er. assert (w64 (addr + len) = stop) as Es by (by apply w64_small; lia).
  destruct (unmap_prefix s t l e e' addr stop len a y (Some a) Hsp Ha Hy ltac:(lia) ltac:(lia) Es Er) as (e1 & -> & Ee).
  apply list_elem_of_split in Ha as (l1 & l2 & ->). destruct (unlink_area s t l1 a l2 y Hsp Hy) as (s1 & s2 & t' & E1 & E2 & Ec & Hdom & Hs' & Hsh).
  apply bind_inv in Ee as ([] & e2 & Ek & Ee). unfold shrink_area. rewrite bind_bind, (mm_step _ _ _ y s) by (by apply get_area_run).
  rewrite (proj2 (Z.ltb_ge _ _)) by lia. rewrite (proj2 (Z.leb_le (vm_end y) stop)), (proj2 (Z.leb_le addr _)) by lia. cbn [andb when].
  rewrite !bind_bind, (mm_step _ _ _ _ _ _ E1), bind_bind, (mm_step _ _ _ _ _ _ E2), bind_bind.
  rewrite (mm_step _ _ _ tt (set_vma_count (w64 (vma_count s2 - 1)) s2)) by done. unfold free_area. rewrite bind_bind, (env_step _ _ _ _ _ _ Ek).
  eexists _, t', l1, l2. rewrite (mm_step _ _ _ tt (set_areas (delete a (areas s2)) (set_vma_count (w64 (vma_count s2 - 1)) s2))) by done.
  split; [by apply unmap_suffix|]. split; [done|]. split; [done|]. split; [by rewrite <-Hst|]. split; [done|].
  intros u. cbn [areas set_areas]. rewrite lookup_delete_is_Some. intros [Hne Hu]. split; [done|by apply Hdom].
Qed.

(** C16: [vma_unmap] of a range that begins in an area which ends no later than
    the range: the pages are released first, in order; then the addresses from
    [addr] to the end of that area, and no others, are inaccessible; the area
    has become shorter or, when the range begins with it, its descriptor is out
    of the list and the tree and given back to the heap, and the address space
    is well formed. When the area goes on behind the range the areas are
    unchanged, so the released pages stay part of it. An address in no area
    gives -1. *)
Theorem vma_unmap_correct s t l e addr len :
  let stop := addr + len in
  let run := vma_unmap addr len (e, s) in
  space s t l -> 0 <= addr -> 0 < len -> stop < 2 ^ 64 ->
  (forall a y e', a ∈ l -> areas s !! a = Some y -> vm_start y <= addr < vm_end y ->
     (vm_end y <= stop -> vm_start y < addr -> unmap_env (t_cr3 s) addr stop None e = Ok (tt, e') ->
        exists s', run = Ok (0, (e', s')) /\ space s' t l /\ shut s l s' l addr (vm_end y)) /\
     (vm_end y <= stop -> vm_start y = addr -> unmap_env (t_cr3 s) addr stop (Some a) e = Ok (tt, e') ->
        exists s' t' l1 l2, run = Ok (0, (e', s')) /\ l = l1 ++ a :: l2 /\ space s' t' (l1 ++ l2) /\ shut s l s' (l1 ++ l2) addr (vm_end y)) /\
     (stop < vm_end y -> unmap_env (t_cr3 s) addr stop None e = Ok (tt, e') -> run = Ok (0, (e', s)))) /\
  (forall e', (forall x f, access s l x f -> x <> addr) -> (env_lock ;;; env_unlock) e = Ok (tt, e') -> run = Ok (-1, (e', s))).
Proof.
  intros stop run Hsp H0 Hl Hw. assert (w64 (addr + len) = stop) as Es by (by apply w64_small; lia). split.
  - intros a y e' Ha Hy Hin. split_and!.
    + intros Hend Hst Er. eexists. apply (unmap_tail s t l e e' addr len a y); try done. lia.
    + intros Hend Hst Er. destruct (unmap_whole s t l e e' addr len a y) as (s' & t' & l1 & l2 & E1 & E2 & E3 & E4 & _); try done; [lia|]. by exists s', t', l1, l2.
    + intros Hend Er. destruct (unmap_prefix s t l e e' addr stop len a y None Hsp Ha Hy Hin ltac:(lia) Es Er) as (e1 & Erun & Ee).
      unfold run. rewrite Erun. unfold shrink_area. rewrite bind_bind, (mm_step _ _ _ y s) by (by apply get_area_run).
      rewrite (proj2 (Z.leb_gt (vm_end y) stop)) by lia. rewrite !andb_false_r. cbn [when]. by apply unmap_suffix.
  - intros e' Hno Ee. by apply (unmap_nowhere s t l).
Qed.
End ops.
