(* ===== verification/VmaDemo.v ===== *)
(** * A concrete area tree

    The states the theorems on the area tree are instantiated at: the trees of
    three areas inserted one after the other, and the red root that the removal
    of a black one leaves. *)

From stdpp Require Import sorting.
From S2P Require Import Prelude Dll Vma VmaTree VmaFix VmaSpec VmaOps.

#[local] Instance trep_dec m par t : Decision (trep m par t).
Proof. revert par. induction t as [|c l IHl a r IHr]; intros par; simpl; apply _. Defined.

(** A fresh descriptor of the range from [lo] to [hi]. *)
Definition fresh (lo hi : Z) : vma_area := mkArea lo hi 3 NULL NULL NULL VMA_RED NULL NULL.
Definition place (a lo hi : Z) (s : mm) : mm := set_areas (<[a := fresh lo hi]> (areas s)) s.
Definition run (f : M mm unit) (s : mm) : mm := match f s with Ok (_, s') => s' | _ => s end.

Definition tree2 : mm :=
  run (tree_insert 0x8200) (place 0x8200 0x1000 0x3000 (run (tree_insert 0x8100) (place 0x8100 0x4000 0x6000 (mkMm ∅ NULL NULL 0 0)))).
Definition shape2 : tree := Node VMA_BLACK (Node VMA_RED Leaf 0x8200 Leaf) 0x8100 Leaf.

Lemma vtree_intro s t :
  trep (areas s) NULL t -> tree_root s = top t -> NoDup (inorder t) -> Sorted (below (areas s)) (inorder t) ->
  Forall (fun a => start_of (areas s) a < end_of (areas s) a) (inorder t) -> vtree s t.
Proof.
  intros H1 H2 H3 H4 H5. rewrite Forall_forall in H5. split; try done. clear H1 H2 H3.
  induction H4 as [|a l Hs IH Hh]; [constructor|]. assert (Forall (fun a => start_of (areas s) a < end_of (areas s) a) l) as Hl
    by (apply Forall_forall; intros u Hu; apply H5; by right).
  specialize (IH ltac:(intros u Hu; apply H5; by right)). constructor; [done|].
  destruct l as [|b l]; [constructor|]. apply HdRel_inv in Hh. apply StronglySorted_inv in IH as [_ Hf]. apply Forall_cons in Hl as [Hb _].
  constructor; [done|]. eapply Forall_impl; [exact Hf|]. unfold below in *. intros u Hu. lia.
Qed.

Ltac concrete_vtree :=
  apply vtree_intro; [by_decide|vm_compute; reflexivity|by_decide|repeat constructor; vm_compute; discriminate|by_decide].

Lemma tree2_ok : vtree tree2 shape2.
Proof. concrete_vtree. Qed.

Lemma vma_find_correct_witness : exists r, vma_find 0x2ABC tree2 = Ok (r, tree2).
Proof. destruct (vma_find_correct tree2 shape2 0x2ABC tree2_ok) as (r & E & _). exists r. exact E. Defined.

Definition tree2_new : mm := place 0x8300 0x8000 0x9000 tree2.

Lemma tree2_new_ok : vtree tree2_new shape2.
Proof. concrete_vtree. Qed.

Lemma tree_insert_correct_witness : exists s' t', tree_insert 0x8300 tree2_new = Ok (tt, s') /\ vtree s' t'.
Proof.
  destruct (tree_insert_correct tree2_new shape2 0x8300 (fresh 0x8000 0x9000) tree2_new_ok eq_refl ltac:(vm_compute; reflexivity) eq_refl
    ltac:(vm_compute; discriminate) ltac:(by_decide) ltac:(vm_compute; reflexivity)) as (s' & t' & l1 & l2 & E & Hv & _).
  - apply Forall_forall. by_decide.
  - exists s', t'. exact (conj E Hv).
Defined.

Lemma tree_remove_correct_witness : exists s' t', tree_remove 0x8100 tree2 = Ok (tt, s') /\ vtree s' t'.
Proof.
  destruct (tree_remove_correct tree2 shape2 0x8100 tree2_ok ltac:(by_decide)) as (s' & t' & l1 & l2 & E & Hv & _).
  exists s', t'. exact (conj E Hv).
Defined.

(** The black root of [tree2] removed, another area on its way in. *)
Definition red_rooted : mm := place 0x8300 0x8000 0x9000 (run (tree_remove 0x8100) tree2).

Lemma red_rooted_ok : vtree red_rooted (Node VMA_RED Leaf 0x8200 Leaf).
Proof. concrete_vtree. Qed.

Lemma red_root_insert_faults_witness : tree_insert 0x8300 red_rooted = Fault.
Proof.
  apply (red_root_insert_faults red_rooted 0x8200 0x8300 (fresh 0x8000 0x9000) red_rooted_ok).
  - vm_compute. reflexivity.
  - vm_compute. reflexivity.
  - reflexivity.
  - vm_compute. discriminate.
  - vm_compute. discriminate.
Defined.

(** ** An address space *)

(** A heap that hands out consecutive addresses, frames at 2 MB, and page tables
    in which every page is mapped; the state is the next address and the frames
    that were given back. *)
Definition demo_env : Type := Z * list Z.

#[local] Instance demo_env_ops : VmaEnv demo_env := {|
  env_lock := ret tt; env_unlock := ret tt;
  env_kmalloc := fun n e => Ok (e.1, (e.1 + n, e.2)); env_kfree := fun _ => ret tt;
  env_alloc_frames := fun _ => ret 0x200000; env_free_frame := fun p e => Ok (tt, (e.1, e.2 ++ [p])); env_zero := fun _ _ => ret tt;
  env_get_table := fun c3 => ret c3; env_map_range := fun _ _ _ _ _ => ret tt; env_translate := fun _ v => ret (v + 0x10000000);
  env_unmap := fun _ _ => ret tt; env_sync_tlb := ret tt; env_destroy := fun _ _ => ret tt;
|}.

Definition after {A} (f : M (demo_env * mm) A) (s : demo_env * mm) : demo_env * mm := match f s with Ok (_, s') => s' | _ => s end.

(** The code and the heap of a task, mapped by [vma_map]. *)
Definition task_space : demo_env * mm :=
  after (vma_map 0x406000 0x3000 11) (after (vma_map 0x400000 0x4000 13) ((0x9000, []), mkMm ∅ NULL NULL 0 0x5000)).
Definition heap_area : Z := 0x9048.
Definition code_area : Z := 0x9000.
Definition task_tree : tree := Node VMA_BLACK Leaf code_area (Node VMA_RED Leaf heap_area Leaf).

Lemma task_space_ok : space task_space.2 task_tree [heap_area; code_area].
Proof.
  split; [concrete_vtree| |by_decide|vm_compute; reflexivity]. split; [|by_decide].
  do 2 (split_and!; [reflexivity|discriminate|]; eexists; split; [vm_compute; reflexivity|]). reflexivity.
Qed.

Lemma task_unused : unused task_space.2 [heap_area; code_area] 0x404000 0x405000.
Proof. intros u [->|[->|?%not_elem_of_nil]%elem_of_cons]%elem_of_cons; [right|left|done]; vm_compute; discriminate. Qed.

Lemma task_not_adjacent : ~ adjacent task_space.2 [heap_area; code_area] 0x404000 3.
Proof. intros (a & y & [->|[->|?%not_elem_of_nil]%elem_of_cons]%elem_of_cons & Hy & Hq); [| |done]; vm_compute in Hy; injection Hy as <-; vm_compute in Hq; lia. Qed.

Lemma vma_map_correct_witness : exists s' t', vma_map 0x404000 0x1000 3 (task_space.1, task_space.2) = Ok (0, ((0x90D8, []), s')) /\
  space s' t' [0x9090; heap_area; code_area] /\ opened task_space.2 [heap_area; code_area] s' [0x9090; heap_area; code_area] 0x404000 0x1000 3.
Proof.
  destruct (vma_map_correct task_space.2 task_tree [heap_area; code_area] task_space.1 0x404000 0x1000 3 task_space_ok eq_refl
    ltac:(discriminate) eq_refl eq_refl ltac:(discriminate)) as (_ & Hnew & _).
  destruct (Hnew task_not_adjacent task_unused 0 0x9090 (0x90D8, []) ltac:(vm_compute; reflexivity) ltac:(intros _; vm_compute; reflexivity))
    as (s' & Er & Hs & _). destruct (Hs eq_refl) as (t' & H1 & _ & _ & H2). exists s', t'. exact (conj Er (conj H1 H2)).
Defined.

(** The last page of the heap is given back. *)
Lemma vma_unmap_correct_witness : exists s', vma_unmap 0x408000 0x1000 (task_space.1, task_space.2) = Ok (0, ((0x9090, [0x10408000]), s')) /\
  space s' task_tree [heap_area; code_area] /\ shut task_space.2 [heap_area; code_area] s' [heap_area; code_area] 0x408000 0x409000.
Proof.
  destruct (vma_unmap_correct task_space.2 task_tree [heap_area; code_area] task_space.1 0x408000 0x1000 task_space_ok
    ltac:(discriminate) eq_refl eq_refl) as [Hin _].
  destruct (Hin heap_area (mkArea 0x406000 0x409000 11 NULL NULL code_area VMA_RED code_area NULL) (0x9090, [0x10408000]) ltac:(by left)
    ltac:(vm_compute; reflexivity) ltac:(split; [discriminate|reflexivity])) as (Htrim & _ & _).
  apply (Htrim ltac:(discriminate) eq_refl). vm_compute. reflexivity.
Defined.

(** The area at the end of the code has its flags and the heap begins inside
    the request. *)
Lemma vma_map_merge_overlaps_witness : exists s', vma_map 0x404000 0x3000 13 (task_space.1, task_space.2) = Ok (0, (task_space.1, s')) /\
  contains (areas s') code_area 0x406000 /\ contains (areas s') heap_area 0x406000.
Proof.
  destruct (vma_map_merge_overlaps task_space.2 task_tree [heap_area; code_area] task_space.1 task_space.1 0x404000 0x3000 13
    code_area (mkArea 0x400000 0x404000 13 NULL heap_area NULL VMA_BLACK NULL heap_area) heap_area task_space_ok ltac:(discriminate) eq_refl eq_refl
    ltac:(discriminate) ltac:(by_decide) ltac:(vm_compute; reflexivity) eq_refl eq_refl ltac:(by_decide) ltac:(discriminate)
    ltac:(split; [vm_compute; discriminate|vm_compute; reflexivity]) ltac:(vm_compute; reflexivity)) as (s' & Er & H1 & H2 & _).
  exists s'. split; [exact Er|]. split; [exact H1|exact H2].
Defined.
