(* ===== verification/AddressSpace.v ===== *)
(** * Address spaces on page tables and frames

    [vma_map] and [vma_unmap] of [kernel/memory/vma.c] on the page tables of
    [Vmm] and a frame allocator: the interface [VmaEnv] of the areas is
    instantiated with the real routines, and an area that is accessible is
    shown to be backed by pages. The heap and the mutex of the task stay behind
    an interface, [DescHeap].

    - [reserved D] is the frame allocator as the page tables see it when the
      frames [D] hold data: these are neither free nor used for tables. The
      routines are the same, so that what [Vmm] shows of them for any frame
      allocator says that tables and data never meet.
    - [task_space] is the invariant of a task's address space. *)

From S2P Require Import Prelude Lock Frames Boot Vmm VmmSpace Dll Vma VmaTree VmaFix VmaSpec VmaOps.

(** ** Frames that hold data *)

Section reserved.
Context {F : Type} {FA : FrameAllocator F} {FAok : FrameAllocatorOk F} (D : Z -> bool).

Definition reserved : FrameAllocator F := {|
  fa_hart := fa_hart;
  fa_alloc := fa_alloc;
  fa_alloc_n := fa_alloc_n;
  fa_free := fun a => if D (a / PAGE_SIZE) then ret tt else fa_free a;
  fa_move := fa_move;
  fa_ok := fun f => fa_ok f /\ forall y, D y = true -> 0 <= y < fa_frames f /\ fa_used f y = true;
  fa_used := fun f y => fa_used f y && negb (D y);
  fa_frames := fa_frames;
|}.

Lemma fresh_reserved (f f' : F) count r :
  fresh_frames f f' count r -> (forall y, D y = true -> fa_used f y = true) ->
  @fresh_frames F reserved f f' count r /\ forall y, fa_used f y = true -> fa_used f' y = true.
Proof.
  intros [(-> & Hu)|(x & -> & Hx & Hn & Hfree & Hu)] HD.
  - split; [|intros y Hy; by rewrite Hu]. left. split; [done|]. intros y. cbn. by rewrite Hu.
  - split; [|intros y Hy; rewrite Hu, Hy; apply orb_true_r]. right. exists x. split_and!; [done|done|done| |].
    + intros y Hy. cbn. by rewrite Hfree.
    + intros y. cbn. rewrite Hu. destruct ((x <=? y) && (y <? x + count)) eqn:E; [|done]. cbn.
      assert (x <= y < x + count) as Hy by lia. destruct (D y) eqn:Ed; [|done]. specialize (HD y Ed). by rewrite (Hfree y Hy) in HD.
Qed.

Lemma reserved_ok : @FrameAllocatorOk F reserved.
Proof.
  split.
  - exact (@fa_hart_ok F FA FAok).
  - intros f [Hf _]. by apply (@fa_ok_hart F FA FAok f).
  - intros f h [Hf HD] Hh. destruct (@fa_set_hart F FA FAok f h Hf Hh) as (A & B & C). split_and!; [|exact B|].
    + split; [exact A|]. intros y Hy. change (0 <= y < fa_frames (lset hart_of h f) /\ fa_used (lset hart_of h f) y = true). rewrite B, C. by apply HD.
    + intros y. exact (f_equal (fun b => b && negb (D y)) (C y)).
  - intros f [Hf _]. by apply (@fa_frames_range F FA FAok f).
  - intros f y [Hf HD] Hy. cbn. rewrite (@fa_used_outside F FA FAok f y Hf Hy). destruct (D y) eqn:Ed; [|done]. by destruct (HD y Ed).
  - intros f [Hf HD]. eapply wp_mono; [by apply (@fa_alloc_spec F FA FAok f)|]. cbv beta. intros r f' (A & B & C & Fr).
    destruct (fresh_reserved f f' 1 r Fr) as [Fr' Hmono]; [intros y Hy; by apply HD|]. split_and!; [|done|done|done].
    split; [done|]. intros y Hy. destruct (HD y Hy) as [H1 H2]. cbn in *. rewrite C. auto.
  - intros f n [Hf HD] Hn Hz. cbn in Hz. apply andb_true_iff in Hz as [Hz _]. eapply wp_mono; [by apply (@fa_alloc_n_spec F FA FAok f)|].
    cbv beta. intros r f' (A & B & C & Fr). destruct (fresh_reserved f f' n r Fr) as [Fr' Hmono]; [intros y Hy; by apply HD|].
    split_and!; [|done|done|done]. split; [done|]. intros y Hy. destruct (HD y Hy) as [H1 H2]. cbn in *. rewrite C. auto.
  - intros f a [Hf HD] Ha. unfold fa_free. cbn [reserved]. destruct (D (a / PAGE_SIZE)) eqn:Ed.
    + apply wp_ret. split_and!; [by split|done|done|]. intros y. destruct (Z.eqb_spec a NULL); [done|].
      destruct (Z.eqb_spec y (a / PAGE_SIZE)) as [->|]; [|done]. cbn. rewrite Ed. by rewrite andb_false_r.
    + eapply wp_mono; [by apply (@fa_free_spec F FA FAok f)|]. cbv beta. intros [] f' (A & B & C & Hu). split_and!; [|done|done|].
      * split; [done|]. intros y Hy. rewrite C, Hu. destruct (HD y Hy) as [H1 H2]. split; [done|]. rewrite H2. destruct (a =? NULL); [done|].
        destruct (Z.eqb_spec y (a / PAGE_SIZE)) as [->|]; [congruence|done].
      * intros y. cbn. rewrite Hu. destruct (a =? NULL); [done|]. by rewrite andb_assoc.
  - intros f [Hf HD]. eapply wp_mono; [by apply (@fa_move_spec F FA FAok f)|]. cbv beta. intros [] f' (A & B & C & Hu). split_and!; [|done|done|].
    + split; [done|]. intros y Hy. rewrite C, Hu. by apply HD.
    + intros y. exact (f_equal (fun b => b && negb (D y)) (Hu y)).
Qed.
End reserved.

(** ** The environment *)

(** The heap that holds the descriptors, and the mutex of the task: an
    allocation fails or takes a block that is not live. *)
Class DescHeap (H : Type) := {
  dh_lock : M H unit;
  dh_unlock : M H unit;
  dh_kmalloc : Z -> M H Z;
  dh_kfree : Z -> M H unit;
  dh_live : H -> Z -> Prop;
}.

Class DescHeapOk (H : Type) `{DescHeap H} : Prop := {
  dh_lock_spec h : exists h', dh_lock h = Ok (tt, h') /\ forall a, dh_live h' a <-> dh_live h a;
  dh_unlock_spec h : exists h', dh_unlock h = Ok (tt, h') /\ forall a, dh_live h' a <-> dh_live h a;
  dh_kmalloc_spec n h : exists p h', dh_kmalloc n h = Ok (p, h') /\
    ((p = NULL /\ forall a, dh_live h' a <-> dh_live h a) \/
     (p <> NULL /\ ~ dh_live h p /\ forall a, dh_live h' a <-> dh_live h a \/ a = p));
  dh_kfree_spec p h : exists h', dh_kfree p h = Ok (tt, h') /\ forall a, dh_live h' a <-> dh_live h a /\ a <> p;
}.

Section env.
Context {F : Type} {FA : FrameAllocator F} {FAok : FrameAllocatorOk F}.
Context {H : Type} {DH : DescHeap H} {DHok : DescHeapOk H}.
Implicit Types v : vmm F.

Definition on_pages {A} (m : M (vmm F) A) : M (vmm F * H) A := fun e =>
  match m e.1 with
  | Ok (a, v) => Ok (a, (v, e.2))
  | Fault => Fault | Panic => Panic | Hang => Hang
  end.
Definition on_desc {A} (m : M H A) : M (vmm F * H) A := fun e =>
  match m e.2 with
  | Ok (a, h) => Ok (a, (e.1, h))
  | Fault => Fault | Panic => Panic | Hang => Hang
  end.

(** [memset(p, 0, len)] of whole pages *)
Definition zero_pages (p len : Z) : M (vmm F) unit :=
  mapM_ (fun i => memset_page (w64 (p + i * PAGE_SIZE))) (seqZ 0 (len / PAGE_SIZE)).

#[export] Instance page_env : VmaEnv (vmm F * H) := {|
  env_lock := on_desc dh_lock;
  env_unlock := on_desc dh_unlock;
  env_kmalloc := fun n => on_desc (dh_kmalloc n);
  env_kfree := fun p => on_desc (dh_kfree p);
  env_alloc_frames := fun n => on_pages (pmm_call (fa_alloc_n n));
  env_free_frame := fun p => on_pages (pmm_call (fa_free p));
  env_zero := fun p len => on_pages (zero_pages p len);
  env_get_table := fun phys => on_pages (vmm_get_table phys);
  env_map_range := fun pml4 virt phys size flags => on_pages (vmm_map_range pml4 virt phys size flags);
  env_translate := fun pml4 virt => on_pages (vmm_virtual_to_physical pml4 virt);
  env_unmap := fun pml4 virt => on_pages (vmm_unmap pml4 virt);
  env_sync_tlb := on_pages sync_tlb;
  env_destroy := fun cr3 free_frames => on_pages (vmm_destroy_user_pml4 cr3 free_frames);
|}.

(** ** Page tables beside data *)

(** The tables under [root] are well formed and in used frames outside [D], and
    the frames [D] are in use. *)
Record pages_ok (D : Z -> bool) (v : vmm F) (root : Z) : Prop := {
  po_vmm : @vmm_ok F (reserved D) v root;
  po_lock : lock_free (vmm_lock_ v);
  po_high : kernel_pml4 v <> NULL;
  po_zero : D 0 = true;
}.

Lemma pages_alloc D v root : pages_ok D v root -> fa_ok (v_alloc v) /\ forall y, D y = true -> 0 <= y < fa_frames (v_alloc v) /\ fa_used (v_alloc v) y = true.
Proof. intros [[Ha _ _] _ _ _]. exact Ha. Qed.

Lemma pages_real D v root : pages_ok D v root -> vmm_ok v root.
Proof.
  intros [[[Ha _] Hf Ht] _ _ _]. split; [done|done|]. eapply agree_pt_ok; [by intros q t i|..|exact Ht].
  intros y. unfold owned. cbn [fa_used fa_frames reserved]. rewrite !andb_true_iff. tauto.
Qed.

(** [vmm_map_range] beside data. *)
Lemma map_range_pages D v root virt phys k flags :
  pages_ok D v root -> 0 <= k <= 2 ^ 36 -> virt < HHDM_OFFSET ->
  exists v', vmm_map_range (tbl v root) virt phys (k * PAGE_SIZE) flags v = Ok (tt, v') /\ pages_ok D v' root /\ kernel_pml4 v' = kernel_pml4 v /\
    ((forall x, walk (mem v') root x =
        if decide (page_off virt x < k) then Some (leaf_entry (page_at phys (page_off virt x)) flags) else walk (mem v) root x) \/
     (~ enough_for v (k * PAGE_SIZE) /\
      exists j, 0 <= j < k /\ forall x, walk (mem v') root x = if decide (page_off virt x < j) then None else walk (mem v) root x)).
Proof.
  intros [Hv Hl Hh Hz] Hk Hvirt. assert (num_pages_of (k * PAGE_SIZE) = k) as En by (apply num_pages_of_exact; unfold PAGE_SIZE; lia).
  destruct (@vmm_map_range_correct F (reserved D) (reserved_ok D) v root virt phys (k * PAGE_SIZE) flags Hv Hl ltac:(lia)) as [(v' & (E & R1 & R2 & R3 & R4) & Hw)|[Hno Hf]].
  - rewrite En in Hw. exists v'. split; [exact E|]. split; [split; [done|done|by rewrite R4|done]|]. split; [done|by left].
  - rewrite (proj2 (Z.leb_gt _ _)) in Hf by lia. destruct Hf as (v' & (E & R1 & R2 & R3 & R4) & Hw).
    rewrite En in Hw. exists v'. split; [exact E|]. split; [split; [done|done|by rewrite R4|done]|]. split; [done|right; by split].
Qed.

(** Frames taken for data. *)
Definition with_run (D : Z -> bool) (x n : Z) (y : Z) : bool := D y || ((x <=? y) && (y <? x + n)).

Lemma alloc_pages D v root n :
  pages_ok D v root -> 0 < n < 2 ^ 64 ->
  exists r v', pmm_call (fa_alloc_n n) v = Ok (r, v') /\ mem v' = mem v /\ kernel_pml4 v' = kernel_pml4 v /\
    ((r = NULL /\ pages_ok D v' root) \/
     (exists x, r = x * PAGE_SIZE /\ 0 < x /\ x + n <= fa_frames (v_alloc v) /\ (forall y, x <= y < x + n -> D y = false) /\
        pages_ok (with_run D x n) v' root)).
Proof.
  intros Hp Hn. destruct (pages_alloc _ _ _ Hp) as [Ha HD]. destruct Hp as [[_ Hf Ht] Hl Hh Hz].
  destruct (proj1 (wp_ok _ _ _) (fa_alloc_n_spec (v_alloc v) n Ha ltac:(lia) (proj2 (HD 0 Hz)))) as (r & f' & E & Ha' & Hhart & Hfr & Fr).
  exists r, (set_alloc f' v). unfold pmm_call. rewrite E. split_and!; [done|done|done|].
  destruct Fr as [(-> & Hu)|(x & -> & Hx & Hxn & Hfree & Hu)]; [left; split; [done|]|right; exists x; split_and!; try done].
  - split; [|done..]. split; [|cbn in *; by rewrite Hfr|].
    + split; [done|]. intros y Hy. cbn. rewrite Hfr, Hu. by apply HD.
    + eapply agree_pt_ok; [by intros q t i|..|exact Ht]. intros y. unfold owned. cbn. by rewrite Hfr, Hu.
  - intros y Hy. destruct (D y) eqn:Ed; [|done]. destruct (HD y Ed) as [_ Hus]. by rewrite Hfree in Hus.
  - split; [|done|done|by unfold with_run; rewrite Hz]. split; [|cbn in *; by rewrite Hfr|].
    + split; [done|]. intros y Hy. cbn. rewrite Hfr, Hu. unfold with_run in Hy. apply orb_true_iff in Hy as [Hy|Hy].
      * destruct (HD y Hy) as [? ->]. by rewrite orb_true_r.
      * rewrite Hy. lia.
    + eapply agree_pt_ok; [by intros q t i|..|exact Ht]. intros y. unfold owned, with_run. cbn. rewrite Hfr, Hu, !andb_true_iff. intros (? & Hus & Hnd).
      destruct ((x <=? y) && (y <? x + n)) eqn:Er; [rewrite Hfree in Hus by lia; done|]. by rewrite Hus, orb_false_r.
Qed.
(** *** Clearing pages *)

Definition cleared (m : gmap Z Z) (l : list Z) : gmap Z Z := fold_left (fun m y => zero_page (y * PAGE_SIZE) m) l m.

Lemma rd_cleared l m a : 
  (forall y i, y ∈ l -> 0 <= i < 512 -> a <> y * PAGE_SIZE + 8 * i) -> rd (cleared m l) a = rd m a.
Proof.
  revert m. induction l as [|y l IH]; intros m Ha; [done|]. change (rd (cleared (zero_page (y * PAGE_SIZE) m) l) a = rd m a).
  rewrite IH by (intros z i Hz; apply Ha; by right). apply rd_zero_page_out. intros i Hi. apply Ha; [by left|done].
Qed.

Lemma rd_cleared_in l m y i : y ∈ l -> 0 <= i < 512 -> rd (cleared m l) (y * PAGE_SIZE + 8 * i) = 0.
Proof.
  revert m. induction l as [|z l IH]; intros m Hy Hi; [by apply not_elem_of_nil in Hy|].
  change (rd (cleared (zero_page (z * PAGE_SIZE) m) l) (y * PAGE_SIZE + 8 * i) = 0).
  destruct (decide (y ∈ l)) as [Hl|Hl]; [by apply IH|]. apply elem_of_cons in Hy as [->|]; [|done].
  rewrite rd_cleared; [by apply rd_zero_page_in|]. intros u j Hu Hj E.
  assert (z = u) as -> by (unfold PAGE_SIZE in E; lia). done.
Qed.

Lemma memset_run v y : kernel_pml4 v <> NULL -> 0 <= y < 2 ^ 28 ->
  memset_page (phys_to_virt (y * PAGE_SIZE)) v = Ok (tt, set_mem (zero_page (y * PAGE_SIZE) (mem v)) v).
Proof.
  intros Hk Hy. pose proof (memset_page_ok v (y * PAGE_SIZE) ltac:(unfold PAGE_SIZE; lia)) as E. unfold tbl in E.
  by rewrite (proj2 (Z.eqb_neq _ _) Hk) in E.
Qed.

Lemma zero_pages_run v x n : kernel_pml4 v <> NULL -> 0 <= x -> 0 <= n -> x + n <= 2 ^ 28 ->
  zero_pages (phys_to_virt (x * PAGE_SIZE)) (n * PAGE_SIZE) v = Ok (tt, set_mem (cleared (mem v) (seqZ x n)) v).
Proof.
  intros Hk Hx Hn Hb. unfold zero_pages. rewrite Z.div_mul by done.
  assert (seqZ x n = (fun i => x + i) <$> seqZ 0 n) as ->.
  { unfold seqZ. rewrite <-list_fmap_compose. apply list_fmap_ext. intros i j _. simpl. lia. }
  assert (Forall (fun i => 0 <= i < n) (seqZ 0 n)) as Hl by (apply Forall_forall; intros i Hi%elem_of_seqZ; lia).
  revert v Hk. induction Hl as [|i l Hi Hl IH]; intros v Hk; [by destruct v|]. cbn [mapM_ fmap list_fmap].
  assert (w64 (phys_to_virt (x * PAGE_SIZE) + i * PAGE_SIZE) = phys_to_virt ((x + i) * PAGE_SIZE)) as ->.
  { unfold phys_to_virt, HHDM_OFFSET, PAGE_SIZE in *. rewrite !w64_small; rewrite ?w64_small; lia. }
  rewrite (bind_ok _ _ _ _ _ (memset_run v (x + i) Hk ltac:(lia))), IH by done. done.
Qed.

(** Clearing data does not touch the tables. *)
Lemma cleared_pages D v root l :
  pages_ok D v root -> (forall y, y ∈ l -> D y = true) ->
  let v' := set_mem (cleared (mem v) l) v in pages_ok D v' root /\ forall x, walk (mem v') root x = walk (mem v) root x.
Proof.
  intros [[Ha Hf Ht] Hl Hh Hz] HD v'. assert (agree (mem v) (mem v') root) as Hag.
  { intros q t i Hq Hn Hi. destruct (pt_frames _ _ _ Ht q t Hq Hn) as (A1 & A2 & A3). unfold entry. apply rd_cleared. intros y j Hy Hj E.
    unfold owned in A3. cbn [fa_used fa_frames reserved] in A3. rewrite !andb_true_iff, negb_true_iff in A3. destruct A3 as (_ & _ & A3).
    assert (t / PAGE_SIZE = y) as Et; [|by rewrite Et, (HD y Hy) in A3]. unfold PAGE_SIZE in *. Z.div_mod_to_equations. lia. }
  split; [|intros x; by apply agree_walk]. split; [|done..]. split; [done|done|]. by eapply agree_pt_ok; [exact Hag|..|exact Ht].
Qed.
(** ** What an area is backed by *)

(** The frame an entry points to, and an entry for a user page of an area with
    the flags [f]. *)
Definition frame_of (e : Z) : Z := Z.land e VMM_ADDR_MASK / PAGE_SIZE.
Definition user_entry (e f : Z) : Prop :=
  has e PTE_PRESENT = true /\ has e PTE_USER = true /\ has e PTE_WRITABLE = negb (Z.land f VMA_WRITE =? 0).

Lemma user_leaf y flags : 0 <= y < 2 ^ 28 ->
  let e := leaf_entry (y * PAGE_SIZE) (vmm_opts flags) in user_entry e flags /\ frame_of e = y.
Proof.
  intros Hy e. assert (vmm_opts flags = if negb (Z.land flags VMA_WRITE =? 0) then 7 else 5) as Eo.
  { unfold vmm_opts. destruct (negb (Z.land flags VMA_WRITE =? 0)), (Z.land flags VMA_EXEC =? 0); reflexivity. }
  assert (forall i, i < 12 -> Z.testbit (Z.land (y * PAGE_SIZE) VMM_ADDR_MASK) i = false) as Hlow.
  { intros i Hi. rewrite Z.land_spec. change PAGE_SIZE with (2 ^ 12). rewrite <-Z.shiftl_mul_pow2, Z.shiftl_spec_low by lia. done. }
  split.
  - unfold user_entry, e, leaf_entry, PTE_PRESENT, PTE_USER, PTE_WRITABLE. rewrite !has_bit, !Z.lor_spec, !Hlow, Eo by lia. by destruct (negb (Z.land flags VMA_WRITE =? 0)).
  - unfold frame_of, e. rewrite leaf_entry_mask by (rewrite Eo; by destruct (negb (Z.land flags VMA_WRITE =? 0))).
    rewrite land_mask_frame; [by apply Z.div_mul|by apply Z.mod_mul|unfold PAGE_SIZE; lia].
Qed.

Lemma page_at_run x i : 0 <= x -> 0 <= i -> x + i < 2 ^ 28 -> page_at (x * PAGE_SIZE) i = (x + i) * PAGE_SIZE.
Proof. intros Hx Hi Hb. unfold page_at, PAGE_SIZE. rewrite !w64_small; rewrite ?w64_small; lia. Qed.

(** The end of user space. *)
Definition USER_TOP : Z := 2 ^ 47.

Lemma page_off_user addr z k : addr mod PAGE_SIZE = 0 -> 0 <= addr -> 0 <= k -> addr + k * PAGE_SIZE <= USER_TOP -> 0 <= z < USER_TOP ->
  page_off addr z < k <-> addr <= z < addr + k * PAGE_SIZE.
Proof.
  intros Ha H0 Hk Ht Hz. unfold page_off, USER_TOP, PAGE_SIZE in *. set (q := z / 4096 - addr / 4096).
  assert (-2 ^ 35 <= q < 2 ^ 35) as Hq by (unfold q; Z.div_mod_to_equations; lia).
  destruct (Z.lt_ge_cases q 0).
  - replace (q mod 2 ^ 36) with (q + 2 ^ 36) by (rewrite <-(Z.mod_add q 1), Z.mod_small; lia). unfold q in *. split; Z.div_mod_to_equations; lia.
  - rewrite Z.mod_small by lia. unfold q in *. split; Z.div_mod_to_equations; lia.
Qed.

Lemma page_off_exact addr z k : addr mod PAGE_SIZE = 0 -> 0 <= addr -> addr + k * PAGE_SIZE <= USER_TOP -> addr <= z < addr + k * PAGE_SIZE ->
  page_off addr z = (z - addr) / PAGE_SIZE.
Proof.
  intros Ha H0 Ht Hz. unfold page_off, USER_TOP, PAGE_SIZE in *. rewrite Z.mod_small by (Z.div_mod_to_equations; lia). Z.div_mod_to_equations. lia.
Qed.

Lemma user_same_page z z' : 0 <= z < USER_TOP -> 0 <= z' < USER_TOP -> same_page z z' <-> z / PAGE_SIZE = z' / PAGE_SIZE.
Proof. intros Hz Hz'. unfold same_page, USER_TOP, PAGE_SIZE in *. rewrite !Z.mod_small by (Z.div_mod_to_equations; lia). done. Qed.

(** The [k] frames from [x] on held no data, are apart from the tables under
    [root] and are cleared. *)
Record backs (D : Z -> bool) (v' : vmm F) (root k x : Z) : Prop := {
  bk_fresh : 0 < x /\ x + k <= 2 ^ 28 /\ forall y, x <= y < x + k -> D y = false;
  bk_pages : pages_ok (with_run D x k) v' root;
  bk_zero : forall y i, x <= y < x + k -> 0 <= i < 512 -> rd (mem v') (y * PAGE_SIZE + 8 * i) = 0;
}.

(** The pages are mapped, and no other translation has changed. *)
Definition mapped (v v' : vmm F) (root addr k flags x : Z) : Prop := forall z, walk (mem v') root z =
  if decide (page_off addr z < k) then Some (leaf_entry ((x + page_off addr z) * PAGE_SIZE) (vmm_opts flags)) else walk (mem v) root z.

(** There were no frames for the tables: a part of the pages has been mapped
    and unmapped again, and no other translation has changed. *)
Definition rolled_back (v v' : vmm F) (root addr k : Z) : Prop := exists j, 0 <= j < k /\ forall z, walk (mem v') root z =
  if decide (page_off addr z < j) then None else walk (mem v) root z.

Lemma back_spec D v h root addr k flags x :
  pages_ok (with_run D x k) v root -> 0 < x -> 0 < k -> (forall y, x <= y < x + k -> D y = false) -> addr + k * PAGE_SIZE <= USER_TOP -> 0 <= addr ->
  exists v', back_env root addr (x * PAGE_SIZE) (k * PAGE_SIZE) flags (v, h) = Ok (tt, (v', h)) /\
    backs D v' root k x /\ (mapped v v' root addr k flags x \/ (~ enough_for v (k * PAGE_SIZE) /\ rolled_back v v' root addr k)).
Proof.
  intros Hp Hx Hk Hfr Ht Ha. assert (forall y, x <= y < x + k -> with_run D x k y = true) as HD by (intros y Hy; unfold with_run; apply orb_true_iff; right; lia).
  assert (x + k <= 2 ^ 28) as Hb.
  { destruct (pages_alloc _ _ _ Hp) as [_ Hin]. destruct (Hin (x + k - 1) (HD (x + k - 1) ltac:(lia))) as [Hr _]. pose proof (vok_frames _ _ (po_vmm _ _ _ Hp)) as Hf.
    cbn [fa_frames reserved] in Hf. unfold PAGE_SIZE in Hf. lia. }
  destruct (map_range_pages _ v root addr (x * PAGE_SIZE) k (vmm_opts flags) Hp) as (v1 & E1 & Hp1 & Hk1 & Hw1); [lia|unfold USER_TOP, HHDM_OFFSET, PAGE_SIZE in *; lia|].
  destruct (cleared_pages _ v1 root (seqZ x k) Hp1) as [Hp2 Hw2]; [intros y Hy%elem_of_seqZ; apply HD; lia|].
  set (v2 := set_mem (cleared (mem v1) (seqZ x k)) v1) in *. exists v2. split; [|split].
  - unfold back_env. cbn [env_get_table env_map_range env_zero page_env].
    rewrite (bind_ok _ _ _ (tbl v root) (v, h)) by done. rewrite (bind_ok _ _ _ tt (v1, h)) by (unfold on_pages; cbn [fst snd]; by rewrite E1).
    unfold on_pages. cbn [fst snd]. rewrite zero_pages_run; [done|apply Hp1|lia..].
  - split; [done|done|]. intros y i Hy Hi. unfold v2. cbn [mem set_mem]. apply rd_cleared_in; [|done]. apply elem_of_seqZ. lia.
  - destruct Hw1 as [Hw1|(Hno & j & Hj & Hw1)]; [left|right; split; [done|]; exists j; split; [done|]]; intros z; rewrite Hw2, Hw1; [|done].
    destruct (decide (page_off addr z < k)); [|done]. by rewrite page_at_run by (pose proof (page_off_range addr z); lia).
Qed.
(** ** The invariant *)

(** The address space of a task: its areas are well formed, its page tables and
    the data [D] do not meet, its descriptors are live, and every accessible
    address has a user page of its own, writable as the area says, in a frame of
    [D]. *)
Record task_space (D : Z -> bool) (v : vmm F) (h : H) (s : mm) (t : tree) (l : list Z) : Prop := {
  ts_space : space s t l;
  ts_pages : pages_ok D v (t_cr3 s);
  ts_live : forall a, is_Some (areas s !! a) -> dh_live h a;
  ts_user : forall x f, access s l x f -> 0 <= x < USER_TOP;
  ts_backed : forall x f, access s l x f -> exists e, walk (mem v) (t_cr3 s) x = Some e /\ user_entry e f /\ 0 < frame_of e /\ D (frame_of e) = true;
  ts_apart : forall x f x' f' e e', access s l x f -> access s l x' f' -> walk (mem v) (t_cr3 s) x = Some e -> walk (mem v) (t_cr3 s) x' = Some e' ->
    frame_of e = frame_of e' -> x / PAGE_SIZE = x' / PAGE_SIZE;
}.

(** An area space whose translations are the same. *)
Lemma ts_same D v v' h h' s t l :
  task_space D v h s t l -> pages_ok D v' (t_cr3 s) -> mem v' = mem v -> (forall a, dh_live h a -> dh_live h' a) -> task_space D v' h' s t l.
Proof. intros [A C E G I J] Hp Em Hl. split; try done; rewrite ?Em; auto. Qed.

(** The range that was opened has its pages. *)
Lemma ts_opened D v v' h h' s s' t t' l l' addr k flags x :
  task_space D v h s t l -> space s' t' l' -> t_cr3 s' = t_cr3 s -> (forall a, is_Some (areas s' !! a) -> dh_live h' a) ->
  opened s l s' l' addr (k * PAGE_SIZE) flags -> unused s l addr (addr + k * PAGE_SIZE) ->
  0 <= addr -> addr mod PAGE_SIZE = 0 -> 0 < k -> addr + k * PAGE_SIZE <= USER_TOP ->
  backs D v' (t_cr3 s) k x -> mapped v v' (t_cr3 s) addr k flags x -> task_space (with_run D x k) v' h' s' t' l'.
Proof.
  intros [A C E G I J] Hsp Hc Hl Ho Hun H0 Ha Hk Ht [(Hx & Hxk & Hfr) Hp Hz] Hm.
  assert (forall z f, access s' l' z f -> 0 <= z < USER_TOP) as HU by (intros z f [Hz'|[Hz' _]]%Ho; [by apply (G z f)|lia]).
  assert (forall z f, access s l z f -> ~ addr <= z < addr + k * PAGE_SIZE) as Hout.
  { intros z f (a & y & Hal & Hy & Hzy & _) Hzr. specialize (Hun a Hal). unfold start_of, end_of in Hun. rewrite Hy in Hun. simpl in Hun. lia. }
  assert (forall z f, access s l z f -> walk (mem v') (t_cr3 s) z = walk (mem v) (t_cr3 s) z) as Hold.
  { intros z f Hzf. rewrite Hm, decide_False; [done|]. rewrite page_off_user; [by apply (Hout z f)|done|done|lia|done|by apply (G z f)]. }
  assert (forall z, addr <= z < addr + k * PAGE_SIZE -> let y := x + (z - addr) / PAGE_SIZE in
    x <= y < x + k /\ walk (mem v') (t_cr3 s) z = Some (leaf_entry (y * PAGE_SIZE) (vmm_opts flags))) as Hnew.
  { intros z Hzr y. split; [unfold y, PAGE_SIZE in *; Z.div_mod_to_equations; lia|]. unfold y.
    rewrite Hm, decide_True; [|by rewrite page_off_user by (done || lia)]. by rewrite (page_off_exact addr z k). }
  assert (forall z f, access s' l' z f -> (access s l z f /\ walk (mem v') (t_cr3 s) z = walk (mem v) (t_cr3 s) z) \/
    exists y, y = x + (z - addr) / PAGE_SIZE /\ addr <= z /\ x <= y < x + k /\ f = flags /\ walk (mem v') (t_cr3 s) z = Some (leaf_entry (y * PAGE_SIZE) (vmm_opts flags))) as Hcase.
  { intros z f [Hzf|[Hzr ->]]%Ho; [left; split; [done|by apply (Hold z f)]|right]. destruct (Hnew z Hzr) as [H1 H2]. eexists. split_and!; [done|lia|lia|lia|done|done]. }
  split; [done|by rewrite Hc|done|done| |].
  - intros z f Hzf. rewrite Hc. destruct (Hcase z f Hzf) as [[Hzo ->]|(y & _ & _ & Hy & -> & ->)].
    + destruct (I z f Hzo) as (e & He & Hu & Hp0 & HD). exists e. split_and!; try done. unfold with_run. by rewrite HD.
    + destruct (user_leaf y flags ltac:(lia)) as [Hu Ef]. eexists. split; [done|]. rewrite Ef. split_and!; [done|lia|]. unfold with_run. apply orb_true_iff. right. lia.
  - intros z f z' f' e e' Hzf Hzf'. rewrite Hc. intros He He' Eff.
    assert (forall z f e, access s l z f -> walk (mem v) (t_cr3 s) z = Some e -> D (frame_of e) = true) as HDo.
    { intros w g e0 Hw Hwe. destruct (I w g Hw) as (e1 & He1 & _ & _ & HD). congruence. }
    destruct (Hcase z f Hzf) as [[Hzo Ew]|(y & Ey & Hza & Hy & -> & Ew)], (Hcase z' f' Hzf') as [[Hzo' Ew']|(y' & Ey' & Hza' & Hy' & -> & Ew')]; rewrite Ew in He; rewrite Ew' in He'.
    + by apply (J z f z' f' e e').
    + injection He' as <-. destruct (user_leaf y' flags ltac:(lia)) as [_ Ef]. rewrite Ef in Eff. pose proof (HDo z f e Hzo He) as Hd. rewrite Eff, Hfr in Hd by lia. done.
    + injection He as <-. destruct (user_leaf y flags ltac:(lia)) as [_ Ef]. rewrite Ef in Eff. pose proof (HDo z' f' e' Hzo' He') as Hd. rewrite <-Eff, Hfr in Hd by lia. done.
    + injection He as <-. injection He' as <-. destruct (user_leaf y flags ltac:(lia)) as [_ Ef], (user_leaf y' flags ltac:(lia)) as [_ Ef']. rewrite Ef, Ef' in Eff.
      unfold PAGE_SIZE in *. Z.div_mod_to_equations. lia.
Qed.
(** ** The calls of [vma_map] *)

Lemma on_desc_run {A} (m : M H A) v h a h' : m h = Ok (a, h') -> on_desc m (v, h) = Ok (a, (v, h')).
Proof. intros E. unfold on_desc. cbn [fst snd]. by rewrite E. Qed.
Lemma on_pages_run {A} (m : M (vmm F) A) v h a v' : m v = Ok (a, v') -> on_pages m (v, h) = Ok (a, (v', h)).
Proof. intros E. unfold on_pages. cbn [fst snd]. by rewrite E. Qed.

(** Why a mapping fails: the frame allocator has no run of [k] frames; the heap
    has no block for a descriptor; or, with the [k] frames taken, the frame
    allocator cannot deliver the three tables that each page may need. *)
Definition no_frames (v : vmm F) (k : Z) : Prop := exists v1, pmm_call (fa_alloc_n k) v = Ok (NULL, v1).
Definition no_descriptor (h : H) : Prop := exists h0 h1, dh_lock h = Ok (tt, h0) /\ dh_kmalloc sizeof_vma_area h0 = Ok (NULL, h1).
Definition no_tables (v : vmm F) (k : Z) : Prop := exists r v1, pmm_call (fa_alloc_n k) v = Ok (r, v1) /\ ~ enough_for v1 (k * PAGE_SIZE).

(** The frames are taken and mapped, or there are none for the tables. *)
Definition range_done (D : Z -> bool) (v v' : vmm F) (root addr k flags : Z) : Prop :=
  exists x, backs D v' root k x /\ (mapped v v' root addr k flags x \/ (no_tables v k /\ rolled_back v v' root addr k)).

Lemma range_spec D v h root addr k flags :
  pages_ok D v root -> 0 < k -> 0 <= addr -> addr + k * PAGE_SIZE <= USER_TOP ->
  exists phys v1, pmm_call (fa_alloc_n k) v = Ok (phys, v1) /\
    ((phys = NULL /\ pages_ok D v1 root /\ mem v1 = mem v) \/
     (phys <> NULL /\ exists v2, back_env root addr phys (k * PAGE_SIZE) flags (v1, h) = Ok (tt, (v2, h)) /\ range_done D v v2 root addr k flags)).
Proof.
  intros Hp Hk H0 Ht. destruct (alloc_pages D v root k Hp) as (phys & v1 & E & Em & Ek & Hr); [unfold USER_TOP, PAGE_SIZE in *; lia|].
  exists phys, v1. split; [done|]. destruct Hr as [[-> Hp1]|(x & -> & Hx & _ & Hfr & Hp1)]; [by left|right]. split; [unfold NULL, PAGE_SIZE; lia|].
  destruct (back_spec D v1 h root addr k flags x Hp1 Hx Hk Hfr Ht H0) as (v2 & Eb & [B1 B2 B3] & Hm). exists v2. split; [done|]. exists x.
  split; [done|]. unfold mapped, rolled_back in *. rewrite Em in Hm. destruct Hm as [Hm|[Hno Hm]]; [by left|right].
  split; [|done]. by exists (x * PAGE_SIZE), v1.
Qed.

Lemma expand_env_spec D v h root addr k flags :
  pages_ok D v root -> 0 < k -> 0 <= addr -> addr + k * PAGE_SIZE <= USER_TOP ->
  exists r v' h', expand_env root addr (k * PAGE_SIZE) flags (v, h) = Ok (r, (v', h')) /\ (forall a, dh_live h' a <-> dh_live h a) /\
    ((r = -1 /\ no_frames v k /\ pages_ok D v' root /\ mem v' = mem v) \/ (r = 0 /\ range_done D v v' root addr k flags)).
Proof.
  intros Hp Hk H0 Ht. destruct (dh_lock_spec h) as (h1 & E1 & L1), (dh_unlock_spec h1) as (h2 & E2 & L2).
  destruct (range_spec D v h1 root addr k flags Hp Hk H0 Ht) as (phys & v1 & E3 & Hr).
  assert (forall a, dh_live h2 a <-> dh_live h a) as Hl by (intros a; by rewrite L2, L1).
  unfold expand_env. cbn [env_lock env_unlock env_alloc_frames page_env]. rewrite (bind_ok _ _ _ _ _ (on_desc_run _ _ _ _ _ E1)).
  change 4096 with PAGE_SIZE. rewrite Z.div_mul, (bind_ok _ _ _ _ _ (on_pages_run _ _ _ _ _ E3)) by done.
  destruct Hr as [(-> & Hp1 & Em)|(Hn & v2 & E4 & Hd)].
  - exists (-1), v1, h2. rewrite Z.eqb_refl, (bind_ok _ _ _ _ _ (on_desc_run _ _ _ _ _ E2)). split_and!; [done|done|]. left. split_and!; [done|by exists v1|done|done].
  - exists 0, v2, h2. rewrite (proj2 (Z.eqb_neq _ _)), (bind_ok _ _ _ _ _ E4), (bind_ok _ _ _ _ _ (on_desc_run _ _ _ _ _ E2)) by done. split_and!; [done|done|by right].
Qed.

Lemma new_env_spec D v h root addr k flags :
  pages_ok D v root -> 0 < k -> 0 <= addr -> addr + k * PAGE_SIZE <= USER_TOP ->
  exists r a v' h', new_env root addr (k * PAGE_SIZE) flags (v, h) = Ok (r, a, (v', h')) /\ (a <> NULL -> ~ dh_live h a) /\ (forall b, dh_live h b -> dh_live h' b) /\
    ((((r = -3 /\ no_descriptor h) \/ (r = -4 /\ no_frames v k)) /\ pages_ok D v' root /\ mem v' = mem v) \/ (r = 0 /\ dh_live h' a /\ range_done D v v' root addr k flags)).
Proof.
  intros Hp Hk H0 Ht. destruct (dh_lock_spec h) as (h1 & E1 & L1), (dh_kmalloc_spec sizeof_vma_area h1) as (a & h2 & E2 & L2).
  unfold new_env. cbn [env_lock env_unlock env_kmalloc env_kfree env_alloc_frames page_env].
  rewrite (bind_ok _ _ _ _ _ (on_desc_run _ _ _ _ _ E1)), (bind_ok _ _ _ _ _ (on_desc_run _ _ _ _ _ E2)).
  destruct L2 as [(-> & L2)|(Ha & Hna & L2)].
  { destruct (dh_unlock_spec h2) as (h3 & E3 & L3). exists (-3), NULL, v, h3. rewrite Z.eqb_refl, (bind_ok _ _ _ _ _ (on_desc_run _ _ _ _ _ E3)).
    split_and!; [done|done|intros b; by rewrite L3, L2, L1|]. left. split_and!; [left; split; [done|by exists h1, h2]|done|done]. }
  destruct (range_spec D v h2 root addr k flags Hp Hk H0 Ht) as (phys & v1 & E3 & Hr). rewrite (proj2 (Z.eqb_neq _ _)) by done.
  change 4096 with PAGE_SIZE. rewrite Z.div_mul, (bind_ok _ _ _ _ _ (on_pages_run _ _ _ _ _ E3)) by done. rewrite L1 in Hna.
  destruct Hr as [(-> & Hp1 & Em)|(Hn & v2 & E4 & Hd)].
  - destruct (dh_kfree_spec a h2) as (h3 & E5 & L5), (dh_unlock_spec h3) as (h4 & E6 & L6). exists (-4), a, v1, h4.
    rewrite Z.eqb_refl, (bind_ok _ _ _ _ _ (on_desc_run _ _ _ _ _ E5)), (bind_ok _ _ _ _ _ (on_desc_run _ _ _ _ _ E6)). split_and!; [done|done| |].
    + intros b Hb. rewrite L6, L5, L2, L1. split; [by left|]. by intros ->.
    + left. split_and!; [right; split; [done|by exists v1]|done|done].
  - destruct (dh_unlock_spec h2) as (h3 & E5 & L5). exists 0, a, v2, h3.
    rewrite (proj2 (Z.eqb_neq _ _)), (bind_ok _ _ _ _ _ E4), (bind_ok _ _ _ _ _ (on_desc_run _ _ _ _ _ E5)) by done.
    split_and!; [done|done| |]; [intros b Hb; rewrite L5, L2, L1; by left|]. right. split_and!; [done| |done]. rewrite L5, L2. by right.
Qed.
(** ** Mapping *)

(** How [vma_map] of [k] pages at [addr] ends. *)
Definition map_outcome (D : Z -> bool) (v v' : vmm F) (h h' : H) (s s' : mm) (t : tree) (l : list Z) (addr k flags r : Z) : Prop :=
  (((r = -3 /\ no_descriptor h) \/ ((r = -1 \/ r = -4) /\ no_frames v k)) /\ s' = s /\ task_space D v' h' s t l) \/
  (r = 0 /\ exists x t' l', backs D v' (t_cr3 s) k x /\ space s' t' l' /\ root_color t' = VMA_BLACK /\ opened s l s' l' addr (k * PAGE_SIZE) flags /\
     ((mapped v v' (t_cr3 s) addr k flags x /\ task_space (with_run D x k) v' h' s' t' l') \/ (no_tables v k /\ rolled_back v v' (t_cr3 s) addr k))).

Lemma outcome_done D v v' h h' s s' t t' l l' addr k flags :
  task_space D v h s t l -> range_done D v v' (t_cr3 s) addr k flags -> space s' t' l' -> root_color t' = VMA_BLACK -> t_cr3 s' = t_cr3 s ->
  (forall a, is_Some (areas s' !! a) -> dh_live h' a) -> opened s l s' l' addr (k * PAGE_SIZE) flags -> unused s l addr (addr + k * PAGE_SIZE) ->
  0 <= addr -> addr mod PAGE_SIZE = 0 -> 0 < k -> addr + k * PAGE_SIZE <= USER_TOP -> map_outcome D v v' h h' s s' t l addr k flags 0.
Proof.
  intros Hts (x & Hb & Hm) Hsp Hbl Hc Hlv Ho Hun H0 Ha Hk Ht. right. split; [done|]. exists x, t', l'. split_and!; [done|done|done|done|].
  destruct Hm as [Hm|Hm]; [left; split; [done|]|by right]. by apply (ts_opened D v v' h h' s s' t t' l l' addr k flags x).
Qed.

Lemma vma_map_run D v h s t l addr len flags :
  let n := PAGE_ALIGN_UP len in
  task_space D v h s t l -> root_color t = VMA_BLACK -> 0 <= addr -> addr mod PAGE_SIZE = 0 -> 0 < len < 2 ^ 47 -> addr + n <= USER_TOP -> unused s l addr (addr + n) ->
  exists r v' h' s', vma_map addr len flags ((v, h), s) = Ok (r, ((v', h'), s')) /\ map_outcome D v v' h h' s s' t l addr (n / PAGE_SIZE) flags r.
Proof.
  intros n Hts Hbl H0 Ha Hl Ht Hun. pose proof Hts as [Hsp Hp Hlv _ _ _].
  destruct (page_align_up_bounds len) as [Hal Hn]; [lia|]. fold n in Hal, Hn. set (k := n / PAGE_SIZE) in *.
  assert (n = k * PAGE_SIZE) as En by (unfold k, PAGE_SIZE in *; Z.div_mod_to_equations; lia).
  assert (0 < k) as Hk by (unfold PAGE_SIZE in *; lia). assert (addr + n < 2 ^ 64) as Hw by (unfold USER_TOP in Ht; lia).
  destruct (dh_lock_spec h) as (h0 & E0 & _). assert (env_lock (v, h) = Ok (tt, (v, h0))) as Elock by exact (on_desc_run _ v _ _ _ E0).
  destruct (map_ways s t l (v, h) (v, h0) addr len flags Hsp H0 Ha ltac:(lia) ltac:(fold n; lia) Hw Elock) as [(c & y & Hc & Hy & Hend & Hfl & Er)|[(_ & ? & _)|(_ & _ & Er)]];
    [|done|]; fold n in Er; rewrite Er; clear Er; rewrite En in *.
  - destruct (expand_env_spec D v h (t_cr3 s) addr k flags Hp Hk H0 Ht) as (r & v' & h' & E & Hlive & Hr).
    destruct (expand_run s (v, h) (v, h0) r (v', h') c y addr (k * PAGE_SIZE) flags Hy Hend H0 ltac:(lia) Hw Elock E) as [-> Hr'].
    eexists r, v', h', _. split; [done|]. destruct Hr as [(-> & Hno & Hp' & Em)|(-> & Hd)].
    + left. rewrite decide_False by done. split_and!; [right; split; [by left|done]|done|]. apply (ts_same D v v' h h'); try done. intros a. by rewrite Hlive.
    + rewrite decide_True by done. rewrite <-Hend in Hun. destruct (widen_space s t l c y (k * PAGE_SIZE) Hsp Hc Hy ltac:(lia) Hun) as [Hs' Ho']. rewrite Hend, Hfl in *.
      apply (outcome_done D v v' h h' s _ t t l l); try done. intros a Hs. apply Hlive, Hlv. rewrite with_end_lookup in Hs. case_decide; [|done]. by apply fmap_is_Some in Hs.
  - destruct (new_env_spec D v h (t_cr3 s) addr k flags Hp Hk H0 Ht) as (r & a & v' & h' & E & Hfresh & Hlive & Hr).
    assert (a <> NULL -> areas s !! a = None) as Hna.
    { intros Ha0. destruct (areas s !! a) eqn:Ea; [|done]. destruct (Hfresh Ha0). apply Hlv. by rewrite Ea. }
    destruct (new_run s t l (v, h) (v, h0) r a (v', h') addr (k * PAGE_SIZE) flags Hsp Hbl Hna H0 ltac:(lia) Hw Hun Elock E) as (s' & -> & Hc & Hdom & Hok & Hfail).
    exists r, v', h', s'. split; [done|]. destruct Hr as [(Hr0 & Hp' & Em)|(-> & Hla & Hd)].
    + left. assert (r <> 0) as Hr1 by (destruct Hr0 as [[-> _]|[-> _]]; done). destruct (Hfail Hr1) as [_ ->].
      split_and!; [destruct Hr0 as [?|[? ?]]; [by left|right; split; [by right|done]]|done|]. by apply (ts_same D v v' h h').
    + destruct (Hok eq_refl) as (Ha0 & t' & Hs' & Hb' & _ & Ho). apply (outcome_done D v v' h h' s s' t t' l (a :: l)); try done.
      intros b [->|Hs]%Hdom; [done|]. by apply Hlive, Hlv.
Qed.

(** ** Giving pages back *)

(** The frames [ys] no longer hold data. *)
Definition without (D : Z -> bool) (y u : Z) : bool := D u && negb (u =? y).
Definition lose (D : Z -> bool) (ys : list Z) : Z -> bool := fold_left without ys D.

Lemma lose_spec ys D u : lose D ys u = D u && negb (bool_decide (u ∈ ys)).
Proof.
  revert D. induction ys as [|y ys IH]; intros D; [by rewrite bool_decide_false, andb_true_r by apply not_elem_of_nil|].
  change (lose (without D y) ys u = D u && negb (bool_decide (u ∈ y :: ys))). rewrite IH. unfold without. rewrite <-andb_assoc. f_equal.
  rewrite <-negb_orb. f_equal. apply eq_true_iff_eq. rewrite orb_true_iff, !bool_decide_eq_true, Z.eqb_eq, elem_of_cons. done.
Qed.

Lemma frame_of_addr e : Z.land e VMM_ADDR_MASK = frame_of e * PAGE_SIZE /\ 0 <= Z.land e VMM_ADDR_MASK < 2 ^ 40.
Proof.
  assert (Z.land e VMM_ADDR_MASK = Z.shiftl (Z.land (Z.shiftr e 12) (Z.ones 28)) 12) as E.
  { change VMM_ADDR_MASK with (Z.shiftl (Z.ones 28) 12). apply Z.bits_inj'. intros n Hn. rewrite Z.land_spec, !Z.shiftl_spec by done.
    destruct (Z.lt_ge_cases n 12); [rewrite (Z.testbit_neg_r (Z.ones 28)), (Z.testbit_neg_r (Z.land _ _)) by lia; apply andb_false_r|].
    rewrite Z.land_spec, Z.shiftr_spec by lia. do 2 f_equal. lia. }
  unfold frame_of. rewrite E, Z.land_ones, Z.shiftl_mul_pow2 by lia. change (2 ^ 12) with PAGE_SIZE. rewrite Z.div_mul by done. split; [done|].
  pose proof (Z.mod_pos_bound (Z.shiftr e 12) (2 ^ 28)). unfold PAGE_SIZE. lia.
Qed.

Lemma page_call {A} D (m : M (vmm F) A) v root a v' : pages_ok D v root -> @returns F (reserved D) A m v root a v' -> m v = Ok (a, v') /\ pages_ok D v' root /\ kernel_pml4 v' = kernel_pml4 v.
Proof. intros [_ _ Hk Hz] (E & R1 & R2 & _ & R4). split; [done|]. split; [|done]. split; [done|done|by rewrite R4|done]. Qed.

(** One page: its translation is gone and its frame is free. *)
Lemma release_step D v h root z e :
  pages_ok D v root -> 0 <= z < USER_TOP -> z mod PAGE_SIZE = 0 -> walk (mem v) root z = Some e -> D (frame_of e) = true -> 0 < frame_of e ->
  exists v', release_env (tbl v root) z (v, h) = Ok (tt, (v', h)) /\ pages_ok (without D (frame_of e)) v' root /\ kernel_pml4 v' = kernel_pml4 v /\
    (forall x, 0 <= x < USER_TOP -> walk (mem v') root x = if decide (z <= x < z + PAGE_SIZE) then None else walk (mem v) root x) /\
    (forall y, fa_used (v_alloc v') y = fa_used (v_alloc v) y && negb (y =? frame_of e)).
Proof.
  intros Hp Hz Hal He HD H0. destruct (frame_of_addr e) as [Ee Hb]. set (y0 := frame_of e) in *. pose proof (vmm_translation_is_walk v root z (pages_real D v root Hp)) as Et.
  rewrite He, Hal, Z.add_0_r, w64_small, Ee in Et by lia.
  destruct (@vmm_unmap_correct F (reserved D) (reserved_ok D) v root z (po_vmm _ _ _ Hp) (po_lock _ _ _ Hp)) as (v1 & Hr & Hw & Hu & _).
  destruct (page_call D _ v root tt v1 Hp Hr) as (Eu & Hp1 & Hk1). destruct (pages_alloc _ _ _ Hp) as [_ HDu], (pages_alloc _ _ _ Hp1) as [Ha1 HDu1].
  assert (forall y, fa_used (v_alloc v1) y = fa_used (v_alloc v) y) as Hu1.
  { intros y. specialize (Hu y). cbn in Hu. destruct (D y) eqn:Ed; [|by rewrite !andb_true_r in Hu]. destruct (HDu y Ed) as [_ ->], (HDu1 y Ed) as [_ ->]. done. }
  assert (y0 * PAGE_SIZE / PAGE_SIZE = y0) as Ey by (by apply Z.div_mul).
  destruct (proj1 (wp_ok _ _ _) (fa_free_spec (v_alloc v1) (y0 * PAGE_SIZE) Ha1 ltac:(rewrite Ey; by apply HDu1))) as ([] & f' & Ef & Ha' & _ & Hfr & Hu').
  rewrite Ey in Hu'. rewrite (proj2 (Z.eqb_neq (y0 * PAGE_SIZE) NULL)) in Hu' by (unfold NULL, PAGE_SIZE; lia).
  exists (set_alloc f' v1). split_and!; [| |done| |].
  - unfold release_env. cbn [env_translate env_unmap env_free_frame page_env]. rewrite (bind_ok _ _ _ _ _ (on_pages_run _ _ _ _ _ Et)).
    rewrite (proj2 (Z.eqb_neq _ _)) by (unfold PAGE_SIZE; lia). cbn [negb when]. rewrite (bind_ok _ _ _ _ _ (on_pages_run _ _ _ _ _ Eu)). apply on_pages_run.
    unfold pmm_call. by rewrite Ef.
  - destruct Hp1 as [[_ Hf Ht] Hl Hh Hz0]. split; [|done|done|unfold without; rewrite Hz0; lia]. split; [|cbn in *; by rewrite Hfr|].
    + split; [done|]. unfold without. intros y [Hy Hne]%andb_true_iff. cbn. rewrite Hfr, Hu', Hne. by apply HDu1.
    + eapply agree_pt_ok; [by intros q t i|..|exact Ht]. intros y. unfold owned, without. cbn. rewrite Hfr, Hu', !andb_true_iff, !negb_true_iff. intros (? & Hus & Hnd).
      destruct (Z.eqb_spec y y0) as [->|]; [congruence|]. by rewrite Hnd.
  - intros x Hx. cbn. rewrite Hw. assert (same_page x z <-> z <= x < z + PAGE_SIZE) as Hsp; [|by repeat case_decide; tauto].
    rewrite user_same_page by done. unfold PAGE_SIZE in *. split; Z.div_mod_to_equations; lia.
  - intros y. cbn. rewrite Hu', Hu1. apply andb_comm.
Qed.

(** The frame [y] of [D] is behind the page at [z]. *)
Definition page_frame (D : Z -> bool) (v : vmm F) (root z y : Z) : Prop :=
  exists e, walk (mem v) root z = Some e /\ frame_of e = y /\ 0 < y /\ D y = true.

Lemma steps_range n a z : z ∈ steps n a PAGE_SIZE -> a <= z < a + Z.of_nat n * PAGE_SIZE /\ z mod PAGE_SIZE = a mod PAGE_SIZE.
Proof.
  revert a. induction n as [|n IH]; intros a; [by intros ?%not_elem_of_nil|]. cbn [steps].
  intros [->|Hz]%elem_of_cons; [unfold PAGE_SIZE; lia|]. apply IH in Hz as [? Hm]. rewrite Hm. unfold PAGE_SIZE in *. split; [lia|]. Z.div_mod_to_equations. lia.
Qed.

(** The loop over the pages of a range *)
Lemma release_pages root h n : forall D v a ys,
  pages_ok D v root -> 0 <= a -> a mod PAGE_SIZE = 0 -> a + Z.of_nat n * PAGE_SIZE <= USER_TOP ->
  Forall2 (page_frame D v root) (steps n a PAGE_SIZE) ys -> NoDup ys ->
  exists v', mapM_ (release_env (tbl v root)) (steps n a PAGE_SIZE) (v, h) = Ok (tt, (v', h)) /\ pages_ok (lose D ys) v' root /\ kernel_pml4 v' = kernel_pml4 v /\
    (forall x, 0 <= x < USER_TOP -> walk (mem v') root x = if decide (a <= x < a + Z.of_nat n * PAGE_SIZE) then None else walk (mem v) root x) /\
    (forall y, fa_used (v_alloc v') y = fa_used (v_alloc v) y && negb (bool_decide (y ∈ ys))).
Proof.
  induction n as [|n IH]; intros D v a ys Hp H0 Ha Ht Hys Hnd.
  { apply Forall2_nil_inv_l in Hys as ->. exists v. split_and!; [done|done|done| |].
    - intros x _. by rewrite decide_False by lia.
    - intros y. rewrite bool_decide_false by apply not_elem_of_nil. by rewrite andb_true_r. }
  cbn [steps] in *. apply Forall2_cons_inv_l in Hys as (y & ys' & (e & He & <- & Hy0 & HyD) & Hys & ->). apply NoDup_cons in Hnd as [Hnin Hnd].
  assert (0 <= a < USER_TOP) as Hau by (unfold PAGE_SIZE in *; lia).
  destruct (release_step D v h root a e Hp Hau Ha He HyD Hy0) as (v1 & E1 & Hp1 & Hk1 & Hw1 & Hu1).
  destruct (IH (without D (frame_of e)) v1 (a + PAGE_SIZE) ys' Hp1) as (v2 & E2 & Hp2 & Hk2 & Hw2 & Hu2); [unfold PAGE_SIZE in *; lia| |unfold PAGE_SIZE in *; lia| |done|].
  { unfold PAGE_SIZE in *. Z.div_mod_to_equations. lia. }
  { apply Forall2_same_length_lookup. apply Forall2_same_length_lookup in Hys as [El Hys]. split; [done|]. intros i z y Hz Hy.
    destruct (Hys i z y Hz Hy) as (e' & He' & Efr & Hpos & HD). pose proof (steps_range n _ z (list_elem_of_lookup_2 _ _ _ Hz)) as [Hzr _].
    exists e'. rewrite Hw1 by (unfold PAGE_SIZE in *; lia). rewrite decide_False by lia. split_and!; [done|done|done|]. unfold without. rewrite HD.
    destruct (Z.eqb_spec y (frame_of e)) as [->|]; [|done]. destruct Hnin. by apply (list_elem_of_lookup_2 _ i). }
  exists v2. assert (tbl v1 root = tbl v root) as Et by (unfold tbl; by rewrite Hk1). rewrite Et in E2.
  split_and!; [by cbn [mapM_]; rewrite (bind_ok _ _ _ _ _ E1)|done|by rewrite Hk2| |].
  - intros x Hx. rewrite Hw2, Hw1 by done. unfold PAGE_SIZE. repeat case_decide; done || lia.
  - intros y. rewrite Hu2, Hu1, <-andb_assoc, <-negb_orb. do 2 f_equal. apply eq_true_iff_eq. rewrite orb_true_iff, !bool_decide_eq_true, Z.eqb_eq, elem_of_cons. done.
Qed.

(** The frames behind the pages of a range that is accessible *)
Lemma range_frames D v h s t l f n : forall a,
  task_space D v h s t l -> a mod PAGE_SIZE = 0 -> (forall z, a <= z < a + Z.of_nat n * PAGE_SIZE -> access s l z f) ->
  exists ys, Forall2 (page_frame D v (t_cr3 s)) (steps n a PAGE_SIZE) ys /\ NoDup ys.
Proof.
  induction n as [|n IH]; intros a Hts Ha Hacc; [by exists []; repeat constructor|].
  destruct (ts_backed _ _ _ _ _ _ Hts a f) as (e & He & _ & Hy0 & HyD); [apply Hacc; unfold PAGE_SIZE; lia|].
  destruct (IH (a + PAGE_SIZE) Hts) as (ys & Hys & Hnd); [unfold PAGE_SIZE in *; Z.div_mod_to_equations; lia|intros z Hz; apply Hacc; unfold PAGE_SIZE in *; lia|].
  exists (frame_of e :: ys). split; [constructor; [by exists e|done]|]. constructor; [|done]. intros [i Hi]%list_elem_of_lookup.
  destruct (Forall2_lookup_r _ _ _ _ _ Hys Hi) as (z & Hz & (e' & He' & Ef & _)). pose proof (steps_range n _ z (list_elem_of_lookup_2 _ _ _ Hz)) as [Hzr _].
  assert (a / PAGE_SIZE = z / PAGE_SIZE) as Eq.
  { apply (ts_apart _ _ _ _ _ _ Hts a f z f e e'); [apply Hacc; unfold PAGE_SIZE in *; lia..|done|done|done]. }
  unfold PAGE_SIZE in *. Z.div_mod_to_equations. lia.
Qed.

(** The space without the pages of a range *)
Lemma ts_shut D v v' h h' s s' t t' l l' a n f ys :
  task_space D v h s t l -> space s' t' l' -> t_cr3 s' = t_cr3 s -> (forall u, is_Some (areas s' !! u) -> dh_live h' u) ->
  shut s l s' l' a (a + Z.of_nat n * PAGE_SIZE) -> a mod PAGE_SIZE = 0 -> (forall z, a <= z < a + Z.of_nat n * PAGE_SIZE -> access s l z f) ->
  Forall2 (page_frame D v (t_cr3 s)) (steps n a PAGE_SIZE) ys -> pages_ok (lose D ys) v' (t_cr3 s) ->
  (forall x, 0 <= x < USER_TOP -> walk (mem v') (t_cr3 s) x = if decide (a <= x < a + Z.of_nat n * PAGE_SIZE) then None else walk (mem v) (t_cr3 s) x) ->
  task_space (lose D ys) v' h' s' t' l'.
Proof.
  intros Hts Hsp Hc Hl Hsh Ha Hacc Hys Hp Hw. pose proof Hts as [_ _ _ Hus Hb Hap].
  assert (forall x g, access s' l' x g -> access s l x g /\ ~ (a <= x < a + Z.of_nat n * PAGE_SIZE) /\ walk (mem v') (t_cr3 s) x = walk (mem v) (t_cr3 s) x) as Hold.
  { intros x g [Hx Hn]%Hsh. split_and!; [done|done|]. rewrite Hw by (by apply (Hus x g)). by rewrite decide_False. }
  split; [done|by rewrite Hc|done| | |]; rewrite ?Hc.
  - intros x g (Hx & _)%Hold. by apply (Hus x g).
  - intros x g (Hx & Hn & ->)%Hold. destruct (Hb x g Hx) as (e & He & Hu & H0 & HD). exists e. split_and!; [done|done..|].
    rewrite lose_spec, HD, bool_decide_false; [done|]. intros [i Hi]%list_elem_of_lookup.
    destruct (Forall2_lookup_r _ _ _ _ _ Hys Hi) as (z & Hz & (e' & He' & Ef & _)). pose proof (steps_range n _ z (list_elem_of_lookup_2 _ _ _ Hz)) as [Hzr Hzm].
    assert (x / PAGE_SIZE = z / PAGE_SIZE) as Eq by (apply (Hap x g z f e e'); auto).
    rewrite Ha in Hzm. apply Hn. unfold PAGE_SIZE in *. Z.div_mod_to_equations. lia.
  - intros x g x' g' e e' (Hx & _ & ->)%Hold (Hx' & _ & ->)%Hold. by apply (Hap x g x' g' e e').
Qed.

(** The whole of what an unmapping does to the environment *)
Lemma unmap_env_spec D v h root a n ys gone :
  pages_ok D v root -> 0 <= a -> a mod PAGE_SIZE = 0 -> a + Z.of_nat n * PAGE_SIZE <= USER_TOP ->
  Forall2 (page_frame D v root) (steps n a PAGE_SIZE) ys -> NoDup ys ->
  exists v' h', unmap_env root a (a + Z.of_nat n * PAGE_SIZE) gone (v, h) = Ok (tt, (v', h')) /\
    (forall u, dh_live h u -> gone <> Some u -> dh_live h' u) /\ pages_ok (lose D ys) v' root /\
    (forall x, 0 <= x < USER_TOP -> walk (mem v') root x = if decide (a <= x < a + Z.of_nat n * PAGE_SIZE) then None else walk (mem v) root x) /\
    (forall y, fa_used (v_alloc v') y = fa_used (v_alloc v) y && negb (bool_decide (y ∈ ys))).
Proof.
  intros Hp H0 Ha Ht Hys Hnd. destruct (dh_lock_spec h) as (h1 & E1 & L1).
  destruct (release_pages root h1 n D v a ys Hp H0 Ha Ht Hys Hnd) as (v1 & E2 & Hp1 & Hk1 & Hw1 & Hu1).
  assert (exists h2, match gone with Some u => env_kfree u | None => ret tt end (v1, h1) = Ok (tt, (v1, h2)) /\ forall u, dh_live h1 u -> gone <> Some u -> dh_live h2 u) as (h2 & E3 & L3).
  { destruct gone as [b|]; [|by exists h1]. destruct (dh_kfree_spec b h1) as (h2 & E3 & L3). exists h2. split; [exact (on_desc_run _ v1 _ _ _ E3)|].
    intros u Hu Hne. apply L3. split; congruence. }
  destruct (dh_unlock_spec h2) as (h3 & E4 & L4). exists (log_tlb SyncTlb v1), h3. split_and!; [|intros u Hu Hne; apply L4, L3; [by apply L1|done]| |done|done].
  - unfold unmap_env. cbn [env_lock env_unlock env_get_table env_sync_tlb page_env]. rewrite (bind_ok _ _ _ _ _ (on_desc_run _ v _ _ _ E1)).
    rewrite (bind_ok _ _ _ _ _ (on_pages_run _ v h1 _ _ (get_table_ok v root))).
    rewrite (bind_ok _ _ _ tt (v1, h1)).
    2: { rewrite (for_u64_eq n); [done|done|done|unfold PAGE_SIZE; lia|unfold USER_TOP, PAGE_SIZE in *; lia|]. unfold PAGE_SIZE. rewrite <-(Nat2Z.id n) at 1. f_equal. Z.div_mod_to_equations. lia. }
    rewrite (bind_ok _ _ _ _ _ E3). rewrite (bind_ok _ _ _ tt (log_tlb SyncTlb v1, h2)) by done. exact (on_desc_run _ (log_tlb SyncTlb v1) _ _ _ E4).
  - destruct Hp1 as [[A B C] Hl Hh Hz]. split; [split; [done|done|]|done..]. exact C.
Qed.

(** ** The properties *)

(** C17: [vma_map] of a free page-aligned range below the end of user space, on
    the page tables and frames of the machine, for a task whose tree has a black
    root. It returns in every case. It fails only when the heap has no block for
    a descriptor (-3) or the frame allocator has no run of frames as long as the
    range (-1, -4), and then leaves a good address space with the same areas.
    Otherwise the range, and nothing else, has become accessible with the flags of
    the call; the frames taken for it held no data, are apart from every table and
    are cleared; and every page of the range has such a frame of its own, the
    other translations are as they were and the address space is good again. The
    exception is a frame allocator that cannot deliver three tables for each
    page: then the call can report success although it has mapped no page, and
    has unmapped again those it began with. *)
Theorem vma_map_backs_range D v h s t l addr len flags :
  let n := PAGE_ALIGN_UP len in
  task_space D v h s t l -> root_color t = VMA_BLACK -> 0 <= addr -> addr mod PAGE_SIZE = 0 -> 0 < len < 2 ^ 47 -> addr + n <= USER_TOP -> unused s l addr (addr + n) ->
  exists r v' h' s', vma_map addr len flags ((v, h), s) = Ok (r, ((v', h'), s')) /\
    ((((r = -3 /\ no_descriptor h) \/ ((r = -1 \/ r = -4) /\ no_frames v (n / PAGE_SIZE))) /\ s' = s /\ task_space D v' h' s t l) \/
     (r = 0 /\ exists x t' l', backs D v' (t_cr3 s) (n / PAGE_SIZE) x /\ space s' t' l' /\ root_color t' = VMA_BLACK /\ opened s l s' l' addr n flags /\
        ((mapped v v' (t_cr3 s) addr (n / PAGE_SIZE) flags x /\ task_space (with_run D x (n / PAGE_SIZE)) v' h' s' t' l') \/
         (no_tables v (n / PAGE_SIZE) /\ rolled_back v v' (t_cr3 s) addr (n / PAGE_SIZE))))).
Proof.
  intros n Hts Hbl H0 Ha Hl Ht Hun. destruct (page_align_up_bounds len) as [Hal _]; [lia|]. fold n in Hal.
  assert (n / PAGE_SIZE * PAGE_SIZE = n) as En by (unfold PAGE_SIZE in *; Z.div_mod_to_equations; lia).
  destruct (vma_map_run D v h s t l addr len flags Hts Hbl H0 Ha Hl Ht Hun) as (r & v' & h' & s' & E & Ho).
  unfold map_outcome in Ho. fold n in Ho. rewrite En in Ho. by exists r, v', h', s'.
Qed.

(** C18: [vma_unmap] of the end of an area, or of all of it: it returns 0, the
    address space is good again and has become inaccessible in exactly the range,
    no page of the range is mapped, and the frames [ys] behind its pages, and no
    others, have been freed. *)
Theorem vma_unmap_releases_range D v h s t l addr len c y :
  task_space D v h s t l -> c ∈ l -> areas s !! c = Some y -> vm_start y <= addr -> addr mod PAGE_SIZE = 0 ->
  addr + len = vm_end y -> 0 < len -> len mod PAGE_SIZE = 0 ->
  exists v' h' s' t' l' ys, vma_unmap addr len ((v, h), s) = Ok (0, ((v', h'), s')) /\
    Forall2 (page_frame D v (t_cr3 s)) (steps (Z.to_nat (len / PAGE_SIZE)) addr PAGE_SIZE) ys /\ NoDup ys /\
    task_space (lose D ys) v' h' s' t' l' /\ shut s l s' l' addr (addr + len) /\
    (forall x, addr <= x < addr + len -> walk (mem v') (t_cr3 s) x = None) /\
    (forall u, fa_used (v_alloc v') u = fa_used (v_alloc v) u && negb (bool_decide (u ∈ ys))).
Proof.
  intros Hts Hc Hy Hst Ha He Hl Hlm. set (n := Z.to_nat (len / PAGE_SIZE)).
  assert (len = Z.of_nat n * PAGE_SIZE) as En by (unfold n, PAGE_SIZE in *; Z.div_mod_to_equations; lia).
  assert (forall z, addr <= z < addr + Z.of_nat n * PAGE_SIZE -> access s l z (vm_flags y)) as Hacc by (intros z Hz; exists c, y; split_and!; [done|done|lia|lia|done]).
  destruct (range_frames D v h s t l (vm_flags y) n addr Hts Ha Hacc) as (ys & Hys & Hnd).
  pose proof Hts as [Hsp Hp Hlv Hus _ _]. assert (0 <= addr /\ addr + len <= USER_TOP) as [H0 Ht].
  { pose proof (Hus addr _ (Hacc addr ltac:(lia))). pose proof (Hus (addr + len - 1) _ (Hacc (addr + len - 1) ltac:(lia))). lia. }
  assert (addr + len < 2 ^ 64) as Hw64 by (unfold USER_TOP in Ht; lia).
  destruct (unmap_env_spec D v h (t_cr3 s) addr n ys (if decide (vm_start y = addr) then Some c else None) Hp H0 Ha ltac:(lia) Hys Hnd)
    as (v' & h' & E & Hlive & Hp' & Hw & Hu). rewrite <-En in *.
  assert (forall x, addr <= x < addr + len -> walk (mem v') (t_cr3 s) x = None) as Hnone by (intros x Hx; rewrite Hw by lia; by rewrite decide_True).
  case_decide as Ea.
  - destruct (unmap_whole s t l (v, h) (v', h') addr len c y Hsp H0 Hl Hw64 Hc Hy Ea ltac:(lia) ltac:(lia) E) as (s' & t' & l1 & l2 & Er & -> & Hs' & Hsh & Ec & Hdom).
    rewrite <-He in Hsh. exists v', h', s', t', (l1 ++ l2), ys. split_and!; try done. eapply (ts_shut D v v' h h'); rewrite <-?En; try done.
    intros u [Hne Hu']%Hdom. apply Hlive; [by apply Hlv|congruence].
  - destruct (unmap_tail s t l (v, h) (v', h') addr len c y Hsp H0 Hl Hw64 Hc Hy ltac:(lia) ltac:(lia) E) as (Er & Hs' & Hsh).
    rewrite <-He in Hsh. exists v', h', (with_end c addr s), t, l, ys. split_and!; try done. eapply (ts_shut D v v' h h'); rewrite <-?En; try done.
    intros u Hu'. apply Hlive; [|done]. apply Hlv. rewrite with_end_lookup in Hu'. case_decide; [|done]. by apply fmap_is_Some in Hu'.
Qed.
End env.
