(* ===== verification/AddressDemo.v ===== *)
(** * A task's address space on a concrete machine

    The machine of [System] with a heap of descriptors that hands out addresses
    above those in use: the code pages of a task are mapped, and the last of
    them is given back. *)

From S2P Require Import Prelude Lock Frames Pmm Boot Vmm VmmSpace Dll Vma VmaTree VmaFix VmaSpec VmaOps System AddressSpace.

(** The heap is the list of the addresses that are live. *)
#[local] Instance demo_heap : DescHeap (list Z) := {|
  dh_lock := ret tt;
  dh_unlock := ret tt;
  dh_kmalloc := fun n L => let p := foldr Z.max 0 L + 0x40 in Ok (p, p :: L);
  dh_kfree := fun p L => Ok (tt, filter (fun a => a <> p) L);
  dh_live := fun L a => a ∈ L;
|}.

Lemma foldr_max_above L : 0 <= foldr Z.max 0 L /\ forall a, a ∈ L -> a <= foldr Z.max 0 L.
Proof.
  induction L as [|b L [IH0 IH]]; simpl; [split; [done|by intros a ?%not_elem_of_nil]|]. split; [lia|].
  intros a [->|Ha]%elem_of_cons; [lia|]. specialize (IH a Ha). lia.
Qed.

#[local] Instance demo_heap_ok : DescHeapOk (list Z).
Proof.
  split.
  - intros L. by exists L.
  - intros L. by exists L.
  - intros n L. destruct (foldr_max_above L) as [H0 Hm]. eexists _, _. split; [done|]. right. split_and!; [unfold NULL; lia| |].
    + intros Ha%Hm. lia.
    + intros a. cbn. rewrite elem_of_cons. tauto.
  - intros p L. eexists. split; [done|]. intros a. cbn. rewrite list_elem_of_filter. tauto.
Qed.

(** Only the first frame holds data, and the task has no area. *)
Definition first_frame (y : Z) : bool := y =? 0.
Definition new_task : mm := mkMm ∅ NULL NULL 0 0x1000.

Lemma new_task_space : task_space first_frame machine [] new_task Leaf [].
Proof.
  split.
  - split; [|by split; [|apply NoDup_nil_2]|done|done]. split; try done; try (cbn; constructor). by intros u Hu%not_elem_of_nil.
  - split; [|done|done|done]. destruct machine_ok as [A B _]. split; [|exact B|].
    + split; [exact A|]. intros y ->%Z.eqb_eq. split; by_decide.
    + apply pt_ok_fresh; [|done]. split_and!; by_decide || done.
  - intros a [y Hy]. cbn in Hy. by rewrite lookup_empty in Hy.
  - intros x f (a & y & Ha & _). by apply not_elem_of_nil in Ha.
  - intros x f (a & y & Ha & _). by apply not_elem_of_nil in Ha.
  - intros x f x' f' e e' (a & y & Ha & _). by apply not_elem_of_nil in Ha.
Qed.

Lemma nothing_used lo hi : unused new_task [] lo hi.
Proof. by intros u Hu%not_elem_of_nil. Qed.

Definition code_base : Z := 0x400000.
(** The state a routine ends in, when it returns [0] *)
Definition state_after {S} (m : M S Z) (s : S) : S := match m s with Ok (_, s') => s' | _ => s end.
Definition returns_zero {S} (m : M S Z) (s : S) : bool := match m s with Ok (r, _) => r =? 0 | _ => false end.

Lemma returned_zero {S} (m : M S Z) (s : S) : returns_zero m s = true -> m s = Ok (0, state_after m s).
Proof. unfold returns_zero, state_after. destruct (m s) as [[r s']| | |]; try done. by intros ->%Z.eqb_eq. Qed.

Definition with_code : (vmm pmm * list Z) * mm := state_after (vma_map code_base 0x1800 5) ((machine, []), new_task).

Lemma code_mapped : vma_map code_base 0x1800 5 ((machine, []), new_task) = Ok (0, with_code).
Proof.
  assert (returns_zero (vma_map code_base 0x1800 5) ((machine, []), new_task) = true) as Hz.
  { vm_compute. reflexivity. }
  unfold with_code.
  pose proof (returned_zero (vma_map code_base 0x1800 5) ((machine, []), new_task) Hz) as Hr.
  exact Hr.
Qed.

(** The first page is mapped, so that the tables were built. *)
Lemma code_present : walk (mem with_code.1.1) (t_cr3 new_task) code_base <> None.
Proof. by_decide. Qed.

Lemma code_not_rolled_back k : ~ rolled_back machine with_code.1.1 (t_cr3 new_task) code_base k.
Proof.
  intros (j & Hj & Hw). apply code_present. rewrite Hw. case_decide; [done|]. vm_compute. reflexivity.
Qed.

Lemma ok_inj {S A} (a b : A) (s s' : S) : Ok (a, s) = Ok (b, s') -> a = b /\ s = s'.
Proof. by intros [= -> ->]. Qed.

(** What mapping the code leaves *)
Definition code_space (x : Z) (t : tree) (l : list Z) : Prop :=
  task_space (with_run first_frame x 2) with_code.1.1 with_code.1.2 with_code.2 t l /\ opened new_task [] with_code.2 l code_base 0x2000 5.

Lemma code_settled r v' h' s' : vma_map code_base 0x1800 5 ((machine, []), new_task) = Ok (r, ((v', h'), s')) ->
  map_outcome first_frame machine v' [] h' new_task s' Leaf [] code_base 2 5 r -> exists x t l, backs first_frame with_code.1.1 0x1000 2 x /\ code_space x t l.
Proof.
  intros E Ho. rewrite code_mapped in E. apply ok_inj in E as [<- E]. assert (with_code.1.1 = v') as <- by (by rewrite E).
  assert (with_code.1.2 = h') as <- by (by rewrite E). assert (with_code.2 = s') as <- by (by rewrite E).
  destruct Ho as [[[[E1 _]|[[E1|E1] _]] _]|(_ & x & t & l & Hb & Hs & _ & Ho & Hm)]; [discriminate E1..|].
  exists x, t, l. split; [exact Hb|]. destruct Hm as [[_ Hm]|[_ Hm]]; [exact (conj Hm Ho)|]. destruct (code_not_rolled_back _ Hm).
Qed.

(** Two pages of code *)
Lemma vma_map_backs_range_witness : exists x t l, backs first_frame with_code.1.1 0x1000 2 x /\ code_space x t l.
Proof.
  destruct (vma_map_backs_range first_frame machine [] new_task Leaf [] code_base 0x1800 5 new_task_space eq_refl ltac:(discriminate) eq_refl
    ltac:(lia) ltac:(vm_compute; discriminate) (nothing_used _ _)) as (r & v' & h' & s' & E & Ho).
  exact (code_settled r v' h' s' E Ho).
Defined.

Lemma code_space_ok : exists x t l, code_space x t l.
Proof.
  destruct (vma_map_run first_frame machine [] new_task Leaf [] code_base 0x1800 5 new_task_space eq_refl ltac:(discriminate) eq_refl
    ltac:(lia) ltac:(vm_compute; discriminate) (nothing_used _ _)) as (r & v' & h' & s' & E & Ho).
  destruct (code_settled r v' h' s' E Ho) as (x & t & l & _ & Hc). by exists x, t, l.
Qed.

Definition code_area : vma_area := mkArea code_base 0x402000 5 NULL NULL NULL VMA_BLACK NULL NULL.

Lemma code_areas : areas with_code.2 = {[0x40 := code_area]}.
Proof. vm_compute. reflexivity. Qed.

(** The second page is given back: it has no translation, and its frame is free. *)
Lemma vma_unmap_releases_range_witness : exists v' h' s' y,
  vma_unmap 0x401000 0x1000 with_code = Ok (0, ((v', h'), s')) /\ walk (mem v') 0x1000 0x401ABC = None /\
  fa_used (v_alloc with_code.1.1) y = true /\ fa_used (v_alloc v') y = false.
Proof.
  destruct code_space_ok as (x & t & l & Hts & Ho).
  destruct (proj2 (Ho 0x401000 5) ltac:(right; vm_compute; split; [split; [discriminate|reflexivity]|reflexivity])) as (c & y & Hc & Hy & _).
  pose proof Hy as Hy'. rewrite code_areas in Hy'. apply lookup_singleton_Some in Hy' as [_ <-].
  destruct (vma_unmap_releases_range _ with_code.1.1 with_code.1.2 with_code.2 t l 0x401000 0x1000 c code_area Hts Hc Hy ltac:(vm_compute; discriminate) eq_refl eq_refl eq_refl eq_refl)
    as (v' & h' & s' & t' & l' & ys & E & Hys & _ & _ & _ & Hw & Hu).
  apply Forall2_cons_inv_l in Hys as (u & us & (e & _ & _ & _ & HD) & Hus & ->). exists v', h', s', u. split_and!.
  - by destruct with_code as [[? ?] ?].
  - apply Hw. by split.
  - apply (pages_alloc _ _ _ (ts_pages _ _ _ _ _ _ Hts)). done.
  - rewrite Hu, bool_decide_true by (by left). apply andb_false_r.
Defined.
