(* ===== verification/Strings.v ===== *)
(** * Memory and string routines

    Models [common/std_funcs.c] over a byte-addressed memory: an address
    outside the memory is not readable or writable, so an access there is a
    [Fault]. Pointers are not wrapped (an object does not straddle the end of
    the address space). Loops that look for a terminating NUL get as fuel one
    more than the number of bytes of the memory: a scan of consecutive
    addresses leaves the memory before that, so running out of fuel, a [Hang],
    never happens ([strlen_terminates], [strcmp_terminates],
    [strcpy_terminates]). *)

From S2P Require Import Prelude.

Notation mem := (gmap Z Z).

(** ** Accesses *)

Definition load8 (a : Z) : M mem Z := m <- get ;; deref (m !! a).

Definition store8 (a v : Z) : M mem unit :=
  m <- get ;; _ <- deref (m !! a) ;; put (<[a := v]> m).

(** A packed structure: its fields, in order, and their sizes in bytes. *)
Definition layout : Type := list (string * Z).
Fixpoint offset_of (l : layout) (field : string) : Z :=
  match l with
  | [] => 0
  | (f, n) :: l => if String.eqb f field then 0 else n + offset_of l field
  end.
Definition sizeof (l : layout) : Z := fold_right Z.add 0 (snd <$> l).

(** ** Operations *)

(** [for (i = 0; i < n; i++) if (p1[i] != p2[i]) return ...;] with [k]
    iterations left *)
Fixpoint memcmp_loop (k : nat) (p1 p2 : Z) : M mem Z :=
  match k with
  | O => ret 0
  | S k =>
    a <- load8 p1 ;; b <- load8 p2 ;;
    if negb (a =? b) then ret (if a <? b then -1 else 1)
    else memcmp_loop k (p1 + 1) (p2 + 1)
  end.
Definition memcmp (s1 s2 n : Z) : M mem Z := memcmp_loop (Z.to_nat n) s1 s2.

Fixpoint memset_loop (count : nat) (ptr ch : Z) : M mem unit :=
  match count with
  | O => ret tt
  | S count => store8 ptr (w8 ch) ;;; memset_loop count (ptr + 1) ch
  end.
Definition memset (dest ch count : Z) : M mem Z :=
  memset_loop (Z.to_nat count) dest ch ;;; ret dest.

Fixpoint memcpy_loop (n : nat) (d s : Z) : M mem unit :=
  match n with
  | O => ret tt
  | S n => c <- load8 s ;; store8 d c ;;; memcpy_loop n (d + 1) (s + 1)
  end.
Definition memcpy (dest src n : Z) : M mem Z :=
  memcpy_loop (Z.to_nat n) dest src ;;; ret dest.

(** One more than the number of bytes there are. *)
Definition scan_fuel : M mem nat := gets (fun m => S (size m)).

Fixpoint strcpy_loop (fuel : nat) (d src : Z) : M mem unit :=
  match fuel with
  | O => hang
  | S fuel =>
    c <- load8 src ;; store8 d c ;;;
    if c =? 0 then ret tt else strcpy_loop fuel (d + 1) (src + 1)
  end.
Definition strcpy (dest src : Z) : M mem Z :=
  fuel <- scan_fuel ;; strcpy_loop fuel dest src ;;; ret dest.

(** [while ( *s1 && *s1 == *s2)], then the difference of the bytes *)
Fixpoint strcmp_loop (fuel : nat) (s1 s2 : Z) : M mem Z :=
  match fuel with
  | O => hang
  | S fuel =>
    a <- load8 s1 ;;
    if a =? 0 then b <- load8 s2 ;; ret (a - b) else
    b <- load8 s2 ;;
    if a =? b then strcmp_loop fuel (s1 + 1) (s2 + 1) else ret (a - b)
  end.
Definition strcmp (s1 s2 : Z) : M mem Z :=
  fuel <- scan_fuel ;; strcmp_loop fuel s1 s2.

Fixpoint strlen_loop (fuel : nat) (s len : Z) : M mem Z :=
  match fuel with
  | O => hang
  | S fuel =>
    c <- load8 (s + len) ;;
    if c =? 0 then ret len else strlen_loop fuel s (len + 1)
  end.
Definition strlen (s : Z) : M mem Z := fuel <- scan_fuel ;; strlen_loop fuel s 0.

(** [for (; i < n; i++) dest[i] = 0;] and the copy before it, [k] iterations
    left and both pointers advanced by [i] *)
Fixpoint strncpy_loop (k : nat) (dest src : Z) : M mem unit :=
  match k with
  | O => ret tt
  | S k' =>
    c <- load8 src ;;
    if c =? 0 then memset_loop k dest 0
    else store8 dest c ;;; strncpy_loop k' (dest + 1) (src + 1)
  end.
Definition strncpy (dest src n : Z) : M mem Z :=
  strncpy_loop (Z.to_nat n) dest src ;;; ret dest.

(** ** Blocks of bytes *)

(** The bytes [l] are at [a]. *)
Definition cells (m : mem) (a : Z) (l : list Z) : Prop :=
  forall i v, l !! i = Some v -> m !! (a + Z.of_nat i) = Some v.

(** The [n] bytes at [a] can be written. *)
Definition owned (m : mem) (a : Z) (n : nat) : Prop :=
  forall i, (i < n)%nat -> is_Some (m !! (a + Z.of_nat i)).

(** The NUL-terminated string [l] is at [a]. *)
Definition cstr (m : mem) (a : Z) (l : list Z) : Prop :=
  cells m a (l ++ [0]) /\ Forall (fun c => 0 < c < 256) l.

(** The memory after [l] was written at [a]. *)
Fixpoint upd (m : mem) (a : Z) (l : list Z) : mem :=
  match l with
  | [] => m
  | v :: l => upd (<[a := v]> m) (a + 1) l
  end.

(** Two blocks that share no byte. *)
Definition disjoint_blocks (a : Z) (n : nat) (b : Z) (k : nat) : Prop :=
  a + Z.of_nat n <= b \/ b + Z.of_nat k <= a.

Lemma upd_lookup m a l b :
  upd m a l !! b =
    if decide (a <= b < a + Z.of_nat (length l)) then l !! Z.to_nat (b - a) else m !! b.
Proof.
  revert m a. induction l as [|v l IH]; intros m a; simpl.
  - destruct (decide _) as [?|?]; [lia|done].
  - rewrite IH. destruct (decide (a + 1 <= b < a + 1 + Z.of_nat (length l))) as [?|?].
    + destruct (decide _) as [?|?]; [|lia].
      replace (Z.to_nat (b - a)) with (S (Z.to_nat (b - (a + 1)))) by lia. done.
    + destruct (decide (a = b)) as [->|?].
      * rewrite lookup_insert_eq. destruct (decide _) as [?|?]; [|lia]. by rewrite Z.sub_diag.
      * rewrite lookup_insert_ne by done. destruct (decide _) as [?|?]; [lia|done].
Qed.

Lemma upd_outside m a l b :
  ~ (a <= b < a + Z.of_nat (length l)) -> upd m a l !! b = m !! b.
Proof. intros ?. rewrite upd_lookup. by destruct (decide _). Qed.

Lemma upd_cells m a l : cells (upd m a l) a l.
Proof.
  intros i v Hi. pose proof (lookup_lt_Some _ _ _ Hi). rewrite upd_lookup.
  destruct (decide _) as [?|?]; [|lia].
  by replace (Z.to_nat (a + Z.of_nat i - a)) with i by lia.
Qed.

Lemma upd_app m a l1 l2 : upd m a (l1 ++ l2) = upd (upd m a l1) (a + Z.of_nat (length l1)) l2.
Proof.
  revert m a. induction l1 as [|v l1 IH]; intros m a; simpl; [by rewrite Z.add_0_r|].
  rewrite IH. f_equal. lia.
Qed.

Lemma cells_cons m a v l : cells m a (v :: l) <-> m !! a = Some v /\ cells m (a + 1) l.
Proof.
  split.
  - intros H. split; [specialize (H 0%nat v eq_refl); by rewrite Z.add_0_r in H|].
    intros i w Hi. specialize (H (S i) w Hi).
    by replace (a + 1 + Z.of_nat i) with (a + Z.of_nat (S i)) by lia.
  - intros [H0 H] [|i] w Hi; simpl in Hi; [simplify_eq; by rewrite Z.add_0_r|].
    replace (a + Z.of_nat (S i)) with (a + 1 + Z.of_nat i) by lia. by apply H.
Qed.

Lemma cells_app m a l1 l2 :
  cells m a (l1 ++ l2) <-> cells m a l1 /\ cells m (a + Z.of_nat (length l1)) l2.
Proof.
  revert a. induction l1 as [|v l1 IH]; intros a; simpl.
  - rewrite Z.add_0_r. split; [|by intros [_ ?]]. intros H. split; [by intros ? ? ?|done].
  - rewrite !cells_cons, IH. replace (a + 1 + Z.of_nat (length l1)) with (a + Z.of_nat (S (length l1))) by lia.
    tauto.
Qed.

Lemma cells_owned m a l : cells m a l -> owned m a (length l).
Proof. intros H i Hi. destruct (lookup_lt_is_Some_2 l i Hi) as [v Hv]. eauto. Qed.

Lemma owned_S m a n : owned m a (S n) <-> is_Some (m !! a) /\ owned m (a + 1) n.
Proof.
  split.
  - intros H. split; [specialize (H 0%nat ltac:(lia)); by rewrite Z.add_0_r in H|].
    intros i Hi. specialize (H (S i) ltac:(lia)).
    by replace (a + 1 + Z.of_nat i) with (a + Z.of_nat (S i)) by lia.
  - intros [H0 H] [|i] Hi; [by rewrite Z.add_0_r|].
    replace (a + Z.of_nat (S i)) with (a + 1 + Z.of_nat i) by lia. apply H. lia.
Qed.

Lemma owned_insert m a n b v : owned m a n -> owned (<[b := v]> m) a n.
Proof.
  intros H i Hi. destruct (decide (b = a + Z.of_nat i)) as [->|]; [rewrite lookup_insert_eq; eauto|].
  rewrite lookup_insert_ne by done. by apply H.
Qed.

Lemma owned_upd m a n b l : owned m a n -> owned (upd m b l) a n.
Proof.
  revert m b. induction l as [|v l IH]; intros m b H; simpl; [done|]. by apply IH, owned_insert.
Qed.

Lemma owned_le m a n k : owned m a n -> (k <= n)%nat -> owned m a k.
Proof. intros H Hk i Hi. apply H. lia. Qed.

Lemma owned_offset m a n (k : nat) : owned m a (k + n) -> owned m (a + Z.of_nat k) n.
Proof.
  intros H i Hi. specialize (H (k + i)%nat ltac:(lia)).
  by replace (a + Z.of_nat k + Z.of_nat i) with (a + Z.of_nat (k + i)) by lia.
Qed.

Lemma cells_insert m a l b v :
  cells m a l -> ~ (a <= b < a + Z.of_nat (length l)) -> cells (<[b := v]> m) a l.
Proof.
  intros H Hb i w Hi. pose proof (lookup_lt_Some _ _ _ Hi).
  rewrite lookup_insert_ne by lia. by apply H.
Qed.

Lemma cells_upd m a l b l' :
  cells m a l -> disjoint_blocks a (length l) b (length l') -> cells (upd m b l') a l.
Proof.
  intros H Hd i v Hi. pose proof (lookup_lt_Some _ _ _ Hi).
  rewrite upd_outside; [by apply H|]. unfold disjoint_blocks in Hd. lia.
Qed.

(** ** Accesses to blocks *)

Lemma load8_ok m a v : m !! a = Some v -> load8 a m = Ok (v, m).
Proof. unfold load8, bind, get, deref. by intros ->. Qed.

Lemma load8_fault m a : m !! a = None -> load8 a m = Fault.
Proof. unfold load8, bind, get, deref. by intros ->. Qed.

Lemma store8_ok m a v : is_Some (m !! a) -> store8 a v m = Ok (tt, <[a := v]> m).
Proof. unfold store8, bind, get, deref. by intros [w ->]. Qed.

Lemma store8_fault m a v : m !! a = None -> store8 a v m = Fault.
Proof. unfold store8, bind, get, deref. by intros ->. Qed.

Create HintDb mem.
#[export] Hint Resolve owned_insert owned_upd load8_ok store8_ok : mem.

Lemma memset_loop_spec k p ch m :
  owned m p k -> memset_loop k p ch m = Ok (tt, upd m p (replicate k (w8 ch))).
Proof.
  revert p m. induction k as [|k IH]; intros p m H; simpl; [done|].
  apply owned_S in H as [H0 H].
  rewrite (bind_ok _ _ _ _ _ (store8_ok _ _ _ H0)). by apply IH, owned_insert.
Qed.

Lemma memset_spec m dest ch count :
  0 <= count -> owned m dest (Z.to_nat count) ->
  memset dest ch count m = Ok (dest, upd m dest (replicate (Z.to_nat count) (w8 ch))).
Proof. intros Hc H. unfold memset, bind. by rewrite memset_loop_spec. Qed.

(** A copy that starts below its source, or does not touch it, copies. *)
Lemma memcpy_loop_spec l d s m :
  cells m s l -> owned m d (length l) ->
  d <= s \/ s + Z.of_nat (length l) <= d ->
  memcpy_loop (length l) d s m = Ok (tt, upd m d l).
Proof.
  revert d s m. induction l as [|v l IH]; intros d s m Hs Hd Ho; simpl in *; [done|].
  apply cells_cons in Hs as [H0 Hs]. apply owned_S in Hd as [Hd0 Hd].
  rewrite (bind_ok _ _ _ _ _ (load8_ok _ _ _ H0)), (bind_ok _ _ _ _ _ (store8_ok _ _ _ Hd0)).
  apply IH; [apply cells_insert; [done|]; lia|by apply owned_insert|lia].
Qed.

Lemma memcpy_spec m dest src l :
  cells m src l -> owned m dest (length l) ->
  dest <= src \/ src + Z.of_nat (length l) <= dest ->
  memcpy dest src (Z.of_nat (length l)) m = Ok (dest, upd m dest l).
Proof. intros. unfold memcpy, bind. by rewrite Nat2Z.id, memcpy_loop_spec. Qed.

(** ** Comparison

    The order of byte strings both comparison routines compute. *)
Fixpoint lex (l1 l2 : list Z) : Z :=
  match l1, l2 with
  | [], [] => 0
  | [], _ :: _ => -1
  | _ :: _, [] => 1
  | a :: l1, b :: l2 => if a =? b then lex l1 l2 else if a <? b then -1 else 1
  end.

Lemma lex_eq l1 l2 : lex l1 l2 = 0 <-> l1 = l2.
Proof.
  revert l2. induction l1 as [|a l1 IH]; intros [|b l2]; simpl; try done.
  destruct (Z.eqb_spec a b) as [->|]; [rewrite IH; naive_solver|].
  destruct (a <? b); naive_solver.
Qed.

Lemma lex_anti l1 l2 : lex l1 l2 = - lex l2 l1.
Proof.
  revert l2. induction l1 as [|a l1 IH]; intros [|b l2]; simpl; try done.
  rewrite (Z.eqb_sym b a). destruct (Z.eqb_spec a b) as [->|]; [done|].
  destruct (Z.ltb_spec a b), (Z.ltb_spec b a); lia.
Qed.

Lemma memcmp_loop_spec l1 l2 p1 p2 m :
  length l1 = length l2 -> cells m p1 l1 -> cells m p2 l2 ->
  memcmp_loop (length l1) p1 p2 m = Ok (lex l1 l2, m).
Proof.
  revert l2 p1 p2. induction l1 as [|a l1 IH]; intros [|b l2] p1 p2 Hl H1 H2; try done.
  apply cells_cons in H1 as [Ha H1], H2 as [Hb H2]. simpl.
  rewrite (bind_ok _ _ _ _ _ (load8_ok _ _ _ Ha)), (bind_ok _ _ _ _ _ (load8_ok _ _ _ Hb)).
  destruct (Z.eqb_spec a b); [|done]. simpl. apply IH; [by injection Hl|done..].
Qed.

(** ** Scans for the terminator *)

Lemma owned_size m a n : owned m a n -> (n <= size m)%nat.
Proof.
  intros H. assert (NoDup ((fun i : nat => a + Z.of_nat i) <$> seq 0 n)) as Hnd.
  { apply NoDup_fmap_2_strong; [intros; lia|apply NoDup_seq]. }
  pose proof (fuel_enough m _ Hnd) as Hf. rewrite length_fmap, length_seq in Hf.
  apply Nat.lt_succ_r, Hf. intros u (i & -> & Hi)%list_elem_of_fmap.
  apply H. apply elem_of_seq in Hi. lia.
Qed.

Lemma owned_existing m a n b v : is_Some (m !! b) -> owned (<[b := v]> m) a n -> owned m a n.
Proof.
  intros Hb H i Hi. specialize (H i Hi). destruct (decide (b = a + Z.of_nat i)) as [->|]; [done|].
  by rewrite lookup_insert_ne in H.
Qed.

(** A loop that runs out of fuel has walked over that many bytes. *)
Lemma strlen_loop_hang fuel s len m : strlen_loop fuel s len m = Hang -> owned m (s + len) fuel.
Proof.
  revert len. induction fuel as [|fuel IH]; intros len; simpl; [intros _ i Hi; lia|].
  destruct (m !! (s + len)) as [c|] eqn:E; [|by unfold bind; rewrite load8_fault].
  rewrite (bind_ok _ _ _ _ _ (load8_ok _ _ _ E)). destruct (c =? 0); [done|].
  intros H%IH. apply owned_S. rewrite Z.add_assoc in H. eauto.
Qed.

Lemma strcmp_loop_hang fuel s1 s2 m : strcmp_loop fuel s1 s2 m = Hang -> owned m s1 fuel.
Proof.
  revert s1 s2. induction fuel as [|fuel IH]; intros s1 s2; simpl; [intros _ i Hi; lia|].
  destruct (m !! s1) as [a|] eqn:E; [|by unfold bind; rewrite load8_fault].
  rewrite (bind_ok _ _ _ _ _ (load8_ok _ _ _ E)).
  destruct (m !! s2) as [b|] eqn:E2;
    [|destruct (a =? 0); unfold bind; by rewrite load8_fault].
  destruct (a =? 0); rewrite (bind_ok _ _ _ _ _ (load8_ok _ _ _ E2)); [done|].
  destruct (a =? b); [|done].
  intros H%IH. apply owned_S. eauto.
Qed.

Lemma strcpy_loop_hang fuel d s m : strcpy_loop fuel d s m = Hang -> owned m s fuel.
Proof.
  revert d s m. induction fuel as [|fuel IH]; intros d s m; simpl; [intros _ i Hi; lia|].
  destruct (m !! s) as [c|] eqn:E; [|by unfold bind; rewrite load8_fault].
  rewrite (bind_ok _ _ _ _ _ (load8_ok _ _ _ E)).
  destruct (m !! d) as [x|] eqn:Ed; [|unfold bind; by rewrite store8_fault].
  rewrite (bind_ok _ _ _ _ _ (store8_ok _ _ _ (mk_is_Some _ _ Ed))). destruct (c =? 0); [done|].
  intros H%IH. apply owned_S. split; [done|]. by eapply owned_existing.
Qed.

Lemma bind_hang {S A B} (m : M S A) (f : A -> M S B) s :
  bind m f s = Hang -> m s = Hang \/ exists a s', m s = Ok (a, s') /\ f a s' = Hang.
Proof. unfold bind. destruct (m s) as [[a s']| | |]; try done; eauto 6. Qed.

Lemma strlen_no_hang m s : strlen s m <> Hang.
Proof. intros H. pose proof (owned_size _ _ _ (strlen_loop_hang _ _ _ _ H)). lia. Qed.

Lemma strcmp_no_hang m s1 s2 : strcmp s1 s2 m <> Hang.
Proof. intros H. pose proof (owned_size _ _ _ (strcmp_loop_hang _ _ _ _ H)). lia. Qed.

Lemma strcpy_no_hang m d s : strcpy d s m <> Hang.
Proof.
  intros [H | (f & m' & E & H)]%bind_hang; [done|]. injection E as <- <-.
  apply bind_hang in H as [H | (? & ? & _ & H)]; [|done].
  pose proof (owned_size _ _ _ (strcpy_loop_hang _ _ _ _ H)). lia.
Qed.

(** none of the three routines that look for a terminating NUL loops
    forever: whatever memory they are given, terminated or not, strlen and
    strcmp return or fault, and so does strcpy, even when it overwrites the
    string it is reading. *)
Theorem string_scans_terminate m d s s1 s2 :
  strlen s m <> Hang /\ strcmp s1 s2 m <> Hang /\ strcpy d s m <> Hang.
Proof. split; [apply strlen_no_hang|]. split; [apply strcmp_no_hang|apply strcpy_no_hang]. Qed.

Lemma strlen_loop_spec l fuel s len m :
  cstr m (s + len) l -> (length l < fuel)%nat ->
  strlen_loop fuel s len m = Ok (len + Z.of_nat (length l), m).
Proof.
  revert fuel len. induction l as [|c l IH]; intros [|fuel] len [Hc Hn] Hf; simpl in *; try lia;
    apply cells_cons in Hc as [H0 Hc]; rewrite (bind_ok _ _ _ _ _ (load8_ok _ _ _ H0)).
  - by rewrite Z.add_0_r.
  - apply Forall_cons in Hn as [Hc0 Hn]. destruct (Z.eqb_spec c 0); [lia|].
    rewrite IH; [do 2 f_equal; lia|split; [by rewrite Z.add_assoc|done]|lia].
Qed.

Lemma cstr_fuel m a l : cstr m a l -> (length l < S (size m))%nat.
Proof.
  intros [Hc _]. apply cells_owned, owned_size in Hc. rewrite length_app in Hc. simpl in Hc. lia.
Qed.

Lemma strlen_spec m s l : cstr m s l -> strlen s m = Ok (Z.of_nat (length l), m).
Proof.
  intros H. change (strlen s m) with (strlen_loop (S (size m)) s 0 m).
  rewrite (strlen_loop_spec l); [done|by rewrite Z.add_0_r|by eapply cstr_fuel].
Qed.

Lemma strcmp_loop_spec l1 l2 fuel s1 s2 m :
  cstr m s1 l1 -> cstr m s2 l2 -> (length l1 < fuel)%nat ->
  exists r, strcmp_loop fuel s1 s2 m = Ok (r, m) /\ Z.sgn r = lex l1 l2.
Proof.
  revert l2 fuel s1 s2. induction l1 as [|a l1 IH];
    intros [|b l2] [|fuel] s1 s2 [H1 N1] [H2 N2] Hf; simpl in Hf; try lia;
    cbn [app] in H1, H2; apply cells_cons in H1 as [Ha H1], H2 as [Hb H2];
    cbn [strcmp_loop lex];
    rewrite (bind_ok _ _ _ _ _ (load8_ok _ _ _ Ha)).
  - cbn [Z.eqb]. rewrite (bind_ok _ _ _ _ _ (load8_ok _ _ _ Hb)). by exists 0.
  - apply Forall_cons in N2 as [Hb0 _]. cbn [Z.eqb].
    rewrite (bind_ok _ _ _ _ _ (load8_ok _ _ _ Hb)). exists (0 - b). split; [done|]. by rewrite Z.sgn_neg by lia.
  - apply Forall_cons in N1 as [Ha0 _]. destruct (Z.eqb_spec a 0); [lia|].
    rewrite (bind_ok _ _ _ _ _ (load8_ok _ _ _ Hb)). destruct (Z.eqb_spec a 0); [lia|].
    exists (a - 0). split; [done|]. lia.
  - apply Forall_cons in N1 as [Ha0 N1], N2 as [Hb0 N2]. destruct (Z.eqb_spec a 0); [lia|].
    rewrite (bind_ok _ _ _ _ _ (load8_ok _ _ _ Hb)).
    destruct (Z.eqb_spec a b) as [->|]; [apply IH; [by split..|lia]|].
    exists (a - b). split; [done|]. destruct (Z.ltb_spec a b); lia.
Qed.

Lemma strcpy_loop_spec l fuel d s m :
  cstr m s l -> owned m d (S (length l)) -> d <= s \/ s + Z.of_nat (S (length l)) <= d ->
  (length l < fuel)%nat ->
  strcpy_loop fuel d s m = Ok (tt, upd m d (l ++ [0])).
Proof.
  revert fuel d s m. induction l as [|c l IH]; intros [|fuel] d s m [Hc Hn] Hd Ho Hf; simpl in Hf; try lia;
    cbn [app strcpy_loop] in *; apply cells_cons in Hc as [H0 Hc]; apply owned_S in Hd as [Hd0 Hd];
    rewrite (bind_ok _ _ _ _ _ (load8_ok _ _ _ H0)), (bind_ok _ _ _ _ _ (store8_ok _ _ _ Hd0)); [done|].
  apply Forall_cons in Hn as [Hc0 Hn]. destruct (Z.eqb_spec c 0); [lia|].
  simpl in *. apply IH; [split; [|done]|by apply owned_insert|lia..].
  apply cells_insert; [done|]. rewrite length_app. simpl. lia.
Qed.

(** What strncpy leaves in its [n] bytes. *)
Definition strncpy_block (n : nat) (l : list Z) : list Z :=
  take n l ++ replicate (n - length l) 0.

Lemma length_strncpy_block n l : length (strncpy_block n l) = n.
Proof. unfold strncpy_block. rewrite length_app, length_take, length_replicate. lia. Qed.

Lemma strncpy_loop_spec l k d s m :
  cstr m s l -> owned m d k -> d <= s \/ s + Z.of_nat (S (length l)) <= d ->
  strncpy_loop k d s m = Ok (tt, upd m d (strncpy_block k l)).
Proof.
  revert k d s m. induction l as [|c l IH]; intros [|k] d s m [Hc Hn] Hd Ho; try done;
    cbn [app strncpy_loop] in *; apply cells_cons in Hc as [H0 Hc];
    rewrite (bind_ok _ _ _ _ _ (load8_ok _ _ _ H0)).
  - cbn [Z.eqb]. rewrite memset_loop_spec by done. done.
  - apply Forall_cons in Hn as [Hc0 Hn]. destruct (Z.eqb_spec c 0); [lia|].
    apply owned_S in Hd as [Hd0 Hd]. rewrite (bind_ok _ _ _ _ _ (store8_ok _ _ _ Hd0)).
    simpl in Ho. apply IH; [split; [|done]|by apply owned_insert|simpl; lia].
    apply cells_insert; [done|]. rewrite length_app. simpl. lia.
Qed.

(** ** Properties *)

(** On two blocks of equal length memcmp returns -1, 0 or 1 as the first
    is below, equal to or above the second in the order of the bytes; on two
    terminated strings the sign of what strcmp returns is that same order. So
    either is zero exactly on equal blocks, and swapping the arguments negates
    the answer. *)
Theorem comparisons_correct m p1 p2 l1 l2 :
  cstr m p1 l1 -> cstr m p2 l2 ->
  (length l1 = length l2 -> memcmp p1 p2 (Z.of_nat (length l1)) m = Ok (lex l1 l2, m)) /\
  (exists r, strcmp p1 p2 m = Ok (r, m) /\ Z.sgn r = lex l1 l2 /\ (r = 0 <-> l1 = l2)).
Proof.
  intros H1 H2. split.
  - intros Hl. unfold memcmp. rewrite Nat2Z.id.
    destruct H1 as [H1 _], H2 as [H2 _]. apply cells_app in H1 as [H1 _], H2 as [H2 _].
    by apply memcmp_loop_spec.
  - destruct (strcmp_loop_spec l1 l2 (S (size m)) p1 p2 m) as (r & Hr & Hs); [done..|by eapply cstr_fuel|].
    exists r. split; [done|]. split; [done|]. rewrite <-lex_eq, <-Hs. lia.
Qed.

(** C24: The copying routines leave in the destination exactly the bytes they
    should and nothing else changes, for a destination that lies below the
    source or does not overlap it: memcpy the block, strcpy the string with
    its terminator, strncpy the first n characters padded with NULs to n
    bytes - so a string of n or more characters is left unterminated. The
    length of the source is what strlen returns. *)
Theorem copies_correct m d s l n :
  cstr m s l -> d <= s \/ s + Z.of_nat (S (length l)) <= d ->
  owned m d (S (length l)) -> owned m d n ->
  strlen s m = Ok (Z.of_nat (length l), m) /\
  memcpy d s (Z.of_nat (length l)) m = Ok (d, upd m d l) /\
  strcpy d s m = Ok (d, upd m d (l ++ [0])) /\
  strncpy d s (Z.of_nat n) m = Ok (d, upd m d (strncpy_block n l)) /\
  (strncpy_block n l = l ++ replicate (n - length l) 0 <-> (length l <= n)%nat).
Proof.
  intros Hs Ho Hd Hn. split; [by apply strlen_spec|]. split; [|split; [|split]].
  - destruct Hs as [Hs _]. apply cells_app in Hs as [Hs _]. apply memcpy_spec; [done| |lia].
    apply (owned_le _ _ _ _ Hd). lia.
  - change (strcpy d s m) with ((strcpy_loop (S (size m)) d s ;;; ret d) m).
    erewrite bind_ok; [done|]. apply strcpy_loop_spec; [done..|by eapply cstr_fuel].
  - unfold strncpy. rewrite Nat2Z.id. erewrite bind_ok; [done|]. by apply strncpy_loop_spec.
  - unfold strncpy_block. split; [|intros; by rewrite take_ge].
    intros H%(f_equal length). rewrite !length_app, length_take in H. lia.
Qed.

(** ** Witnesses *)

(** "ab", "abc" and six free bytes *)
Definition demo_mem : mem :=
  list_to_map (imap (fun i v => (Z.of_nat i, v)) [97; 98; 0; 97; 98; 99; 0; 1; 1; 1; 1; 1; 1]).

Lemma cells_decide m a l : forallb (fun p => bool_decide (m !! (a + Z.of_nat p.1) = Some p.2)) (imap pair l) = true -> cells m a l.
Proof.
  intros H i v Hi. rewrite forallb_forall in H.
  specialize (H (i, v)). apply bool_decide_eq_true in H; [done|].
  apply list_elem_of_In, list_elem_of_lookup. exists i. by rewrite list_lookup_imap, Hi.
Qed.

Lemma cstr_decide m a l :
  forallb (fun p => bool_decide (m !! (a + Z.of_nat p.1) = Some p.2)) (imap pair (l ++ [0])) = true ->
  forallb (fun c => (0 <? c) && (c <? 256)) l = true -> cstr m a l.
Proof.
  intros H1 H2. split; [by apply cells_decide|]. apply Forall_forall. intros c Hc.
  rewrite forallb_forall in H2. specialize (H2 c). rewrite <-list_elem_of_In in H2.
  specialize (H2 Hc). lia.
Qed.

Lemma owned_decide m a n : forallb (fun i => bool_decide (is_Some (m !! (a + Z.of_nat i)))) (seq 0 n) = true -> owned m a n.
Proof.
  intros H i Hi. rewrite forallb_forall in H. specialize (H i). rewrite <-list_elem_of_In in H.
  apply bool_decide_eq_true in H; [done|]. apply elem_of_seq. lia.
Qed.

Lemma comparisons_correct_witness :
  exists r, strcmp 0 3 demo_mem = Ok (r, demo_mem) /\ Z.sgn r = lex [97; 98] [97; 98; 99] /\
            (r = 0 <-> [97; 98] = [97; 98; 99]).
Proof.
  exact (proj2 (comparisons_correct demo_mem 0 3 [97; 98] [97; 98; 99]
    ltac:(by apply cstr_decide) ltac:(by apply cstr_decide))).
Defined.

Lemma copies_correct_witness :
  strncpy 7 3 2 demo_mem = Ok (7, upd demo_mem 7 [97; 98]).
Proof.
  exact (proj1 (proj2 (proj2 (proj2 (copies_correct demo_mem 7 3 [97; 98; 99] 2
    ltac:(by apply cstr_decide) ltac:(right; simpl; lia)
    ltac:(by apply owned_decide) ltac:(by apply owned_decide)))))).
Defined.
