(* ===== verification/Printf.v ===== *)
(** * Formatted output

    Models [common/io.c]: the number printer and [vsnprintf], over the memory
    of [Strings].

    - The variable arguments are the list of the 64-bit slots the caller
      passed; taking one more than there are is a [Fault], as is a store past
      the bytes of a buffer.
    - [render] is the reference: the text a format denotes, as a function on
      lists, with no buffer. *)

From S2P Require Import Prelude Strings.

(** ** The number printer *)

(** ["0123456789abcdef"] *)
Definition digits : list Z := [48; 49; 50; 51; 52; 53; 54; 55; 56; 57; 97; 98; 99; 100; 101; 102].

(** [tmp[i++] = c] on [char tmp[65]]; the list holds the first [i] bytes *)
Definition tmp_push (c : Z) (tmp : list Z) : M mem (list Z) :=
  if (length tmp <? 65)%nat then ret (tmp ++ [c]) else fault.

(** [do { tmp[i++] = digits[value % base]; value /= base; } while (value > 0)];
    a 64-bit value has at most 64 digits *)
Fixpoint digit_loop (fuel : nat) (value base : Z) (tmp : list Z) : M mem (list Z) :=
  match fuel with
  | O => hang
  | S fuel =>
    c <- deref (digits !! Z.to_nat (value mod base)) ;;
    tmp <- tmp_push c tmp ;;
    let value := value / base in
    if 0 <? value then digit_loop fuel value base tmp else ret tmp
  end.

(** [while (i < width) tmp[i++] = pad;], [k] iterations left *)
Fixpoint pad_loop (k : nat) (pad : Z) (tmp : list Z) : M mem (list Z) :=
  match k with
  | O => ret tmp
  | S k => tmp <- tmp_push pad tmp ;; pad_loop k pad tmp
  end.

(** [*buf++ = c] for each of the bytes; the advanced pointer *)
Fixpoint put_bytes (buf : Z) (l : list Z) : M mem Z :=
  match l with
  | [] => ret buf
  | c :: l => store8 buf c ;;; put_bytes (buf + 1) l
  end.

Definition ksprint_int (buf value base width pad : Z) : M mem Z :=
  tmp <- digit_loop 64 value base [] ;;
  tmp <- pad_loop (Z.to_nat (width - Z.of_nat (length tmp))) pad tmp ;;
  put_bytes buf (reverse tmp).

(** ** The formatter *)

(** [va_arg]: the next slot *)
Definition va_arg (args : list Z) : M mem (Z * list Z) :=
  match args with
  | [] => fault
  | a :: args => ret (a, args)
  end.

(** A 64-bit slot read as [int64_t]. *)
Definition int64 (x : Z) : Z := if x <? 2 ^ 63 then x else x - 2 ^ 64.

(** [while ( *fmt >= '0' && *fmt <= '9')]: an [int] that overflows is a
    [Fault] *)
Fixpoint width_loop (fuel : nat) (fmt width : Z) : M mem (Z * Z) :=
  match fuel with
  | O => hang
  | S fuel =>
    c <- load8 fmt ;;
    if (48 <=? c) && (c <=? 57) then
      let width := width * 10 + (c - 48) in
      if width <? 2 ^ 31 then width_loop fuel (fmt + 1) width else fault
    else ret (fmt, width)
  end.

(** [while ( *s && str < end - 1) *str++ = *s++;] *)
Fixpoint str_loop (fuel : nat) (endp str s : Z) : M mem Z :=
  match fuel with
  | O => hang
  | S fuel =>
    c <- load8 s ;;
    if (c =? 0) || negb (str <? endp - 1) then ret str
    else store8 str c ;;; str_loop fuel endp (str + 1) (s + 1)
  end.

(** ["(null)"], and the same loop over it *)
Definition null_text : list Z := [40; 110; 117; 108; 108; 41].
Fixpoint lit_loop (endp str : Z) (l : list Z) : M mem Z :=
  match l with
  | [] => ret str
  | c :: l =>
    if negb (str <? endp - 1) then ret str
    else store8 str c ;;; lit_loop endp (str + 1) l
  end.

(** [switch ( *fmt)]: the advanced [str] and the arguments left *)
Definition conversion (endp str c width pad : Z) (args : list Z) : M mem (Z * list Z) :=
  if c =? 99 (* 'c' *) then
    r <- va_arg args ;; let '(a, args) := r in store8 str (w8 a) ;;; ret (str + 1, args)
  else if c =? 115 (* 's' *) then
    r <- va_arg args ;; let '(s, args) := r in
    fuel <- scan_fuel ;;
    str <- (if s =? NULL then lit_loop endp str null_text else str_loop fuel endp str s) ;;
    ret (str, args)
  else if c =? 100 (* 'd' *) then
    r <- va_arg args ;; let '(a, args) := r in
    let d := int64 a in
    str <- (if d <? 0 then store8 str 45 ;;; ksprint_int (str + 1) (w64 (- d)) 10 width pad
            else ksprint_int str d 10 width pad) ;;
    ret (str, args)
  else if c =? 120 (* 'x' *) then
    r <- va_arg args ;; let '(a, args) := r in str <- ksprint_int str a 16 width pad ;; ret (str, args)
  else if c =? 112 (* 'p' *) then
    if str <? endp - 19 then
      store8 str 48 ;;; store8 (str + 1) 120 ;;;
      r <- va_arg args ;; let '(a, args) := r in str <- ksprint_int (str + 2) a 16 16 48 ;; ret (str, args)
    else ret (str, args)
  else if c =? 98 (* 'b' *) then
    r <- va_arg args ;; let '(a, args) := r in str <- ksprint_int str a 2 width pad ;; ret (str, args)
  else store8 str c ;;; ret (str + 1, args).

(** [for (; *fmt && str < end - 1; fmt++)] *)
Fixpoint format_loop (fuel : nat) (endp str fmt : Z) (args : list Z) : M mem Z :=
  match fuel with
  | O => hang
  | S fuel' =>
    c <- load8 fmt ;;
    if (c =? 0) || negb (str <? endp - 1) then ret str else
    if negb (c =? 37) then store8 str c ;;; format_loop fuel' endp (str + 1) (fmt + 1) args else
    let fmt := fmt + 1 in
    c0 <- load8 fmt ;;
    let pad := if c0 =? 48 then 48 else 32 in
    let fmt := if c0 =? 48 then fmt + 1 else fmt in
    r <- width_loop fuel fmt 0 ;; let '(fmt, width) := r in
    c <- load8 fmt ;;
    r <- conversion endp str c width pad args ;; let '(str, args) := r in
    format_loop fuel' endp str (fmt + 1) args
  end.

Definition vsnprintf (buf n fmt : Z) (args : list Z) : M mem Z :=
  fuel <- scan_fuel ;;
  str <- format_loop fuel (buf + n) buf fmt args ;;
  store8 str 0 ;;;
  ret (str - buf).

(** ** Reference *)

(** The digits of a value, least significant first. *)
Fixpoint digits_of (fuel : nat) (value base : Z) : list Z :=
  match fuel with
  | O => []
  | S fuel =>
    value mod base :: (if 0 <? value / base then digits_of fuel (value / base) base else [])
  end.

Definition digit_char (d : Z) : Z := if d <? 10 then 48 + d else 87 + d.

(** A number, right-aligned in a field. *)
Definition num_text (value base width pad : Z) : list Z :=
  let ds := digit_char <$> digits_of 64 value base in
  replicate (Z.to_nat (width - Z.of_nat (length ds))) pad ++ reverse ds.

(** The field width at the start of a format and the rest. *)
Fixpoint take_width (f : list Z) (width : Z) : Z * list Z :=
  match f with
  | c :: f' => if (48 <=? c) && (c <=? 57) then take_width f' (width * 10 + (c - 48)) else (width, f)
  | [] => (width, f)
  end.

(** The text of one conversion and the arguments left. *)
Definition conv_text (strs : Z -> option (list Z)) (c width pad : Z) (args : list Z) :
  option (list Z * list Z) :=
  if bool_decide (c ∈ [99; 115; 100; 120; 112; 98]) then
    match args with
    | [] => None
    | a :: args =>
      t ← (if c =? 99 then Some [w8 a]
            else if c =? 115 then (if a =? NULL then Some null_text else strs a)
            else if c =? 100 then
              Some (if int64 a <? 0 then 45 :: num_text (- int64 a) 10 width pad
                    else num_text (int64 a) 10 width pad)
            else if c =? 120 then Some (num_text a 16 width pad)
            else if c =? 112 then Some (48 :: 120 :: num_text a 16 16 48)
            else Some (num_text a 2 width pad)) ;
      Some (t, args)
    end
  else Some ([c], args).

(** The text a format denotes: [None] when an argument is missing, a field is
    wider than 65 or the format ends in the middle of a conversion. *)
Fixpoint render (fuel : nat) (strs : Z -> option (list Z)) (f : list Z) (args : list Z) :
  option (list Z) :=
  match fuel, f with
  | O, _ => None
  | S _, [] => Some []
  | S fuel, c :: f =>
    if negb (c =? 37) then t ← render fuel strs f args; Some (c :: t) else
    let pad := match f with 48 :: _ => 48 | _ => 32 end in
    let f := match f with 48 :: f' => f' | _ => f end in
    match take_width f 0 with
    | (_, []) => None
    | (width, c :: f) =>
      if 65 <? width then None else
      '(t, args) ← conv_text strs c width pad args;
      t' ← render fuel strs f args; Some (t ++ t')
    end
  end.

(** ** Numbers *)

Lemma digits_lookup d : 0 <= d < 16 -> digits !! Z.to_nat d = Some (digit_char d).
Proof.
  intros Hd. assert (d ∈ seqZ 0 16) as H by (apply elem_of_seqZ; lia). clear Hd.
  revert d H. apply Forall_forall. vm_compute. repeat constructor.
Qed.

Lemma length_digits_of fuel v b : (length (digits_of fuel v b) <= fuel)%nat.
Proof.
  revert v. induction fuel as [|fuel IH]; intros v; simpl; [done|].
  destruct (0 <? v / b); simpl; [specialize (IH (v / b)); lia|lia].
Qed.

Lemma div_digit v b k : 2 <= b -> 0 <= v < 2 ^ Z.of_nat (S k) -> 0 <= v / b < 2 ^ Z.of_nat k.
Proof.
  intros Hb Hv. rewrite Nat2Z.inj_succ, Z.pow_succ_r in Hv by lia.
  split; [apply Z.div_pos; lia|]. apply Z.div_lt_upper_bound; nia.
Qed.

Lemma tmp_push_ok c tmp m : (length tmp < 65)%nat -> tmp_push c tmp m = Ok (tmp ++ [c], m).
Proof. intros H. unfold tmp_push. by destruct (Nat.ltb_spec (length tmp) 65); [|lia]. Qed.

Lemma digit_loop_spec fuel v b tmp m :
  2 <= b <= 16 -> 0 <= v < 2 ^ Z.of_nat fuel -> (1 <= fuel)%nat -> (length tmp + fuel <= 65)%nat ->
  digit_loop fuel v b tmp m = Ok (tmp ++ (digit_char <$> digits_of fuel v b), m).
Proof.
  intros Hb. revert v tmp. induction fuel as [|fuel IH]; intros v tmp Hv Hf Ht; [lia|].
  cbn [digit_loop digits_of fmap list_fmap].
  pose proof (Z.mod_pos_bound v b ltac:(lia)).
  rewrite digits_lookup by lia. unfold deref at 1. rewrite (bind_ok _ _ _ _ _ eq_refl).
  erewrite bind_ok by (apply tmp_push_ok; lia).
  pose proof (div_digit v b fuel ltac:(lia) Hv) as Hd. cbv zeta.
  destruct (Z.ltb_spec 0 (v / b)) as [H0|]; [|done].
  rewrite IH; [by rewrite <-app_assoc|done| |rewrite length_app; simpl; lia].
  destruct fuel; [simpl in Hd; lia|lia].
Qed.

Lemma pad_loop_spec k pad tmp m :
  (length tmp + k <= 65)%nat -> pad_loop k pad tmp m = Ok (tmp ++ replicate k pad, m).
Proof.
  revert tmp. induction k as [|k IH]; intros tmp Hk; simpl; [by rewrite app_nil_r|].
  erewrite bind_ok by (apply tmp_push_ok; lia). rewrite IH;
    [by rewrite <-app_assoc|rewrite length_app; simpl; lia].
Qed.

Lemma put_bytes_spec buf l m :
  owned m buf (length l) -> put_bytes buf l m = Ok (buf + Z.of_nat (length l), upd m buf l).
Proof.
  revert buf m. induction l as [|c l IH]; intros buf m H; simpl; [by rewrite Z.add_0_r|].
  apply owned_S in H as [H0 H]. rewrite (bind_ok _ _ _ _ _ (store8_ok _ _ _ H0)).
  rewrite IH by (by apply owned_insert). do 2 f_equal. lia.
Qed.

Lemma length_num_text v b w p :
  Z.of_nat (length (num_text v b w p)) = Z.max w (Z.of_nat (length (digits_of 64 v b))).
Proof.
  unfold num_text. rewrite length_app, length_replicate, length_reverse, length_fmap. lia.
Qed.

Lemma ksprint_int_spec m buf v b w p :
  0 <= v < 2 ^ 64 -> 2 <= b <= 16 -> w <= 65 -> owned m buf (length (num_text v b w p)) ->
  ksprint_int buf v b w p m =
    Ok (buf + Z.of_nat (length (num_text v b w p)), upd m buf (num_text v b w p)).
Proof.
  intros Hv Hb Hw Ho. unfold ksprint_int.
  rewrite (bind_ok _ _ _ _ _ (digit_loop_spec 64 v b [] m Hb Hv ltac:(lia) ltac:(simpl; lia))).
  pose proof (length_digits_of 64 v b). cbn [app].
  erewrite bind_ok by (apply pad_loop_spec; rewrite length_fmap; lia).
  rewrite reverse_app, reverse_replicate. by rewrite put_bytes_spec.
Qed.

(** *** Reading a number back *)

Definition char_digit (c : Z) : Z := if c <? 97 then c - 48 else c - 87.

(** The value of a number in a field padded with blanks or zeros. *)
Definition read_num (base : Z) (l : list Z) : Z :=
  fold_left (fun acc c => acc * base + char_digit c) (filter (.≠ 32) l) 0.

Lemma char_digit_char d : 0 <= d < 16 -> char_digit (digit_char d) = d /\ digit_char d <> 32.
Proof. intros Hd. unfold char_digit, digit_char. repeat case_bool; lia. Qed.

Lemma digits_of_range fuel v b : 2 <= b -> 0 <= v -> Forall (fun d => 0 <= d < b) (digits_of fuel v b).
Proof.
  intros Hb. revert v. induction fuel as [|fuel IH]; intros v Hv; simpl; constructor.
  - by apply Z.mod_pos_bound; lia.
  - destruct (0 <? v / b); [apply IH, Z.div_pos; lia|constructor].
Qed.

(** Digits, least significant first, denote the value. *)
Lemma digits_of_value fuel v b :
  2 <= b -> 0 <= v < 2 ^ Z.of_nat fuel ->
  fold_right (fun d acc => acc * b + d) 0 (digits_of fuel v b) = v.
Proof.
  intros Hb. revert v. induction fuel as [|fuel IH]; intros v Hv; simpl; [simpl in Hv; lia|].
  pose proof (div_digit v b fuel Hb Hv) as Hd. pose proof (Z.div_mod v b ltac:(lia)).
  destruct (Z.ltb_spec 0 (v / b)); [rewrite IH by done; lia|]. simpl.
  assert (v / b = 0) by lia. lia.
Qed.

Lemma fold_zeros b k l : fold_left (fun acc c => acc * b + char_digit c) (replicate k 48 ++ l) 0 =
  fold_left (fun acc c => acc * b + char_digit c) l 0.
Proof. induction k as [|k IH]; simpl; [done|]. exact IH. Qed.

Lemma filter_digit_chars l :
  Forall (fun d => 0 <= d < 16) l -> filter (.≠ 32) (digit_char <$> l) = digit_char <$> l.
Proof.
  induction 1 as [|d l Hd _ IH]; [done|]. cbn [fmap list_fmap].
  rewrite filter_cons_True; [by f_equal|]. by apply char_digit_char.
Qed.

Lemma read_digits b l :
  Forall (fun d => 0 <= d < 16) l ->
  fold_left (fun acc c => acc * b + char_digit c) (reverse (digit_char <$> l)) 0 =
  fold_right (fun d acc => acc * b + d) 0 l.
Proof.
  intros H. unfold reverse. rewrite <-rev_alt, <-fold_left_rev_right, rev_involutive.
  induction H as [|d l Hd _ IH]; [done|]. cbn [fmap list_fmap fold_right].
  rewrite (proj1 (char_digit_char d Hd)). by f_equal; f_equal.
Qed.

Lemma read_num_text v b w p :
  0 <= v < 2 ^ 64 -> 2 <= b <= 16 -> p = 32 \/ p = 48 ->
  read_num b (num_text v b w p) = v.
Proof.
  intros Hv Hb Hp. unfold read_num, num_text.
  assert (Forall (fun d => 0 <= d < 16) (digits_of 64 v b)) as Hd.
  { eapply Forall_impl; [apply digits_of_range; lia|]. simpl. lia. }
  assert (filter (.≠ 32) (reverse (digit_char <$> digits_of 64 v b)) =
          reverse (digit_char <$> digits_of 64 v b)) as Hf.
  { rewrite <-fmap_reverse. apply filter_digit_chars. by apply Forall_reverse. }
  rewrite filter_app, Hf.
  assert (forall k, filter (.≠ 32) (replicate k p) = if p =? 32 then [] else replicate k 48) as ->.
  { intros k. destruct Hp as [-> | ->]; simpl; (induction k as [|k IH]; [done|]); simpl.
    - rewrite filter_cons_False by (by intros []). done.
    - rewrite filter_cons_True by done. by f_equal. }
  destruct (p =? 32); [cbn [app]|rewrite fold_zeros];
    rewrite read_digits by done; apply digits_of_value; lia.
Qed.

(** C23: ksprint_int writes the digits of the value in the base, padded on the
    left to the width, returns the address after them and touches nothing
    else, for every 64-bit value, every base from 2 to 16 and every width its
    65-byte scratch buffer has room for; and the number it printed, blanks or
    zeros in front of it, reads back as the value. *)
Theorem ksprint_int_correct m buf value base width pad :
  0 <= value < 2 ^ 64 -> 2 <= base <= 16 -> width <= 65 -> pad = 32 \/ pad = 48 ->
  owned m buf (length (num_text value base width pad)) ->
  exists t, ksprint_int buf value base width pad m = Ok (buf + Z.of_nat (length t), upd m buf t) /\
    read_num base t = value /\ width <= Z.of_nat (length t).
Proof.
  intros Hv Hb Hw Hp Ho. exists (num_text value base width pad). split; [|split].
  - by apply ksprint_int_spec.
  - by apply read_num_text.
  - rewrite length_num_text. lia.
Qed.

(** ** The formatter against its reference *)

Section formatter.
Context (buf n : Z) (strs : Z -> option (list Z)).

(** The strings the arguments point at, outside the buffer. *)
Definition strings_ok (m : mem) : Prop :=
  forall p l, strs p = Some l -> cstr m p l /\ disjoint_blocks p (S (length l)) buf (Z.to_nat n).

(** The loop at a point of the format: the rest of the format is a string
    outside the buffer, and the buffer can be written. *)
Record fstate (m : mem) (fmt : Z) (f : list Z) : Prop := {
  fs_fmt : cstr m fmt f;
  fs_out : disjoint_blocks fmt (S (length f)) buf (Z.to_nat n);
  fs_strs : strings_ok m;
  fs_buf : owned m buf (Z.to_nat n);
}.

Lemma cstr_upd m a l b t :
  cstr m a l -> disjoint_blocks a (S (length l)) b (length t) -> cstr (upd m b t) a l.
Proof.
  intros [H1 H2] Hd. split; [|done]. apply cells_upd; [done|].
  rewrite length_app, Nat.add_comm. exact Hd.
Qed.

Lemma fstate_upd m fmt f str t :
  fstate m fmt f -> buf <= str -> str + Z.of_nat (length t) <= buf + n -> fstate (upd m str t) fmt f.
Proof.
  intros [H1 H2 H3 H4] Hs He. unfold disjoint_blocks in *.
  split; [apply cstr_upd; [done|unfold disjoint_blocks; lia]|done| |by apply owned_upd].
  intros p l Hp. destruct (H3 p l Hp) as [Hc Hd]. split; [|done].
  apply cstr_upd; [done|]. unfold disjoint_blocks in *. lia.
Qed.

Lemma fstate_drop m fmt pre f :
  fstate m fmt (pre ++ f) -> fstate m (fmt + Z.of_nat (length pre)) f.
Proof.
  intros [[H1 H1'] H2 H3 H4]. rewrite <-app_assoc in H1. apply cells_app in H1 as [_ H1].
  apply Forall_app in H1' as [_ H1']. split; [by split| |done..].
  unfold disjoint_blocks in *. rewrite length_app in H2. lia.
Qed.

Lemma fstate_owned m fmt f str (k : nat) :
  fstate m fmt f -> buf <= str -> str + Z.of_nat k <= buf + n -> owned m str k.
Proof.
  intros [_ _ _ H] Hs He i Hi. specialize (H (Z.to_nat (str - buf) + i)%nat ltac:(lia)).
  by replace (buf + Z.of_nat (Z.to_nat (str - buf) + i)) with (str + Z.of_nat i) in H by lia.
Qed.

Lemma fstate_cell m fmt f str : fstate m fmt f -> buf <= str -> str < buf + n -> is_Some (m !! str).
Proof.
  intros H ? ?. assert (owned m str 1) as Ho by (eapply fstate_owned; [done|lia..]).
  by apply owned_S in Ho as [Ho _].
Qed.

Lemma str_loop_spec fuel endp str s l m :
  cstr m s l -> disjoint_blocks s (S (length l)) str (length l) -> owned m str (length l) ->
  str + Z.of_nat (length l) < endp -> (length l < fuel)%nat ->
  str_loop fuel endp str s m = Ok (str + Z.of_nat (length l), upd m str l).
Proof.
  revert fuel str s m. induction l as [|c l IH]; intros [|fuel] str s m [Hc Hn] Hd Ho He Hf; simpl in *; try lia;
    apply cells_cons in Hc as [H0 Hc]; rewrite (bind_ok _ _ _ _ _ (load8_ok _ _ _ H0)).
  - by rewrite Z.add_0_r.
  - apply Forall_cons in Hn as [Hc0 Hn]. apply owned_S in Ho as [Ho0 Ho].
    destruct (Z.eqb_spec c 0); [lia|]. destruct (Z.ltb_spec str (endp - 1)); [|lia]. simpl.
    rewrite (bind_ok _ _ _ _ _ (store8_ok _ _ _ Ho0)). unfold disjoint_blocks in *.
    rewrite IH; [do 2 f_equal; lia| |lia|by apply owned_insert|lia..].
    split; [|done]. apply cells_insert; [done|]. rewrite length_app. simpl. lia.
Qed.

Lemma lit_loop_spec endp str l m :
  owned m str (length l) -> str + Z.of_nat (length l) < endp ->
  lit_loop endp str l m = Ok (str + Z.of_nat (length l), upd m str l).
Proof.
  revert str m. induction l as [|c l IH]; intros str m Ho He; simpl in *; [by rewrite Z.add_0_r|].
  apply owned_S in Ho as [Ho0 Ho]. destruct (Z.ltb_spec str (endp - 1)); [|lia]. simpl.
  rewrite (bind_ok _ _ _ _ _ (store8_ok _ _ _ Ho0)).
  rewrite IH; [do 2 f_equal; lia|by apply owned_insert|lia].
Qed.

Lemma take_width_spec m fuel fmt f w w' rest :
  cstr m fmt f -> (length f < fuel)%nat -> 0 <= w -> take_width f w = (w', rest) -> w' <= 65 ->
  w <= w' /\ exists pre, f = pre ++ rest /\
    width_loop fuel fmt w m = Ok ((fmt + Z.of_nat (length pre), w'), m).
Proof.
  revert fuel fmt w. induction f as [|c f IH]; intros [|fuel] fmt w [Hc Hn] Hf Hw Ht Hw';
    simpl in Hf; try lia; cbn [take_width width_loop app] in *;
    apply cells_cons in Hc as [H0 Hc]; rewrite (bind_ok _ _ _ _ _ (load8_ok _ _ _ H0)).
  - simplify_eq. split; [lia|]. exists []. by rewrite Z.add_0_r.
  - apply Forall_cons in Hn as [_ Hn].
    destruct ((48 <=? c) && (c <=? 57)) eqn:Hd.
    + apply andb_true_iff in Hd as [H1%Z.leb_le H2%Z.leb_le].
      destruct (IH fuel (fmt + 1) (w * 10 + (c - 48))) as (Hle & pre & -> & Hp);
        [by split|lia|lia|done|done|]. split; [lia|]. exists (c :: pre). split; [done|].
      destruct (Z.ltb_spec (w * 10 + (c - 48)) (2 ^ 31)); [|lia]. rewrite Hp. simpl.
      do 3 f_equal. lia.
    + simplify_eq. split; [lia|]. exists []. by rewrite Z.add_0_r.
Qed.

Lemma num_spec m fmt f str v b w pad :
  fstate m fmt f -> 0 <= v < 2 ^ 64 -> 2 <= b <= 16 -> w <= 65 ->
  buf <= str -> str + Z.of_nat (length (num_text v b w pad)) <= buf + n ->
  ksprint_int str v b w pad m =
    Ok (str + Z.of_nat (length (num_text v b w pad)), upd m str (num_text v b w pad)).
Proof. intros. apply ksprint_int_spec; [done..|]. by eapply fstate_owned. Qed.

Lemma int64_range a : 0 <= a < 2 ^ 64 -> - 2 ^ 63 <= int64 a < 2 ^ 63.
Proof. intros. unfold int64. case_bool; lia. Qed.

Lemma conversion_d m fmt f str w pad a args :
  let t := if int64 a <? 0 then 45 :: num_text (- int64 a) 10 w pad else num_text (int64 a) 10 w pad in
  fstate m fmt f -> 0 <= a < 2 ^ 64 -> w <= 65 ->
  buf <= str -> str + Z.of_nat (length t) + 1 < buf + n ->
  conversion (buf + n) str 100 w pad (a :: args) m = Ok ((str + Z.of_nat (length t), args), upd m str t).
Proof.
  intros t Hf Ha Hw Hs He. pose proof (int64_range a Ha).
  change (conversion (buf + n) str 100 w pad (a :: args) m) with
    ((str <- (if int64 a <? 0 then store8 str 45 ;;; ksprint_int (str + 1) (w64 (- int64 a)) 10 w pad
              else ksprint_int str (int64 a) 10 w pad) ;; ret (str, args)) m).
  erewrite bind_ok; [done|]. subst t. destruct (Z.ltb_spec (int64 a) 0).
  - simpl in He. rewrite w64_small by lia. erewrite bind_ok; cycle 1.
    { apply store8_ok. apply (fstate_cell _ _ _ _ Hf); lia. }
    pose proof (fstate_upd m fmt f str [45] Hf Hs ltac:(simpl; lia)) as Hf'.
    rewrite (num_spec _ _ _ _ _ _ _ _ Hf') by lia. simpl. do 2 f_equal. lia.
  - by rewrite (num_spec _ _ _ _ _ _ _ _ Hf) by lia.
Qed.

Lemma conversion_s m fmt f str w pad a args t :
  fstate m fmt f -> (if a =? NULL then Some null_text else strs a) = Some t ->
  buf <= str -> str + Z.of_nat (length t) + 1 < buf + n ->
  conversion (buf + n) str 115 w pad (a :: args) m = Ok ((str + Z.of_nat (length t), args), upd m str t).
Proof.
  intros Hf Ht Hs He.
  change (conversion (buf + n) str 115 w pad (a :: args) m) with
    ((str <- (if a =? NULL then lit_loop (buf + n) str null_text
              else str_loop (S (size m)) (buf + n) str a) ;; ret (str, args)) m).
  erewrite bind_ok; [done|]. pose proof (fstate_owned m fmt f str (length t) Hf Hs ltac:(lia)).
  destruct (a =? NULL); [simplify_eq; apply lit_loop_spec; [done|lia]|].
  destruct (fs_strs _ _ _ Hf a t Ht) as [Hc Hd].
  apply str_loop_spec; [done| |done|lia|by eapply cstr_fuel].
  unfold disjoint_blocks in *. lia.
Qed.

Lemma conversion_p m fmt f str w pad a args :
  let t := 48 :: 120 :: num_text a 16 16 48 in
  fstate m fmt f -> 0 <= a < 2 ^ 64 -> buf <= str -> str + Z.of_nat (length t) + 1 < buf + n ->
  conversion (buf + n) str 112 w pad (a :: args) m = Ok ((str + Z.of_nat (length t), args), upd m str t).
Proof.
  intros t Hf Ha Hs He. pose proof (length_num_text a 16 16 48) as Hl.
  assert (Z.of_nat (length t) = 2 + Z.of_nat (length (num_text a 16 16 48))) as Ht by (simpl; lia).
  change (conversion (buf + n) str 112 w pad (a :: args) m) with
    ((if str <? buf + n - 19 then
        store8 str 48 ;;; store8 (str + 1) 120 ;;;
        str <- ksprint_int (str + 2) a 16 16 48 ;; ret (str, args)
      else ret (str, a :: args)) m).
  destruct (Z.ltb_spec str (buf + n - 19)); [|lia].
  erewrite bind_ok by (apply store8_ok, (fstate_cell _ _ _ _ Hf); lia).
  pose proof (fstate_upd m fmt f str [48] Hf Hs ltac:(simpl; lia)) as Hf1.
  erewrite bind_ok by (apply store8_ok, (fstate_cell _ _ _ _ Hf1); lia).
  pose proof (fstate_upd m fmt f str [48; 120] Hf Hs ltac:(simpl; lia)) as Hf2.
  erewrite bind_ok by (apply (num_spec _ _ _ _ _ _ _ _ Hf2); lia).
  unfold ret. replace (str + 2) with (str + 1 + 1) by lia. do 3 f_equal. lia.
Qed.

Lemma conversion_spec m fmt f str c w pad args t args' :
  fstate m fmt f -> Forall (fun a => 0 <= a < 2 ^ 64) args -> w <= 65 ->
  conv_text strs c w pad args = Some (t, args') ->
  buf <= str -> str + Z.of_nat (length t) + 1 < buf + n ->
  conversion (buf + n) str c w pad args m = Ok ((str + Z.of_nat (length t), args'), upd m str t).
Proof.
  intros Hf Ha Hw Ht Hs He. unfold conv_text in Ht.
  destruct (bool_decide (c ∈ [99; 115; 100; 120; 112; 98])) eqn:Hc.
  - apply bool_decide_eq_true in Hc. destruct args as [|a args]; [done|].
    apply Forall_cons in Ha as [Ha _].
    repeat apply elem_of_cons in Hc as [-> | Hc]; [..|by apply not_elem_of_nil in Hc];
      simpl in Ht; [|apply bind_Some in Ht as (t0 & Ht0 & Ht)| | | |]; simplify_eq.
    + change (conversion (buf + n) str 99 w pad (a :: args') m) with
        ((store8 str (w8 a) ;;; ret (str + 1, args')) m).
      simpl in He. by erewrite bind_ok by (apply store8_ok, (fstate_cell _ _ _ _ Hf); lia).
    + by apply conversion_s with fmt f.
    + by apply conversion_d with fmt f.
    + change (conversion (buf + n) str 120 w pad (a :: args') m) with
        ((str <- ksprint_int str a 16 w pad ;; ret (str, args')) m).
      by erewrite bind_ok by (apply (num_spec _ _ _ _ _ _ _ _ Hf); lia).
    + by apply conversion_p with fmt f.
    + change (conversion (buf + n) str 98 w pad (a :: args') m) with
        ((str <- ksprint_int str a 2 w pad ;; ret (str, args')) m).
      by erewrite bind_ok by (apply (num_spec _ _ _ _ _ _ _ _ Hf); lia).
  - simplify_eq. apply bool_decide_eq_false in Hc. unfold conversion.
    rewrite !not_elem_of_cons in Hc. destruct Hc as (H1 & H2 & H3 & H4 & H5 & H6 & _).
    apply Z.eqb_neq in H1, H2, H3, H4, H5, H6. rewrite H1, H2, H3, H4, H5, H6. simpl in He.
    by erewrite bind_ok by (apply store8_ok, (fstate_cell _ _ _ _ Hf); lia).
Qed.

Lemma conv_args c w pad args t args' P :
  conv_text strs c w pad args = Some (t, args') -> Forall P args -> Forall P args'.
Proof.
  unfold conv_text. intros Ht H. destruct (bool_decide _); [|by simplify_eq].
  destruct args as [|a args]; [done|]. apply bind_Some in Ht as (? & _ & ?).
  simplify_eq. by apply Forall_cons in H as [_ H].
Qed.

(** The flag of a conversion: the pad character and the address after it. *)
Lemma flag_spec m fmt f :
  fstate m fmt f ->
  exists c0 pre, load8 fmt m = Ok (c0, m) /\
    f = pre ++ match f with 48 :: f' => f' | _ => f end /\
    (if c0 =? 48 then 48 else 32) = match f with 48 :: _ => 48 | _ => 32 end /\
    (if c0 =? 48 then fmt + 1 else fmt) = fmt + Z.of_nat (length pre).
Proof.
  intros [[H Hn] _ _ _]. destruct f as [|c f]; cbn [app] in H; apply cells_cons in H as [H _].
  - exists 0, []. split; [by apply load8_ok|]. simpl. split; [done|]. split; [done|lia].
  - exists c. destruct (Z.eqb_spec c 48) as [->|Hc].
    + exists [48]. split; [by apply load8_ok|done].
    + exists []. split; [by apply load8_ok|]. simpl. rewrite Z.add_0_r.
      repeat (case_match; try done).
Qed.

Lemma format_loop_spec k fuel f fmt str args m out :
  render k strs f args = Some out -> fstate m fmt f -> (length f < fuel)%nat ->
  Forall (fun a => 0 <= a < 2 ^ 64) args ->
  buf <= str -> str + Z.of_nat (length out) + 1 < buf + n ->
  format_loop fuel (buf + n) str fmt args m = Ok (str + Z.of_nat (length out), upd m str out).
Proof.
  revert fuel f fmt str args m out.
  induction k as [|k IH]; intros [|fuel] f fmt str args m out Hr Hf Hfu Ha Hs He; [done|done|lia|].
  pose proof (fs_fmt _ _ _ Hf) as [Hc Hn].
  destruct f as [|c f]; cbn [app] in Hc; apply cells_cons in Hc as [H0 _]; simpl in Hr;
    cbn [format_loop]; rewrite (bind_ok _ _ _ _ _ (load8_ok _ _ _ H0)).
  { simplify_eq. by rewrite Z.add_0_r. }
  apply Forall_cons in Hn as [Hc0 _]. destruct (Z.eqb_spec c 0); [lia|].
  destruct (Z.ltb_spec str (buf + n - 1)); [|lia]. cbn [orb negb].
  pose proof (fstate_drop _ _ [c] _ Hf) as Hf1.
  change (Z.of_nat (length [c])) with 1 in Hf1. simpl in Hfu.
  destruct (Z.eqb_spec c 37) as [->|Hc]; cbn [negb] in *.
  - destruct (flag_spec _ _ _ Hf1) as (c0 & pre & E0 & Epre & Epad & Eptr).
    cbv zeta. rewrite (bind_ok _ _ _ _ _ E0), Epad, Eptr. clear E0 Epad Eptr.
    set (f1 := match f with 48 :: f' => f' | _ => f end) in *.
    rewrite Epre in Hf1. apply fstate_drop in Hf1. apply (f_equal length) in Epre.
    rewrite length_app in Epre.
    destruct (take_width f1 0) as [w rest] eqn:Ew. destruct rest as [|cc rest]; [done|].
    destruct (Z.ltb_spec 65 w); [done|].
    destruct (take_width_spec m (S fuel) (fmt + 1 + Z.of_nat (length pre)) f1 0 w (cc :: rest))
      as (_ & pre2 & -> & Ewl); [apply (fs_fmt _ _ _ Hf1)|lia|done..|].
    rewrite length_app in Epre. simpl in Epre.
    rewrite (bind_ok _ _ _ _ _ Ewl). apply fstate_drop in Hf1.
    pose proof (fs_fmt _ _ _ Hf1) as [Hcc _]. cbn [app] in Hcc. apply cells_cons in Hcc as [Hcc _].
    rewrite (bind_ok _ _ _ _ _ (load8_ok _ _ _ Hcc)).
    apply bind_Some in Hr as ([t args'] & Ht & Hr). apply bind_Some in Hr as (t' & Hr & Hout).
    simplify_eq. rewrite length_app in *.
    rewrite (bind_ok _ _ _ _ _ (conversion_spec m _ _ str _ w _ _ t args' Hf1 Ha ltac:(lia) Ht Hs ltac:(lia))).
    pose proof (fstate_upd _ _ _ str t (fstate_drop _ _ [cc] _ Hf1) Hs ltac:(lia)) as Hf2.
    rewrite (IH fuel rest _ _ _ _ t' Hr Hf2); [|lia|by eapply conv_args|lia..].
    rewrite upd_app. do 2 f_equal. lia.
  - apply bind_Some in Hr as (t & Hr & ?). simplify_eq. simpl in He.
    rewrite (bind_ok _ _ _ _ _ (store8_ok _ _ c (fstate_cell _ _ _ _ Hf Hs ltac:(lia)))).
    pose proof (fstate_upd _ _ _ str [c] Hf1 Hs ltac:(simpl; lia)) as Hf2.
    rewrite (IH fuel f _ _ _ _ t Hr Hf2); [|lia|done|lia..].
    simpl. do 2 f_equal. lia.
Qed.
End formatter.

Lemma vsnprintf_spec m buf n fmt f strs args out :
  render (S (length f)) strs f args = Some out -> Z.of_nat (length out) + 1 < n ->
  Forall (fun a => 0 <= a < 2 ^ 64) args ->
  fstate buf n strs m fmt f ->
  vsnprintf buf n fmt args m = Ok (Z.of_nat (length out), upd m buf (out ++ [0])).
Proof.
  intros Hr Hn Ha Hf. unfold vsnprintf. erewrite bind_ok by done.
  rewrite (bind_ok _ _ _ _ _ (format_loop_spec buf n strs _ _ f fmt buf args m out Hr Hf
    (cstr_fuel _ _ _ (fs_fmt _ _ _ _ _ _ Hf)) Ha ltac:(lia) ltac:(lia))).
  pose proof (fstate_upd buf n strs m fmt f buf out Hf ltac:(lia) ltac:(lia)) as Hf'.
  erewrite bind_ok by (apply store8_ok, (fstate_cell _ _ _ _ _ _ _ Hf'); lia).
  rewrite upd_app. unfold ret. do 2 f_equal. lia.
Qed.

(** C20: vsnprintf prints what its format denotes: when the text the reference
    computes from the format and the arguments leaves at least two bytes of
    the buffer free, vsnprintf writes exactly that text and a NUL at the start
    of the buffer, changes nothing else, and returns the length of the text. *)
Theorem vsnprintf_correct m buf n fmt f strs args out :
  render (S (length f)) strs f args = Some out -> Z.of_nat (length out) + 1 < n ->
  Forall (fun a => 0 <= a < 2 ^ 64) args ->
  fstate buf n strs m fmt f ->
  vsnprintf buf n fmt args m = Ok (Z.of_nat (length out), upd m buf (out ++ [0])).
Proof. apply vsnprintf_spec. Qed.

(** ** Outside the reference's domain *)

Lemma put_bytes_overrun buf (k : nat) l m :
  owned m buf k -> m !! (buf + Z.of_nat k) = None -> (k < length l)%nat -> put_bytes buf l m = Fault.
Proof.
  revert k buf m. induction l as [|c l IH]; intros k buf m Ho Hk Hl; simpl in Hl; [lia|]. simpl.
  destruct k as [|k]; [rewrite Z.add_0_r in Hk; unfold bind; by rewrite store8_fault|].
  apply owned_S in Ho as [Ho0 Ho]. rewrite (bind_ok _ _ _ _ _ (store8_ok _ _ _ Ho0)).
  apply (IH k); [by apply owned_insert| |lia].
  replace (buf + 1 + Z.of_nat k) with (buf + Z.of_nat (S k)) by lia.
  rewrite lookup_insert_ne by lia. done.
Qed.

Lemma ksprint_int_overrun m buf (k : nat) v b w p :
  0 <= v < 2 ^ 64 -> 2 <= b <= 16 -> w <= 65 ->
  owned m buf k -> m !! (buf + Z.of_nat k) = None -> (k < length (num_text v b w p))%nat ->
  ksprint_int buf v b w p m = Fault.
Proof.
  intros Hv Hb Hw Ho Hk Hl. unfold ksprint_int.
  rewrite (bind_ok _ _ _ _ _ (digit_loop_spec 64 v b [] m Hb Hv ltac:(lia) ltac:(simpl; lia))).
  pose proof (length_digits_of 64 v b). cbn [app].
  erewrite bind_ok by (apply pad_loop_spec; rewrite length_fmap; lia).
  rewrite reverse_app, reverse_replicate. by apply put_bytes_overrun with k.
Qed.

(** vsnprintf does not keep to the size it is given: on a buffer of n >= 2
    bytes that is followed by memory it may not write, the format "%x" with a
    number of more than n digits runs past the end of the buffer and faults,
    because the conversions of numbers are not bounded by the end of the
    buffer. *)
Theorem vsnprintf_overruns m buf (n : nat) fmt a :
  (2 <= n)%nat -> cells m fmt [37; 120; 0] -> owned m buf n -> m !! (buf + Z.of_nat n) = None ->
  0 <= a < 2 ^ 64 -> (n < length (num_text a 16 0 32))%nat ->
  vsnprintf buf (Z.of_nat n) fmt [a] m = Fault.
Proof.
  intros Hn Hf Ho He Ha Hl.
  apply cells_cons in Hf as [F0 Hf]. apply cells_cons in Hf as [F1 Hf]. apply cells_cons in Hf as [F2 _].
  unfold vsnprintf. erewrite bind_ok by done.
  assert (format_loop (S (size m)) (buf + Z.of_nat n) buf fmt [a] m = Fault) as E;
    [|unfold bind at 1; by rewrite E].
  cbn [format_loop width_loop]. rewrite (bind_ok _ _ _ _ _ (load8_ok _ _ _ F0)).
  destruct (Z.ltb_spec buf (buf + Z.of_nat n - 1)); [|lia]. cbn -[conversion load8].
  rewrite (bind_ok _ _ _ _ _ (load8_ok _ _ _ F1)). cbn -[conversion load8].
  erewrite bind_ok by (rewrite (bind_ok _ _ _ _ _ (load8_ok _ _ _ F1)); done).
  cbn -[conversion load8]. rewrite (bind_ok _ _ _ _ _ (load8_ok _ _ _ F1)).
  unfold bind at 1.
  change (conversion (buf + Z.of_nat n) buf 120 0 32 [a] m) with
    ((str <- ksprint_int buf a 16 0 32 ;; ret (str, @nil Z)) m).
  unfold bind at 1. by rewrite (ksprint_int_overrun m buf n) by (done || lia).
Qed.

(** ** Witnesses *)

(** A 16-byte buffer at 0, the format "%03d:%s %x" at 16 and "ok" at 32 *)
Definition print_mem : mem :=
  list_to_map (imap (fun i v => (Z.of_nat i, v))
    (replicate 16 0 ++ [37; 48; 51; 100; 58; 37; 115; 32; 37; 120; 0] ++ replicate 5 0 ++ [111; 107; 0])).

Definition print_strs (p : Z) : option (list Z) := if p =? 32 then Some [111; 107] else None.

Lemma print_state : fstate 0 16 print_strs print_mem 16 [37; 48; 51; 100; 58; 37; 115; 32; 37; 120].
Proof.
  split; [by apply cstr_decide|by right| |by apply owned_decide].
  intros p l. unfold print_strs. destruct (Z.eqb_spec p 32) as [->|]; [|done].
  intros [= <-]. split; [by apply cstr_decide|by right].
Qed.

(** vsnprintf(buf, 16, "%03d:%s %x", -7, "ok", 255) prints "-007:ok ff". *)
Lemma vsnprintf_correct_witness :
  vsnprintf 0 16 16 [2 ^ 64 - 7; 32; 255] print_mem =
    Ok (10, upd print_mem 0 [45; 48; 48; 55; 58; 111; 107; 32; 102; 102; 0]).
Proof.
  exact (vsnprintf_correct print_mem 0 16 16 [37; 48; 51; 100; 58; 37; 115; 32; 37; 120] print_strs
    [2 ^ 64 - 7; 32; 255] [45; 48; 48; 55; 58; 111; 107; 32; 102; 102]
    eq_refl eq_refl ltac:(repeat constructor; lia) print_state).
Defined.

Lemma ksprint_int_correct_witness :
  exists t, ksprint_int 0 (2 ^ 64 - 1) 2 0 32 (gset_to_gmap 0 (list_to_set (seqZ 0 64))) =
    Ok (0 + Z.of_nat (length t), upd (gset_to_gmap 0 (list_to_set (seqZ 0 64))) 0 t) /\
    read_num 2 t = 2 ^ 64 - 1 /\ 0 <= Z.of_nat (length t).
Proof.
  exact (ksprint_int_correct (gset_to_gmap 0 (list_to_set (seqZ 0 64))) 0 (2 ^ 64 - 1) 2 0 32
    ltac:(lia) ltac:(lia) ltac:(lia) ltac:(by left) ltac:(by apply owned_decide; vm_compute)).
Defined.

(** Four writable bytes and, elsewhere, the format *)
Definition small_mem : mem :=
  list_to_map [(0, 0); (1, 0); (2, 0); (3, 0); (8, 37); (9, 120); (10, 0)].

Lemma vsnprintf_overruns_witness : vsnprintf 0 4 8 [0xABCDE] small_mem = Fault.
Proof.
  exact (vsnprintf_overruns small_mem 0 4 8 0xABCDE ltac:(lia) ltac:(by apply cells_decide)
    ltac:(by apply owned_decide) eq_refl ltac:(lia) ltac:(vm_compute; lia)).
Defined.
