(* ===== verification/Serial.v ===== *)
(** * Serial port and kernel log

    Models [kernel/arch/x86_64/serial.c]: the log's circular buffer behind
    [kprint], [kprint_hex] and [kprintf], its transmission by [log_flush], and
    the unbuffered writers.

    - [line_status] holds the bytes the next reads of the line status register
      (COM1 + 5) return; the register reads 0, not ready, from then on.
    - [port_writes] is the record of the [outb]s, oldest first.
    - A [const char*] is an address of the memory [se_mem]; [kprintf]'s 512-byte
      array on the stack is at the address it takes as an argument. *)

From S2P Require Import Prelude Lock Ring Strings Printf.

(** ** Data *)

Definition COM1 : Z := 0x3F8.
Definition BUFFER_SIZE : Z := 128 * 1024.

Record serial := mkSerial {
  se_hart : hart;
  kprint_lock_ : spinlock;
  log_buffer : gmap Z Z;
  log_head : Z;
  log_tail : Z;
  se_mem : mem;
  line_status : list Z;
  port_writes : list (Z * Z);
}.

Definition set_log (b : gmap Z Z) (h t : Z) (s : serial) : serial :=
  mkSerial (se_hart s) (kprint_lock_ s) b h t (se_mem s) (line_status s) (port_writes s).
Definition set_device (l : list Z) (o : list (Z * Z)) (s : serial) : serial :=
  mkSerial (se_hart s) (kprint_lock_ s) (log_buffer s) (log_head s) (log_tail s) (se_mem s) l o.
Definition set_se_mem (m : mem) (s : serial) : serial :=
  mkSerial (se_hart s) (kprint_lock_ s) (log_buffer s) (log_head s) (log_tail s) m (line_status s) (port_writes s).

#[export] Instance serial_hart : HasHart serial :=
  Lens se_hart (fun h s => mkSerial h (kprint_lock_ s) (log_buffer s) (log_head s) (log_tail s)
    (se_mem s) (line_status s) (port_writes s)).
#[export] Instance serial_hart_ok : HasHartOk serial.
Proof. split; intros; try destruct s; done. Qed.

Definition kprint_lock : lens serial spinlock :=
  Lens kprint_lock_ (fun l s => mkSerial (se_hart s) l (log_buffer s) (log_head s) (log_tail s)
    (se_mem s) (line_status s) (port_writes s)).
#[export] Instance kprint_lock_ok : LensOk kprint_lock.
Proof. split; intros; try destruct s; done. Qed.
#[export] Instance kprint_lock_indep : LensIndep kprint_lock hart_of.
Proof. by split. Qed.

Definition on_mem {A} (m : M mem A) : M serial A := fun s =>
  match m (se_mem s) with
  | Ok (a, m') => Ok (a, set_se_mem m' s)
  | Fault => Fault
  | Panic => Panic
  | Hang => Hang
  end.

(** ** The device *)

Definition outb (port v : Z) : M serial unit :=
  modify (fun s => set_device (line_status s) (port_writes s ++ [(port, v)]) s).

(** [inb(COM1 + 5)] *)
Definition inb_status : M serial Z :=
  l <- gets line_status ;;
  match l with
  | [] => ret 0
  | b :: l => modify (fun s => set_device l (port_writes s) s) ;;; ret b
  end.

(** ** Operations *)

Definition log_putc (c : Z) : M serial unit :=
  s <- get ;;
  let next := (log_head s + 1) mod BUFFER_SIZE in
  when (next =? log_tail s)
    (modify (set_log (log_buffer s) (log_head s) ((log_tail s + 1) mod BUFFER_SIZE))) ;;;
  modify (fun s => set_log (<[log_head s := c]> (log_buffer s)) next (log_tail s) s).

Definition init_serial : M serial unit :=
  outb (COM1 + 1) 0x00 ;;;
  outb (COM1 + 3) 0x80 ;;;
  outb (COM1 + 0) 0x03 ;;;
  outb (COM1 + 1) 0x00 ;;;
  outb (COM1 + 3) 0x03 ;;;
  outb (COM1 + 2) 0xC7.

Definition is_transmit_empty : M serial Z := b <- inb_status ;; ret (Z.land b 0x20).

(** [while (is_transmit_empty() == 0);]: once the status has no more bytes to
    give it never reports an empty transmitter *)
Fixpoint wait_transmit (fuel : nat) : M serial unit :=
  match fuel with
  | O => hang
  | S fuel => e <- is_transmit_empty ;; if e =? 0 then wait_transmit fuel else ret tt
  end.
Definition write_serial (a : Z) : M serial unit :=
  fuel <- gets (fun s => S (length (line_status s))) ;;
  wait_transmit fuel ;;; outb COM1 a.

(** [while ( *s)], each newline preceded by a carriage return, with [putc] *)
Fixpoint print_loop (putc : Z -> M serial unit) (fuel : nat) (p : Z) : M serial unit :=
  match fuel with
  | O => hang
  | S fuel =>
    c <- on_mem (load8 p) ;;
    if c =? 0 then ret tt else
    when (c =? 10) (putc 13) ;;; putc c ;;; print_loop putc fuel (p + 1)
  end.

Definition kprint_raw (p : Z) : M serial unit :=
  if p =? NULL then ret tt else
  fuel <- on_mem scan_fuel ;; print_loop write_serial fuel p.

(** ["0123456789ABCDEF"] *)
Definition hex_chars : list Z := [48; 49; 50; 51; 52; 53; 54; 55; 56; 57; 65; 66; 67; 68; 69; 70].

(** [for (int i = 15; i >= 0; i--)], [k] iterations left *)
Fixpoint hex_loop (putc : Z -> M serial unit) (k : nat) (value : Z) : M serial unit :=
  match k with
  | O => ret tt
  | S k =>
    c <- deref (hex_chars !! Z.to_nat (Z.land (Z.shiftr value (Z.of_nat k * 4)) 0xF)) ;;
    putc c ;;; hex_loop putc k value
  end.

Definition kprint_hex_raw (value : Z) : M serial unit :=
  write_serial 48 ;;; write_serial 120 ;;; hex_loop write_serial 16 value.

Definition kprint (p : Z) : M serial unit :=
  if p =? NULL then ret tt else
  critical kprint_lock (fuel <- on_mem scan_fuel ;; print_loop log_putc fuel p).

Definition kprint_hex (value : Z) : M serial unit :=
  critical kprint_lock (log_putc 48 ;;; log_putc 120 ;;; hex_loop log_putc 16 value).

(** [while (log_head != log_tail && (inb(COM1 + 5) & 0x20))] *)
Fixpoint flush_loop (fuel : nat) : M serial unit :=
  match fuel with
  | O => hang
  | S fuel =>
    s <- get ;;
    if log_head s =? log_tail s then ret tt else
    e <- is_transmit_empty ;;
    if e =? 0 then ret tt else
    outb COM1 (rd (log_buffer s) (log_tail s)) ;;;
    modify (fun s => set_log (log_buffer s) (log_head s) ((log_tail s + 1) mod BUFFER_SIZE) s) ;;;
    flush_loop fuel
  end.
Definition log_flush : M serial unit :=
  s <- get ;;
  if log_head s =? log_tail s then ret tt else
  flush_loop (Z.to_nat BUFFER_SIZE).

Definition kprintf (tmp_buf fmt : Z) (args : list Z) : M serial unit :=
  _ <- on_mem (vsnprintf tmp_buf 512 fmt args) ;; kprint tmp_buf.

(** ** The log as a bounded queue *)

(** What has been logged and not yet sent, oldest first. *)
Definition logged (s : serial) : list Z := ring_contents BUFFER_SIZE (log_buffer s) (log_head s) (log_tail s).

Definition log_ok (s : serial) : Prop := 0 <= log_head s < BUFFER_SIZE /\ 0 <= log_tail s < BUFFER_SIZE.

(** The last [k] elements of a list. *)
Definition lastn {A} (k : nat) (l : list A) : list A := drop (length l - k) l.

(** The log keeps the most recent characters. *)
Definition recent (l : list Z) : list Z := lastn (Z.to_nat (BUFFER_SIZE - 1)) l.

(** The text with a carriage return before each newline. *)
Definition crlf (l : list Z) : list Z := l ≫= fun c => if c =? 10 then [13; 10] else [c].

Lemma lastn_lastn_app {A} k (l1 l2 : list A) : lastn k (lastn k l1 ++ l2) = lastn k (l1 ++ l2).
Proof.
  unfold lastn. rewrite !length_app, length_drop.
  destruct (decide (length l1 <= k)%nat) as [Hk|Hk].
  - replace (length l1 - k)%nat with 0%nat by lia. rewrite drop_0. f_equal. lia.
  - rewrite <-drop_app_le by lia. rewrite drop_drop. f_equal. lia.
Qed.

Lemma recent_app l1 l2 : recent (recent l1 ++ l2) = recent (l1 ++ l2).
Proof. apply lastn_lastn_app. Qed.

Lemma recent_short l : (Z.of_nat (length l) < BUFFER_SIZE) -> recent l = l.
Proof. intros H. unfold recent, lastn. by replace (length l - _)%nat with 0%nat by lia. Qed.

Lemma length_logged s : Z.of_nat (length (logged s)) < BUFFER_SIZE.
Proof.
  unfold logged. rewrite length_ring.
  pose proof (Z.mod_pos_bound (log_head s - log_tail s) BUFFER_SIZE eq_refl). lia.
Qed.

(** The state after text was appended to the log: only the log changed. *)
Definition appended (t : list Z) (s s' : serial) : Prop :=
  log_ok s' /\ logged s' = recent (logged s ++ t) /\
  exists b h tl, s' = set_log b h tl s.

Lemma appended_nil s : log_ok s -> appended [] s s.
Proof.
  intros H. split; [done|]. split; [rewrite app_nil_r; symmetry; apply recent_short, length_logged|].
  exists (log_buffer s), (log_head s), (log_tail s). by destruct s.
Qed.

Lemma appended_trans t1 t2 s1 s2 s3 : appended t1 s1 s2 -> appended t2 s2 s3 -> appended (t1 ++ t2) s1 s3.
Proof.
  intros (H1 & L1 & b1 & h1 & l1 & ->) (H2 & L2 & b2 & h2 & l2 & ->). split; [done|]. split.
  - by rewrite L2, L1, recent_app, app_assoc.
  - by exists b2, h2, l2.
Qed.

Lemma log_putc_spec s c : log_ok s -> exists s', log_putc c s = Ok (tt, s') /\ appended [c] s s'.
Proof.
  intros [Hh Ht]. unfold log_putc, bind, get, modify, when, ret.
  pose proof (ring_full BUFFER_SIZE eq_refl (log_buffer s) _ _ Hh Ht) as Hfull. fold (logged s) in Hfull.
  pose proof (length_logged s) as Hl.
  destruct (Z.eqb_spec ((log_head s + 1) mod BUFFER_SIZE) (log_tail s)) as [E|E].
  - eexists. split; [reflexivity|]. split; [by split; apply Z.mod_pos_bound|]. split; [|by eexists _, _, _].
    etransitivity; [by apply (ring_push_full BUFFER_SIZE)|].
    change (tail (logged s) ++ [c] = recent (logged s ++ [c])). apply Hfull in E.
    unfold recent, lastn. rewrite length_app. simpl length.
    replace (length (logged s) + 1 - Z.to_nat (BUFFER_SIZE - 1))%nat with 1%nat by lia.
    destruct (logged s) as [|x l]; [simpl in E; unfold BUFFER_SIZE in E; lia|done].
  - eexists. split; [reflexivity|]. split; [by split; [apply Z.mod_pos_bound|]|]. split; [|by eexists _, _, _].
    etransitivity; [by apply (ring_push BUFFER_SIZE)|]. fold (logged s).
    rewrite recent_short; [done|]. rewrite length_app. simpl length. lia.
Qed.

(** *** Printing *)

Lemma on_load s p c : se_mem s !! p = Some c -> on_mem (load8 p) s = Ok (c, s).
Proof. intros H. unfold on_mem. rewrite (load8_ok _ _ _ H). by destruct s. Qed.

Lemma appended_mem t s s' : appended t s s' -> se_mem s' = se_mem s.
Proof. by intros (_ & _ & b & h & tl & ->). Qed.

Lemma print_loop_spec l fuel p s :
  log_ok s -> cstr (se_mem s) p l -> (length l < fuel)%nat ->
  exists s', print_loop log_putc fuel p s = Ok (tt, s') /\ appended (crlf l) s s'.
Proof.
  revert fuel p s. induction l as [|c l IH]; intros [|fuel] p s Hs [Hc Hn] Hf; simpl in Hf; try lia;
    cbn [app print_loop] in *; apply cells_cons in Hc as [H0 Hc]; rewrite (bind_ok _ _ _ _ _ (on_load _ _ _ H0)).
  { exists s. split; [done|by apply appended_nil]. }
  apply Forall_cons in Hn as [Hc0 Hn]. destruct (Z.eqb_spec c 0); [lia|].
  assert (exists s1, when (c =? 10) (log_putc 13) s = Ok (tt, s1) /\
    appended (if c =? 10 then [13] else []) s s1) as (s1 & E1 & A1).
  { destruct (c =? 10); [by apply log_putc_spec|]. exists s. split; [done|by apply appended_nil]. }
  destruct (log_putc_spec s1 c (proj1 A1)) as (s2 & E2 & A2).
  pose proof (appended_trans _ _ _ _ _ A1 A2) as A12.
  destruct (IH fuel (p + 1) s2 (proj1 A12)) as (s3 & E3 & A3);
    [rewrite (appended_mem _ _ _ A12); by split|lia|].
  exists s3. rewrite (bind_ok _ _ _ _ _ E1), (bind_ok _ _ _ _ _ E2), E3. split; [done|].
  pose proof (appended_trans _ _ _ _ _ A12 A3) as A. unfold crlf in *. cbn [mbind list_bind].
  by destruct (Z.eqb_spec c 10) as [->|].
Qed.

(** A routine that appends under the log's lock. *)
Lemma critical_appended (body : M serial unit) t s :
  hart_ok (se_hart s) -> lock_free (kprint_lock_ s) -> log_ok s ->
  (forall s1, se_mem s1 = se_mem s -> log_ok s1 -> exists s', body s1 = Ok (tt, s') /\ appended t s1 s') ->
  exists s', critical kprint_lock body s = Ok (tt, s') /\ log_ok s' /\ logged s' = recent (logged s ++ t) /\
    se_mem s' = se_mem s /\ se_hart s' = se_hart s /\ lock_free (kprint_lock_ s') /\
    line_status s' = line_status s /\ port_writes s' = port_writes s.
Proof.
  intros Hh Hl Hs Hb. destruct (Hb (enter kprint_lock s) ltac:(done) Hs) as (s' & E & Hok & Hlog & b & h & tl & ->).
  eexists. split; [apply (critical_ok kprint_lock); [exact Hh|exact Hl|exact E|done|done]|].
  split; [exact Hok|]. split; [exact Hlog|]. do 2 (split; [done|]). split; [by apply released_free|done].
Qed.

Lemma kprint_spec s p l :
  hart_ok (se_hart s) -> lock_free (kprint_lock_ s) -> log_ok s -> p <> NULL -> cstr (se_mem s) p l ->
  exists s', kprint p s = Ok (tt, s') /\ log_ok s' /\ logged s' = recent (logged s ++ crlf l) /\
    se_mem s' = se_mem s /\ se_hart s' = se_hart s /\ lock_free (kprint_lock_ s') /\
    line_status s' = line_status s /\ port_writes s' = port_writes s.
Proof.
  intros Hh Hl Hs Hp Hc. unfold kprint. rewrite (proj2 (Z.eqb_neq _ _)) by done.
  apply critical_appended; [done..|]. intros s1 Em Hs1.
  assert (on_mem scan_fuel s1 = Ok (S (size (se_mem s1)), s1)) as E by (by destruct s1).
  rewrite (bind_ok _ _ _ _ _ E). rewrite <-Em in Hc. apply print_loop_spec; [done..|]. by eapply cstr_fuel.
Qed.

(** The hexadecimal digit of a value at weight [16^k], and all sixteen. *)
Definition nibble (value : Z) (k : nat) : Z :=
  default 0 (hex_chars !! Z.to_nat ((value / 2 ^ (4 * Z.of_nat k)) mod 2 ^ 4)).
Definition hex16 (value : Z) : list Z := nibble value <$> reverse (seq 0 16).

Lemma hex_loop_spec k value s :
  log_ok s -> exists s', hex_loop log_putc k value s = Ok (tt, s') /\
    appended (nibble value <$> reverse (seq 0 k)) s s'.
Proof.
  revert s. induction k as [|k IH]; intros s Hs; cbn [hex_loop]; [exists s; split; [done|by apply appended_nil]|].
  change 0xF with (Z.ones 4). rewrite Z.land_ones, Z.shiftr_div_pow2, (Z.mul_comm (Z.of_nat k)) by lia.
  destruct (lookup_lt_is_Some_2 hex_chars (Z.to_nat ((value / 2 ^ (4 * Z.of_nat k)) mod 2 ^ 4))) as [c Hc].
  { pose proof (Z.mod_pos_bound (value / 2 ^ (4 * Z.of_nat k)) (2 ^ 4) ltac:(lia)).
    change (length hex_chars) with 16%nat. lia. }
  assert (nibble value k = c) as Hn by (unfold nibble; by rewrite Hc).
  unfold deref. rewrite Hc, (bind_ok _ _ _ _ _ eq_refl).
  destruct (log_putc_spec s c Hs) as (s1 & E1 & A1). destruct (IH s1 (proj1 A1)) as (s2 & E2 & A2).
  exists s2. rewrite (bind_ok _ _ _ _ _ E1). split; [done|].
  rewrite seq_S, reverse_app, fmap_app. change (reverse [0 + k]%nat) with [k].
  cbn [fmap list_fmap]. rewrite Hn. by apply appended_trans with s1.
Qed.

(** ** Transmission *)

(** The number of bytes the transmitter takes before it reports it is busy. *)
Fixpoint accepts (l : list Z) : nat :=
  match l with
  | b :: l => if Z.land b 0x20 =? 0 then O else S (accepts l)
  | [] => O
  end.

(** The state after the first [k] characters of the log were sent. *)
Definition sent (k : nat) (s s' : serial) : Prop :=
  log_ok s' /\ logged s' = drop k (logged s) /\
  port_writes s' = port_writes s ++ ((COM1,.) <$> take k (logged s)) /\
  se_hart s' = se_hart s /\ kprint_lock_ s' = kprint_lock_ s /\ se_mem s' = se_mem s.

Lemma sent_0 s : log_ok s -> sent 0 s s.
Proof. intros H. unfold sent. cbn. by rewrite app_nil_r. Qed.

Lemma flush_loop_spec fuel s :
  log_ok s -> (length (logged s) < fuel)%nat ->
  exists s', flush_loop fuel s = Ok (tt, s') /\ sent (accepts (line_status s) `min` length (logged s)) s s'.
Proof.
  revert s. induction fuel as [|fuel IH]; intros s Hs Hf; [lia|]. cbn [flush_loop].
  rewrite (bind_ok _ _ _ _ _ eq_refl). destruct (Z.eqb_spec (log_head s) (log_tail s)) as [E|E].
  { assert (logged s = []) as -> by (unfold logged; rewrite E; by apply ring_empty).
    rewrite Nat.min_0_r. exists s. split; [done|by apply sent_0]. }
  pose proof (ring_pop BUFFER_SIZE eq_refl (log_buffer s) _ _ (proj1 Hs) (proj2 Hs) E) as Hp.
  fold (logged s) in Hp. destruct (line_status s) as [|b l] eqn:El.
  { assert (is_transmit_empty s = Ok (0, s)) as Ei.
    { unfold is_transmit_empty, inb_status, bind, gets. by rewrite El. }
    rewrite (bind_ok _ _ _ _ _ Ei). exists s. split; [done|by apply sent_0]. }
  set (s1 := set_device l (port_writes s) s).
  assert (is_transmit_empty s = Ok (Z.land b 0x20, s1)) as Ei.
  { unfold is_transmit_empty, inb_status, bind, gets. by rewrite El. }
  rewrite (bind_ok _ _ _ _ _ Ei). cbn [accepts]. destruct (Z.land b 0x20 =? 0).
  { exists s1. split; [done|]. exact (sent_0 s Hs). }
  rewrite (bind_ok _ _ _ _ _ eq_refl), (bind_ok _ _ _ _ _ eq_refl).
  set (s2 := set_log _ _ _ _). assert (logged s = rd (log_buffer s) (log_tail s) :: logged s2) as Hl by exact Hp.
  assert (log_ok s2) as Hs2 by (split; [apply Hs|by apply Z.mod_pos_bound]).
  rewrite Hl in Hf. simpl in Hf. destruct (IH s2 Hs2 ltac:(lia)) as (s' & E' & Hok & Hlog & Hport & Hrest).
  exists s'. split; [done|]. change (line_status s2) with l in *.
  unfold sent. rewrite Hl. cbn [length Nat.min drop take fmap list_fmap]. split; [done|]. split; [done|].
  split; [|done]. rewrite Hport. change (port_writes s2) with (port_writes s ++ [(COM1, rd (log_buffer s) (log_tail s))]).
  by rewrite <-app_assoc.
Qed.

(** ** Properties *)

(** kprint appends its string to the log, a carriage return before each
    newline, and kprint_hex the sixteen hexadecimal digits of its argument
    after "0x": afterwards the log holds the most recent 131071 characters of
    what it held followed by the new text, nothing was sent, and the lock is
    free with the caller's interrupt flag restored. A null string prints
    nothing. *)
Theorem kprint_correct s p l value :
  hart_ok (se_hart s) -> lock_free (kprint_lock_ s) -> log_ok s -> p <> NULL -> cstr (se_mem s) p l ->
  (exists s', kprint p s = Ok (tt, s') /\ log_ok s' /\ logged s' = recent (logged s ++ crlf l) /\
    se_mem s' = se_mem s /\ se_hart s' = se_hart s /\ lock_free (kprint_lock_ s') /\ port_writes s' = port_writes s) /\
  (exists s', kprint_hex value s = Ok (tt, s') /\ log_ok s' /\
    logged s' = recent (logged s ++ [48; 120] ++ hex16 value) /\
    se_hart s' = se_hart s /\ lock_free (kprint_lock_ s') /\ port_writes s' = port_writes s) /\
  kprint NULL s = Ok (tt, s).
Proof.
  intros Hh Hl Hs Hp Hc. split; [|split; [|done]].
  - destruct (kprint_spec s p l Hh Hl Hs Hp Hc) as (s' & ? & ? & ? & ? & ? & ? & ? & ?).
    exists s'. do 6 (split; [assumption|]). assumption.
  - destruct (critical_appended (log_putc 48 ;;; log_putc 120 ;;; hex_loop log_putc 16 value)
      ([48; 120] ++ hex16 value) s Hh Hl Hs) as (s' & ? & ? & ? & ? & ? & ? & ? & ?);
      [|exists s'; do 5 (split; [assumption|]); assumption].
    intros s0 _ H0. destruct (log_putc_spec s0 48 H0) as (s1 & E1 & A1).
    destruct (log_putc_spec s1 120 (proj1 A1)) as (s2 & E2 & A2).
    destruct (hex_loop_spec 16 value s2 (proj1 A2)) as (s3 & E3 & A3).
    exists s3. rewrite (bind_ok _ _ _ _ _ E1), (bind_ok _ _ _ _ _ E2). split; [done|].
    refine (appended_trans _ _ _ s2 _ _ A3). exact (appended_trans [48] [120] _ _ _ A1 A2).
Qed.

Lemma log_flush_spec s :
  log_ok s ->
  exists s', log_flush s = Ok (tt, s') /\
    let k := (accepts (line_status s) `min` length (logged s))%nat in
    logged s' = drop k (logged s) /\
    port_writes s' = port_writes s ++ ((COM1,.) <$> take k (logged s)) /\
    log_ok s' /\ se_hart s' = se_hart s /\ kprint_lock_ s' = kprint_lock_ s.
Proof.
  intros Hs. unfold log_flush. rewrite (bind_ok _ _ _ _ _ eq_refl).
  destruct (Z.eqb_spec (log_head s) (log_tail s)) as [E|E].
  - assert (logged s = []) as -> by (unfold logged; rewrite E; by apply ring_empty).
    exists s. split; [done|]. cbv zeta. rewrite Nat.min_0_r. cbn. rewrite app_nil_r.
    split; [|done]. unfold logged. rewrite E. by apply ring_empty.
  - pose proof (length_logged s).
    destruct (flush_loop_spec (Z.to_nat BUFFER_SIZE) s Hs ltac:(lia)) as (s' & E' & ? & ? & ? & ? & ? & ?).
    exists s'. split; [exact E'|]. by cbv zeta.
Qed.

(** C25: log_flush always returns, having sent, in order, the oldest characters
    of the log: as many as the transmitter accepted before it reported it was
    busy, or all of them; what was not sent is still in the log. *)
Theorem log_flush_correct s :
  log_ok s ->
  exists s', log_flush s = Ok (tt, s') /\
    let k := (accepts (line_status s) `min` length (logged s))%nat in
    logged s' = drop k (logged s) /\
    port_writes s' = port_writes s ++ ((COM1,.) <$> take k (logged s)) /\
    log_ok s' /\ se_hart s' = se_hart s /\ kprint_lock_ s' = kprint_lock_ s.
Proof. apply log_flush_spec. Qed.

Lemma kprintf_spec s tmp_buf fmt f strs args out :
  hart_ok (se_hart s) -> lock_free (kprint_lock_ s) -> log_ok s -> tmp_buf <> NULL ->
  render (S (length f)) strs f args = Some out -> (length out <= 510)%nat ->
  Forall (fun c => 0 < c < 256) out -> Forall (fun a => 0 <= a < 2 ^ 64) args ->
  fstate tmp_buf 512 strs (se_mem s) fmt f ->
  exists s', kprintf tmp_buf fmt args s = Ok (tt, s') /\ log_ok s' /\
    logged s' = recent (logged s ++ crlf out) /\ se_mem s' = upd (se_mem s) tmp_buf (out ++ [0]) /\
    se_hart s' = se_hart s /\ lock_free (kprint_lock_ s') /\ line_status s' = line_status s /\ port_writes s' = port_writes s.
Proof.
  intros Hh Hl Hs Hp Hr Hn Ho Ha Hf.
  pose proof (vsnprintf_spec (se_mem s) tmp_buf 512 fmt f strs args out Hr ltac:(lia) Ha Hf) as E.
  set (s1 := set_se_mem (upd (se_mem s) tmp_buf (out ++ [0])) s).
  destruct (kprint_spec s1 tmp_buf out Hh Hl Hs Hp) as (s' & E' & H'); [split; [apply upd_cells|done]|].
  exists s'. split; [|exact H']. unfold kprintf. erewrite bind_ok; [exact E'|]. unfold on_mem. by rewrite E.
Qed.

(** kprintf logs what its format denotes: the text the reference computes
    from the format and the arguments, of at most 510 characters and with no
    NUL in it, is appended to the log with its newlines expanded. *)
Theorem kprintf_correct s tmp_buf fmt f strs args out :
  hart_ok (se_hart s) -> lock_free (kprint_lock_ s) -> log_ok s -> tmp_buf <> NULL ->
  render (S (length f)) strs f args = Some out -> (length out <= 510)%nat ->
  Forall (fun c => 0 < c < 256) out -> Forall (fun a => 0 <= a < 2 ^ 64) args ->
  fstate tmp_buf 512 strs (se_mem s) fmt f ->
  exists s', kprintf tmp_buf fmt args s = Ok (tt, s') /\ log_ok s' /\
    logged s' = recent (logged s ++ crlf out) /\ se_hart s' = se_hart s /\ lock_free (kprint_lock_ s').
Proof.
  intros Hh Hl Hs Hp Hr Hn Ho Ha Hf.
  destruct (kprintf_spec s tmp_buf fmt f strs args out) as (s' & E & L1 & L2 & _ & L3 & L4 & _); [done..|]. by exists s'.
Qed.

(** ** Witnesses *)

(** A 512-byte array at 16, "%d%%" and a newline at 528, and an empty log *)
Definition log_mem : mem :=
  list_to_map (imap (fun i v => (16 + Z.of_nat i, v)) (replicate 512 0 ++ [37; 100; 37; 37; 10; 0])).
Definition log_demo (status : list Z) : serial :=
  mkSerial (mkHart 0x202 (Some 0) true) spinlock_init (<[0 := 65]> (<[1 := 66]> ∅)) 2 0 log_mem status [].

Lemma log_demo_ok l : log_ok (log_demo l).
Proof. by split. Qed.

Lemma kprint_correct_witness :
  exists s', kprint 528 (log_demo []) = Ok (tt, s') /\ log_ok s' /\
    logged s' = recent (logged (log_demo []) ++ crlf [37; 100; 37; 37; 10]) /\
    se_mem s' = se_mem (log_demo []) /\ se_hart s' = se_hart (log_demo []) /\
    lock_free (kprint_lock_ s') /\ port_writes s' = port_writes (log_demo []).
Proof.
  exact (proj1 (kprint_correct (log_demo []) 528 [37; 100; 37; 37; 10] 0 ltac:(by eexists) eq_refl
    (log_demo_ok []) ltac:(done) ltac:(apply cstr_decide; by vm_compute))).
Defined.

Lemma log_flush_correct_witness :
  exists s', log_flush (log_demo [0x60; 0]) = Ok (tt, s') /\
    let k := Nat.min (accepts (line_status (log_demo [0x60; 0]))) (length (logged (log_demo [0x60; 0]))) in
    logged s' = drop k (logged (log_demo [0x60; 0])) /\
    port_writes s' = [] ++ ((COM1,.) <$> take k (logged (log_demo [0x60; 0]))) /\
    log_ok s' /\ se_hart s' = se_hart (log_demo [0x60; 0]) /\ kprint_lock_ s' = spinlock_init.
Proof. exact (log_flush_correct (log_demo [0x60; 0]) (log_demo_ok _)). Defined.

(** kprintf("%d%%\n", 42) logs "42%" and a newline. *)
Lemma kprintf_correct_witness :
  exists s', kprintf 16 528 [42] (log_demo []) = Ok (tt, s') /\ log_ok s' /\
    logged s' = recent (logged (log_demo []) ++ crlf [52; 50; 37; 10]) /\
    se_hart s' = se_hart (log_demo []) /\ lock_free (kprint_lock_ s').
Proof.
  refine (kprintf_correct (log_demo []) 16 528 [37; 100; 37; 37; 10] (fun _ => None) [42] [52; 50; 37; 10]
    ltac:(by eexists) eq_refl (log_demo_ok []) ltac:(done) eq_refl ltac:(simpl; lia)
    ltac:(repeat constructor; lia) ltac:(repeat constructor; lia) _).
  split; [apply cstr_decide; by vm_compute|right; simpl; lia|done|apply owned_decide; by vm_compute].
Defined.
