(* ===== verification/Tar.v ===== *)
(** * Initial ramdisk

    Models [kernel/fs/initrd.c] and [kernel/include/fs/tar.h]: the lookup of a
    file in a ustar archive in memory.

    - The archive is bytes of the memory of [Strings]; a field of a header is
      at its offset in [tar_header_t] (the structure is packed).
    - [archive] is the specification: what a sequence of entries looks like in
      memory, and [find_entry] what a lookup in it must answer. *)

From S2P Require Import Prelude Strings.

(** ** Data *)

(** [tar_base], [tar_limit] *)
Record tar := mkTar { tar_base : Z; tar_limit : Z }.

Definition tar_header_t : layout :=
  [("name", 100); ("mode", 8); ("uid", 8); ("gid", 8); ("size", 12); ("mtime", 12); ("chksum", 8); ("typeflag", 1);
   ("linkname", 100); ("magic", 6); ("version", 2); ("uname", 32); ("gname", 32); ("devmajor", 8); ("devminor", 8);
   ("prefix", 155)]%string.

Definition off_name : Z := Eval vm_compute in offset_of tar_header_t "name".
Definition off_size : Z := Eval vm_compute in offset_of tar_header_t "size".
Definition off_magic : Z := Eval vm_compute in offset_of tar_header_t "magic".

(** ["ustar"] *)
Definition ustar : list Z := [117; 115; 116; 97; 114].

(** ** Operations *)

Definition tar_init (address size : Z) : tar := mkTar address size.

(** [for (int i = 0; i < size && s[i] >= '0' && s[i] <= '7'; i++)], [k]
    iterations left *)
Fixpoint octal_loop (k : nat) (s res : Z) : M mem Z :=
  match k with
  | O => ret res
  | S k =>
    c <- load8 s ;;
    if (48 <=? c) && (c <=? 55) then octal_loop k (s + 1) (w64 (res * 8 + (c - 48)))
    else ret res
  end.
Definition octal_to_int (s : Z) (size : nat) : M mem Z := octal_loop size s 0.

(** [memcmp] of memory with the bytes of a string literal *)
Fixpoint memcmp_lit (p : Z) (l : list Z) : M mem Z :=
  match l with
  | [] => ret 0
  | b :: l =>
    a <- load8 p ;;
    if negb (a =? b) then ret (if a <? b then -1 else 1) else memcmp_lit (p + 1) l
  end.

(** [while (header < end && header->name[0] != 0)]: the address and, when the
    file was found, the value of [*out_size] *)
Fixpoint lookup_loop (fuel : nat) (header endp filename : Z) : M mem (Z * option Z) :=
  if negb (header <? endp) then ret (NULL, None) else
  match fuel with
  | O => hang
  | S fuel =>
    c <- load8 (header + off_name) ;;
    if c =? 0 then ret (NULL, None) else
    d <- memcmp_lit (header + off_magic) ustar ;;
    if d =? 0 then
      size <- octal_to_int (header + off_size) 12 ;;
      e <- strcmp (header + off_name) filename ;;
      if e =? 0 then ret (w64 (header + 512), Some size) else
      let offset := w64 (512 + Z.land (w64 (size + 511)) (w64 (Z.lnot 511))) in
      lookup_loop fuel (w64 (header + offset)) endp filename
    else ret (NULL, None)
  end.

(** An entry takes at least 512 bytes, so an archive of [tar_limit] bytes has
    at most [tar_limit / 512 + 1] of them. *)
Definition tar_lookup (t : tar) (filename : Z) : M mem (Z * option Z) :=
  lookup_loop (Z.to_nat (tar_limit t / 512 + 1)) (tar_base t) (w64 (tar_base t + tar_limit t)) filename.

(** ** Specification *)

(** The value of the octal digits at the start of a field. *)
Fixpoint octal_value (l : list Z) (acc : Z) : Z :=
  match l with
  | c :: l => if (48 <=? c) && (c <=? 55) then octal_value l (acc * 8 + (c - 48)) else acc
  | [] => acc
  end.

(** The space an entry takes: its header and its data in 512-byte blocks. *)
Definition entry_space (size : Z) : Z := 512 + (size + 511) / 512 * 512.

(** The entries, name and size, of the archive from [a] to [endp]: it ends at
    the limit or at a block that starts with a NUL. *)
Inductive archive (m : mem) (endp : Z) : Z -> list (list Z * Z) -> Prop :=
| ar_limit a : endp <= a -> archive m endp a []
| ar_end a : a < endp -> m !! a = Some 0 -> archive m endp a []
| ar_entry a name size f es :
    a < endp -> name <> [] -> cstr m a name -> cells m (a + off_magic) ustar ->
    cells m (a + off_size) f -> length f = 12%nat -> octal_value f 0 = size ->
    archive m endp (a + entry_space size) es ->
    archive m endp a ((name, size) :: es).

(** The address of the data and the size of the first entry with a name. *)
Fixpoint find_entry (a : Z) (es : list (list Z * Z)) (name : list Z) : option (Z * Z) :=
  match es with
  | [] => None
  | (n, size) :: es =>
    if bool_decide (n = name) then Some (a + 512, size) else find_entry (a + entry_space size) es name
  end.

(** ** Sizes *)

Lemma octal_value_range l acc : 0 <= acc -> acc <= octal_value l acc < (acc + 1) * 8 ^ Z.of_nat (length l).
Proof.
  revert acc. induction l as [|c l IH]; intros acc Ha; cbn [octal_value length]; [simpl; lia|].
  rewrite Nat2Z.inj_succ, Z.pow_succ_r by lia. pose proof (Z.pow_pos_nonneg 8 (Z.of_nat (length l))).
  destruct ((48 <=? c) && (c <=? 55)) eqn:E; [|nia].
  apply andb_true_iff in E as [E1%Z.leb_le E2%Z.leb_le]. specialize (IH (acc * 8 + (c - 48)) ltac:(lia)). nia.
Qed.

Lemma octal_value_12 f : length f = 12%nat -> 0 <= octal_value f 0 < 2 ^ 36.
Proof. intros Hf. pose proof (octal_value_range f 0 ltac:(lia)) as H. by rewrite Hf in H. Qed.

Lemma octal_loop_spec f s res m :
  cells m s f -> 0 <= res -> (res + 1) * 8 ^ Z.of_nat (length f) < 2 ^ 64 ->
  octal_loop (length f) s res m = Ok (octal_value f res, m).
Proof.
  revert s res. induction f as [|c f IH]; intros s res Hf Hr Hb; [done|].
  apply cells_cons in Hf as [H0 Hf]. cbn [length octal_loop octal_value] in *.
  rewrite Nat2Z.inj_succ, Z.pow_succ_r in Hb by lia.
  pose proof (Z.pow_pos_nonneg 8 (Z.of_nat (length f))).
  rewrite (bind_ok _ _ _ _ _ (load8_ok _ _ _ H0)).
  destruct ((48 <=? c) && (c <=? 55)) eqn:E; [|done].
  apply andb_true_iff in E as [E1%Z.leb_le E2%Z.leb_le].
  rewrite w64_small by nia. apply IH; [done|lia|nia].
Qed.

Lemma round_512 x : 0 <= x < 2 ^ 63 -> Z.land (w64 (x + 511)) (w64 (Z.lnot 511)) = (x + 511) / 512 * 512.
Proof.
  intros Hx. rewrite w64_small by lia. change 511 with (Z.ones 9) at 2.
  rewrite land_lnot_ones by lia. change (2 ^ 9) with 512. pose proof (Z.div_mod (x + 511) 512). lia.
Qed.

Lemma entry_space_range size : 0 <= size < 2 ^ 36 -> 512 <= entry_space size < 2 ^ 37.
Proof. intros H. unfold entry_space. Z.div_mod_to_equations; lia. Qed.

Lemma memcmp_lit_spec m p l l' :
  cells m p l -> length l = length l' -> memcmp_lit p l' m = Ok (lex l l', m).
Proof.
  revert p l'. induction l as [|a l IH]; intros p [|b l'] Hc Hl; try done.
  apply cells_cons in Hc as [H0 Hc]. cbn [memcmp_lit lex].
  rewrite (bind_ok _ _ _ _ _ (load8_ok _ _ _ H0)). destruct (a =? b); [|done]. simpl.
  apply IH; [done|by injection Hl].
Qed.

Lemma strcmp_spec m s1 s2 l1 l2 :
  cstr m s1 l1 -> cstr m s2 l2 -> exists r, strcmp s1 s2 m = Ok (r, m) /\ (r =? 0) = bool_decide (l1 = l2).
Proof.
  intros H1 H2. destruct (strcmp_loop_spec l1 l2 (S (size m)) s1 s2 m) as (r & E & Hs); [done..|by eapply cstr_fuel|].
  exists r. split; [done|]. symmetry.
  destruct (Z.eqb_spec r 0) as [->|]; [apply bool_decide_true|apply bool_decide_false]; rewrite <-lex_eq; lia.
Qed.

(** ** Lookup *)

Lemma lookup_loop_spec m endp a es fuel filename name :
  archive m endp a es -> cstr m filename name -> 0 <= a -> endp + 2 ^ 38 < 2 ^ 64 ->
  endp - a <= Z.of_nat fuel * 512 ->
  lookup_loop fuel a endp filename m =
    Ok (match find_entry a es name with Some (p, size) => (p, Some size) | None => (NULL, None) end, m).
Proof.
  intros Har Hf. revert fuel. induction Har as [a Ha|a Ha H0|a n size f es Ha Hne Hn Hm Hs Hl Hv _ IH];
    intros fuel Ha0 He Hfu.
  - destruct fuel; cbn [lookup_loop]; (destruct (Z.ltb_spec a endp); [lia|done]).
  - destruct fuel as [|fuel]; cbn [lookup_loop]; (destruct (Z.ltb_spec a endp); [|lia]); [lia|].
    cbn [negb]. unfold off_name. rewrite Z.add_0_r. by rewrite (bind_ok _ _ _ _ _ (load8_ok _ _ _ H0)).
  - destruct fuel as [|fuel]; cbn [lookup_loop]; (destruct (Z.ltb_spec a endp); [|lia]); [lia|].
    cbn [negb]. unfold off_name. rewrite Z.add_0_r. destruct n as [|c n]; [done|].
    pose proof Hn as [Hc Hr]. cbn [app] in Hc. apply cells_cons in Hc as [H0 _]. apply Forall_cons in Hr as [Hc _].
    rewrite (bind_ok _ _ _ _ _ (load8_ok _ _ _ H0)). destruct (Z.eqb_spec c 0); [lia|].
    rewrite (bind_ok _ _ _ _ _ (memcmp_lit_spec _ _ _ ustar Hm eq_refl)).
    rewrite (proj2 (lex_eq ustar ustar) eq_refl). cbn [Z.eqb].
    pose proof (octal_value_12 f Hl) as Hsz. rewrite Hv in Hsz.
    pose proof (octal_loop_spec f _ 0 m Hs ltac:(lia) ltac:(by rewrite Hl)) as Eo. rewrite Hl, Hv in Eo.
    unfold octal_to_int. rewrite (bind_ok _ _ _ _ _ Eo).
    destruct (strcmp_spec m a filename _ _ Hn Hf) as (r & Er & Eb). rewrite (bind_ok _ _ _ _ _ Er), Eb.
    cbn [find_entry]. destruct (bool_decide (c :: n = name)); [by rewrite w64_small by lia|].
    pose proof (entry_space_range size Hsz) as Hes. cbv zeta.
    rewrite round_512, (w64_small (512 + _)) by (fold (entry_space size); lia).
    fold (entry_space size). rewrite (w64_small (a + entry_space size)) by lia. apply IH; lia.
Qed.

Lemma octal_loop_range k s res m r m' :
  octal_loop k s res m = Ok (r, m') -> 0 <= res -> (res + 1) * 8 ^ Z.of_nat k < 2 ^ 64 ->
  0 <= r < (res + 1) * 8 ^ Z.of_nat k.
Proof.
  revert s res m. induction k as [|k IH]; intros s res m; cbn [octal_loop].
  - intros [= <- <-] ? ?. simpl. lia.
  - intros (c & m1 & E1 & E)%bind_inv Hr Hb.
    rewrite Nat2Z.inj_succ, Z.pow_succ_r in Hb |- * by lia. pose proof (Z.pow_pos_nonneg 8 (Z.of_nat k)).
    destruct ((48 <=? c) && (c <=? 55)) eqn:Ec; [|injection E as <- <-; nia].
    apply andb_true_iff in Ec as [E2%Z.leb_le E3%Z.leb_le].
    rewrite w64_small in E by nia. apply IH in E; nia.
Qed.

Lemma load8_no_hang a m : load8 a m <> Hang.
Proof. unfold load8, bind, get, deref. by destruct (m !! a). Qed.

Lemma octal_loop_no_hang k s res m : octal_loop k s res m <> Hang.
Proof.
  revert s res m. induction k as [|k IH]; intros s res m; [done|].
  intros [?%load8_no_hang | (c & m' & _ & H)]%bind_hang; [done|].
  destruct ((48 <=? c) && (c <=? 55)); [by apply IH in H|done].
Qed.

Lemma memcmp_lit_no_hang p l m : memcmp_lit p l m <> Hang.
Proof.
  revert p m. induction l as [|b l IH]; intros p m; [done|].
  intros [?%load8_no_hang | (a & m' & _ & H)]%bind_hang; [done|].
  destruct (a =? b); [by apply IH in H|done].
Qed.

Lemma lookup_loop_no_hang fuel a endp filename m :
  0 <= a -> endp + 2 ^ 38 < 2 ^ 64 -> endp - a <= Z.of_nat fuel * 512 ->
  lookup_loop fuel a endp filename m <> Hang.
Proof.
  revert a m. induction fuel as [|fuel IH]; intros a m Ha He Hf; cbn [lookup_loop];
    (destruct (Z.ltb_spec a endp); [|done]); [lia|]. cbn [negb].
  intros [?%load8_no_hang | (c & m1 & _ & H1)]%bind_hang; [done|]. destruct (c =? 0); [done|].
  apply bind_hang in H1 as [?%memcmp_lit_no_hang | (d & m2 & _ & H2)]; [done|]. destruct (d =? 0); [|done].
  apply bind_hang in H2 as [?%octal_loop_no_hang | (size & m3 & E3 & H3)]; [done|].
  apply octal_loop_range in E3; [|lia|done]. change (0 <= size < 2 ^ 36) in E3.
  apply bind_hang in H3 as [?%strcmp_no_hang | (e & m4 & _ & H4)]; [done|]. destruct (e =? 0); [done|].
  pose proof (entry_space_range size E3) as Hes. revert H4. cbv zeta.
  rewrite round_512, (w64_small (512 + _)) by (fold (entry_space size); lia).
  fold (entry_space size). rewrite (w64_small (a + entry_space size)) by lia. apply IH; lia.
Qed.

(** C22: looking a file up in an archive finds it: on memory that holds the
    entries of a ustar archive, tar_lookup answers the address of the data and
    the size of the first entry with the name asked for, or null when no entry
    has it, and changes no memory. *)
Theorem tar_lookup_correct m base limit es filename name :
  archive m (base + limit) base es -> cstr m filename name ->
  0 <= base -> 0 <= limit -> base + limit + 2 ^ 38 < 2 ^ 64 ->
  tar_lookup (tar_init base limit) filename m =
    Ok (match find_entry base es name with Some (p, size) => (p, Some size) | None => (NULL, None) end, m).
Proof.
  intros Har Hf Hb Hl Hw. unfold tar_lookup. cbn [tar_base tar_limit tar_init]. rewrite w64_small by lia.
  apply lookup_loop_spec; [done..|]. Z.div_mod_to_equations; lia.
Qed.

(** tar_lookup returns (or faults) on every memory, whatever bytes the
    archive holds: a header advances the search by at least its own 512 bytes,
    so it reaches the limit. *)
Theorem tar_lookup_terminates m base limit filename :
  0 <= base -> 0 <= limit -> base + limit + 2 ^ 38 < 2 ^ 64 ->
  tar_lookup (tar_init base limit) filename m <> Hang.
Proof.
  intros Hb Hl Hw. unfold tar_lookup. cbn [tar_base tar_limit tar_init]. rewrite w64_small by lia.
  apply lookup_loop_no_hang; [done..|]. Z.div_mod_to_equations; lia.
Qed.

(** ** Witnesses *)

(** An archive of "a" (5 bytes) and "b" (0 bytes) at 512, the names looked up
    after it at 100 and 110 *)
Definition demo_header (name size : Z) : list Z :=
  [name] ++ replicate 123 0 ++ replicate 10 48 ++ [size; 0] ++ replicate 121 0 ++ ustar ++ replicate 250 0.
Definition tar_mem : mem :=
  list_to_map (imap (fun i v => (512 + Z.of_nat i, v))
    (demo_header 97 53 ++ [104; 101; 108; 108; 111] ++ replicate 507 0 ++ demo_header 98 48))
  ∪ list_to_map [(100, 98); (101, 0); (110, 99); (111, 0)].

Lemma demo_archive : archive tar_mem (512 + 1536) 512 [([97], 5); ([98], 0)].
Proof.
  eapply (ar_entry _ _ _ [97] 5 (replicate 10 48 ++ [53; 0]));
    [lia|done|apply cstr_decide; by vm_compute|apply cells_decide; by vm_compute..|done|done|].
  eapply (ar_entry _ _ _ [98] 0 (replicate 10 48 ++ [48; 0]));
    [done|done|apply cstr_decide; by vm_compute|apply cells_decide; by vm_compute..|done|done|].
  by apply ar_limit.
Qed.

Lemma tar_lookup_correct_witness :
  tar_lookup (tar_init 512 1536) 100 tar_mem = Ok ((2048, Some 0), tar_mem).
Proof.
  exact (tar_lookup_correct tar_mem 512 1536 [([97], 5); ([98], 0)] 100 [98] demo_archive
    ltac:(apply cstr_decide; by vm_compute) ltac:(lia) ltac:(lia) ltac:(lia)).
Defined.

Lemma tar_lookup_terminates_witness : tar_lookup (tar_init 512 1536) 110 tar_mem <> Hang.
Proof. exact (tar_lookup_terminates tar_mem 512 1536 110 ltac:(lia) ltac:(lia) ltac:(lia)). Defined.
