(* ===== verification/Acpi.v ===== *)
(** * ACPI tables and the discovery of processors

    Models [kernel/arch/x86_64/acpi.c], [kernel/include/acpi.h] and the scan of
    the MADT in [smp_init] ([kernel/smp/smp.c]), over the memory of [Strings]:
    the structures are packed, so a field is the little-endian value at its
    offset.

    - [acpi_find_table] is the search of the XSDT or the RSDT.
    - [smp_scan] is the loop of [smp_init]. What it starts a processor with,
      [smp_init_cpu], is an argument of it, and so is the state that acts on.
      The fuel of the loop is the number of bytes left plus one: an entry of at
      least one byte moves it forward, and an entry of length 0 repeats for
      ever. *)

From S2P Require Import Prelude Strings.

(** ** Little-endian values *)

(** The value of the [n] bytes at [a]. *)
Fixpoint load_le (n : nat) (a : Z) : M mem Z :=
  match n with
  | O => ret 0
  | S n => b <- load8 a ;; r <- load_le n (a + 1) ;; ret (b + 2 ^ 8 * r)
  end.
Definition load32 : Z -> M mem Z := load_le 4.
Definition load64 : Z -> M mem Z := load_le 8.

(** The [n] bytes of a value. *)
Fixpoint le (n : nat) (v : Z) : list Z :=
  match n with
  | O => []
  | S n => v mod 2 ^ 8 :: le n (v / 2 ^ 8)
  end.

Lemma length_le n v : length (le n v) = n.
Proof. revert v. induction n as [|n IH]; intros v; simpl; [done|]. by rewrite IH. Qed.

Lemma load_le_spec n a v m :
  0 <= v < 2 ^ (8 * Z.of_nat n) -> cells m a (le n v) -> load_le n a m = Ok (v, m).
Proof.
  revert a v. induction n as [|n IH]; intros a v Hv Hc; cbn [load_le le] in *.
  { simpl in Hv. by replace v with 0 by lia. }
  apply cells_cons in Hc as [H0 Hc]. rewrite (bind_ok _ _ _ _ _ (load8_ok _ _ _ H0)).
  assert (0 <= v / 2 ^ 8 < 2 ^ (8 * Z.of_nat n)) as Hd.
  { split; [apply Z.div_pos; lia|]. apply Z.div_lt_upper_bound; [lia|].
    rewrite <-Z.pow_add_r by lia. replace (8 + 8 * Z.of_nat n) with (8 * Z.of_nat (S n)) by lia. lia. }
  rewrite (bind_ok _ _ _ _ _ (IH _ _ Hd Hc)). unfold ret. do 2 f_equal.
  pose proof (Z.div_mod v (2 ^ 8) ltac:(lia)). lia.
Qed.

(** ** Tables *)

Definition acpi_sdt_header_t : layout :=
  [("signature", 4); ("length", 4); ("revision", 1); ("checksum", 1); ("oem_id", 6); ("oem_table_id", 8);
   ("oem_revision", 4); ("creator_id", 4); ("creator_revision", 4)]%string.
Definition acpi_rsdp_t : layout :=
  [("signature", 8); ("checksum", 1); ("oem_id", 6); ("revision", 1); ("rsdt_address", 4); ("length", 4);
   ("xsdt_address", 8); ("extended_checksum", 1); ("reserved", 3)]%string.
Definition acpi_madt_t : layout :=
  [("header", sizeof acpi_sdt_header_t); ("local_apic_address", 4); ("flags", 4)]%string.
Definition acpi_madt_entry_t : layout := [("type", 1); ("length", 1)]%string.
Definition madt_entry_lapic_t : layout :=
  [("header", sizeof acpi_madt_entry_t); ("processor_id", 1); ("apic_id", 1); ("flags", 4)]%string.

Definition SDT_HEADER_SIZE : Z := Eval vm_compute in sizeof acpi_sdt_header_t.
Definition off_length : Z := Eval vm_compute in offset_of acpi_sdt_header_t "length".
Definition off_revision : Z := Eval vm_compute in offset_of acpi_rsdp_t "revision".
Definition off_rsdt_address : Z := Eval vm_compute in offset_of acpi_rsdp_t "rsdt_address".
Definition off_xsdt_address : Z := Eval vm_compute in offset_of acpi_rsdp_t "xsdt_address".
Definition MADT_SIZE : Z := Eval vm_compute in sizeof acpi_madt_t.
Definition off_apic_id : Z := Eval vm_compute in offset_of madt_entry_lapic_t "apic_id".
Definition off_flags : Z := Eval vm_compute in offset_of madt_entry_lapic_t "flags".

(** [for (i = 0; i < entries; i++)] over table addresses of [width] bytes at
    [p], [k] of them left; [sig] is the address of the signature *)
Fixpoint find_loop (width : nat) (k : nat) (p sig : Z) : M mem Z :=
  match k with
  | O => ret NULL
  | S k =>
    phys <- load_le width p ;;
    let table := phys_to_virt phys in
    d <- memcmp table sig 4 ;;
    if d =? 0 then ret table else find_loop width k (p + Z.of_nat width) sig
  end.

Definition acpi_find_table (rsdp sig : Z) : M mem Z :=
  revision <- load8 (rsdp + off_revision) ;;
  xsdt_address <- (if 2 <=? revision then load64 (rsdp + off_xsdt_address) else ret 0) ;;
  if (2 <=? revision) && negb (xsdt_address =? 0) then
    let xsdt := phys_to_virt xsdt_address in
    length <- load32 (xsdt + off_length) ;;
    let entries := w32 (w64 (length - SDT_HEADER_SIZE) / 8) in
    find_loop 8 (Z.to_nat entries) (xsdt + SDT_HEADER_SIZE) sig
  else
    rsdt_address <- load32 (rsdp + off_rsdt_address) ;;
    let rsdt := phys_to_virt rsdt_address in
    length <- load32 (rsdt + off_length) ;;
    let entries := w32 (w64 (length - SDT_HEADER_SIZE) / 4) in
    find_loop 4 (Z.to_nat entries) (rsdt + SDT_HEADER_SIZE) sig.

(** ** Processors *)

Section scan.
Context {St : Type}.

(** The memory and the state processors are started in, with [cpu_count]. *)
Record smp := mkSmp { smp_mem : mem; smp_st : St; cpu_count : Z }.

Definition on_smp_mem {A} (m : M mem A) : M smp A := fun s =>
  match m (smp_mem s) with
  | Ok (a, m') => Ok (a, mkSmp m' (smp_st s) (cpu_count s))
  | Fault => Fault
  | Panic => Panic
  | Hang => Hang
  end.

Context (smp_init_cpu : Z -> Z -> M smp unit).

(** [while (ptr < end)] *)
Fixpoint smp_loop (fuel : nat) (ptr endp bsp_lapic_id : Z) : M smp unit :=
  if negb (ptr <? endp) then ret tt else
  match fuel with
  | O => hang
  | S fuel =>
    type <- on_smp_mem (load8 ptr) ;;
    (if type =? 0 then
       flags <- on_smp_mem (load32 (ptr + off_flags)) ;;
       if negb (Z.land flags 1 =? 0) then
         apic_id <- on_smp_mem (load8 (ptr + off_apic_id)) ;;
         if negb (apic_id =? bsp_lapic_id) then
           id <- gets cpu_count ;;
           modify (fun s => mkSmp (smp_mem s) (smp_st s) (w64 (id + 1))) ;;;
           smp_init_cpu apic_id id
         else ret tt
       else ret tt
     else ret tt) ;;;
    len <- on_smp_mem (load8 (ptr + 1)) ;;
    smp_loop fuel (ptr + len) endp bsp_lapic_id
  end.

(** [smp_init] from the address of the MADT on *)
Definition smp_scan (madt bsp_lapic_id : Z) : M smp unit :=
  length <- on_smp_mem (load32 (madt + off_length)) ;;
  smp_loop (Z.to_nat (length - MADT_SIZE)) (madt + MADT_SIZE) (madt + length) bsp_lapic_id.

(** [smp_init]: [sig] is the address of "APIC" *)
Definition smp_init (rsdp sig bsp_lapic_id : Z) : M smp unit :=
  madt <- on_smp_mem (acpi_find_table rsdp sig) ;; smp_scan madt bsp_lapic_id.
End scan.
Arguments smp St : clear implicits.

(** ** Specification *)

(** The addresses in a table of [width]-byte entries, and the tables they
    point at: each has a four-character signature. *)
Definition table_at (m : mem) (width : nat) (p : Z) (ts : list (Z * list Z)) : Prop :=
  cells m p (flat_map (fun t => le width t.1) ts) /\
  Forall (fun t => 0 <= t.1 < 2 ^ (8 * Z.of_nat width) /\ length t.2 = 4%nat /\ cells m (phys_to_virt t.1) t.2) ts.

(** The first table with a signature. *)
Fixpoint first_table (ts : list (Z * list Z)) (sig : list Z) : Z :=
  match ts with
  | [] => NULL
  | (phys, s) :: ts => if bool_decide (s = sig) then phys_to_virt phys else first_table ts sig
  end.

Lemma table_loop_spec m width p ts sig s :
  table_at m width p ts -> cells m sig s -> length s = 4%nat ->
  find_loop width (length ts) p sig m = Ok (first_table ts s, m).
Proof.
  intros Ht Hs Hl. revert p Ht. induction ts as [|[phys t] ts IH]; intros p [Hc Hf]; [done|].
  apply Forall_cons in Hf as [(Hr & Hlt & Hct) Hf]. cbn [flat_map fst snd] in *.
  apply cells_app in Hc as [Hc1 Hc2]. rewrite length_le in Hc2. cbn [length find_loop first_table].
  rewrite (bind_ok _ _ _ _ _ (load_le_spec _ _ _ _ Hr Hc1)). cbv zeta.
  assert (memcmp (phys_to_virt phys) sig 4 m = Ok (lex t s, m)) as Em.
  { unfold memcmp. replace (Z.to_nat 4) with (length t) by (by rewrite Hlt).
    apply memcmp_loop_spec; [by rewrite Hl|done..]. }
  rewrite (bind_ok _ _ _ _ _ Em). destruct (bool_decide_reflect (t = s)) as [->|Hne].
  - by rewrite (proj2 (lex_eq s s) eq_refl).
  - rewrite (proj2 (Z.eqb_neq _ _)) by (by rewrite lex_eq). by apply IH.
Qed.

(** A description table: its length field and the addresses after the header. *)
Definition sdt (m : mem) (width : nat) (a : Z) (ts : list (Z * list Z)) : Prop :=
  let len := SDT_HEADER_SIZE + Z.of_nat width * Z.of_nat (length ts) in
  len < 2 ^ 32 /\ cells m (a + off_length) (le 4 len) /\ table_at m width (a + SDT_HEADER_SIZE) ts.

Lemma sdt_entries (w k : Z) : 0 < w -> 0 <= k -> SDT_HEADER_SIZE + w * k < 2 ^ 32 ->
  w32 (w64 (SDT_HEADER_SIZE + w * k - SDT_HEADER_SIZE) / w) = k.
Proof.
  intros Hw Hk Hl. unfold SDT_HEADER_SIZE in *. replace (36 + w * k - 36) with (k * w) by lia.
  rewrite w64_small by nia. rewrite Z.div_mul by lia. apply w32_small. nia.
Qed.

Lemma find_in_sdt m width a ts sig s :
  (0 < width)%nat -> sdt m width a ts -> cells m sig s -> length s = 4%nat ->
  (length <- load32 (a + off_length) ;;
   let entries := w32 (w64 (length - SDT_HEADER_SIZE) / Z.of_nat width) in
   find_loop width (Z.to_nat entries) (a + SDT_HEADER_SIZE) sig) m = Ok (first_table ts s, m).
Proof.
  intros Hw (Hl & Hc & Ht) Hs H4.
  assert (0 <= SDT_HEADER_SIZE + Z.of_nat width * Z.of_nat (length ts)) by (unfold SDT_HEADER_SIZE; lia).
  erewrite bind_ok by (apply load_le_spec; [|exact Hc]; simpl; lia). cbv zeta.
  rewrite sdt_entries by lia. rewrite Nat2Z.id. by apply table_loop_spec.
Qed.

(** *** The MADT *)

(** An entry: its type, its length and the rest; a local APIC entry has eight
    bytes. *)
Definition entry_ok (e : list Z) : Prop :=
  (2 <= length e < 256)%nat /\ nth 1 e 0 = Z.of_nat (length e) /\
  (nth 0 e 0 = 0 -> (8 <= length e)%nat) /\ Forall (fun b => 0 <= b < 256) e.

(** The processor an entry says to start: an enabled one other than the one
    that is running. *)
Definition entry_cpu (bsp : Z) (e : list Z) : option Z :=
  if (nth 0 e 0 =? 0) && Z.odd (nth 4 e 0) && negb (nth 3 e 0 =? bsp) then Some (nth 3 e 0) else None.

Lemma cells_nth m a l i : cells m a l -> (i < length l)%nat -> m !! (a + Z.of_nat i) = Some (nth i l 0).
Proof.
  intros Hc Hi. apply Hc. destruct (lookup_lt_is_Some_2 l i Hi) as [x Hx].
  by rewrite Hx, (nth_lookup_Some _ _ _ _ Hx).
Qed.

Definition le_value (l : list Z) : Z := fold_right (fun b r => b + 2 ^ 8 * r) 0 l.

Lemma load_le_bytes m a l : cells m a l -> load_le (length l) a m = Ok (le_value l, m).
Proof.
  revert a. induction l as [|b l IH]; intros a Hc; [done|]. apply cells_cons in Hc as [H0 Hc].
  cbn [length load_le]. rewrite (bind_ok _ _ _ _ _ (load8_ok _ _ _ H0)).
  by rewrite (bind_ok _ _ _ _ _ (IH _ Hc)).
Qed.

(** Only the lowest byte of the flags decides whether they are odd. *)
Lemma le_value_odd b l : negb (Z.land (le_value (b :: l)) 1 =? 0) = Z.odd b.
Proof.
  change 1 with (Z.ones 1). rewrite Z.land_ones by lia. change (2 ^ 1) with 2. rewrite Zmod_odd.
  cbn [le_value fold_right]. change (2 ^ 8) with (2 * 2 ^ 7). rewrite <-Z.mul_assoc, Z.odd_add_mul_2.
  by destruct (Z.odd b).
Qed.

Lemma cells_sub m a l i k :
  cells m a l -> (i + k <= length l)%nat -> cells m (a + Z.of_nat i) (take k (drop i l)).
Proof.
  intros Hc Hi. rewrite <-(take_drop i l) in Hc. apply cells_app in Hc as [_ Hc].
  rewrite length_take, Nat.min_l in Hc by lia. rewrite <-(take_drop k (drop i l)) in Hc.
  by apply cells_app in Hc as [Hc _].
Qed.

Section scan_spec.
Context {St : Type} (start : Z -> Z -> St -> St).

(** A processor start that returns: it changes the state by [start] and
    leaves the tables and the count alone. *)
Definition start_cpu (apic_id id : Z) : M (smp St) unit :=
  modify (fun s => mkSmp (smp_mem s) (start apic_id id (smp_st s)) (cpu_count s)).

(** Starting processors in order, numbered from [id]. *)
Fixpoint start_all (ids : list Z) (id : Z) (st : St) : St :=
  match ids with
  | [] => st
  | a :: ids => start_all ids (id + 1) (start a id st)
  end.

Lemma on_smp_ok {A} (f : M mem A) (s : smp St) a : f (smp_mem s) = Ok (a, smp_mem s) -> on_smp_mem f s = Ok (a, s).
Proof. unfold on_smp_mem. intros ->. by destruct s. Qed.

Lemma smp_loop_spec es fuel ptr endp bsp s :
  Forall entry_ok es -> cells (smp_mem s) ptr (concat es) -> endp = ptr + Z.of_nat (length (concat es)) ->
  (length (concat es) <= fuel)%nat ->
  0 <= cpu_count s -> cpu_count s + Z.of_nat (length es) < 2 ^ 64 ->
  smp_loop start_cpu fuel ptr endp bsp s =
    Ok (tt, mkSmp (smp_mem s) (start_all (omap (entry_cpu bsp) es) (cpu_count s) (smp_st s))
              (cpu_count s + Z.of_nat (length (omap (entry_cpu bsp) es)))).
Proof.
  revert fuel ptr s. induction es as [|e es IH]; intros fuel ptr s He Hc -> Hf H0 Hw.
  { cbn [concat length Z.of_nat omap list_omap start_all]. rewrite !Z.add_0_r.
    destruct fuel; cbn [smp_loop]; (destruct (Z.ltb_spec ptr ptr); [lia|]); by destruct s. }
  apply Forall_cons in He as [(Hl & Hlen & H8 & Hb) He]. cbn [concat] in *. rewrite length_app in *.
  apply cells_app in Hc as [Hce Hc]. destruct fuel as [|fuel]; [lia|]. cbn [smp_loop].
  destruct (Z.ltb_spec ptr (ptr + Z.of_nat (length e + length (concat es)))); [|lia]. cbn [negb].
  pose proof (cells_nth _ _ _ 0 Hce ltac:(lia)) as E0. rewrite Z.add_0_r in E0.
  pose proof (cells_nth _ _ _ 1 Hce ltac:(lia)) as E1. rewrite Hlen in E1.
  rewrite (bind_ok _ _ _ _ _ (on_smp_ok _ _ _ (load8_ok _ _ _ E0))).
  set (s1 := match entry_cpu bsp e with
    | Some a => mkSmp (smp_mem s) (start a (cpu_count s) (smp_st s)) (cpu_count s + 1) | None => s end).
  erewrite bind_ok with (s' := s1) (a := tt); cycle 1.
  { unfold s1, entry_cpu. destruct (Z.eqb_spec (nth 0 e 0) 0) as [Et|Et]; [|done]. specialize (H8 Et).
    pose proof (cells_sub _ _ _ 4 4 Hce ltac:(lia)) as Ef. pose proof (load_le_bytes _ _ _ Ef) as Efl.
    rewrite length_take, length_drop, Nat.min_l in Efl by lia.
    rewrite (bind_ok _ _ _ _ _ (on_smp_ok _ _ _ Efl)).
    do 8 (destruct e as [|? e]; [simpl in H8; lia|]). cbn [take drop nth] in *. rewrite le_value_odd.
    cbn [andb]. destruct (Z.odd _); [|done]. cbn [andb].
    pose proof (cells_nth _ _ _ 3 Hce ltac:(simpl; lia)) as E3. cbn [nth] in E3.
    rewrite (bind_ok _ _ _ _ _ (on_smp_ok _ _ _ (load8_ok _ _ _ E3))).
    destruct (negb _); [|done]. unfold bind, gets, modify, start_cpu.
    cbn [smp_mem smp_st cpu_count]. rewrite w64_small by (simpl in Hw; lia). done. }
  assert (smp_mem s1 = smp_mem s) as Em by (unfold s1; by destruct (entry_cpu bsp e)).
  assert (cpu_count s <= cpu_count s1 <= cpu_count s + 1) as Ec by (unfold s1; destruct (entry_cpu bsp e); simpl; lia).
  rewrite (bind_ok _ _ _ _ _ (on_smp_ok _ _ _ (load8_ok _ _ _ (eq_trans (f_equal (.!! _) Em) E1)))).
  rewrite (IH fuel); [|done|by rewrite Em|lia|lia|lia|simpl in Hw; lia].
  rewrite Em. unfold s1. cbn [omap list_omap]. destruct (entry_cpu bsp e); [|done]. simpl. do 3 f_equal. lia.
Qed.
End scan_spec.

(** ** Properties *)

(** acpi_find_table finds the first table with the signature, in the XSDT
    when the RSDP is of revision 2 or later and names one and in the RSDT
    otherwise, and answers null when the table it searched lists no such
    table. *)
Theorem acpi_find_table_correct m rsdp sig s revision xsdt_address rsdt_address ts ts' :
  cells m (rsdp + off_revision) (revision :: le 4 rsdt_address) ->
  cells m (rsdp + off_xsdt_address) (le 8 xsdt_address) ->
  0 <= rsdt_address < 2 ^ 32 -> 0 <= xsdt_address < 2 ^ 64 ->
  cells m sig s -> length s = 4%nat ->
  (2 <= revision /\ xsdt_address <> 0 /\ sdt m 8 (phys_to_virt xsdt_address) ts -> 
   acpi_find_table rsdp sig m = Ok (first_table ts s, m)) /\
  ((revision < 2 \/ xsdt_address = 0) /\ sdt m 4 (phys_to_virt rsdt_address) ts' ->
   acpi_find_table rsdp sig m = Ok (first_table ts' s, m)).
Proof.
  intros Hr Hx Hra Hxa Hs H4. apply cells_cons in Hr as [Hrev Hr].
  assert (load_le 4 (rsdp + off_rsdt_address) m = Ok (rsdt_address, m)) as Er.
  { apply load_le_spec; [simpl; lia|]. unfold off_revision, off_rsdt_address in *. by rewrite <-Z.add_assoc in Hr. }
  assert (load_le 8 (rsdp + off_xsdt_address) m = Ok (xsdt_address, m)) as Ex by (by apply load_le_spec).
  unfold acpi_find_table, load64. split.
  - intros (H2 & Hne & Ht). rewrite (bind_ok _ _ _ _ _ (load8_ok _ _ _ Hrev)).
    rewrite (proj2 (Z.leb_le _ _)) by done. rewrite (bind_ok _ _ _ _ _ Ex), (proj2 (Z.eqb_neq _ _)) by done.
    cbn [andb negb]. apply (find_in_sdt m 8); [lia|done..].
  - intros (Hor & Ht). rewrite (bind_ok _ _ _ _ _ (load8_ok _ _ _ Hrev)).
    assert (exists x, (if 2 <=? revision then load_le 8 (rsdp + off_xsdt_address) else ret 0) m = Ok (x, m) /\
      (2 <=? revision) && negb (x =? 0) = false) as (x & E & Eb).
    { destruct (Z.leb_spec 2 revision); [|by exists 0]. exists xsdt_address. split; [done|].
      destruct Hor as [? | ->]; [lia|done]. }
    rewrite (bind_ok _ _ _ _ _ E), Eb. unfold load32 at 1. rewrite (bind_ok _ _ _ _ _ Er).
    apply (find_in_sdt m 4); [lia|done..].
Qed.

(** C35: the scan of a well-formed MADT starts exactly the processors whose
    local APIC entry is enabled, other than the one that is running, in the
    order of the table and numbered consecutively from the current count, and
    adds their number to the count. *)
Theorem smp_scan_correct {St} (start : Z -> Z -> St -> St) (s : smp St) madt bsp es :
  Forall entry_ok es -> Z.of_nat (length (concat es)) + MADT_SIZE < 2 ^ 32 ->
  cells (smp_mem s) (madt + off_length) (le 4 (MADT_SIZE + Z.of_nat (length (concat es)))) ->
  cells (smp_mem s) (madt + MADT_SIZE) (concat es) ->
  0 <= cpu_count s -> cpu_count s + Z.of_nat (length es) < 2 ^ 64 ->
  smp_scan (start_cpu start) madt bsp s =
    Ok (tt, mkSmp (smp_mem s) (start_all start (omap (entry_cpu bsp) es) (cpu_count s) (smp_st s))
              (cpu_count s + Z.of_nat (length (omap (entry_cpu bsp) es)))).
Proof.
  intros He Hl Hlen Hc H0 Hw. unfold smp_scan, MADT_SIZE in *.
  erewrite bind_ok by (apply on_smp_ok, load_le_spec; [|exact Hlen]; simpl; lia).
  apply smp_loop_spec; [done|done|lia|lia|done|done].
Qed.

(** A MADT entry of length 0 makes the scan loop for ever: however much of
    it runs, smp_init never gets past an entry whose length byte is 0. *)
Theorem smp_scan_zero_length_hangs {St} init_cpu (s : smp St) madt bsp type length :
  cells (smp_mem s) (madt + off_length) (le 4 length) -> MADT_SIZE < length < 2 ^ 32 ->
  cells (smp_mem s) (madt + MADT_SIZE) [type; 0] -> type <> 0 ->
  smp_scan init_cpu madt bsp s = Hang /\
  forall fuel, smp_loop init_cpu fuel (madt + MADT_SIZE) (madt + length) bsp s = Hang.
Proof.
  intros Hlen Hl Hc Ht. apply cells_cons in Hc as [E0 Hc]. apply cells_cons in Hc as [E1 _].
  assert (forall fuel, smp_loop init_cpu fuel (madt + MADT_SIZE) (madt + length) bsp s = Hang) as Hloop.
  { induction fuel as [|fuel IH]; cbn [smp_loop]; (destruct (Z.ltb_spec (madt + MADT_SIZE) (madt + length)); [|lia]); [done|].
    cbn [negb]. rewrite (bind_ok _ _ _ _ _ (on_smp_ok _ _ _ (load8_ok _ _ _ E0))).
    rewrite (proj2 (Z.eqb_neq _ _)) by done. rewrite (bind_ok _ _ _ _ _ eq_refl).
    rewrite (bind_ok _ _ _ _ _ (on_smp_ok _ _ _ (load8_ok _ _ _ E1))). by rewrite Z.add_0_r. }
  split; [|done]. unfold smp_scan. unfold MADT_SIZE in Hl.
  erewrite bind_ok by (apply on_smp_ok, load_le_spec; [|exact Hlen]; simpl; lia). apply Hloop.
Qed.

(** ** Witnesses *)

Definition bytes_at (a : Z) (l : list Z) : mem := list_to_map (imap (fun i v => (a + Z.of_nat i, v)) l).

(** An RSDP at 0x1000 of revision 2, an XSDT at physical 0x2000 that names the
    tables "FACP" and "APIC", and the signature looked for at 0x100 *)
Definition APIC : list Z := [65; 80; 73; 67].
Definition FACP : list Z := [70; 65; 67; 80].
Definition acpi_mem : mem :=
  bytes_at 0x100 APIC ∪ bytes_at (0x1000 + 15) (2 :: le 4 0 ++ replicate 4 0 ++ le 8 0x2000) ∪
  bytes_at (phys_to_virt 0x2000 + 4) (le 4 52 ++ replicate 28 0 ++ le 8 0x3000 ++ le 8 0x4000) ∪
  bytes_at (phys_to_virt 0x3000) FACP ∪ bytes_at (phys_to_virt 0x4000) APIC.

Lemma acpi_find_table_correct_witness :
  acpi_find_table 0x1000 0x100 acpi_mem = Ok (phys_to_virt 0x4000, acpi_mem).
Proof.
  refine (proj1 (acpi_find_table_correct acpi_mem 0x1000 0x100 APIC 2 0x2000 0 [(0x3000, FACP); (0x4000, APIC)] []
    ltac:(apply cells_decide; by vm_compute) ltac:(apply cells_decide; by vm_compute) ltac:(lia) ltac:(lia)
    ltac:(apply cells_decide; by vm_compute) eq_refl) _).
  split; [done|]. split; [done|]. split; [done|].
  split; [apply cells_decide; by vm_compute|]. split; [apply cells_decide; by vm_compute|].
  repeat constructor; try done; apply cells_decide; by vm_compute.
Defined.

(** A MADT with processors 0 (running), 1, an I/O APIC entry and a disabled
    processor 2 and an enabled 3; starting one records it *)
Definition demo_lapic (id flags : Z) : list Z := [0; 8; id; id; flags; 0; 0; 0].
Definition demo_entries : list (list Z) :=
  [demo_lapic 0 1; demo_lapic 1 1; [1; 12; 0; 0; 0; 0; 0; 0; 0; 0; 0; 0]; demo_lapic 2 0; demo_lapic 3 1].
Definition madt_mem : mem := bytes_at (0x1000 + 4) (le 4 88 ++ replicate 36 0 ++ concat demo_entries).
Definition record_start (a id : Z) (l : list (Z * Z)) : list (Z * Z) := l ++ [(a, id)].

Lemma smp_scan_correct_witness :
  smp_scan (start_cpu record_start) 0x1000 0 (mkSmp madt_mem [] 1) = Ok (tt, mkSmp madt_mem [(1, 1); (3, 2)] 3).
Proof.
  refine (smp_scan_correct record_start (mkSmp madt_mem [] 1) 0x1000 0 demo_entries _ eq_refl
    ltac:(apply cells_decide; by vm_compute) ltac:(apply cells_decide; by vm_compute) ltac:(simpl; lia) eq_refl).
  repeat constructor; simpl; lia.
Defined.

Definition bad_madt : mem := bytes_at (0x1000 + 4) (le 4 60 ++ replicate 36 0 ++ [3; 0]).
Lemma smp_scan_zero_length_hangs_witness :
  smp_scan (start_cpu record_start) 0x1000 0 (mkSmp bad_madt [] 1) = Hang.
Proof.
  exact (proj1 (smp_scan_zero_length_hangs (start_cpu record_start) (mkSmp bad_madt [] 1) 0x1000 0 3 60
    ltac:(apply cells_decide; by vm_compute) ltac:(unfold MADT_SIZE; lia) ltac:(apply cells_decide; by vm_compute) ltac:(done))).
Defined.
