(* ===== verification/Devices.v ===== *)
(** * Interrupt controllers, timer and keyboard controller

    Models [kernel/cpu/apic/apic.c], [kernel/cpu/apic/ioapic.c],
    [kernel/arch/x86_64/drivers/pit.c] and
    [kernel/arch/x86_64/drivers/ps2/i8042.c].

    - [port_in] holds, for each I/O port, the bytes its next reads return; a
      port reads 0 from then on. [port_out] is the record of the [outb]s,
      oldest first.
    - [lapic_regs] are the registers of the local APIC by offset and
      [lapic_out] the record of the writes to them. [icr_busy] holds, for the
      next reads of the interrupt command register, whether they find a
      delivery still pending; none is pending from then on.
    - [io_sel] and [io_regs] are the I/O APIC's index register and the
      registers behind its window.
    - A loop over a port gets one more turn than the port has bytes left, so
      it runs out only where the device would keep it for ever. *)

From S2P Require Import Prelude Lock.

(** ** Data *)

Record dev := mkDev {
  d_hart : hart;
  i8042_lock_ : spinlock;
  port_in : gmap Z (list Z);
  port_out : list (Z * Z);
  lapic_base : Z;
  lapic_regs : gmap Z Z;
  icr_busy : list bool;
  lapic_out : list (Z * Z);
  io_sel : Z;
  io_regs : gmap Z Z;
  global_ticks_per_ms : Z;
  ticks_per_ms : Z;
}.

Definition set_ports (i : gmap Z (list Z)) (o : list (Z * Z)) (d : dev) : dev :=
  mkDev (d_hart d) (i8042_lock_ d) i o (lapic_base d) (lapic_regs d) (icr_busy d) (lapic_out d)
    (io_sel d) (io_regs d) (global_ticks_per_ms d) (ticks_per_ms d).
Definition set_lapic (r : gmap Z Z) (b : list bool) (o : list (Z * Z)) (d : dev) : dev :=
  mkDev (d_hart d) (i8042_lock_ d) (port_in d) (port_out d) (lapic_base d) r b o
    (io_sel d) (io_regs d) (global_ticks_per_ms d) (ticks_per_ms d).
Definition set_lapic_base (a : Z) (d : dev) : dev :=
  mkDev (d_hart d) (i8042_lock_ d) (port_in d) (port_out d) a (lapic_regs d) (icr_busy d) (lapic_out d)
    (io_sel d) (io_regs d) (global_ticks_per_ms d) (ticks_per_ms d).
Definition set_ioapic (sel : Z) (r : gmap Z Z) (d : dev) : dev :=
  mkDev (d_hart d) (i8042_lock_ d) (port_in d) (port_out d) (lapic_base d) (lapic_regs d) (icr_busy d) (lapic_out d)
    sel r (global_ticks_per_ms d) (ticks_per_ms d).
Definition set_ticks (g t : Z) (d : dev) : dev :=
  mkDev (d_hart d) (i8042_lock_ d) (port_in d) (port_out d) (lapic_base d) (lapic_regs d) (icr_busy d) (lapic_out d)
    (io_sel d) (io_regs d) g t.

#[export] Instance dev_hart : HasHart dev :=
  Lens d_hart (fun h d => mkDev h (i8042_lock_ d) (port_in d) (port_out d) (lapic_base d) (lapic_regs d)
    (icr_busy d) (lapic_out d) (io_sel d) (io_regs d) (global_ticks_per_ms d) (ticks_per_ms d)).
#[export] Instance dev_hart_ok : HasHartOk dev.
Proof. split; intros; try destruct s; done. Qed.

Definition i8042_lock : lens dev spinlock :=
  Lens i8042_lock_ (fun l d => mkDev (d_hart d) l (port_in d) (port_out d) (lapic_base d) (lapic_regs d)
    (icr_busy d) (lapic_out d) (io_sel d) (io_regs d) (global_ticks_per_ms d) (ticks_per_ms d)).
#[export] Instance i8042_lock_ok : LensOk i8042_lock.
Proof. split; intros; try destruct s; done. Qed.
#[export] Instance i8042_lock_indep : LensIndep i8042_lock hart_of.
Proof. by split. Qed.

(** ** Ports *)

(** The bytes a port has left. *)
Definition stream (d : dev) (port : Z) : list Z := default [] (port_in d !! port).

Definition inb (port : Z) : M dev Z := fun d =>
  match stream d port with
  | [] => Ok (0, d)
  | b :: l => Ok (b, set_ports (<[port := l]> (port_in d)) (port_out d) d)
  end.

Definition outb (port v : Z) : M dev unit :=
  modify (fun d => set_ports (port_in d) (port_out d ++ [(port, v)]) d).

(** ** Programmable interval timer *)

Definition PIT_CHANNEL0_PORT : Z := 0x40.
Definition PIT_COMMAND_PORT : Z := 0x43.

Definition pit_prepare_sleep (ticks : Z) : M dev unit :=
  outb PIT_COMMAND_PORT 0x30 ;;;
  outb PIT_CHANNEL0_PORT (Z.land ticks 0xFF) ;;;
  outb PIT_CHANNEL0_PORT (Z.land (Z.shiftr ticks 8) 0xFF).

(** [while (1)] until bit 7 of the status is set *)
Fixpoint pit_wait_loop (fuel : nat) : M dev unit :=
  match fuel with
  | O => hang
  | S fuel =>
    outb PIT_COMMAND_PORT 0xE2 ;;;
    status <- inb PIT_CHANNEL0_PORT ;;
    if negb (Z.land status 0x80 =? 0) then ret tt else pit_wait_loop fuel
  end.
Definition pit_wait_calibration : M dev unit :=
  fuel <- gets (fun d => S (length (stream d PIT_CHANNEL0_PORT))) ;; pit_wait_loop fuel.

(** ** Local APIC *)

Definition LAPIC_TPR : Z := 0x0080.
Definition LAPIC_EOI : Z := 0x00B0.
Definition LAPIC_SVR : Z := 0x00F0.
Definition LAPIC_ESR : Z := 0x0280.
Definition LAPIC_ICR_LOW : Z := 0x0300.
Definition LAPIC_ICR_HIGH : Z := 0x0310.
Definition LAPIC_LVT_TIMER : Z := 0x0320.
Definition LAPIC_LVT_LINT0 : Z := 0x0350.
Definition LAPIC_LVT_LINT1 : Z := 0x0360.
Definition LAPIC_LVT_ERROR : Z := 0x0370.
Definition LAPIC_TICR : Z := 0x0380.
Definition LAPIC_TCCR : Z := 0x0390.
Definition LAPIC_TDCR : Z := 0x03E0.
Definition LAPIC_SVR_ENABLE : Z := 0x100.
Definition ICR_FIXED : Z := 0x000.
Definition ICR_INIT : Z := 0x500.
Definition ICR_STARTUP : Z := 0x600.
Definition ICR_SEND_PENDING : Z := 0x1000.
Definition ICR_ASSERT : Z := 0x4000.
Definition ICR_EDGE : Z := 0x0000.
Definition ICR_LEVEL : Z := 0x8000.
Definition ICR_SHORTHAND_OTHERS : Z := 0xC0000.

(** An access before [lapic_init] set the base is outside the device. *)
Definition lapic_write (reg data : Z) : M dev unit :=
  base <- gets lapic_base ;;
  if base =? NULL then fault else
  modify (fun d => set_lapic (<[reg := w32 data]> (lapic_regs d)) (icr_busy d) (lapic_out d ++ [(reg, w32 data)]) d).

(** A read of the command register finds the delivery status of the moment. *)
Definition lapic_read (reg : Z) : M dev Z := fun d =>
  if lapic_base d =? NULL then Fault else
  let v := rd (lapic_regs d) reg in
  if reg =? LAPIC_ICR_LOW then
    match icr_busy d with
    | [] => Ok (Z.ldiff v ICR_SEND_PENDING, d)
    | b :: l => Ok (if b then Z.lor v ICR_SEND_PENDING else Z.ldiff v ICR_SEND_PENDING,
                    set_lapic (lapic_regs d) l (lapic_out d) d)
    end
  else Ok (v, d).

Definition lapic_init (virt_addr : Z) : M dev unit :=
  modify (set_lapic_base virt_addr) ;;;
  lapic_write LAPIC_ESR 0 ;;;
  lapic_write LAPIC_ESR 0 ;;;
  svr <- lapic_read LAPIC_SVR ;;
  lapic_write LAPIC_SVR (Z.lor (Z.lor svr LAPIC_SVR_ENABLE) 0xFF) ;;;
  lapic_write LAPIC_LVT_LINT0 0x10000 ;;;
  lapic_write LAPIC_LVT_LINT1 0x10000 ;;;
  lapic_write LAPIC_LVT_ERROR 34 ;;;
  lapic_write LAPIC_TPR 0 ;;;
  lapic_write LAPIC_EOI 0.

Definition lapic_init_ap : M dev unit :=
  svr <- lapic_read LAPIC_SVR ;;
  lapic_write LAPIC_SVR (Z.lor svr 0x1FF) ;;;
  lapic_write LAPIC_TPR 0 ;;;
  lapic_write LAPIC_ESR 0 ;;;
  lapic_write LAPIC_ESR 0.

(** The processor that runs waits for the bootstrap processor's measurement,
    which never comes while it runs alone. *)
Definition lapic_timer_calibrate : M dev unit :=
  cpu_id <- get_cpu_id ;;
  (if cpu_id =? 0 then
     lapic_write LAPIC_TDCR 0x03 ;;;
     lapic_write LAPIC_TICR 0xFFFFFFFF ;;;
     pit_prepare_sleep (5 * 1193) ;;;
     pit_wait_calibration ;;;
     current_ticks <- lapic_read LAPIC_TCCR ;;
     modify (fun d => set_ticks (w32 (0xFFFFFFFF - current_ticks) / 5) (ticks_per_ms d) d)
   else
     g <- gets global_ticks_per_ms ;;
     if g =? 0 then hang else ret tt) ;;;
  modify (fun d => set_ticks (global_ticks_per_ms d) (w32 (global_ticks_per_ms d)) d) ;;;
  lapic_write LAPIC_TICR 0.

Definition lapic_timer_init (ms_interval vector : Z) : M dev unit :=
  lapic_timer_calibrate ;;;
  lapic_write LAPIC_LVT_TIMER (Z.lor vector (Z.shiftl 1 17)) ;;;
  lapic_write LAPIC_TDCR 0x03 ;;;
  t <- gets ticks_per_ms ;;
  lapic_write LAPIC_TICR (t * ms_interval).

(** [while (lapic_read(LAPIC_ICR_LOW) & ICR_SEND_PENDING) timeout--;]: the
    value of [timeout] after the loop *)
Fixpoint delivery_loop (fuel : nat) (timeout : Z) : M dev Z :=
  match fuel with
  | O => hang
  | S fuel =>
    v <- lapic_read LAPIC_ICR_LOW ;;
    if negb (Z.land v ICR_SEND_PENDING =? 0) then delivery_loop fuel (w64 (timeout - 1)) else ret timeout
  end.
Definition lapic_wait_for_delivery : M dev unit :=
  fuel <- gets (fun d => S (length (icr_busy d))) ;;
  timeout <- delivery_loop fuel 1000000 ;;
  if timeout =? 0 then panic else ret tt.

Definition lapic_send_ipi (target_lapic_id vector : Z) : M dev unit :=
  lapic_wait_for_delivery ;;;
  lapic_write LAPIC_ICR_HIGH (w32 (Z.shiftl target_lapic_id 24)) ;;;
  lapic_write LAPIC_ICR_LOW (Z.lor (Z.lor (Z.lor ICR_ASSERT ICR_EDGE) ICR_FIXED) vector).

Definition lapic_broadcast_ipi (vector : Z) : M dev unit :=
  lapic_wait_for_delivery ;;;
  lapic_write LAPIC_ICR_LOW
    (Z.lor (Z.lor (Z.lor (Z.lor ICR_SHORTHAND_OTHERS ICR_ASSERT) ICR_EDGE) ICR_FIXED) vector).

Definition lapic_send_eoi : M dev unit := lapic_write LAPIC_EOI 0.

(** [smp_halt_others] *)
Definition IPI_VECTOR_HALT : Z := 0xFE.
Definition smp_halt_others : M dev unit := lapic_broadcast_ipi IPI_VECTOR_HALT.

(** [sync_tlb] of [vmm.h]: the interrupt that makes the other processors drop
    their translations, and the wait for its delivery. [Vmm] records only that
    it was called. *)
Definition IPI_VECTOR_TEST : Z := 0xFD.
Definition sync_tlb_ipi : M dev unit :=
  lapic_broadcast_ipi IPI_VECTOR_TEST ;;;
  lapic_wait_for_delivery.

(** ** I/O APIC *)

Definition ioapic_write (reg data : Z) : M dev unit :=
  modify (fun d => set_ioapic (w8 reg) (io_regs d) d) ;;;
  modify (fun d => set_ioapic (io_sel d) (<[io_sel d := w32 data]> (io_regs d)) d).

Definition ioapic_read (reg : Z) : M dev Z :=
  modify (fun d => set_ioapic (w8 reg) (io_regs d) d) ;;;
  gets (fun d => rd (io_regs d) (io_sel d)).

Definition ioapic_set_irq (pin apic_id vector : Z) : M dev unit :=
  let low_index := 0x10 + pin * 2 in
  let high_index := 0x11 + pin * 2 in
  ioapic_write low_index (Z.land vector (Z.lnot (Z.shiftl 1 16))) ;;;
  ioapic_write high_index (Z.shiftl apic_id 24).

(** [for (i = 0; i < max_entries; i++)], [k] iterations left *)
Fixpoint ioapic_mask_loop (k : nat) (i : Z) : M dev unit :=
  match k with
  | O => ret tt
  | S k =>
    ioapic_write (0x10 + i * 2) 0x00010000 ;;;
    ioapic_write (0x10 + i * 2 + 1) 0 ;;;
    ioapic_mask_loop k (i + 1)
  end.

(** [ioapic_init] once its page is mapped *)
Definition ioapic_reset : M dev unit :=
  ver_reg <- ioapic_read 0x01 ;;
  let max_entries := Z.land (Z.shiftr ver_reg 16) 0xFF + 1 in
  ioapic_mask_loop (Z.to_nat max_entries) 0.

(** ** Keyboard controller *)

Definition PS2_DATA_PORT : Z := 0x60.
Definition PS2_STATUS_REG : Z := 0x64.
Definition PS2_COMMAND_REG : Z := 0x64.
Definition PS2_STATUS_OUTPUT_FULL : Z := 0x01.
Definition PS2_STATUS_INPUT_FULL : Z := 0x02.
Definition I8042_CMD_READ_CONFIG : Z := 0x20.
Definition I8042_CMD_WRITE_CONFIG : Z := 0x60.
Definition I8042_CMD_SELF_TEST : Z := 0xAA.
Definition I8042_CMD_DISABLE_P1 : Z := 0xAD.
Definition I8042_CMD_ENABLE_P1 : Z := 0xAE.
Definition I8042_CMD_DISABLE_P2 : Z := 0xA7.

(** [for (int i = 0; i < 100000; i++) if (ready(inb(PS2_STATUS_REG))) return;],
    [k] iterations left *)
Fixpoint wait_status (ready : Z -> bool) (k : nat) : M dev unit :=
  match k with
  | O => ret tt
  | S k => b <- inb PS2_STATUS_REG ;; if ready b then ret tt else wait_status ready k
  end.

Definition i8042_wait_write : M dev unit :=
  wait_status (fun b => Z.land b PS2_STATUS_INPUT_FULL =? 0) (Z.to_nat 100000).
Definition i8042_wait_read : M dev unit :=
  wait_status (fun b => negb (Z.land b PS2_STATUS_OUTPUT_FULL =? 0)) (Z.to_nat 100000).

Definition i8042_write_command (cmd : Z) : M dev unit :=
  critical i8042_lock (i8042_wait_write ;;; outb PS2_COMMAND_REG cmd).
Definition i8042_write_data (data : Z) : M dev unit :=
  critical i8042_lock (i8042_wait_write ;;; outb PS2_DATA_PORT data).
Definition i8042_read_data : M dev Z :=
  critical i8042_lock (i8042_wait_read ;;; inb PS2_DATA_PORT).

(** [while (inb(PS2_STATUS_REG) & PS2_STATUS_OUTPUT_FULL) inb(PS2_DATA_PORT);] *)
Fixpoint flush_output (fuel : nat) : M dev unit :=
  match fuel with
  | O => hang
  | S fuel =>
    b <- inb PS2_STATUS_REG ;;
    if Z.land b PS2_STATUS_OUTPUT_FULL =? 0 then ret tt
    else _ <- inb PS2_DATA_PORT ;; flush_output fuel
  end.
Definition i8042_flush : M dev unit :=
  fuel <- gets (fun d => S (length (stream d PS2_STATUS_REG))) ;; flush_output fuel.

Definition i8042_init : M dev unit :=
  i8042_write_command I8042_CMD_DISABLE_P1 ;;;
  i8042_write_command I8042_CMD_DISABLE_P2 ;;;
  i8042_flush ;;;
  i8042_write_command I8042_CMD_SELF_TEST ;;;
  res <- i8042_read_data ;;
  if negb (res =? 0x55) then ret tt else
  i8042_write_command I8042_CMD_READ_CONFIG ;;;
  config <- i8042_read_data ;;
  let config := Z.lor config (Z.shiftl 1 0) in
  let config := Z.land config (Z.lnot (Z.shiftl 1 1)) in
  let config := Z.land config (Z.lnot (Z.shiftl 1 6)) in
  i8042_write_command I8042_CMD_WRITE_CONFIG ;;;
  i8042_write_data config ;;;
  i8042_write_command I8042_CMD_ENABLE_P1 ;;;
  i8042_wait_write ;;;
  outb PS2_DATA_PORT 0xF4 ;;;
  i8042_flush.

(** ** The local APIC *)

Lemma lapic_write_ok d reg v : lapic_base d <> NULL ->
  lapic_write reg v d = Ok (tt, set_lapic (<[reg := w32 v]> (lapic_regs d)) (icr_busy d) (lapic_out d ++ [(reg, w32 v)]) d).
Proof. intros H. unfold lapic_write, bind, gets. by rewrite (proj2 (Z.eqb_neq _ _)). Qed.

Lemma pending_set v : negb (Z.land (Z.lor v ICR_SEND_PENDING) ICR_SEND_PENDING =? 0) = true.
Proof.
  change ICR_SEND_PENDING with (Z.shiftl 1 12). rewrite land_bit_zero by lia.
  rewrite negb_involutive, Z.lor_spec, testbit_shift1 by lia. by rewrite orb_true_r.
Qed.

Lemma pending_clear v : negb (Z.land (Z.ldiff v ICR_SEND_PENDING) ICR_SEND_PENDING =? 0) = false.
Proof.
  change ICR_SEND_PENDING with (Z.shiftl 1 12). rewrite land_bit_zero by lia.
  rewrite negb_involutive, Z.ldiff_spec, testbit_shift1 by lia. by rewrite andb_false_r.
Qed.

(** The number of reads that find a delivery pending before one does not. *)
Fixpoint busy_reads (l : list bool) : nat :=
  match l with true :: l => S (busy_reads l) | _ => O end.

(** The state after a wait. *)
Definition waited (d : dev) : dev :=
  set_lapic (lapic_regs d) (drop (S (busy_reads (icr_busy d))) (icr_busy d)) (lapic_out d) d.

Lemma delivery_loop_spec fuel timeout d :
  lapic_base d <> NULL -> (length (icr_busy d) < fuel)%nat -> 0 <= timeout < 2 ^ 64 ->
  delivery_loop fuel timeout d = Ok (w64 (timeout - Z.of_nat (busy_reads (icr_busy d))), waited d).
Proof.
  intros Hb. revert timeout d Hb. induction fuel as [|fuel IH]; intros timeout d Hb Hf Ht; [lia|].
  cbn [delivery_loop]. unfold bind, lapic_read, waited at 1. rewrite (proj2 (Z.eqb_neq _ _)) by done.
  change (LAPIC_ICR_LOW =? LAPIC_ICR_LOW) with true. cbv zeta iota.
  destruct (icr_busy d) as [|[] l] eqn:El; cbn [busy_reads drop].
  - rewrite pending_clear, Z.sub_0_r, w64_small by done. unfold ret. do 2 f_equal. destruct d; simpl in *. by subst.
  - rewrite pending_set. simpl in Hf. rewrite IH; [|done|simpl; lia|apply w64_range].
    unfold waited. cbn [icr_busy set_lapic]. do 2 f_equal.
    unfold w64. rewrite Zminus_mod_idemp_l. f_equal. lia.
  - by rewrite pending_clear, Z.sub_0_r, w64_small.
Qed.

Lemma lapic_wait_spec d : lapic_base d <> NULL ->
  lapic_wait_for_delivery d =
    if w64 (1000000 - Z.of_nat (busy_reads (icr_busy d))) =? 0 then Panic else Ok (tt, waited d).
Proof.
  intros Hb. unfold lapic_wait_for_delivery. rewrite (bind_ok _ _ _ _ _ eq_refl).
  rewrite (bind_ok _ _ _ _ _ (delivery_loop_spec (S (length (icr_busy d))) 1000000 d Hb ltac:(lia) ltac:(lia))).
  by destruct (_ =? 0).
Qed.

(** The timeout of lapic_wait_for_delivery does not bound the wait: with a
    delivery that stays pending for k reads the routine makes all k + 1 of
    them, whatever k is, and then returns, except that it panics when k is
    exactly 1000000 (modulo 2^64), a delivery that did complete. A delivery
    that is never reported complete keeps it for ever: no number of reads that
    all find it pending ends the loop. *)
Theorem lapic_wait_for_delivery_timeout d k rest :
  lapic_base d <> NULL -> icr_busy d = replicate k true ++ false :: rest -> Z.of_nat k < 2 ^ 64 ->
  lapic_wait_for_delivery d =
    (if Z.of_nat k =? 1000000 then Panic else Ok (tt, set_lapic (lapic_regs d) rest (lapic_out d) d)) /\
  forall fuel timeout, (fuel <= k)%nat -> delivery_loop fuel timeout d = Hang.
Proof.
  intros Hb Hi Hk. assert (forall j, busy_reads (replicate j true ++ false :: rest) = j) as Hj.
  { induction j as [|j IH]; [done|]. simpl. by rewrite IH. }
  split.
  - rewrite lapic_wait_spec by done. unfold waited. rewrite Hi, Hj.
    replace (drop (S k) (replicate k true ++ false :: rest)) with rest; cycle 1.
    { rewrite drop_app_ge by (rewrite length_replicate; lia). rewrite length_replicate.
      by replace (S k - k)%nat with 1%nat by lia. }
    destruct (Z.eqb_spec (Z.of_nat k) 1000000) as [->|Hne]; [done|].
    rewrite (proj2 (Z.eqb_neq _ _)); [done|]. intros H%Z.mod_divide; [|lia]. destruct H as [q Hq]. nia.
  - clear Hk. revert d k Hb Hi. intros d k Hb Hi fuel. revert d k Hb Hi.
    induction fuel as [|fuel IH]; intros d k Hb Hi timeout Hf; [done|]. destruct k as [|k]; [lia|].
    cbn [delivery_loop]. unfold bind, lapic_read. rewrite (proj2 (Z.eqb_neq _ _)) by done.
    change (LAPIC_ICR_LOW =? LAPIC_ICR_LOW) with true. cbv zeta iota. rewrite Hi. simpl replicate. cbn [app].
    rewrite pending_set. apply IH with k; [done|done|lia].
Qed.

(** The fields of the command register: destination, vector, and the delivery
    mode, level and shorthand above it. *)
Definition icr_dest (high : Z) : Z := Z.shiftr high 24.
Definition icr_vector (low : Z) : Z := Z.land low 0xFF.
Definition icr_mode (low : Z) : Z := Z.shiftr low 8.

Lemma lor_vector m v : 0 <= v < 256 -> Z.lor (Z.shiftl m 8) v = m * 256 + v.
Proof.
  intros Hv. rewrite Z.shiftl_mul_pow2 by lia. symmetry. apply Z.add_nocarry_lor.
  apply Z.bits_inj'. intros n Hn. rewrite Z.land_spec, Z.bits_0. destruct (decide (n < 8)).
  - by rewrite Z.mul_pow2_bits_low by lia.
  - rewrite (testbit_above v 8) by lia. apply andb_false_r.
Qed.

Lemma icr_fields m v : 0 <= m < 2 ^ 24 -> 0 <= v < 256 ->
  let low := w32 (Z.lor (Z.shiftl m 8) v) in icr_vector low = v /\ icr_mode low = m.
Proof.
  intros Hm Hv. cbv zeta. rewrite lor_vector by done. rewrite w32_small by lia.
  unfold icr_vector, icr_mode. change 0xFF with (Z.ones 8). rewrite Z.land_ones, Z.shiftr_div_pow2 by lia.
  change (2 ^ 8) with 256. rewrite Z.div_add_l, Z.div_small by lia. split; [|lia].
  rewrite Z.add_comm, Z.mod_add by lia. by apply Z.mod_small.
Qed.

(** An inter-processor interrupt is sent once the previous one has been
    delivered, destination first: lapic_send_ipi then writes the target's id
    to the high half of the command register and, to the low half, the vector
    with delivery mode fixed and level assert; lapic_broadcast_ipi writes the
    low half alone, with the shorthand for all other processors. Both fields
    decode to what was asked for. *)
Theorem lapic_send_ipi_correct d target vector :
  lapic_base d <> NULL -> 0 <= target < 256 -> 0 <= vector < 256 ->
  Z.of_nat (busy_reads (icr_busy d)) < 1000000 ->
  exists high low all d1 d2,
    lapic_send_ipi target vector d = Ok (tt, d1) /\
    lapic_out d1 = lapic_out d ++ [(LAPIC_ICR_HIGH, high); (LAPIC_ICR_LOW, low)] /\
    icr_dest high = target /\ icr_vector low = vector /\ icr_mode low = 0x40 /\
    lapic_broadcast_ipi vector d = Ok (tt, d2) /\
    lapic_out d2 = lapic_out d ++ [(LAPIC_ICR_LOW, all)] /\
    icr_vector all = vector /\ icr_mode all = 0xC40.
Proof.
  intros Hb Ht Hv Hk.
  assert (lapic_wait_for_delivery d = Ok (tt, waited d)) as Ew.
  { rewrite lapic_wait_spec, (proj2 (Z.eqb_neq _ _)); [done| |done]. rewrite w64_small; lia. }
  assert (forall v, lapic_write LAPIC_ICR_LOW v (waited d) = _) as El by (intros v; by apply lapic_write_ok).
  eexists _, _, _, _, _. split.
  { unfold lapic_send_ipi. rewrite (bind_ok _ _ _ _ _ Ew).
    erewrite bind_ok by (by apply lapic_write_ok). by apply lapic_write_ok. }
  split; [cbn [lapic_out set_lapic waited]; by rewrite <-app_assoc|].
  split.
  { unfold icr_dest. rewrite Z.shiftl_mul_pow2 by lia. rewrite !w32_small by (rewrite ?w32_small; lia).
    rewrite Z.shiftr_div_pow2 by lia. apply Z.div_mul. lia. }
  destruct (icr_fields 0x40 vector ltac:(lia) Hv) as [F1 F2]. split; [exact F1|]. split; [exact F2|].
  split; [unfold lapic_broadcast_ipi; rewrite (bind_ok _ _ _ _ _ Ew); by apply lapic_write_ok|].
  split; [done|]. destruct (icr_fields 0xC40 vector ltac:(lia) Hv) as [G1 G2]. split; [exact G1|exact G2].
Qed.

(** sync_tlb broadcasts the test vector once the previous interrupt has been
    delivered, and returns once the broadcast has been: it makes one read of
    the command register more than each of the two stays pending. It panics
    when either wait is of exactly 1000000 reads. *)
Theorem sync_tlb_ipi_correct d j k rest :
  lapic_base d <> NULL -> icr_busy d = replicate j true ++ false :: replicate k true ++ false :: rest ->
  Z.of_nat j < 2 ^ 64 -> Z.of_nat k < 2 ^ 64 ->
  (Z.of_nat j = 1000000 \/ Z.of_nat k = 1000000 -> sync_tlb_ipi d = Panic) /\
  (Z.of_nat j <> 1000000 -> Z.of_nat k <> 1000000 -> exists d' all, sync_tlb_ipi d = Ok (tt, d') /\
    icr_busy d' = rest /\ lapic_out d' = lapic_out d ++ [(LAPIC_ICR_LOW, all)] /\ icr_vector all = IPI_VECTOR_TEST /\ icr_mode all = 0xC40).
Proof.
  intros Hb Hi Hj Hk. destruct (lapic_wait_for_delivery_timeout d j _ Hb Hi Hj) as [E1 _]. unfold sync_tlb_ipi, lapic_broadcast_ipi.
  destruct (Z.eqb_spec (Z.of_nat j) 1000000) as [Ej|Ej].
  { split; [|done]. intros _. unfold bind. by rewrite E1. }
  set (d1 := set_lapic _ _ _ d) in E1. set (low := Z.lor _ IPI_VECTOR_TEST).
  assert (lapic_base d1 <> NULL) as Hb1 by exact Hb.
  set (d2 := set_lapic (<[LAPIC_ICR_LOW := w32 low]> (lapic_regs d1)) (icr_busy d1) (lapic_out d1 ++ [(LAPIC_ICR_LOW, w32 low)]) d1).
  destruct (lapic_wait_for_delivery_timeout d2 k rest Hb eq_refl Hk) as [E2 _].
  rewrite bind_bind, (bind_ok _ _ _ _ _ E1), (bind_ok _ _ _ _ _ (lapic_write_ok d1 LAPIC_ICR_LOW low Hb1)). fold d2. rewrite E2.
  destruct (Z.eqb_spec (Z.of_nat k) 1000000) as [Ek|Ek]; (split; [|intros _]); [done|done|by intros []|].
  intros _. destruct (icr_fields 0xC40 IPI_VECTOR_TEST ltac:(lia) ltac:(unfold IPI_VECTOR_TEST; lia)) as [G1 G2].
  eexists _, (w32 low). split; [done|]. split; [done|]. split; [done|]. split; [exact G1|exact G2].
Qed.

(** ** The timer *)

(** Whether the countdown is reported finished within the bytes the port has. *)
Definition pit_done (l : list Z) : bool := existsb (fun b => negb (Z.land b 0x80 =? 0)) l.

Lemma pit_wait_loop_spec fuel d :
  pit_done (stream d PIT_CHANNEL0_PORT) = true -> (length (stream d PIT_CHANNEL0_PORT) <= fuel)%nat ->
  exists i o, pit_wait_loop fuel d = Ok (tt, set_ports i o d).
Proof.
  revert d. induction fuel as [|fuel IH]; intros d Hd Hf.
  { destruct (stream d PIT_CHANNEL0_PORT); [done|simpl in Hf; lia]. }
  cbn [pit_wait_loop]. rewrite (bind_ok _ _ _ _ _ eq_refl). unfold bind at 1, inb at 1.
  change (stream (set_ports (port_in d) (port_out d ++ [(PIT_COMMAND_PORT, 0xE2)]) d) PIT_CHANNEL0_PORT)
    with (stream d PIT_CHANNEL0_PORT).
  destruct (stream d PIT_CHANNEL0_PORT) as [|b l] eqn:El; [done|].
  cbn [pit_done existsb] in Hd. destruct (negb (Z.land b 0x80 =? 0)); [by eexists _, _|].
  edestruct IH as (i & o & E); [| |rewrite E; by eexists _, _];
    unfold stream; cbn [port_in set_ports]; rewrite lookup_insert_eq; simpl in *; [done|lia].
Qed.

(** The measurement: made by the bootstrap processor, read by the others. *)
Lemma calibrate_bsp d :
  lapic_base d <> NULL -> cpu_id (d_hart d) = Some 0 -> pit_done (stream d PIT_CHANNEL0_PORT) = true ->
  let t := w32 (0xFFFFFFFF - rd (lapic_regs d) LAPIC_TCCR) / 5 in
  exists d', lapic_timer_calibrate d = Ok (tt, d') /\ lapic_base d' <> NULL /\
    global_ticks_per_ms d' = t /\ ticks_per_ms d' = w32 t.
Proof.
  intros Hb Hc Hp t. unfold lapic_timer_calibrate.
  erewrite bind_ok by (unfold get_cpu_id, bind, gets; simpl; by rewrite Hc). cbn [Z.eqb].
  assert (exists d2, (lapic_write LAPIC_TDCR 0x03 ;;; lapic_write LAPIC_TICR 0xFFFFFFFF ;;;
     pit_prepare_sleep (5 * 1193) ;;; pit_wait_calibration ;;;
     current_ticks <- lapic_read LAPIC_TCCR ;;
     modify (fun d => set_ticks (w32 (0xFFFFFFFF - current_ticks) / 5) (ticks_per_ms d) d)) d = Ok (tt, d2) /\
     lapic_base d2 <> NULL /\ global_ticks_per_ms d2 = t) as (d2 & E2 & Hb2 & Hg2).
  { do 2 (erewrite bind_ok by (by apply lapic_write_ok)). erewrite bind_ok by reflexivity.
    unfold pit_wait_calibration. rewrite bind_bind. erewrite bind_ok by reflexivity. cbv beta.
    edestruct pit_wait_loop_spec as (i & o & E); [| |erewrite (bind_ok _ _ _ _ _ E)]; [exact Hp|simpl; lia|].
    erewrite bind_ok; cycle 1.
    { unfold lapic_read. cbn [lapic_base set_ports set_lapic]. rewrite (proj2 (Z.eqb_neq _ _)) by done.
      cbn [lapic_regs set_ports set_lapic]. rewrite !rd_insert. reflexivity. }
    eexists. split; [reflexivity|]. split; [exact Hb|done]. }
  rewrite (bind_ok _ _ _ _ _ E2), (bind_ok _ _ _ _ _ eq_refl).
  eexists. split; [by apply lapic_write_ok|]. cbn. by rewrite Hg2.
Qed.

Lemma calibrate_ap d cpu :
  lapic_base d <> NULL -> cpu_id (d_hart d) = Some cpu -> cpu <> 0 ->
  if global_ticks_per_ms d =? 0 then lapic_timer_calibrate d = Hang
  else exists d', lapic_timer_calibrate d = Ok (tt, d') /\ lapic_base d' <> NULL /\
    global_ticks_per_ms d' = global_ticks_per_ms d /\ ticks_per_ms d' = w32 (global_ticks_per_ms d).
Proof.
  intros Hb Hc Hne. unfold lapic_timer_calibrate.
  erewrite bind_ok by (unfold get_cpu_id, bind, gets; simpl; by rewrite Hc).
  rewrite (proj2 (Z.eqb_neq cpu 0)) by done. rewrite bind_bind, (bind_ok _ _ _ _ _ eq_refl).
  destruct (global_ticks_per_ms d =? 0); [done|]. do 2 rewrite (bind_ok _ _ _ _ _ eq_refl).
  eexists. split; [by apply lapic_write_ok|done].
Qed.

(** On the bootstrap processor, when the PIT finishes its 5 ms countdown,
    lapic_timer_init leaves the timer periodic on the vector asked for, with
    the ticks it measured per millisecond times the interval as its initial
    count (modulo 2^32); another processor uses the measurement already made,
    and waits for ever when there is none yet. *)
Theorem lapic_timer_init_correct d ms vector cpu :
  lapic_base d <> NULL -> cpu_id (d_hart d) = Some cpu -> 0 <= vector < 256 ->
  pit_done (stream d PIT_CHANNEL0_PORT) = true ->
  let t := if cpu =? 0 then w32 (0xFFFFFFFF - rd (lapic_regs d) LAPIC_TCCR) / 5 else global_ticks_per_ms d in
  if negb (cpu =? 0) && (global_ticks_per_ms d =? 0) then lapic_timer_init ms vector d = Hang
  else exists d', lapic_timer_init ms vector d = Ok (tt, d') /\
    rd (lapic_regs d') LAPIC_LVT_TIMER = vector + 2 ^ 17 /\ rd (lapic_regs d') LAPIC_TDCR = 0x03 /\
    rd (lapic_regs d') LAPIC_TICR = w32 (t * ms) /\ global_ticks_per_ms d' = t /\ ticks_per_ms d' = w32 t.
Proof.
  intros Hb Hc Hv Hp t.
  assert (forall d1, lapic_timer_calibrate d = Ok (tt, d1) -> lapic_base d1 <> NULL ->
    global_ticks_per_ms d1 = t -> ticks_per_ms d1 = w32 t ->
    exists d', lapic_timer_init ms vector d = Ok (tt, d') /\
    rd (lapic_regs d') LAPIC_LVT_TIMER = vector + 2 ^ 17 /\ rd (lapic_regs d') LAPIC_TDCR = 0x03 /\
    rd (lapic_regs d') LAPIC_TICR = w32 (t * ms) /\ global_ticks_per_ms d' = t /\ ticks_per_ms d' = w32 t) as Htail.
  { intros d1 E Hb1 Hg Ht. unfold lapic_timer_init. rewrite (bind_ok _ _ _ _ _ E).
    do 2 (erewrite bind_ok by (by apply lapic_write_ok)). rewrite (bind_ok _ _ _ _ _ eq_refl).
    eexists. split; [by apply lapic_write_ok|]. cbn [lapic_regs set_lapic ticks_per_ms global_ticks_per_ms].
    rewrite !rd_insert, Ht. split; [|split; [done|split; [|done]]].
    - change (w32 (Z.lor vector (Z.shiftl 1 17)) = vector + 2 ^ 17).
      rewrite Z.lor_comm. change (Z.shiftl 1 17) with (Z.shiftl (2 ^ 9) 8). rewrite lor_vector by done.
      rewrite w32_small; lia.
    - change (w32 (w32 t * ms) = w32 (t * ms)). unfold w32. by rewrite Zmult_mod_idemp_l. }
  subst t. destruct (Z.eqb_spec cpu 0) as [->|Hne]; cbn [negb andb].
  - destruct (calibrate_bsp d Hb Hc Hp) as (d1 & E & ? & ? & ?). by apply Htail with d1.
  - pose proof (calibrate_ap d cpu Hb Hc Hne) as H. destruct (global_ticks_per_ms d =? 0).
    + unfold lapic_timer_init, bind at 1. by rewrite H.
    + destruct H as (d1 & E & ? & ? & ?). by apply Htail with d1.
Qed.

(** ** The I/O APIC *)

Lemma ioapic_write_eq d reg v :
  ioapic_write reg v d = Ok (tt, set_ioapic (w8 reg) (<[w8 reg := w32 v]> (io_regs d)) d).
Proof. done. Qed.

(** The redirection entry of a pin: its low and high registers. *)
Definition io_entry (d : dev) (pin : Z) : Z * Z := (rd (io_regs d) (0x10 + pin * 2), rd (io_regs d) (0x11 + pin * 2)).

Lemma ioapic_mask_spec k i d :
  0 <= i -> i + Z.of_nat k <= 120 ->
  exists sel r, ioapic_mask_loop k i d = Ok (tt, set_ioapic sel r d) /\
    forall reg, rd r reg =
      if decide (0x10 + i * 2 <= reg < 0x10 + (i + Z.of_nat k) * 2)
      then (if Z.even reg then 0x10000 else 0) else rd (io_regs d) reg.
Proof.
  revert i d. induction k as [|k IH]; intros i d Hi Hk.
  { exists (io_sel d), (io_regs d). split; [by destruct d|]. intros reg. by rewrite decide_False by lia. }
  cbn [ioapic_mask_loop]. rewrite (bind_ok _ _ _ _ _ (ioapic_write_eq _ _ _)), (bind_ok _ _ _ _ _ (ioapic_write_eq _ _ _)).
  destruct (IH (i + 1) (set_ioapic (w8 (0x10 + i * 2 + 1))
    (<[w8 (0x10 + i * 2 + 1) := w32 0]> (<[w8 (0x10 + i * 2) := w32 0x10000]> (io_regs d))) d))
    as (sel & r & E & Hr); [lia|lia|].
  exists sel, r. split; [exact E|]. intros reg. rewrite Hr. cbn [io_regs set_ioapic]. rewrite !rd_insert, !w8_small by lia.
  destruct (decide (0x10 + (i + 1) * 2 <= reg < _)); [by rewrite decide_True by lia|].
  destruct (decide (0x10 + i * 2 + 1 = reg)) as [<-|].
  { rewrite decide_True by lia. replace (0x10 + i * 2 + 1) with (1 + 2 * (8 + i)) by lia. by rewrite Z.even_add_mul_2. }
  destruct (decide (0x10 + i * 2 = reg)) as [<-|]; [|by rewrite decide_False by lia].
  rewrite decide_True by lia. replace (0x10 + i * 2) with (0 + 2 * (8 + i)) by lia. by rewrite Z.even_add_mul_2.
Qed.

(** After ioapic_init every redirection entry of an I/O APIC with up to
    120 of them is masked, and ioapic_set_irq then routes one pin and only
    that one: its entry is unmasked, with the vector asked for, fixed delivery,
    and the processor's id as its destination, while the entries of all other
    pins stay masked. *)
Theorem ioapic_routing d pin apic_id vector :
  let n := Z.land (Z.shiftr (rd (io_regs d) 0x01) 16) 0xFF + 1 in
  n <= 120 -> 0 <= pin < n -> 0 <= apic_id < 256 -> 0 <= vector < 256 ->
  exists d1 d2, ioapic_reset d = Ok (tt, d1) /\ ioapic_set_irq pin apic_id vector d1 = Ok (tt, d2) /\
    (forall p, 0 <= p < n -> io_entry d1 p = (0x10000, 0)) /\
    io_entry d2 pin = (vector, apic_id * 2 ^ 24) /\
    (forall p, 0 <= p < n -> p <> pin -> io_entry d2 p = (0x10000, 0)).
Proof.
  intros n Hn Hp Ha Hv. unfold ioapic_reset, ioapic_read. rewrite bind_bind, (bind_ok _ _ _ _ _ eq_refl).
  rewrite (bind_ok _ _ _ _ _ eq_refl). cbn [io_regs io_sel set_ioapic]. change (w8 0x01) with 0x01.
  fold n. edestruct (ioapic_mask_spec (Z.to_nat n) 0) as (sel & r & E & Hr); [lia|lia|].
  eexists _, _. split; [exact E|]. split; [reflexivity|].
  assert (forall p, 0 <= p < n -> rd r (0x10 + p * 2) = 0x10000 /\ rd r (0x11 + p * 2) = 0) as Hm.
  { intros p Hpn. rewrite !Hr, !decide_True by lia.
    replace (0x10 + p * 2) with (0 + 2 * (8 + p)) by lia. replace (0x11 + p * 2) with (1 + 2 * (8 + p)) by lia.
    by rewrite !Z.even_add_mul_2. }
  unfold io_entry. cbn [io_regs io_sel set_ioapic]. split; [|split].
  - intros p Hpn. by destruct (Hm p Hpn) as [-> ->].
  - rewrite !rd_insert, !w8_small by lia. rewrite (decide_False (P := 0x11 + pin * 2 = 0x10 + pin * 2)), !decide_True by lia.
    f_equal; [|rewrite Z.shiftl_mul_pow2, w32_small by lia; done].
    rewrite <-Z.ldiff_land, w32_small.
    + apply Z.bits_inj'. intros j Hj. rewrite Z.ldiff_spec, testbit_shift1 by lia.
      destruct (Z.eqb_spec j 16) as [->|]; [|by rewrite andb_true_r]. by rewrite (testbit_above vector 8) by lia.
    + assert (Z.ldiff vector (Z.shiftl 1 16) = vector) as ->; [|lia].
      apply Z.bits_inj'. intros j Hj. rewrite Z.ldiff_spec, testbit_shift1 by lia.
      destruct (Z.eqb_spec j 16) as [->|]; [|by rewrite andb_true_r]. by rewrite (testbit_above vector 8) by lia.
  - intros p Hpn Hne. rewrite !rd_insert, !w8_small by lia. rewrite !decide_False by lia.
    by destruct (Hm p Hpn) as [-> ->].
Qed.

(** ** The keyboard controller *)

(** What a routine of the driver did: bytes it wrote to ports, and how many
    bytes of data it read. *)
Definition did (outs : list (Z * Z)) (reads : nat) (d d' : dev) : Prop :=
  port_out d' = port_out d ++ outs /\ stream d' PS2_DATA_PORT = drop reads (stream d PS2_DATA_PORT) /\
  d_hart d' = d_hart d /\ i8042_lock_ d' = i8042_lock_ d.

(** The same outside the critical section: the lock is free again. *)
Definition did_locked (outs : list (Z * Z)) (reads : nat) (d d' : dev) : Prop :=
  port_out d' = port_out d ++ outs /\ stream d' PS2_DATA_PORT = drop reads (stream d PS2_DATA_PORT) /\
  d_hart d' = d_hart d /\ lock_free (i8042_lock_ d').

Lemma did_refl d : did [] 0 d d.
Proof. unfold did. by rewrite app_nil_r. Qed.

Lemma did_trans o1 o2 n1 n2 d1 d2 d3 : did o1 n1 d1 d2 -> did o2 n2 d2 d3 -> did (o1 ++ o2) (n1 + n2) d1 d3.
Proof.
  intros (A1 & A2 & A3 & A4) (B1 & B2 & B3 & B4). unfold did.
  by rewrite B1, A1, B2, A2, B3, A3, B4, A4, app_assoc, drop_drop.
Qed.

Lemma did_locked_trans o1 o2 n1 n2 d1 d2 d3 :
  did_locked o1 n1 d1 d2 -> did_locked o2 n2 d2 d3 -> did_locked (o1 ++ o2) (n1 + n2) d1 d3.
Proof.
  intros (A1 & A2 & A3 & A4) (B1 & B2 & B3 & B4). unfold did_locked.
  by rewrite B1, A1, B2, A2, B3, A3, app_assoc, drop_drop.
Qed.

Lemma did_unlocked o n d d' : did o n d d' -> lock_free (i8042_lock_ d) -> did_locked o n d d'.
Proof. unfold did, did_locked. intros (? & ? & ? & ->). done. Qed.

Lemma inb_status d : exists b d', inb PS2_STATUS_REG d = Ok (b, d') /\ did [] 0 d d' /\
  (stream d PS2_STATUS_REG = [] -> b = 0) /\ stream d' PS2_STATUS_REG = tail (stream d PS2_STATUS_REG).
Proof.
  unfold inb. destruct (stream d PS2_STATUS_REG) as [|b l] eqn:E.
  - exists 0, d. rewrite E. split; [done|]. split; [apply did_refl|done].
  - eexists _, _. split; [done|]. unfold did, stream. cbn. rewrite app_nil_r.
    rewrite lookup_insert_ne, lookup_insert_eq by done. done.
Qed.

Lemma inb_data d : exists d', inb PS2_DATA_PORT d = Ok (default 0 (head (stream d PS2_DATA_PORT)), d') /\ did [] 1 d d'.
Proof.
  unfold inb. destruct (stream d PS2_DATA_PORT) as [|b l] eqn:E.
  - exists d. split; [done|]. unfold did. rewrite E. by rewrite app_nil_r.
  - eexists. split; [done|]. unfold did. rewrite E. unfold stream. cbn. by rewrite app_nil_r, lookup_insert_eq.
Qed.

Lemma wait_status_spec f k d : exists d', wait_status f k d = Ok (tt, d') /\ did [] 0 d d'.
Proof.
  revert d. induction k as [|k IH]; intros d; cbn [wait_status]; [exists d; split; [done|apply did_refl]|].
  destruct (inb_status d) as (b & d1 & E & D1 & _). rewrite (bind_ok _ _ _ _ _ E).
  destruct (f b); [by exists d1|]. destruct (IH d1) as (d2 & E2 & D2). exists d2. split; [done|].
  exact (did_trans _ _ _ _ _ _ _ D1 D2).
Qed.

Lemma flush_spec fuel d : (length (stream d PS2_STATUS_REG) < fuel)%nat ->
  exists k d', flush_output fuel d = Ok (tt, d') /\ did [] k d d'.
Proof.
  revert d. induction fuel as [|fuel IH]; intros d Hf; [lia|]. cbn [flush_output].
  destruct (inb_status d) as (b & d1 & E & D1 & H0 & Hs). rewrite (bind_ok _ _ _ _ _ E).
  destruct (Z.land b PS2_STATUS_OUTPUT_FULL =? 0) eqn:Eb; [by exists 0%nat, d1|].
  destruct (inb_data d1) as (d2 & E2 & D2). rewrite (bind_ok _ _ _ _ _ E2).
  assert (stream d2 PS2_STATUS_REG = stream d1 PS2_STATUS_REG) as Hst.
  { unfold inb in E2. destruct (stream d1 PS2_DATA_PORT); simplify_eq; [done|].
    unfold stream. cbn. by rewrite lookup_insert_ne. }
  destruct (IH d2) as (k & d3 & E3 & D3).
  { rewrite Hst, Hs. destruct (stream d PS2_STATUS_REG); [by rewrite H0 in Eb by done|simpl in *; lia]. }
  exists (0 + 1 + k)%nat, d3. split; [done|].
  exact (did_trans _ _ _ _ _ _ _ (did_trans _ _ _ _ _ _ _ D1 D2) D3).
Qed.

Lemma critical_did {A} (body : M dev A) a outs n d :
  hart_ok (d_hart d) -> lock_free (i8042_lock_ d) ->
  (forall d1, stream d1 PS2_DATA_PORT = stream d PS2_DATA_PORT ->
     exists d', body d1 = Ok (a, d') /\ did outs n d1 d') ->
  exists d', critical i8042_lock body d = Ok (a, d') /\ did_locked outs n d d'.
Proof.
  intros Hh Hl Hb. destruct (Hb (enter i8042_lock d) ltac:(done)) as (d' & E & A1 & A2 & A3 & A4).
  eexists. split; [apply (critical_ok i8042_lock); [exact Hh|exact Hl|exact E|exact A3|exact A4]|].
  split; [exact A1|]. split; [exact A2|]. split; [done|]. by apply released_free.
Qed.

Lemma write_spec port v d :
  hart_ok (d_hart d) -> lock_free (i8042_lock_ d) ->
  exists d', critical i8042_lock (i8042_wait_write ;;; outb port v) d = Ok (tt, d') /\ did_locked [(port, v)] 0 d d'.
Proof.
  intros Hh Hl. apply critical_did; [done..|]. intros d1 _.
  destruct (wait_status_spec (fun b => Z.land b PS2_STATUS_INPUT_FULL =? 0) (Z.to_nat 100000) d1) as (d2 & E & D).
  eexists. split; [unfold i8042_wait_write; by rewrite (bind_ok _ _ _ _ _ E)|].
  refine (did_trans [] [(port, v)] 0 0 _ _ _ D _). done.
Qed.

Lemma read_spec d :
  hart_ok (d_hart d) -> lock_free (i8042_lock_ d) ->
  exists d', i8042_read_data d = Ok (default 0 (head (stream d PS2_DATA_PORT)), d') /\ did_locked [] 1 d d'.
Proof.
  intros Hh Hl. apply critical_did; [done..|]. intros d1 Hs.
  destruct (wait_status_spec (fun b => negb (Z.land b PS2_STATUS_OUTPUT_FULL =? 0)) (Z.to_nat 100000) d1) as (d2 & E & D).
  destruct (inb_data d2) as (d3 & E3 & D3). exists d3. split; [|exact (did_trans _ _ _ _ _ _ _ D D3)].
  unfold i8042_wait_read. rewrite (bind_ok _ _ _ _ _ E), E3. destruct D as (_ & -> & _). by rewrite Hs.
Qed.

Lemma head_drop {A} (l : list A) k : head (drop k l) = l !! k.
Proof. revert l. by induction k as [|k IH]; intros [|x l]; simpl. Qed.

(** The controller's configuration byte with the keyboard's interrupt enabled,
    the mouse's disabled and no translation. *)
Definition kbd_config (c : Z) : Z :=
  Z.land (Z.land (Z.lor c (Z.shiftl 1 0)) (Z.lnot (Z.shiftl 1 1))) (Z.lnot (Z.shiftl 1 6)).

Lemma kbd_config_bits c n : 0 <= n ->
  Z.testbit (kbd_config c) n = if n =? 0 then true else if (n =? 1) || (n =? 6) then false else Z.testbit c n.
Proof.
  intros Hn. unfold kbd_config. rewrite !Z.land_spec, Z.lor_spec, !Z.lnot_spec, !testbit_shift1 by lia.
  destruct (Z.eqb_spec n 0) as [->|]; [by rewrite orb_true_r|].
  destruct (Z.eqb_spec n 1) as [->|]; [by rewrite andb_false_r|].
  destruct (Z.eqb_spec n 6) as [->|]; [by rewrite andb_false_r|]. by rewrite orb_false_r, !andb_true_r.
Qed.

Section sequence.
Context (d : dev) (Hh : hart_ok (d_hart d)).

(** A routine of the driver, run on from a state it reached. *)
Lemma wp_then {A B} (m : M dev A) (f : A -> M dev B) (a : A) Q o n o1 n1 d1 :
  did_locked o n d d1 ->
  (hart_ok (d_hart d1) -> lock_free (i8042_lock_ d1) -> exists d2, m d1 = Ok (a, d2) /\ did_locked o1 n1 d1 d2) ->
  (forall d2, did_locked (o ++ o1) (n + n1) d d2 -> wp (f a) Q d2) -> wp (bind m f) Q d1.
Proof.
  intros D Hm Hf. destruct Hm as (d2 & E & D2); [by destruct D as (_ & _ & -> & _)|apply D|].
  apply wp_bind. unfold wp at 1. rewrite E. apply Hf. by apply did_locked_trans with d1.
Qed.

(** A command or a data byte to the controller. *)
Lemma wp_write {B} port v (f : M dev B) Q o n d1 :
  did_locked o n d d1 ->
  (forall d2, did_locked (o ++ [(port, v)]) n d d2 -> wp f Q d2) ->
  wp (critical i8042_lock (i8042_wait_write ;;; outb port v) ;;; f) Q d1.
Proof.
  intros D Hf. eapply (wp_then _ (fun _ => f) tt); [exact D|apply write_spec|].
  intros d2. rewrite Nat.add_0_r. apply Hf.
Qed.

(** The next data byte from the controller. *)
Lemma wp_read {B} (f : Z -> M dev B) Q o n d1 :
  did_locked o n d d1 ->
  (forall d2, did_locked o (S n) d d2 -> wp (f (default 0 (stream d PS2_DATA_PORT !! n))) Q d2) ->
  wp (bind i8042_read_data f) Q d1.
Proof.
  intros D Hf. eapply (wp_then _ f); [exact D|apply read_spec|].
  destruct D as (_ & -> & _). intros d2. rewrite head_drop, app_nil_r, Nat.add_1_r. apply Hf.
Qed.

Lemma wp_flush {B} (f : M dev B) Q o n d1 :
  did_locked o n d d1 ->
  (forall k d2, did_locked o (n + k) d d2 -> wp f Q d2) -> wp (i8042_flush ;;; f) Q d1.
Proof.
  intros D Hf. destruct (flush_spec (S (length (stream d1 PS2_STATUS_REG))) d1 ltac:(lia)) as (k & d2 & E & D2).
  eapply (wp_then _ (fun _ => f) tt); [exact D| |].
  - intros _ Hl. exists d2. split; [exact E|]. apply did_unlocked; [exact D2|done].
  - intros d3. rewrite app_nil_r. apply Hf.
Qed.
End sequence.

Lemma did_locked_refl d : lock_free (i8042_lock_ d) -> did_locked [] 0 d d.
Proof. intros H. apply did_unlocked; [apply did_refl|done]. Qed.

(** The bytes i8042_init writes, from the answers to the self-test and to the
    request for the configuration. *)
Definition init_writes (res config : Z) : list (Z * Z) :=
  [(0x64, 0xAD); (0x64, 0xA7); (0x64, 0xAA)] ++
  (if res =? 0x55 then [(0x64, 0x20); (0x64, 0x60); (0x60, kbd_config config); (0x64, 0xAE); (0x60, 0xF4)] else []).

Lemma i8042_init_spec d :
  hart_ok (d_hart d) -> lock_free (i8042_lock_ d) ->
  wp i8042_init (fun _ d' => exists k n,
    did_locked (init_writes (default 0 (stream d PS2_DATA_PORT !! k)) (default 0 (stream d PS2_DATA_PORT !! S k))) n d d') d.
Proof.
  intros Hh Hl. unfold i8042_init, i8042_write_command, i8042_write_data, init_writes.
  eapply wp_write; [done|by apply did_locked_refl|]. intros d1 D1.
  eapply wp_write; [done|exact D1|]. intros d2 D2.
  eapply wp_flush; [done|exact D2|]. intros k d3 D3.
  eapply wp_write; [done|exact D3|]. intros d4 D4.
  eapply wp_read; [done|exact D4|]. intros d5 D5. cbn [Nat.add app] in *.
  destruct (Z.eqb_spec (default 0 (stream d PS2_DATA_PORT !! k)) 0x55) as [E|E]; cbn [negb].
  2:{ apply wp_ret. exists k, (S k). by rewrite (proj2 (Z.eqb_neq _ _)). }
  eapply wp_write; [done|exact D5|]. intros d6 D6.
  eapply wp_read; [done|exact D6|]. intros d7 D7. cbv zeta.
  eapply wp_write; [done|exact D7|]. intros d8 D8.
  eapply wp_write; [done|exact D8|]. intros d9 D9.
  eapply wp_write; [done|exact D9|]. intros d10 D10. cbn [app] in *.
  destruct (wait_status_spec (fun b => Z.land b PS2_STATUS_INPUT_FULL =? 0) (Z.to_nat 100000) d10) as (d11 & E11 & D11).
  apply wp_bind. unfold wp at 1, i8042_wait_write. rewrite E11. apply wp_bind. unfold wp at 1, outb, modify.
  set (d12 := set_ports _ _ _). apply did_unlocked in D11; [|apply D10].
  assert (did_locked [(0x60, 0xF4)] 0 d11 d12) as D12 by (repeat split; apply D11).
  pose proof (did_locked_trans _ _ _ _ _ _ _ D10 (did_locked_trans _ _ _ _ _ _ _ D11 D12)) as D.
  destruct (flush_spec (S (length (stream d12 PS2_STATUS_REG))) d12 ltac:(lia)) as (k2 & d13 & E13 & D13).
  unfold wp, i8042_flush. rewrite (bind_ok _ _ _ _ _ eq_refl), E13. apply did_unlocked in D13; [|apply D12].
  pose proof (did_locked_trans _ _ _ _ _ _ _ D D13) as D'. rewrite app_nil_r in D'. cbn [app] in D'.
  eexists k, _. rewrite E. exact D'.
Qed.

(** i8042_init always returns, whatever the controller answers: it
    disables both ports, throws away what was pending, and asks for the
    self-test; unless the answer to that is 0x55 it stops there. Otherwise it
    reads the configuration byte, writes it back with bit 0 set, bits 1 and 6
    clear and every other bit as it was, enables the first port and tells the
    keyboard to start scanning. *)
Theorem i8042_init_correct d :
  hart_ok (d_hart d) -> lock_free (i8042_lock_ d) ->
  exists k d', let res := default 0 (stream d PS2_DATA_PORT !! k) in
    let config := default 0 (stream d PS2_DATA_PORT !! S k) in
    i8042_init d = Ok (tt, d') /\ lock_free (i8042_lock_ d') /\ d_hart d' = d_hart d /\
    port_out d' = port_out d ++ [(0x64, 0xAD); (0x64, 0xA7); (0x64, 0xAA)] ++
      (if res =? 0x55 then [(0x64, 0x20); (0x64, 0x60); (0x60, kbd_config config); (0x64, 0xAE); (0x60, 0xF4)] else []) /\
    forall n, 0 <= n -> Z.testbit (kbd_config config) n =
      if n =? 0 then true else if (n =? 1) || (n =? 6) then false else Z.testbit config n.
Proof.
  intros Hh Hl. pose proof (i8042_init_spec d Hh Hl) as H.
  apply wp_ok in H as ([] & d' & E & k & n & H1 & _ & H3 & H4). exists k, d'. cbv zeta.
  split; [done|]. split; [done|]. split; [done|]. split; [exact H1|]. intros. by apply kbd_config_bits.
Qed.

(** ** Witnesses *)

(** An idle bootstrap processor whose local APIC is mapped, a PIT that reports
    the end of its count at the second read, an I/O APIC with 24 entries and a
    controller that has one stale byte, passes its self-test and has
    configuration 0x47 *)
Definition dev_demo (cpu : Z) (busy : list bool) : dev :=
  mkDev (mkHart 0x202 (Some cpu) true) spinlock_init
    (<[PIT_CHANNEL0_PORT := [0x30; 0xB0]]> (<[PS2_STATUS_REG := [0; 0; 1; 0; 0; 1; 0; 1; 0]]>
      (<[PS2_DATA_PORT := [0x1C; 0x55; 0x47]]> ∅))) []
    0xFEE00000 (<[LAPIC_TCCR := 0xFFFFFFFF - 5000]> ∅) busy [] 0 (<[1 := 0x170011]> ∅) 0 0.

Lemma lapic_wait_for_delivery_timeout_witness :
  lapic_wait_for_delivery (dev_demo 0 [true; true; false]) =
    Ok (tt, set_lapic (lapic_regs (dev_demo 0 [])) [] [] (dev_demo 0 [true; true; false])).
Proof.
  exact (proj1 (lapic_wait_for_delivery_timeout (dev_demo 0 [true; true; false]) 2 [] ltac:(done) eq_refl ltac:(done))).
Defined.

Lemma lapic_send_ipi_correct_witness :
  exists high low all d1 d2,
    lapic_send_ipi 3 0xFD (dev_demo 0 [true]) = Ok (tt, d1) /\
    lapic_out d1 = [] ++ [(LAPIC_ICR_HIGH, high); (LAPIC_ICR_LOW, low)] /\
    icr_dest high = 3 /\ icr_vector low = 0xFD /\ icr_mode low = 0x40 /\
    lapic_broadcast_ipi 0xFD (dev_demo 0 [true]) = Ok (tt, d2) /\
    lapic_out d2 = [] ++ [(LAPIC_ICR_LOW, all)] /\ icr_vector all = 0xFD /\ icr_mode all = 0xC40.
Proof.
  exact (lapic_send_ipi_correct (dev_demo 0 [true]) 3 0xFD ltac:(done) ltac:(lia) ltac:(lia) ltac:(simpl; lia)).
Defined.

Lemma lapic_timer_init_correct_witness :
  exists d', lapic_timer_init 5 32 (dev_demo 0 []) = Ok (tt, d') /\
    rd (lapic_regs d') LAPIC_LVT_TIMER = 32 + 2 ^ 17 /\ rd (lapic_regs d') LAPIC_TDCR = 0x03 /\
    rd (lapic_regs d') LAPIC_TICR = w32 (1000 * 5) /\ global_ticks_per_ms d' = 1000 /\ ticks_per_ms d' = w32 1000.
Proof.
  exact (lapic_timer_init_correct (dev_demo 0 []) 5 32 0 ltac:(done) eq_refl ltac:(lia) eq_refl).
Defined.

Lemma ioapic_routing_witness :
  exists d1 d2, ioapic_reset (dev_demo 0 []) = Ok (tt, d1) /\ ioapic_set_irq 1 0 33 d1 = Ok (tt, d2) /\
    (forall p, 0 <= p < 24 -> io_entry d1 p = (0x10000, 0)) /\ io_entry d2 1 = (33, 0 * 2 ^ 24) /\
    (forall p, 0 <= p < 24 -> p <> 1 -> io_entry d2 p = (0x10000, 0)).
Proof.
  exact (ioapic_routing (dev_demo 0 []) 1 0 33 ltac:(by vm_compute) ltac:(by vm_compute) ltac:(lia) ltac:(lia)).
Defined.

Lemma i8042_init_correct_witness :
  exists k d', i8042_init (dev_demo 0 []) = Ok (tt, d') /\
    port_out d' = init_writes (default 0 (stream (dev_demo 0 []) PS2_DATA_PORT !! k))
                    (default 0 (stream (dev_demo 0 []) PS2_DATA_PORT !! S k)).
Proof.
  destruct (i8042_init_correct (dev_demo 0 []) ltac:(by eexists) eq_refl) as (k & d' & E & _ & _ & Hp & _).
  exists k, d'. split; [exact E|exact Hp].
Defined.
