(* ===== verification/Tables.v ===== *)
(** * Descriptor tables and interrupt dispatch

    Models [kernel/arch/x86_64/gdt.c], [kernel/arch/x86_64/idt.c] and the
    structures of [kernel/include/arch/x86_64/idt.h] and
    [kernel/include/cpu/cpu.h] they fill in.

    - [seg_dpl], [seg_code], ..., [gate_target], [tss_base] are the
      processor's reading of a descriptor.
    - [irq] is the keyboard driver with the scheduler below it, together with
      the number of ends of interrupt sent to the local APIC and of TLB
      flushes. *)

From S2P Require Import Prelude Lock Strings Chain Sched Schedule Kbd KbdDemo Devices.

(** ** Interrupt descriptor table *)

Record idt_entry := mkGate {
  isr_low : Z; kernel_cs : Z; ist : Z; attributes : Z; isr_mid : Z; isr_high : Z; reserved : Z }.

(** [idt], [idt_initialized] *)
Record idt := mkIdt { gates : gmap Z idt_entry; idt_initialized : bool }.

Definition idt_set_descriptor (vector isr flags : Z) : M idt unit :=
  let addr := isr in
  modify (fun t => mkIdt (<[vector := mkGate (Z.land addr 0xFFFF) 0x08 0 flags
    (Z.land (Z.shiftr addr 16) 0xFFFF) (Z.land (Z.shiftr addr 32) 0xFFFFFFFF) 0]> (gates t)) (idt_initialized t)).

(** [isr_stub_table] is the table of the assembly stubs *)
Definition idt_init (isr_stub_table : Z -> Z) : M idt unit :=
  done <- gets idt_initialized ;;
  when (negb done)
    (mapM_ (fun i => idt_set_descriptor i (isr_stub_table i) 0x8E) (seqZ 0 256) ;;;
     modify (fun t => mkIdt (gates t) true)).

(** The address a gate sends the processor to. *)
Definition gate_target (e : idt_entry) : Z := isr_low e + 2 ^ 16 * isr_mid e + 2 ^ 32 * isr_high e.

(** ** Global descriptor table *)

Definition tss_t : layout :=
  [("reserved0", 4); ("rsp0", 8); ("rsp1", 8); ("rsp2", 8); ("reserved1", 8); ("ist", 7 * 8); ("reserved2", 8);
   ("reserved3", 2); ("iopb_offset", 2)]%string.

(** [gdt_entry_t], [gdt_tss_entry_t]; [cpu_gdt_t] with the fields of the TSS
    and of the table register [gdt_setup_for_cpu] sets *)
Record gdt_entry := mkSeg { limit_low : Z; base_low : Z; base_middle : Z; access : Z; granularity : Z; base_high : Z }.
Record gdt_tss_entry := mkTssSeg {
  t_limit_low : Z; t_base_low : Z; t_base_mid : Z; flags1 : Z; flags2 : Z; base_high_mid : Z; t_base_high : Z }.
Record cpu_gdt := mkGdt {
  entries : list gdt_entry; tss_entry : gdt_tss_entry; rsp0 : Z; iopb_offset : Z; gdt_limit : Z; gdt_base : Z }.

(** [sizeof(tss_t)], [sizeof(cpu_gdt_t)] *)
Definition sizeof_tss : Z := Eval vm_compute in sizeof tss_t.
Definition sizeof_cpu_gdt : Z := 5 * 8 + 16.

(** [gdt_addr] and [tss_addr] are the addresses of the context's tables *)
Definition gdt_setup_for_cpu (gdt_addr tss_addr kernel_stack : Z) : cpu_gdt :=
  mkGdt [mkSeg 0 0 0 0 0 0; mkSeg 0 0 0 0x9A 0x20 0; mkSeg 0 0 0 0x92 0x00 0; mkSeg 0 0 0 0xFA 0x20 0; mkSeg 0 0 0 0xF2 0x00 0]
    (mkTssSeg (sizeof_tss - 1) (Z.land tss_addr 0xFFFF) (Z.land (Z.shiftr tss_addr 16) 0xFF) 0x89 0
       (Z.land (Z.shiftr tss_addr 24) 0xFF) (Z.land (Z.shiftr tss_addr 32) 0xFFFFFFFF))
    kernel_stack sizeof_tss (sizeof_cpu_gdt - 1) gdt_addr.

(** The processor's reading of a segment descriptor. *)
Definition seg_present (e : gdt_entry) : bool := Z.testbit (access e) 7.
Definition seg_dpl (e : gdt_entry) : Z := Z.land (Z.shiftr (access e) 5) 3.
Definition seg_code (e : gdt_entry) : bool := Z.testbit (access e) 3.
Definition seg_writable (e : gdt_entry) : bool := negb (seg_code e) && Z.testbit (access e) 1.
Definition seg_long (e : gdt_entry) : bool := Z.testbit (granularity e) 5.

(** A selector: the entry it names and its privilege. *)
Definition selector_entry (g : cpu_gdt) (sel : Z) : option gdt_entry := entries g !! Z.to_nat (Z.shiftr sel 3).
Definition selector_rpl (sel : Z) : Z := Z.land sel 3.

(** The base address a TSS descriptor holds. *)
Definition tss_base (e : gdt_tss_entry) : Z :=
  t_base_low e + 2 ^ 16 * t_base_mid e + 2 ^ 24 * base_high_mid e + 2 ^ 32 * t_base_high e.

(** ** Interrupt dispatch *)

Record irq := mkIrq { irq_kbd : kbd; eois : nat; tlb_flushes : nat }.

Definition on_kbd {A} (m : M kbd A) : M irq A := fun s =>
  match m (irq_kbd s) with
  | Ok (a, k) => Ok (a, mkIrq k (eois s) (tlb_flushes s))
  | Fault => Fault
  | Panic => Panic
  | Hang => Hang
  end.

Definition lapic_send_eoi : M irq unit := modify (fun s => mkIrq (irq_kbd s) (S (eois s)) (tlb_flushes s)).
Definition cpu_flush_tlb : M irq unit := modify (fun s => mkIrq (irq_kbd s) (eois s) (S (tlb_flushes s))).

Definition IPI_VECTOR_HALT : Z := 0xFE.

(** [frame] is the address of the interrupted task's frame, the result the
    stack pointer to resume; [exception_handler] ends in [panic], and the
    halting loop never ends *)
Definition interrupt_dispatch (vector_number frame : Z) : M irq Z :=
  let next_rsp := frame in
  if vector_number <? 32 then panic
  else if vector_number =? 32 then
    c <- on_kbd (on_sched get_cpu) ;;
    x <- on_kbd (on_sched (get_ctx c)) ;;
    when (ctx_id x =? 0) (on_kbd (on_sched (modify (fun s => set_uptime_ms (w64 (uptime_ms s + 5)) s)))) ;;;
    on_kbd (on_sched sched_update_sleepers) ;;;
    lapic_send_eoi ;;;
    on_kbd (on_sched (schedule frame))
  else if vector_number =? 33 then
    on_kbd ps2_keyboard_handler ;;; lapic_send_eoi ;;; ret next_rsp
  else if vector_number =? IPI_VECTOR_TEST then
    cpu_flush_tlb ;;; lapic_send_eoi ;;; ret next_rsp
  else if vector_number =? IPI_VECTOR_HALT then hang
  else lapic_send_eoi ;;; ret next_rsp.

(** ** Properties *)

(** A field of an address, cut out by shift and mask. *)
Lemma field_eq x s w : 0 <= s -> 0 <= w -> Z.land (Z.shiftr x s) (Z.ones w) = (x / 2 ^ s) mod 2 ^ w.
Proof. intros. by rewrite Z.land_ones, Z.shiftr_div_pow2. Qed.

(** The fields of an address put together again. *)
Lemma split_field x a b : 0 <= a -> 0 <= b -> 
  x mod 2 ^ (a + b) = x mod 2 ^ a + 2 ^ a * ((x / 2 ^ a) mod 2 ^ b).
Proof. intros. rewrite Z.pow_add_r by lia. apply Z.rem_mul_r; [lia|]. by apply Z.pow_pos_nonneg. Qed.

Lemma gate_target_of addr : 0 <= addr < 2 ^ 64 ->
  Z.land addr 0xFFFF + 2 ^ 16 * Z.land (Z.shiftr addr 16) 0xFFFF + 2 ^ 32 * Z.land (Z.shiftr addr 32) 0xFFFFFFFF = addr.
Proof.
  intros Ha. rewrite <-(Z.shiftr_0_r addr) at 1. change 0xFFFF with (Z.ones 16). change 0xFFFFFFFF with (Z.ones 32).
  rewrite !field_eq by lia. change (2 ^ 0) with 1. rewrite Z.div_1_r.
  rewrite <-(split_field addr 16 16) by lia. change (16 + 16) with 32.
  rewrite <-(split_field addr 32 32) by lia. by apply Z.mod_small.
Qed.

Lemma set_descriptors stub l t :
  exists g, mapM_ (fun i => idt_set_descriptor i (stub i) 0x8E) l t = Ok (tt, mkIdt g (idt_initialized t)) /\
    forall v, (v ∈ l -> exists e, g !! v = Some e /\ e = mkGate (Z.land (stub v) 0xFFFF) 0x08 0 0x8E
      (Z.land (Z.shiftr (stub v) 16) 0xFFFF) (Z.land (Z.shiftr (stub v) 32) 0xFFFFFFFF) 0) /\
      (v ∉ l -> g !! v = gates t !! v).
Proof.
  revert t. induction l as [|i l IH]; intros t; cbn [mapM_].
  { exists (gates t). split; [by destruct t|]. intros v. split; [by intros ?%not_elem_of_nil|done]. }
  rewrite (bind_ok _ _ _ _ _ eq_refl). edestruct IH as (g & E & Hg). exists g. split; [exact E|].
  intros v. destruct (Hg v) as [H1 H2]. split; [intros Hv|intros Hv].
  - destruct (decide (v ∈ l)) as [Hl|Hl]; [by apply H1|].
    apply elem_of_cons in Hv as [->|Hv]; [|done]. rewrite H2 by done. cbn [gates].
    rewrite lookup_insert_eq. by eexists.
  - apply not_elem_of_cons in Hv as [Hne Hv]. rewrite H2 by done. cbn [gates]. by rewrite lookup_insert_ne.
Qed.

(** After idt_init every one of the 256 vectors has a gate that sends the
    processor to its own stub, through the kernel code segment, as a present
    interrupt gate of privilege 0; a second processor that calls it finds the
    table made and changes nothing. *)
Theorem idt_init_correct stub t :
  (forall v, 0 <= v < 256 -> 0 <= stub v < 2 ^ 64) -> idt_initialized t = false ->
  exists t', idt_init stub t = Ok (tt, t') /\ idt_init stub t' = Ok (tt, t') /\
    forall v, 0 <= v < 256 -> exists e, gates t' !! v = Some e /\ gate_target e = stub v /\
      kernel_cs e = 0x08 /\ attributes e = 0x8E.
Proof.
  intros Hs Hi. destruct (set_descriptors stub (seqZ 0 256) t) as (g & E & Hg).
  exists (mkIdt g true). split; [|split; [done|]].
  - unfold idt_init. rewrite (bind_ok _ _ _ _ _ eq_refl), Hi. cbn [negb when]. by rewrite (bind_ok _ _ _ _ _ E).
  - intros v Hv. destruct (proj1 (Hg v)) as (e & He & ->); [apply elem_of_seqZ; lia|].
    eexists. split; [exact He|]. split; [apply gate_target_of; by apply Hs|done].
Qed.

(** The selectors the kernel loads name the segments they should: 0x08 and
    0x1B present 64-bit code segments, 0x10 and 0x23 present writable data
    segments, and the privilege of each descriptor is the privilege of the
    selector; the TSS descriptor holds the address of the processor's TSS,
    whose stack for entries from user mode is the kernel stack. *)
Theorem gdt_setup_correct gdt_addr tss_addr kernel_stack :
  0 <= tss_addr < 2 ^ 64 ->
  let g := gdt_setup_for_cpu gdt_addr tss_addr kernel_stack in
  (forall sel, sel ∈ [0x08; 0x10; 0x1B; 0x23] -> exists e, selector_entry g sel = Some e /\ seg_present e = true /\
     seg_dpl e = selector_rpl sel /\ seg_code e = bool_decide (sel ∈ [0x08; 0x1B]) /\
     seg_long e = bool_decide (sel ∈ [0x08; 0x1B]) /\ seg_writable e = bool_decide (sel ∈ [0x10; 0x23])) /\
  tss_base (tss_entry g) = tss_addr /\ rsp0 g = kernel_stack /\ gdt_limit g + 1 = 8 * Z.of_nat (length (entries g)) + 16.
Proof.
  intros Ha g. split; [|split; [|done]].
  - intros sel Hsel. repeat apply elem_of_cons in Hsel as [-> | Hsel]; [..|by apply not_elem_of_nil in Hsel];
      (eexists; split; [reflexivity|]; by vm_compute).
  - unfold g, tss_base. cbn [tss_entry gdt_setup_for_cpu t_base_low t_base_mid base_high_mid t_base_high].
    rewrite <-(Z.shiftr_0_r tss_addr) at 1. change 0xFFFF with (Z.ones 16). change 0xFF with (Z.ones 8).
    change 0xFFFFFFFF with (Z.ones 32). rewrite !field_eq by lia. change (2 ^ 0) with 1. rewrite Z.div_1_r.
    rewrite <-(split_field tss_addr 16 8) by lia. change (16 + 8) with 24.
    rewrite <-(split_field tss_addr 24 8) by lia. change (24 + 8) with 32.
    rewrite <-(split_field tss_addr 32 32) by lia. by apply Z.mod_small.
Qed.

Lemma on_both {A} (m : M sched A) st a sc :
  m (kbd_sched (irq_kbd st)) = Ok (a, sc) ->
  on_kbd (on_sched m) st = Ok (a, mkIrq (set_kbd_sched sc (irq_kbd st)) (eois st) (tlb_flushes st)).
Proof. intros E. unfold on_kbd, on_sched. by rewrite E. Qed.

Lemma on_both_when (b : bool) (m : M sched unit) st sc :
  when b m (kbd_sched (irq_kbd st)) = Ok (tt, sc) ->
  when b (on_kbd (on_sched m)) st = Ok (tt, mkIrq (set_kbd_sched sc (irq_kbd st)) (eois st) (tlb_flushes st)).
Proof.
  destruct b; [apply on_both|]. intros [= <-]. unfold when, ret. by destruct st as [[] ? ?].
Qed.

(** An interrupt the kernel handles is acknowledged exactly once: for the
    keyboard, the TLB interrupt and every other vector from 34 on the
    interrupted task is resumed after one end of interrupt, the keyboard
    having run its handler and the TLB interrupt one flush; for the timer the
    task schedule picked is resumed, after one end of interrupt, in the state
    the timer's branch leaves the scheduler in. An exception panics and the
    halt interrupt never returns. *)
Theorem interrupt_dispatch_correct s vector frame :
  0 <= vector ->
  let k := irq_kbd s in
  (vector < 32 -> interrupt_dispatch vector frame s = Panic) /\
  (forall r sc, vector = 32 -> timer_interrupt frame (kbd_sched k) = Ok (r, sc) ->
     interrupt_dispatch vector frame s = Ok (r, mkIrq (set_kbd_sched sc k) (S (eois s)) (tlb_flushes s))) /\
  (forall k', vector = 33 -> ps2_keyboard_handler k = Ok (tt, k') ->
     interrupt_dispatch vector frame s = Ok (frame, mkIrq k' (S (eois s)) (tlb_flushes s))) /\
  (34 <= vector -> vector <> IPI_VECTOR_HALT ->
     interrupt_dispatch vector frame s =
       Ok (frame, mkIrq k (S (eois s)) (if vector =? IPI_VECTOR_TEST then S (tlb_flushes s) else tlb_flushes s))) /\
  interrupt_dispatch IPI_VECTOR_HALT frame s = Hang.
Proof.
  intros H0 k. unfold interrupt_dispatch. split; [|split; [|split; [|split; [|done]]]].
  - intros H. by rewrite (proj2 (Z.ltb_lt _ _)).
  - intros r sc -> Et. change (32 <? 32) with false. change (32 =? 32) with true. cbv iota zeta. revert Et. unfold timer_interrupt.
    intros (c & s1 & E1 & Et)%bind_inv. apply bind_inv in Et as (x & s2 & E2 & Et).
    apply bind_inv in Et as ([] & s3 & E3 & Et). apply bind_inv in Et as ([] & s4 & E4 & Et).
    rewrite (bind_ok _ _ _ _ _ (on_both _ s _ _ E1)). 
    rewrite (bind_ok _ _ _ _ _ (on_both _ (mkIrq (set_kbd_sched s1 k) (eois s) (tlb_flushes s)) _ _ E2)).
    erewrite bind_ok; cycle 1.
    { apply (on_both_when _ _ (mkIrq (set_kbd_sched s2 k) (eois s) (tlb_flushes s)) s3). exact E3. }
    rewrite (bind_ok _ _ _ _ _ (on_both _ (mkIrq (set_kbd_sched s3 k) (eois s) (tlb_flushes s)) _ _ E4)).
    rewrite (bind_ok _ _ _ _ _ eq_refl).
    exact (on_both _ (mkIrq (set_kbd_sched s4 k) (S (eois s)) (tlb_flushes s)) _ _ Et).
  - intros k' -> Ek. change (33 <? 32) with false. change (33 =? 32) with false. change (33 =? 33) with true. cbv iota zeta.
    rewrite (bind_ok _ _ _ tt (mkIrq k' (eois s) (tlb_flushes s))); [done|]. unfold on_kbd. fold k. by rewrite Ek.
  - intros Hv Hh. rewrite (proj2 (Z.ltb_ge _ _)) by lia. rewrite (proj2 (Z.eqb_neq vector 32)), (proj2 (Z.eqb_neq vector 33)) by lia.
    rewrite (proj2 (Z.eqb_neq vector IPI_VECTOR_HALT)) by done.
    by destruct (vector =? IPI_VECTOR_TEST); destruct s.
Qed.

(** ** Witnesses *)

Definition demo_stub (v : Z) : Z := 0xFFFFFFFF80001000 + 16 * v.
Lemma idt_init_correct_witness :
  exists t', idt_init demo_stub (mkIdt ∅ false) = Ok (tt, t') /\ idt_init demo_stub t' = Ok (tt, t') /\
    forall v, 0 <= v < 256 -> exists e, gates t' !! v = Some e /\ gate_target e = demo_stub v /\
      kernel_cs e = 0x08 /\ attributes e = 0x8E.
Proof.
  exact (idt_init_correct demo_stub (mkIdt ∅ false) ltac:(unfold demo_stub; lia) eq_refl).
Defined.

Lemma gdt_setup_correct_witness :
  tss_base (tss_entry (gdt_setup_for_cpu 0xFFFF800012345700 0xFFFF800012345678 0xFFFF800000204000)) = 0xFFFF800012345678.
Proof. exact (proj1 (proj2 (gdt_setup_correct 0xFFFF800012345700 0xFFFF800012345678 0xFFFF800000204000 ltac:(lia)))). Defined.

Lemma interrupt_dispatch_correct_witness :
  interrupt_dispatch IPI_VECTOR_TEST 0x5000 (mkIrq keyboard 0 0) = Ok (0x5000, mkIrq keyboard 1 1).
Proof.
  exact (proj1 (proj2 (proj2 (proj2 (interrupt_dispatch_correct (mkIrq keyboard 0 0) IPI_VECTOR_TEST 0x5000 ltac:(by compute)))))
    ltac:(by compute) ltac:(done)).
Defined.
