(* ===== verification/Syscall.v ===== *)
(** * System calls

    Models [kernel/syscall/syscall.c] and [kernel/syscall/syscall_funcs.c]: the
    dispatch through [sys_table], the checks of [sys_kprint] over the log of
    [Serial], and the user heap of [sys_malloc] and [sys_free] over the memory
    areas of [Vma].

    - [uheap] holds the fields [heap_start], [heap_curr] and [heap_end] of the
      running task.
    - The handlers that only call one routine of another component (exit,
      yield, sleep, the keyboard, the uptime, the ids) enter the dispatch as
      entries of the table; they are in [Handlers]. *)

From S2P Require Import Prelude Lock Strings Printf Ring Serial Vma.

(** ** Data *)

Definition KERNEL_SPACE_START : Z := 0xFFFF800000000000.
Definition USER_SPACE_END : Z := 0x00007FFFFFFFFFFF.

Definition SYS_EXIT : Z := 2.
Definition SYS_SLEEP : Z := 4.

(** The registers of the interrupted task a system call uses. *)
Record iframe := mkFrame { rax : Z; rdi : Z; rsi : Z }.

Record uheap := mkHeap { heap_start : Z; heap_curr : Z; heap_end : Z }.

(** ** Dispatch *)

Section dispatch.
Context {S : Type} (frame : lens S iframe).

Definition handler : Type := M S Z.

(** The twelve handlers, in the order of their numbers. *)
Record handlers := {
  h_kprint : handler; h_exit : handler; h_get_uptime : handler; h_sleep : handler;
  h_yield : handler; h_kbd : handler; h_kprint_hex : handler; h_cpu_id : handler;
  h_malloc : handler; h_free : handler; h_get_tid : handler; h_cpu_count : handler;
}.

(** [sys_table[20]], with null entries where nothing is registered *)
Definition init_sys_table (h : handlers) : list (option handler) :=
  [None; Some (h_kprint h); Some (h_exit h); Some (h_get_uptime h); Some (h_sleep h); Some (h_yield h);
   Some (h_kbd h); Some (h_kprint_hex h); Some (h_cpu_id h); Some (h_malloc h); Some (h_free h);
   Some (h_get_tid h); Some (h_cpu_count h); None; None; None; None; None; None; None].

(** [frame_addr] is the address of the frame, [report] the [kprintf] of an
    unknown number. *)
Definition syscall_handler (sys_table : list (option handler)) (report : Z -> M S unit) (frame_addr : Z) : M S Z :=
  f <- gets (lget frame) ;;
  let sys_num := rax f in
  entry <- deref (sys_table !! Z.to_nat sys_num) ;;
  match entry with
  | None =>
      report sys_num ;;;
      f <- gets (lget frame) ;;
      modify (lset frame (mkFrame (w64 (-1)) (rdi f) (rsi f))) ;;;
      ret frame_addr
  | Some h =>
      res <- h ;;
      if (sys_num =? SYS_SLEEP) || (sys_num =? SYS_EXIT) then ret res else
      f <- gets (lget frame) ;;
      modify (lset frame (mkFrame res (rdi f) (rsi f))) ;;;
      ret frame_addr
  end.
End dispatch.

(** ** Printing for user tasks *)

Definition is_user_range (addr size : Z) : bool :=
  let start := addr in
  let end_ := w64 (start + size) in
  negb ((USER_SPACE_END <? start) || (USER_SPACE_END <? end_) || (end_ <? start)).

(** [while (str[len] != 0) { len++; if (len > 4096) return -2; }]: the length,
    or nothing when the string is too long *)
Fixpoint bounded_len (fuel : nat) (str len : Z) : M serial (option Z) :=
  match fuel with
  | O => ret None
  | S fuel =>
    c <- on_mem (load8 (str + len)) ;;
    if c =? 0 then ret (Some len) else
    let len := len + 1 in
    if 4096 <? len then ret None else bounded_len fuel str len
  end.

(** [tmp_buf] is [kprintf]'s array, [fmt_high] and [fmt_cross] the addresses of
    the two messages *)
Definition sys_kprint (tmp_buf fmt_high fmt_cross str : Z) : M serial Z :=
  if str =? NULL then ret (w64 (-1)) else
  if KERNEL_SPACE_START <=? str then kprintf tmp_buf fmt_high [str] ;;; ret (w64 (-1)) else
  n <- bounded_len (Z.to_nat 4098) str 0 ;;
  match n with
  | None => ret (w64 (-2))
  | Some len =>
    if negb (is_user_range str (len + 1)) then kprintf tmp_buf fmt_cross [str] ;;; ret (w64 (-1)) else
    kprint str ;;; ret 0
  end.

(** [fmt] is the address of ["%p\n"] *)
Definition sys_kprint_hex (tmp_buf fmt value : Z) : M serial Z :=
  kprintf tmp_buf fmt [value] ;;; ret 0.

(** ** The user heap *)

Section heap.
Context {E : Type} `{VmaEnv E}.

(** The task's address space and its heap fields. *)
Definition proc : Type := (E * mm) * uheap.

Definition on_vm {A} (m : M (E * mm) A) : M proc A := fun s =>
  match m s.1 with
  | Ok (a, v) => Ok (a, (v, s.2))
  | Fault => Fault
  | Panic => Panic
  | Hang => Hang
  end.

Definition set_heap_curr (v : Z) : M proc unit :=
  modify (fun s => (s.1, mkHeap (heap_start s.2) v (heap_end s.2))).
Definition set_heap_end (v : Z) : M proc unit :=
  modify (fun s => (s.1, mkHeap (heap_start s.2) (heap_curr s.2) v)).

Definition HEAP_FLAGS : Z := Z.lor (Z.lor (Z.lor VMA_READ VMA_WRITE) VMA_USER) VMA_HEAP.

(** [(size + 0x0F) & ~0x0FULL], [(size + 0xFFF) & ~0xFFFULL] *)
Definition align16 (size : Z) : Z := Z.land (w64 (size + 0x0F)) (w64 (Z.lnot 0x0F)).
Definition align4k (size : Z) : Z := Z.land (w64 (size + 0xFFF)) (w64 (Z.lnot 0xFFF)).

Definition sys_malloc (size : Z) : M proc Z :=
  if size =? 0 then ret 0 else
  let aligned_size := align16 size in
  h <- gets snd ;;
  if w64 (heap_curr h + aligned_size) <=? heap_end h then
    let allocated_addr := heap_curr h in
    set_heap_curr (w64 (heap_curr h + aligned_size)) ;;;
    ret allocated_addr
  else
  let needed := w64 (w64 (heap_curr h + size) - heap_end h) in
  let aligned_needed := align4k needed in
  res <- on_vm (vma_map (heap_end h) aligned_needed HEAP_FLAGS) ;;
  if negb (res =? 0) then ret 0 else
  set_heap_end (w64 (heap_end h + aligned_needed)) ;;;
  set_heap_curr (w64 (heap_curr h + aligned_size)) ;;;
  ret (heap_curr h).

Definition sys_free (addr size : Z) : M proc Z :=
  if (addr =? 0) || (size =? 0) then ret 0 else
  let aligned_size := align16 size in
  h <- gets snd ;;
  if negb (w64 (addr + aligned_size) =? heap_curr h) then ret 0 else
  set_heap_curr addr ;;;
  let gap := w64 (heap_end h - addr) in
  if 4 * PAGE_SIZE <=? gap then
    let to_release := Z.land (w64 (gap - PAGE_SIZE)) (w64 (Z.lnot 0xFFF)) in
    let unmap_start := w64 (heap_end h - to_release) in
    let unmap_start := if unmap_start <? addr then align4k addr else unmap_start in
    res <- on_vm (vma_unmap unmap_start to_release) ;;
    if res =? 0 then set_heap_end unmap_start ;;; ret 0 else ret 0
  else ret 0.
End heap.

(** ** The user heap stays well formed *)

(** The heap of a task: its fields are ordered, the next free byte is aligned
    to 16 bytes and the end to a page, all in the lower half. *)
Record heap_ok (h : uheap) : Prop := {
  ho_order : 0 < heap_start h <= heap_curr h /\ heap_curr h <= heap_end h;
  ho_curr : heap_curr h mod 16 = 0;
  ho_end : heap_end h mod PAGE_SIZE = 0;
  ho_user : heap_end h < 2 ^ 47;
}.

Lemma align_up_eq x k : 0 <= k <= 12 -> 0 <= x < 2 ^ 63 ->
  Z.land (w64 (x + (2 ^ k - 1))) (w64 (Z.lnot (2 ^ k - 1))) = (x + (2 ^ k - 1)) / 2 ^ k * 2 ^ k.
Proof.
  intros Hk Hx. pose proof (Z.pow_le_mono_r 2 k 12 ltac:(lia) ltac:(lia)).
  pose proof (Z.pow_pos_nonneg 2 k ltac:(lia) ltac:(lia)).
  rewrite w64_small by lia. replace (2 ^ k - 1) with (Z.ones k) at 2 by (rewrite Z.ones_equiv; lia).
  rewrite land_lnot_ones by lia. pose proof (Z.div_mod (x + (2 ^ k - 1)) (2 ^ k) ltac:(lia)). lia.
Qed.

Lemma align16_bounds x : 0 <= x < 2 ^ 63 -> align16 x mod 16 = 0 /\ x <= align16 x < x + 16.
Proof.
  intros Hx. unfold align16. change 0x0F with (2 ^ 4 - 1). rewrite (align_up_eq x 4) by lia.
  change (2 ^ 4) with 16. rewrite Z.mod_mul by lia. split; [done|]. Z.div_mod_to_equations; lia.
Qed.

Lemma align4k_bounds x : 0 <= x < 2 ^ 63 -> align4k x mod PAGE_SIZE = 0 /\ x <= align4k x < x + PAGE_SIZE.
Proof.
  intros Hx. unfold align4k. change 0xFFF with (2 ^ 12 - 1). rewrite (align_up_eq x 12) by lia.
  unfold PAGE_SIZE. change (2 ^ 12) with 4096. rewrite Z.mod_mul by lia. split; [done|]. Z.div_mod_to_equations; lia.
Qed.

Section heap_spec.
Context {E : Type} `{VmaEnv E}.

(** How much the heap grows by when a request does not fit. *)
Definition growth (h : uheap) (size : Z) : Z := align4k (heap_curr h + size - heap_end h).

Lemma growth_bounds h size : heap_ok h -> 0 < size < 2 ^ 47 -> heap_end h < heap_curr h + align16 size ->
  growth h size mod PAGE_SIZE = 0 /\ 0 < growth h size /\
  heap_curr h + align16 size <= heap_end h + growth h size < heap_end h + size + PAGE_SIZE.
Proof.
  intros [Ho Hc He Hu] Hs Hlt. destruct (align16_bounds size ltac:(lia)) as [A1 A2].
  assert (heap_end h < heap_curr h + size).
  { unfold PAGE_SIZE in *. Z.div_mod_to_equations; lia. }
  destruct (align4k_bounds (heap_curr h + size - heap_end h) ltac:(lia)) as [B1 B2]. fold (growth h size) in *.
  split; [done|]. split; [lia|]. unfold PAGE_SIZE in *. split; [|lia]. Z.div_mod_to_equations; lia.
Qed.

(** C21: sys_malloc on a well-formed heap, for a request of less than 2^47
    bytes: when it fits the block is the next free bytes and nothing else
    changes; otherwise the heap grows at its end by just enough pages, and
    when the kernel cannot map them the call answers 0 and the heap is as it
    was. A block it returns is aligned to 16 bytes, starts where the free part
    started and ends where it starts now, so it overlaps no earlier block, and
    lies below the heap's end; the heap is well formed again while it stays in
    the lower half. *)
Theorem sys_malloc_correct vm h size r vm' :
  heap_ok h -> 0 < size < 2 ^ 47 ->
  vma_map (heap_end h) (growth h size) HEAP_FLAGS vm = Ok (r, vm') ->
  let h' := mkHeap (heap_start h) (heap_curr h + align16 size)
              (if heap_curr h + align16 size <=? heap_end h then heap_end h else heap_end h + growth h size) in
  sys_malloc size (vm, h) =
    Ok (if heap_curr h + align16 size <=? heap_end h then (heap_curr h, (vm, h'))
        else if r =? 0 then (heap_curr h, (vm', h')) else (0, (vm', h))) /\
  heap_curr h mod 16 = 0 /\ heap_curr h + size <= heap_curr h' <= heap_end h' /\
  (heap_end h' < 2 ^ 47 -> heap_ok h').
Proof.
  intros Hh Hs Ev h'. pose proof Hh as [Ho Hc He Hu]. destruct (align16_bounds size ltac:(lia)) as [A1 A2].
  assert (heap_curr h + align16 size <= heap_end h' /\ heap_end h' mod PAGE_SIZE = 0) as [Hle Hal].
  { unfold h'. cbn [heap_end heap_curr]. destruct (Z.leb_spec (heap_curr h + align16 size) (heap_end h)); [done|].
    destruct (growth_bounds h size Hh Hs) as (G1 & G2 & G3); [done|]. split; [lia|].
    unfold PAGE_SIZE in *. rewrite Z.add_mod, He, G1 by lia. done. }
  split; [|split; [done|split; [change (heap_curr h') with (heap_curr h + align16 size); lia|]]]; cycle 1.
  { intros Hlt. split; [|unfold h'; cbn [heap_curr]|exact Hal|exact Hlt].
    - change (heap_curr h') with (heap_curr h + align16 size). change (heap_start h') with (heap_start h). lia.
    - rewrite Z.add_mod, Hc, A1 by lia. done. }
  unfold sys_malloc. rewrite (proj2 (Z.eqb_neq _ _)) by lia. rewrite (bind_ok _ _ _ _ _ eq_refl).
  cbn [snd]. unfold h'. rewrite (w64_small (heap_curr h + align16 size)) by lia.
  destruct (Z.leb_spec (heap_curr h + align16 size) (heap_end h)) as [Hfit|Hno]; [done|].
  destruct (growth_bounds h size Hh Hs) as (G1 & G2 & G3); [done|].
  assert (heap_end h < heap_curr h + size) by (unfold PAGE_SIZE in *; Z.div_mod_to_equations; lia).
  rewrite (w64_small (heap_curr h + size)), (w64_small (heap_curr h + size - heap_end h)) by lia.
  fold (growth h size). cbv zeta. erewrite bind_ok by (unfold on_vm; cbn [fst]; by rewrite Ev).
  destruct (r =? 0); [|done]. cbn [negb]. unfold PAGE_SIZE in G3.
  rewrite (w64_small (heap_end h + growth h size)) by lia. done.
Qed.

(** C38: a request close to 2^64 bytes is not refused: sys_malloc answers it
    with the address of the next free byte, a successful allocation, and moves
    the heap backwards by 16, so that the 16 bytes before it, which may belong
    to the previous block, are handed out again by the next request. *)
Theorem sys_malloc_wraps vm h :
  heap_ok h -> heap_start h + 16 <= heap_curr h ->
  sys_malloc (2 ^ 64 - 16) (vm, h) =
    Ok (heap_curr h, (vm, mkHeap (heap_start h) (heap_curr h - 16) (heap_end h))) /\
  sys_malloc 16 (vm, mkHeap (heap_start h) (heap_curr h - 16) (heap_end h)) = Ok (heap_curr h - 16, (vm, h)).
Proof.
  intros [Ho Hc He Hu] Hs. split; unfold sys_malloc.
  - change (align16 (2 ^ 64 - 16)) with (2 ^ 64 - 16). change (2 ^ 64 - 16 =? 0) with false. cbv iota zeta.
    rewrite (bind_ok _ _ _ _ _ eq_refl). cbn [snd].
    assert (w64 (heap_curr h + (2 ^ 64 - 16)) = heap_curr h - 16) as ->.
    { unfold w64. replace (heap_curr h + (2 ^ 64 - 16)) with (heap_curr h - 16 + 1 * 2 ^ 64) by lia.
      rewrite Z.mod_add by lia. apply Z.mod_small. lia. }
    by rewrite (proj2 (Z.leb_le _ _)) by lia.
  - change (align16 16) with 16. change (16 =? 0) with false. cbv iota zeta. rewrite (bind_ok _ _ _ _ _ eq_refl). cbn [snd heap_curr heap_end].
    rewrite w64_small by lia. rewrite (proj2 (Z.leb_le _ _)) by lia.
    unfold bind, set_heap_curr, modify, ret. cbn. do 3 f_equal. destruct h; cbn in *. f_equal. lia.
Qed.

(** What sys_free gives back of the heap from [addr] on: all whole pages but
    one, when at least four are free. *)
Definition released_bytes (h : uheap) (addr : Z) : Z := (heap_end h - addr - PAGE_SIZE) / PAGE_SIZE * PAGE_SIZE.

(** sys_free undoes sys_malloc: of a heap whose topmost block is the one
    freed, the free part starts at that block again; when four pages or more
    are free then, all whole pages but one are unmapped and the heap ends
    where they started, keeping between one and two pages free, unless the
    unmapping fails. A block that is not the topmost is left alone. The heap
    stays well formed. *)
Theorem sys_free_correct vm h addr size r vm' :
  heap_ok h -> 0 < size < 2 ^ 47 -> heap_start h <= addr < 2 ^ 47 -> addr mod 16 = 0 ->
  vma_unmap (heap_end h - released_bytes h addr) (released_bytes h addr) vm = Ok (r, vm') ->
  let shrinks := (4 * PAGE_SIZE <=? heap_end h - addr) in
  let h' := mkHeap (heap_start h) addr
              (if shrinks && (r =? 0) then heap_end h - released_bytes h addr else heap_end h) in
  sys_free addr size (vm, h) =
    Ok (0, if addr + align16 size =? heap_curr h then (if shrinks then vm' else vm, h') else (vm, h)) /\
  (addr + align16 size = heap_curr h -> heap_ok h' /\
    (shrinks = true -> r = 0 -> PAGE_SIZE <= heap_end h' - heap_curr h' < 2 * PAGE_SIZE)).
Proof.
  intros Hh Hs Ha H16 Ev shrinks h'. pose proof Hh as [Ho Hc He Hu]. destruct (align16_bounds size ltac:(lia)) as [A1 A2].
  assert (PAGE_SIZE <= heap_end h - addr -> 0 <= released_bytes h addr /\
    PAGE_SIZE <= heap_end h - released_bytes h addr - addr < 2 * PAGE_SIZE /\
    (heap_end h - released_bytes h addr) mod PAGE_SIZE = 0) as Hrel.
  { unfold released_bytes, PAGE_SIZE in *. intros Hge. split; [Z.div_mod_to_equations; lia|].
    split; [Z.div_mod_to_equations; lia|]. apply Z.mod_divide; [lia|]. apply Z.divide_sub_r.
    - by apply Z.mod_divide.
    - apply Z.divide_factor_r. }
  split.
  - unfold sys_free. rewrite (proj2 (Z.eqb_neq addr 0)), (proj2 (Z.eqb_neq size 0)) by lia. cbn [orb].
    rewrite (bind_ok _ _ _ _ _ eq_refl). cbn [snd]. rewrite (w64_small (addr + _)) by lia.
    destruct (Z.eqb_spec (addr + align16 size) (heap_curr h)) as [Et|Et]; cbn [negb]; [|done].
    rewrite (bind_ok _ _ _ _ _ eq_refl). rewrite (w64_small (heap_end h - addr)) by lia. cbv zeta.
    unfold h', shrinks. destruct (Z.leb_spec (4 * PAGE_SIZE) (heap_end h - addr)) as [Hg|Hg]; [|done].
    assert (PAGE_SIZE <= heap_end h - addr) as Hg' by (unfold PAGE_SIZE in *; lia).
    destruct (Hrel Hg') as (R1 & R2 & R3).
    assert (Z.land (w64 (heap_end h - addr - PAGE_SIZE)) (w64 (Z.lnot 0xFFF)) = released_bytes h addr) as ->.
    { rewrite w64_small by (unfold PAGE_SIZE in *; lia). change 0xFFF with (Z.ones 12).
      rewrite land_lnot_ones by (unfold PAGE_SIZE in *; lia). unfold released_bytes. change (2 ^ 12) with PAGE_SIZE.
      pose proof (Z.div_mod (heap_end h - addr - PAGE_SIZE) PAGE_SIZE ltac:(done)). lia. }
    rewrite (w64_small (heap_end h - released_bytes h addr)) by (unfold PAGE_SIZE in *; lia).
    rewrite (proj2 (Z.ltb_ge _ _)) by (unfold PAGE_SIZE in *; lia).
    erewrite bind_ok by (unfold on_vm; cbn [fst]; by rewrite Ev). by destruct (r =? 0).
  - intros Et. unfold h', shrinks.
    destruct (Z.leb_spec (4 * PAGE_SIZE) (heap_end h - addr)) as [Hg|Hg]; cbn [andb heap_end heap_curr].
    + assert (PAGE_SIZE <= heap_end h - addr) as Hg' by (unfold PAGE_SIZE in *; lia).
      destruct (Hrel Hg') as (R1 & R2 & R3). split; [|intros _ ->; exact R2].
      split; cbn [heap_start heap_curr heap_end]; [|done| |]; destruct (r =? 0); unfold PAGE_SIZE in *; try done; lia.
    + split; [|done]. split; cbn [heap_start heap_curr heap_end]; [lia|done..].
Qed.
End heap_spec.

(** ** What user tasks can print *)

Lemma bounded_len_ok l fuel str len s :
  cstr (se_mem s) (str + len) l -> 0 <= len -> len + Z.of_nat (length l) <= 4096 -> (length l < fuel)%nat ->
  bounded_len fuel str len s = Ok (Some (len + Z.of_nat (length l)), s).
Proof.
  revert fuel len. induction l as [|c l IH]; intros [|fuel] len [Hc Hn] H0 Hl Hf; simpl in Hf; try lia;
    cbn [app bounded_len length] in *; apply cells_cons in Hc as [Hc0 Hc]; rewrite (bind_ok _ _ _ _ _ (on_load _ _ _ Hc0)).
  - by rewrite Z.add_0_r.
  - apply Forall_cons in Hn as [Hcn Hn]. destruct (Z.eqb_spec c 0); [lia|].
    destruct (Z.ltb_spec 4096 (len + 1)); [lia|].
    rewrite IH; [do 3 f_equal; lia|split; [by rewrite Z.add_assoc|done]|lia..].
Qed.

(** A memory of bytes. *)
Definition bytes_ok (m : mem) : Prop := map_Forall (fun _ b => 0 <= b < 256) m.

(** The state is unchanged, and the answer is the length of a string of at
    most 4096 characters there. *)
Lemma bounded_len_inv fuel str len s r s' :
  bytes_ok (se_mem s) -> 0 <= len <= 4096 -> bounded_len fuel str len s = Ok (r, s') ->
  s' = s /\ (forall n, r = Some n -> exists l, cstr (se_mem s) (str + len) l /\ n = len + Z.of_nat (length l) /\ n <= 4096).
Proof.
  intros Hb. revert len. induction fuel as [|fuel IH]; intros len H0; cbn [bounded_len]; [by intros [= <- <-]|].
  intros (c & s1 & E1 & E)%bind_inv.
  assert (se_mem s !! (str + len) = Some c /\ s1 = s) as [Hc ->].
  { unfold on_mem, load8, bind, get, deref in E1.
    destruct (se_mem s !! (str + len)); [|done]. injection E1 as <- <-. by destruct s. }
  destruct (Z.eqb_spec c 0) as [Hz|Hne].
  { rewrite Hz in Hc. injection E as <- <-. split; [done|]. intros n [= <-]. exists []. split; [|simpl; lia].
    split; [|constructor]. apply cells_cons. split; [done|]. by intros ? ? ?. }
  destruct (Z.ltb_spec 4096 (len + 1)); [by injection E as <- <-|].
  destruct (IH (len + 1) ltac:(lia) E) as [-> Hr]. split; [done|]. intros n Hn.
  destruct (Hr n Hn) as (l & [Hl Hnz] & -> & Hle). exists (c :: l). rewrite Z.add_assoc in Hl. split; [|simpl; lia].
  split; [by apply cells_cons|]. constructor; [|done]. specialize (Hb _ _ Hc). simpl in Hb. lia.
Qed.

(** The checks of a range that ends below the limit. *)
Lemma is_user_range_spec addr size : 0 <= addr < 2 ^ 64 -> 0 <= size < 2 ^ 63 ->
  is_user_range addr size = true <-> addr + size <= USER_SPACE_END.
Proof.
  intros Ha Hs. unfold is_user_range, w64, USER_SPACE_END.
  rewrite negb_true_iff, !orb_false_iff, !Z.ltb_ge.
  destruct (decide (addr + size < 2 ^ 64)).
  - rewrite Z.mod_small by lia. lia.
  - replace (addr + size) with (addr + size - 2 ^ 64 + 1 * 2 ^ 64) by lia. rewrite Z.mod_add, Z.mod_small by lia. lia.
Qed.

Lemma sys_kprint_ok s tmp_buf fmt_high fmt_cross str l :
  hart_ok (se_hart s) -> lock_free (kprint_lock_ s) -> log_ok s -> 0 < str < 2 ^ 64 ->
  cstr (se_mem s) str l -> (length l <= 4096)%nat -> str + Z.of_nat (length l) + 1 <= USER_SPACE_END ->
  exists s', sys_kprint tmp_buf fmt_high fmt_cross str s = Ok (0, s') /\ logged s' = recent (logged s ++ crlf l) /\ se_mem s' = se_mem s /\
    se_hart s' = se_hart s /\ lock_free (kprint_lock_ s') /\ log_ok s'.
Proof.
  intros Hh Hl Hs Hstr Hc Hlen Hend. unfold USER_SPACE_END in Hend. unfold sys_kprint.
  rewrite (proj2 (Z.eqb_neq str NULL)) by (unfold NULL; lia).
  rewrite (proj2 (Z.leb_gt KERNEL_SPACE_START str)) by (unfold KERNEL_SPACE_START; lia).
  rewrite (bind_ok _ _ _ _ _ (bounded_len_ok l (Z.to_nat 4098) str 0 s ltac:(by rewrite Z.add_0_r) ltac:(lia) ltac:(lia) ltac:(lia))).
  rewrite (proj2 (is_user_range_spec str (0 + Z.of_nat (length l) + 1) ltac:(lia) ltac:(lia))) by (unfold USER_SPACE_END; lia).
  destruct (kprint_spec s str l Hh Hl Hs ltac:(unfold NULL; lia) Hc) as (s' & E & Hs' & Hlog & Hm & Hh' & Hl' & _).
  exists s'. cbn [negb]. by rewrite (bind_ok _ _ _ _ _ E).
Qed.

(** C26: sys_kprint prints a user string and only that: a string of at most
    4096 characters that ends in user space is appended to the log and the
    call answers 0; a null pointer is refused; and whenever the call answers 0
    the string was of at most 4096 characters, lay in user space to its last
    byte, and is what the log received - so no kernel memory is printed. *)
Theorem sys_kprint_correct s tmp_buf fmt_high fmt_cross str :
  hart_ok (se_hart s) -> lock_free (kprint_lock_ s) -> log_ok s -> bytes_ok (se_mem s) -> 0 < str < 2 ^ 64 ->
  sys_kprint tmp_buf fmt_high fmt_cross NULL s = Ok (w64 (-1), s) /\
  (forall l, cstr (se_mem s) str l -> (length l <= 4096)%nat -> str + Z.of_nat (length l) + 1 <= USER_SPACE_END ->
     exists s', sys_kprint tmp_buf fmt_high fmt_cross str s = Ok (0, s') /\
       logged s' = recent (logged s ++ crlf l)) /\
  (forall s', sys_kprint tmp_buf fmt_high fmt_cross str s = Ok (0, s') ->
     exists l, cstr (se_mem s) str l /\ (length l <= 4096)%nat /\ str + Z.of_nat (length l) + 1 <= USER_SPACE_END /\
       logged s' = recent (logged s ++ crlf l)).
Proof.
  intros Hh Hl Hs Hb Hstr. split; [done|].
  pose proof (sys_kprint_ok s tmp_buf fmt_high fmt_cross str) as Hok.
  split; [intros l Hc Hn He; destruct (Hok l Hh Hl Hs Hstr Hc Hn He) as (s' & E & Hlog & _); by exists s'|]. intros s' E. unfold sys_kprint in E.
  rewrite (proj2 (Z.eqb_neq str NULL)) in E by (unfold NULL; lia).
  destruct (KERNEL_SPACE_START <=? str); [apply bind_inv in E as (? & ? & _ & E); done|].
  apply bind_inv in E as (r & s1 & E1 & E).
  destruct (bounded_len_inv _ str 0 _ _ _ Hb ltac:(lia) E1) as [-> Hr]. destruct r as [n|]; [|done].
  destruct (Hr n eq_refl) as (l & Hc & -> & Hn). rewrite Z.add_0_r in Hc.
  destruct (is_user_range str (0 + Z.of_nat (length l) + 1)) eqn:Er;
    [|apply bind_inv in E as (? & ? & _ & E); done].
  apply is_user_range_spec in Er; [|lia..]. exists l. split; [done|]. split; [lia|]. split; [lia|].
  destruct (kprint_spec s str l Hh Hl Hs ltac:(unfold NULL; lia) Hc) as (s2 & E2 & _ & Hlog & _).
  cbn [negb] in E. rewrite (bind_ok _ _ _ _ _ E2) in E. by injection E as <-.
Qed.

(** ** The dispatch *)

(** The system call number selects the handler of its table entry: the
    registered handlers run, their result goes to the task's RAX and the task
    is resumed, except that exit and sleep resume the task whose frame they
    answer; a number below 20 with no handler answers -1 in RAX. The number is
    not compared with the size of the table: 20 and above read past its end. *)
Theorem syscall_handler_correct {S} (frame : lens S iframe) h report addr s :
  0 <= rax (lget frame s) ->
  let n := rax (lget frame s) in
  let ret_to := fun v s => lset frame (mkFrame v (rdi (lget frame s)) (rsi (lget frame s))) s in
  match init_sys_table h !! Z.to_nat n with
  | None => 20 <= n /\ syscall_handler frame (init_sys_table h) report addr s = Fault
  | Some None => (n = 0 \/ 13 <= n < 20) /\ forall s1, report n s = Ok (tt, s1) ->
      syscall_handler frame (init_sys_table h) report addr s = Ok (addr, ret_to (w64 (-1)) s1)
  | Some (Some m) => 1 <= n <= 12 /\ forall res s1, m s = Ok (res, s1) ->
      syscall_handler frame (init_sys_table h) report addr s =
        if (n =? 4) || (n =? 2) then Ok (res, s1) else Ok (addr, ret_to res s1)
  end.
Proof.
  intros H0 n ret_to. unfold syscall_handler. rewrite (bind_ok _ _ _ _ _ eq_refl). fold n.
  cbv zeta. fold n. remember (Z.to_nat n) as i eqn:Hi.
  assert (0 <= n) as Hn by exact H0. clearbody n.
  do 20 (destruct i as [|i];
    [cbn [init_sys_table lookup list_lookup deref]; rewrite (bind_ok _ _ _ _ _ eq_refl);
     (split; [lia|]); intros;
     repeat match goal with
     | H : ?m s = Ok _ |- context [bind ?m _ s] => rewrite (bind_ok _ _ _ _ _ H)
     | |- context [n =? ?k] => destruct (Z.eqb_spec n k); try lia
     end; done|]).
  cbn [init_sys_table lookup list_lookup]. split; [lia|done].
Qed.

(** ** Witnesses *)

(** Services of a kernel with memory to spare *)
#[local] Instance demo_env : VmaEnv Z := {|
  env_lock := ret tt; env_unlock := ret tt;
  env_kmalloc := fun _ => (e <- get ;; put (e + 0x100) ;;; ret e); env_kfree := fun _ => ret tt;
  env_alloc_frames := fun _ => ret 0x200000; env_free_frame := fun _ => ret tt;
  env_zero := fun _ _ => ret tt; env_get_table := fun cr3 => ret (phys_to_virt cr3);
  env_map_range := fun _ _ _ _ _ => ret tt; env_translate := fun _ _ => ret 0x200000;
  env_unmap := fun _ _ => ret tt; env_sync_tlb := ret tt; env_destroy := fun _ _ => ret tt |}.

Definition demo_vm : Z * mm := (0x8000, mkMm ∅ NULL NULL 0 0x1000).
Definition demo_heap : uheap := mkHeap 0x406000 0x409FF0 0x40A000.
Lemma demo_heap_ok : heap_ok demo_heap.
Proof. by split. Qed.

Definition grown : Z * mm :=
  match vma_map 0x40A000 (growth demo_heap 100) HEAP_FLAGS demo_vm with Ok (_, v) => v | _ => demo_vm end.

Lemma grown_eq : vma_map 0x40A000 (growth demo_heap 100) HEAP_FLAGS demo_vm = Ok (0, grown).
Proof. vm_compute. reflexivity. Qed.

Lemma sys_malloc_correct_witness : exists p, sys_malloc 100 (demo_vm, demo_heap) = Ok p.
Proof.
  eexists. exact (proj1 (sys_malloc_correct demo_vm demo_heap 100 0 grown demo_heap_ok ltac:(lia) grown_eq)).
Defined.

Lemma sys_malloc_wraps_witness :
  sys_malloc (2 ^ 64 - 16) (demo_vm, demo_heap) = Ok (0x409FF0, (demo_vm, mkHeap 0x406000 0x409FE0 0x40A000)).
Proof. exact (proj1 (sys_malloc_wraps demo_vm demo_heap demo_heap_ok ltac:(done))). Defined.

(** The heap after that, with three more pages *)
Definition big_heap : uheap := mkHeap 0x406000 0x40A060 0x40E000.
Definition shrunk : Z * (Z * mm) :=
  match vma_unmap (0x40E000 - released_bytes big_heap 0x409FF0) (released_bytes big_heap 0x409FF0) grown with
  | Ok r => r | _ => (1, grown) end.
Lemma shrunk_eq : vma_unmap (0x40E000 - released_bytes big_heap 0x409FF0) (released_bytes big_heap 0x409FF0) grown =
  Ok (shrunk.1, shrunk.2).
Proof. vm_compute. reflexivity. Qed.

Lemma sys_free_correct_witness : exists p, sys_free 0x409FF0 100 (grown, big_heap) = Ok p.
Proof.
  eexists. exact (proj1 (sys_free_correct grown big_heap 0x409FF0 100 _ _ ltac:(by split) ltac:(lia) ltac:(done)
    eq_refl shrunk_eq)).
Defined.

Lemma sys_kprint_correct_witness :
  exists s', sys_kprint 16 0 0 528 (log_demo []) = Ok (0, s') /\
    logged s' = recent (logged (log_demo []) ++ crlf [37; 100; 37; 37; 10]).
Proof.
  refine (proj1 (proj2 (sys_kprint_correct (log_demo []) 16 0 0 528 ltac:(by eexists) eq_refl (log_demo_ok []) _ ltac:(lia)))
    [37; 100; 37; 37; 10] ltac:(apply cstr_decide; by vm_compute) ltac:(simpl; lia) ltac:(unfold USER_SPACE_END; simpl; lia)).
  unfold bytes_ok. apply (bool_decide_unpack _). by vm_compute.
Defined.

Definition demo_handlers : handlers (S := iframe) :=
  let k := fun v => ret v in
  Build_handlers (k 1) (k 2) (k 3) (k 4) (k 5) (k 6) (k 7) (k 8) (k 9) (k 10) (k 11) (k 12).
Definition frame_id : lens iframe iframe := Lens (fun f => f) (fun f _ => f).

Lemma syscall_handler_correct_witness :
  20 <= 77 /\ syscall_handler frame_id (init_sys_table demo_handlers) (fun _ => ret tt) 0x5000 (mkFrame 77 0 0) = Fault.
Proof.
  exact (syscall_handler_correct frame_id demo_handlers (fun _ => ret tt) 0x5000 (mkFrame 77 0 0) ltac:(simpl; lia)).
Defined.
