(* ===== verification/Handlers.v ===== *)
(** * System-call handlers and the user library

    Models the handlers of [kernel/syscall/syscall_funcs.c] that pass on a
    routine of the scheduler, the keyboard or the clock, and the wrappers of
    [common/userlib.h], over the dispatch of [Syscall].

    - A handler that yields takes up again when its task is scheduled: the
      model is what it does up to that point. [sys_read_kbd_turn] is one turn of
      the loop of [sys_read_kbd_handler]: a character, or nothing, after which
      the blocked task takes the next turn when it runs again.
    - [frame] is the address of the interrupted task's frame.
    - In the user library the [syscall] instruction fills the frame's registers,
      runs [syscall_handler] and returns the RAX it left. *)

From S2P Require Import Prelude Lock Chain Sched Runqueue Schedule Wakeup Ring Kbd KbdDemo Strings Syscall SchedDemo.

(** ** Handlers *)

Definition SYS_KPRINT : Z := 1.
Definition SYS_GET_UPTIME : Z := 3.
Definition SYS_YIELD : Z := 5.
Definition SYS_KBD_PS2 : Z := 6.
Definition SYS_KPRINT_HEX : Z := 7.
Definition SYS_CPU_ID : Z := 8.
Definition SYS_MALLOC : Z := 9.
Definition SYS_FREE : Z := 10.
Definition SYS_GET_TID : Z := 11.
Definition SYS_CPU_COUNT : Z := 12.

Definition sys_get_cpuid_handler : M sched Z := c <- get_cpu ;; x <- get_ctx c ;; ret (ctx_id x).

(** without a current task, [task_exit] returns *)
Definition sys_exit_handler (frame : Z) : M sched Z :=
  r <- task_exit frame ;;
  match r with Some rsp => ret rsp | None => schedule frame end.

Definition sys_yield_handler (frame : Z) : M sched Z := sched_yield frame ;;; ret 0.

Definition sys_get_uptime_handler : M sched Z := get_uptime_ms.

Definition sys_sleep_handler (ms frame : Z) : M sched Z :=
  when (0 <? ms) (sched_make_task_sleep ms) ;;;
  schedule frame.

Definition sys_read_kbd_turn (frame : Z) : M kbd (option Z) :=
  c <- kbd_pop_char ;;
  match c with
  | Some c => ret (Some c)
  | None =>
    on_sched (sched_block_current REASON_KEYBOARD) ;;;
    on_sched (sched_yield frame) ;;;
    ret None
  end.

Definition sys_get_tid_handler : M sched Z :=
  current <- sched_get_current ;; t <- get_task current ;; ret (tid t).

(** [get_cpu_count_test] returns a byte *)
Definition sys_cpu_count_handler (cpu_count : Z) : Z := w8 cpu_count.

(** ** The user library *)

Section user.
Context {S : Type} (frame : lens S iframe) (h : @handlers S) (report : Z -> M S unit) (frame_addr : Z).

Definition syscall_3 (num a1 a2 a3 : Z) : M S Z :=
  modify (lset frame (mkFrame num a1 a2)) ;;;
  _ <- syscall_handler frame (init_sys_table h) report frame_addr ;;
  f <- gets (lget frame) ;;
  ret (rax f).

Definition u_print (s : Z) : M S unit := syscall_3 1 s 0 0 ;;; ret tt.
Definition u_exit : M S unit := syscall_3 2 0 0 0 ;;; ret tt.
Definition u_get_uptime : M S Z := syscall_3 3 0 0 0.
Definition u_sleep (ms : Z) : M S unit := syscall_3 4 ms 0 0 ;;; ret tt.
Definition u_yield : M S unit := syscall_3 5 0 0 0 ;;; ret tt.
(** A [char] is signed *)
Definition int8 (v : Z) : Z := let b := w8 v in if b <? 128 then b else b - 256.
Definition u_read_kbd : M S Z := r <- syscall_3 6 0 0 0 ;; ret (int8 r).
Definition u_print_hex (val : Z) : M S unit := syscall_3 7 val 0 0 ;;; ret tt.
Definition u_get_cpuid : M S Z := syscall_3 8 0 0 0.
Definition u_sys_malloc (size : Z) : M S Z := syscall_3 9 size 0 0.
Definition u_sys_free (ptr size : Z) : M S unit := syscall_3 10 ptr size 0 ;;; ret tt.
Definition u_sys_get_tid : M S Z := r <- syscall_3 11 0 0 0 ;; ret (w32 r).
Definition u_sys_cpu_count : M S Z := r <- syscall_3 12 0 0 0 ;; ret (w8 r).
End user.

(** ** The numbers of the library are the kernel's *)

Section abi.
Context {S : Type} (frame : lens S iframe) `{!LensOk frame} (h : @handlers S) (report : Z -> M S unit) (frame_addr : Z).

(** [call] runs the handler [hd] with the number [num] and its arguments in the
    frame, and gets the handler's result as [back] converts it. *)
Definition reaches {A} (call : M S A) (hd : M S Z) (num a1 a2 : Z) (back : Z -> A) : Prop :=
  forall s r s', hd (lset frame (mkFrame num a1 a2) s) = Ok (r, s') ->
    call s = Ok (back r, lset frame (mkFrame r (rdi (lget frame s')) (rsi (lget frame s'))) s').

(** The same for the two calls whose result is the next task's stack. *)
Definition switches (call : M S unit) (hd : M S Z) (num a1 a2 : Z) : Prop :=
  forall s r s', hd (lset frame (mkFrame num a1 a2) s) = Ok (r, s') -> call s = Ok (tt, s').

Lemma syscall_runs num (hd : @handler S) a1 a2 a3 s r s' : init_sys_table h !! Z.to_nat num = Some (Some hd) ->
  hd (lset frame (mkFrame num a1 a2) s) = Ok (r, s') ->
  syscall_3 frame h report frame_addr num a1 a2 a3 s =
    if (num =? SYS_SLEEP) || (num =? SYS_EXIT) then Ok (rax (lget frame s'), s')
    else Ok (r, lset frame (mkFrame r (rdi (lget frame s')) (rsi (lget frame s'))) s').
Proof.
  intros Ht Hh. unfold syscall_3. unfold bind at 1, modify at 1. unfold syscall_handler. rewrite bind_bind.
  unfold bind at 1, gets at 1. rewrite lget_lset. cbn [rax]. cbv zeta. rewrite bind_bind. unfold handler in *. rewrite Ht. cbn [deref]. unfold bind at 1, ret at 1.
  rewrite bind_bind, (bind_ok _ _ _ _ _ Hh). destruct ((num =? SYS_SLEEP) || (num =? SYS_EXIT)); [done|].
  unfold bind, gets, modify, ret. by rewrite lget_lset.
Qed.

Lemma reaches_by {A} num (hd : @handler S) a1 a2 (call : M S A) (back : Z -> A) :
  (forall s, call s = (r <- syscall_3 frame h report frame_addr num a1 a2 0 ;; ret (back r)) s) ->
  init_sys_table h !! Z.to_nat num = Some (Some hd) -> (num =? SYS_SLEEP) || (num =? SYS_EXIT) = false ->
  reaches call hd num a1 a2 back.
Proof.
  intros Hc Ht Hn s r s' Hh. rewrite Hc. unfold bind. by rewrite (syscall_runs num hd a1 a2 0 s r s' Ht Hh), Hn.
Qed.

Lemma switches_by num (hd : @handler S) a1 a2 (call : M S unit) :
  (forall s, call s = (_ <- syscall_3 frame h report frame_addr num a1 a2 0 ;; ret tt) s) ->
  init_sys_table h !! Z.to_nat num = Some (Some hd) -> (num =? SYS_SLEEP) || (num =? SYS_EXIT) = true ->
  switches call hd num a1 a2.
Proof.
  intros Hc Ht Hn s r s' Hh. rewrite Hc. unfold bind. by rewrite (syscall_runs num hd a1 a2 0 s r s' Ht Hh), Hn.
Qed.

Lemma bind_ret_id {A} (m : M S A) s : m s = (r <- m ;; ret r) s.
Proof. unfold bind. by destruct (m s) as [[]| | |]. Qed.

Lemma user_calls_reach p ms size ptr val :
  reaches (u_print frame h report frame_addr p) (h_kprint h) SYS_KPRINT p 0 (fun _ => tt) /\
  switches (u_exit frame h report frame_addr) (h_exit h) SYS_EXIT 0 0 /\
  reaches (u_get_uptime frame h report frame_addr) (h_get_uptime h) SYS_GET_UPTIME 0 0 (fun r => r) /\
  switches (u_sleep frame h report frame_addr ms) (h_sleep h) SYS_SLEEP ms 0 /\
  reaches (u_yield frame h report frame_addr) (h_yield h) SYS_YIELD 0 0 (fun _ => tt) /\
  reaches (u_read_kbd frame h report frame_addr) (h_kbd h) SYS_KBD_PS2 0 0 int8 /\
  reaches (u_print_hex frame h report frame_addr val) (h_kprint_hex h) SYS_KPRINT_HEX val 0 (fun _ => tt) /\
  reaches (u_get_cpuid frame h report frame_addr) (h_cpu_id h) SYS_CPU_ID 0 0 (fun r => r) /\
  reaches (u_sys_malloc frame h report frame_addr size) (h_malloc h) SYS_MALLOC size 0 (fun r => r) /\
  reaches (u_sys_free frame h report frame_addr ptr size) (h_free h) SYS_FREE ptr size (fun _ => tt) /\
  reaches (u_sys_get_tid frame h report frame_addr) (h_get_tid h) SYS_GET_TID 0 0 w32 /\
  reaches (u_sys_cpu_count frame h report frame_addr) (h_cpu_count h) SYS_CPU_COUNT 0 0 w8.
Proof.
  split_and!; first [eapply reaches_by | eapply switches_by]; try reflexivity; intros s; try reflexivity; apply bind_ret_id.
Qed.

(** the user library and the kernel agree on the system calls. Each wrapper
    of [userlib.h] reaches the handler [init_sys_table] registers for the call
    it is named after, with its arguments in RDI and RSI, and returns the
    handler's result, cut to the wrapper's type; [u_sleep] and [u_exit] leave
    the frame alone, since their handlers return the stack of the next task. *)
Theorem user_calls_reach_handlers p ms size ptr val :
  reaches (u_print frame h report frame_addr p) (h_kprint h) SYS_KPRINT p 0 (fun _ => tt) /\
  switches (u_exit frame h report frame_addr) (h_exit h) SYS_EXIT 0 0 /\
  reaches (u_get_uptime frame h report frame_addr) (h_get_uptime h) SYS_GET_UPTIME 0 0 (fun r => r) /\
  switches (u_sleep frame h report frame_addr ms) (h_sleep h) SYS_SLEEP ms 0 /\
  reaches (u_yield frame h report frame_addr) (h_yield h) SYS_YIELD 0 0 (fun _ => tt) /\
  reaches (u_read_kbd frame h report frame_addr) (h_kbd h) SYS_KBD_PS2 0 0 int8 /\
  reaches (u_print_hex frame h report frame_addr val) (h_kprint_hex h) SYS_KPRINT_HEX val 0 (fun _ => tt) /\
  reaches (u_get_cpuid frame h report frame_addr) (h_cpu_id h) SYS_CPU_ID 0 0 (fun r => r) /\
  reaches (u_sys_malloc frame h report frame_addr size) (h_malloc h) SYS_MALLOC size 0 (fun r => r) /\
  reaches (u_sys_free frame h report frame_addr ptr size) (h_free h) SYS_FREE ptr size (fun _ => tt) /\
  reaches (u_sys_get_tid frame h report frame_addr) (h_get_tid h) SYS_GET_TID 0 0 w32 /\
  reaches (u_sys_cpu_count frame h report frame_addr) (h_cpu_count h) SYS_CPU_COUNT 0 0 w8.
Proof. apply user_calls_reach. Qed.
End abi.

(** ** Reading the keyboard *)

Lemma idle_woken reason s v u : idle_in v u -> idle_in (woken_view reason s v) u.
Proof.
  intros Hi a. unfold woken_view. case_decide as E.
  - rewrite list_elem_of_filter. intros [_ Hu]. by apply (Hi Blocked).
  - rewrite elem_of_app, list_elem_of_filter, elem_of_reverse, list_elem_of_filter. intros [Hu|(_ & _ & Hu)].
    + by apply (Hi a).
    + by apply (Hi Blocked).
Qed.

(** The interrupt of a key with a character, seen from a task in no list. *)
Lemma key_pressed k v c cur tk x : kbd_core k v -> idle_in v cur -> tasks (kbd_sched k) !! cur = Some tk ->
  cpus (kbd_sched k) !! this_cpu (kbd_sched k) = Some x ->
  exists k' v' tk' x', (kbd_push_char c ;;; on_sched (sched_wakeup REASON_KEYBOARD)) k = Ok (tt, k') /\
    kbd_core k' v' /\ pending k' = arrive (Some c) (pending k) /\ kbd_lock_ k' = kbd_lock_ k /\ idle_in v' cur /\
    tasks (kbd_sched k') !! cur = Some tk' /\ this_cpu (kbd_sched k') = this_cpu (kbd_sched k) /\
    cpus (kbd_sched k') !! this_cpu (kbd_sched k) = Some x' /\ current_task x' = current_task x /\
    s_hart (kbd_sched k') = s_hart (kbd_sched k).
Proof.
  intros [Hr Hs Ht Hc] Hi Htk Hx. destruct (push_spec k c Hr) as (k1 & E1 & Hr1 & Hp1 & Es1 & El1 & Ef1 & _).
  destruct (sched_wakeup_spec REASON_KEYBOARD (kbd_sched k) v Hs Ht Hc) as (s2 & E2 & Hs2 & Hh2 & Htab & Hthis & Hctx & _ & Hu).
  pose proof (Hctx (this_cpu (kbd_sched k))) as Ex. rewrite Hx in Ex.
  destruct (cpus s2 !! this_cpu (kbd_sched k)) as [x'|] eqn:Hx'; [|done]. unfold ctx_core in Ex. injection Ex as _ _ _ Ex _ _.
  assert (Hn : ~ (cur ∈ v Blocked /\ waits_for REASON_KEYBOARD (tasks (kbd_sched k)) cur)) by (intros [Hb _]; by apply (Hi Blocked)).
  specialize (Hu cur Hn). rewrite Htk in Hu. destruct (tasks s2 !! cur) as [tk'|] eqn:Htk'; [|done].
  assert (Hsome : forall i, is_Some (cpus (kbd_sched k) !! i) -> is_Some (cpus s2 !! i)).
  { intros i. by rewrite <-!(fmap_is_Some ctx_core), Hctx. }
  exists (set_kbd_sched s2 k1), (woken_view REASON_KEYBOARD (kbd_sched k) v), tk', x'. split_and!; try done; [|..|by apply idle_woken].
  - rewrite (bind_ok _ _ _ _ _ E1). unfold on_sched. by rewrite Es1, E2.
  - split; try done; [intros i; cbn; rewrite Htab; intros Hi'; by apply Hsome, Ht|cbn; rewrite Hthis; by apply Hsome].
Qed.

Lemma handler_types k f' c k2 : decode (kbd_flags k) (data_port k) = (f', Some c) -> 0 <= data_port k ->
  hart_ok (s_hart (kbd_sched k)) -> lock_free (kbd_lock_ k) ->
  (kbd_push_char c ;;; on_sched (sched_wakeup REASON_KEYBOARD)) (enter kbd_lock k) = Ok (tt, k2) ->
  s_hart (kbd_sched k2) = s_hart (kbd_sched (enter kbd_lock k)) -> kbd_lock_ k2 = kbd_lock_ (enter kbd_lock k) ->
  ps2_keyboard_handler k = Ok (tt, leave kbd_lock k (set_kbd_flags (set_is_extended false (kbd_flags k2)) k2)).
Proof.
  intros Hd Hp Hh Hl Ht E1 E2. apply (critical_ok kbd_lock); [done|done| |exact E1|exact E2].
  unfold bind at 1 2, gets at 1 2. cbv beta iota. change (data_port (enter kbd_lock k)) with (data_port k).
  change (kbd_flags (enter kbd_lock k)) with (kbd_flags k). unfold decode in Hd.
  destruct (data_port k =? 0xE0); [done|]. destruct (data_port k =? 0xF0); [done|]. destruct (is_break (kbd_flags k)); [done|].
  destruct (is_shift_key (data_port k)); [done|]. destruct (data_port k =? 0x58); [done|].
  destruct (Z.ltb_spec (data_port k) 0x80) as [Hlt|]; [|done]. cbn [andb] in Hd. cbv zeta.
  destruct (key_char _ (data_port k) =? 0) eqn:Ec; cbn [negb] in Hd; [done|]. injection Hd as _ Hd.
  rewrite lookup_scancode by lia. cbn [when deref]. rewrite Hd in *. unfold bind at 1. unfold bind at 1, ret at 1. rewrite Ec. cbn [negb when].
  by rewrite Ht.
Qed.

(** Looking into an empty buffer changes nothing but the lock's counters. *)
Lemma pop_empty k v : kbd_ok k v -> pending k = [] ->
  exists k1, kbd_pop_char k = Ok (None, k1) /\ kbd_sched k1 = kbd_sched k /\ kbd_flags k1 = kbd_flags k /\
    data_port k1 = data_port k /\ pending k1 = [] /\ kbd_ok k1 v.
Proof.
  intros [Hl Hk] Hp. pose proof Hk as [Hr Hs Ht Hc].
  assert (E : kbd_head k = kbd_tail k).
  { destruct (decide (kbd_head k = kbd_tail k)) as [|Hne]; [done|]. destruct (head_pending k Hr Hne) as (l & Hp' & _). congruence. }
  assert (Es : kbd_sched (leave kbd_lock k (enter kbd_lock k)) = kbd_sched k).
  { change (lset hart_of (s_hart (kbd_sched k)) (lset hart_of (masked (s_hart (kbd_sched k))) (kbd_sched k)) = kbd_sched k). by destruct (kbd_sched k). }
  exists (leave kbd_lock k (enter kbd_lock k)). split_and!; try done.
  - apply (critical_ok kbd_lock); [apply (so_hart _ _ Hs)|done| |done|done]. unfold bind, gets.
    change (kbd_head (enter kbd_lock k)) with (kbd_head k). change (kbd_tail (enter kbd_lock k)) with (kbd_tail k). by rewrite E, Z.eqb_refl.
  - split; [by apply released_free|]. split; [done|..]; by rewrite Es.
Qed.

(** C40: a reader of the keyboard can miss a key. [sys_read_kbd_handler] finds the
    buffer empty; before it has put its task on the blocked list the interrupt of
    a key arrives (on the processor the keyboard is routed to), queues the
    character and wakes the tasks that are blocked by then; and then the reader
    blocks all the same. It is on the blocked list with a character in the buffer,
    and no wake-up follows until another key is pressed. *)
Theorem sys_read_kbd_loses_wakeup k v c f' cur tk x :
  kbd_ok k v -> pending k = [] -> decode (kbd_flags k) (data_port k) = (f', Some c) -> 0 <= data_port k ->
  cpus (kbd_sched k) !! this_cpu (kbd_sched k) = Some x -> current_task x = cur -> cur <> NULL ->
  tasks (kbd_sched k) !! cur = Some tk -> idle_in v cur ->
  exists k1 k2 k3 v3 tk3,
    kbd_pop_char k = Ok (None, k1) /\ ps2_keyboard_handler k1 = Ok (tt, k2) /\
    on_sched (sched_block_current REASON_KEYBOARD) k2 = Ok (tt, k3) /\
    kbd_ok k3 v3 /\ cur ∈ v3 Blocked /\ tasks (kbd_sched k3) !! cur = Some tk3 /\
    state tk3 = TASK_BLOCKED /\ wait_reason tk3 = REASON_KEYBOARD /\ pending k3 = [c].
Proof.
  intros Hok Hp Hd Hport Hx Hcur Hnn Htk Hi. destruct (pop_empty k v Hok Hp) as (k1 & E1 & Es & Ef & Ed & Hp1 & [Hl1 [Hr1 Hs1 Ht1 Hc1]]).
  rewrite <-Es in Hx, Htk. rewrite <-Ef, <-Ed in Hd. rewrite <-Ed in Hport. pose proof (so_hart _ _ Hs1) as Hh1.
  assert (Hk1 : kbd_core (enter kbd_lock k1) v) by (split; try done; by apply sched_ok_hart).
  destruct (key_pressed (enter kbd_lock k1) v c cur tk x Hk1 Hi Htk Hx)
    as (k' & v' & tk' & x' & E2 & [Hr' Hs' Ht' Hc'] & Hp' & Hl' & Hi' & Htk' & Hthis & Hx' & Ecur & Hh').
  pose proof (handler_types k1 f' c k' Hd Hport Hh1 Hl1 E2 Hh' Hl') as E3. set (k2 := leave kbd_lock k1 _) in *.
  assert (Hs2 : sched_ok (kbd_sched k2) v') by (by apply sched_ok_hart).
  destruct (sched_block_spec REASON_KEYBOARD (kbd_sched k2) v' cur tk' Hs2) as (s3 & E4 & Hs3 & Hts & Hcp & Htab & Hth & _); [|done|done|done|].
  { unfold sched_get_current, get_cpu, get_ctx, bind, gets, deref, ret. cbn [k2 leave set_kbd_flags kbd_sched].
    change (this_cpu (kbd_sched k2)) with (this_cpu (kbd_sched k')). rewrite Hthis. change (cpus (kbd_sched k2)) with (cpus (kbd_sched k')).
    change (this_cpu (kbd_sched (enter kbd_lock k1))) with (this_cpu (kbd_sched k1)) in *. rewrite Hx'. by rewrite Ecur, Hcur. }
  exists k1, k2, (set_kbd_sched s3 k2). eexists _, _. split_and!; [done|exact E3|unfold on_sched; by rewrite E4|..].
  - split; [by apply released_free|]. split; [done|exact Hs3|..].
    + intros i. cbn. rewrite Htab, Hcp. apply Ht'.
    + cbn. rewrite Hth, Hcp. apply Hc'.
  - rewrite vset_eq. by left.
  - cbn. rewrite Hts. apply lookup_insert_eq.
  - done.
  - done.
  - change (pending (set_kbd_sched s3 k2)) with (pending k'). rewrite Hp'. change (pending (enter kbd_lock k1)) with (pending k1). by rewrite Hp1.
Qed.

(** ** Witness *)

(** Task A reads; the key A is pressed. *)
Definition reading : kbd := mkKbd demo spinlock_init (mkFlags false false false false) ∅ 0 0 0x1C.

Lemma reading_ok : kbd_ok reading (fun _ => []).
Proof.
  split; [done|]. split; [|exact demo_ok|exact blocked_a_table|by_decide]. unfold ring_ok, KBD_BUF_SIZE. cbn. lia.
Qed.

Lemma sys_read_kbd_loses_wakeup_witness :
  exists k1 k2 k3, kbd_pop_char reading = Ok (None, k1) /\ ps2_keyboard_handler k1 = Ok (tt, k2) /\
    on_sched (sched_block_current REASON_KEYBOARD) k2 = Ok (tt, k3) /\ pending k3 = [97].
Proof.
  destruct (sys_read_kbd_loses_wakeup reading (fun _ => []) 97 (mkFlags false false false false) TASK_A
    (task_at demo TASK_A) (demo_cpu 0 TASK_A IDLE0) reading_ok ltac:(vm_compute; reflexivity) ltac:(vm_compute; reflexivity)
    ltac:(cbn; lia) ltac:(vm_compute; reflexivity) eq_refl ltac:(done) ltac:(vm_compute; reflexivity) ltac:(intros a; apply not_elem_of_nil))
    as (k1 & k2 & k3 & v3 & tk3 & E1 & E2 & E3 & _ & _ & _ & _ & _ & Hp).
  exists k1, k2, k3. exact (conj E1 (conj E2 (conj E3 Hp))).
Defined.

(** A frame, and handlers that answer with its arguments. *)
Definition echo : lens iframe iframe := Lens (fun f => f) (fun f _ => f).
#[local] Instance echo_ok : LensOk echo.
Proof. by split. Qed.
Definition echo_handlers : @handlers iframe :=
  let h := (fun f : iframe => Ok (rdi f + 1000 * rsi f, f)) : M iframe Z in
  {| h_kprint := h; h_exit := h; h_get_uptime := h; h_sleep := h; h_yield := h; h_kbd := h; h_kprint_hex := h; h_cpu_id := h;
     h_malloc := h; h_free := h; h_get_tid := h; h_cpu_count := h |}.

Lemma user_calls_reach_handlers_witness :
  u_sys_free echo echo_handlers (fun _ => ret tt) 0 5 7 (mkFrame 0 0 0) = Ok (tt, mkFrame 7005 5 7).
Proof.
  destruct (user_calls_reach_handlers echo echo_handlers (fun _ => ret tt) 0 0 0 7 5 0) as (_ & _ & _ & _ & _ & _ & _ & _ & _ & Hf & _).
  apply (Hf (mkFrame 0 0 0) 7005 (mkFrame SYS_FREE 5 7)). reflexivity.
Defined.
