(* ===== verification/Uprintf.v ===== *)
(** * Formatted output of user tasks

    Models [u_printf] of [common/userlib.c] together with what answers it:
    [vsnprintf] runs in the user task, on its stack; [u_print] enters the kernel
    with the address of the text; [sys_kprint_handler] checks it and appends it
    to the log.

    - The state contains the serial port with the log, whose memory is also the
      user task's, and the registers of the system call; the rest of the state
      is whatever the other handlers need.
    - [buf] is the address of the 512-byte array of [u_printf], [tmp_buf] that of
      [kprintf], [fmt_high] and [fmt_cross] are the two messages of [sys_kprint]. *)

From S2P Require Import Prelude Lock Strings Printf Ring Serial Vma Syscall Handlers.

Section uprintf.
Context {S : Type} (ser : lens S serial) (frame : lens S iframe).

Definition on_serial {A} (m : M serial A) : M S A := fun s =>
  match m (lget ser s) with
  | Ok (a, x) => Ok (a, lset ser x s)
  | Fault => Fault | Panic => Panic | Hang => Hang
  end.

Context (tmp_buf fmt_high fmt_cross : Z) (h : @handlers S) (report : Z -> M S unit) (frame_addr : Z).

Definition sys_kprint_handler : M S Z :=
  f <- gets (lget frame) ;; on_serial (sys_kprint tmp_buf fmt_high fmt_cross (rdi f)).

Definition u_printf (buf fmt : Z) (args : list Z) : M S unit :=
  _ <- on_serial (on_mem (vsnprintf buf 512 fmt args)) ;;
  u_print frame h report frame_addr buf.

(** The log can be written. *)
Record log_ready (se : serial) : Prop := {
  lr_hart : hart_ok (se_hart se);
  lr_lock : lock_free (kprint_lock_ se);
  lr_log : log_ok se;
}.

Context `{!LensOk ser, !LensOk frame, !LensIndep ser frame}.

Lemma u_printf_spec s buf fmt f strs args out :
  let se := lget ser s in
  h_kprint h = sys_kprint_handler -> log_ready se -> 0 < buf -> buf + 512 <= USER_SPACE_END ->
  render (Datatypes.S (length f)) strs f args = Some out -> (length out <= 510)%nat ->
  Forall (fun c => 0 < c < 256) out -> Forall (fun a => 0 <= a < 2 ^ 64) args -> fstate buf 512 strs (se_mem se) fmt f ->
  exists se' fr, u_printf buf fmt args s = Ok (tt, lset frame fr (lset ser se' s)) /\ log_ready se' /\
    logged se' = recent (logged se ++ crlf out) /\ se_mem se' = upd (se_mem se) buf (out ++ [0]).
Proof.
  intros se Hh [Hhart Hl Hs] Hb Hend Hr Hn Ho Ha Hf. unfold USER_SPACE_END in Hend.
  pose proof (vsnprintf_spec (se_mem se) buf 512 fmt f strs args out Hr ltac:(lia) Ha Hf) as E.
  set (s1 := set_se_mem (upd (se_mem se) buf (out ++ [0])) se).
  destruct (sys_kprint_ok s1 tmp_buf fmt_high fmt_cross buf out Hhart Hl Hs ltac:(lia)) as (s2 & E2 & Hlog & Hm & Eh & Hl2 & Hs2);
    [split; [apply upd_cells|done]|lia|unfold USER_SPACE_END; lia|].
  exists s2, (mkFrame 0 buf 0). split; [|split; [split; [by rewrite Eh|done|done]|done]].
  unfold u_printf. rewrite (bind_ok _ _ _ (Z.of_nat (length out)) (lset ser s1 s)) by (unfold on_serial, on_mem; fold se; by rewrite E).
  unfold u_print, bind at 1.
  rewrite (syscall_runs frame h report frame_addr 1 (h_kprint h) buf 0 0 _ 0 (lset frame (mkFrame 1 buf 0) (lset ser s2 s))).
  - cbn. rewrite lset_lset, lget_lset. done.
  - done.
  - rewrite Hh. unfold sys_kprint_handler, bind, gets, on_serial. rewrite lget_lset, lget_lset_l, lget_lset. cbn [rdi].
    rewrite E2. by rewrite lset_comm, lset_lset.
Qed.

(** C27: [u_printf] from the user task to the log: when the format and its
    arguments denote a text of at most 510 characters, none of them NUL, and the
    array of [u_printf] is in user space, the text arrives in the kernel's log
    with its newlines expanded, and nothing else does. *)
Theorem u_printf_correct s buf fmt f strs args out :
  let se := lget ser s in
  h_kprint h = sys_kprint_handler -> log_ready se -> 0 < buf -> buf + 512 <= USER_SPACE_END ->
  render (Datatypes.S (length f)) strs f args = Some out -> (length out <= 510)%nat ->
  Forall (fun c => 0 < c < 256) out -> Forall (fun a => 0 <= a < 2 ^ 64) args -> fstate buf 512 strs (se_mem se) fmt f ->
  exists s', u_printf buf fmt args s = Ok (tt, s') /\ logged (lget ser s') = recent (logged se ++ crlf out).
Proof.
  intros se Hh Hlr Hb Hend Hr Hn Ho Ha Hf.
  destruct (u_printf_spec s buf fmt f strs args out Hh Hlr Hb Hend Hr Hn Ho Ha Hf) as (se' & fr & E & _ & Hlog & _).
  eexists. split; [exact E|]. by rewrite lget_lset_l, lget_lset.
Qed.
End uprintf.

(** ** A state *)

Record ustate := mkU { u_serial : serial; u_frame : iframe }.

Definition serial_of : lens ustate serial := Lens u_serial (fun x s => mkU x (u_frame s)).
Definition frame_of : lens ustate iframe := Lens u_frame (fun f s => mkU (u_serial s) f).
#[export] Instance serial_of_ok : LensOk serial_of.
Proof. split; intros; try destruct s; done. Qed.
#[export] Instance frame_of_ok : LensOk frame_of.
Proof. split; intros; try destruct s; done. Qed.
#[export] Instance ustate_indep : LensIndep serial_of frame_of.
Proof. by split. Qed.

(** u_printf("%d%%\n", 42) of a task whose array is at address 16. *)
Definition quiet_handlers {S} (k : M S Z) : @handlers S :=
  {| h_kprint := k; h_exit := ret 0; h_get_uptime := ret 0; h_sleep := ret 0; h_yield := ret 0; h_kbd := ret 0; h_kprint_hex := ret 0;
     h_cpu_id := ret 0; h_malloc := ret 0; h_free := ret 0; h_get_tid := ret 0; h_cpu_count := ret 0 |}.

Definition kprint_service : M ustate Z := sys_kprint_handler serial_of frame_of 0x8000 0x9000 0x9100.

Lemma u_printf_correct_witness :
  exists s', u_printf serial_of frame_of (quiet_handlers kprint_service) (fun _ => ret tt) 0 16 528 [42] (mkU (log_demo []) (mkFrame 0 0 0)) = Ok (tt, s') /\
    logged (u_serial s') = recent (logged (log_demo []) ++ crlf [52; 50; 37; 10]).
Proof.
  refine (u_printf_correct serial_of frame_of 0x8000 0x9000 0x9100 (quiet_handlers kprint_service) (fun _ => ret tt) 0
    (mkU (log_demo []) (mkFrame 0 0 0)) 16 528 [37; 100; 37; 37; 10] (fun _ => None) [42] [52; 50; 37; 10]
    eq_refl _ eq_refl ltac:(discriminate) eq_refl ltac:(simpl; lia)
    ltac:(repeat constructor; lia) ltac:(repeat constructor; lia) _).
  - split; [by eexists|reflexivity|exact (log_demo_ok [])].
  - split; [apply cstr_decide; by vm_compute|right; simpl; lia|done|apply owned_decide; by vm_compute].
Defined.
