(* ===== verification/Elf.v ===== *)
(** * ELF loader

    Models [kernel/fs/elf.c], with the structures of [common/elf_info.h], over
    the memory of [Strings] and the memory areas and heap fields of [Syscall].

    - The task being loaded is the address space and the heap fields of
      [proc]; the translation of its pages is [env_translate] of the areas'
      environment.
    - The message a failed segment prints is not part of the state. *)

From S2P Require Import Prelude Lock Strings Tar Acpi Vma Syscall.

(** ** Data *)

(** ["\x7F" "ELF"] *)
Definition elf_magic : list Z := [0x7F; 69; 76; 70].
Definition PT_LOAD : Z := 1.
Definition PF_X : Z := 1.
Definition PF_W : Z := 2.
Definition PF_R : Z := 4.

Definition Elf64_Ehdr : layout :=
  [("e_ident", 16); ("e_type", 2); ("e_machine", 2); ("e_version", 4); ("e_entry", 8); ("e_phoff", 8); ("e_shoff", 8);
   ("e_flags", 4); ("e_ehsize", 2); ("e_phentsize", 2); ("e_phnum", 2); ("e_shentsize", 2); ("e_shnum", 2);
   ("e_shstrndx", 2)]%string.
Definition Elf64_Phdr : layout :=
  [("p_type", 4); ("p_flags", 4); ("p_offset", 8); ("p_vaddr", 8); ("p_paddr", 8); ("p_filesz", 8); ("p_memsz", 8);
   ("p_align", 8)]%string.

Definition off_entry : Z := Eval vm_compute in offset_of Elf64_Ehdr "e_entry".
Definition off_phoff : Z := Eval vm_compute in offset_of Elf64_Ehdr "e_phoff".
Definition off_phnum : Z := Eval vm_compute in offset_of Elf64_Ehdr "e_phnum".
Definition sizeof_phdr : Z := Eval vm_compute in sizeof Elf64_Phdr.

(** The fields of [Elf64_Phdr] the loader reads of a segment to load *)
Record phdr := mkPhdr { p_flags : Z; p_offset : Z; p_vaddr : Z; p_filesz : Z; p_memsz : Z }.

Section loader.
Context {E : Type} `{VmaEnv E}.

(** The task being loaded and the memory. *)
Definition loader : Type := @proc E * mem.

Definition on_task {A} (m : M proc A) : M loader A := fun s =>
  match m s.1 with
  | Ok (a, p) => Ok (a, (p, s.2))
  | Fault => Fault
  | Panic => Panic
  | Hang => Hang
  end.
Definition on_bytes {A} (m : M mem A) : M loader A := fun s =>
  match m s.2 with
  | Ok (a, x) => Ok (a, (s.1, x))
  | Fault => Fault
  | Panic => Panic
  | Hang => Hang
  end.

(** ** Operations *)

(** [while (copied < filesz)]: every turn copies at least one byte *)
Fixpoint copy_loop (fuel : nat) (pml4 vaddr src filesz copied : Z) : M loader unit :=
  if negb (copied <? filesz) then ret tt else
  match fuel with
  | O => hang
  | S fuel =>
    let curr_vaddr := w64 (vaddr + copied) in
    let offset := curr_vaddr mod PAGE_SIZE in
    let to_copy := PAGE_SIZE - offset in
    let to_copy := if filesz - copied <? to_copy then filesz - copied else to_copy in
    dest_phys <- on_task (on_vm (on_env (env_translate pml4 curr_vaddr))) ;;
    if dest_phys =? 0 then ret tt else
    let dest_virt := w64 (phys_to_virt dest_phys + offset) in
    on_bytes (memcpy dest_virt (src + copied) to_copy) ;;;
    copy_loop fuel pml4 vaddr src filesz (copied + to_copy)
  end.

Definition elf_copy_segment (vaddr src filesz : Z) : M loader unit :=
  cr3 <- on_task (on_vm (on_mm (gets t_cr3))) ;;
  pml4 <- on_task (on_vm (on_env (env_get_table cr3))) ;;
  copy_loop (Z.to_nat filesz) pml4 vaddr src filesz 0.

Definition read_phdr (p : Z) : M loader phdr :=
  let at_ := offset_of Elf64_Phdr in
  fl <- on_bytes (load32 (p + at_ "p_flags")) ;;
  off <- on_bytes (load64 (p + at_ "p_offset")) ;;
  va <- on_bytes (load64 (p + at_ "p_vaddr")) ;;
  fs <- on_bytes (load64 (p + at_ "p_filesz")) ;;
  ms <- on_bytes (load64 (p + at_ "p_memsz")) ;;
  ret (mkPhdr fl off va fs ms).

(** [uint32_t vma_flags], of [p_flags] *)
Definition segment_flags (f : Z) : Z :=
  let v := VMA_USER in
  let v := if negb (Z.land f PF_R =? 0) then Z.lor v VMA_READ else v in
  let v := if negb (Z.land f PF_W =? 0) then Z.lor v VMA_WRITE else v in
  if negb (Z.land f PF_X =? 0) then Z.lor v VMA_EXEC else v.

(** [for (int i = 0; i < e_phnum; i++)], [k] headers left at [p]: the end of
    the highest segment, or nothing when a segment could not be mapped *)
Fixpoint load_segments (k : nat) (elf_data p max_vaddr : Z) : M loader (option Z) :=
  match k with
  | O => ret (Some max_vaddr)
  | S k =>
    ty <- on_bytes (load32 (p + offset_of Elf64_Phdr "p_type")) ;;
    if ty =? PT_LOAD then
      h <- read_phdr p ;;
      res <- on_task (on_vm (vma_map (p_vaddr h) (p_memsz h) (segment_flags (p_flags h)))) ;;
      if negb (res =? 0) then ret None else
      when (0 <? p_filesz h) (elf_copy_segment (p_vaddr h) (w64 (elf_data + p_offset h)) (p_filesz h)) ;;;
      let seg_end := w64 (p_vaddr h + p_memsz h) in
      load_segments k elf_data (p + sizeof_phdr) (if max_vaddr <? seg_end then seg_end else max_vaddr)
    else load_segments k elf_data (p + sizeof_phdr) max_vaddr
  end.

Definition elf_load (elf_data : Z) : M loader Z :=
  d <- on_bytes (memcmp_lit elf_data elf_magic) ;;
  if negb (d =? 0) then ret 0 else
  e_phoff <- on_bytes (load64 (elf_data + off_phoff)) ;;
  e_phnum <- on_bytes (load_le 2 (elf_data + off_phnum)) ;;
  m <- load_segments (Z.to_nat e_phnum) elf_data (w64 (elf_data + e_phoff)) 0 ;;
  match m with
  | None => ret 0
  | Some max_vaddr =>
    let start := Z.land (w64 (max_vaddr + PAGE_SIZE)) (w64 (Z.lnot (PAGE_SIZE - 1))) in
    on_task (modify (fun s => (s.1, mkHeap start start (w64 (start + 4 * PAGE_SIZE))))) ;;;
    _ <- on_task (on_vm (vma_map start (4 * PAGE_SIZE) HEAP_FLAGS)) ;;
    on_bytes (load64 (elf_data + off_entry))
  end.

(** ** Copying a segment *)

(** elf_copy_segment places the first page of a segment at its offset in
    the page counted twice: the translation of an address already includes
    the offset of the address in its page, and the copy adds it again. For a
    segment within one page, whose page the translation maps to a frame, the
    bytes end up 2 * (vaddr mod 4096) into the direct map of the frame. So a
    segment that starts on a page boundary is copied to where its task will
    read it, and any other one is not. *)
Theorem elf_copy_segment_offset (s : loader) vaddr src l cr3 pml4 frame :
  let o := vaddr mod PAGE_SIZE in
  let m := s.2 in
  t_cr3 s.1.1.2 = cr3 -> env_get_table cr3 s.1.1.1 = Ok (pml4, s.1.1.1) ->
  env_translate pml4 vaddr s.1.1.1 = Ok (frame + o, s.1.1.1) ->
  0 <= vaddr < 2 ^ 47 -> 0 < frame < 2 ^ 46 -> o + Z.of_nat (length l) <= PAGE_SIZE -> l <> [] ->
  cells m src l -> owned m (HHDM_OFFSET + frame + 2 * o) (length l) ->
  HHDM_OFFSET + frame + 2 * o <= src \/ src + Z.of_nat (length l) <= HHDM_OFFSET + frame + 2 * o ->
  elf_copy_segment vaddr src (Z.of_nat (length l)) s = Ok (tt, (s.1, upd m (HHDM_OFFSET + frame + 2 * o) l)) /\
  (HHDM_OFFSET + frame + 2 * o = phys_to_virt (frame + o) <-> o = 0).
Proof.
  intros o m Hcr Ht Htr Hv Hf Hfit Hne Hc Ho Hd.
  assert (0 <= o < PAGE_SIZE) as Hor by (by apply Z.mod_pos_bound).
  assert (0 < Z.of_nat (length l)) as Hl by (destruct l; [done|simpl; lia]).
  assert (phys_to_virt (frame + o) = HHDM_OFFSET + frame + o) as Hp.
  { unfold phys_to_virt. rewrite w64_small; [lia|]. unfold HHDM_OFFSET, PAGE_SIZE in *. lia. }
  split; [|rewrite Hp; lia].
  destruct s as [[[e x] h] m']. cbn [fst snd] in *. unfold elf_copy_segment.
  rewrite (bind_ok _ _ _ cr3 (e, x, h, m')) by (unfold on_task, on_vm, on_mm, gets; simpl; by rewrite Hcr).
  rewrite (bind_ok _ _ _ pml4 (e, x, h, m')) by (unfold on_task, on_vm, on_env; simpl; by rewrite Ht).
  rewrite Nat2Z.id. destruct (length l) as [|n] eqn:Hlen; [simpl in Hl; lia|]. rewrite <-Hlen in *. 
  rewrite Hlen at 1. cbn [copy_loop]. destruct (Z.ltb_spec 0 (Z.of_nat (length l))); [|lia]. cbn [negb]. cbv zeta.
  rewrite Z.add_0_r, (w64_small vaddr) by lia. fold o.
  rewrite (bind_ok _ _ _ (frame + o) (e, x, h, m')) by (unfold on_task, on_vm, on_env; simpl; by rewrite Htr).
  rewrite (proj2 (Z.eqb_neq (frame + o) 0)) by lia. rewrite Z.sub_0_r, Hp, !Z.add_0_r.
  assert ((if Z.of_nat (length l) <? PAGE_SIZE - o then Z.of_nat (length l) else PAGE_SIZE - o) = Z.of_nat (length l)) as ->
    by (case_bool; lia).
  rewrite w64_small by (unfold HHDM_OFFSET, PAGE_SIZE in *; lia).
  replace (HHDM_OFFSET + frame + o + o) with (HHDM_OFFSET + frame + 2 * o) by lia.
  rewrite (bind_ok _ _ _ (HHDM_OFFSET + frame + 2 * o) (e, x, h, upd m' (HHDM_OFFSET + frame + 2 * o) l)).
  2:{ unfold on_bytes. cbn [snd fst]. by rewrite memcpy_spec. }
  rewrite Z.add_0_l. destruct n; cbn [copy_loop]; (destruct (Z.ltb_spec (Z.of_nat (length l)) (Z.of_nat (length l))); [lia|done]).
Qed.

(** A file that does not start with the ELF magic is refused, with nothing
    changed; and when elf_load answers an entry point, the heap it gave the
    task is empty, page-aligned and four pages long, right for sys_malloc,
    unless the segments reach the top of the user half. *)
Theorem elf_load_heap (s : loader) elf_data :
  (forall l, cells s.2 elf_data l -> length l = 4%nat -> l <> elf_magic -> elf_load elf_data s = Ok (0, s)) /\
  (forall entry s', elf_load elf_data s = Ok (entry, s') -> entry <> 0 ->
     let h := s'.1.2 in heap_curr h = heap_start h /\
       (0 < heap_start h < 2 ^ 46 -> heap_ok h /\ heap_end h = heap_start h + 4 * PAGE_SIZE)).
Proof.
  split.
  - intros l Hc Hl Hne. unfold elf_load. erewrite bind_ok.
    2:{ unfold on_bytes. by rewrite (memcmp_lit_spec _ _ l elf_magic Hc Hl). }
    rewrite (proj2 (Z.eqb_neq _ _)) by (by rewrite lex_eq). cbn [negb]. by destruct s.
  - intros entry s' El Hne. unfold elf_load in El.
    apply bind_inv in El as (d & s1 & _ & El). destruct (negb (d =? 0)); [by injection El as <- <-|].
    apply bind_inv in El as (off & s2 & _ & El). apply bind_inv in El as (num & s3 & _ & El).
    apply bind_inv in El as ([mx|] & s4 & _ & El); [|by injection El as <- <-].
    cbv zeta in El. set (start := Z.land (w64 (mx + PAGE_SIZE)) (w64 (Z.lnot (PAGE_SIZE - 1)))) in El.
    apply bind_inv in El as ([] & s5 & E5 & El). injection E5 as <-.
    apply bind_inv in El as (r & s6 & E6 & El).
    assert (s'.1.2 = mkHeap start start (w64 (start + 4 * PAGE_SIZE))) as ->.
    { unfold on_task, on_vm in E6. cbn [fst snd] in E6. destruct (vma_map _ _ _ _) as [[? ?]| | |]; try done.
      injection E6 as _ <-. unfold on_bytes in El. cbn [fst snd] in El.
      destruct (load64 _ _) as [[? ?]| | |]; try done. injection El as _ <-. done. }
    cbv zeta. cbn [heap_curr heap_start heap_end]. split; [done|]. intros Hst.
    assert (start mod PAGE_SIZE = 0) as Hal.
    { unfold start, PAGE_SIZE. change (4096 - 1) with (Z.ones 12). rewrite land_lnot_ones by (lia || apply w64_range).
      change (2 ^ 12) with 4096. apply Z.mod_divide; [lia|]. exists (w64 (mx + 4096) / 4096).
      pose proof (Z.div_mod (w64 (mx + 4096)) 4096). lia. }
    rewrite w64_small by (unfold PAGE_SIZE; lia). split; [|done].
    split; cbn [heap_curr heap_start heap_end].
    + unfold PAGE_SIZE. lia.
    + unfold PAGE_SIZE in Hal. Z.div_mod_to_equations; lia.
    + unfold PAGE_SIZE in *. Z.div_mod_to_equations; lia.
    + unfold PAGE_SIZE. lia.
Qed.
End loader.

(** ** Witnesses *)

(** Services whose page tables map every page to one frame *)
#[local] Instance elf_env : VmaEnv Z := {|
  env_lock := ret tt; env_unlock := ret tt;
  env_kmalloc := fun _ => (e <- get ;; put (e + 0x100) ;;; ret e); env_kfree := fun _ => ret tt;
  env_alloc_frames := fun _ => ret 0x200000; env_free_frame := fun _ => ret tt;
  env_zero := fun _ _ => ret tt; env_get_table := fun cr3 => ret (phys_to_virt cr3);
  env_map_range := fun _ _ _ _ _ => ret tt; env_translate := fun _ v => ret (0x200000 + v mod PAGE_SIZE);
  env_unmap := fun _ _ => ret tt; env_sync_tlb := ret tt; env_destroy := fun _ _ => ret tt |}.

(** Three bytes of a file at 0x100, to be loaded at 0x400010 *)
Definition elf_mem : mem :=
  bytes_at 0x100 [1; 2; 3] ∪ bytes_at (HHDM_OFFSET + 0x200000) (replicate 64 0).
Definition elf_state : loader := ((0x8000, mkMm ∅ NULL NULL 0 0x1000), mkHeap 0 0 0, elf_mem).

Lemma elf_copy_segment_offset_witness :
  elf_copy_segment 0x400010 0x100 3 elf_state =
    Ok (tt, (elf_state.1, upd elf_mem (HHDM_OFFSET + 0x200000 + 2 * (0x400010 mod PAGE_SIZE)) [1; 2; 3])).
Proof.
  refine (proj1 (elf_copy_segment_offset elf_state 0x400010 0x100 [1; 2; 3] 0x1000 (phys_to_virt 0x1000) 0x200000
    eq_refl eq_refl eq_refl ltac:(lia) ltac:(lia) ltac:(by vm_compute) ltac:(done)
    ltac:(apply cells_decide; by vm_compute) ltac:(apply owned_decide; by vm_compute) _)).
  right. by vm_compute.
Defined.

Lemma elf_load_heap_witness : elf_load 0x100 (elf_state.1, bytes_at 0x100 [1; 2; 3; 4]) = Ok (0, (elf_state.1, bytes_at 0x100 [1; 2; 3; 4])).
Proof.
  exact (proj1 (elf_load_heap (elf_state.1, bytes_at 0x100 [1; 2; 3; 4]) 0x100) [1; 2; 3; 4]
    ltac:(apply cells_decide; by vm_compute) eq_refl ltac:(done)).
Defined.
