(* ===== verification/Task.v ===== *)
(** * Creation and removal of tasks

    Models [kernel/arch/x86_64/sched/context.c] and the parts of
    [kernel/sched/sched.c] that make and remove tasks: [create_idle_struct],
    [sched_init], [sched_init_ap] and [sched_reap].

    - [kernel] puts the scheduler ([Sched]) beside the list of all tasks
      ([root_task]), the descriptors of the memory areas of all tasks
      ([k_areas]), the byte memory with the kernel stacks ([k_mem]) and the
      services of [TaskEnv]: the heap, the page tables, the mutexes and the
      log.
    - A routine of [Vma] runs on the fields of one task ([with_vm]), a loader
      of [Elf] also on its heap fields and the memory ([with_loader]).
    - A task structure comes into being when it is zeroed and is gone once it
      is given back to the heap, so that its later use is a [Fault]. *)

From S2P Require Import Prelude Lock Chain Sched Strings Acpi Vma Syscall Elf.

(** ** Data *)

(** [sizeof(task_t)]: 400 bytes of fields, aligned to 64 *)
Definition sizeof_task : Z := 448.

Definition interrupt_frame_t : layout :=
  [("r15", 8); ("r14", 8); ("r13", 8); ("r12", 8); ("r11", 8); ("r10", 8); ("r9", 8); ("r8", 8);
   ("rdi", 8); ("rsi", 8); ("rbp", 8); ("rbx", 8); ("rdx", 8); ("rcx", 8); ("rax", 8);
   ("vector_number", 8); ("error_code", 8);
   ("rip", 8); ("cs", 8); ("rflags", 8); ("rsp", 8); ("ss", 8)]%string.
Definition sizeof_frame : Z := Eval vm_compute in sizeof interrupt_frame_t.

(** [memset(t, 0, sizeof(task_t))] *)
Definition zero_task : task :=
  mkTask 0 0 0 0 TASK_READY REASON_KEYBOARD false 0 NULL NULL 0 0 0 0 NULL NULL NULL 0 0 0 0.

Definition set_next (v : Z) (r : task) : task :=
  mkTask (tid r) (rsp r) (stack_base r) (stack_size r) (state r) (wait_reason r) (is_user r) (cr3 r)
    (vma_tree_root r) (vma_list_head r) (Sched.vma_count r) (Sched.heap_start r) (Sched.heap_curr r)
    (Sched.heap_end r) v (prev r) (sched_next r) (priority r) (base_priority r) (task_cpu r)
    (sleep_until r).
Definition set_prev (v : Z) (r : task) : task :=
  mkTask (tid r) (rsp r) (stack_base r) (stack_size r) (state r) (wait_reason r) (is_user r) (cr3 r)
    (vma_tree_root r) (vma_list_head r) (Sched.vma_count r) (Sched.heap_start r) (Sched.heap_curr r)
    (Sched.heap_end r) (next r) v (sched_next r) (priority r) (base_priority r) (task_cpu r)
    (sleep_until r).
Definition set_tid (v : Z) (r : task) : task :=
  mkTask v (rsp r) (stack_base r) (stack_size r) (state r) (wait_reason r) (is_user r) (cr3 r)
    (vma_tree_root r) (vma_list_head r) (Sched.vma_count r) (Sched.heap_start r) (Sched.heap_curr r)
    (Sched.heap_end r) (next r) (prev r) (sched_next r) (priority r) (base_priority r) (task_cpu r)
    (sleep_until r).
Definition set_stack_base (v : Z) (r : task) : task :=
  mkTask (tid r) (rsp r) v (stack_size r) (state r) (wait_reason r) (is_user r) (cr3 r)
    (vma_tree_root r) (vma_list_head r) (Sched.vma_count r) (Sched.heap_start r) (Sched.heap_curr r)
    (Sched.heap_end r) (next r) (prev r) (sched_next r) (priority r) (base_priority r) (task_cpu r)
    (sleep_until r).
Definition set_stack_size (v : Z) (r : task) : task :=
  mkTask (tid r) (rsp r) (stack_base r) v (state r) (wait_reason r) (is_user r) (cr3 r)
    (vma_tree_root r) (vma_list_head r) (Sched.vma_count r) (Sched.heap_start r) (Sched.heap_curr r)
    (Sched.heap_end r) (next r) (prev r) (sched_next r) (priority r) (base_priority r) (task_cpu r)
    (sleep_until r).
Definition set_base_priority (v : Z) (r : task) : task :=
  mkTask (tid r) (rsp r) (stack_base r) (stack_size r) (state r) (wait_reason r) (is_user r) (cr3 r)
    (vma_tree_root r) (vma_list_head r) (Sched.vma_count r) (Sched.heap_start r) (Sched.heap_curr r)
    (Sched.heap_end r) (next r) (prev r) (sched_next r) (priority r) v (task_cpu r) (sleep_until r).
Definition set_is_user (v : bool) (r : task) : task :=
  mkTask (tid r) (rsp r) (stack_base r) (stack_size r) (state r) (wait_reason r) v (cr3 r)
    (vma_tree_root r) (vma_list_head r) (Sched.vma_count r) (Sched.heap_start r) (Sched.heap_curr r)
    (Sched.heap_end r) (next r) (prev r) (sched_next r) (priority r) (base_priority r) (task_cpu r)
    (sleep_until r).
Definition set_cr3 (v : Z) (r : task) : task :=
  mkTask (tid r) (rsp r) (stack_base r) (stack_size r) (state r) (wait_reason r) (is_user r) v
    (vma_tree_root r) (vma_list_head r) (Sched.vma_count r) (Sched.heap_start r) (Sched.heap_curr r)
    (Sched.heap_end r) (next r) (prev r) (sched_next r) (priority r) (base_priority r) (task_cpu r)
    (sleep_until r).
Definition set_vm (m : mm) (r : task) : task :=
  mkTask (tid r) (rsp r) (stack_base r) (stack_size r) (state r) (wait_reason r) (is_user r) (t_cr3
    m) (tree_root m) (list_head m) (Vma.vma_count m) (Sched.heap_start r) (Sched.heap_curr r)
    (Sched.heap_end r) (next r) (prev r) (sched_next r) (priority r) (base_priority r) (task_cpu r)
    (sleep_until r).
Definition set_heap (h : uheap) (r : task) : task :=
  mkTask (tid r) (rsp r) (stack_base r) (stack_size r) (state r) (wait_reason r) (is_user r) (cr3 r)
    (vma_tree_root r) (vma_list_head r) (Sched.vma_count r) (Syscall.heap_start h)
    (Syscall.heap_curr h) (Syscall.heap_end h) (next r) (prev r) (sched_next r) (priority r)
    (base_priority r) (task_cpu r) (sleep_until r).

(** The services the creation of tasks uses beside those of the areas. *)
Class TaskEnv (E : Type) := {
  #[global] task_vma_env :: VmaEnv E;
  env_create_user_pml4 : M E Z;                      (* vmm_create_user_pml4 *)
  env_kprintf : string -> Z -> M E unit;             (* kprintf, with one %d *)
}.

(** ** The state *)

Section kernel.
Context {E : Type} `{TaskEnv E}.

Record kernel := mkKernel {
  k_sched : sched;
  k_env : E;
  k_areas : gmap Z vma_area;
  k_mem : mem;
  root_task : Z;
  next_tid : Z;
  sched_lock_ : spinlock;
}.

Definition set_k_sched (v : sched) (k : kernel) : kernel :=
  mkKernel v (k_env k) (k_areas k) (k_mem k) (root_task k) (next_tid k) (sched_lock_ k).
Definition set_root_task (v : Z) (k : kernel) : kernel :=
  mkKernel (k_sched k) (k_env k) (k_areas k) (k_mem k) v (next_tid k) (sched_lock_ k).
Definition set_next_tid (v : Z) (k : kernel) : kernel :=
  mkKernel (k_sched k) (k_env k) (k_areas k) (k_mem k) (root_task k) v (sched_lock_ k).

#[export] Instance kernel_hart : HasHart kernel := Lens
  (fun k => lget hart_of (k_sched k)) (fun h k => set_k_sched (lset hart_of h (k_sched k)) k).
#[export] Instance kernel_hart_ok : HasHartOk kernel.
Proof. split; intros; try destruct s as [[] ? ? ? ? ? ?]; done. Qed.

Definition sched_lock : lens kernel spinlock := Lens sched_lock_
  (fun l k => mkKernel (k_sched k) (k_env k) (k_areas k) (k_mem k) (root_task k) (next_tid k) l).
#[export] Instance sched_lock_ok : LensOk sched_lock.
Proof. split; by intros; try destruct s. Qed.
#[export] Instance sched_lock_indep : LensIndep sched_lock hart_of.
Proof. by split. Qed.

(** A routine of a component, run beside the rest of the state. *)
Definition within {T A} (part : kernel -> T) (put_back : T -> kernel -> kernel) (m : M T A) : M kernel A := fun k =>
  match m (part k) with
  | Ok (a, t) => Ok (a, put_back t k)
  | Fault => Fault
  | Panic => Panic
  | Hang => Hang
  end.

Definition on_sched {A} : M sched A -> M kernel A := within k_sched set_k_sched.
Definition on_services {A} : M E A -> M kernel A := within k_env
  (fun e k => mkKernel (k_sched k) e (k_areas k) (k_mem k) (root_task k) (next_tid k) (sched_lock_ k)).
Definition on_kmem {A} : M mem A -> M kernel A := within k_mem
  (fun m k => mkKernel (k_sched k) (k_env k) (k_areas k) m (root_task k) (next_tid k) (sched_lock_ k)).

(** The address space of task [tk] *)
Definition vm_of (k : kernel) (tk : task) : E * mm :=
  (k_env k, mkMm (k_areas k) (vma_tree_root tk) (vma_list_head tk) (Sched.vma_count tk) (cr3 tk)).
Definition put_vm (t : Z) (tk : task) (x : E * mm) (k : kernel) : kernel :=
  mkKernel (set_tasks (<[t := set_vm x.2 tk]> (tasks (k_sched k))) (k_sched k)) x.1 (areas x.2) (k_mem k)
    (root_task k) (next_tid k) (sched_lock_ k).
Definition with_vm {A} (t : Z) (m : M (E * mm) A) : M kernel A :=
  tk <- on_sched (get_task t) ;;
  within (fun k => vm_of k tk) (put_vm t tk) m.

(** Its address space, heap fields and the memory *)
Definition with_loader {A} (t : Z) (m : M loader A) : M kernel A :=
  tk <- on_sched (get_task t) ;;
  within (fun k => (vm_of k tk, mkHeap (Sched.heap_start tk) (Sched.heap_curr tk) (Sched.heap_end tk), k_mem k))
    (fun x k =>
       let k' := put_vm t (set_heap x.1.2 tk) x.1.1 k in
       mkKernel (k_sched k') (k_env k') (k_areas k') x.2 (root_task k') (next_tid k') (sched_lock_ k')) m.

Definition upd_at (t : Z) (f : task -> task) : M kernel unit := on_sched (upd_task t f).
Definition kmalloc (size : Z) : M kernel Z := on_services (env_kmalloc size).
Definition kfree (p : Z) : M kernel unit := on_services (env_kfree p).
Definition read_cr3 : M kernel Z := gets (fun k => cr3_reg (k_sched k)).

(** [memset(t, 0, sizeof(task_t))] *)
Definition zero_task_at (t : Z) : M kernel unit :=
  if t =? NULL then fault else
  on_sched (modify (fun s => set_tasks (<[t := zero_task]> (tasks s)) s)).

(** [kfree(t)] of a task structure *)
Definition free_task (t : Z) : M kernel unit :=
  kfree t ;;; on_sched (modify (fun s => set_tasks (delete t (tasks s)) s)).

(** A 64-bit store, and the store to a field of the frame at [frame] *)
Fixpoint store_bytes (a : Z) (l : list Z) : M mem unit :=
  match l with
  | [] => ret tt
  | v :: l => store8 a v ;;; store_bytes (a + 1) l
  end.
Definition store64 (a v : Z) : M mem unit := store_bytes a (le 8 v).
Definition set_field (frame : Z) (field : string) (v : Z) : M kernel unit :=
  on_kmem (store64 (frame + offset_of interrupt_frame_t field) v).

(** ** Creation of tasks *)

Definition task_alloc_base : M kernel Z :=
  t <- kmalloc sizeof_task ;;
  if t =? NULL then ret NULL else
  zero_task_at t ;;;
  with_vm t (on_mm vma_init_task) ;;;
  upd_at t (set_stack_size (4 * PAGE_SIZE)) ;;;
  base <- kmalloc (4 * PAGE_SIZE) ;;
  upd_at t (set_stack_base base) ;;;
  if base =? NULL then free_task t ;;; ret NULL else
  _ <- on_kmem (memset base 0 (4 * PAGE_SIZE)) ;;
  upd_at t (set_task_cpu NO_CPU) ;;;
  upd_at t (set_state TASK_READY) ;;;
  id <- gets next_tid ;;
  modify (set_next_tid (w64 (id + 1))) ;;;
  upd_at t (set_tid id) ;;;
  upd_at t (set_priority PRIO_NORMAL) ;;;
  upd_at t (set_base_priority PRIO_NORMAL) ;;;
  ret t.

(** The insertion into the list of all tasks in [task_register]: [t] in front
    of the root, at the end of the circle *)
Definition ring_insert (t : Z) : M kernel unit :=
  head <- gets root_task ;;
  hd <- on_sched (get_task head) ;;
  let tail := prev hd in
  upd_at t (set_next head) ;;;
  upd_at t (set_prev tail) ;;;
  upd_at tail (set_next t) ;;;
  upd_at head (set_prev t).

Definition task_register (t : Z) : M kernel unit :=
  critical sched_lock (ring_insert t) ;;;
  upd_at t (set_task_cpu NO_CPU) ;;;
  on_sched (cpu <- get_cpu ;; enqueue_task cpu t).

(** [(t->stack_base + t->stack_size) & ~0x0FULL] *)
Definition stack_top (t : task) : Z := Z.land (w64 (stack_base t + stack_size t)) (w64 (Z.lnot 0x0F)).

(** The frame at the top of the kernel stack of [t]: [memset], the segments,
    the flags and the stack pointer, then [t->rsp = frame;] *)
Definition make_frame (t rip cs ss sp : Z) : M kernel unit :=
  tk <- on_sched (get_task t) ;;
  let frame := w64 (stack_top tk - sizeof_frame) in
  _ <- on_kmem (memset frame 0 sizeof_frame) ;;
  set_field frame "rip" rip ;;;
  set_field frame "cs" cs ;;;
  set_field frame "ss" ss ;;;
  set_field frame "rflags" 0x202 ;;;
  set_field frame "rsp" sp ;;;
  set_field frame "rbp" sp ;;;
  upd_at t (set_rsp frame).

Definition arch_task_create (entry_point : Z) : M kernel Z :=
  t <- task_alloc_base ;;
  if t =? NULL then ret NULL else
  upd_at t (set_priority PRIO_HIGH) ;;;
  upd_at t (set_base_priority PRIO_HIGH) ;;;
  upd_at t (set_is_user false) ;;;
  c3 <- read_cr3 ;;
  upd_at t (set_cr3 c3) ;;;
  tk <- on_sched (get_task t) ;;
  make_frame t entry_point 0x08 0x10 (stack_top tk) ;;;
  task_register t ;;;
  ret t.

Definition USER_CODE : Z := 0x400000.
Definition USER_HEAP : Z := 0x406000.
Definition USER_STACK : Z := 0x00007FFFFFFFF000 - 4 * PAGE_SIZE.
Definition STACK_FLAGS : Z := Z.lor (Z.lor (Z.lor VMA_READ VMA_WRITE) VMA_USER) VMA_STACK.
Definition CODE_FLAGS : Z := Z.lor (Z.lor VMA_READ VMA_EXEC) VMA_USER.

(** The page table of a new user task: [0] when there is none, and the task
    is given back *)
Definition user_space (t : Z) : M kernel Z :=
  c3 <- on_services env_create_user_pml4 ;;
  if c3 =? 0 then
    tk <- on_sched (get_task t) ;;
    kfree (stack_base tk) ;;;
    free_task t ;;;
    ret 0
  else
  upd_at t (set_cr3 c3) ;;;
  upd_at t (set_is_user true) ;;;
  ret c3.

Definition arch_task_create_user (entry_point : Z) : M kernel Z :=
  t <- task_alloc_base ;;
  if t =? NULL then ret NULL else
  c3 <- user_space t ;;
  if c3 =? 0 then ret NULL else
  r <- with_vm t (vma_map USER_CODE (4 * PAGE_SIZE) CODE_FLAGS) ;;
  if negb (r =? 0) then ret NULL else
  pml4 <- on_services (env_get_table c3) ;;
  code_phys <- on_services (env_translate pml4 USER_CODE) ;;
  _ <- on_kmem (memcpy (phys_to_virt code_phys) entry_point (4 * PAGE_SIZE)) ;;
  r <- with_vm t (vma_map USER_STACK (4 * PAGE_SIZE) STACK_FLAGS) ;;
  if negb (r =? 0) then ret NULL else
  upd_at t (set_heap (mkHeap USER_HEAP USER_HEAP (USER_HEAP + 4 * PAGE_SIZE))) ;;;
  r <- with_vm t (vma_map USER_HEAP (4 * PAGE_SIZE) HEAP_FLAGS) ;;
  if negb (r =? 0) then ret NULL else
  make_frame t USER_CODE 0x1B 0x23 (USER_STACK + 4 * PAGE_SIZE - 8) ;;;
  task_register t ;;;
  ret t.

Definition arch_task_spawn_elf (elf_raw_data : Z) : M kernel Z :=
  t <- task_alloc_base ;;
  if t =? NULL then ret NULL else
  c3 <- user_space t ;;
  if c3 =? 0 then ret NULL else
  entry <- with_loader t (elf_load elf_raw_data) ;;
  if entry =? 0 then ret NULL else
  r <- with_vm t (vma_map USER_STACK (4 * PAGE_SIZE) STACK_FLAGS) ;;
  if negb (r =? 0) then ret NULL else
  make_frame t entry 0x1B 0x23 (USER_STACK + 4 * PAGE_SIZE - 8) ;;;
  task_register t ;;;
  ret t.

(** ** Start of the scheduler *)

(** [entry] is the address of [idle_task] *)
Definition create_idle_struct (entry : Z) : M kernel Z :=
  t <- kmalloc sizeof_task ;;
  zero_task_at t ;;;
  base <- kmalloc 4096 ;;
  upd_at t (set_stack_base base) ;;;
  let top := Z.land (w64 (base + 4096)) (w64 (Z.lnot 0x0F)) in
  let frame := w64 (top - sizeof_frame - 8) in
  _ <- on_kmem (memset frame 0 sizeof_frame) ;;
  set_field frame "rip" entry ;;;
  set_field frame "cs" 0x08 ;;;
  set_field frame "rflags" 0x202 ;;;
  set_field frame "rsp" (w64 (top - 8)) ;;;
  set_field frame "ss" 0x10 ;;;
  set_field frame "vector_number" 0 ;;;
  set_field frame "error_code" 0 ;;;
  c3 <- read_cr3 ;;
  upd_at t (set_cr3 c3) ;;;
  upd_at t (set_is_user false) ;;;
  upd_at t (set_stack_size 4096) ;;;
  upd_at t (set_rsp frame) ;;;
  upd_at t (set_tid 1) ;;;
  upd_at t (set_state TASK_RUNNING) ;;;
  x <- on_sched (cpu <- get_cpu ;; get_ctx cpu) ;;
  upd_at t (set_task_cpu (ctx_id x)) ;;;
  upd_at t (set_priority PRIO_IDLE) ;;;
  with_vm t (on_mm vma_init_task) ;;;
  ret t.

Definition set_idle_task (v : Z) (x : cpu_context) : cpu_context :=
  mkCpu (ctx_id x) (kernel_stack x) (tss_rsp0 x) (current_task x) v (rq_lock x) (rq_head x) (rq_tail x)
    (rq_count x) (current_quanta x) (next_priority_boost x) (sleep_lock x) (sleeping_list x).

Definition sched_init (entry : Z) : M kernel unit :=
  cpu <- on_sched get_cpu ;;
  main_task <- kmalloc sizeof_task ;;
  zero_task_at main_task ;;;
  upd_at main_task (set_tid 0) ;;;
  with_vm main_task (on_mm vma_init_task) ;;;
  upd_at main_task (set_state TASK_RUNNING) ;;;
  upd_at main_task (set_next main_task) ;;;
  upd_at main_task (set_prev main_task) ;;;
  x <- on_sched (get_ctx cpu) ;;
  upd_at main_task (set_task_cpu (ctx_id x)) ;;;
  upd_at main_task (set_is_user false) ;;;
  c3 <- read_cr3 ;;
  upd_at main_task (set_cr3 c3) ;;;
  upd_at main_task (set_stack_size 0) ;;;
  modify (set_root_task main_task) ;;;
  on_sched (upd_ctx cpu (set_current_task main_task)) ;;;
  idle <- create_idle_struct entry ;;
  on_sched (upd_ctx cpu (set_idle_task idle)).

Definition sched_init_ap (entry : Z) : M kernel unit :=
  cpu <- on_sched get_cpu ;;
  idle <- create_idle_struct entry ;;
  on_sched (upd_ctx cpu (set_idle_task idle)) ;;;
  on_sched (x <- get_ctx cpu ;; upd_ctx cpu (set_current_task (idle_task x))).

(** ** The reaper *)

(** The unlinking of a zombie from the list of all tasks *)
Definition ring_remove (z : Z) : M kernel unit :=
  tk <- on_sched (get_task z) ;;
  let p := prev tk in
  let n := next tk in
  upd_at p (set_next n) ;;;
  upd_at n (set_prev p) ;;;
  r <- gets root_task ;;
  when (r =? z) (modify (set_root_task (if n =? z then NULL else n))).

(** The body of the loop of [sched_reap]: the next zombie *)
Definition reap_one (to_clean : Z) : M kernel Z :=
  tk <- on_sched (get_task to_clean) ;;
  let next_zombie := sched_next tk in
  critical sched_lock (ring_remove to_clean) ;;;
  tk <- on_sched (get_task to_clean) ;;
  on_services (env_kprintf "[REAPER] Cleaning up TID %d\n" (int32 (tid tk))) ;;;
  when (10 <=? tid tk) (with_vm to_clean vma_destroy_all) ;;;
  tk <- on_sched (get_task to_clean) ;;
  kfree (stack_base tk) ;;;
  free_task to_clean ;;;
  ret next_zombie.

(** [while (to_clean)] *)
Fixpoint reap_loop (fuel : nat) (to_clean : Z) : M kernel unit :=
  match fuel with
  | O => hang
  | S fuel => if to_clean =? NULL then ret tt else n <- reap_one to_clean ;; reap_loop fuel n
  end.

Definition sched_reap : M kernel unit :=
  d <- on_sched (gets dead_task_list) ;;
  if d =? NULL then ret tt else
  to_clean <- on_sched (critical dead_lock (h <- gets dead_task_list ;; modify (set_dead_task_list NULL) ;;; ret h)) ;;
  n <- on_sched list_fuel ;;
  reap_loop n to_clean.
End kernel.
