(* ===== verification/TaskRing.v ===== *)
(** * The list of all tasks

    [root_task] is the entry to a circular, doubly linked list. This file has
    the lemmas on such circles, over the segments of [Dll], and the two
    operations of [Task] on it: a new task goes to the end, a dead one is
    unlinked wherever it is. *)

From S2P Require Import Prelude Lock Chain Sched Runqueue Balance Schedule Wakeup Strings Acpi Vma Syscall Elf Dll Task.

(** ** Circles *)

(** The nodes [l] in a circle entered at [r], which is null when there are none. *)
Definition circle (lk : Z -> option (Z * Z)) (r : Z) (l : list Z) : Prop :=
  r = default NULL (head l) /\ dseg lk (default NULL (last l)) r l r /\ NoDup l.

Lemma relink_two lk x n y p u : relink (relink lk x n None 0) None 0 y p u = relink lk x n y p u.
Proof. unfold relink. destruct (lk u) as [[a b]|]; [|done]. simpl. repeat case_decide; done. Qed.

(** Both ends of a segment moved at once. *)
Lemma dseg_both lk p h l e p' e' :
  NoDup l -> l <> [] -> dseg lk p h l e -> dseg (relink lk (last l) e' (head l) p') p' h l e'.
Proof.
  intros Hnd Hne Hd. pose proof (dseg_end lk p h l e e' None 0 Hnd ltac:(done) Hd) as H1. rewrite decide_False in H1 by done.
  pose proof (dseg_prev _ _ p' _ _ _ None 0 Hnd ltac:(done) H1) as H2.
  eapply dseg_frame; [|exact H2]. intros u _. by rewrite relink_two.
Qed.

Lemma circle_frame lk lk' r l : (forall u, u ∈ l -> lk' u = lk u) -> circle lk r l -> circle lk' r l.
Proof. intros Hf (-> & Hd & Hnd). split_and!; [done| |done]. by apply (dseg_frame lk). Qed.

Lemma circle_elem lk r l u : circle lk r l -> u ∈ l -> u <> NULL /\ is_Some (lk u).
Proof. intros (_ & Hd & _). by apply dseg_elem with (1 := Hd). Qed.

(** The neighbours of a node. *)
Lemma circle_links lk r l1 a l2 : circle lk r (l1 ++ a :: l2) ->
  lk a = Some (default r (head l2), default (default NULL (last (a :: l2))) (last l1)).
Proof.
  intros (_ & Hd & _). rewrite last_app in Hd. destruct (last (a :: l2)) as [z|] eqn:El; [|by apply last_None in El].
  apply dseg_app in Hd as (m & _ & (-> & _ & n & -> & Hd)). f_equal. f_equal.
  destruct l2 as [|b l2]; [by simpl in Hd|]. by destruct Hd as [-> _].
Qed.

(** A node at the end of the circle. *)
Lemma circle_insert lk lk' r l x : circle lk r l -> l <> [] -> x ∉ l -> x <> NULL ->
  lk' x = Some (r, default NULL (last l)) ->
  (forall u, u ∈ l -> lk' u = relink lk (last l) x (head l) x u) -> circle lk' r (l ++ [x]).
Proof.
  intros (-> & Hd & Hnd) Hne Hx Hx0 Hlx Hlk. destruct l as [|a l]; [done|]. split_and!; [done| |].
  - rewrite last_snoc. apply dseg_app. exists x. split.
    + eapply dseg_frame; [exact Hlk|]. by apply (dseg_both lk (default NULL (last (a :: l))) _ _ a).
    + split_and!; [done|done|]. exists a. split; [|done]. rewrite Hlx.
      by destruct (last (a :: l)) eqn:E; [|apply last_None in E].
  - apply NoDup_app. split_and!; [done| |apply NoDup_singleton]. by intros u Hu ->%list_elem_of_singleton.
Qed.

(** Closing a segment to a circle. *)
Lemma circle_close lk lk' p h l e : dseg lk p h l e -> NoDup l -> l <> [] ->
  (forall u, u ∈ l -> lk' u = relink lk (last l) (default NULL (head l)) (head l) (default NULL (last l)) u) -> circle lk' h l.
Proof.
  intros Hd Hnd Hne Hlk. destruct l as [|a l]; [done|]. destruct Hd as (-> & Hd). split_and!; [done| |done].
  eapply dseg_frame; [exact Hlk|]. by eapply (dseg_both lk p _ _ e).
Qed.

(** Unlinking a node, given its two neighbours. *)
Lemma circle_remove lk lk' r l1 z l2 n p : circle lk r (l1 ++ z :: l2) -> lk z = Some (n, p) ->
  (forall u, u <> z -> lk' u = relink lk (Some p) n (Some n) p u) ->
  circle lk' (if r =? z then if n =? z then NULL else n else r) (l1 ++ l2) /\ (n = z <-> l1 ++ l2 = []).
Proof.
  intros Hc Hz Hlk. pose proof (circle_links _ _ _ _ _ Hc) as El. rewrite Hz in El. injection El as En Ep.
  destruct Hc as (Er & Hd & Hnd). pose proof Hnd as Hnd'. apply NoDup_app in Hnd' as (Hn1 & Hd12 & Hn2). apply NoDup_cons in Hn2 as [Hz2 Hn2].
  assert (z ∉ l1) as Hz1 by (intros Hin; apply (Hd12 z Hin); by left). apply dseg_app in Hd as (m & Hd1 & (-> & _ & n' & Hn' & Hd2)).
  assert (n' = n) as -> by congruence. clear Hn'.
  destruct l1 as [|a l1 _] using rev_ind; simpl in Er.
  - subst r. rewrite Z.eqb_refl. destruct l2 as [|b l2]; simpl in En; subst n.
    + rewrite Z.eqb_refl. by split_and!.
    + assert (b <> z) as Hbz by (intros ->; apply Hz2; by left). rewrite (proj2 (Z.eqb_neq _ _)) by done. split; [|done].
      destruct (last (b :: l2)) as [y|] eqn:Ey; [|by apply last_None in Ey]. rewrite last_cons_cons, Ey in Ep. simpl in Ep. subst y.
      rewrite app_nil_l. eapply circle_close; [exact Hd2|done|done|]. intros u Hu. rewrite Hlk, Ey by (by intros ->). done.
  - rewrite last_snoc in Ep. simpl in Ep. subst p.
    assert (r <> z) as Hrz. { rewrite Er. destruct l1 as [|c l1]; simpl; intros <-; apply Hz1; [by left|by left]. }
    rewrite (proj2 (Z.eqb_neq _ _)) by done. split; [|split; [|by destruct l1]].
    + destruct l2 as [|b l2]; simpl in En; subst n.
      * rewrite app_nil_r. eapply circle_close; [exact Hd1|done|by destruct l1|]. intros u Hu. rewrite Hlk by (by intros ->).
        rewrite last_snoc. rewrite Er. by destruct l1.
      * split_and!.
        -- rewrite Er. by destruct l1.
        -- rewrite last_app. rewrite last_app in Hd1. destruct (last (b :: l2)) as [y|] eqn:Ey; [|by apply last_None in Ey].
           rewrite last_cons, Ey in Hd1. apply dseg_app. exists b. split.
           ++ pose proof (dseg_end lk y r _ z b (Some b) a Hn1) as H1. rewrite decide_False in H1 by (by destruct l1). rewrite last_snoc in H1.
              eapply dseg_frame; [|apply H1; [|exact Hd1]].
              ** intros u Hu. apply Hlk. by intros ->.
              ** intros u Hu [= <-]. apply (Hd12 b Hu). right. by left.
           ++ rewrite last_snoc. eapply dseg_frame; [|apply (dseg_prev lk z a _ _ _ (Some a) b Hn2); [|exact Hd2]].
              ** intros u Hu. apply Hlk. by intros ->.
              ** intros u Hu [= <-]. apply (Hd12 a ltac:(apply elem_of_app; right; by left)). by right.
        -- apply NoDup_app. split_and!; [done| |done]. intros u Hu Hu2. apply (Hd12 u Hu). by right.
    + intros ->. exfalso. destruct l2 as [|b l2]; simpl in En; [congruence|]. subst b. apply Hz2. by left.
Qed.

(** ** The operations *)

(** A task's fields other than its links in the list of all tasks. *)
Definition unringed (t : task) : task := set_prev NULL (set_next NULL t).
Definition lk_of (ts : gmap Z task) (u : Z) : option (Z * Z) := (fun tk => (next tk, prev tk)) <$> ts !! u.

Section ring_ops.
Context {E : Type} `{TaskEnv E}.
Abbreviation kernel := (@kernel E).

(** States that differ in the tasks. *)
Definition kt (k : kernel) (ts : gmap Z task) : kernel := set_k_sched (set_tasks ts (k_sched k)) k.
Abbreviation ktasks k := (tasks (k_sched k)).

Lemma kt_id k : kt k (ktasks k) = k.
Proof. by destruct k as [[] ? ? ? ? ? ?]. Qed.

Lemma get_task_kt {A} k ts t tk (f : task -> M kernel A) : ts !! t = Some tk ->
  (x <- on_sched (get_task t) ;; f x) (kt k ts) = f tk (kt k ts).
Proof. intros Et. unfold bind, on_sched, within, get_task, bind, gets, deref. cbn [kt set_k_sched k_sched set_tasks tasks]. by rewrite Et. Qed.

Lemma upd_at_kt {A} k ts t tk g (f : unit -> M kernel A) : ts !! t = Some tk ->
  (x <- upd_at t g ;; f x) (kt k ts) = f tt (kt k (<[t := g tk]> ts)).
Proof.
  intros Et. unfold bind, upd_at, on_sched, within, upd_task, get_task, bind, gets, deref, modify.
  cbn [kt set_k_sched k_sched set_tasks tasks]. by rewrite Et.
Qed.

Lemma upd_at_last k ts t tk g : ts !! t = Some tk -> upd_at t g (kt k ts) = Ok (tt, kt k (<[t := g tk]> ts)).
Proof.
  intros Et. unfold upd_at, on_sched, within, upd_task, get_task, bind, gets, deref, modify.
  cbn [kt set_k_sched k_sched set_tasks tasks]. by rewrite Et.
Qed.

(** The links after the [next] of [x] and then the [prev] of [y] were set. *)
Lemma lk_relink ts x tx n y ty p u : ts !! x = Some tx -> <[x := set_next n tx]> ts !! y = Some ty ->
  lk_of (<[y := set_prev p ty]> (<[x := set_next n tx]> ts)) u = relink (lk_of ts) (Some x) n (Some y) p u.
Proof.
  intros Ex Ey. unfold lk_of, relink. destruct (decide (u = y)) as [->|Hy].
  - rewrite lookup_insert_eq. simpl. destruct (decide (x = y)) as [->|Hxy].
    + rewrite lookup_insert_eq in Ey. injection Ey as <-. rewrite Ex. simpl. by rewrite !decide_True.
    + rewrite lookup_insert_ne in Ey by done. rewrite Ey. simpl. rewrite decide_False, decide_True by congruence. done.
  - rewrite lookup_insert_ne by done. destruct (decide (u = x)) as [->|Hx].
    + rewrite lookup_insert_eq, Ex. simpl. rewrite decide_True, decide_False by congruence. done.
    + rewrite lookup_insert_ne by done. destruct (ts !! u) as [t|]; [|done]. simpl. rewrite !decide_False by congruence. done.
Qed.

Lemma unringed_two (ts : gmap Z task) x tx n y ty p u : ts !! x = Some tx -> <[x := set_next n tx]> ts !! y = Some ty ->
  unringed <$> <[y := set_prev p ty]> (<[x := set_next n tx]> ts) !! u = unringed <$> ts !! u.
Proof.
  intros Ex Ey. destruct (decide (u = y)) as [->|Hy].
  - rewrite lookup_insert_eq. destruct (decide (x = y)) as [->|Hxy].
    + rewrite lookup_insert_eq in Ey. injection Ey as <-. by rewrite Ex.
    + rewrite lookup_insert_ne in Ey by done. by rewrite Ey.
  - rewrite lookup_insert_ne by done. destruct (decide (u = x)) as [->|Hx]; [by rewrite lookup_insert_eq, Ex|by rewrite lookup_insert_ne].
Qed.

Lemma lk_some ts u : is_Some (lk_of ts u) -> exists tk, ts !! u = Some tk.
Proof. unfold lk_of. destruct (ts !! u) as [tk|]; [by exists tk|by intros []]. Qed.

Lemma ring_insert_spec k l t tk :
  circle (lk_of (ktasks k)) (root_task k) l -> l <> [] -> ktasks k !! t = Some tk -> t ∉ l -> t <> NULL ->
  exists ts', ring_insert t k = Ok (tt, kt k ts') /\ circle (lk_of ts') (root_task k) (l ++ [t]) /\
    (forall u, unringed <$> ts' !! u = unringed <$> ktasks k !! u) /\
    (forall u, u ∉ l -> u <> t -> ts' !! u = ktasks k !! u).
Proof.
  intros Hc Hne Et Hnt Ht0. set (r := root_task k) in *. set (ts := ktasks k) in *.
  assert (r ∈ l) as Hr by (destruct Hc as (-> & _); destruct l; [done|by left]).
  destruct (last l) as [q|] eqn:Eq; [|by apply last_None in Eq].
  assert (q ∈ l) as Hq by (by apply last_Some_elem_of).
  destruct (lk_some ts r (proj2 (circle_elem _ _ _ _ Hc Hr))) as [tr Er].
  assert (prev tr = q) as Ep.
  { destruct l as [|a l]; [done|]. assert (r = a) as Ea by (by destruct Hc). pose proof (circle_links _ _ [] a l Hc) as E0.
    rewrite Eq, <-Ea in E0. unfold lk_of in E0. rewrite Er in E0. by injection E0. }
  set (tk2 := set_prev q (set_next r tk)). set (ts2 := <[t := tk2]> ts).
  assert (t <> q) as Htq by (by intros ->). assert (t <> r) as Htr by (by intros ->).
  destruct (lk_some ts q (proj2 (circle_elem _ _ _ _ Hc Hq))) as [tq Eq'].
  assert (ts2 !! q = Some tq) as Eq2 by (unfold ts2; by rewrite lookup_insert_ne).
  assert (exists tr', <[q := set_next t tq]> ts2 !! r = Some tr') as [tr' Er'].
  { destruct (decide (q = r)) as [->|]; [rewrite lookup_insert_eq; eauto|]. rewrite lookup_insert_ne by done. unfold ts2. rewrite lookup_insert_ne by done. eauto. }
  exists (<[r := set_prev t tr']> (<[q := set_next t tq]> ts2)). split_and!.
  - unfold ring_insert. rewrite <-(kt_id k) at 1. fold ts. rewrite (bind_ok _ _ _ r (kt k ts)) by done.
    rewrite (get_task_kt _ _ _ tr) by done. cbv zeta. rewrite Ep.
    rewrite (upd_at_kt _ _ _ tk) by done. rewrite (upd_at_kt _ _ _ (set_next r tk)) by apply lookup_insert_eq. rewrite insert_insert_eq. fold tk2 ts2.
    rewrite (upd_at_kt _ _ _ tq) by done. by apply upd_at_last.
  - apply (circle_insert (lk_of ts)); try done.
    + unfold lk_of. rewrite !lookup_insert_ne by done. unfold ts2. rewrite lookup_insert_eq, Eq. done.
    + intros u Hu. rewrite lk_relink by done. rewrite Eq. assert (head l = Some r) as ->.
      { destruct Hc as (E0 & _). destruct l; [done|]. by rewrite E0. }
      unfold relink, lk_of, ts2. rewrite lookup_insert_ne; [done|]. by intros ->.
  - intros u. rewrite unringed_two by done. unfold ts2. destruct (decide (u = t)) as [->|]; [by rewrite lookup_insert_eq, Et|by rewrite lookup_insert_ne].
  - intros u Hu Hut. rewrite !lookup_insert_ne by (by intros ->). unfold ts2. by rewrite lookup_insert_ne.
Qed.

Lemma ring_remove_spec k l1 z l2 :
  circle (lk_of (ktasks k)) (root_task k) (l1 ++ z :: l2) ->
  exists ts' r', ring_remove z k = Ok (tt, set_root_task r' (kt k ts')) /\ circle (lk_of ts') r' (l1 ++ l2) /\
    (forall u, unringed <$> ts' !! u = unringed <$> ktasks k !! u) /\
    (forall u, u ∉ l1 ++ z :: l2 -> ts' !! u = ktasks k !! u).
Proof.
  intros Hc. set (r := root_task k) in *. set (ts := ktasks k) in *. pose proof (circle_links _ _ _ _ _ Hc) as El.
  assert (z ∈ l1 ++ z :: l2) as Hz by (apply elem_of_app; right; by left).
  destruct (lk_some ts z (proj2 (circle_elem _ _ _ _ Hc Hz))) as [tz Ez].
  set (n := next tz). set (p := prev tz). assert (lk_of ts z = Some (n, p)) as Ezl by (unfold lk_of; by rewrite Ez).
  rewrite Ezl in El. injection El as En Ep.
  assert (n ∈ l1 ++ z :: l2 /\ p ∈ l1 ++ z :: l2) as [Hn Hp].
  { destruct Hc as (E0 & _). split.
    - rewrite En. destruct l2 as [|b l2]; [|apply elem_of_app; right; right; by left]. simpl. rewrite E0. destruct l1; by left.
    - rewrite Ep. destruct (last l1) as [y|] eqn:Ey; [apply elem_of_app; left; by apply last_Some_elem_of|].
      simpl. destruct (last (z :: l2)) as [y|] eqn:Ey2; [|by apply last_None in Ey2]. apply elem_of_app. right. by apply last_Some_elem_of. }
  destruct (lk_some ts p (proj2 (circle_elem _ _ _ _ Hc Hp))) as [tp Etp].
  destruct (lk_some ts n (proj2 (circle_elem _ _ _ _ Hc Hn))) as [tn Etn].
  assert (exists tn', <[p := set_next n tp]> ts !! n = Some tn') as [tn' Etn'].
  { destruct (decide (p = n)) as [->|]; [rewrite lookup_insert_eq; eauto|rewrite lookup_insert_ne by done; eauto]. }
  set (ts' := <[n := set_prev p tn']> (<[p := set_next n tp]> ts)).
  destruct (circle_remove (lk_of ts) (lk_of ts') r l1 z l2 n p Hc Ezl) as [Hc' _]; [intros u _; by apply lk_relink|].
  exists ts', (if r =? z then if n =? z then NULL else n else r). split_and!; [|done| |].
  - unfold ring_remove. rewrite <-(kt_id k) at 1. fold ts. rewrite (get_task_kt _ _ _ tz) by done. cbv zeta. fold n p.
    rewrite (upd_at_kt _ _ _ tp) by done. rewrite (upd_at_kt _ _ _ tn') by done. fold ts'.
    rewrite (bind_ok _ _ _ r (kt k ts')) by done. destruct (r =? z); [by destruct (n =? z)|]. cbn [when]. done.
  - intros u. by apply unringed_two.
  - intros u Hu. unfold ts'. rewrite !lookup_insert_ne; [done|by intros ->..].
Qed.
End ring_ops.
