(* ===== verification/TaskSpec.v ===== *)
(** * Creation of tasks: correctness

    What [task_register], [arch_task_create] and the allocation under them do
    to the scheduler's lists, the list of all tasks and the new task's stack. *)

From S2P Require Import Prelude Lock Chain Sched Runqueue Balance Schedule Wakeup Strings Acpi Vma Syscall Elf Dll Task TaskRing.

(** ** Frames in memory *)

(** The bytes of 64-bit words. *)
Definition words (ws : list Z) : list Z := flat_map (le 8) ws.

Lemma words_cons w ws : words (w :: ws) = le 8 w ++ words ws.
Proof. done. Qed.

Lemma length_words ws : length (words ws) = (8 * length ws)%nat.
Proof. induction ws as [|w ws IH]; [done|]. rewrite words_cons, length_app, length_le, IH. cbn [length]. lia. Qed.

Lemma words_app a b : words (a ++ b) = words a ++ words b.
Proof. apply flat_map_app. Qed.

Lemma upd_twice m a l l' : length l = length l' -> upd (upd m a l) a l' = upd m a l'.
Proof.
  intros El. apply map_eq. intros b. rewrite !upd_lookup, El. by destruct (decide _).
Qed.

(** Storing a word of a block of words. *)
Lemma upd_word m a ws i v : (i < length ws)%nat ->
  upd (upd m a (words ws)) (a + 8 * Z.of_nat i) (le 8 v) = upd m a (words (<[i := v]> ws)).
Proof.
  intros Hi. destruct (lookup_lt_is_Some_2 ws i Hi) as [w Hw].
  rewrite (insert_take_drop ws i v Hi). rewrite <-(take_drop_middle ws i w Hw) at 1.
  rewrite !words_app, !words_cons.
  apply map_eq. intros b. rewrite !upd_app, !upd_lookup. rewrite !length_le, !length_words, !length_take_le, !length_drop by lia.
  rewrite !Nat2Z.inj_mul. change (Z.of_nat 8) with 8. repeat destruct (decide _); try lia; try done; f_equal; lia.
Qed.

Lemma words_zero n : words (replicate n 0) = replicate (8 * n) 0.
Proof.
  induction n as [|n IH]; [done|]. cbn [replicate]. rewrite words_cons, IH.
  replace (8 * S n)%nat with (8 + 8 * n)%nat by lia. by rewrite replicate_add.
Qed.

Lemma store_bytes_spec m a l : owned m a (length l) -> store_bytes a l m = Ok (tt, upd m a l).
Proof.
  revert m a. induction l as [|v l IH]; intros m a Ho; [done|]. simpl in Ho. apply owned_S in Ho as [H0 Ho].
  cbn [store_bytes]. rewrite (bind_ok _ _ _ _ _ (store8_ok _ _ _ H0)). by apply IH, owned_insert.
Qed.

(** ** Symbolic execution *)

Section create.
Context {E : Type} `{TaskEnv E}.
Abbreviation kernel := (@kernel E).
Abbreviation ktasks k := (tasks (k_sched k)).

(** States that differ in the tasks, the services, the memory and the next id. *)
Definition kst (k : kernel) (ts : gmap Z task) (e : E) (m : mem) (id : Z) : kernel :=
  mkKernel (set_tasks ts (k_sched k)) e (k_areas k) m (root_task k) id (sched_lock_ k).

Lemma kst_id k : kst k (ktasks k) (k_env k) (k_mem k) (next_tid k) = k.
Proof. by destruct k as [[] ? ? ? ? ? ?]. Qed.

Section steps.
Context {A : Type} (k : kernel) (ts : gmap Z task) (e : E) (m : mem) (id : Z).

Lemma get_kst t tk (f : task -> M kernel A) : ts !! t = Some tk ->
  (x <- on_sched (get_task t) ;; f x) (kst k ts e m id) = f tk (kst k ts e m id).
Proof. exact (get_task_kt (kst k ts e m id) ts t tk f). Qed.

Lemma upd_kst t tk g (f : unit -> M kernel A) : ts !! t = Some tk ->
  (x <- upd_at t g ;; f x) (kst k ts e m id) = f tt (kst k (<[t := g tk]> ts) e m id).
Proof. exact (upd_at_kt (kst k ts e m id) ts t tk g f). Qed.

Lemma service_kst {B} (g : M E B) b e' (f : B -> M kernel A) : g e = Ok (b, e') ->
  (x <- on_services g ;; f x) (kst k ts e m id) = f b (kst k ts e' m id).
Proof. intros Eg. unfold bind, on_services, within. cbn [kst k_env]. by rewrite Eg. Qed.

Lemma mem_kst {B} (g : M mem B) b m' (f : B -> M kernel A) : g m = Ok (b, m') ->
  (x <- on_kmem g ;; f x) (kst k ts e m id) = f b (kst k ts e m' id).
Proof. intros Eg. unfold bind, on_kmem, within. cbn [kst k_mem]. by rewrite Eg. Qed.

Lemma zero_kst t (f : unit -> M kernel A) : t <> NULL ->
  (x <- zero_task_at t ;; f x) (kst k ts e m id) = f tt (kst k (<[t := zero_task]> ts) e m id).
Proof. intros Ht. unfold zero_task_at. rewrite (proj2 (Z.eqb_neq _ _)) by done. done. Qed.

(** [vma_init_task(t)] *)
Lemma vm_init_kst t tk (f : unit -> M kernel A) : ts !! t = Some tk ->
  (x <- with_vm t (on_mm vma_init_task) ;; f x) (kst k ts e m id) =
  f tt (kst k (<[t := set_vm (mkMm (k_areas k) NULL NULL 0 (cr3 tk)) tk]> ts) e m id).
Proof. intros Et. unfold with_vm. rewrite bind_bind. by rewrite (get_kst t tk). Qed.
Lemma cr3_kst (f : Z -> M kernel A) :
  (x <- read_cr3 ;; f x) (kst k ts e m id) = f (cr3_reg (k_sched k)) (kst k ts e m id).
Proof. done. Qed.

Lemma get_ctx_kst c x (f : cpu_context -> M kernel A) : cpus (k_sched k) !! c = Some x ->
  (y <- on_sched (get_ctx c) ;; f y) (kst k ts e m id) = f x (kst k ts e m id).
Proof. intros Ec. unfold bind, on_sched, within, get_ctx, bind, gets, deref. cbn. by rewrite Ec. Qed.

Lemma this_ctx_kst x (f : cpu_context -> M kernel A) : cpus (k_sched k) !! this_cpu (k_sched k) = Some x ->
  (y <- on_sched (cpu <- get_cpu ;; get_ctx cpu) ;; f y) (kst k ts e m id) = f x (kst k ts e m id).
Proof. exact (get_ctx_kst (this_cpu (k_sched k)) x f). Qed.
End steps.

Ltac kstep :=
  first [ rewrite zero_kst by done
        | erewrite vm_init_kst by apply lookup_insert_eq
        | erewrite upd_kst by apply lookup_insert_eq
        | erewrite get_kst by apply lookup_insert_eq ]; rewrite ?insert_insert_eq.

(** ** Allocation *)

(** The task [task_alloc_base] makes. *)
Definition base_task (id base : Z) : task :=
  mkTask id 0 base (4 * PAGE_SIZE) TASK_READY REASON_KEYBOARD false 0 NULL NULL 0 0 0 0 NULL NULL NULL
    PRIO_NORMAL PRIO_NORMAL NO_CPU 0.

Lemma alloc_base_spec k t base e1 e2 :
  env_kmalloc sizeof_task (k_env k) = Ok (t, e1) -> t <> NULL ->
  env_kmalloc (4 * PAGE_SIZE) e1 = Ok (base, e2) -> base <> NULL ->
  owned (k_mem k) base (Z.to_nat (4 * PAGE_SIZE)) ->
  task_alloc_base k = Ok (t, kst k (<[t := base_task (next_tid k) base]> (ktasks k)) e2
    (Strings.upd (k_mem k) base (replicate (Z.to_nat (4 * PAGE_SIZE)) 0)) (w64 (next_tid k + 1))).
Proof.
  intros E1 Ht E2 Hb Ho. unfold task_alloc_base, kmalloc. rewrite <-(kst_id k) at 1.
  rewrite (service_kst _ _ _ _ _ _ _ _ _ E1), (proj2 (Z.eqb_neq _ _)) by done. do 3 kstep.
  rewrite (service_kst _ _ _ _ _ _ _ _ _ E2). kstep. rewrite (proj2 (Z.eqb_neq base _)) by done.
  rewrite (mem_kst _ _ _ _ _ _ _ _ _ (memset_spec _ base 0 (4 * PAGE_SIZE) ltac:(done) Ho)). do 2 kstep.
  rewrite (bind_ok _ _ _ (next_tid k) (kst k _ e2 _ (next_tid k))) by done.
  rewrite (bind_ok _ _ _ tt (kst k (<[t := set_state TASK_READY (set_task_cpu NO_CPU (set_stack_base base (set_stack_size (4 * PAGE_SIZE)
     (set_vm (mkMm (k_areas k) NULL NULL 0 (cr3 zero_task)) zero_task))))]> (ktasks k)) e2
     (Strings.upd (k_mem k) base (replicate (Z.to_nat (4 * PAGE_SIZE)) (w8 0))) (w64 (next_tid k + 1)))) by done.
  do 3 kstep. done.
Qed.

(** Without memory for the structure or for the stack, nothing but the heap
    has changed. *)
Lemma alloc_base_fails k t e1 :
  env_kmalloc sizeof_task (k_env k) = Ok (t, e1) ->
  (t = NULL -> task_alloc_base k = Ok (NULL, kst k (ktasks k) e1 (k_mem k) (next_tid k))) /\
  (forall e2 e3, t <> NULL -> ktasks k !! t = None -> env_kmalloc (4 * PAGE_SIZE) e1 = Ok (NULL, e2) -> env_kfree t e2 = Ok (tt, e3) ->
     task_alloc_base k = Ok (NULL, kst k (ktasks k) e3 (k_mem k) (next_tid k))).
Proof.
  intros E1. split.
  - intros ->. unfold task_alloc_base, kmalloc. rewrite <-(kst_id k) at 1. by rewrite (service_kst _ _ _ _ _ _ _ _ _ E1).
  - intros e2 e3 Ht Hn E2 E3. unfold task_alloc_base, kmalloc. rewrite <-(kst_id k) at 1.
    rewrite (service_kst _ _ _ _ _ _ _ _ _ E1), (proj2 (Z.eqb_neq _ _)) by done. do 3 kstep.
    rewrite (service_kst _ _ _ _ _ _ _ _ _ E2). kstep. rewrite Z.eqb_refl.
    unfold free_task, kfree. rewrite bind_bind, (service_kst _ _ _ _ _ _ _ _ _ E3). unfold bind, on_sched, within, modify, ret. do 2 f_equal.
    unfold kst, set_k_sched. cbn. f_equal. unfold set_tasks. cbn. f_equal. by rewrite delete_insert_eq, delete_id.
Qed.

(** ** The first frame *)

(** A store to a field of a frame that holds the words [ws]. *)
Lemma field_kst {A} k ts e m id frame ws i field v (f : unit -> M kernel A) :
  owned m frame 176 -> offset_of interrupt_frame_t field = 8 * Z.of_nat i -> length ws = 22%nat -> (i < 22)%nat ->
  (x <- set_field frame field v ;; f x) (kst k ts e (Strings.upd m frame (words ws)) id) =
  f tt (kst k ts e (Strings.upd m frame (words (<[i := v]> ws))) id).
Proof.
  intros Ho Ef Hw Hi. unfold set_field. rewrite Ef. apply (mem_kst k ts e _ id (store64 _ v) tt). unfold store64. rewrite store_bytes_spec.
  - by rewrite upd_word by lia.
  - rewrite length_le. apply owned_upd. intros j Hj. replace (frame + 8 * Z.of_nat i + Z.of_nat j) with (frame + Z.of_nat (8 * i + j)) by lia. apply Ho. lia.
Qed.

Ltac fields l :=
  match l with
  | [] => idtac
  | ?i :: ?r => rewrite (field_kst _ _ _ _ _ _ _ i) by (first [done | rewrite ?length_insert; apply length_replicate | lia]); fields r
  end.

(** The words of a frame that starts at [rip] with stack pointer [sp]. *)
Definition frame_words (rip cs ss sp : Z) : list Z :=
  replicate 10 0 ++ [sp] ++ replicate 6 0 ++ [rip; cs; 0x202; sp; ss].

Lemma make_frame_spec k ts e m id t tk rip cs ss sp :
  let frame := stack_top tk - sizeof_frame in
  ts !! t = Some tk -> 0 <= frame -> stack_top tk < 2 ^ 64 -> owned m frame 176 ->
  make_frame t rip cs ss sp (kst k ts e m id) =
    Ok (tt, kst k (<[t := set_rsp frame tk]> ts) e (Strings.upd m frame (words (frame_words rip cs ss sp))) id).
Proof.
  intros frame Et Hf Ht Ho. unfold make_frame. rewrite (get_kst _ _ _ _ _ t tk) by done. cbv zeta.
  rewrite w64_small by (unfold frame, sizeof_frame in *; lia). fold frame.
  rewrite (mem_kst _ _ _ _ _ _ _ _ _ (memset_spec m frame 0 sizeof_frame ltac:(done) Ho)).
  change (replicate (Z.to_nat sizeof_frame) (w8 0)) with (replicate (8 * 22) 0). rewrite <-words_zero.
  fields [17; 18; 21; 19; 20; 10]%nat.
  exact (upd_at_last (kst k ts e _ id) ts t tk (set_rsp frame) Et).
Qed.

(** ** Registration *)

(** The scheduler's lists are [v], the list of all tasks is [l], no lock is
    held. *)
Record kernel_ok (k : kernel) (v : place -> list Z) (l : list Z) : Prop := {
  ko_sched : sched_ok (k_sched k) v;
  ko_circle : circle (lk_of (ktasks k)) (root_task k) l;
  ko_lock : lock_free (sched_lock_ k);
}.

(** A task that does not exist yet is in no list. *)
Lemma fresh_task k v l t : kernel_ok k v l -> ktasks k !! t = None -> (t ∉ l) /\ idle_in v t.
Proof.
  intros [Hs Hc _] Hn. split.
  - intros Hin. destruct (lk_some _ _ (proj2 (circle_elem _ _ _ _ Hc Hin))) as [tk Ek]. congruence.
  - intros a Hin. destruct (rep_task _ _ _ _ (so_rep _ _ Hs) Hin) as [_ [tk Ek]]. congruence.
Qed.

(** The lists depend on the [sched_next] links only. *)
Lemma sched_ok_nx s v ts' : sched_ok s v -> (forall u a, u ∈ v a -> nx ts' u = nx (tasks s) u) -> sched_ok (set_tasks ts' s) v.
Proof.
  intros [Hr Hh Hl Hd Hb] Hn. split; try done. apply (rep_step s _ v _ []); [done|..].
  - intros a _. split_and!; [by destruct a|done|]. intros u Hu. by apply (Hn u a).
  - by intros a ?%not_elem_of_nil.
  - intros c x p Hx. by apply (rep_fields _ _ Hr).
  - exact (rep_disj _ _ Hr).
Qed.

Lemma unringed_nx ts ts' u : unringed <$> ts' !! u = unringed <$> ts !! u -> nx ts' u = nx ts u.
Proof.
  unfold nx. destruct (ts' !! u) as [a|], (ts !! u) as [b|]; simpl; try done. intros E0%(inj Some). f_equal.
  change (sched_next (unringed a) = sched_next (unringed b)). by rewrite E0.
Qed.

(** What a task keeps when others are queued or registered around it. *)
Definition settled (t : task) : task := unlinked (unringed t).

(** The circle survives changes of other fields. *)
Lemma lk_unlinked ts ts' u : unlinked <$> ts' !! u = unlinked <$> ts !! u -> lk_of ts' u = lk_of ts u.
Proof.
  unfold lk_of. destruct (ts' !! u) as [a|], (ts !! u) as [b|]; simpl; try done. intros E0%(inj Some). f_equal.
  change ((next (unlinked a), prev (unlinked a)) = (next (unlinked b), prev (unlinked b))). by rewrite E0.
Qed.

(** The task as it enters the runqueue of the context [x] *)
Definition queued (x : cpu_context) (tk : task) : task := enq_task x (set_task_cpu NO_CPU tk).

Lemma register_spec k v l t tk x :
  let c := this_cpu (k_sched k) in
  let q := Rq c (level (base_priority tk)) in
  kernel_ok k v l -> l <> [] -> ktasks k !! t = Some tk -> t ∉ l -> t <> NULL -> idle_in v t ->
  cpus (k_sched k) !! c = Some x ->
  exists k' tk', task_register t k = Ok (tt, k') /\ kernel_ok k' (vset q (v q ++ [t]) v) (l ++ [t]) /\
    ktasks k' !! t = Some tk' /\ unringed tk' = unringed (queued x tk) /\
    (forall u, u <> t -> settled <$> ktasks k' !! u = settled <$> ktasks k !! u) /\
    k_mem k' = k_mem k /\ k_env k' = k_env k /\ k_areas k' = k_areas k /\ next_tid k' = next_tid k /\
    s_hart (k_sched k') = s_hart (k_sched k).
Proof.
  intros c q [Hs Hc Hl] Hne Et Hnt Ht0 Hi Hx. pose proof Hs as [Hr Hh _ _ _].
  destruct (ring_insert_spec (enter sched_lock k) l t tk) as (ts1 & E1 & Hc1 & Hu1 & Ho1); [exact Hc|done|exact Et|done|done|].
  set (k1 := leave sched_lock k (kt (enter sched_lock k) ts1)).
  assert (critical sched_lock (ring_insert t) k = Ok (tt, k1)) as Ec1 by (apply (critical_ok sched_lock); [done|done|exact E1|done|done]).
  assert (exists tk1, ts1 !! t = Some tk1 /\ unringed tk1 = unringed tk) as (tk1 & Et1 & Eu1).
  { specialize (Hu1 t). change (ktasks (enter sched_lock k)) with (ktasks k) in Hu1. rewrite Et in Hu1. destruct (ts1 !! t) as [tk1|]; [|done]. exists tk1. simpl in Hu1. apply (inj Some) in Hu1. done. }
  assert (base_priority tk1 = base_priority tk) as Ebp.
  { change (base_priority (unringed tk1) = base_priority (unringed tk)). by rewrite Eu1. }
  set (tk2 := set_task_cpu NO_CPU tk1). set (k2 := kt k1 (<[t := tk2]> ts1)).
  assert (sched_ok (k_sched k2) v) as Hs2.
  { change (k_sched k2) with (mk (set_tasks ts1 (k_sched k1)) (<[t := tk2]> (tasks (set_tasks ts1 (k_sched k1)))) (cpus (k_sched k1))).
    apply sched_ok_idle_upd; [|done]. enough (sched_ok (set_tasks ts1 (k_sched k)) v) as Hk.
    { revert Hk. unfold k1, leave. cbn. by destruct (k_sched k) as [[] ? ? ? ? ? ? ? ? ? ?]. }
    apply sched_ok_nx; [done|]. intros u a _. by apply unringed_nx. }
  destruct (enqueue_full (k_sched k2) v c x t tk2 Hs2 Hx ltac:(apply lookup_insert_eq) Ht0 Hi) as (s3 & E3 & Hs3 & Hf3 & Et3 & _).
  change (base_priority tk2) with (base_priority tk1) in Hs3. rewrite Ebp in Hs3. fold q in Hs3.
  exists (set_k_sched s3 k2), (enq_task x tk2). split_and!; [| |exact Et3| | |done|done|done|done|].
  - unfold task_register. rewrite (bind_ok _ _ _ _ _ Ec1).
    assert (k1 = kt k1 ts1) as -> by (unfold k1, leave; cbn; by destruct k as [[] ? ? ? ? ? ?]).
    rewrite (upd_at_kt _ _ _ tk1) by done. fold tk2. change (kt (kt k1 ts1) (<[t := tk2]> ts1)) with k2.
    unfold on_sched, within. rewrite (bind_ok _ _ _ c (k_sched k2)) by done. by rewrite E3.
  - split; [done| |].
    + cbn [k_sched set_k_sched root_task]. apply (circle_frame (lk_of ts1)); [|exact Hc1]. intros u Hu.
      destruct (decide (u = t)) as [->|Hut].
      * unfold lk_of. rewrite Et3, Et1. done.
      * rewrite (lk_unlinked _ _ _ (fr_tasks _ _ _ Hf3 u Hut)). unfold lk_of, k2. cbn. by rewrite lookup_insert_ne.
    + by apply released_free.
  - unfold queued, tk2, enq_task. destruct tk1, tk; by simplify_eq/=.
  - intros u Hut. cbn [k_sched set_k_sched]. specialize (Hu1 u). change (ktasks (enter sched_lock k)) with (ktasks k) in Hu1.
    pose proof (fr_tasks _ _ _ Hf3 u Hut) as E4. change (ktasks k2) with (<[t := tk2]> ts1) in E4. rewrite lookup_insert_ne in E4 by done.
    unfold settled. destruct (tasks s3 !! u) as [a|], (ts1 !! u) as [b|], (ktasks k !! u) as [d|]; simpl in *; try done. f_equal.
    apply (inj Some) in E4, Hu1. rewrite <-Hu1. change (unringed (unlinked a) = unringed (unlinked b)). by rewrite E4.
  - cbn [k_sched set_k_sched]. by rewrite (framed_hart _ _ _ Hf3).
Qed.

(** ** Kernel tasks *)

Definition STACK : Z := 4 * PAGE_SIZE.

Lemma stack_top_eq tk : 0 <= stack_base tk + stack_size tk < 2 ^ 64 ->
  stack_top tk = stack_base tk + stack_size tk - (stack_base tk + stack_size tk) mod 16.
Proof. intros Hx. unfold stack_top. rewrite w64_small by done. exact (land_lnot_ones _ 4 ltac:(lia) Hx). Qed.

(** The task [arch_task_create] makes, beside its links. *)
Definition kernel_task (id frame base c3 cpu : Z) : task :=
  mkTask id frame base STACK TASK_READY REASON_KEYBOARD false c3 NULL NULL 0 0 0 0 NULL NULL NULL PRIO_HIGH PRIO_HIGH cpu 0.

(** The new task before it is registered. *)
Lemma create_prefix k entry t base e1 e2 :
  let top := base + STACK - (base + STACK) mod 16 in
  let frame := top - sizeof_frame in
  let ts := <[t := kernel_task (next_tid k) frame base (cr3_reg (k_sched k)) NO_CPU]> (ktasks k) in
  env_kmalloc sizeof_task (k_env k) = Ok (t, e1) -> t <> NULL -> env_kmalloc STACK e1 = Ok (base, e2) ->
  0 < base -> base + STACK < 2 ^ 64 -> owned (k_mem k) base (Z.to_nat STACK) ->
  exists m', arch_task_create entry k = (task_register t ;;; ret t) (kst k ts e2 m' (w64 (next_tid k + 1))) /\
    cells m' frame (words (frame_words entry 0x08 0x10 top)) /\
    forall a, ~ (base <= a < base + STACK) -> m' !! a = k_mem k !! a.
Proof.
  intros top frame ts E1 Ht E2 Hb Hw Ho. set (m1 := Strings.upd (k_mem k) base (replicate (Z.to_nat (4 * PAGE_SIZE)) 0)).
  pose proof (Z.mod_pos_bound (base + STACK) 16 ltac:(lia)) as Hm.
  assert (base <= frame /\ frame + sizeof_frame = top /\ top <= base + STACK) as (Hf1 & Hf2 & Hf3) by (unfold frame, top, sizeof_frame, STACK, PAGE_SIZE in *; lia).
  set (tk1 := set_cr3 (cr3_reg (k_sched k)) (set_is_user false (set_base_priority PRIO_HIGH (set_priority PRIO_HIGH (base_task (next_tid k) base))))).
  assert (stack_top tk1 = top) as Etop by (apply stack_top_eq; simpl; unfold STACK, PAGE_SIZE in *; lia).
  assert (owned m1 frame 176) as Hof.
  { apply owned_upd. intros i Hi. replace (frame + Z.of_nat i) with (base + Z.of_nat (Z.to_nat (frame - base) + i)) by lia.
    apply Ho. unfold sizeof_frame in *. lia. }
  exists (Strings.upd m1 frame (words (frame_words entry 0x08 0x10 top))). split_and!.
  - unfold arch_task_create. rewrite (bind_ok _ _ _ _ _ (alloc_base_spec k t base e1 e2 E1 Ht E2 ltac:(unfold NULL; lia) Ho)). fold m1.
    rewrite (proj2 (Z.eqb_neq _ _)) by done. do 3 kstep. rewrite cr3_kst. do 2 kstep. fold tk1.
    rewrite Etop.
    pose proof (make_frame_spec k (<[t := tk1]> (ktasks k)) e2 m1 (w64 (next_tid k + 1)) t tk1 entry 0x08 0x10 top ltac:(apply lookup_insert_eq)) as Hmf.
    cbv zeta in Hmf. rewrite Etop in Hmf. fold frame in Hmf.
    rewrite (bind_ok _ _ _ _ _ (Hmf ltac:(lia) ltac:(lia) Hof)), insert_insert_eq. done.
  - apply upd_cells.
  - intros a Ha. rewrite upd_outside by (rewrite length_words; change (length (frame_words entry 8 16 top)) with 22%nat; unfold sizeof_frame in *; lia).
    unfold m1. by rewrite upd_outside by (rewrite length_replicate; fold STACK; rewrite Z2Nat.id by done; lia).
Qed.

(** C30: arch_task_create, when the heap provides the structure and a 16 KB
    stack, returns a new ready kernel task of high priority with the next id,
    the current page table and the executing CPU; at its saved stack pointer,
    in the top of its own stack, is an interrupt frame that resumes at the
    entry point, in ring 0 and with interrupts enabled, with the stack pointer
    at the 16-byte aligned top of the stack. The task is last in the list of
    all tasks and last in the high runqueue of the CPU; no other list, task or
    byte of memory outside the stack changes. *)
Theorem arch_task_create_correct k v l x entry t base e1 e2 :
  let c := this_cpu (k_sched k) in
  let q := Rq c PRIO_HIGH in
  let top := base + STACK - (base + STACK) mod 16 in
  let frame := top - sizeof_frame in
  kernel_ok k v l -> l <> [] -> cpus (k_sched k) !! c = Some x ->
  env_kmalloc sizeof_task (k_env k) = Ok (t, e1) -> t <> NULL -> ktasks k !! t = None ->
  env_kmalloc STACK e1 = Ok (base, e2) -> 0 < base -> base + STACK < 2 ^ 64 -> owned (k_mem k) base (Z.to_nat STACK) ->
  exists k' tk, arch_task_create entry k = Ok (t, k') /\ kernel_ok k' (vset q (v q ++ [t]) v) (l ++ [t]) /\
    ktasks k' !! t = Some tk /\
    unringed tk = kernel_task (next_tid k) frame base (cr3_reg (k_sched k)) (ctx_id x) /\
    cells (k_mem k') frame (words (frame_words entry 0x08 0x10 top)) /\
    (forall a, ~ (base <= a < base + STACK) -> k_mem k' !! a = k_mem k !! a) /\
    (forall u, u <> t -> settled <$> ktasks k' !! u = settled <$> ktasks k !! u) /\
    k_env k' = e2 /\ next_tid k' = w64 (next_tid k + 1).
Proof.
  intros c q top frame Hk Hne Hx E1 Ht Hfresh E2 Hb Hw Ho. destruct (fresh_task k v l t Hk Hfresh) as [Hnl Hi].
  destruct (create_prefix k entry t base e1 e2 E1 Ht E2 Hb Hw Ho) as (m' & Ec & Hcell & Hout). fold top in Ec, Hcell. fold frame in Ec, Hcell.
  set (tk1 := kernel_task (next_tid k) frame base (cr3_reg (k_sched k)) NO_CPU) in *.
  set (k1 := kst k (<[t := tk1]> (ktasks k)) e2 m' (w64 (next_tid k + 1))) in *.
  assert (kernel_ok k1 v l) as Hk1.
  { destruct Hk as [Hs Hc Hl]. split; [|apply (circle_frame (lk_of (ktasks k))); [|done]|done].
    - exact (sched_ok_idle_upd _ _ t tk1 Hs Hi).
    - intros u Hu. unfold lk_of, k1. cbn. rewrite lookup_insert_ne; [done|]. by intros ->. }
  destruct (register_spec k1 v l t tk1 x Hk1 Hne ltac:(apply lookup_insert_eq) Hnl Ht Hi Hx)
    as (k' & tk & Er & Hk' & Et & Eu & Ho' & Em & Ee & _ & En & _).
  exists k', tk. split_and!; [|exact Hk'|done|by rewrite Eu|by rewrite Em|by rewrite Em| |by rewrite Ee|by rewrite En].
  - rewrite Ec. by rewrite (bind_ok _ _ _ _ _ Er).
  - intros u Hu. rewrite Ho' by done. unfold k1. cbn. by rewrite lookup_insert_ne.
Qed.

(** ** The start of the scheduler *)

Definition idle_struct (frame base c3 cpu : Z) : task :=
  mkTask 1 frame base 4096 TASK_RUNNING REASON_KEYBOARD false c3 NULL NULL 0 0 0 0 NULL NULL NULL PRIO_IDLE PRIO_HIGH cpu 0.
Definition main_struct (self c3 cpu : Z) : task :=
  mkTask 0 0 0 0 TASK_RUNNING REASON_KEYBOARD false c3 NULL NULL 0 0 0 0 self self NULL 0 0 cpu 0.
Definition idle_words (entry sp : Z) : list Z := replicate 17 0 ++ [entry; 0x08; 0x202; sp; 0x10].

Lemma create_idle_spec k ts e m id entry t base e1 e2 x :
  let top := base + 4096 - (base + 4096) mod 16 in
  let frame := top - sizeof_frame - 8 in
  env_kmalloc sizeof_task e = Ok (t, e1) -> t <> NULL -> env_kmalloc 4096 e1 = Ok (base, e2) ->
  0 < base -> base + 4096 < 2 ^ 64 -> owned m base 4096 -> cpus (k_sched k) !! this_cpu (k_sched k) = Some x ->
  exists m', create_idle_struct entry (kst k ts e m id) =
      Ok (t, kst k (<[t := idle_struct frame base (cr3_reg (k_sched k)) (ctx_id x)]> ts) e2 m' id) /\
    cells m' frame (words (idle_words entry (top - 8))) /\ forall a, ~ (base <= a < base + 4096) -> m' !! a = m !! a.
Proof.
  intros top frame E1 Ht E2 Hb Hw Ho Hx. pose proof (Z.mod_pos_bound (base + 4096) 16 ltac:(lia)) as Hm.
  assert (base <= frame /\ frame + 184 = top /\ top <= base + 4096) as (Hf1 & Hf2 & Hf3) by (unfold frame, top, sizeof_frame in *; lia).
  assert (Z.land (w64 (base + 4096)) (w64 (Z.lnot 0x0F)) = top) as Etop.
  { rewrite w64_small by lia. exact (land_lnot_ones (base + 4096) 4 ltac:(lia) ltac:(lia)). }
  assert (owned m frame 176) as Hof.
  { intros i Hi. replace (frame + Z.of_nat i) with (base + Z.of_nat (Z.to_nat (frame - base) + i)) by lia. apply Ho. lia. }
  exists (Strings.upd m frame (words (idle_words entry (top - 8)))). split_and!.
  - unfold create_idle_struct, kmalloc. rewrite (service_kst _ _ _ _ _ _ _ _ _ E1). kstep. rewrite (service_kst _ _ _ _ _ _ _ _ _ E2). kstep.
    cbv zeta. rewrite Etop, (w64_small (top - sizeof_frame - 8)), (w64_small (top - 8)) by (fold frame; lia). fold frame.
    rewrite (mem_kst _ _ _ _ _ _ _ _ _ (memset_spec m frame 0 sizeof_frame ltac:(done) Hof)).
    change (replicate (Z.to_nat sizeof_frame) (w8 0)) with (replicate (8 * 22) 0). rewrite <-words_zero.
    fields [17; 18; 19; 20; 21; 15; 16]%nat.
    rewrite cr3_kst. do 6 kstep. rewrite (this_ctx_kst _ _ _ _ _ _ _ Hx). do 3 kstep. done.
  - apply upd_cells.
  - intros a Ha. by rewrite upd_outside by (rewrite length_words; change (length (idle_words entry (top - 8))) with 22%nat; lia).
Qed.

(** The main task, before the idle task is made. *)
Lemma init_prefix k entry main e1 x :
  let c := this_cpu (k_sched k) in
  let k1 := mkKernel (set_cpus (<[c := set_current_task main x]> (cpus (k_sched k))) (k_sched k)) (k_env k) (k_areas k) (k_mem k)
      main (next_tid k) (sched_lock_ k) in
  let ts := <[main := main_struct main (cr3_reg (k_sched k)) (ctx_id x)]> (ktasks k) in
  env_kmalloc sizeof_task (k_env k) = Ok (main, e1) -> main <> NULL -> cpus (k_sched k) !! c = Some x ->
  sched_init entry k = (idle <- create_idle_struct entry ;; on_sched (upd_ctx c (set_idle_task idle))) (kst k1 ts e1 (k_mem k) (next_tid k)).
Proof.
  intros c k1 ts E1 Hm Hx. unfold sched_init, kmalloc. rewrite <-(kst_id k) at 1. rewrite (bind_ok _ _ _ c (kst k (ktasks k) (k_env k) (k_mem k) (next_tid k))) by done.
  rewrite (service_kst _ _ _ _ _ _ _ _ _ E1). do 6 kstep.
  rewrite (get_ctx_kst _ _ _ _ _ _ _ _ Hx). do 2 kstep. rewrite cr3_kst. do 2 kstep.
  rewrite (bind_ok _ _ _ tt (set_root_task main (kst k ts e1 (k_mem k) (next_tid k)))) by done.
  rewrite (bind_ok _ _ _ tt (kst k1 ts e1 (k_mem k) (next_tid k))); [done|].
  unfold on_sched, within, upd_ctx, get_ctx, bind, gets, deref, modify. cbn. fold c. by rewrite Hx.
Qed.

(** sched_init, when the heap provides two structures and the idle stack,
    establishes the invariant of the scheduler: the list of all tasks is the
    circle of the main task alone, which is running and current; the idle task
    has a frame for its entry point on its stack, and the lowest priority; no
    list of the scheduler changes, and neither new task is in one. *)
Theorem sched_init_correct k v x entry main idle base e1 e2 e3 :
  let c := this_cpu (k_sched k) in
  let c3 := cr3_reg (k_sched k) in
  let top := base + 4096 - (base + 4096) mod 16 in
  let frame := top - sizeof_frame - 8 in
  sched_ok (k_sched k) v -> lock_free (sched_lock_ k) -> cpus (k_sched k) !! c = Some x ->
  env_kmalloc sizeof_task (k_env k) = Ok (main, e1) -> main <> NULL -> ktasks k !! main = None ->
  env_kmalloc sizeof_task e1 = Ok (idle, e2) -> idle <> NULL -> ktasks k !! idle = None -> idle <> main ->
  env_kmalloc 4096 e2 = Ok (base, e3) -> 0 < base -> base + 4096 < 2 ^ 64 -> owned (k_mem k) base 4096 ->
  exists k', sched_init entry k = Ok (tt, k') /\ kernel_ok k' v [main] /\
    cpus (k_sched k') !! c = Some (set_idle_task idle (set_current_task main x)) /\
    ktasks k' !! main = Some (main_struct main c3 (ctx_id x)) /\ ktasks k' !! idle = Some (idle_struct frame base c3 (ctx_id x)) /\
    idle_in v main /\ idle_in v idle /\ cells (k_mem k') frame (words (idle_words entry (top - 8))) /\
    k_sched k' = mk (k_sched k) (<[idle := idle_struct frame base c3 (ctx_id x)]> (<[main := main_struct main c3 (ctx_id x)]> (ktasks k)))
      (<[c := set_idle_task idle (set_current_task main x)]> (cpus (k_sched k))).
Proof.
  intros c c3 top frame Hs Hl Hx E1 Hm Hfm E2 Hi Hfi Hne E3 Hb Hw Ho.
  assert (forall t, ktasks k !! t = None -> idle_in v t) as Hidle.
  { intros t Hn a Hin. destruct (rep_task _ _ _ _ (so_rep _ _ Hs) Hin) as [_ [tk Ek]]. congruence. }
  rewrite (init_prefix k entry main e1 x E1 Hm Hx). fold c c3. set (k1 := mkKernel _ _ _ _ _ _ _). set (ts := <[main := _]> _).
  set (x1 := set_current_task main x).
  destruct (create_idle_spec k1 ts e1 (k_mem k) (next_tid k) entry idle base e2 e3 x1 E2 Hi E3 Hb Hw Ho ltac:(apply lookup_insert_eq))
    as (m' & Ei & Hcell & _). fold top in Hcell, Ei. fold frame in Hcell, Ei. change (cr3_reg (k_sched k1)) with c3 in Ei. change (ctx_id x1) with (ctx_id x) in Ei.
  set (ts2 := <[idle := _]> ts) in Ei. set (cs2 := <[c := set_idle_task idle x1]> (cpus (k_sched k))).
  exists (mkKernel (mk (k_sched k) ts2 cs2) e3 (k_areas k) m' main (next_tid k) (sched_lock_ k)).
  assert (ts2 !! main = Some (main_struct main c3 (ctx_id x))) as Em by (unfold ts2, ts; by rewrite lookup_insert_ne, lookup_insert_eq).
  split_and!; [| | |exact Em| |by apply Hidle|by apply Hidle|exact Hcell|done].
  - rewrite (bind_ok _ _ _ _ _ Ei). unfold on_sched, within, upd_ctx, get_ctx, bind, gets, deref, modify. cbn. fold c. rewrite lookup_insert_eq. cbn.
    rewrite insert_insert_eq. done.
  - split; [|split_and!; [done| |apply NoDup_singleton]|done].
    + assert (sched_ok (set_tasks ts2 (k_sched k)) v) as Hs2.
      { apply sched_ok_nx; [done|]. intros u a Hu. assert (u <> main /\ u <> idle) as [H1 H2] by (split; intros ->; [by apply (Hidle main Hfm a)|by apply (Hidle idle Hfi a)]).
        unfold nx, ts2, ts. by rewrite !lookup_insert_ne. }
      apply (sched_ok_ctx (set_tasks ts2 (k_sched k)) v); [done| |apply (so_locks _ _ Hs c x Hx)..].
      by apply (rep_ctx (set_tasks ts2 (k_sched k)) v c x); [apply Hs2|..].
    + simpl. split_and!; [done|done|]. exists main. split; [|done]. unfold lk_of. cbn. by rewrite Em.
  - unfold cs2. cbn. by rewrite lookup_insert_eq.
  - cbn. unfold ts2. by rewrite lookup_insert_eq.
Qed.
End create.
