(* ===== verification/Init.v ===== *)
(** * The first program

    Models [user/init.c], the program the kernel starts in ring 3, and
    [user_test_task_ap] of [kernel/smp/smp.c], on the user library ([Handlers],
    [Uprintf]): what the program asks of the kernel, and what it prints.

    - The state is that of [Uprintf]; the handlers are the kernel's, of which
      the program relies on [kernel_ok]: a call, other than that of [u_exit],
      returns with the kernel's answer, and leaves the log and the program's own
      memory alone.
    - [lit] gives the address of each string literal, [buf] that of the array of
      [u_printf].
    - [user_test_task_echo] never returns; [user_test_task_echo n] is its first
      [n] turns, and [_start n] the program up to there. *)

From S2P Require Import Prelude Lock Strings Printf Ring Serial Vma Syscall Handlers Uprintf Acpi Task TaskSpec.

(** The bytes of a C literal; of the escapes, the newline. *)
Fixpoint unescape (l : list Z) : list Z :=
  match l with
  | [] => []
  | c :: l' =>
    match l' with
    | d :: l'' => if (c =? 92) && (d =? 110) then 10 :: unescape l'' else c :: unescape l'
    | [] => [c]
    end
  end.
Definition c_bytes (t : string) : list Z :=
  unescape ((fun c => Z.of_N (Ascii.N_of_ascii c)) <$> String.list_ascii_of_string t).

(** The literals of the program. *)
Definition texts : list string :=
  ["TASK 2 | Iteration: %d\n"; "TASK 2 DONE\n"; "\n### SHELL ###\n"; "%c"; "Current TID: %d\n"; "Available CPUs: %d\n";
   "### STARTING MEMORY STRESS TEST ###\n"; "Malloc failed!\n"; "Allocated 10 pages at %p\n";
   "Memory written and verified at %p.\n"; "Freeing %d bytes at %p...\n"; "ELF WORKS! Entering Ring 3 environment...\n";
   "\nRING 3 AP AP AP AP AP\n"]%string.

Section program.
Context {S : Type} (ser : lens S serial) (frame : lens S iframe) (h : @handlers S) (report : Z -> M S unit) (frame_addr : Z).
Context (lit : string -> Z) (buf : Z).

Definition printf (t : string) (args : list Z) : M S unit := u_printf ser frame h report frame_addr buf (lit t) args.
Abbreviation sleep ms := (u_sleep frame h report frame_addr ms).
Abbreviation yield := (u_yield frame h report frame_addr).

(** [while (counter < 5)], from 1 *)
Definition user_test_task_2 : M S unit :=
  mapM_ (fun counter => printf "TASK 2 | Iteration: %d\n" [counter] ;;; sleep 10) (seqZ 1 4) ;;;
  printf "TASK 2 DONE\n" [] ;;;
  yield.

(** One turn of the shell: a [char] is passed as an [int] *)
Definition echo_turn : M S unit :=
  c <- u_read_kbd frame h report frame_addr ;;
  when (negb (c =? 0)) (printf "%c" [w32 c]) ;;;
  sleep 50.

Definition user_test_task_echo (n : nat) : M S unit :=
  printf "\n### SHELL ###\n" [] ;;;
  mapM_ (fun _ => echo_turn) (seq 0 n).

Definition user_info_test : M S unit :=
  tid <- u_sys_get_tid frame h report frame_addr ;;
  printf "Current TID: %d\n" [tid] ;;;
  cpus <- u_sys_cpu_count frame h report frame_addr ;;
  printf "Available CPUs: %d\n" [cpus] ;;;
  sleep 50 ;;;
  yield.

Definition big_size : Z := 10 * 4096.

(** [ptr[i * 512] = 0xCAFEBABE00000000 | i], of 64-bit words *)
Definition touch_page (ptr i : Z) : M S unit :=
  on_serial ser (on_mem (store64 (ptr + 8 * (i * 512)) (Z.lor 0xCAFEBABE00000000 i))).

Definition user_malloc_test : M S unit :=
  printf "### STARTING MEMORY STRESS TEST ###\n" [] ;;;
  ptr <- u_sys_malloc frame h report frame_addr big_size ;;
  if ptr =? NULL then printf "Malloc failed!\n" [] else
  printf "Allocated 10 pages at %p\n" [ptr] ;;;
  mapM_ (touch_page ptr) (seqZ 0 10) ;;;
  printf "Memory written and verified at %p.\n" [ptr] ;;;
  printf "Freeing %d bytes at %p...\n" [big_size; ptr] ;;;
  u_sys_free frame h report frame_addr ptr big_size ;;;
  sleep 50.

Definition _start (n : nat) : M S unit :=
  printf "ELF WORKS! Entering Ring 3 environment...\n" [] ;;;
  sleep 100 ;;;
  user_test_task_2 ;;;
  user_malloc_test ;;;
  user_info_test ;;;
  user_test_task_echo n.

(** The task the other processors start *)
Definition user_test_task_ap : M S unit :=
  printf "\nRING 3 AP AP AP AP AP\n" [] ;;;
  sleep 10 ;;;
  u_exit frame h report frame_addr.
End program.

(** ** Texts *)

Lemma num_text_ok v base width pad :
  2 <= base <= 16 -> 0 < pad < 256 -> width <= 64 ->
  Forall (fun c => 0 < c < 256) (num_text v base width pad) /\ (length (num_text v base width pad) <= 64)%nat.
Proof.
  intros Hb Hp Hw. unfold num_text. assert (forall fuel w, Forall (fun c => 0 < c < 256) (digit_char <$> digits_of fuel w base)) as Hd.
  { intros fuel. induction fuel as [|fuel IH]; intros w; cbn [digits_of fmap list_fmap]; constructor.
    - pose proof (Z.mod_pos_bound w base ltac:(lia)). unfold digit_char. case_bool; lia.
    - destruct (0 <? w / base); [apply IH|constructor]. }
  pose proof (length_digits_of 64 v base). split.
  - apply Forall_app. split; [by apply Forall_replicate|by apply Forall_reverse].
  - rewrite length_app, length_replicate, length_reverse, length_fmap. lia.
Qed.

Definition dec (n : Z) : list Z := num_text n 10 0 32.
Definition hex_ptr (p : Z) : list Z := 48 :: 120 :: num_text p 16 16 48.

Lemma conv_d strs n args : 0 <= n < 2 ^ 63 -> conv_text strs 100 0 32 (n :: args) = Some (dec n, args).
Proof.
  intros Hn. unfold conv_text. cbn. unfold int64. rewrite (proj2 (Z.ltb_lt n (2 ^ 63))) by lia. by rewrite (proj2 (Z.ltb_ge n 0)) by lia.
Qed.

Lemma conv_p strs p args : conv_text strs 112 0 32 (p :: args) = Some (hex_ptr p, args).
Proof. done. Qed.

(** ** What the program relies on *)

Section output.
Context {S : Type} (ser : lens S serial) (frame : lens S iframe) `{!LensOk ser, !LensOk frame, !LensIndep ser frame}.
Context (tmp_buf fmt_high fmt_cross : Z) (h : @handlers S) (report : Z -> M S unit) (frame_addr : Z).
Context (lit : string -> Z) (buf : Z).
Abbreviation mem_of s := (se_mem (lget ser s)).

(** The program in memory: its literals, the array of [u_printf] and, while it
    has one, its heap block [p]. *)
Record loaded (p : option Z) (s : S) : Prop := {
  ld_log : log_ready (lget ser s);
  ld_text : forall t, t ∈ texts -> cstr (mem_of s) (lit t) (c_bytes t);
  ld_buf : owned (mem_of s) buf 512;
  ld_heap : forall q, p = Some q -> owned (mem_of s) q (Z.to_nat big_size);
}.

(** A block away from the literals. *)
Definition apart (a : Z) (n : nat) : Prop := forall t, t ∈ texts -> disjoint_blocks (lit t) (Datatypes.S (length (c_bytes t))) a n.

(** [s'] is [s] but for memory the program does not own, and the keyboard. *)
Definition undisturbed (p p' : option Z) (s s' : S) : Prop :=
  (loaded p s -> loaded p' s') /\ logged (lget ser s') = logged (lget ser s).

(** The characters that are still to come. *)
Context (keys : S -> list Z).

Record quiet (hd : M S Z) (P : Z -> Prop) : Prop := {
  q_returns : forall s, loaded None s -> exists r s', hd s = Ok (r, s') /\ P r /\ undisturbed None None s s' /\ keys s' = keys s;
}.

(** The answers of the kernel: the number of the task, the number of
    processors, the block of memory or [NULL]. *)
Context (the_tid the_cpus the_block : Z).

(** The kernel as the program sees it. Nothing is said of [sys_exit], which
    does not come back. *)
Record kernel_ok : Prop := {
  k_buf : 0 < buf /\ buf + 512 <= USER_SPACE_END /\ apart buf 512;
  k_kprint : h_kprint h = sys_kprint_handler ser frame tmp_buf fmt_high fmt_cross;
  k_sleep : quiet (h_sleep h) (fun _ => True);
  k_yield : quiet (h_yield h) (fun _ => True);
  k_tid : quiet (h_get_tid h) (eq the_tid);
  k_cpus : quiet (h_cpu_count h) (eq the_cpus);
  (** [sys_malloc] fails, or gives a block of the size in RDI *)
  k_malloc : forall s, loaded None s -> rdi (lget frame s) = big_size -> exists s', h_malloc h s = Ok (the_block, s') /\ keys s' = keys s /\
    0 <= the_block < 2 ^ 64 /\ (the_block <> NULL -> apart the_block (Z.to_nat big_size)) /\
    undisturbed None (if the_block =? NULL then None else Some the_block) s s';
  (** [sys_free] takes the block in RDI back *)
  k_free : forall p s, loaded (Some p) s -> rdi (lget frame s) = p -> rsi (lget frame s) = big_size ->
    exists r s', h_free h s = Ok (r, s') /\ keys s' = keys s /\ undisturbed (Some p) None s s';
  (** [sys_read_kbd] waits for a character *)
  k_kbd : forall s c l, loaded None s -> keys s = c :: l -> exists s', h_kbd h s = Ok (c, s') /\ keys s' = l /\ undisturbed None None s s';
  (** The registers and the log have no part in the keyboard. *)
  k_frame : forall f s, keys (lset frame f s) = keys s;
  k_serial : forall x s, keys (lset ser x s) = keys s;
}.
Context (Hk : kernel_ok).

Lemma loaded_frame p f s : loaded p (lset frame f s) <-> loaded p s.
Proof. split; intros [A B C D]; split; revert A B C D; by rewrite !lget_lset_l. Qed.

(** ** Printing, step by step *)

(** [m] returns, has appended [out] to the log, and [Q] holds. *)
Definition pr {A} (m : M S A) (Q : A -> list Z -> S -> Prop) (s : S) : Prop :=
  exists a out s', m s = Ok (a, s') /\ logged (lget ser s') = recent (logged (lget ser s) ++ crlf out) /\ Q a out s'.

Lemma crlf_app l1 l2 : crlf (l1 ++ l2) = crlf l1 ++ crlf l2.
Proof. apply bind_app. Qed.

Lemma recent_logged (x : serial) : recent (logged x) = logged x.
Proof. apply recent_short, length_logged. Qed.

Lemma pr_ret {A} (a : A) (Q : A -> list Z -> S -> Prop) s : Q a [] s -> pr (ret a) Q s.
Proof. intros HQ. exists a, [], s. split_and!; [done| |done]. by rewrite app_nil_r, recent_logged. Qed.

Lemma pr_bind {A B} (m : M S A) (k : A -> M S B) Q s :
  pr m (fun a o s' => pr (k a) (fun b o' s'' => Q b (o ++ o') s'') s') s -> pr (bind m k) Q s.
Proof.
  intros (a & o & s1 & E1 & L1 & b & o' & s2 & E2 & L2 & HQ). exists b, (o ++ o'), s2. split_and!; [by rewrite (bind_ok _ _ _ _ _ E1)| |done].
  by rewrite L2, L1, recent_app, crlf_app, app_assoc.
Qed.

Lemma pr_mono {A} (m : M S A) (Q Q' : A -> list Z -> S -> Prop) s : pr m Q s -> (forall a o s', Q a o s' -> Q' a o s') -> pr m Q' s.
Proof. intros (a & o & s1 & E1 & L1 & HQ) H. exists a, o, s1. split_and!; auto. Qed.

(** A call that prints nothing. *)
Lemma pr_silent {A} (m : M S A) (Q : A -> list Z -> S -> Prop) s a s' :
  m s = Ok (a, s') -> logged (lget ser s') = logged (lget ser s) -> Q a [] s' -> pr m Q s.
Proof. intros E L HQ. exists a, [], s'. split_and!; [done| |done]. by rewrite app_nil_r, recent_logged. Qed.

Lemma pr_printf p t args out (Q : unit -> list Z -> S -> Prop) s :
  loaded p s -> t ∈ texts -> render (Datatypes.S (length (c_bytes t))) (fun _ => None) (c_bytes t) args = Some out ->
  (length out <= 510)%nat -> Forall (fun c => 0 < c < 256) out -> Forall (fun a => 0 <= a < 2 ^ 64) args ->
  (forall s', loaded p s' -> keys s' = keys s -> Q tt out s') -> pr (printf ser frame h report frame_addr lit buf t args) Q s.
Proof.
  intros [L1 L2 L3 L4] Ht Hr Hn Ho Ha HQ. destruct (k_buf Hk) as (B1 & B2 & B3).
  destruct (u_printf_spec ser frame tmp_buf fmt_high fmt_cross h report frame_addr s buf (lit t) (c_bytes t) (fun _ => None) args out (k_kprint Hk) L1 B1 B2 Hr Hn Ho Ha)
    as (se' & fr & E & Hlr & Hlog & Hm); [split; [by apply L2|by apply B3|done|done]|].
  eexists tt, out, _. split_and!; [exact E| |].
  - by rewrite lget_lset_l, lget_lset.
  - apply HQ; [|by rewrite (k_frame Hk), (k_serial Hk)]. apply loaded_frame. split; rewrite ?lget_lset; [done| | |].
    + intros t' Ht'. rewrite Hm. apply cstr_upd; [by apply L2|]. pose proof (B3 t' Ht') as D. unfold disjoint_blocks in *. rewrite length_app. simpl. lia.
    + rewrite Hm. by apply owned_upd.
    + intros q Hq. rewrite Hm. by apply owned_upd, L4.
Qed.

(** Calls of the kernel. *)
Lemma pr_reaches {A} (call : M S A) hd num a1 a2 back p s (Q : A -> list Z -> S -> Prop) :
  reaches frame call hd num a1 a2 back -> loaded p s ->
  (forall s0, loaded p s0 -> lget frame s0 = mkFrame num a1 a2 -> keys s0 = keys s -> exists r s' p', hd s0 = Ok (r, s') /\ undisturbed p p' s0 s' /\
    forall s1, loaded p' s1 -> keys s1 = keys s' -> Q (back r) [] s1) -> pr call Q s.
Proof.
  intros Hc Hl Hh. set (s0 := lset frame (mkFrame num a1 a2) s).
  destruct (Hh s0) as (r & s' & p' & E & [U1 U2] & HQ); [by apply loaded_frame|apply lget_lset|apply (k_frame Hk)|].
  eapply (pr_silent call); [by apply Hc| |].
  - rewrite lget_lset_l, U2. unfold s0. by rewrite lget_lset_l.
  - apply HQ; [apply loaded_frame, U1; by apply loaded_frame|apply (k_frame Hk)].
Qed.

Lemma pr_switches (call : M S unit) hd num a1 a2 s (Q : unit -> list Z -> S -> Prop) :
  switches frame call hd num a1 a2 -> quiet hd (fun _ => True) -> loaded None s ->
  (forall s1, loaded None s1 -> keys s1 = keys s -> Q tt [] s1) -> pr call Q s.
Proof.
  intros Hc [Hq] Hl HQ. destruct (Hq (lset frame (mkFrame num a1 a2) s)) as (r & s' & E & _ & [U1 U2] & Ek); [by apply loaded_frame|].
  eapply (pr_silent call); [by apply (Hc s r)| |].
  - rewrite U2. by rewrite lget_lset_l.
  - apply HQ; [apply U1; by apply loaded_frame|by rewrite Ek, (k_frame Hk)].
Qed.

Lemma pr_quiet {A} (call : M S A) hd num a1 a2 back P s (Q : A -> list Z -> S -> Prop) :
  reaches frame call hd num a1 a2 back -> quiet hd P -> loaded None s ->
  (forall r s1, P r -> loaded None s1 -> keys s1 = keys s -> Q (back r) [] s1) -> pr call Q s.
Proof.
  intros Hc [Hq] Hl HQ. eapply (pr_reaches call hd); [exact Hc|exact Hl|]. intros s0 Hl0 _ Ek.
  destruct (Hq s0 Hl0) as (r & s' & E & HP & U & Ek'). exists r, s', None. split_and!; [done|done|]. intros s1 H1 E1. apply HQ; [done|done|congruence].
Qed.

(** ** The parts of the program *)

Abbreviation calls := (user_calls_reach frame h report frame_addr 0 0 0 0 0).

(** [m] prints [out], whatever the state. *)
Definition says (p p' : option Z) (m : M S unit) (out : list Z) : Prop := forall s (Q : unit -> list Z -> S -> Prop),
  loaded p s -> (forall s', loaded p' s' -> keys s' = keys s -> Q tt out s') -> pr m Q s.

Lemma says_then p1 p2 p3 m k o1 o2 : says p1 p2 m o1 -> says p2 p3 k o2 -> says p1 p3 (m ;;; k) (o1 ++ o2).
Proof.
  intros Hm Hk2 s Q Hl HQ. apply pr_bind, Hm; [done|]. intros s1 H1 E1. apply Hk2; [done|]. intros s2 H2 E2. apply HQ; [done|congruence].
Qed.

Lemma says_mapM {A} p (f : A -> M S unit) (text : A -> list Z) l :
  (forall a, a ∈ l -> says p p (f a) (text a)) -> says p p (mapM_ f l) (l ≫= text).
Proof.
  induction l as [|a l IH]; intros Hf; cbn [mapM_]; [intros s Q Hl HQ; apply pr_ret; by apply HQ|].
  change ((a :: l) ≫= text) with (text a ++ (l ≫= text)). eapply says_then; [apply Hf; by left|]. apply IH. intros b Hb. apply Hf. by right.
Qed.

Lemma says_sleep ms : says None None (u_sleep frame h report frame_addr ms) [].
Proof. intros s Q Hl HQ. eapply pr_switches; [|exact (k_sleep Hk)|done|done]. apply (user_calls_reach frame h report frame_addr 0 ms 0 0 0). Qed.

Lemma says_yield : says None None (u_yield frame h report frame_addr) [].
Proof. intros s Q Hl HQ. eapply (pr_quiet _ _ _ _ _ (fun _ => tt)); [apply calls|exact (k_yield Hk)|done|]. intros r s1 _. apply HQ. Qed.

Lemma says_printf p t args out :
  t ∈ texts -> render (Datatypes.S (length (c_bytes t))) (fun _ => None) (c_bytes t) args = Some out ->
  (length out <= 510)%nat /\ Forall (fun c => 0 < c < 256) out -> Forall (fun a => 0 <= a < 2 ^ 64) args ->
  says p p (printf ser frame h report frame_addr lit buf t args) out.
Proof. intros Ht Hr [Hn Ho] Ha s Q Hl HQ. by apply (pr_printf p t args out). Qed.

(** A literal without conversions. *)
Lemma says_plain p t : t ∈ texts -> render (Datatypes.S (length (c_bytes t))) (fun _ => None) (c_bytes t) [] = Some (c_bytes t) ->
  bool_decide ((length (c_bytes t) <= 510)%nat /\ Forall (fun c => 0 < c < 256) (c_bytes t)) = true ->
  says p p (printf ser frame h report frame_addr lit buf t []) (c_bytes t).
Proof. intros Ht Hr Hb. apply says_printf; [done|done|by apply bool_decide_eq_true in Hb|constructor]. Qed.

Ltac plain := apply says_plain; [by_decide|vm_compute; reflexivity|vm_compute; reflexivity].

Definition iteration (i : Z) : list Z := c_bytes "TASK 2 | Iteration: " ++ dec i ++ [10].
Definition task_2_text : list Z := (seqZ 1 4 ≫= iteration) ++ c_bytes "TASK 2 DONE\n".

Lemma task_2_says : says None None (user_test_task_2 ser frame h report frame_addr lit buf) task_2_text.
Proof.
  unfold user_test_task_2, task_2_text. apply (says_then None None None).
  - apply says_mapM. intros i Hi. rewrite <-(app_nil_r (iteration i)). apply (says_then None None None); [|apply says_sleep].
    change (i ∈ [1; 2; 3; 4]) in Hi. apply says_printf; [by_decide| | |].
    + revert i Hi. apply Forall_forall. repeat constructor.
    + revert i Hi. apply Forall_forall. by_decide.
    + revert i Hi. apply Forall_forall. by_decide.
  - rewrite <-(app_nil_r (c_bytes _)). apply (says_then None None None); [plain|apply says_yield].
Qed.

(** Numbers and pointers in a text. *)
Lemma pieces_ok (l : list (list Z)) :
  Forall (fun t => (length t <= 66)%nat /\ Forall (fun c => 0 < c < 256) t) l -> (length l <= 7)%nat ->
  (length (concat l) <= 510)%nat /\ Forall (fun c => 0 < c < 256) (concat l).
Proof.
  intros Hl Hn. assert ((length (concat l) <= 66 * length l)%nat /\ Forall (fun c => 0 < c < 256) (concat l)) as [? ?]; [|split; [lia|done]].
  clear Hn. induction Hl as [|t l [H1 H2] _ [IH1 IH2]]; [by split|]. cbn [concat]. rewrite length_app. split; [cbn [length]; lia|by apply Forall_app].
Qed.

Lemma dec_ok n : (length (dec n) <= 66)%nat /\ Forall (fun c => 0 < c < 256) (dec n).
Proof. destruct (num_text_ok n 10 0 32) as [? ?]; [lia..|]. unfold dec. split; [lia|done]. Qed.

Lemma hex_ok p : (length (hex_ptr p) <= 66)%nat /\ Forall (fun c => 0 < c < 256) (hex_ptr p).
Proof. destruct (num_text_ok p 16 16 48) as [? ?]; [lia..|]. unfold hex_ptr. split; [simpl; lia|]. repeat constructor; try lia. done. Qed.

(** The memory test *)

Definition malloc_text (p : Z) : list Z :=
  c_bytes "### STARTING MEMORY STRESS TEST ###\n" ++
  if p =? NULL then c_bytes "Malloc failed!\n" else
  (c_bytes "Allocated 10 pages at " ++ hex_ptr p ++ [10]) ++
  (c_bytes "Memory written and verified at " ++ hex_ptr p ++ c_bytes ".\n") ++
  (c_bytes "Freeing 40960 bytes at " ++ hex_ptr p ++ c_bytes "...\n").

Strategy expand [malloc_text].

Lemma touch_says p i : apart p (Z.to_nat big_size) -> i ∈ seqZ 0 10 -> says (Some p) (Some p) (touch_page ser p i) [].
Proof.
  intros Hp Hi%elem_of_seqZ s Q [L1 L2 L3 L4] HQ. specialize (L4 p eq_refl). set (a := p + 8 * (i * 512)). set (w := le 8 (Z.lor 0xCAFEBABE00000000 i)).
  assert (owned (mem_of s) a (length w)) as Ho.
  { unfold w, a. rewrite length_le. replace (8 * (i * 512)) with (Z.of_nat (Z.to_nat (8 * (i * 512)))) by lia.
    apply owned_offset, (owned_le _ _ _ _ L4). unfold big_size. lia. }
  set (se' := set_se_mem (upd (mem_of s) a w) (lget ser s)).
  eapply (pr_silent _ _ s tt (lset ser se' s)).
  - unfold touch_page, on_serial, on_mem, store64. fold a w. by rewrite store_bytes_spec.
  - by rewrite lget_lset.
  - apply HQ; [|apply (k_serial Hk)]. split; rewrite ?lget_lset; cbn [se' set_se_mem se_mem].
    + by destruct L1.
    + intros t Ht. apply cstr_upd; [by apply L2|]. pose proof (Hp t Ht) as D. unfold w. rewrite length_le. unfold disjoint_blocks, a, big_size in *. lia.
    + by apply owned_upd.
    + intros q [= <-]. by apply owned_upd.
Qed.

Lemma piece_says p t mid pre post args :
  t ∈ texts -> render (Datatypes.S (length (c_bytes t))) (fun _ => None) (c_bytes t) args = Some (pre ++ mid ++ post) ->
  (length mid <= 66)%nat /\ Forall (fun c => 0 < c < 256) mid ->
  bool_decide ((length pre <= 66)%nat /\ (length post <= 66)%nat /\ Forall (fun c => 0 < c < 256) pre /\ Forall (fun c => 0 < c < 256) post) = true ->
  Forall (fun a => 0 <= a < 2 ^ 64) args ->
  says p p (printf ser frame h report frame_addr lit buf t args) (pre ++ mid ++ post).
Proof.
  intros Ht Hr Hm Hb Ha. apply bool_decide_eq_true in Hb as (B1 & B2 & B3 & B4). apply says_printf; try done.
  replace (pre ++ mid ++ post) with (concat [pre; mid; post]) by (simpl; by rewrite app_nil_r).
  apply pieces_ok; [|simpl; lia]. constructor; [by split|constructor; [done|constructor; [by split|constructor]]].
Qed.

Ltac slots := rewrite ?Forall_cons, Forall_nil; unfold big_size; lia.

(** The block is used and given back. *)
Lemma block_says p : apart p (Z.to_nat big_size) -> 0 <= p < 2 ^ 64 -> says (Some p) None
  (printf ser frame h report frame_addr lit buf "Allocated 10 pages at %p\n" [p] ;;;
   mapM_ (touch_page ser p) (seqZ 0 10) ;;;
   printf ser frame h report frame_addr lit buf "Memory written and verified at %p.\n" [p] ;;;
   printf ser frame h report frame_addr lit buf "Freeing %d bytes at %p...\n" [big_size; p] ;;;
   u_sys_free frame h report frame_addr p big_size ;;;
   u_sleep frame h report frame_addr 50)
  ((c_bytes "Allocated 10 pages at " ++ hex_ptr p ++ [10]) ++
   (c_bytes "Memory written and verified at " ++ hex_ptr p ++ c_bytes ".\n") ++
   (c_bytes "Freeing 40960 bytes at " ++ hex_ptr p ++ c_bytes "...\n")).
Proof.
  intros Hap Hp. eapply says_then; [apply piece_says; [by_decide|done|apply hex_ok|vm_compute; reflexivity|slots]|].
  rewrite <-(app_nil_l ((c_bytes "Memory written and verified at " ++ _) ++ _)). eapply says_then; [apply (says_mapM _ (touch_page ser p) (fun _ => []) (seqZ 0 10)); intros i Hi; by apply touch_says|].
  eapply says_then; [apply piece_says; [by_decide|done|apply hex_ok|vm_compute; reflexivity|slots]|].
  rewrite <-(app_nil_r (c_bytes "Freeing 40960 bytes at " ++ _)). eapply says_then; [apply piece_says; [by_decide|done|apply hex_ok|vm_compute; reflexivity|slots]|].
  rewrite <-(app_nil_r []). apply (says_then _ None); [|apply says_sleep].
  intros s Q Hl HQ. eapply (pr_reaches _ _ _ _ _ (fun _ => tt)); [apply (user_calls_reach frame h report frame_addr 0 0 big_size p 0)|exact Hl|].
  intros s2 H2 Ef E2. destruct (k_free Hk p s2 H2) as (r & s3 & E3 & Ek3 & Hu); [by rewrite Ef|by rewrite Ef|].
  exists r, s3, None. split_and!; [done|done|]. intros s4 H4 E4. apply HQ; [done|congruence].
Qed.

Lemma malloc_test_prints s (Q : unit -> list Z -> S -> Prop) :
  loaded None s -> (forall s', loaded None s' -> keys s' = keys s -> Q tt (malloc_text the_block) s') ->
  pr (user_malloc_test ser frame h report frame_addr lit buf) Q s.
Proof.
  intros Hl HQ. unfold user_malloc_test. apply pr_bind. eapply says_plain; [by_decide|vm_compute; reflexivity|vm_compute; reflexivity|done|].
  intros s1 H1 E1. apply pr_bind. eapply (pr_reaches _ _ _ _ _ (fun r => r)); [apply (user_calls_reach frame h report frame_addr 0 0 big_size 0 0)|exact H1|].
  intros s2 H2 Ef E2. set (p := the_block) in *. destruct (k_malloc Hk s2 H2) as (s3 & E3 & Ek3 & Hp & Hap & Hu); [by rewrite Ef|].
  exists p, s3, (if p =? NULL then None else Some p). split_and!; [done|done|]. intros s4 H4 E4. cbn [app].
  assert (forall s', loaded None s' -> keys s' = keys s4 -> Q tt (malloc_text p) s') as HQ' by (intros s' Hs' Es'; apply HQ; [done|congruence]).
  unfold malloc_text in HQ'. destruct (Z.eqb_spec p NULL) as [E0|E0]; [by eapply says_plain; [by_decide|vm_compute; reflexivity|vm_compute; reflexivity|done|]|].
  revert H4 HQ'. generalize (c_bytes "### STARTING MEMORY STRESS TEST ###\n"). intros pre H4 HQ'. eapply (block_says p (Hap E0) Hp s4); [done|]. intros s' Hs' Es'. by apply HQ'.
Qed.

(** What the kernel knows of the task *)

Lemma render_pre strs pre f args fuel : 37 ∉ pre ->
  render (length pre + fuel) strs (pre ++ f) args = t ← render fuel strs f args; Some (pre ++ t).
Proof.
  induction pre as [|c pre IH]; intros Hn; cbn [length app Nat.add]; [by destruct (render fuel strs f args)|].
  rewrite not_elem_of_cons in Hn. destruct Hn as [Hc Hn]. cbn [render]. rewrite (proj2 (Z.eqb_neq c 37)) by congruence. cbn [negb].
  rewrite IH by done. by destruct (render fuel strs f args).
Qed.

Lemma render_dec strs t pre post n : c_bytes t = pre ++ 37 :: 100 :: post -> 37 ∉ pre -> 37 ∉ post -> 0 <= n < 2 ^ 63 ->
  render (Datatypes.S (length (c_bytes t))) strs (c_bytes t) [n] = Some (pre ++ dec n ++ post).
Proof.
  intros -> H1 H2 Hn. rewrite length_app. cbn [length]. rewrite <-Nat.add_succ_r, render_pre by done.
  set (fuel := Datatypes.S (Datatypes.S (length post))). cbn [render]. rewrite Z.eqb_refl. cbn [negb take_width]. cbv beta iota.
  change ((48 <=? 100) && (100 <=? 57)) with false. cbv iota. change (65 <? 0) with false. cbv iota. rewrite conv_d by done. cbn [mbind option_bind].
  assert (render fuel strs post [] = Some post) as ->; [|done]. rewrite <-(app_nil_r post) at 1. unfold fuel.
  replace (Datatypes.S (Datatypes.S (length post))) with (length post + 2)%nat by lia. rewrite render_pre by done. simpl. by rewrite app_nil_r.
Qed.

Definition info_text (tid cpus : Z) : list Z :=
  (c_bytes "Current TID: " ++ dec tid ++ [10]) ++ (c_bytes "Available CPUs: " ++ dec cpus ++ [10]).

Lemma info_prints s (Q : unit -> list Z -> S -> Prop) :
  loaded None s -> (forall s', loaded None s' -> keys s' = keys s -> Q tt (info_text (w32 the_tid) (w8 the_cpus)) s') ->
  pr (user_info_test ser frame h report frame_addr lit buf) Q s.
Proof.
  intros Hl HQ. unfold user_info_test. apply pr_bind. eapply pr_quiet; [apply calls|exact (k_tid Hk)|exact Hl|]. intros r s1 <- H1 E1. cbn [app].
  pose proof (w32_range the_tid). apply pr_bind. eapply (piece_says None _ (dec (w32 the_tid)) (c_bytes "Current TID: ") [10]); [by_decide|apply render_dec; [vm_compute; reflexivity|by_decide|by_decide|lia]|apply dec_ok|vm_compute; reflexivity|slots|exact H1|].
  intros s2 H2 E2. apply pr_bind. eapply pr_quiet; [apply calls|exact (k_cpus Hk)|exact H2|]. intros n s3 <- H3 E3. cbn [app].
  pose proof (w8_range the_cpus). eapply (says_then None None None); [|exact (says_then None None None _ _ [] [] (says_sleep 50) says_yield)|exact H3|].
  { eapply (piece_says None _ (dec (w8 the_cpus)) (c_bytes "Available CPUs: ") [10]); [by_decide|apply render_dec; [vm_compute; reflexivity|by_decide|by_decide|lia]|apply dec_ok|vm_compute; reflexivity|slots]. }
  intros s4 H4 E4. rewrite app_nil_r. apply HQ; [done|congruence].
Qed.

(** The shell *)

Lemma int8_char c : 0 <= c < 256 -> w8 (w32 (int8 c)) = c /\ (int8 c =? 0) = (c =? 0).
Proof.
  intros Hc. unfold int8, w8, w32. rewrite (Z.mod_small c) by lia. change (2 ^ 8) with 256. change (2 ^ 32) with 4294967296.
  destruct (Z.ltb_spec c 128).
  - rewrite (Z.mod_small c 4294967296) by lia. by rewrite Z.mod_small by lia.
  - split; [Z.div_mod_to_equations; lia|]. rewrite (proj2 (Z.eqb_neq _ _)), (proj2 (Z.eqb_neq _ _)) by lia. done.
Qed.

Definition echoed (l : list Z) : list Z := filter (fun c => c <> 0) l.

Lemma echo_turn_prints c l s (Q : unit -> list Z -> S -> Prop) :
  0 <= c < 256 -> loaded None s -> keys s = c :: l -> (forall s', loaded None s' -> keys s' = l -> Q tt (echoed [c]) s') ->
  pr (echo_turn ser frame h report frame_addr lit buf) Q s.
Proof.
  intros Hc Hl Ek HQ. destruct (int8_char c Hc) as [W Z0]. unfold echo_turn. apply pr_bind. eapply pr_reaches; [apply calls|exact Hl|].
  intros s0 H0 _ E0. destruct (k_kbd Hk s0 c l H0) as (s1 & E1 & Ek1 & U); [congruence|]. exists c, s1, None. split_and!; [done|done|].
  intros s2 H2 E2. cbn [app]. rewrite Z0. unfold echoed in HQ. rewrite filter_cons, filter_nil in HQ.
  destruct (Z.eqb_spec c 0) as [->|Hne]; cbn [negb when].
  - apply pr_bind, pr_ret. apply says_sleep; [done|]. intros s3 H3 E3. cbn [app]. apply HQ; [done|congruence].
  - rewrite decide_True in HQ by done. eapply (says_then None None None); [|apply says_sleep|exact H2|].
    + apply (says_printf None "%c" [w32 (int8 c)] [c]); [by_decide| |split; [simpl; lia|repeat constructor; lia]|pose proof (w32_range (int8 c)); slots].
      change (Some [w8 (w32 (int8 c))] = Some [c]). by rewrite W.
    + intros s3 H3 E3. apply HQ; [done|congruence].
Qed.

Lemma echo_prints ks : forall (i : nat) l s (Q : unit -> list Z -> S -> Prop),
  Forall (fun c => 0 <= c < 256) ks -> loaded None s -> keys s = ks ++ l -> (forall s', loaded None s' -> keys s' = l -> Q tt (echoed ks) s') ->
  pr (mapM_ (fun _ => echo_turn ser frame h report frame_addr lit buf) (seq i (length ks))) Q s.
Proof.
  induction ks as [|c ks IH]; intros i l s Q Hks Hl Ek HQ; cbn [length seq mapM_]; [apply pr_ret; by apply HQ|].
  inversion_clear Hks as [|? ? Hc Hks']. apply pr_bind. apply (echo_turn_prints c (ks ++ l)); [done|done|done|]. intros s1 H1 E1.
  apply (IH _ l); [done|done|done|]. intros s2 H2 E2. unfold echoed. rewrite <-filter_app. by apply HQ.
Qed.

Definition start_text (p tid cpus : Z) (ks : list Z) : list Z :=
  c_bytes "ELF WORKS! Entering Ring 3 environment...\n" ++ task_2_text ++ malloc_text p ++ info_text tid cpus ++
  c_bytes "\n### SHELL ###\n" ++ echoed ks.

Strategy expand [start_text].

Lemma start_prints ks l s :
  Forall (fun c => 0 <= c < 256) ks -> loaded None s -> keys s = ks ++ l ->
  pr (_start ser frame h report frame_addr lit buf (length ks)) (fun _ out s' => keys s' = l /\ out = start_text the_block (w32 the_tid) (w8 the_cpus) ks) s.
Proof.
  intros Hks Hl Ek. unfold _start. apply pr_bind. eapply says_plain; [by_decide|vm_compute; reflexivity|vm_compute; reflexivity|done|].
  intros s1 H1 E1. apply pr_bind, says_sleep; [done|]. intros s2 H2 E2. apply pr_bind, task_2_says; [done|]. intros s3 H3 E3.
  apply pr_bind, malloc_test_prints; [done|]. intros s4 H4 E4. apply pr_bind, info_prints; [done|]. intros s5 H5 E5.
  unfold user_test_task_echo. apply pr_bind. eapply says_plain; [by_decide|vm_compute; reflexivity|vm_compute; reflexivity|done|]. intros s6 H6 E6.
  apply (echo_prints ks 0 l); [done|done|congruence|]. intros s7 H7 E7. split; [done|]. unfold start_text. by rewrite (app_nil_l (task_2_text ++ _)).
Qed.

Lemma ap_task_says : says None None
  (printf ser frame h report frame_addr lit buf "\nRING 3 AP AP AP AP AP\n" [] ;;; u_sleep frame h report frame_addr 10) (c_bytes "\nRING 3 AP AP AP AP AP\n").
Proof. rewrite <-(app_nil_r (c_bytes _)). apply (says_then None None None); [plain|apply says_sleep]. Qed.

(** the first program, on a kernel that answers its calls. With a keyboard
    that delivers the characters [ks] the program, as far as the turn of its
    shell that has read them all, returns from every call and has appended to
    the log exactly the text of its tests, with the block, the number of the
    task and the number of processors the kernel answered, and then the
    characters of [ks] that are not NUL, in order. The task that the other
    processors start has printed its line when it calls [u_exit]. *)
Theorem init_program_correct ks l s :
  Forall (fun c => 0 <= c < 256) ks -> loaded None s -> keys s = ks ++ l ->
  (exists s', _start ser frame h report frame_addr lit buf (length ks) s = Ok (tt, s') /\
    logged (lget ser s') = recent (logged (lget ser s) ++ crlf (start_text the_block (w32 the_tid) (w8 the_cpus) ks)) /\ keys s' = l) /\
  exists s', user_test_task_ap ser frame h report frame_addr lit buf s = u_exit frame h report frame_addr s' /\
    logged (lget ser s') = recent (logged (lget ser s) ++ crlf (c_bytes "\nRING 3 AP AP AP AP AP\n")).
Proof.
  intros Hks Hl Ek. split.
  - destruct (start_prints ks l s Hks Hl Ek) as ([] & out & s' & E & L & Ek' & ->). by exists s'.
  - destruct (ap_task_says s (fun _ out _ => out = c_bytes "\nRING 3 AP AP AP AP AP\n") Hl ltac:(done)) as ([] & out & s' & E & L & ->).
    exists s'. split; [|done]. unfold user_test_task_ap. by rewrite <-bind_bind, (bind_ok _ _ _ _ _ E).
Qed.
End output.

(** ** A kernel for the program *)

Record machine := mkMachine { m_serial : serial; m_frame : iframe; m_keys : list Z }.

Definition m_ser : lens machine serial := Lens m_serial (fun x s => mkMachine x (m_frame s) (m_keys s)).
Definition m_fr : lens machine iframe := Lens m_frame (fun f s => mkMachine (m_serial s) f (m_keys s)).
#[local] Instance m_ser_ok : LensOk m_ser.
Proof. split; intros; try destruct s; done. Qed.
#[local] Instance m_fr_ok : LensOk m_fr.
Proof. split; intros; try destruct s; done. Qed.
#[local] Instance machine_indep : LensIndep m_ser m_fr.
Proof. by split. Qed.

(** The literals at their places, the array at 16, the heap at 4 MB. *)
Definition place_of (t : string) : Z := 0x10000 + 256 * Z.of_nat (default 0%nat (fst <$> list_find (fun u => u = t) texts)).
Definition program_mem : mem := foldr (fun t m => upd m (place_of t) (c_bytes t ++ [0])) (upd ∅ 16 (replicate 512 0)) texts.
Definition HEAP_BASE : Z := 0x400000.

Definition next_key : M machine Z := fun s =>
  match m_keys s with [] => Hang | c :: l => Ok (c, mkMachine (m_serial s) (m_frame s) l) end.
Definition give_block : M machine Z :=
  modify (fun s => lset m_ser (set_se_mem (upd (se_mem (m_serial s)) HEAP_BASE (replicate (Z.to_nat big_size) 0)) (m_serial s)) s) ;;; ret HEAP_BASE.

Definition program_handlers : @handlers machine :=
  {| h_kprint := sys_kprint_handler m_ser m_fr 0x8000 0x9000 0x9100; h_exit := ret 0; h_get_uptime := ret 0; h_sleep := ret 0; h_yield := ret 0;
     h_kbd := next_key; h_kprint_hex := ret 0; h_cpu_id := ret 0; h_malloc := give_block; h_free := ret 0; h_get_tid := ret 10; h_cpu_count := ret 2 |}.

Definition program_start (ks : list Z) : machine := mkMachine (set_se_mem program_mem (log_demo [])) (mkFrame 0 0 0) ks.

Lemma quiet_ret v (P : Z -> Prop) : P v -> quiet m_ser place_of 16 m_keys (ret v) P.
Proof. intros HP. split. intros s Hl. exists v, s. by split_and!. Qed.

Lemma apart_by (a : Z) (n : nat) :
  Forall (fun t => place_of t + Z.of_nat (Datatypes.S (length (c_bytes t))) <= a \/ a + Z.of_nat n <= place_of t) texts -> apart place_of a n.
Proof. rewrite Forall_forall. intros Hf t Ht. by apply Hf. Qed.

Lemma program_kernel_ok : kernel_ok m_ser m_fr 0x8000 0x9000 0x9100 program_handlers place_of 16 m_keys 10 2 HEAP_BASE.
Proof.
  split; try (by apply quiet_ret); try done.
  - split_and!; [lia|by_decide|apply apart_by; by_decide].
  - intros s [L1 L2 L3 L4] _. eexists. split; [done|]. split_and!; [done|by_decide|by_decide|intros _; apply apart_by; by_decide|].
    split; [|done]. intros _. change (HEAP_BASE =? NULL) with false. cbv iota. split; cbn [lget m_ser m_serial set_se_mem se_mem].
    + by destruct L1.
    + intros t Ht. apply cstr_upd; [by apply L2|]. rewrite length_replicate. apply (apart_by HEAP_BASE (Z.to_nat big_size)); [by_decide|done].
    + by apply owned_upd.
    + intros q [= <-] i Hi. exists 0. apply upd_cells. by apply lookup_replicate_2.
  - intros p s [L1 L2 L3 L4] _ _. exists 0, s. by split_and!.
  - intros s c l Hl E. exists (mkMachine (m_serial s) (m_frame s) l). unfold program_handlers, h_kbd, next_key. rewrite E. split_and!; [done|done|].
    split; [|done]. by intros [A B C D].
Qed.

Lemma program_loaded ks : loaded m_ser place_of 16 None (program_start ks).
Proof.
  split; cbn [lget m_ser m_serial program_start set_se_mem se_mem].
  - split; [by eexists|done|by split].
  - assert (forallb (fun t => forallb (fun p => bool_decide (program_mem !! (place_of t + Z.of_nat p.1) = Some p.2)) (imap pair (c_bytes t ++ [0])) &&
      forallb (fun c => (0 <? c) && (c <? 256)) (c_bytes t)) texts = true) as Hb by (vm_compute; reflexivity).
    intros t Ht%list_elem_of_In. rewrite forallb_forall in Hb. apply Hb, andb_true_iff in Ht as [H1 H2]. by apply cstr_decide.
  - apply owned_decide. vm_compute. reflexivity.
  - done.
Qed.

(** The keys h, NUL and i. *)
Lemma init_program_correct_witness :
  exists s', _start m_ser m_fr program_handlers (fun _ => ret tt) 0 place_of 16 3 (program_start [104; 0; 105]) = Ok (tt, s') /\
    logged (m_serial s') = recent (logged (m_serial (program_start [104; 0; 105])) ++ crlf (start_text HEAP_BASE 10 2 [104; 0; 105])) /\
    echoed [104; 0; 105] = [104; 105].
Proof.
  destruct (init_program_correct m_ser m_fr 0x8000 0x9000 0x9100 program_handlers (fun _ => ret tt) 0 place_of 16 m_keys 10 2 HEAP_BASE program_kernel_ok
    [104; 0; 105] [] (program_start [104; 0; 105]) ltac:(by_decide) (program_loaded _) eq_refl) as [(s' & E & L & _) _].
  exists s'. split; [exact E|]. split; [exact L|reflexivity].
Defined.
