(* ===== verification/Reaper.v ===== *)
(** * The reaper: correctness

    [sched_reap] of [Task]: which tasks it takes out of the lists, what it
    gives back to the heap and in which order; and what happens when the task
    it removes is still running on another CPU. *)

From S2P Require Import Prelude Lock Chain Sched Runqueue Balance Schedule Wakeup Strings Acpi Vma Syscall Elf Dll Task TaskRing TaskSpec.

(** ** Services that return *)

(** The services the reaper uses, as functions on their state: each call
    returns. *)
Class EnvReturns (E : Type) `{VmaEnv E} := {
  locked : E -> E;
  unlocked : E -> E;
  freed : Z -> E -> E;
  destroyed : Z -> bool -> E -> E;
  env_lock_eq : forall e, env_lock e = Ok (tt, locked e);
  env_unlock_eq : forall e, env_unlock e = Ok (tt, unlocked e);
  env_kfree_eq : forall p e, env_kfree p e = Ok (tt, freed p e);
  env_destroy_eq : forall c b e, env_destroy c b e = Ok (tt, destroyed c b e);
}.

Class PrintReturns (E : Type) `{TaskEnv E} := {
  printed : string -> Z -> E -> E;
  env_kprintf_eq : forall f n e, env_kprintf f n e = Ok (tt, printed f n e);
}.

Definition anx (ar : gmap Z vma_area) : Z -> option Z := fun a => a_next <$> ar !! a.

(** [ar] without the descriptors [al]. *)
Definition without (al : list Z) (ar : gmap Z vma_area) : gmap Z vma_area := foldl (fun m a => delete a m) ar al.

Lemma without_lookup al ar a : without al ar !! a = if decide (a ∈ al) then None else ar !! a.
Proof.
  unfold without. revert ar. induction al as [|b al IH]; intros ar; cbn [foldl]; [by destruct (decide (a ∈ [])) as [?%not_elem_of_nil|]|].
  rewrite IH. destruct (decide (a ∈ al)) as [Ha|Ha]; [by rewrite decide_True by (by right)|].
  destruct (decide (a = b)) as [->|Hab]; [by rewrite decide_True, lookup_delete_eq by (by left)|].
  rewrite decide_False by (by intros [?|?]%elem_of_cons). by rewrite lookup_delete_ne.
Qed.

Lemma filter_ext_elem (P Q : Z -> Prop) `{forall x, Decision (P x), forall x, Decision (Q x)} (l : list Z) :
  (forall u, u ∈ l -> P u <-> Q u) -> filter P l = filter Q l.
Proof.
  induction l as [|u l IH]; intros HPQ; [done|]. rewrite !filter_cons. pose proof (HPQ u ltac:(by left)) as Hu.
  rewrite IH by (intros w Hw; apply HPQ; by right). destruct (decide (P u)), (decide (Q u)); tauto.
Qed.

Lemma filter_true (P : Z -> Prop) `{forall x, Decision (P x)} (l : list Z) : (forall u, P u) -> filter P l = l.
Proof. intros HP. induction l as [|u l IH]; [done|]. by rewrite filter_cons, decide_True, IH. Qed.

Section destroy.
Context {E : Type} `{EnvReturns E}.

(** The state of the services after the address space [cr3] with the
    descriptors [al] is gone. *)
Definition destroy_env (c3 : Z) (al : list Z) (e : E) : E :=
  let e := foldl (fun e a => freed a e) (locked e) al in
  unlocked (if negb (c3 =? 0) then destroyed c3 true e else e).

Lemma free_areas_spec fuel al e x h : chain (anx (areas x)) h al NULL -> (length al < fuel)%nat ->
  free_areas fuel h (e, x) = Ok (tt, (foldl (fun e a => freed a e) e al, set_areas (without al (areas x)) x)).
Proof.
  revert fuel e x h. induction al as [|a al IH]; intros fuel e x h Hc Hf; (destruct fuel as [|fuel]; [simpl in Hf; lia|]); cbn [free_areas].
  - simpl in Hc. subst h. rewrite Z.eqb_refl. unfold ret. by destruct x.
  - pose proof (chain_NoDup _ _ _ Hc) as [Hna _]%NoDup_cons. destruct Hc as (-> & Ha & n & Hn & Hc). rewrite (proj2 (Z.eqb_neq _ _)) by done.
    unfold anx in Hn. destruct (areas x !! a) as [y|] eqn:Ey; [|done]. injection Hn as Hn.
    rewrite (bind_ok _ _ _ y (e, x)) by (unfold on_mm, get_area, bind, gets, deref; simpl; by rewrite Ey).
    rewrite (bind_ok _ _ _ tt (freed a e, set_areas (delete a (areas x)) x)).
    2:{ unfold free_area, bind, on_env, on_mm, modify. simpl. by rewrite env_kfree_eq. }
    rewrite Hn, IH; [by destruct x| |simpl in Hf; lia]. eapply chain_frame; [|exact Hc]. intros u Hu. unfold anx. simpl.
    rewrite lookup_delete_ne; [done|]. by intros ->.
Qed.

(** [vma_destroy_all] gives back every descriptor in the order of the list,
    then the page table, all under the task's mutex. *)
Lemma destroy_all_spec e x al : chain (anx (areas x)) (list_head x) al NULL ->
  vma_destroy_all (e, x) = Ok (tt, (destroy_env (t_cr3 x) al e, mkMm (without al (areas x)) NULL NULL 0 0)).
Proof.
  intros Hc. unfold vma_destroy_all. rewrite (bind_ok _ _ _ tt (locked e, x)) by (unfold on_env; simpl; by rewrite env_lock_eq).
  rewrite (bind_ok _ _ _ (S (S (size (areas x)))) (locked e, x)), (bind_ok _ _ _ (list_head x) (locked e, x)) by done.
  assert (length al < S (S (size (areas x))))%nat as Hf.
  { apply Nat.lt_lt_succ_r, fuel_enough; [by apply (chain_NoDup _ _ _ Hc)|]. intros u Hu. destruct (chain_elem _ _ _ _ _ Hc Hu) as [_ [n Hn]].
    unfold anx in Hn. by destruct (areas x !! u). }
  rewrite (bind_ok _ _ _ _ _ (free_areas_spec _ al _ _ _ Hc Hf)).
  set (e1 := foldl _ _ al). rewrite (bind_ok _ _ _ tt (e1, mkMm (without al (areas x)) NULL NULL 0 (t_cr3 x))) by done.
  rewrite (bind_ok _ _ _ (t_cr3 x) (e1, mkMm (without al (areas x)) NULL NULL 0 (t_cr3 x))) by done.
  unfold destroy_env. fold e1. destruct (Z.eqb_spec (t_cr3 x) 0) as [E0|]; cbn [negb when].
  - rewrite E0. rewrite (bind_ok _ _ _ tt (e1, mkMm (without al (areas x)) NULL NULL 0 0)) by done. unfold on_env. simpl. by rewrite env_unlock_eq.
  - rewrite (bind_ok _ _ _ tt (destroyed (t_cr3 x) true e1, mkMm (without al (areas x)) NULL NULL 0 0)).
    + unfold on_env. simpl. by rewrite env_unlock_eq.
    + unfold bind, on_env, on_mm, modify. simpl. by rewrite env_destroy_eq.
Qed.
End destroy.

(** ** One zombie *)

Section reap.
Context {E : Type} `{TaskEnv E} `{!EnvReturns E} `{!PrintReturns E}.
Abbreviation kernel := (@kernel E).
Abbreviation ktasks k := (tasks (k_sched k)).

(** The services after the zombie [z], a task [tk] with descriptors [al], was
    announced and given back: its address space, its stack, its structure. *)
Definition announced (tk : task) (e : E) : E := printed "[REAPER] Cleaning up TID %d\n" (int32 (tid tk)) e.
Definition reap_env (z : Z) (tk : task) (al : list Z) (e : E) : E :=
  freed z (freed (stack_base tk) (if 10 <=? tid tk then destroy_env (cr3 tk) al (announced tk e) else announced tk e)).

Definition reap_areas (tk : task) (al : list Z) (ar : gmap Z vma_area) : gmap Z vma_area :=
  if 10 <=? tid tk then without al ar else ar.

(** What a zombie needs: its descriptors are a list. *)
Definition zombie_ok (ar : gmap Z vma_area) (tk : task) (al : list Z) : Prop :=
  10 <= tid tk -> chain (anx ar) (vma_list_head tk) al NULL.

Lemma unringed_fields a b : unringed a = unringed b ->
  tid a = tid b /\ stack_base a = stack_base b /\ cr3 a = cr3 b /\ vma_list_head a = vma_list_head b /\ sched_next a = sched_next b.
Proof. destruct a, b. unfold unringed, set_next, set_prev. simpl. intros [= ]. by subst. Qed.

Lemma reap_one_spec k v l1 z l2 tk al :
  kernel_ok k v (l1 ++ z :: l2) -> ktasks k !! z = Some tk -> idle_in v z -> zombie_ok (k_areas k) tk al ->
  exists k' ts', reap_one z k = Ok (sched_next tk, k') /\ k_sched k' = set_tasks ts' (k_sched k) /\
    kernel_ok k' v (l1 ++ l2) /\ ts' !! z = None /\
    (forall u, u <> z -> unringed <$> ts' !! u = unringed <$> ktasks k !! u) /\
    k_env k' = reap_env z tk al (k_env k) /\ k_areas k' = reap_areas tk al (k_areas k) /\ k_mem k' = k_mem k.
Proof.
  intros [Hs Hc Hl] Ez Hi Hz. pose proof Hs as [_ Hh _ _ _].
  destruct (ring_remove_spec (enter sched_lock k) l1 z l2) as (ts1 & r1 & E1 & Hc1 & Hu1 & Ho1); [exact Hc|].
  set (k1 := leave sched_lock k (set_root_task r1 (kt (enter sched_lock k) ts1))).
  assert (critical sched_lock (ring_remove z) k = Ok (tt, k1)) as Ec1 by (apply (critical_ok sched_lock); [done|done|exact E1|done|done]).
  change (ktasks (enter sched_lock k)) with (ktasks k) in Hu1.
  assert (exists tk1, ts1 !! z = Some tk1 /\ unringed tk1 = unringed tk) as (tk1 & Ez1 & Eu1).
  { specialize (Hu1 z). rewrite Ez in Hu1. destruct (ts1 !! z) as [tk1|]; [|done]. exists tk1. simpl in Hu1. by apply (inj Some) in Hu1. }
  destruct (unringed_fields _ _ Eu1) as (Etid & Esb & Ecr & Evl & _).
  assert (k_sched k1 = set_tasks ts1 (k_sched k)) as Es1 by (unfold k1, leave; cbn; by destruct (k_sched k) as [[] ? ? ? ? ? ? ? ? ? ?]).
  set (e1 := announced tk (k_env k)). set (e2 := if 10 <=? tid tk then destroy_env (cr3 tk) al e1 else e1). set (ar2 := reap_areas tk al (k_areas k)).
  set (tk2 := if 10 <=? tid tk then set_vm (mkMm ar2 NULL NULL 0 0) tk1 else tk1).
  set (K (ts : gmap Z task) (e : E) := mkKernel (set_tasks ts (k_sched k)) e ar2 (k_mem k) r1 (next_tid k) (released (s_hart (k_sched k)) (sched_lock_ k))).
  exists (K (delete z ts1) (reap_env z tk al (k_env k))), (delete z ts1).
  assert (forall u, u <> z -> delete z ts1 !! u = ts1 !! u) as Hdel by (intros; by rewrite lookup_delete_ne).
  split_and!; [|done| |by rewrite lookup_delete_eq| |done|done|done].
  - unfold reap_one. rewrite <-(kt_id k) at 1. rewrite (get_task_kt _ _ _ tk) by done. cbv zeta. rewrite kt_id, (bind_ok _ _ _ _ _ Ec1).
    assert (k1 = kt k1 ts1) as -> by (unfold kt; rewrite Es1; unfold k1, leave; cbn; by destruct (k_sched k) as [[] ? ? ? ? ? ? ? ? ? ?]).
    rewrite (get_task_kt _ _ _ tk1) by done. rewrite Etid. set (k1e := mkKernel (k_sched k1) e1 (k_areas k) (k_mem k) r1 (next_tid k) (sched_lock_ k1)).
    rewrite (bind_ok _ _ _ tt (kt k1e ts1)) by (unfold on_services, within; cbn [kt set_k_sched k_env]; by rewrite env_kprintf_eq). rewrite (bind_ok _ _ _ tt (kt (K (<[z := tk2]> ts1) e2) (<[z := tk2]> ts1))).
    + rewrite (get_task_kt _ _ _ tk2) by apply lookup_insert_eq. assert (stack_base tk2 = stack_base tk) as ->.
      { unfold tk2. destruct (10 <=? tid tk); exact Esb. }
      unfold kfree, free_task, bind, on_services, on_sched, within, modify, kfree, on_services, within.
      cbn [K kt k_env set_k_sched]. rewrite env_kfree_eq. cbn [k_env]. rewrite env_kfree_eq. unfold ret. do 2 f_equal.
      unfold K, set_k_sched. cbn. f_equal. unfold set_tasks. cbn. f_equal. by rewrite delete_insert_eq.
    + unfold tk2, e2, ar2, reap_areas, zombie_ok in *. destruct (Z.leb_spec 10 (tid tk)) as [Ht|Ht]; cbn [when].
      * unfold with_vm. rewrite (get_task_kt _ _ _ tk1) by done. unfold within, vm_of. cbn [kt set_k_sched k_env k_areas].
        change (k_env k1e) with e1. change (k_areas k1e) with (k_areas k).
        rewrite (destroy_all_spec e1 _ al); [|simpl; rewrite Evl; by apply Hz]. rewrite <-Ecr. by unfold put_vm.
      * unfold ret. do 2 f_equal. rewrite insert_id by done. unfold kt, K, set_k_sched, k1e. cbn [k_sched k_env k_areas k_mem root_task next_tid sched_lock_]. rewrite Es1. done.
  - split; [|apply (circle_frame (lk_of ts1)); [|exact Hc1]|by apply released_free].
    + apply sched_ok_nx; [done|]. intros u a Hu. assert (u <> z) as Huz by (intros ->; by apply (Hi a)).
      unfold nx. rewrite Hdel by done. by apply unringed_nx.
    + intros u Hu. unfold lk_of. cbn. rewrite Hdel; [done|]. intros ->. destruct Hc as (_ & _ & Hnd).
      apply NoDup_app in Hnd as (_ & Hd & [Hn _]%NoDup_cons). apply elem_of_app in Hu as [Hu|Hu]; [|done]. apply (Hd z Hu). by left.
  - intros u Hu. by rewrite Hdel.
Qed.

(** ** All of them *)

Lemma kernel_ok_ext (k : kernel) v v' l : (forall a, v' a = v a) -> kernel_ok k v l -> kernel_ok k v' l.
Proof. intros Hv [Hs Hc Hl]. split; [by apply (sched_ok_ext _ v)|done|done]. Qed.

(** The list of all tasks without [zs]. *)
Definition survivors (zs l : list Z) : list Z := filter (fun u => u ∉ zs) l.

Lemma survivors_cons z zs l1 l2 : NoDup (l1 ++ z :: l2) -> survivors (z :: zs) (l1 ++ z :: l2) = survivors zs (l1 ++ l2).
Proof.
  intros (_ & Hd & [Hz _]%NoDup_cons)%NoDup_app. unfold survivors. rewrite !filter_app, filter_cons, decide_False by (intros Hn; apply Hn; by left).
  f_equal; apply filter_ext_elem; intros u Hu; rewrite not_elem_of_cons; split; try tauto; intros Hn; (split; [|done]); intros ->;
    [apply (Hd z Hu); by left|done].
Qed.

Lemma reap_env_unringed z a b al e : unringed a = unringed b -> reap_env z a al e = reap_env z b al e.
Proof. intros (E1 & E2 & E3 & _)%unringed_fields. unfold reap_env, announced. by rewrite E1, E2, E3. Qed.

Definition reap_all (tko : Z -> task) (al : Z -> list Z) (zs : list Z) (e : E) : E :=
  foldl (fun e z => reap_env z (tko z) (al z) e) e zs.

(** The zombies [zs]: tasks of the list of all tasks that are in no list of
    the scheduler, with separate lists of descriptors. *)
Record zombies (k : kernel) (v : place -> list Z) (l : list Z) (tko : Z -> task) (al : Z -> list Z) (zs : list Z) : Prop := {
  zo_task : forall z, z ∈ zs -> unringed <$> ktasks k !! z = Some (unringed (tko z));
  zo_listed : forall z, z ∈ zs -> z ∈ l;
  zo_idle : forall z, z ∈ zs -> idle_in v z;
  zo_areas : forall z, z ∈ zs -> zombie_ok (k_areas k) (tko z) (al z);
  zo_apart : forall z z' a, z ∈ zs -> z' ∈ zs -> z <> z' -> a ∈ al z -> a ∉ al z';
}.

Lemma zombies_tail k k' v l1 l2 z zs tko al ts' :
  zombies k v (l1 ++ z :: l2) tko al (z :: zs) -> z ∉ zs -> k_sched k' = set_tasks ts' (k_sched k) ->
  (forall u, u <> z -> unringed <$> ts' !! u = unringed <$> ktasks k !! u) ->
  k_areas k' = reap_areas (tko z) (al z) (k_areas k) -> zombies k' v (l1 ++ l2) tko al zs.
Proof.
  intros [Z1 Z2 Z3 Z4 Z5] Hz Es Hu Ea. assert (forall u, u ∈ zs -> u <> z) as Hne by (by intros u Hin ->). split.
  - intros u Hin. rewrite Es. cbn. rewrite Hu by (by apply Hne). apply Z1. by right.
  - intros u Hin. specialize (Z2 u ltac:(by right)). rewrite elem_of_app, elem_of_cons in Z2. rewrite elem_of_app.
    destruct Z2 as [?|[->|?]]; [by left|done|by right].
  - intros u Hin. apply Z3. by right.
  - intros u Hin Ht. rewrite Ea. unfold reap_areas. specialize (Z4 u ltac:(by right) Ht). case_match; [|done].
    eapply chain_frame; [|exact Z4]. intros a Ha. unfold anx. rewrite without_lookup, decide_False; [done|].
    apply (Z5 u z a); [by right|by left|by apply Hne|done].
  - intros a b c Ha Hb. apply Z5; by right.
Qed.

Lemma reap_loop_spec zs fuel k v l tko al h :
  (length zs < fuel)%nat -> kernel_ok k v l -> zombies k v l tko al zs -> chain (nx (ktasks k)) h zs NULL ->
  exists k', reap_loop fuel h k = Ok (tt, k') /\ kernel_ok k' v (survivors zs l) /\
    (forall z, z ∈ zs -> ktasks k' !! z = None) /\
    (forall u, u ∉ zs -> unringed <$> ktasks k' !! u = unringed <$> ktasks k !! u) /\
    k_env k' = reap_all tko al zs (k_env k) /\ k_mem k' = k_mem k /\
    k_sched k' = set_tasks (ktasks k') (k_sched k).
Proof.
  revert fuel k l h. induction zs as [|z zs IH]; intros fuel k l h Hf Hk Hz Hc; (destruct fuel as [|fuel]; [simpl in Hf; lia|]); cbn [reap_loop].
  { simpl in Hc. subst h. rewrite Z.eqb_refl. exists k. split_and!; try done; [|by intros z ?%not_elem_of_nil|by destruct (k_sched k)].
    unfold survivors. by rewrite filter_true by (intros u; apply not_elem_of_nil). }
  pose proof (chain_NoDup _ _ _ Hc) as [Hnz Hnd]%NoDup_cons. destruct Hc as (-> & Hz0 & n & Hn & Hc). rewrite (proj2 (Z.eqb_neq _ _)) by done.
  unfold nx in Hn. destruct (ktasks k !! z) as [tk|] eqn:Et; [|done]. injection Hn as Hn.
  assert (unringed tk = unringed (tko z)) as Eu by (pose proof (zo_task _ _ _ _ _ _ Hz z ltac:(by left)) as E0; rewrite Et in E0; simpl in E0; by apply (inj Some) in E0).
  destruct (list_elem_of_split l z) as (l1 & l2 & ->); [apply (zo_listed _ _ _ _ _ _ Hz); by left|].
  pose proof (unringed_fields _ _ Eu) as (F1 & F2 & F3 & F4 & _).
  destruct (reap_one_spec k v l1 z l2 tk (al z) Hk Et) as (k1 & ts1 & E1 & Es1 & Hk1 & Hz1 & Hu1 & Ee1 & Ea1 & Em1).
  { apply (zo_idle _ _ _ _ _ _ Hz). by left. }
  { pose proof (zo_areas _ _ _ _ _ _ Hz z ltac:(by left)) as Ha. unfold zombie_ok in *. by rewrite F1, F4. }
  assert (k_areas k1 = reap_areas (tko z) (al z) (k_areas k)) as Ea1' by (rewrite Ea1; unfold reap_areas; by rewrite F1).
  destruct (IH fuel k1 (l1 ++ l2) n) as (k2 & E2 & Hk2 & Hz2 & Hu2 & Ee2 & Em2 & Es2); [simpl in Hf; lia|done|by eapply zombies_tail| |].
  { eapply chain_frame; [|exact Hc]. intros u Hu. rewrite Es1. cbn. apply unringed_nx, Hu1. by intros ->. }
  exists k2. split_and!.
  - by rewrite (bind_ok _ _ _ _ _ E1), Hn.
  - rewrite survivors_cons; [done|]. by destruct Hk as [_ (_ & _ & ?) _].
  - intros u [->|Hu]%elem_of_cons; [|by apply Hz2]. specialize (Hu2 z Hnz). rewrite Es1 in Hu2. cbn in Hu2. rewrite Hz1 in Hu2. by destruct (ktasks k2 !! z).
  - intros u Hu. rewrite not_elem_of_cons in Hu. destruct Hu as [Huz Hu]. rewrite Hu2, Es1 by done. by apply Hu1.
  - rewrite Ee2, Ee1. unfold reap_all. cbn [foldl]. by rewrite (reap_env_unringed z tk (tko z)).
  - congruence.
  - rewrite Es2, Es1. done.
Qed.

(** Taking the list of the dead. *)
Lemma take_dead (k : kernel) v l :
  kernel_ok k v l ->
  let s1 := leave dead_lock (k_sched k) (set_dead_task_list NULL (enter dead_lock (k_sched k))) in
  on_sched (critical dead_lock (h <- gets dead_task_list ;; modify (set_dead_task_list NULL) ;;; ret h)) k =
    Ok (dead_task_list (k_sched k), set_k_sched s1 k) /\
  kernel_ok (set_k_sched s1 k) (vset Dead [] v) l.
Proof.
  intros [Hs Hc Hl] s1. pose proof Hs as [Hr Hh Hlk Hd Hb]. split.
  - unfold on_sched, within. erewrite (critical_ok dead_lock); [done|done|done|done|done|done].
  - split; [|exact Hc|done]. split; try done; [|by apply released_free].
    apply (rep_step (k_sched k) _ v _ [Dead]); [done| | | |].
    + intros a Ha. assert (a <> Dead) as Hne by set_solver. split_and!; [by destruct a|by rewrite vset_ne|done].
    + intros a ->%list_elem_of_singleton. exists NULL. split; [done|]. by rewrite vset_eq.
    + intros c x p Hx. rewrite vset_ne by done. by apply (rep_fields _ _ Hr).
    + apply disj_vset; [exact (rep_disj _ _ Hr)|]. by intros u ?%not_elem_of_nil.
Qed.

Lemma reap_spec (k : kernel) v l tko al :
  kernel_ok k v l -> zombies k (vset Dead [] v) l tko al (v Dead) ->
  exists k', sched_reap k = Ok (tt, k') /\ kernel_ok k' (vset Dead [] v) (survivors (v Dead) l) /\
    (forall z, z ∈ v Dead -> ktasks k' !! z = None) /\
    (forall u, u ∉ v Dead -> unringed <$> ktasks k' !! u = unringed <$> ktasks k !! u) /\
    k_env k' = reap_all tko al (v Dead) (k_env k) /\ k_mem k' = k_mem k /\
    cpus (k_sched k') = cpus (k_sched k) /\ s_hart (k_sched k') = s_hart (k_sched k).
Proof.
  intros Hk Hz. pose proof (rep_chain _ _ (so_rep _ _ (ko_sched _ _ _ Hk)) Dead _ eq_refl) as Hc. unfold sched_reap.
  rewrite (bind_ok _ _ _ (dead_task_list (k_sched k)) k) by (by destruct k).
  destruct (Z.eqb_spec (dead_task_list (k_sched k)) NULL) as [E0|E0].
  - rewrite E0 in Hc. apply chain_nil in Hc. exists k. split_and!; try done; [|rewrite Hc; by intros z ?%not_elem_of_nil|by rewrite Hc].
    rewrite Hc. unfold survivors. rewrite filter_true by (intros u; apply not_elem_of_nil). apply (kernel_ok_ext k v); [|done].
    intros a. unfold vset. by case_decide; subst.
  - destruct (take_dead k v l Hk) as [E1 Hk1]. set (s1 := leave dead_lock _ _) in *. set (k1 := set_k_sched s1 k) in *.
    rewrite (bind_ok _ _ _ _ _ E1), (bind_ok _ _ _ (S (size (ktasks k))) k1) by (by destruct k).
    destruct (reap_loop_spec (v Dead) (S (size (ktasks k))) k1 (vset Dead [] v) l tko al (dead_task_list (k_sched k)))
      as (k' & E2 & Hk2 & Hz2 & Hu2 & Ee & Em & Es); [by apply (rep_length _ v Dead), Hk|done|by destruct Hz|exact Hc|].
    exists k'. split_and!; try done; rewrite Es; [done|]. done.
Qed.

(** C31: sched_reap empties the list of the dead. Every task of it is out of the
    list of all tasks and its structure is gone; what was printed and given
    back is, task by task and in this order, the message with its number, the
    address space of a user task (descriptors in list order, then the page
    table), the kernel stack and the structure, each exactly once. The other tasks keep their order and everything but their
    links to the removed ones, and every lock is free. *)
Theorem sched_reap_correct (k : kernel) v l tko al :
  kernel_ok k v l -> zombies k (vset Dead [] v) l tko al (v Dead) ->
  exists k', sched_reap k = Ok (tt, k') /\ kernel_ok k' (vset Dead [] v) (survivors (v Dead) l) /\
    (forall z, z ∈ v Dead -> ktasks k' !! z = None) /\
    (forall u, u ∉ v Dead -> unringed <$> ktasks k' !! u = unringed <$> ktasks k !! u) /\
    k_env k' = reap_all tko al (v Dead) (k_env k) /\ k_mem k' = k_mem k.
Proof.
  intros Hk Hz. destruct (reap_spec k v l tko al Hk Hz) as (k' & E1 & E2 & E3 & E4 & E5 & E6 & _). by exists k'.
Qed.

(** ** A zombie that still runs *)

(** The CPU [c], with its registers [h], executes next. *)
Definition executing (c : Z) (h : hart) (s : sched) : sched :=
  mkSched h (tasks s) (cpus s) (cpu_table s) c (uptime_ms s) (cr3_reg s) (dead_task_list s)
    (blocked_task_list s) (dead_lock_ s) (blocked_lock_ s).

Lemma sched_ok_executing s v c h : hart_ok h -> sched_ok s v -> sched_ok (executing c h s) v.
Proof. intros Hh [Hr _ Hl Hd Hb]. split; try done. by apply (rep_same s). Qed.

Lemma kernel_ok_executing (k : kernel) v l c h :
  hart_ok h -> kernel_ok k v l -> kernel_ok (set_k_sched (executing c h (k_sched k)) k) v l.
Proof. intros Hh [Hs Hc Hl]. split; [by apply sched_ok_executing|done|done]. Qed.

(** A scheduling step whose current task is gone faults: its first access to
    the task is to save the stack pointer. *)
Lemma schedule_stale s v x frame :
  sched_ok s v -> cpus s !! this_cpu s = Some x -> current_task x <> NULL -> tasks s !! current_task x = None ->
  schedule frame s = Fault.
Proof.
  intros Hok Hx Hcur Hgone. set (s0 := lset hart_of (masked (s_hart s)) s).
  assert (sched_ok s0 v) as Hok0 by (apply sched_ok_hart; [exact (so_hart _ _ Hok)|done]).
  destruct (boost_step_spec (fun _ => False) s0 v (this_cpu s) x Hok0 Hx) as (s1 & x1 & E1 & _ & _ & _ & Hu & _).
  unfold schedule. rewrite (bind_ok _ _ _ _ _ (spin_irq_save_eq s)). change (lset hart_of (masked (lget hart_of s)) s) with s0.
  rewrite (bind_ok _ _ _ (this_cpu s) s0) by done. rewrite (bind_ok _ _ _ x s0) by (unfold get_ctx, bind, gets, deref; change (cpus s0) with (cpus s); by rewrite Hx).
  rewrite (bind_ok _ _ _ (uptime_ms s) s0) by done. cbv zeta. fold (boost_due s0 x). change (uptime_ms s) with (uptime_ms s0). fold (boost_due s0 x). rewrite (bind_ok _ _ _ _ _ E1).
  specialize (Hu (current_task x)). change (tasks s0) with (tasks s) in Hu. rewrite Hgone in Hu. destruct (tasks s1 !! current_task x) eqn:E2; [done|].
  unfold put_current. rewrite (proj2 (Z.eqb_neq _ _)) by done. unfold bind, when, upd_task, get_task, bind, gets, deref. cbn [negb]. by rewrite E2.
Qed.

(** [exit_current]: the running task is the first of the dead, and
    still current. *)
Lemma exit_current_spec s v x cur tk :
  sched_ok s v -> cpus s !! this_cpu s = Some x -> current_task x = cur -> cur <> NULL -> tasks s !! cur = Some tk -> idle_in v cur ->
  exists s', exit_current s = Ok (tt, s') /\ sched_ok s' (vset Dead (cur :: v Dead) v) /\
    tasks s' = <[cur := set_sched_next (dead_task_list s) (set_task_cpu NO_CPU (set_state TASK_ZOMBIE tk))]> (tasks s) /\
    cpus s' = cpus s /\ cpu_table s' = cpu_table s /\ this_cpu s' = this_cpu s /\ s_hart s' = s_hart s.
Proof.
  intros Hok Hx Ec Hc0 Ht Hi. pose proof Hok as [Hr Hh Hl Hd Hb].
  set (tk' := set_sched_next (dead_task_list s) (set_task_cpu NO_CPU (set_state TASK_ZOMBIE tk))). set (s0 := enter dead_lock s).
  exists (leave dead_lock s (set_dead_task_list cur (mk s0 (<[cur := tk']> (tasks s)) (cpus s)))). split_and!; try done.
  - unfold exit_current. rewrite (bind_ok _ _ _ cur s), (proj2 (Z.eqb_neq _ _)) by (done || (unfold sched_get_current, get_cpu, get_ctx, bind, gets, deref, ret; by rewrite Hx, Ec)).
    apply (critical_ok dead_lock); [done|done| |done|done]. rewrite <-(mk_id (enter dead_lock s)). fold s0. change (tasks s0) with (tasks s). change (cpus s0) with (cpus s).
    rewrite (upd_task_bind _ _ _ _ tk) by done. rewrite (upd_task_bind _ _ _ _ (set_state TASK_ZOMBIE tk)) by apply lookup_insert_eq. rewrite insert_insert_eq.
    rewrite (bind_ok _ _ _ (dead_task_list s) (mk s0 (<[cur := set_task_cpu NO_CPU (set_state TASK_ZOMBIE tk)]> (tasks s)) (cpus s))) by done.
    rewrite (upd_task_bind _ _ _ _ (set_task_cpu NO_CPU (set_state TASK_ZOMBIE tk))) by apply lookup_insert_eq. by rewrite insert_insert_eq.
  - split; try done; [|by apply released_free]. apply (rep_step s _ v _ [Dead]); [done| | | |].
    + intros a Ha. assert (a <> Dead) as Hne by set_solver. split_and!; [by destruct a|by rewrite vset_ne|].
      intros u Hua. change (tasks (leave _ _ _)) with (<[cur := tk']> (tasks s)). rewrite (nx_upd _ _ tk), decide_False; [done| |done]. intros ->. by apply (Hi a).
    + intros a ->%list_elem_of_singleton. exists cur. split; [done|]. rewrite vset_eq. change (tasks (leave _ _ _)) with (<[cur := tk']> (tasks s)).
      simpl. split_and!; [done|done|]. exists (dead_task_list s). split; [by rewrite (nx_upd _ _ tk), decide_True|].
      apply (chain_frame (nx (tasks s))); [|exact (rep_chain _ _ Hr Dead _ eq_refl)].
      intros u Hu. rewrite (nx_upd _ _ tk), decide_False; [done| |done]. intros ->. by apply (Hi Dead).
    + intros c y p Hy. rewrite vset_ne by done. by apply (rep_fields _ _ Hr).
    + apply disj_vset; [exact (rep_disj _ _ Hr)|]. intros u [->|Hu]%elem_of_cons; [by right|by left].
Qed.

(** C39: A task that exits can be reaped while it still runs. task_exit puts the
    running task of one CPU on the list of the dead and goes on executing on its
    stack; if the idle task of another CPU runs sched_reap before the first CPU
    has switched away, it gives back the structure and the stack of the task
    that is still current there, and the next scheduling step of the first CPU,
    which saves the stack pointer in the structure, uses memory that is gone. *)
Theorem exit_reap_race (k : kernel) v l c d hc hd y tk al frame :
  let cur := current_task y in
  kernel_ok k v l -> this_cpu (k_sched k) = d -> cpus (k_sched k) !! d = Some y -> cur <> NULL ->
  ktasks k !! cur = Some tk -> idle_in v cur -> v Dead = [] -> cur ∈ l -> zombie_ok (k_areas k) tk al ->
  hart_ok hc -> hart_ok hd ->
  exists k1 k2, on_sched exit_current k = Ok (tt, k1) /\
    sched_reap (set_k_sched (executing c hc (k_sched k1)) k1) = Ok (tt, k2) /\
    cpus (k_sched k2) !! d = Some y /\ ktasks k2 !! cur = None /\
    schedule frame (executing d hd (k_sched k2)) = Fault.
Proof.
  intros cur Hk Hd Hy Hc0 Ht Hi Hv Hl Hal Hhc Hhd. destruct Hk as [Hs Hci Hlk].
  destruct (exit_current_spec (k_sched k) v y cur tk) as (s1 & E1 & Hs1 & Et1 & Ec1 & _); [done|by rewrite Hd|done..|].
  set (tk1 := set_sched_next _ _) in Et1. rewrite Hv in Hs1. set (v1 := vset Dead [cur] v) in Hs1.
  set (k1 := set_k_sched s1 k). set (k1' := set_k_sched (executing c hc (k_sched k1)) k1).
  assert (kernel_ok k1' v1 l) as Hk1.
  { apply kernel_ok_executing; [done|]. split; [done| |done]. apply (circle_frame (lk_of (ktasks k))); [|done]. intros u Hu. unfold lk_of. cbn. rewrite Et1.
    destruct (decide (u = cur)) as [->|]; [by rewrite lookup_insert_eq, Ht|by rewrite lookup_insert_ne]. }
  destruct (reap_spec k1' v1 l (fun _ => tk1) (fun _ => al) Hk1) as (k2 & E2 & Hk2 & Hz2 & _ & _ & _ & Ec2 & _).
  { unfold v1. rewrite vset_eq. split.
    - intros z ->%list_elem_of_singleton. cbn. by rewrite Et1, lookup_insert_eq.
    - by intros z ->%list_elem_of_singleton.
    - intros z ->%list_elem_of_singleton a. unfold vset. case_decide; [apply not_elem_of_nil|]. by apply Hi.
    - by intros z ->%list_elem_of_singleton.
    - by intros z z' a ->%list_elem_of_singleton ->%list_elem_of_singleton. }
  assert (cpus (k_sched k2) !! d = Some y) as Hy2 by (rewrite Ec2; cbn; by rewrite Ec1).
  assert (ktasks k2 !! cur = None) as Hgone by (apply Hz2; unfold v1; rewrite vset_eq; by left).
  exists k1, k2. split_and!; [|exact E2|done|done|].
  - unfold on_sched, within. by rewrite E1.
  - eapply (schedule_stale _ _ y); [apply sched_ok_executing; [done|exact (ko_sched _ _ _ Hk2)]|done|done|done].
Qed.
End reap.
