(* ===== verification/TaskDemo.v ===== *)
(** * A concrete kernel with tasks

    Two CPUs, the main task and a user task in the list of all tasks, a heap
    that hands out consecutive addresses, and a log of what it gets back and of
    the numbers that are printed: the
    states the theorems of [TaskSpec] and [Reaper] are instantiated at. *)

From S2P Require Import Prelude Lock Chain Sched Runqueue Balance Schedule SchedDemo Wakeup Strings Acpi Vma Syscall Elf Dll Task TaskRing TaskSpec Reaper.

(** The next address of the heap, and what was given back, the last first. *)
Definition log_env : Type := Z * list Z.

#[local] Instance log_vma : VmaEnv log_env := {|
  env_lock := ret tt; env_unlock := ret tt;
  env_kmalloc := fun n e => Ok (e.1, (e.1 + n, e.2)); env_kfree := fun p e => Ok (tt, (e.1, p :: e.2));
  env_alloc_frames := fun _ => ret 0x200000; env_free_frame := fun _ => ret tt;
  env_zero := fun _ _ => ret tt; env_get_table := fun cr3 => ret (phys_to_virt cr3);
  env_map_range := fun _ _ _ _ _ => ret tt; env_translate := fun _ v => ret (0x200000 + v mod PAGE_SIZE);
  env_unmap := fun _ _ => ret tt; env_sync_tlb := ret tt; env_destroy := fun c _ e => Ok (tt, (e.1, c :: e.2)) |}.
#[local] Instance log_task : TaskEnv log_env := {|
  env_create_user_pml4 := ret 0x7000; env_kprintf := fun _ n e => Ok (tt, (e.1, n :: e.2)) |}.
#[local] Instance log_returns : EnvReturns log_env := {|
  locked := fun e => e; unlocked := fun e => e; freed := fun p e => (e.1, p :: e.2); destroyed := fun c _ e => (e.1, c :: e.2);
  env_lock_eq := fun e => eq_refl; env_unlock_eq := fun e => eq_refl; env_kfree_eq := fun p e => eq_refl;
  env_destroy_eq := fun c b e => eq_refl |}.
#[local] Instance log_prints : PrintReturns log_env := {|
  printed := fun _ n e => (e.1, n :: e.2); env_kprintf_eq := fun f n e => eq_refl |}.

Definition MAIN : Z := 0x3000.
Definition USER : Z := 0x3200.

Definition listed (n p : Z) (t : task) : task := set_next n (set_prev p t).

Definition task_sched : sched := mkSched
  (mkHart 0x202 (Some 1) true)
  (list_to_map [(MAIN, listed USER USER (demo_task 0 PRIO_NORMAL TASK_RUNNING));
    (USER, listed MAIN MAIN (demo_task 10 PRIO_NORMAL TASK_RUNNING))])
  (list_to_map [(CPU0, demo_cpu 0 MAIN IDLE0); (CPU1, demo_cpu 1 USER IDLE1)])
  (list_to_map [(0, CPU0); (1, CPU1)]) CPU1 42 0x1000 NULL NULL spinlock_init spinlock_init.

Definition STACK_AT : Z := 0x5000 + 448.
Definition task_kernel : kernel (E := log_env) :=
  mkKernel task_sched (0x5000, []) ∅ (upd ∅ STACK_AT (replicate (Z.to_nat STACK) 0)) MAIN 11 spinlock_init.

Lemma circle_two (lk : Z -> option (Z * Z)) a b : a <> NULL -> b <> NULL -> a <> b -> lk a = Some (b, b) -> lk b = Some (a, a) -> circle lk a [a; b].
Proof.
  intros Ha Hb Hab La Lb. split_and!; [done| |].
  - simpl. split_and!; [done|done|]. exists b. split; [done|]. split_and!; [done|done|]. by exists a.
  - constructor; [by rewrite list_elem_of_singleton|apply NoDup_singleton].
Qed.

Lemma task_kernel_ok : kernel_ok task_kernel (fun _ => []) [MAIN; USER].
Proof.
  split; [apply sched_ok_empty; [split_and!; by_decide|by_decide..]| |done].
  apply circle_two; try done; by vm_compute.
Qed.

Lemma arch_task_create_correct_witness :
  exists k' tk, arch_task_create 0x8000 task_kernel = Ok (0x5000, k') /\
    kernel_ok k' (vset (Rq CPU1 PRIO_HIGH) [0x5000] (fun _ => [])) [MAIN; USER; 0x5000] /\
    tasks (k_sched k') !! 0x5000 = Some tk /\ tid tk = 11.
Proof.
  destruct (arch_task_create_correct task_kernel (fun _ => []) [MAIN; USER] (demo_cpu 1 USER IDLE1) 0x8000 0x5000 STACK_AT
    (STACK_AT, []) (STACK_AT + STACK, []) task_kernel_ok ltac:(done) ltac:(by_decide) ltac:(done) ltac:(done) ltac:(by_decide)
    ltac:(done) ltac:(done) ltac:(done)) as (k' & tk & E1 & E2 & E3 & E4 & _).
  { rewrite <-(length_replicate (Z.to_nat STACK) 0). apply cells_owned, upd_cells. }
  exists k', tk. split_and!; [done|done|done|]. change (tid (unringed tk) = 11). by rewrite E4.
Defined.

(** The user task of CPU 1 exits, and CPU 0 reaps. *)
Definition exited_sched : sched := executing CPU0 (mkHart 0x202 (Some 0) true) (run exit_current task_sched).
Definition exited_kernel : kernel (E := log_env) := set_k_sched exited_sched task_kernel.

Lemma exited_kernel_ok : kernel_ok exited_kernel (vset Dead [USER] (fun _ => [])) [MAIN; USER].
Proof.
  destruct (exit_current_spec task_sched (fun _ => []) (demo_cpu 1 USER IDLE1) USER (listed MAIN MAIN (demo_task 10 PRIO_NORMAL TASK_RUNNING))
    (ko_sched _ _ _ task_kernel_ok) ltac:(by_decide) ltac:(done) ltac:(done) ltac:(by_decide) ltac:(intros a; apply not_elem_of_nil))
    as (s' & E & Hok & _).
  split; [|apply circle_two; try done; by vm_compute|done].
  apply sched_ok_executing; [by_decide|]. unfold run. rewrite E. exact Hok.
Qed.

Lemma exited_zombies :
  zombies exited_kernel (vset Dead [] (vset Dead [USER] (fun _ => []))) [MAIN; USER] (fun _ => task_at exited_sched USER) (fun _ => [])
    (vset Dead [USER] (fun _ => []) Dead).
Proof.
  rewrite vset_eq. split.
  - intros z ->%list_elem_of_singleton. by vm_compute.
  - intros z ->%list_elem_of_singleton. right. by left.
  - intros z ->%list_elem_of_singleton a. unfold vset. by repeat case_decide; try apply not_elem_of_nil.
  - intros z ->%list_elem_of_singleton _. by vm_compute.
  - by intros z z' a ->%list_elem_of_singleton ->%list_elem_of_singleton.
Qed.

Lemma sched_reap_correct_witness :
  exists k', sched_reap exited_kernel = Ok (tt, k') /\ kernel_ok k' (vset Dead [] (vset Dead [USER] (fun _ => []))) [MAIN] /\
    tasks (k_sched k') !! USER = None /\ k_env k' = (0x5000, [USER; 0x10000 + 10 * 0x4000; 0xA000; 10]).
Proof.
  destruct (sched_reap_correct exited_kernel (vset Dead [USER] (fun _ => [])) [MAIN; USER] (fun _ => task_at exited_sched USER) (fun _ => [])
    exited_kernel_ok exited_zombies) as (k' & E1 & E2 & E3 & _ & E5 & _).
  exists k'. split_and!; [done|exact E2|apply E3; rewrite vset_eq; by left|]. rewrite E5, vset_eq. by vm_compute.
Defined.

Lemma exit_reap_race_witness :
  exists k1 k2, on_sched exit_current task_kernel = Ok (tt, k1) /\
    sched_reap (set_k_sched (executing CPU0 (mkHart 0x202 (Some 0) true) (k_sched k1)) k1) = Ok (tt, k2) /\
    schedule 0x9000 (executing CPU1 (mkHart 0x202 (Some 1) true) (k_sched k2)) = Fault.
Proof.
  destruct (exit_reap_race task_kernel (fun _ => []) [MAIN; USER] CPU0 CPU1 (mkHart 0x202 (Some 0) true) (mkHart 0x202 (Some 1) true)
    (demo_cpu 1 USER IDLE1) (listed MAIN MAIN (demo_task 10 PRIO_NORMAL TASK_RUNNING)) [] 0x9000
    task_kernel_ok ltac:(done) ltac:(by_decide) ltac:(done) ltac:(by_decide) ltac:(intros a; apply not_elem_of_nil) ltac:(done)
    ltac:(right; by left) ltac:(by intros _) ltac:(by_decide) ltac:(by_decide)) as (k1 & k2 & E1 & E2 & _ & _ & E5).
  by exists k1, k2.
Defined.

(** CPU 0 before the scheduler starts: no task exists. *)
Definition boot_sched : sched := mkSched (mkHart 0x202 (Some 0) true) ∅
  (list_to_map [(CPU0, demo_cpu 0 NULL NULL)]) (list_to_map [(0, CPU0)]) CPU0 0 0x1000 NULL NULL spinlock_init spinlock_init.
Definition IDLE_STACK : Z := 0x5000 + 2 * 448.
Definition boot_kernel : kernel (E := log_env) :=
  mkKernel boot_sched (0x5000, []) ∅ (upd ∅ IDLE_STACK (replicate 4096 0)) NULL 10 spinlock_init.

Lemma sched_init_correct_witness :
  exists k', sched_init 0x8000 boot_kernel = Ok (tt, k') /\ kernel_ok k' (fun _ => []) [0x5000] /\
    cpus (k_sched k') !! CPU0 = Some (set_idle_task (0x5000 + 448) (set_current_task 0x5000 (demo_cpu 0 NULL NULL))).
Proof.
  destruct (sched_init_correct boot_kernel (fun _ => []) (demo_cpu 0 NULL NULL) 0x8000 0x5000 (0x5000 + 448) IDLE_STACK
    (0x5000 + 448, []) (IDLE_STACK, []) (IDLE_STACK + 4096, [])
    ltac:(apply sched_ok_empty; [split_and!; by_decide|by_decide..]) ltac:(done) ltac:(by_decide) ltac:(done) ltac:(done) ltac:(by_decide)
    ltac:(done) ltac:(done) ltac:(by_decide) ltac:(done) ltac:(done) ltac:(done) ltac:(done)) as (k' & E1 & E2 & E3 & _).
  { rewrite <-(length_replicate 4096 0). apply cells_owned, upd_cells. }
  exists k'. exact (conj E1 (conj E2 E3)).
Defined.
