(* ===== verification/SchedSystem.v ===== *)
(** * The scheduler as a transition system

    All processors together: a step is one routine of the scheduler, run to its
    end by one CPU. The CPUs interleave at the boundaries of routines: a task
    that gives up its CPU is first put into a list, by a step of its own, and
    leaves the CPU in a later one, with steps of other CPUs between them. What
    can go wrong inside a routine is the subject of
    [running_task_can_be_stolen]; what can go wrong between the two steps of a
    task that waits, when it is woken there, is shown by
    [blocked_task_runs_twice] below, and such a wake-up is no step here. Nor
    are the creation of tasks and the reaper, for which see [exit_reap_race].

    The invariant of the reachable states: the lists are well formed and a
    task in a list has the state of that list; every CPU has a current task,
    current on no other CPU, which is [RUNNING] and in no list, or has given up
    the CPU; and no task is lost. [sched_init] establishes it. *)

From S2P Require Import Prelude Lock Chain Sched Runqueue Balance Schedule SchedDemo Wakeup Sleep Preserve Kbd Strings Vma Syscall Elf Dll Task TaskRing TaskSpec Reaper TaskDemo Handlers.

(** ** Operations and steps *)

(** What a CPU does to the scheduler: it takes the timer's interrupt, yields,
    or reschedules at the end of a system call; the running task goes to sleep,
    begins to wait or exits; or an interrupt handler wakes the waiting. *)
Inductive op :=
| OpTick (frame : Z)
| OpYield (frame : Z)
| OpSchedule (frame : Z)
| OpSleep (ms : Z)
| OpBlock (reason : task_reason)
| OpExit
| OpWake (reason : task_reason).

Definition perform (o : op) : M sched Z :=
  match o with
  | OpTick frame => timer_interrupt frame
  | OpYield frame => sched_yield frame
  | OpSchedule frame => schedule frame
  | OpSleep ms => sched_make_task_sleep ms ;;; ret 0
  | OpBlock reason => sched_block_current reason ;;; ret 0
  | OpExit => exit_current ;;; ret 0
  | OpWake reason => sched_wakeup reason ;;; ret 0
  end.

(** [sched_block_current(reason); sched_yield();], as [sys_read_kbd_handler]
    has it *)
Definition wait_for (reason : task_reason) (frame : Z) : M sched Z :=
  sched_block_current reason ;;; sched_yield frame.

(** The operations by which the running task gives up the CPU: the idle task, a
    loop of [sched_reap], [log_flush] and [hlt], performs none of them. *)
Definition gives_up (o : op) : bool :=
  match o with OpSleep _ | OpBlock _ | OpExit => true | _ => false end.

(** CPU [c], with registers [h], may perform [o]. The last condition is about
    the other CPUs: no task is woken that has begun to wait and has not yet
    left its CPU. *)
Record enabled (s : sched) (c : Z) (h : hart) (o : op) : Prop := {
  en_cpu : exists x, cpus s !! c = Some x /\
    (gives_up o = true -> current_task x <> idle_task x /\ state <$> tasks s !! current_task x = Some TASK_RUNNING);
  en_hart : hart_ok h;
  en_locks : g_lock_enabled h = true;
  en_wake : forall reason, o = OpWake reason -> forall d y tk, cpus s !! d = Some y ->
    tasks s !! current_task y = Some tk -> state tk = TASK_BLOCKED -> wait_reason tk <> reason;
}.

Inductive step (s : sched) : sched -> Prop :=
| Step c h o r s' : enabled s c h o -> perform o (executing c h s) = Ok (r, s') -> step s s'.

(** ** The invariant *)

(** The state of the tasks in a list. *)
Definition place_state (a : place) : task_state :=
  match a with
  | Rq _ _ => TASK_READY
  | Sleep _ => TASK_SLEEPING
  | Blocked => TASK_BLOCKED
  | Dead => TASK_ZOMBIE
  end.

Definition is_idle (s : sched) (u : Z) : Prop := exists c x, cpus s !! c = Some x /\ u = idle_task x.

(** The effective priority marks the idle tasks; their base priority, which
    [create_idle_struct] leaves 0, does not. *)
Definition idle_marked (s : sched) : Prop := forall u tk, tasks s !! u = Some tk ->
  (priority tk = PRIO_IDLE <-> is_idle s u) /\ (~ is_idle s u -> base_priority tk <> PRIO_IDLE).

(** [away c a]: the current task of [c] may be in the list [a]. *)
Record inv (away : Z -> place -> Prop) (s : sched) (v : place -> list Z) : Prop := {
  i_ok : sched_ok s v;
  i_table : table_ok s;
  i_placed : forall a u, u ∈ v a -> state <$> tasks s !! u = Some (place_state a);
  i_idle : idle_marked s;
  i_idle_out : forall c x, cpus s !! c = Some x ->
    idle_task x <> NULL /\ is_Some (tasks s !! idle_task x) /\ idle_in v (idle_task x);
  i_current : forall c x, cpus s !! c = Some x -> current_task x <> NULL /\
    ((idle_in v (current_task x) /\ state <$> tasks s !! current_task x = Some TASK_RUNNING) \/
     exists a, away c a /\ current_task x ∈ v a);
  i_apart : forall c d x y, c <> d -> cpus s !! c = Some x -> cpus s !! d = Some y ->
    current_task x <> current_task y /\ current_task x <> idle_task y /\ idle_task x <> idle_task y;
  i_kept : forall u, is_Some (tasks s !! u) ->
    (exists a, u ∈ v a) \/ exists c x, cpus s !! c = Some x /\ (u = current_task x \/ u = idle_task x);
}.

(** Between steps, a task that gave up its CPU and is still current there
    sleeps on that CPU's list, waits or is dead. *)
Definition parked (c : Z) (a : place) : Prop := a = Sleep c \/ a = Blocked \/ a = Dead.

(** While CPU [c] is in [timer_interrupt], its task may be anywhere. *)
Definition leaving (c d : Z) (a : place) : Prop := d = c \/ parked d a.

Lemma inv_mono (P Q : Z -> place -> Prop) s v : (forall c a, P c a -> Q c a) -> inv P s v -> inv Q s v.
Proof.
  intros HPQ [A B C D E F G H]. split; try done. intros c x Hx. destruct (F c x Hx) as [F1 [F2|(a & F2 & F3)]]; [by split; [|left]|].
  split; [done|]. right. exists a. auto.
Qed.

Lemma inv_executing P s v c h : hart_ok h -> inv P s v -> inv P (executing c h s) v.
Proof. intros Hh [A B C D E F G H]. split; try done. by apply sched_ok_executing. Qed.

(** A task that is running is in no list. *)
Lemma inv_running P s v u tk : inv P s v -> tasks s !! u = Some tk -> state tk = TASK_RUNNING -> idle_in v u.
Proof. intros Hi Ht Hs a Ha. apply (i_placed _ _ _ Hi) in Ha. rewrite Ht in Ha. simpl in Ha. destruct a; simpl in Ha; congruence. Qed.

(** The current and the idle task of every CPU are as before. *)
Definition same_cpus (s s' : sched) : Prop := forall c, ctx_core <$> cpus s' !! c = ctx_core <$> cpus s !! c.

Lemma same_cpu s s' c x' : same_cpus s s' -> cpus s' !! c = Some x' ->
  exists x, cpus s !! c = Some x /\ current_task x' = current_task x /\ idle_task x' = idle_task x.
Proof.
  intros Hs Hx'. specialize (Hs c). rewrite Hx' in Hs. destruct (cpus s !! c) as [x|]; [|done]. exists x. unfold ctx_core in Hs.
  simpl in Hs. split_and!; [done|congruence|congruence].
Qed.

Lemma same_cpus_sym s s' : same_cpus s s' -> same_cpus s' s.
Proof. intros H c. by rewrite H. Qed.

Lemma same_idle s s' u : same_cpus s s' -> is_idle s' u <-> is_idle s u.
Proof.
  intros Hs. split; intros (c & x & Hx & ->).
  - destruct (same_cpu _ _ _ _ Hs Hx) as (y & Hy & _ & ->). by exists c, y.
  - destruct (same_cpu _ _ _ _ (same_cpus_sym _ _ Hs) Hx) as (y & Hy & _ & ->). by exists c, y.
Qed.

Lemma kept_idle X s s' : priorities_kept X s s' -> (forall u, is_idle s' u <-> is_idle s u) ->
  (forall u, is_idle s u -> priority <$> tasks s' !! u = priority <$> tasks s !! u) -> idle_marked s -> idle_marked s'.
Proof.
  intros Hk Hi Hp Hs u tk Ht. specialize (Hk u). specialize (Hp u). rewrite Ht in Hk, Hp. destruct (tasks s !! u) as [tk0|] eqn:E; [|done].
  destruct (Hs u tk0 E) as [H1 H2]. destruct Hk as [Hb Hc]. rewrite Hi, Hb. split; [|done]. split.
  - intros Ep. destruct (decide (priority tk0 = PRIO_IDLE)) as [Ey|En]; [by apply H1|]. destruct Hc as [Hc|[_ Hc]]; [congruence|].
    destruct (H2 (fun J => En (proj2 H1 J))). congruence.
  - intros J. specialize (Hp J). injection Hp as ->. by apply H1.
Qed.

Lemma kept_dom X s s' u : priorities_kept X s s' -> is_Some (tasks s' !! u) <-> is_Some (tasks s !! u).
Proof. intros Hk. specialize (Hk u). unfold calm in Hk. destruct (tasks s !! u), (tasks s' !! u); done. Qed.

Lemma unlinked_priority (o o' : option task) : unlinked <$> o = unlinked <$> o' -> priority <$> o = priority <$> o'.
Proof. destruct o as [a|], o' as [b|]; simpl; intros [=]; [|done]. by destruct a, b; simplify_eq/=. Qed.

Lemma table_same s s' : same_cpus s s' -> cpu_table s' = cpu_table s -> table_ok s -> table_ok s'.
Proof.
  intros Hs Et Ht i. rewrite Et. intros Hi. apply Ht in Hi. rewrite <-(fmap_is_Some ctx_core) in Hi |- *. by rewrite Hs.
Qed.

(** ** Moving tasks between lists *)

(** The lists [v'] are [v] with the tasks [W] moved to lists of [A]: nothing
    else enters a list, and nothing leaves one for good. *)
Record moved (W : Z -> Prop) (A : place -> Prop) (v v' : place -> list Z) : Prop := {
  mv_from : forall b u, u ∈ v' b -> (u ∈ v b /\ ~ W u) \/ (W u /\ A b);
  mv_stay : forall b u, u ∈ v b -> ~ W u -> u ∈ v' b;
  mv_go : forall u, W u -> exists b, u ∈ v' b;
}.

Section moving.
Context (P Q : Z -> place -> Prop) (W : Z -> Prop) `{Wdec : forall u, Decision (W u)} (A : place -> Prop) (st : task_state).
Context (s s' : sched) (v v' : place -> list Z).
Context (Hi : inv P s v) (Hc : same_cpus s s') (Hk : priorities_kept (fun _ => True) s s') (Hm : moved W A v v').
Context (Hn : forall u, ~ W u -> unlinked <$> tasks s' !! u = unlinked <$> tasks s !! u).
(** A moved task was in a list, or is a current task that is not idle. *)
Context (Hfrom : forall u, W u -> (exists a, u ∈ v a) \/ exists c x, cpus s !! c = Some x /\ u = current_task x /\ current_task x <> idle_task x).

Lemma idle_unmoved c x : cpus s !! c = Some x -> ~ W (idle_task x).
Proof.
  intros Hx HW. destruct (i_idle_out _ _ _ Hi c x Hx) as (_ & _ & I). destruct (Hfrom _ HW) as [[a Ha]|(d & y & Hy & E & Hne)]; [by apply I in Ha|].
  destruct (decide (d = c)) as [->|Hd]; [congruence|]. destruct (i_apart _ _ _ Hi d c y x Hd Hy Hx) as (_ & N & _). congruence.
Qed.

Lemma moved_idle : idle_marked s'.
Proof.
  apply (kept_idle (fun _ => True) s); [done|intros u; by apply same_idle| |apply Hi].
  intros u (c & x & Hx & ->). by apply unlinked_priority, Hn, (idle_unmoved c).
Qed.

Lemma moved_keep b u : u ∈ v b -> exists b', u ∈ v' b'.
Proof. intros Hu. destruct (Wdec u) as [HW|HW]; [by apply (mv_go _ _ _ _ Hm)|]. exists b. by apply (mv_stay _ _ _ _ Hm). Qed.

Lemma moved_current c x : (forall d a, P d a -> Q d a) -> (forall d y a, cpus s !! d = Some y -> W (current_task y) -> A a -> Q d a) ->
  cpus s !! c = Some x -> current_task x <> NULL /\
    ((idle_in v' (current_task x) /\ state <$> tasks s' !! current_task x = Some TASK_RUNNING) \/ exists a, Q c a /\ current_task x ∈ v' a).
Proof.
  intros HPQ HQ Hx. destruct (i_current _ _ _ Hi c x Hx) as [N C]. split; [done|]. destruct (Wdec (current_task x)) as [HW|HW].
  - right. destruct (mv_go _ _ _ _ Hm _ HW) as [b Hb]. exists b. split; [|done].
    destruct (mv_from _ _ _ _ Hm _ _ Hb) as [[_ []]|[_ Ab]]; [done|]. by apply (HQ c x).
  - destruct C as [[C1 C2]|(a & C1 & C2)].
    + left. split; [|by rewrite (unlinked_state _ _ (Hn _ HW))]. intros b [[Hu _]|[Hu _]]%(mv_from _ _ _ _ Hm); [by apply C1 in Hu|done].
    + right. exists a. split; [by apply HPQ|by apply (mv_stay _ _ _ _ Hm)].
Qed.

Lemma inv_moved :
  sched_ok s' v' -> cpu_table s' = cpu_table s -> (forall a, A a -> place_state a = st) ->
  (forall u, W u -> state <$> tasks s' !! u = Some st) -> (forall d a, P d a -> Q d a) ->
  (forall d y a, cpus s !! d = Some y -> W (current_task y) -> A a -> Q d a) -> inv Q s' v'.
Proof.
  intros Hok Et HA HW HPQ HQ. split.
  - done.
  - apply (table_same s); [done|done|apply Hi].
  - intros a u [[Hu Hw]|[Hw Ha]]%(mv_from _ _ _ _ Hm); [|by rewrite (HA a Ha), HW].
    rewrite (unlinked_state _ _ (Hn u Hw)). by apply (i_placed _ _ _ Hi).
  - exact moved_idle.
  - intros c x' Hx'. destruct (same_cpu _ _ _ _ Hc Hx') as (x & Hx & _ & ->). destruct (i_idle_out _ _ _ Hi c x Hx) as (I0 & I1 & I2).
    split; [done|]. split; [by apply (kept_dom (fun _ => True) s)|]. intros a [[Hu _]|[Hw _]]%(mv_from _ _ _ _ Hm); [by apply I2 in Hu|].
    by apply (idle_unmoved c x Hx).
  - intros c x' Hx'. destruct (same_cpu _ _ _ _ Hc Hx') as (x & Hx & -> & _). by apply moved_current.
  - intros c d x' y' Hcd Hx' Hy'. destruct (same_cpu _ _ _ _ Hc Hx') as (x & Hx & -> & ->), (same_cpu _ _ _ _ Hc Hy') as (y & Hy & -> & ->).
    by apply (i_apart _ _ _ Hi c d).
  - intros u Hu%(kept_dom (fun _ => True) s); [|done]. destruct (i_kept _ _ _ Hi u Hu) as [[a Ha]|(c & x & Hx & HH)]; [left; by apply (moved_keep a)|].
    right. destruct (same_cpu _ _ _ _ (same_cpus_sym _ _ Hc) Hx) as (y & Hy & E1 & E2). exists c, y. by rewrite <-E1, <-E2.
Qed.
End moving.

(** The current task of [c] enters the list [a]. *)
Lemma inv_leaves s s' v c x a l :
  let cur := current_task x in
  inv parked s v -> cpus s !! c = Some x -> cur <> idle_task x -> idle_in v cur -> parked c a -> (forall u, u ∈ l <-> u = cur \/ u ∈ v a) ->
  sched_ok s' (vset a l v) -> same_cpus s s' -> cpu_table s' = cpu_table s -> priorities_kept (fun _ => True) s s' ->
  state <$> tasks s' !! cur = Some (place_state a) ->
  (forall u, u <> cur -> unlinked <$> tasks s' !! u = unlinked <$> tasks s !! u) ->
  inv parked s' (vset a l v).
Proof.
  intros cur Hi Hx Hne Hidle Hpa Hl Hok Hc Et Hk Hst Hn.
  apply (inv_moved parked parked (fun u => u = cur) (eq a) (place_state a) s s' v); try done.
  - split.
    + intros b u. unfold vset. case_decide as Eb; [subst b; rewrite Hl|].
      * intros [->|Hu]; [by right|]. left. split; [done|]. intros ->. by apply Hidle in Hu.
      * intros Hu. left. split; [done|]. intros ->. by apply Hidle in Hu.
    + intros b u Hu _. unfold vset. case_decide as Eb; [|done]. subst b. rewrite Hl. by right.
    + intros u ->. exists a. rewrite vset_eq, Hl. by left.
  - intros u ->. right. by exists c, x.
  - by intros ? <-.
  - by intros u ->.
  - intros d y b Hy E <-. destruct (decide (c = d)) as [<-|Hd]; [done|]. destruct (i_apart _ _ _ Hi c d x y Hd Hx Hy) as [N _]. by rewrite E in N.
Qed.

(** What the steps below need of the executing CPU. *)
Record at_cpu (s : sched) (c : Z) (h : hart) : Prop := {
  at_this : this_cpu s = c;
  at_exists : is_Some (cpus s !! c);
  at_hart : s_hart s = h;
  at_locks : g_lock_enabled h = true;
}.

Lemma executing_id s c h : at_cpu s c h -> executing c h s = s.
Proof. by intros [<- _ <- _]; destruct s. Qed.

Lemma elem_filter_bool (f : Z -> bool) (l : list Z) u : u ∈ filter f l <-> f u = true /\ u ∈ l.
Proof. rewrite list_elem_of_filter. destruct (f u); naive_solver. Qed.

Definition is_rq (a : place) : Prop := exists c p, a = Rq c p.

(** Some tasks of the list [src] go to runqueues, the rest stays. *)
Lemma moved_handed src (rest w : list Z) (dst : Z -> place) v v' :
  disj v -> (forall u, u ∈ v src <-> u ∈ rest \/ u ∈ w) -> (forall u, u ∈ rest -> u ∉ w) -> (forall u, u ∈ w -> is_rq (dst u)) ->
  (forall a u, u ∈ v' a <-> u ∈ vset src rest v a \/ (u ∈ w /\ dst u = a)) -> moved (fun u => u ∈ w) is_rq v v'.
Proof.
  intros Hd Hs Hr Hq Hv. assert (forall b u, b <> src -> u ∈ v b -> u ∉ w) as Hne.
  { intros b u Hb Hu Hw. apply Hb, (Hd b src u); [done|]. apply Hs. by right. }
  split.
  - intros b u. rewrite Hv. intros [Hu|[Hw <-]]; [|right; auto]. left. unfold vset in Hu. case_decide as Eb; [|split; [done|by apply (Hne b)]].
    subst b. split; [apply Hs; by left|auto].
  - intros b u Hu Hw. apply Hv. left. unfold vset. case_decide as Eb; [|done]. subst b. by apply Hs in Hu as [?|?].
  - intros u Hw. exists (dst u). apply Hv. by right.
Qed.

Lemma inv_sleepers s v c h :
  inv (leaving c) s v -> at_cpu s c h ->
  exists s' v', sched_update_sleepers s = Ok (tt, s') /\ inv (leaving c) s' v' /\ at_cpu s' c h.
Proof.
  intros Hi [<- [x Hx] <- He]. pose proof (i_ok _ _ _ Hi) as Hok. set (c := this_cpu s) in *.
  destruct (update_sleepers_spec s v x Hok Hx) as (s' & E & Hok' & Hf & Hst & _). fold c in Hok', Hf, Hst. set (l := v (Sleep c)) in *.
  exists s', (awake_view s c v). split; [done|]. split.
  2:{ split; [by rewrite (fr_rest _ _ _ Hf)| |by rewrite (framed_hart _ _ _ Hf)|done].
      by rewrite <-(fmap_is_Some ctx_core), (fr_ctx _ _ _ Hf), Hx. }
  assert (NoDup l) as Hnd by (apply (chain_NoDup (nx (tasks s)) (sleeping_list x)), (rep_chain _ _ (so_rep _ _ Hok)); simpl; by rewrite Hx).
  rewrite <-(while_app (due (tasks s) (uptime_ms s)) l) in Hnd. apply NoDup_app in Hnd as (_ & Hdis & _).
  assert (forall u, u ∈ l <-> u ∈ still_asleep s l \/ u ∈ waking s l) as Hl.
  { intros u. rewrite <-(while_app (due (tasks s) (uptime_ms s)) l) at 1. rewrite elem_of_app. unfold waking, still_asleep. tauto. }
  apply (inv_moved (leaving c) (leaving c) (fun u => u ∈ waking s l) is_rq TASK_READY s s' v); try done.
  - exact (fr_ctx _ _ _ Hf).
  - by apply (keeps_sleepers s tt).
  - apply (moved_handed (Sleep c) (still_asleep s l) _ (dest_on c (tasks s))); [exact (rep_disj _ _ (so_rep _ _ Hok))|done| | |].
    + intros u Hu Hw. by apply (Hdis u).
    + intros u Hu. unfold dest_on. destruct (rep_task s v (Sleep c) u (so_rep _ _ Hok)) as [_ [tk ->]]; [apply Hl; by right|]. by eexists _, _.
    + intros a u. unfold awake_view, queued_on. fold l. rewrite elem_of_app, elem_filter_bool, bool_decide_eq_true, elem_of_reverse. tauto.
  - apply (fr_tasks _ _ _ Hf).
  - intros u Hu. left. exists (Sleep c). apply Hl. by right.
  - by rewrite (fr_rest _ _ _ Hf).
  - by intros a (d & p & ->).
  - intros d y a Hy Hw _. left. assert (current_task y ∈ l) as Hu by (apply Hl; by right).
    destruct (i_current _ _ _ Hi d y Hy) as [_ [[C _]|(b & Hb & Hin)]]; [by apply C in Hu|].
    rewrite (rep_disj _ _ (so_rep _ _ Hok) _ _ _ Hin Hu) in Hb. destruct Hb as [?|[Hb|[Hb|Hb]]]; [done|congruence|done..].
Qed.

Lemma inv_wakeup reason s v c h :
  inv parked s v -> at_cpu s c h ->
  (forall d y tk, cpus s !! d = Some y -> tasks s !! current_task y = Some tk -> state tk = TASK_BLOCKED -> wait_reason tk <> reason) ->
  exists s' v', sched_wakeup reason s = Ok (tt, s') /\ inv parked s' v'.
Proof.
  intros Hi [<- Hx <- He] Hwait. pose proof (i_ok _ _ _ Hi) as Hok.
  destruct (sched_wakeup_spec reason s v Hok (i_table _ _ _ Hi) Hx) as (s' & E & Hok' & Hh & Et & Hth & Hc & Hst & Hn).
  exists s', (woken_view reason s v). split; [done|]. set (w := filter (waits_for reason (tasks s)) (v Blocked)).
  assert (forall u, u ∈ w <-> u ∈ v Blocked /\ waits_for reason (tasks s) u = true) as Hw by (intros u; unfold w; rewrite elem_filter_bool; tauto).
  apply (inv_moved parked parked (fun u => u ∈ w) is_rq TASK_READY s s' v); try done.
  - by apply (keeps_wakeup reason s tt).
  - apply (moved_handed Blocked (filter (fun u => negb (waits_for reason (tasks s) u)) (v Blocked)) _ (dest s (tasks s)));
      [exact (rep_disj _ _ (so_rep _ _ Hok))| | | |].
    + intros u. rewrite elem_filter_bool, Hw. destruct (waits_for reason (tasks s) u); simpl; naive_solver.
    + intros u. rewrite elem_filter_bool, Hw. destruct (waits_for reason (tasks s) u); simpl; naive_solver.
    + intros u [Hu _]%Hw. unfold dest. destruct (rep_task s v Blocked u (so_rep _ _ Hok) Hu) as [_ [tk ->]]. by eexists _, _.
    + intros a u. unfold woken_view, vset. case_decide as Ea.
      * subst a. split; [by left|]. intros [?|[[Hu _]%Hw Ed]]; [done|]. unfold dest in Ed.
        by destruct (rep_task s v Blocked u (so_rep _ _ Hok) Hu) as [_ [tk E1]]; rewrite E1 in Ed.
      * fold w. rewrite elem_of_app, elem_filter_bool, bool_decide_eq_true, elem_of_reverse. tauto.
  - intros u Hu. apply Hn. intros [H1 H2]. apply Hu, Hw. split; [done|]. by destruct (waits_for reason (tasks s) u).
  - intros u [Hu _]%Hw. left. by exists Blocked.
  - by intros a (d & p & ->).
  - intros u [Hu Hr]%Hw. apply Hst; [done|by rewrite Hr].
  - intros d y a Hy [Hu Hr]%Hw. apply (i_placed _ _ _ Hi) in Hu. unfold waits_for in Hr.
    destruct (tasks s !! current_task y) as [tk|] eqn:E2; [|done]. injection Hu as Hu. apply bool_decide_eq_true in Hr. by destruct (Hwait d y tk).
Qed.

(** ** The scheduling step *)

(** The lists [schedule] chooses from: those before it, and the outgoing task
    if it can still run. *)
Lemma promoted_from c v a u : u ∈ promoted c v a -> exists b, u ∈ v b /\ place_state b = place_state a.
Proof.
  unfold promoted. destruct a as [d p|d| |]; [|by eexists..].
  repeat case_decide; intros Hu; try (by eexists); [|by apply not_elem_of_nil in Hu].
  apply elem_of_app in Hu as [Hu|Hu]; by eexists.
Qed.

Lemma promoted_keep c v a u : u ∈ v a -> exists b, u ∈ promoted c v b.
Proof.
  intros Hu. destruct (decide (a = Rq c PRIO_HIGH)) as [->|H1]; [exists (Rq c PRIO_HIGH)|].
  { unfold promoted. rewrite !decide_True by done. apply elem_of_app. by left. }
  destruct (decide (a = Rq c PRIO_NORMAL)) as [->|H2]; [exists (Rq c PRIO_HIGH)|].
  { unfold promoted. rewrite !decide_True by done. apply elem_of_app. by right. }
  destruct (decide (a = Rq c PRIO_LOW)) as [->|H3]; [by exists (Rq c PRIO_NORMAL); unfold promoted; rewrite !decide_True by done|].
  exists a. unfold promoted. destruct a as [d p|d| |]; [|done..]. repeat case_decide; congruence.
Qed.

Lemma offered_from s v c x cur a u : u ∈ offered s v c x cur a ->
  (u = current_task x /\ runnable cur = true /\ place_state a = TASK_READY) \/ exists b, u ∈ v b /\ place_state b = place_state a.
Proof.
  unfold offered, requeued. set (v1 := if boost_due s x then promoted c v else v).
  assert (forall b, u ∈ v1 b -> exists b', u ∈ v b' /\ place_state b' = place_state b) as H1.
  { intros b. unfold v1. destruct (boost_due s x); [apply promoted_from|by exists b]. }
  destruct (runnable cur); [|intros Hu; right; by apply H1]. unfold vset. case_decide as Ea; [|intros Hu; right; by apply H1].
  subst a. rewrite elem_of_app, list_elem_of_singleton. intros [Hu|Hu]; [right; by apply H1|by left].
Qed.

Lemma offered_keep s v c x cur a u : u ∈ v a -> exists b, u ∈ offered s v c x cur b.
Proof.
  intros Hu. unfold offered, requeued. set (v1 := if boost_due s x then promoted c v else v).
  assert (exists b, u ∈ v1 b) as [b Hb] by (unfold v1; destruct (boost_due s x); [by apply (promoted_keep c v a)|by exists a]).
  exists b. destruct (runnable cur); [|done]. unfold vset. case_decide as Eb; [|done]. subst b. apply elem_of_app. by left.
Qed.

Lemma offered_current s v c x cur : runnable cur = true -> exists b, current_task x ∈ offered s v c x cur b.
Proof.
  intros Hr. unfold offered, requeued. rewrite Hr. eexists. rewrite vset_eq. apply elem_of_app. right. by apply list_elem_of_singleton.
Qed.

Lemma chosen_sub s v c x r v' a u : chosen s v c x r v' -> u ∈ v' a -> u ∈ v a.
Proof.
  intros [p r' l Hp Hv|i o p r' l1 l2 He Hoc Hp (Hv & _)|He Hall]; [| |done]; unfold vset; (case_decide as Ea; [|done]); subst a; rewrite Hv.
  - by right.
  - rewrite !elem_of_app, elem_of_cons. tauto.
Qed.

Lemma chosen_ready s v c x r v' : chosen s v c x r v' -> r = idle_task x \/ exists a, place_state a = TASK_READY /\ r ∈ v a.
Proof.
  intros [p r' l Hp Hv|i o p r' l1 l2 He Hoc Hp (Hv & _)|He Hall]; [right..|by left].
  - exists (Rq c p). split; [done|]. rewrite Hv. by left.
  - exists (Rq o p). split; [done|]. rewrite Hv, elem_of_app, elem_of_cons. auto.
Qed.

Lemma chosen_keep s v c x r v' a u : chosen s v c x r v' -> u ∈ v a -> u = r \/ exists b, u ∈ v' b.
Proof.
  intros [p r' l Hp Hv|i o p r' l1 l2 He Hoc Hp (Hv & _)|He Hall] Hu; [| |by right; exists a].
  - destruct (decide (a = Rq c p)) as [->|Ha]; [|right; exists a; by rewrite vset_ne]. rewrite Hv in Hu. apply elem_of_cons in Hu as [?|?]; [by left|].
    right. exists (Rq c p). by rewrite vset_eq.
  - destruct (decide (a = Rq o p)) as [->|Ha]; [|right; exists a; by rewrite vset_ne]. rewrite Hv, elem_of_app, elem_of_cons in Hu.
    destruct (decide (u = r')) as [->|Hne]; [by left|]. right. exists (Rq o p). rewrite vset_eq, elem_of_app. tauto.
Qed.

(** [schedule] moves tasks between runqueues only. *)
Lemma chosen_other s v c x cur r v' a : chosen s (offered s v c x cur) c x r v' -> ~ is_rq a -> v' a = v a.
Proof.
  intros Hch Ha. assert (forall d p, a <> Rq d p) as Hne by (intros d p ->; apply Ha; by eexists _, _).
  assert (offered s v c x cur a = v a) as <-.
  { unfold offered, requeued. destruct (runnable cur); [rewrite vset_ne by done|]; (destruct (boost_due s x); [|done]); by destruct a as [d p|d| |]; [destruct (Hne d p)|..]. }
  by destruct Hch; rewrite ?vset_ne by done.
Qed.

(** The executing CPU is fit for [schedule]. *)
Lemma inv_cpu_ok c s v x : inv (leaving c) s v -> cpus s !! c = Some x -> exists cur, cpu_ok s v x cur.
Proof.
  intros Hi Hx. destruct (i_current _ _ _ Hi c x Hx) as [Hn Hcur]. destruct (i_idle_out _ _ _ Hi c x Hx) as (_ & I1 & I2).
  assert (is_Some (tasks s !! current_task x)) as [cur Hc].
  { destruct Hcur as [[_ Hs]|(a & _ & Ha)]; [by destruct (tasks s !! current_task x)|by apply (rep_task s v a _ (so_rep _ _ (i_ok _ _ _ Hi)))]. }
  exists cur. split; try done. unfold runnable. intros [Hr Hp]%andb_true_iff. apply bool_decide_eq_true in Hr.
  split; [by apply (inv_running _ _ _ _ _ Hi Hc)|]. intros E. rewrite negb_true_iff, Z.eqb_neq in Hp. apply Hp, (i_idle _ _ _ Hi _ _ Hc). by exists c, x.
Qed.

Lemma scheduled_cpu s s' c x cur frame nxt tk' d y' :
  scheduled s s' c x cur frame nxt tk' -> cpus s !! c = Some x -> cpus s' !! d = Some y' ->
  exists y, cpus s !! d = Some y /\ idle_task y' = idle_task y /\ current_task y' = if decide (d = c) then nxt else current_task y.
Proof.
  intros Hsc Hx Hy'. case_decide as E.
  - subst d. destruct (sc_cpu _ _ _ _ _ _ _ _ Hsc) as (x' & Hx' & E1 & E2 & _). rewrite Hx' in Hy'. injection Hy' as <-. by exists x.
  - pose proof (st_ctx _ _ _ _ (sc_frame _ _ _ _ _ _ _ _ Hsc) d E) as Ey. rewrite Hy' in Ey. destruct (cpus s !! d) as [y|]; [|done].
    exists y. unfold ctx_core in Ey. simpl in Ey. split_and!; [done|congruence|congruence].
Qed.

Section choice.
Context (s : sched) (v v' : place -> list Z) (c : Z) (x : cpu_context) (cur : task) (nxt : Z).
Context (Hch : chosen s (offered s v c x cur) c x nxt v').

Lemma choice_out u : idle_in v u -> (runnable cur = true -> u <> current_task x) -> idle_in v' u.
Proof. intros Hu Hr a Ha%(chosen_sub _ _ _ _ _ _ _ _ Hch). by apply (offered_idle s v c x cur u Hu Hr) in Ha. Qed.

Lemma choice_ne u : (forall a, u ∈ v a -> place_state a <> TASK_READY) -> u <> current_task x -> u <> idle_task x -> u <> nxt.
Proof.
  intros Hu Hc Hi ->. destruct (chosen_ready _ _ _ _ _ _ Hch) as [?|(a & Ea & Ha)]; [done|].
  apply offered_from in Ha as [(? & _)|(b & Hb & Eb)]; [done|]. apply (Hu b Hb). congruence.
Qed.

Lemma choice_keep u : (exists a, u ∈ v a) \/ (u = current_task x /\ runnable cur = true) -> u = nxt \/ exists b, u ∈ v' b.
Proof.
  intros [[a Ha]|[-> Hr]].
  - destruct (offered_keep s v c x cur a u Ha) as [b Hb]. by apply (chosen_keep _ _ _ _ _ _ b _ Hch).
  - destruct (offered_current s v c x cur Hr) as [b Hb]. by apply (chosen_keep _ _ _ _ _ _ b _ Hch).
Qed.
End choice.

(** The clauses of the invariant after [schedule]. *)
Section after.
Context (s s' : sched) (v v' : place -> list Z) (c : Z) (x : cpu_context) (cur : task) (frame nxt : Z) (tk' : task).
Context (Hi : inv (leaving c) s v) (Hx : cpus s !! c = Some x) (Hco : cpu_ok s v x cur).
Context (Hch : chosen s (offered s v c x cur) c x nxt v') (Hnxt : idle_in v' nxt).
Context (Hsc : scheduled s s' c x cur frame nxt tk') (Hk : priorities_kept (fun _ => False) s s').

Lemma after_idle u : is_idle s' u <-> is_idle s u.
Proof.
  split; intros (d & y & Hy & ->).
  - destruct (scheduled_cpu _ _ _ _ _ _ _ _ _ _ Hsc Hx Hy) as (y0 & Hy0 & -> & _). by exists d, y0.
  - assert (is_Some (cpus s' !! d)) as [y' Hy'] by (by apply (st_dom _ _ _ _ (sc_frame _ _ _ _ _ _ _ _ Hsc)); exists y).
    destruct (scheduled_cpu _ _ _ _ _ _ _ _ _ _ Hsc Hx Hy') as (y0 & Hy0 & E & _). exists d, y'. split; [done|]. congruence.
Qed.

Lemma after_same u : u <> current_task x -> u <> nxt -> state <$> tasks s' !! u = state <$> tasks s !! u.
Proof. intros H1 H2. apply unlinked_state, (st_tasks _ _ _ _ (sc_frame _ _ _ _ _ _ _ _ Hsc)). tauto. Qed.

Lemma after_placed a u : u ∈ v' a -> state <$> tasks s' !! u = Some (place_state a).
Proof.
  intros Hu. assert (u <> nxt) as Hne by (intros ->; by apply Hnxt in Hu).
  apply (chosen_sub _ _ _ _ _ _ _ _ Hch), offered_from in Hu. destruct (decide (u = current_task x)) as [->|Hc].
  - pose proof (sc_saved _ _ _ _ _ _ _ _ Hsc) as Hs. rewrite decide_False in Hs by congruence. destruct Hs as (t & -> & _ & Est). simpl. f_equal.
    rewrite Est. destruct Hu as [(_ & Hr & ->)|(b & Hb & Es)]; [by rewrite Hr|]. apply (i_placed _ _ _ Hi) in Hb.
    rewrite (co_current _ _ _ _ Hco) in Hb. simpl in Hb. injection Hb as Hb. unfold runnable. rewrite Hb, Es.
    by rewrite bool_decide_false by (by destruct a).
  - destruct Hu as [(-> & _)|(b & Hb & <-)]; [done|]. rewrite after_same by done. by apply (i_placed _ _ _ Hi).
Qed.

(** The current task of another CPU: running, or in a list of its CPU's. *)
Lemma after_other d y : d <> c -> cpus s !! d = Some y ->
  current_task y <> current_task x /\ current_task y <> idle_task x /\ current_task y <> nxt /\
  ((idle_in v (current_task y) /\ state <$> tasks s !! current_task y = Some TASK_RUNNING) \/ exists a, parked d a /\ current_task y ∈ v a).
Proof.
  intros Hd Hy. destruct (i_apart _ _ _ Hi d c y x Hd Hy Hx) as (A1 & A2 & _). destruct (i_current _ _ _ Hi d y Hy) as [_ C].
  assert ((idle_in v (current_task y) /\ state <$> tasks s !! current_task y = Some TASK_RUNNING) \/ exists a, parked d a /\ current_task y ∈ v a) as C'.
  { destruct C as [?|(a & [?|?] & ?)]; [by left|done|right; by exists a]. }
  split_and!; try done. apply (choice_ne s v v' c x cur nxt Hch); [|done..]. intros b Hb. destruct C' as [[C1 _]|(a & C1 & C2)]; [by apply C1 in Hb|].
  rewrite (rep_disj _ _ (so_rep _ _ (i_ok _ _ _ Hi)) _ _ _ Hb C2). by destruct C1 as [->|[->| ->]].
Qed.

Lemma idle_not_requeued d y : cpus s !! d = Some y -> runnable cur = true -> idle_task y <> current_task x.
Proof.
  intros Hy Hr E. destruct (co_current_out _ _ _ _ Hco Hr) as [_ N]. destruct (decide (d = c)) as [->|Hd]; [congruence|].
  destruct (i_apart _ _ _ Hi c d x y (not_eq_sym Hd) Hx Hy) as (_ & A & _). congruence.
Qed.

Lemma after_current d y' : cpus s' !! d = Some y' -> current_task y' <> NULL /\
  ((idle_in v' (current_task y') /\ state <$> tasks s' !! current_task y' = Some TASK_RUNNING) \/ exists a, parked d a /\ current_task y' ∈ v' a).
Proof.
  intros Hy'. destruct (scheduled_cpu _ _ _ _ _ _ _ _ _ _ Hsc Hx Hy') as (y & Hy & _ & ->). case_decide as E.
  - subst d. destruct (sc_running _ _ _ _ _ _ _ _ Hsc) as (-> & Es & _). split; [|left; split; [done|simpl; by rewrite Es]].
    destruct (chosen_from _ _ _ _ _ _ Hch) as [->|[a Ha]]; [by apply (i_idle_out _ _ _ Hi c)|].
    apply offered_from in Ha as [(-> & _)|(b & Hb & _)]; [apply Hco|]. by apply (rep_task s v b _ (so_rep _ _ (i_ok _ _ _ Hi))).
  - destruct (after_other d y E Hy) as (O1 & O2 & O3 & O4). split; [by apply (i_current _ _ _ Hi d)|].
    destruct O4 as [[C1 C2]|(a & C1 & C2)]; [left; split; [by apply (choice_out s v v' c x cur nxt)|by rewrite after_same]|].
    right. exists a. split; [done|]. rewrite (chosen_other s v c x cur nxt v' a Hch); [done|]. intros (e & p & ->). by destruct C1 as [?|[?|?]].
Qed.

Lemma after_apart d e y' z' : d <> e -> cpus s' !! d = Some y' -> cpus s' !! e = Some z' ->
  current_task y' <> current_task z' /\ current_task y' <> idle_task z' /\ idle_task y' <> idle_task z'.
Proof.
  intros Hde Hy' Hz'. destruct (scheduled_cpu _ _ _ _ _ _ _ _ _ _ Hsc Hx Hy') as (y & Hy & -> & ->).
  destruct (scheduled_cpu _ _ _ _ _ _ _ _ _ _ Hsc Hx Hz') as (z & Hz & -> & ->).
  destruct (i_apart _ _ _ Hi d e y z Hde Hy Hz) as (A1 & A2 & A3). split_and!; [| |done].
  - repeat case_decide; subst; try done; [by apply not_eq_sym, (after_other e z)|by apply (after_other d y)].
  - case_decide; [|done]. subst d. rewrite Hx in Hy. injection Hy as <-. apply not_eq_sym.
    destruct (i_idle_out _ _ _ Hi e z Hz) as (_ & _ & I2). intros E.
    destruct (chosen_from _ _ _ _ _ _ Hch) as [Hn|[a Ha]]; [congruence|]. rewrite <-E in Ha.
    by apply (offered_idle s v c x cur _ I2 (idle_not_requeued e z Hz)) in Ha.
Qed.

Lemma after_kept u : is_Some (tasks s' !! u) ->
  (exists a, u ∈ v' a) \/ exists d y, cpus s' !! d = Some y /\ (u = current_task y \/ u = idle_task y).
Proof.
  intros Hu%(kept_dom (fun _ => False) s); [|done]. destruct (sc_cpu _ _ _ _ _ _ _ _ Hsc) as (x' & Hx' & Ecur & _).
  assert ((exists a, u ∈ v a) \/ (u = current_task x /\ runnable cur = true) -> (exists a, u ∈ v' a) \/ exists d y, cpus s' !! d = Some y /\ (u = current_task y \/ u = idle_task y)) as Hgo.
  { intros [->|Hb]%(choice_keep s v v' c x cur nxt Hch); [right; exists c, x'; auto|by left]. }
  assert (is_idle s u -> exists d y, cpus s' !! d = Some y /\ (u = current_task y \/ u = idle_task y)) as Hidle.
  { intros (d & y & Hy & ->)%after_idle. exists d, y. auto. }
  destruct (i_kept _ _ _ Hi u Hu) as [Ha|(d & y & Hy & [->| ->])]; [by apply Hgo; left| |right; apply Hidle; by exists d, y].
  destruct (decide (d = c)) as [->|Hd].
  - rewrite Hx in Hy. injection Hy as <-. destruct (i_current _ _ _ Hi c x Hx) as [_ [[_ C2]|(a & _ & C2)]]; [|apply Hgo; left; by exists a].
    destruct (runnable cur) eqn:Er; [apply Hgo; by right|]. right. apply Hidle, (proj1 (i_idle _ _ _ Hi _ cur (co_current _ _ _ _ Hco))).
    rewrite (co_current _ _ _ _ Hco) in C2. injection C2 as C2. unfold runnable in Er. rewrite C2, bool_decide_true in Er by done. simpl in Er.
    by destruct (Z.eqb_spec (priority cur) PRIO_IDLE).
  - right. assert (is_Some (cpus s' !! d)) as [y' Hy'] by (by apply (st_dom _ _ _ _ (sc_frame _ _ _ _ _ _ _ _ Hsc)); exists y).
    destruct (scheduled_cpu _ _ _ _ _ _ _ _ _ _ Hsc Hx Hy') as (y0 & Hy0 & _ & Ec). rewrite decide_False in Ec by done.
    exists d, y'. split; [done|]. left. congruence.
Qed.

Lemma after_inv : sched_ok s' v' -> inv parked s' v'.
Proof.
  intros Hok. split.
  - done.
  - eapply table_stepped; [exact (sc_frame _ _ _ _ _ _ _ _ Hsc)|apply Hi].
  - exact after_placed.
  - apply (kept_idle (fun _ => False) s); [done|exact after_idle| |apply Hi]. intros u Hu. specialize (Hk u). unfold calm in Hk.
    destruct (tasks s !! u) as [tu|] eqn:E, (tasks s' !! u) as [tu'|]; try done. apply (i_idle _ _ _ Hi u tu E) in Hu.
    destruct Hk as [_ [Hk|[[[]|Hn] _]]]; [simpl; by rewrite Hk|by destruct Hn].
  - intros d y' Hy'. destruct (scheduled_cpu _ _ _ _ _ _ _ _ _ _ Hsc Hx Hy') as (y & Hy & -> & _).
    destruct (i_idle_out _ _ _ Hi d y Hy) as (I0 & I1 & I2). split_and!; [done|by apply (kept_dom (fun _ => False) s)|].
    apply (choice_out s v v' c x cur nxt Hch); [done|]. exact (idle_not_requeued d y Hy).
  - exact after_current.
  - exact after_apart.
  - exact after_kept.
Qed.
End after.

Lemma inv_schedule frame s v c h :
  inv (leaving c) s v -> at_cpu s c h -> exists r s' v', schedule frame s = Ok (r, s') /\ inv parked s' v'.
Proof.
  intros Hi [Hc [x Hx] <- He]. destruct (inv_cpu_ok c s v x Hi Hx) as [cur Hco].
  destruct (schedule_spec s v c x cur frame Hc (i_ok _ _ _ Hi) He (i_table _ _ _ Hi) Hx Hco) as (nxt & tk' & s' & v' & E & Hok & Hch & Hn & Hsc).
  exists (rsp tk'), s', v'. split; [done|]. by apply (after_inv s s' v v' c x cur frame nxt tk'); [..|apply (keeps_schedule frame s (rsp tk'))|].
Qed.

(** ** The operations *)

Lemma inv_tick frame s v c h :
  inv (leaving c) s v -> at_cpu s c h -> exists r s' v', timer_interrupt frame s = Ok (r, s') /\ inv parked s' v'.
Proof.
  intros Hi Ha. pose proof Ha as [Hc [x Hx] _ He]. set (s1 := if ctx_id x =? 0 then set_uptime_ms (w64 (uptime_ms s + 5)) s else s).
  assert (inv (leaving c) s1 v) as Hi1.
  { unfold s1. destruct (ctx_id x =? 0); [|done]. destruct Hi as [[A1 A2 A3 A4 A5] B C D E F G H]. split; try done. split; try done. by apply (rep_same s). }
  assert (at_cpu s1 c h) as Ha1 by (unfold s1; destruct (ctx_id x =? 0); by destruct Ha).
  destruct (inv_sleepers s1 v c h Hi1 Ha1) as (s2 & v2 & E2 & Hi2 & Ha2).
  destruct (inv_schedule frame s2 v2 c h Hi2 Ha2) as (r & s3 & v3 & E3 & Hi3). exists r, s3, v3. split; [|done].
  unfold timer_interrupt. rewrite (bind_ok _ _ _ c s), (bind_ok _ _ _ x s).
  2:{ unfold get_ctx, bind, gets, deref. by rewrite Hx. }
  2:{ unfold get_cpu, gets. by rewrite Hc. }
  rewrite (bind_ok _ _ _ tt s1) by (unfold s1, when; by destruct (ctx_id x =? 0)). by rewrite (bind_ok _ _ _ _ _ E2).
Qed.

(** The current task goes into a list, by any of the three routines. *)
Lemma inv_sleep ms s v c h x :
  inv parked s v -> at_cpu s c h -> cpus s !! c = Some x -> current_task x <> idle_task x ->
  state <$> tasks s !! current_task x = Some TASK_RUNNING ->
  exists s' v', sched_make_task_sleep ms s = Ok (tt, s') /\ inv parked s' v' /\ at_cpu s' c h.
Proof.
  intros Hi [<- _ <- He] Hx Hne Hst. destruct (i_current _ _ _ Hi _ x Hx) as [Hn _].
  destruct (tasks s !! current_task x) as [tk|] eqn:Ht; [|done].
  assert (idle_in v (current_task x)) as Hout by (apply (inv_running _ _ _ _ tk Hi Ht); by injection Hst).
  destruct (make_task_sleep_spec s v ms x tk (i_ok _ _ _ Hi) Hx Hn Ht Hout) as (s' & E & Hok & Hf & Hu & _).
  eexists s', _. split; [done|]. split.
  - apply (inv_leaves s s' v (this_cpu s) x); try done.
    + by left.
    + intros u. by rewrite elem_insert_sleeper.
    + exact (fr_ctx _ _ _ Hf).
    + by rewrite (fr_rest _ _ _ Hf).
    + by apply (keeps_sleep _ ms s tt).
    + by rewrite (unlinked_state _ (Some _) Hu).
    + intros u Hne'. by apply (fr_tasks _ _ _ Hf).
  - split; [by rewrite (fr_rest _ _ _ Hf)| |by rewrite (framed_hart _ _ _ Hf)|done].
    by rewrite <-(fmap_is_Some ctx_core), (fr_ctx _ _ _ Hf), Hx.
Qed.

Lemma current_run s x : cpus s !! this_cpu s = Some x -> sched_get_current s = Ok (current_task x, s).
Proof. intros Hx. unfold sched_get_current, get_cpu, get_ctx, bind, gets, deref, ret. by rewrite Hx. Qed.

Lemma unlinked_others (ts : gmap Z task) t tk u : u <> t -> unlinked <$> <[t := tk]> ts !! u = unlinked <$> ts !! u.
Proof. intros Hu. by rewrite lookup_insert_ne. Qed.

Lemma inv_block reason s v c h x :
  inv parked s v -> at_cpu s c h -> cpus s !! c = Some x -> current_task x <> idle_task x ->
  state <$> tasks s !! current_task x = Some TASK_RUNNING ->
  exists s' v', sched_block_current reason s = Ok (tt, s') /\ inv parked s' v' /\ at_cpu s' c h.
Proof.
  intros Hi [<- _ <- He] Hx Hne Hst. destruct (i_current _ _ _ Hi _ x Hx) as [Hn _].
  destruct (tasks s !! current_task x) as [tk|] eqn:Ht; [|done].
  assert (idle_in v (current_task x)) as Hout by (apply (inv_running _ _ _ _ tk Hi Ht); by injection Hst).
  destruct (sched_block_spec reason s v _ tk (i_ok _ _ _ Hi) (current_run s x Hx) Hn Ht Hout) as (s' & E & Hok & Ets & Ecs & Et & Eth & Eh).
  eexists s', _. split; [done|]. split.
  - apply (inv_leaves s s' v (this_cpu s) x); try done.
    + by right; left.
    + intros u. by rewrite elem_of_cons.
    + intros d. by rewrite Ecs.
    + by apply (keeps_block _ reason s tt).
    + by rewrite Ets, lookup_insert_eq.
    + intros u. rewrite Ets. apply unlinked_others.
  - by split; [|rewrite Ecs, Hx|rewrite Eh|].
Qed.

Lemma inv_exit s v c h x :
  inv parked s v -> at_cpu s c h -> cpus s !! c = Some x -> current_task x <> idle_task x ->
  state <$> tasks s !! current_task x = Some TASK_RUNNING ->
  exists s' v', exit_current s = Ok (tt, s') /\ inv parked s' v' /\ at_cpu s' c h.
Proof.
  intros Hi [<- _ <- He] Hx Hne Hst. destruct (i_current _ _ _ Hi _ x Hx) as [Hn _].
  destruct (tasks s !! current_task x) as [tk|] eqn:Ht; [|done].
  assert (idle_in v (current_task x)) as Hout by (apply (inv_running _ _ _ _ tk Hi Ht); by injection Hst).
  destruct (exit_current_spec s v x _ tk (i_ok _ _ _ Hi) Hx eq_refl Hn Ht Hout) as (s' & E & Hok & Ets & Ecs & Et & Eth & Eh).
  eexists s', _. split; [done|]. split.
  - apply (inv_leaves s s' v (this_cpu s) x); try done.
    + by right; right.
    + intros u. by rewrite elem_of_cons.
    + intros d. by rewrite Ecs.
    + by apply (keeps_exit _ s tt).
    + by rewrite Ets, lookup_insert_eq.
    + intros u. rewrite Ets. apply unlinked_others.
  - by split; [|rewrite Ecs, Hx|rewrite Eh|].
Qed.

(** Every enabled operation returns, in a state with the invariant. *)
Lemma perform_spec s v c h o :
  inv parked s v -> enabled s c h o -> exists r s' v', perform o (executing c h s) = Ok (r, s') /\ inv parked s' v' /\
    (gives_up o = true -> at_cpu s' c h).
Proof.
  intros Hi [(x & Hx & Hg) Hh He Hw]. apply (inv_executing _ _ _ c h Hh) in Hi. set (s0 := executing c h s) in *.
  assert (at_cpu s0 c h) as Ha by (by split; [|exists x|..]). assert (cpus s0 !! c = Some x) as Hx0 by done.
  assert (inv (leaving c) s0 v) as Hi' by (by apply (inv_mono parked); [by right|]).
  destruct o as [f|f|f|ms|reason| |reason]; cbn [perform gives_up] in *; try (destruct (Hg eq_refl) as [Hne Hst]).
  - destruct (inv_tick f s0 v c h Hi' Ha) as (r & s' & v' & E & J). by exists r, s', v'.
  - destruct (inv_tick f s0 v c h Hi' Ha) as (r & s' & v' & E & J). by exists r, s', v'.
  - destruct (inv_schedule f s0 v c h Hi' Ha) as (r & s' & v' & E & J). by exists r, s', v'.
  - destruct (inv_sleep ms s0 v c h x Hi Ha Hx0 Hne Hst) as (s' & v' & E & J & K). exists 0, s', v'. rewrite (bind_ok _ _ _ _ _ E).
    by split_and!.
  - destruct (inv_block reason s0 v c h x Hi Ha Hx0 Hne Hst) as (s' & v' & E & J & K). exists 0, s', v'. rewrite (bind_ok _ _ _ _ _ E).
    by split_and!.
  - destruct (inv_exit s0 v c h x Hi Ha Hx0 Hne Hst) as (s' & v' & E & J & K). exists 0, s', v'. rewrite (bind_ok _ _ _ _ _ E).
    by split_and!.
  - destruct (inv_wakeup reason s0 v c h Hi Ha (Hw reason eq_refl)) as (s' & v' & E & J). exists 0, s', v'. by rewrite (bind_ok _ _ _ _ _ E).
Qed.

(** The kernel's routines by which a task gives up its CPU are two steps each. *)
Lemma two_steps s v c h o frame :
  inv parked s v -> enabled s c h o -> gives_up o = true ->
  exists r1 s1 r s', perform o (executing c h s) = Ok (r1, s1) /\ sched_yield frame s1 = Ok (r, s') /\ rtc step s s'.
Proof.
  intros Hi Hen Hg. destruct (perform_spec s v c h o Hi Hen) as (r1 & s1 & v1 & E1 & Hi1 & Ha). specialize (Ha Hg).
  pose proof (executing_id _ _ _ Ha) as Hex. destruct Ha as [_ [x1 Hx1] _ He].
  assert (enabled s1 c h (OpYield frame)) as Hen1 by (split; [by exists x1|apply Hen|done|done]).
  destruct (perform_spec s1 v1 c h _ Hi1 Hen1) as (r & s' & _ & E2 & _). exists r1, s1, r, s'. split_and!; [done|by rewrite Hex in E2|].
  eapply rtc_l; [by apply (Step s c h o r1)|]. by apply rtc_once, (Step s1 c h (OpYield frame) r).
Qed.

(** So [msleep], the wait for a key and the exit of a task are runs. *)
Lemma handlers_are_runs s v c h o frame :
  inv parked s v -> enabled s c h o -> gives_up o = true ->
  exists r s', rtc step s s' /\
    match o with
    | OpSleep ms => msleep ms frame
    | OpBlock reason => wait_for reason frame
    | _ => sys_exit_handler frame
    end (executing c h s) = Ok (r, s').
Proof.
  intros Hi Hen Hg. destruct (two_steps s v c h o frame Hi Hen Hg) as (r1 & s1 & r & s' & E1 & E2 & Hr). exists r, s'. split; [done|].
  destruct Hen as [(x & Hx & _) _ He _]. assert (sched_get_current (executing c h s) = Ok (current_task x, executing c h s)) as Hcur by (by apply current_run).
  assert (current_task x =? NULL = false) as Hn by (apply Z.eqb_neq; by apply (i_current _ _ _ Hi c)).
  destruct o as [| | |ms|reason| |]; try done; apply bind_inv in E1 as (u & s2 & E1 & [= _ ->]).
  - unfold msleep. rewrite (bind_ok _ _ _ _ _ Hcur), (bind_ok _ _ _ h (executing c h s)), Hn, He by done. cbn [orb negb]. by rewrite (bind_ok _ _ _ _ _ E1).
  - unfold wait_for. by rewrite (bind_ok _ _ _ _ _ E1).
  - unfold sys_exit_handler, task_exit. rewrite bind_bind, (bind_ok _ _ _ _ _ Hcur), bind_bind, (bind_ok _ _ _ _ _ E1), Hn, bind_bind, (bind_ok _ _ _ _ _ E2). done.
Qed.

(** ** Reachable states *)

Lemma reachable_in_order s0 v0 s : inv parked s0 v0 -> rtc step s0 s -> exists v, inv parked s v.
Proof.
  intros Hi Hr. revert v0 Hi. induction Hr as [s|s1 s2 s3 [c h o r s' Hen E] _ IH]; intros v0 Hi; [by exists v0|].
  destruct (perform_spec s1 v0 c h o Hi Hen) as (r' & s2' & v2 & E2 & Hi2 & _). rewrite E in E2. injection E2 as <- <-. by apply (IH v2).
Qed.

(** What holds of the lists [v] and of every CPU and every task between
    operations: [in_order]. *)
Record in_order (s : sched) (v : place -> list Z) : Prop := {
  io_lists : sched_ok s v;
  io_state : forall a u, u ∈ v a -> state <$> tasks s !! u = Some (place_state a);
  io_current : forall c x, cpus s !! c = Some x ->
    (state <$> tasks s !! current_task x = Some TASK_RUNNING /\ idle_in v (current_task x)) \/
    exists a, parked c a /\ current_task x ∈ v a;
  io_once : forall c d x y, cpus s !! c = Some x -> cpus s !! d = Some y -> current_task x = current_task y -> c = d;
  io_only : forall u, state <$> tasks s !! u = Some TASK_RUNNING ->
    exists c x, cpus s !! c = Some x /\ (u = current_task x \/ u = idle_task x);
  io_kept : forall u, is_Some (tasks s !! u) ->
    (exists a, u ∈ v a) \/ exists c x, cpus s !! c = Some x /\ (u = current_task x \/ u = idle_task x);
}.

Lemma inv_in_order s v : inv parked s v -> in_order s v.
Proof.
  intros Hi. split; try apply Hi.
  - intros c x Hx. destruct (i_current _ _ _ Hi c x Hx) as [_ [[? ?]|?]]; [by left|by right].
  - intros c d x y Hx Hy E. destruct (decide (c = d)) as [|Hcd]; [done|]. by destruct (i_apart _ _ _ Hi c d x y Hcd Hx Hy).
  - intros u Hu. destruct (i_kept _ _ _ Hi u) as [[a Ha]|?]; [by destruct (tasks s !! u)| |done].
    apply (i_placed _ _ _ Hi) in Ha. rewrite Hu in Ha. by destruct a.
Qed.

(** C9: whatever the processors do, in whatever order they interleave the
    routines of the scheduler (timer interrupts, yields, rescheduling, going
    to sleep, beginning to wait, exits and wake-ups), the scheduler stays in
    good order, as long as no wake-up hits a task between its call of
    sched_block_current and the switch away from it. In every state reached,
    the lists are well formed and a task in a list has the state of that list;
    every CPU's current task is RUNNING and in no list, or has given up the
    CPU and is in the CPU's sleeping list, the blocked or the dead list; no
    task is current on two CPUs; only current and idle tasks are RUNNING; and
    every task is in a list, or current, or an idle task, so none is lost. And
    every operation a CPU may perform there returns: none faults, hangs or
    panics. Creation and reaping of tasks are not among the steps. *)
Theorem scheduler_always_in_order s0 v0 s :
  inv parked s0 v0 -> rtc step s0 s ->
  (exists v, in_order s v) /\
  forall c h o, enabled s c h o -> exists r s', perform o (executing c h s) = Ok (r, s').
Proof.
  intros Hi Hr. destruct (reachable_in_order s0 v0 s Hi Hr) as [v Hv]. split.
  - exists v. by apply inv_in_order.
  - intros c h o Hen. destruct (perform_spec s v c h o Hv Hen) as (r & s' & _ & E & _). by exists r, s'.
Qed.

(** ** The start *)

(** [sched_init], on the first CPU and with no task yet, makes the invariant
    hold: it is under the hypotheses of [sched_init_correct]. *)
Theorem sched_init_in_order {E} `{TaskEnv E} (k : kernel (E := E)) v x entry main idle base e1 e2 e3 :
  let c := this_cpu (k_sched k) in
  sched_ok (k_sched k) v -> lock_free (sched_lock_ k) -> cpus (k_sched k) = {[c := x]} -> tasks (k_sched k) = ∅ -> table_ok (k_sched k) ->
  env_kmalloc sizeof_task (k_env k) = Ok (main, e1) -> main <> NULL ->
  env_kmalloc sizeof_task e1 = Ok (idle, e2) -> idle <> NULL -> idle <> main ->
  env_kmalloc 4096 e2 = Ok (base, e3) -> 0 < base -> base + 4096 < 2 ^ 64 -> owned (k_mem k) base 4096 ->
  exists k', sched_init entry k = Ok (tt, k') /\ inv parked (k_sched k') v.
Proof.
  intros c Hs Hl Ec Et Htab E1 Hm E2 Hi Hne E3 Hb Hw Ho.
  destruct (sched_init_correct k v x entry main idle base e1 e2 e3 Hs Hl ltac:(rewrite Ec; apply lookup_singleton_eq) E1 Hm
    ltac:(by rewrite Et) E2 Hi ltac:(by rewrite Et) Hne E3 Hb Hw Ho) as (k' & E0 & [Hok _ _] & _ & _ & _ & Om & Oi & _ & Ek).
  exists k'. split; [done|]. fold c in Ek. rewrite Ec, Et in Ek.
  assert (forall a u, u ∉ v a) as Hv.
  { intros a u Hu. destruct (rep_task _ _ a u (so_rep _ _ Hs) Hu) as [_ [tk Hk]]. by rewrite Et in Hk. }
  assert (forall d y, cpus (k_sched k') !! d = Some y -> d = c /\ current_task y = main /\ idle_task y = idle) as Hcpu.
  { intros d y. rewrite Ek. cbn. rewrite insert_singleton_eq, lookup_singleton_Some. by intros [<- <-]. }
  assert (cpus (k_sched k') !! c = Some (set_idle_task idle (set_current_task main x))) as Hx by (rewrite Ek; cbn; by rewrite lookup_insert_eq).
  assert (forall u, is_idle (k_sched k') u <-> u = idle) as Hid.
  { intros u. split; [by intros (d & y & (_ & _ & ->)%Hcpu & ->)|]. intros ->. by eexists c, _. }
  assert (forall u tk, tasks (k_sched k') !! u = Some tk -> (u = idle /\ priority tk = PRIO_IDLE) \/ (u = main /\ priority tk <> PRIO_IDLE /\ base_priority tk <> PRIO_IDLE)) as Htk.
  { intros u tk. rewrite Ek. cbn. rewrite !lookup_insert_Some, lookup_empty. intros [[<- <-]|[_ [[<- <-]|[_ ?]]]]; [by left|right|done]. by split_and!. }
  split.
  - done.
  - intros i. rewrite Ek. cbn. intros Hi0%Htab. rewrite Ec, lookup_singleton_is_Some in Hi0. rewrite <-Hi0. by rewrite lookup_insert_eq.
  - intros a u Hu. by apply Hv in Hu.
  - intros u tk Hu. rewrite Hid. destruct (Htk u tk Hu) as [[-> ?]|(-> & ? & ?)]; split; try done.
  - intros d y (_ & _ & ->)%Hcpu. split_and!; [done| |done]. rewrite Ek. cbn. by rewrite lookup_insert_eq.
  - intros d y (_ & -> & _)%Hcpu. split; [done|]. left. split; [done|]. rewrite Ek. cbn. by rewrite lookup_insert_ne, lookup_insert_eq by congruence.
  - intros d e y z Hde (-> & _)%Hcpu (-> & _)%Hcpu. done.
  - intros u [tk Hu]. right. exists c, (set_idle_task idle (set_current_task main x)). split; [done|]. cbn.
    destruct (Htk u tk Hu) as [[-> _]|[-> _]]; [by right|by left].
Qed.

(** At the machine of [TaskDemo], so the invariant is one the kernel starts with. *)
Lemma sched_init_in_order_witness : exists k', sched_init (H := log_task) 0x8000 boot_kernel = Ok (tt, k') /\ inv parked (k_sched k') (fun _ => []).
Proof.
  apply (sched_init_in_order (H := log_task) boot_kernel (fun _ => []) (demo_cpu 0 NULL NULL) 0x8000 0x5000 (0x5000 + 448) IDLE_STACK
    (0x5000 + 448, []) (IDLE_STACK, []) (IDLE_STACK + 4096, [])); try done.
  - apply sched_ok_empty; [split_and!; by_decide|by_decide..].
  - intros i. change (cpu_table (k_sched boot_kernel)) with ({[0 := CPU0]} : gmap Z Z). unfold rd.
    destruct (decide (i = 0)) as [->|H0]; [by intros _|]. by rewrite lookup_singleton_ne.
  - rewrite <-(length_replicate 4096 0). apply cells_owned, upd_cells.
Qed.

(** ** A run of two processors *)

Lemma demo1_cpus c x : cpus demo1 !! c = Some x -> (c = CPU0 /\ x = ctx_at demo1 CPU0) \/ (c = CPU1 /\ x = ctx_at demo1 CPU1).
Proof.
  enough (map_Forall (fun c x => (c = CPU0 /\ x = ctx_at demo1 CPU0) \/ (c = CPU1 /\ x = ctx_at demo1 CPU1)) (cpus demo1)) as H by exact (H c x).
  assert (cpus demo1 = <[CPU0 := ctx_at demo1 CPU0]> (<[CPU1 := ctx_at demo1 CPU1]> ∅)) as -> by (vm_compute; reflexivity).
  apply map_Forall_insert_2; [by left|]. apply map_Forall_insert_2; [by right|apply map_Forall_empty].
Qed.

Lemma demo1_is_idle u : is_idle demo1 u <-> u = IDLE0 \/ u = IDLE1.
Proof.
  split; [intros (c & x & [[-> ->]|[-> ->]]%demo1_cpus & ->); [left|right]; by_decide|].
  intros [->| ->]; [exists CPU0, (ctx_at demo1 CPU0)|exists CPU1, (ctx_at demo1 CPU1)]; split; by_decide.
Qed.

Lemma demo1_inv : inv parked demo1 view1.
Proof.
  split.
  - exact demo1_ok.
  - exact demo1_table.
  - intros a u. unfold view1, vset. case_decide as Ea; [|by intros ?%not_elem_of_nil]. intros ->%list_elem_of_singleton. subst a. by_decide.
  - intros u tk Hu. rewrite demo1_is_idle. 
    enough (map_Forall (fun u tk => (priority tk = PRIO_IDLE <-> u = IDLE0 \/ u = IDLE1) /\ (~ (u = IDLE0 \/ u = IDLE1) -> base_priority tk <> PRIO_IDLE)) (tasks demo1)) as H by exact (H u tk Hu).
    by_decide.
  - intros c x [[-> ->]|[-> ->]]%demo1_cpus; (split; [by_decide|]; split; [by_decide|]; apply demo1_idle; by_decide).
  - intros c x [[-> ->]|[-> ->]]%demo1_cpus; (split; [by_decide|]; left; split; [apply demo1_idle; by_decide|by_decide]).
  - intros c d x y Hcd [[-> ->]|[-> ->]]%demo1_cpus [[-> ->]|[-> ->]]%demo1_cpus; try done; split_and!; by_decide.
  - intros u [tk Hu]. assert (u = TASK_B \/ u ∈ [TASK_A; TASK_K; IDLE0; IDLE1]) as [->|Hin].
    { enough (map_Forall (fun u _ => u = TASK_B \/ u ∈ [TASK_A; TASK_K; IDLE0; IDLE1]) (tasks demo1)) as H by exact (H u tk Hu). by_decide. }
    { left. exists (Rq CPU1 0). unfold view1. rewrite vset_eq. by left. }
    right. rewrite !elem_of_cons in Hin. destruct Hin as [->|[->|[->|[->|[]%not_elem_of_nil]]]];
      [exists CPU0, (ctx_at demo1 CPU0)|exists CPU1, (ctx_at demo1 CPU1)|exists CPU0, (ctx_at demo1 CPU0)|exists CPU1, (ctx_at demo1 CPU1)];
      (split; [by_decide|]); [left|left|right|right]; by_decide.
Qed.

Definition HART0 : hart := mkHart 0x202 (Some 0) true.
Definition HART1 : hart := mkHart 0x202 (Some 1) true.

(** Task A begins to wait for a key on CPU 0; the timer interrupts CPU 1, which
    leaves task K for task B; then CPU 0 leaves task A for its idle task. *)
Definition demo_waits : sched := run (perform (OpBlock REASON_KEYBOARD)) (executing CPU0 HART0 demo1).
Definition demo_ticks : sched := run (perform (OpTick 0x8e00)) (executing CPU1 HART1 demo_waits).
Definition demo_leaves : sched := run (perform (OpYield 0x8f00)) (executing CPU0 HART0 demo_ticks).

Lemma run_ok {A} (m : M sched A) s : match m s with Ok _ => True | _ => False end -> exists r, m s = Ok (r, run m s).
Proof. unfold run. destruct (m s) as [[r s']| | |]; [by exists r|done..]. Qed.

Ltac demo_step := match goal with |- step ?s (run (perform ?o) (executing ?c ?h ?s)) =>
  let r := fresh in let E := fresh in
  destruct (run_ok (perform o) (executing c h s) ltac:(vm_compute; exact I)) as [r E];
  refine (Step s c h o r _ _ E); split; [exists (ctx_at s c); split; [by_decide|first [by intros [=]|intros _; split; by_decide]]|by_decide|by_decide|intros ? [=]] end.

Lemma scheduler_always_in_order_witness :
  rtc step demo1 demo_leaves /\ (exists v, in_order demo_leaves v) /\
  state (task_at demo_waits TASK_A) = TASK_BLOCKED /\ current_task (ctx_at demo_ticks CPU0) = TASK_A /\
  current_task (ctx_at demo_leaves CPU0) = IDLE0 /\
  exists r s', perform (OpWake REASON_KEYBOARD) (executing CPU0 HART0 demo_leaves) = Ok (r, s').
Proof.
  assert (rtc step demo1 demo_leaves) as Hr.
  { apply (rtc_l _ _ demo_waits); [unfold demo_waits; demo_step|]. apply (rtc_l _ _ demo_ticks); [unfold demo_ticks; demo_step|].
    apply rtc_once. unfold demo_leaves. demo_step. }
  destruct (scheduler_always_in_order demo1 view1 demo_leaves demo1_inv Hr) as (Hw & Hp).
  split; [exact Hr|]. split; [exact Hw|]. split; [vm_compute; reflexivity|]. split; [vm_compute; reflexivity|]. split; [vm_compute; reflexivity|].
  apply Hp. split; [exists (ctx_at demo_leaves CPU0); split; [by_decide|intros [=]]|by_decide|by_decide|].
  intros reason [= <-] d y tk Hy.
  enough (map_Forall (fun _ y => state <$> tasks demo_leaves !! current_task y = Some TASK_RUNNING) (cpus demo_leaves)) as H.
  { specialize (H d y Hy). cbv beta in H. intros Ht Hst. rewrite Ht in H. cbn [fmap option_fmap option_map] in H. congruence. }
  by_decide.
Defined.

(** ** Between the routines of a waiting task *)

(** CPU 1 runs task A, which it has dispatched before; CPU 0 is idle. *)
Definition demo_reader : sched := mkSched HART1
  (list_to_map [(IDLE0, demo_idle 1 TASK_RUNNING); (IDLE1, demo_idle 2 TASK_READY);
    (TASK_A, set_task_cpu 1 (demo_task 10 PRIO_NORMAL TASK_RUNNING))])
  (list_to_map [(CPU0, demo_cpu 0 IDLE0 IDLE0); (CPU1, demo_cpu 1 TASK_A IDLE1)])
  (list_to_map [(0, CPU0); (1, CPU1)]) CPU1 42 0x1000 NULL NULL spinlock_init spinlock_init.

(** A task that waits for a key can come to run on two CPUs. Between the two
    calls of [sys_read_kbd_handler], [sched_block_current] and [sched_yield],
    the task is on the blocked list and still current on CPU 1. When the key's
    interrupt, which the I/O APIC sends to CPU 0, is handled there,
    [sched_wakeup] puts the task on CPU 1's runqueue, and the next scheduling
    step of CPU 0, which has nothing else to do, steals it: it is the current
    task of both CPUs, on one stack. *)
Example blocked_task_runs_twice :
  let s1 := run (sched_block_current REASON_KEYBOARD) (executing CPU1 HART1 demo_reader) in
  let s2 := run (sched_wakeup REASON_KEYBOARD) (executing CPU0 HART0 s1) in
  exists s3, timer_interrupt 0x8e00 (executing CPU0 HART0 s2) = Ok (0x9000, s3) /\
    current_task (ctx_at s3 CPU0) = TASK_A /\ current_task (ctx_at s3 CPU1) = TASK_A /\
    state (task_at s3 TASK_A) = TASK_RUNNING.
Proof. eexists. split; [vm_compute; reflexivity|]. split_and!; by_decide. Qed.
