(* ===== verification/Cpu.v ===== *)
(** * Processor set-up

    Models [kernel/cpu/cpu.c] and the inline functions of
    [kernel/include/cpu/cpu.h].

    - [regs] are the control registers and the model-specific registers of the
      processor that runs; an access to a model-specific register it does not
      have faults.
    - [mach] is a processor with the scheduler (whose contexts and [cpu_table]
      the set-up fills in), the parts of the contexts the scheduler does not
      use ([ext]) and the frame allocator.
    - [gdt_flush] and [ltr] are assembly: of them only is in the state that the
      null selector in GS leaves its base with a value the processor chooses,
      the argument [gs_reset]. *)

From S2P Require Import Prelude Lock Frames Vmm Strings Chain Sched Runqueue Tables.

(** ** Registers *)

Record regs := mkRegs { r_cr0 : Z; r_cr3 : Z; r_cr4 : Z; r_msr : gmap Z Z; r_flushes : nat }.

Definition set_cr0 (v : Z) (r : regs) : regs := mkRegs v (r_cr3 r) (r_cr4 r) (r_msr r) (r_flushes r).
Definition set_cr4 (v : Z) (r : regs) : regs := mkRegs (r_cr0 r) (r_cr3 r) v (r_msr r) (r_flushes r).
Definition set_msr (v : gmap Z Z) (r : regs) : regs := mkRegs (r_cr0 r) (r_cr3 r) (r_cr4 r) v (r_flushes r).
(** A write to CR3 flushes the TLB. *)
Definition load_cr3 (v : Z) (r : regs) : regs := mkRegs (r_cr0 r) v (r_cr4 r) (r_msr r) (S (r_flushes r)).

(** [rdmsr], [wrmsr]: the halves in EAX and EDX *)
Definition rdmsr (msr : Z) : M regs (Z * Z) :=
  m <- gets r_msr ;; v <- deref (m !! msr) ;; ret (w32 v, w32 (Z.shiftr v 32)).
Definition wrmsr (msr low high : Z) : M regs unit :=
  m <- gets r_msr ;; _ <- deref (m !! msr) ;;
  modify (set_msr (<[msr := Z.lor (Z.shiftl (w32 high) 32) (w32 low)]> m)).

Definition read_msr (msr : Z) : M regs Z :=
  p <- rdmsr msr ;; ret (Z.lor (Z.shiftl p.2 32) p.1).
Definition write_msr (msr value : Z) : M regs unit := wrmsr msr (w32 value) (w32 (Z.shiftr value 32)).

Definition read_cr3 : M regs Z := gets r_cr3.
Definition write_cr3 (v : Z) : M regs unit := modify (load_cr3 v).
Definition cpu_flush_tlb : M regs unit := v <- read_cr3 ;; write_cr3 v.

(** The integer constants [1 << n] and their complements are sign-extended *)
Definition cpu_enable_sse : M regs unit :=
  cr4 <- gets r_cr4 ;;
  let cr4 := Z.lor cr4 (Z.shiftl 1 5) in
  let cr4 := Z.lor cr4 (Z.shiftl 1 9) in
  let cr4 := Z.lor cr4 (Z.shiftl 1 10) in
  modify (set_cr4 cr4) ;;;
  cr0 <- gets r_cr0 ;;
  let cr0 := Z.land cr0 (w64 (Z.lnot (Z.shiftl 1 2))) in
  let cr0 := Z.lor cr0 (Z.shiftl 1 1) in
  modify (set_cr0 cr0).
Definition enable_pae_cr4 : M regs unit :=
  cr4 <- gets r_cr4 ;; modify (set_cr4 (Z.lor cr4 (Z.shiftl 1 5))).
Definition disable_wp_cr0 : M regs unit :=
  cr0 <- gets r_cr0 ;; modify (set_cr0 (Z.land cr0 (w64 (Z.lnot (Z.shiftl 1 16))))).
Definition enable_wp_cr0 : M regs unit :=
  cr0 <- gets r_cr0 ;; modify (set_cr0 (Z.lor cr0 (Z.shiftl 1 16))).

Definition MSR_EFER : Z := 0xC0000080.
Definition MSR_STAR : Z := 0xC0000081.
Definition MSR_LSTAR : Z := 0xC0000082.
Definition MSR_FMASK : Z := 0xC0000084.
Definition MSR_GS_BASE : Z := 0xC0000101.
Definition MSR_KERNEL_GS_BASE : Z := 0xC0000102.

Definition enable_nxe : M regs unit :=
  p <- rdmsr MSR_EFER ;; wrmsr MSR_EFER (Z.lor p.1 0x800) p.2.

(** [syscall_entry] is the address of the assembly entry *)
Definition cpu_init_syscalls (syscall_entry : Z) : M regs unit :=
  write_msr MSR_LSTAR syscall_entry ;;;
  write_msr MSR_STAR (Z.lor (Z.shiftl 0x13 48) (Z.shiftl 0x08 32)) ;;;
  write_msr MSR_FMASK 0x202 ;;;
  efer <- read_msr MSR_EFER ;;
  write_msr MSR_EFER (Z.lor efer 1).

(** ** Contexts *)

(** The fields of [cpu_context_t] outside the scheduler. *)
Record ext := mkExt { x_self : Z; x_lapic_id : Z; x_user_rsp : Z; x_pmm_last_index : Z; x_gdt : option cpu_gdt }.
Definition zero_ext : ext := mkExt NULL 0 0 0 None.
Definition zero_ctx : cpu_context :=
  mkCpu 0 0 0 NULL NULL (mkSpinlock 0 0 0) ∅ ∅ ∅ ∅ 0 (mkSpinlock 0 0 0) NULL.

Section mach.
Context {F : Type} `{FrameAllocator F}.

Record mach := mkMach { mc_regs : regs; mc_sched : sched; mc_ext : gmap Z ext; mc_frames : F }.

Definition lift {S A} (get : mach -> S) (set : S -> mach -> mach) (m : M S A) : M mach A := fun s =>
  match m (get s) with
  | Ok (a, x) => Ok (a, set x s)
  | Fault => Fault
  | Panic => Panic
  | Hang => Hang
  end.
Definition on_regs {A} (m : M regs A) : M mach A := lift mc_regs (fun r s => mkMach r (mc_sched s) (mc_ext s) (mc_frames s)) m.
Definition on_sched {A} (m : M sched A) : M mach A := lift mc_sched (fun x s => mkMach (mc_regs s) x (mc_ext s) (mc_frames s)) m.
Definition on_frames {A} (m : M F A) : M mach A := lift mc_frames (fun f s => mkMach (mc_regs s) (mc_sched s) (mc_ext s) f) m.

Definition upd_ext (ctx : Z) (f : ext -> ext) : M mach unit :=
  e <- gets mc_ext ;; x <- deref (e !! ctx) ;;
  modify (fun s => mkMach (mc_regs s) (mc_sched s) (<[ctx := f x]> e) (mc_frames s)).
Definition set_self (v : Z) (x : ext) : ext := mkExt v (x_lapic_id x) (x_user_rsp x) (x_pmm_last_index x) (x_gdt x).
Definition set_lapic_id (v : Z) (x : ext) : ext := mkExt (x_self x) v (x_user_rsp x) (x_pmm_last_index x) (x_gdt x).
Definition set_pmm_last_index (v : Z) (x : ext) : ext := mkExt (x_self x) (x_lapic_id x) (x_user_rsp x) v (x_gdt x).
Definition set_gdt (v : cpu_gdt) (x : ext) : ext := mkExt (x_self x) (x_lapic_id x) (x_user_rsp x) (x_pmm_last_index x) (Some v).
Definition set_ctx_id (v : Z) (r : cpu_context) : cpu_context :=
  mkCpu v (kernel_stack r) (tss_rsp0 r) (current_task r) (idle_task r) (rq_lock r) (rq_head r) (rq_tail r) (rq_count r)
    (current_quanta r) (next_priority_boost r) (sleep_lock r) (sleeping_list r).

(** [memset(ctx, 0, sizeof(cpu_context_t))] *)
Definition zero_context (ctx : Z) : M mach unit :=
  modify (fun s => mkMach (mc_regs s) (set_cpus (<[ctx := zero_ctx]> (cpus (mc_sched s))) (mc_sched s))
                     (<[ctx := zero_ext]> (mc_ext s)) (mc_frames s)).

Definition set_cpu_table (v : gmap Z Z) (s : sched) : sched :=
  mkSched (s_hart s) (tasks s) (cpus s) v (this_cpu s) (uptime_ms s) (cr3_reg s) (dead_task_list s)
    (blocked_task_list s) (dead_lock_ s) (blocked_lock_ s).
(** [cpu_table] has 32 entries; a write behind them is a fault *)
Definition cpu_register_context (ctx : Z) : M mach unit :=
  x <- on_sched (get_ctx ctx) ;;
  if 32 <=? ctx_id x then fault else
  on_sched (modify (fun s => set_cpu_table (<[ctx_id x := ctx]> (cpu_table s)) s)).

(** [movq %gs:0] *)
Definition get_cpu : M mach Z :=
  base <- on_regs (read_msr MSR_GS_BASE) ;;
  e <- gets mc_ext ;; x <- deref (e !! base) ;; ret (x_self x).

(** One turn of the loop over the priorities *)
Definition reset_queue (i : Z) (x : cpu_context) : cpu_context :=
  set_current_quanta (<[i := 0]> (current_quanta x))
    (set_rq_count (<[i := 0]> (rq_count x)) (set_rq_tail (<[i := NULL]> (rq_tail x)) (set_rq_head (<[i := NULL]> (rq_head x)) x))).

Definition cpu_init_context (ctx : Z) : M mach unit :=
  upd_ext ctx (set_self ctx) ;;;
  mapM_ (fun i => on_sched (upd_ctx ctx (reset_queue i))) (seqZ 0 4) ;;;
  on_sched (upd_ctx ctx (set_rq_lock spinlock_init)) ;;;
  on_sched (upd_ctx ctx (set_sleep_lock spinlock_init)) ;;;
  on_regs (write_msr MSR_GS_BASE ctx) ;;;
  on_regs (write_msr MSR_KERNEL_GS_BASE ctx).

(** [&ctx->tss] and [&ctx->gdt] *)
Definition tss_addr (ctx : Z) : Z := ctx + 40.
Definition gdt_addr (ctx : Z) : Z := tss_addr ctx + sizeof_tss.

(** [gdt_setup_for_cpu(ctx)]: the tables, the stack in the TSS, and the reload
    of the segment registers *)
Definition setup_gdt (gs_reset ctx : Z) : M mach unit :=
  x <- on_sched (get_ctx ctx) ;;
  upd_ext ctx (set_gdt (gdt_setup_for_cpu (gdt_addr ctx) (tss_addr ctx) (kernel_stack x))) ;;;
  on_sched (upd_ctx ctx (set_tss_rsp0 (kernel_stack x))) ;;;
  on_regs (write_msr MSR_GS_BASE gs_reset).

Definition cpu_init_bsp (gs_reset : Z) : M mach unit :=
  f <- on_frames fa_alloc ;;
  let ctx := phys_to_virt f in
  zero_context ctx ;;;
  upd_ext ctx (set_self ctx) ;;;
  on_sched (upd_ctx ctx (set_ctx_id 0)) ;;;
  cpu_register_context ctx ;;;
  upd_ext ctx (set_pmm_last_index 0) ;;;
  stack <- on_frames (fa_alloc_n 4) ;;
  on_sched (upd_ctx ctx (set_kernel_stack (phys_to_virt (w64 (stack + 4 * PAGE_SIZE))))) ;;;
  setup_gdt gs_reset ctx ;;;
  on_regs cpu_enable_sse ;;;
  cpu_init_context ctx.
End mach.
