(* ===== verification/CpuSpec.v ===== *)
(** * Processor set-up: correctness

    The bits [cpu_enable_sse] and [enable_nxe] change, the registers of the
    system-call instruction, and the context of the bootstrap processor. *)

From S2P Require Import Prelude Lock Frames Vmm Strings Chain Sched Runqueue Tables Cpu.

(** ** Bits *)

Lemma join_halves v : 0 <= v < 2 ^ 64 -> Z.lor (Z.shiftl (w32 (Z.shiftr v 32)) 32) (w32 v) = v.
Proof.
  intros Hv. apply Z.bits_inj'. intros n Hn. rewrite Z.lor_spec, Z.shiftl_spec by done. unfold w32.
  destruct (Z.lt_ge_cases n 32).
  - rewrite Z.testbit_neg_r by lia. rewrite Z.mod_pow2_bits_low by lia. done.
  - rewrite (Z.mod_pow2_bits_high v) by lia. rewrite orb_false_r. destruct (Z.lt_ge_cases (n - 32) 32).
    + rewrite Z.mod_pow2_bits_low, Z.shiftr_spec by lia. f_equal. lia.
    + rewrite Z.mod_pow2_bits_high by lia. symmetry. apply (testbit_above v 64); lia.
Qed.

Lemma halves_joined high low : 0 <= high < 2 ^ 32 -> 0 <= low < 2 ^ 32 ->
  let v := Z.lor (Z.shiftl high 32) low in w32 v = low /\ w32 (Z.shiftr v 32) = high.
Proof.
  intros Hh Hl. cbv zeta. unfold w32. rewrite <-!Z.land_ones by lia. split; apply Z.bits_inj'; intros n Hn;
    rewrite Z.land_spec, ?Z.shiftr_spec, Z.lor_spec, Z.shiftl_spec by lia; destruct (Z.lt_ge_cases n 32).
  - rewrite Z.ones_spec_low, (Z.testbit_neg_r high) by lia. by rewrite andb_true_r.
  - rewrite Z.ones_spec_high by lia. rewrite andb_false_r. symmetry. apply (testbit_above low 32); lia.
  - rewrite Z.ones_spec_low, (testbit_above low 32) by lia. rewrite andb_true_r, orb_false_r. f_equal. lia.
  - rewrite Z.ones_spec_high by lia. rewrite andb_false_r. symmetry. apply (testbit_above high 32); lia.
Qed.

(** ** Model-specific registers *)

Lemma write_msr_ok r msr v : is_Some (r_msr r !! msr) -> 0 <= v < 2 ^ 64 ->
  write_msr msr v r = Ok (tt, set_msr (<[msr := v]> (r_msr r)) r).
Proof.
  intros [w Hw] Hv. unfold write_msr, wrmsr, bind, gets, deref. rewrite Hw. unfold ret, modify.
  rewrite (w32_small (w32 v)), (w32_small (w32 (Z.shiftr v 32))) by apply w32_range. by rewrite join_halves.
Qed.

Lemma read_msr_ok r msr v : r_msr r !! msr = Some v -> 0 <= v < 2 ^ 64 -> read_msr msr r = Ok (v, r).
Proof. intros Hw Hv. unfold read_msr, rdmsr, bind, gets, deref. rewrite Hw. unfold ret. cbn [fst snd]. by rewrite join_halves. Qed.

Definition msr_present (r : regs) (l : list Z) : Prop := Forall (fun m => is_Some (r_msr r !! m)) l.

(** The selectors the processor takes from STAR: for SYSCALL the code selector
    and the next one; for SYSRET, the one two further and the next one. *)
Definition syscall_cs (star : Z) : Z := Z.land (Z.shiftr star 32) 0xFFFC.
Definition syscall_ss (star : Z) : Z := Z.land (Z.shiftr star 32) 0xFFFF + 8.
Definition sysret_cs (star : Z) : Z := Z.lor (Z.shiftr star 48 + 16) 3.

(** After [cpu_init_syscalls] the SYSCALL instruction enters [syscall_entry]
    in ring 0: system calls are enabled and no other bit of EFER has changed,
    STAR names the kernel's code and data segments of the table
    [gdt_setup_for_cpu] builds, and the flag mask clears the interrupt flag.
    SYSRET would load the user data segment as code segment, so that the return
    has to be by IRETQ, as it is. *)
Theorem cpu_init_syscalls_correct r entry efer ga ta ks :
  msr_present r [MSR_LSTAR; MSR_STAR; MSR_FMASK] -> r_msr r !! MSR_EFER = Some efer -> 0 <= efer < 2 ^ 64 -> 0 <= entry < 2 ^ 64 ->
  let g := gdt_setup_for_cpu ga ta ks in
  exists r' star efer', cpu_init_syscalls entry r = Ok (tt, r') /\
    r_msr r' !! MSR_LSTAR = Some entry /\ r_msr r' !! MSR_STAR = Some star /\ r_msr r' !! MSR_EFER = Some efer' /\
    (exists mask, r_msr r' !! MSR_FMASK = Some mask /\ Z.testbit mask 9 = true) /\
    (forall n, 0 <= n -> Z.testbit efer' n = (n =? 0) || Z.testbit efer n) /\
    (exists e, selector_entry g (syscall_cs star) = Some e /\ seg_present e = true /\ seg_code e = true /\ seg_long e = true /\ seg_dpl e = 0) /\
    (exists e, selector_entry g (syscall_ss star) = Some e /\ seg_present e = true /\ seg_writable e = true /\ seg_dpl e = 0) /\
    (exists e, selector_entry g (sysret_cs star) = Some e /\ seg_code e = false).
Proof.
  intros Hp He Hef Hen g. apply Forall_cons in Hp as [H1 Hp]. apply Forall_cons in Hp as [H2 Hp]. apply Forall_cons in Hp as [H3 _].
  assert (He' : 0 <= Z.lor efer 1 < 2 ^ 64).
  { split; [apply Z.lor_nonneg; lia|]. apply range_of_bits; [apply Z.lor_nonneg; lia|lia|]. intros n Hn. rewrite Z.lor_spec, (testbit_above efer 64) by lia.
    change 1 with (Z.shiftl 1 0). rewrite testbit_shift1 by lia. apply Z.eqb_neq. lia. }
  eexists _, _, (Z.lor efer 1). split.
  { unfold cpu_init_syscalls. rewrite (bind_ok _ _ _ _ _ (write_msr_ok r _ entry H1 Hen)).
    erewrite bind_ok; [|apply write_msr_ok; [cbn; by rewrite lookup_insert_ne|vm_compute; split; congruence]].
    erewrite bind_ok; [|apply write_msr_ok; [cbn; by rewrite !lookup_insert_ne|vm_compute; split; congruence]].
    erewrite bind_ok; [|apply read_msr_ok; [cbn; by rewrite !lookup_insert_ne|done]].
    apply write_msr_ok; [cbn; rewrite !lookup_insert_ne by done; by exists efer|done]. }
  cbn [r_msr set_msr]. split; [by rewrite !lookup_insert_ne, lookup_insert_eq by done|].
  split; [by rewrite !lookup_insert_ne, lookup_insert_eq by done|]. split; [apply lookup_insert_eq|].
  split; [exists 0x202; by rewrite !lookup_insert_ne, lookup_insert_eq by done|].
  split; [|split; [|split]].
  - intros n Hn. rewrite Z.lor_spec. change 1 with (Z.shiftl 1 0). rewrite testbit_shift1 by lia. apply orb_comm.
  - exists (mkSeg 0 0 0 0x9A 0x20 0). split; [reflexivity|done].
  - exists (mkSeg 0 0 0 0x92 0x00 0). split; [reflexivity|done].
  - exists (mkSeg 0 0 0 0xF2 0x00 0). split; [reflexivity|done].
Qed.

(** ** Control registers *)

Lemma testbit_lnot1 k n : 0 <= k < 64 -> 0 <= n < 64 -> Z.testbit (w64 (Z.lnot (Z.shiftl 1 k))) n = negb (n =? k).
Proof.
  intros Hk Hn. unfold w64. rewrite Z.mod_pow2_bits_low, Z.lnot_spec, testbit_shift1 by lia. done.
Qed.

(** SSE is on: PAE, OSFXSR and OSXMMEXCPT are set in CR4, monitor and not
    emulation in CR0, and no other bit has changed. *)
Definition sse_enabled (r r' : regs) : Prop :=
  (forall n, 0 <= n -> Z.testbit (r_cr4 r') n = bool_decide (n ∈ [5; 9; 10]) || Z.testbit (r_cr4 r) n) /\
  (forall n, 0 <= n < 64 -> Z.testbit (r_cr0 r') n = if n =? 1 then true else if n =? 2 then false else Z.testbit (r_cr0 r) n).

Lemma cpu_enable_sse_spec r : exists r', cpu_enable_sse r = Ok (tt, r') /\ r_msr r' = r_msr r /\ sse_enabled r r'.
Proof.
  exists (mkRegs (Z.lor (Z.land (r_cr0 r) (w64 (Z.lnot (Z.shiftl 1 2)))) (Z.shiftl 1 1)) (r_cr3 r)
    (Z.lor (Z.lor (Z.lor (r_cr4 r) (Z.shiftl 1 5)) (Z.shiftl 1 9)) (Z.shiftl 1 10)) (r_msr r) (r_flushes r)).
  split; [done|]. split; [done|]. cbn [r_cr0 r_cr4]. split; intros n Hn; cbn [r_cr0 r_cr4].
  - rewrite !Z.lor_spec, !testbit_shift1 by lia. destruct (Z.testbit (r_cr4 r) n).
    + by rewrite !orb_true_r.
    + rewrite orb_false_r. repeat case_bool; try (subst; done). rewrite bool_decide_eq_false_2; [done|].
      rewrite !elem_of_cons, elem_of_nil. naive_solver.
  - rewrite Z.lor_spec, Z.land_spec, testbit_lnot1, testbit_shift1 by lia. repeat case_bool; subst; try lia; try done.
    all: rewrite ?orb_true_r, ?andb_true_r, ?andb_false_r, ?orb_false_r; done.
Qed.

(** ** Contexts *)

Section context.
Context {F : Type} `{FrameAllocator F}.
Abbreviation mach := (@mach F).

Section steps.
Context {A : Type} (r : regs) (sc : sched) (m : gmap Z cpu_context) (e : gmap Z ext) (fr : F).
Abbreviation st := (mkMach r (set_cpus m sc) e fr).

Lemma upd_ext_ok c x f : e !! c = Some x -> upd_ext c f st = Ok (tt, mkMach r (set_cpus m sc) (<[c := f x]> e) fr).
Proof. intros He. unfold upd_ext, bind, gets, deref, modify. cbn [mc_ext]. by rewrite He. Qed.

Lemma upd_ctx_ok c x f : m !! c = Some x -> on_sched (upd_ctx c f) st = Ok (tt, mkMach r (set_cpus (<[c := f x]> m) sc) e fr).
Proof. intros He. unfold on_sched, lift, upd_ctx, get_ctx, bind, gets, deref, modify. cbn [mc_sched set_cpus cpus]. by rewrite He. Qed.

Lemma get_ctx_ok c x : m !! c = Some x -> on_sched (get_ctx c) st = Ok (x, st).
Proof. intros He. unfold on_sched, lift, get_ctx, bind, gets, deref. cbn [mc_sched set_cpus cpus]. by rewrite He. Qed.

Lemma frames_ok {B} (g : M F B) b fr' : g fr = Ok (b, fr') -> on_frames g st = Ok (b, mkMach r (set_cpus m sc) e fr').
Proof. intros Eg. unfold on_frames, lift. cbn [mc_frames]. by rewrite Eg. Qed.

Lemma register_ok c x : m !! c = Some x ->
  cpu_register_context c st =
    if 32 <=? ctx_id x then Fault
    else Ok (tt, mkMach r (set_cpus m (set_cpu_table (<[ctx_id x := c]> (cpu_table sc)) sc)) e fr).
Proof. intros He. unfold cpu_register_context. rewrite (bind_ok _ _ _ _ _ (get_ctx_ok c x He)). by destruct (32 <=? ctx_id x). Qed.

Lemma upd_ext_step c x f (k : unit -> M mach A) : e !! c = Some x ->
  (y <- upd_ext c f ;; k y) st = k tt (mkMach r (set_cpus m sc) (<[c := f x]> e) fr).
Proof. intros He. by rewrite (bind_ok _ _ _ _ _ (upd_ext_ok c x f He)). Qed.

Lemma upd_ctx_step c x f (k : unit -> M mach A) : m !! c = Some x ->
  (y <- on_sched (upd_ctx c f) ;; k y) st = k tt (mkMach r (set_cpus (<[c := f x]> m) sc) e fr).
Proof. intros He. by rewrite (bind_ok _ _ _ _ _ (upd_ctx_ok c x f He)). Qed.

Lemma get_ctx_step c x (k : cpu_context -> M mach A) : m !! c = Some x ->
  (y <- on_sched (get_ctx c) ;; k y) st = k x st.
Proof. intros He. by rewrite (bind_ok _ _ _ _ _ (get_ctx_ok c x He)). Qed.

Lemma regs_step {B} (g : M regs B) b r' (k : B -> M mach A) : g r = Ok (b, r') ->
  (y <- on_regs g ;; k y) st = k b (mkMach r' (set_cpus m sc) e fr).
Proof. intros Eg. unfold bind, on_regs, lift. cbn [mc_regs]. by rewrite Eg. Qed.

Lemma frames_step {B} (g : M F B) b fr' (k : B -> M mach A) : g fr = Ok (b, fr') ->
  (y <- on_frames g ;; k y) st = k b (mkMach r (set_cpus m sc) e fr').
Proof. intros Eg. by rewrite (bind_ok _ _ _ _ _ (frames_ok g b fr' Eg)). Qed.

Lemma register_step c x (k : unit -> M mach A) : m !! c = Some x -> ctx_id x < 32 ->
  (y <- cpu_register_context c ;; k y) st =
    k tt (mkMach r (set_cpus m (set_cpu_table (<[ctx_id x := c]> (cpu_table sc)) sc)) e fr).
Proof. intros He Hi. unfold bind. by rewrite (register_ok c x He), (proj2 (Z.leb_gt _ _)). Qed.
End steps.

(** Empty queues. *)
Definition no_tasks (x : cpu_context) : Prop :=
  forall p, rd (rq_head x) p = NULL /\ rd (rq_tail x) p = NULL /\ rd (rq_count x) p = 0.

(** A context without tasks whose locks are free. *)
Record empty_ctx (x : cpu_context) : Prop := {
  em_queues : no_tasks x;
  em_sleep : sleeping_list x = NULL;
  em_locks : lock_free (rq_lock x) /\ lock_free (sleep_lock x);
}.

(** The queues, reset. *)
Definition reset_queues (l : list Z) (x : cpu_context) : cpu_context := foldl (fun x i => reset_queue i x) x l.
Definition reset_all (x : cpu_context) : cpu_context :=
  set_sleep_lock spinlock_init (set_rq_lock spinlock_init (reset_queues [0; 1; 2; 3] x)).

Lemma reset_null i x : no_tasks x -> no_tasks (reset_queue i x).
Proof.
  intros Hq p. destruct (Hq p) as (H1 & H2 & H3). unfold reset_queue.
  cbn [rq_head rq_tail rq_count set_current_quanta set_rq_count set_rq_tail set_rq_head]. rewrite !rd_insert.
  by destruct (decide (i = p)).
Qed.

Lemma resets_null l x : no_tasks x -> no_tasks (reset_queues l x) /\ sleeping_list (reset_queues l x) = sleeping_list x.
Proof.
  revert x. induction l as [|i l IH]; intros x Hx; [done|]. cbn [reset_queues foldl]. apply (IH (reset_queue i x)), reset_null, Hx.
Qed.

Lemma reset_all_empty x : empty_ctx x -> empty_ctx (reset_all x).
Proof. intros [Hq Hs Hl]. destruct (resets_null [0; 1; 2; 3] x Hq) as [Hn He]. rewrite Hs in He.
  unfold reset_all. generalize dependent (reset_queues [0; 1; 2; 3] x). intros y Hy Hz. by split.
Qed.

Lemma cpu_init_context_spec r sc m e (fr : F) ctx x y : m !! ctx = Some x -> e !! ctx = Some y ->
  msr_present r [MSR_GS_BASE; MSR_KERNEL_GS_BASE] -> 0 <= ctx < 2 ^ 64 ->
  cpu_init_context ctx (mkMach r (set_cpus m sc) e fr) =
    Ok (tt, mkMach (set_msr (<[MSR_KERNEL_GS_BASE := ctx]> (<[MSR_GS_BASE := ctx]> (r_msr r))) r)
              (set_cpus (<[ctx := reset_all x]> m) sc) (<[ctx := set_self ctx y]> e) fr).
Proof.
  intros Hm He Hp Hc. apply Forall_cons in Hp as [H1 Hp]. apply Forall_cons in Hp as [H2 _].
  unfold cpu_init_context. erewrite upd_ext_step by done. change (seqZ 0 4) with [0; 1; 2; 3]. cbn [mapM_ foldr].
  repeat (rewrite ?bind_bind; first [erewrite upd_ctx_step by done | erewrite upd_ctx_step by apply lookup_insert_eq]; rewrite ?insert_insert_eq).
  unfold ret at 1, bind at 1.
  repeat (erewrite upd_ctx_step by apply lookup_insert_eq; rewrite ?insert_insert_eq).
  erewrite regs_step by (by apply write_msr_ok).
  unfold on_regs, lift. cbn [mc_regs]. rewrite write_msr_ok; [done|cbn; by rewrite lookup_insert_ne|done].
Qed.

(** A new context does not disturb the scheduler. *)
Lemma new_context_ok s v c x tab : sched_ok s v -> cpus s !! c = None -> empty_ctx x ->
  sched_ok (set_cpus (<[c := x]> (cpus s)) (set_cpu_table tab s)) v.
Proof.
  intros [[Hch Hf Hd Hno] Hh Hl Hde Hb] Hc [Eq Es [El1 El2]].
  assert (Hrq : forall p, v (Rq c p) = []) by (intros p; apply Hno; cbn; by rewrite Hc).
  assert (Hsl : v (Sleep c) = []) by (apply Hno; cbn; by rewrite Hc).
  split; [split| |apply map_Forall_insert_2; done|done|done]; try done.
  - intros a h Ha. destruct a as [c' p|c'| |]; cbn in Ha; [| |by apply Hch..].
    + destruct (decide (c' = c)) as [->|Hne]; [|rewrite lookup_insert_ne in Ha by done; by apply (Hch (Rq c' p))].
      rewrite lookup_insert_eq in Ha. injection Ha as <-. rewrite Hrq. apply (Eq p).
    + destruct (decide (c' = c)) as [->|Hne]; [|rewrite lookup_insert_ne in Ha by done; by apply (Hch (Sleep c'))].
      rewrite lookup_insert_eq in Ha. injection Ha as <-. by rewrite Hsl.
  - intros c' y p Hy. cbn in Hy. destruct (decide (c' = c)) as [->|Hne].
    + rewrite lookup_insert_eq in Hy. injection Hy as <-. rewrite Hrq. split; apply (Eq p).
    + rewrite lookup_insert_ne in Hy by done. by apply Hf.
  - intros a Ha. destruct a as [c' p|c'| |]; cbn in Ha; try done.
    + destruct (decide (c' = c)) as [->|Hne]; [done|]. apply Hno. cbn. by rewrite lookup_insert_ne in Ha.
    + destruct (decide (c' = c)) as [->|Hne]; [done|]. apply Hno. cbn. by rewrite lookup_insert_ne in Ha.
Qed.

(** [cpu_init_bsp] makes the context of the bootstrap processor: after it
    [get_cpu], which reads through the GS base, returns the new context, though
    the segment reload in between left that base with any value; the context is
    entry 0 of [cpu_table], has its own stack of four frames, also in the TSS,
    empty queues and free locks; SSE is on; and the scheduler, to which the
    context is new, stays consistent. *)
Theorem cpu_init_bsp_correct (s : mach) gs f f1 stack f2 :
  let ctx := phys_to_virt f in let top := phys_to_virt (w64 (stack + 4 * PAGE_SIZE)) in
  fa_alloc (mc_frames s) = Ok (f, f1) -> fa_alloc_n 4 f1 = Ok (stack, f2) ->
  msr_present (mc_regs s) [MSR_GS_BASE; MSR_KERNEL_GS_BASE] -> 0 <= gs < 2 ^ 64 ->
  exists s' x, cpu_init_bsp gs s = Ok (tt, s') /\ get_cpu s' = Ok (ctx, s') /\
    cpus (mc_sched s') = <[ctx := x]> (cpus (mc_sched s)) /\ cpu_table (mc_sched s') !! 0 = Some ctx /\
    ctx_id x = 0 /\ kernel_stack x = top /\ tss_rsp0 x = top /\ empty_ctx x /\
    sse_enabled (mc_regs s) (mc_regs s') /\ mc_frames s' = f2 /\
    (forall v, sched_ok (mc_sched s) v -> cpus (mc_sched s) !! ctx = None -> sched_ok (mc_sched s') v).
Proof.
  intros ctx top E1 E2 Hp Hg. assert (Hc : 0 <= ctx < 2 ^ 64) by (unfold ctx, phys_to_virt; apply w64_range).
  destruct s as [r sc e fr]. cbn [mc_regs mc_sched mc_ext mc_frames] in *.
  replace sc with (set_cpus (cpus sc) sc) by (by destruct sc). unfold cpu_init_bsp.
  rewrite (frames_step _ _ _ _ _ _ _ _ _ E1). fold ctx.
  rewrite (bind_ok _ _ _ tt (mkMach r (set_cpus (<[ctx := zero_ctx]> (cpus sc)) sc) (<[ctx := zero_ext]> e) f1)) by done.
  erewrite upd_ext_step by apply lookup_insert_eq. erewrite upd_ctx_step by apply lookup_insert_eq. rewrite !insert_insert_eq.
  erewrite register_step; [|apply lookup_insert_eq|done]. erewrite upd_ext_step by apply lookup_insert_eq. rewrite insert_insert_eq.
  rewrite (frames_step _ _ _ _ _ _ _ _ _ E2). fold top. erewrite upd_ctx_step by apply lookup_insert_eq. rewrite insert_insert_eq.
  unfold setup_gdt. rewrite bind_bind. erewrite get_ctx_step by apply lookup_insert_eq. rewrite bind_bind.
  erewrite upd_ext_step by apply lookup_insert_eq. rewrite insert_insert_eq, bind_bind.
  erewrite upd_ctx_step by apply lookup_insert_eq. rewrite insert_insert_eq.
  inversion Hp as [|? ? Hp1 Hp2]; subst. erewrite regs_step by (by apply write_msr_ok).
  destruct (cpu_enable_sse_spec (set_msr (<[MSR_GS_BASE := gs]> (r_msr r)) r)) as (r' & Er & Em & Hsse).
  erewrite regs_step by exact Er. erewrite cpu_init_context_spec; [|apply lookup_insert_eq|apply lookup_insert_eq| |done].
  2:{ unfold msr_present. rewrite Em. cbn [r_msr set_msr]. inversion Hp2 as [|? ? Hp3 _]; subst.
      repeat (apply Forall_cons; split); [by rewrite lookup_insert_eq| |by apply Forall_nil]. by rewrite lookup_insert_ne. }
  rewrite !insert_insert_eq. eexists _, _. split; [reflexivity|].
  assert (Hem : empty_ctx (reset_all (set_tss_rsp0 top (set_kernel_stack top (set_ctx_id 0 zero_ctx))))) by (by apply reset_all_empty).
  split; [|split_and!; try done].
  - unfold get_cpu, bind. unfold on_regs, lift. cbn [mc_regs]. rewrite (read_msr_ok _ _ ctx); [|cbn; by rewrite lookup_insert_ne, lookup_insert_eq by done|done].
    unfold gets, deref. cbn [mc_ext]. by rewrite lookup_insert_eq.
  - cbn. apply lookup_insert_eq.
  - intros v Hv Hn. exact (new_context_ok (set_cpus (cpus sc) sc) v ctx _ (<[0 := ctx]> (cpu_table sc)) Hv Hn Hem).
Qed.
End context.
