(* ===== verification/Ap.v ===== *)
(** * Starting the other processors

    Models [smp_init_cpu] and [boot_ap] of [kernel/smp/smp.c] on the processor
    set-up of [Cpu], the local APIC of [Devices] and byte memory.

    - The trampoline is assembly: its bytes are in memory at
      [trampoline_start], and the processor it starts reports through
      [trampoline_ready], whose values at the successive reads are the list
      [ap_ready].
    - [msleep] puts the caller to sleep in the scheduler (see [Sched]); here each
      call is recorded with the number of APIC writes before it. *)

From S2P Require Import Prelude Lock Frames Vmm Strings Acpi Chain Sched Runqueue Tables Devices Task TaskSpec Cpu CpuSpec.

Definition TRAMPOLINE_PHYS_ADDR : Z := 0x8000.
Definition AP_CONFIG_PHYS_ADDR : Z := 0x7000.

(** [ap_config_t] *)
Definition ap_config_t : layout :=
  [("trampoline_stack", 8); ("trampoline_pml4", 8); ("trampoline_entry", 8); ("cpu_context_p", 8); ("trampoline_ready", 8)]%string.

Section ap.
Context {F : Type} `{FrameAllocator F}.

Record ap := mkAp { ap_mach : @mach F; ap_dev : dev; ap_mem : mem; ap_slept : list (Z * nat); ap_ready : list Z }.

Definition run {S A} (get : ap -> S) (set : S -> ap -> ap) (m : M S A) : M ap A := fun s =>
  match m (get s) with
  | Ok (a, x) => Ok (a, set x s)
  | Fault => Fault
  | Panic => Panic
  | Hang => Hang
  end.
Definition on_mach {A} (m : M mach A) : M ap A := run ap_mach (fun x s => mkAp x (ap_dev s) (ap_mem s) (ap_slept s) (ap_ready s)) m.
Definition on_dev {A} (m : M dev A) : M ap A := run ap_dev (fun x s => mkAp (ap_mach s) x (ap_mem s) (ap_slept s) (ap_ready s)) m.
Definition on_amem {A} (m : M mem A) : M ap A := run ap_mem (fun x s => mkAp (ap_mach s) (ap_dev s) x (ap_slept s) (ap_ready s)) m.

Definition msleep (ms : Z) : M ap unit :=
  modify (fun s => mkAp (ap_mach s) (ap_dev s) (ap_mem s) (ap_slept s ++ [(ms, length (lapic_out (ap_dev s)))]) (ap_ready s)).

(** One command, its delivery and the pause after it *)
Definition icr_command (apic_id low : Z) : M ap unit :=
  on_dev (lapic_write LAPIC_ICR_HIGH (w32 (Z.shiftl apic_id 24))) ;;;
  on_dev (lapic_write LAPIC_ICR_LOW low) ;;;
  on_dev lapic_wait_for_delivery ;;;
  msleep 1.

Definition boot_ap (apic_id vector : Z) : M ap unit :=
  icr_command apic_id (Z.lor (Z.lor ICR_INIT ICR_ASSERT) ICR_LEVEL) ;;;
  icr_command apic_id (Z.lor ICR_STARTUP vector) ;;;
  icr_command apic_id (Z.lor ICR_STARTUP vector).

(** [while (config->trampoline_ready == 0)] *)
Fixpoint wait_ready (reads : list Z) : M ap unit :=
  match reads with
  | [] => hang
  | v :: l => modify (fun s => mkAp (ap_mach s) (ap_dev s) (ap_mem s) (ap_slept s) l) ;;; if v =? 0 then wait_ready l else ret tt
  end.

(** [config->field = v] *)
Definition set_config (field : string) (v : Z) : M ap unit :=
  on_amem (store64 (phys_to_virt AP_CONFIG_PHYS_ADDR + offset_of ap_config_t field) v).

(** The linker's [trampoline_start] and the size of the trampoline, the
    physical address of the kernel's tables and the address of
    [kernel_main_ap] are arguments *)
Definition smp_init_cpu (trampoline_start trampoline_size pml4_phys kernel_main_ap lapic_id cpu_id : Z) : M ap unit :=
  on_amem (memcpy (phys_to_virt TRAMPOLINE_PHYS_ADDR) trampoline_start trampoline_size) ;;;
  f <- on_mach (on_frames fa_alloc) ;;
  let ctx := phys_to_virt f in
  on_mach (zero_context ctx) ;;;
  on_mach (on_sched (upd_ctx ctx (set_ctx_id cpu_id))) ;;;
  on_mach (cpu_register_context ctx) ;;;
  on_mach (upd_ext ctx (set_lapic_id lapic_id)) ;;;
  on_mach (upd_ext ctx (set_self ctx)) ;;;
  stack <- on_mach (on_frames (fa_alloc_n 4)) ;;
  let top := phys_to_virt (w64 (stack + 4 * 4096)) in
  on_mach (on_sched (upd_ctx ctx (set_kernel_stack top))) ;;;
  set_config "trampoline_stack" top ;;;
  set_config "trampoline_pml4" pml4_phys ;;;
  set_config "trampoline_entry" kernel_main_ap ;;;
  set_config "cpu_context_p" ctx ;;;
  set_config "trampoline_ready" 0 ;;;
  boot_ap lapic_id 0x08 ;;;
  reads <- gets ap_ready ;;
  wait_ready reads.

(** ** Symbolic execution *)

Section steps.
Context {A B : Type} (x : @mach F) (d : dev) (m : mem) (sl : list (Z * nat)) (rd : list Z).

Lemma mach_step (g : M mach B) b x' (k : B -> M ap A) : g x = Ok (b, x') ->
  (y <- on_mach g ;; k y) (mkAp x d m sl rd) = k b (mkAp x' d m sl rd).
Proof. intros E. unfold bind, on_mach, run. cbn [ap_mach]. by rewrite E. Qed.

Lemma dev_step (g : M dev B) b d' (k : B -> M ap A) : g d = Ok (b, d') ->
  (y <- on_dev g ;; k y) (mkAp x d m sl rd) = k b (mkAp x d' m sl rd).
Proof. intros E. unfold bind, on_dev, run. cbn [ap_dev]. by rewrite E. Qed.

Lemma amem_step (g : M mem B) b m' (k : B -> M ap A) : g m = Ok (b, m') ->
  (y <- on_amem g ;; k y) (mkAp x d m sl rd) = k b (mkAp x d m' sl rd).
Proof. intros E. unfold bind, on_amem, run. cbn [ap_mem]. by rewrite E. Qed.

Lemma config_step field off v (k : unit -> M ap A) : offset_of ap_config_t field = off ->
  owned m (phys_to_virt AP_CONFIG_PHYS_ADDR + off) 8 ->
  (y <- set_config field v ;; k y) (mkAp x d m sl rd) =
    k tt (mkAp x d (upd m (phys_to_virt AP_CONFIG_PHYS_ADDR + off) (le 8 v)) sl rd).
Proof.
  intros <- Ho. unfold bind, set_config, on_amem, run. cbn [ap_mem]. unfold store64. rewrite store_bytes_spec; [done|].
  by rewrite length_le.
Qed.
End steps.

(** ** The start-up sequence *)

(** The device, ready to take a command: mapped, and never busy for as long as
    the wait bears. *)
Definition icr_ready (d : dev) : Prop := lapic_base d <> NULL /\ Z.of_nat (length (icr_busy d)) < 1000000.

(** What one command writes. *)
Definition command (apic_id low : Z) : list (Z * Z) := [(LAPIC_ICR_HIGH, w32 (Z.shiftl apic_id 24)); (LAPIC_ICR_LOW, w32 low)].

Lemma busy_le l : (busy_reads l <= length l)%nat.
Proof. induction l as [|[] l IH]; simpl; lia. Qed.

Lemma icr_command_spec apic_id low x d m sl rdy : icr_ready d ->
  exists d', icr_command apic_id low (mkAp x d m sl rdy) =
      Ok (tt, mkAp x d' m (sl ++ [(1, (length (lapic_out d) + 2)%nat)]) rdy) /\
    icr_ready d' /\ lapic_out d' = lapic_out d ++ command apic_id low.
Proof.
  intros [Hb Hl]. unfold icr_command. eexists. split.
  - do 2 (erewrite dev_step by by apply lapic_write_ok).
    erewrite dev_step; [|rewrite lapic_wait_spec by done; cbn [icr_busy set_lapic];
      rewrite (proj2 (Z.eqb_neq _ _)); [done|]; pose proof (busy_le (icr_busy d)); rewrite w64_small; lia].
    unfold msleep, modify. cbn [ap_mach ap_dev ap_mem ap_slept ap_ready waited set_lapic lapic_out].
    rewrite !length_app, <-Nat.add_assoc. cbn [length Nat.add]. reflexivity.
  - split; [split; [done|]|].
    + cbn. rewrite length_drop. lia.
    + cbn. rewrite (w32_small (w32 _)) by apply w32_range. by rewrite <-app_assoc.
Qed.

(** Commands and pauses of the start-up sequence. *)
Definition start_up (apic_id vector : Z) : list (Z * Z) :=
  command apic_id 0xC500 ++ command apic_id (Z.lor 0x600 vector) ++ command apic_id (Z.lor 0x600 vector).
Definition pauses (n : nat) : list (Z * nat) := [(1, (n + 2)%nat); (1, (n + 4)%nat); (1, (n + 6)%nat)].

Lemma boot_ap_spec apic_id vector x d m sl rdy : icr_ready d ->
  exists d', boot_ap apic_id vector (mkAp x d m sl rdy) = Ok (tt, mkAp x d' m (sl ++ pauses (length (lapic_out d))) rdy) /\
    icr_ready d' /\ lapic_out d' = lapic_out d ++ start_up apic_id vector.
Proof.
  intros Hd. unfold boot_ap.
  destruct (icr_command_spec apic_id (Z.lor (Z.lor ICR_INIT ICR_ASSERT) ICR_LEVEL) x d m sl rdy Hd) as (d1 & E1 & H1 & L1).
  destruct (icr_command_spec apic_id (Z.lor ICR_STARTUP vector) x d1 m (sl ++ [(1, (length (lapic_out d) + 2)%nat)]) rdy H1) as (d2 & E2 & H2 & L2).
  destruct (icr_command_spec apic_id (Z.lor ICR_STARTUP vector) x d2 m
    ((sl ++ [(1, (length (lapic_out d) + 2)%nat)]) ++ [(1, (length (lapic_out d1) + 2)%nat)]) rdy H2) as (d3 & E3 & H3 & L3).
  exists d3. split; [|split; [done|by rewrite L3, L2, L1, <-!app_assoc]].
  rewrite (bind_ok _ _ _ _ _ E1), (bind_ok _ _ _ _ _ E2), E3. rewrite L2, L1, !length_app, <-!app_assoc, <-!Nat.add_assoc. done.
Qed.

(** [boot_ap] is the INIT-SIPI-SIPI sequence: three commands to the target,
    destination first, each delivered before the pause of a millisecond that
    follows it and so before the next: INIT (mode 5, asserted, level triggered),
    then twice START-UP with the vector that names the page of the trampoline. *)
Theorem boot_ap_correct (s : ap) apic_id vector : icr_ready (ap_dev s) -> 0 <= apic_id < 256 -> 0 <= vector < 256 ->
  let high := Z.shiftl apic_id 24 in
  exists s' low init, boot_ap apic_id vector s = Ok (tt, s') /\
    lapic_out (ap_dev s') = lapic_out (ap_dev s) ++
      [(LAPIC_ICR_HIGH, high); (LAPIC_ICR_LOW, init); (LAPIC_ICR_HIGH, high); (LAPIC_ICR_LOW, low); (LAPIC_ICR_HIGH, high); (LAPIC_ICR_LOW, low)] /\
    ap_slept s' = ap_slept s ++ pauses (length (lapic_out (ap_dev s))) /\
    icr_dest high = apic_id /\ icr_mode init = 0xC5 /\ icr_mode low = 6 /\ icr_vector low = vector /\
    ap_mach s' = ap_mach s /\ ap_mem s' = ap_mem s.
Proof.
  intros Hd Ha Hv high. destruct s as [x d m sl rdy]. destruct (boot_ap_spec apic_id vector x d m sl rdy Hd) as (d' & E & _ & L).
  destruct (icr_fields 6 vector ltac:(lia) Hv) as [F1 F2]. change (Z.shiftl 6 8) with 0x600 in F1, F2.
  assert (Hh : w32 high = high) by (apply w32_small; unfold high; rewrite Z.shiftl_mul_pow2 by lia; lia).
  eexists _, (w32 (Z.lor 0x600 vector)), 0xC500. split; [exact E|]. cbn [ap_dev ap_slept ap_mach ap_mem]. rewrite L.
  split; [unfold start_up, command; fold high; by rewrite Hh|]. split_and!; try done.
  unfold icr_dest, high. rewrite Z.shiftr_shiftl_l by lia. by rewrite Z.shiftl_0_r.
Qed.

(** ** Starting a processor *)

Lemma wait_ready_spec n v rest x d m sl rdy : v <> 0 ->
  wait_ready (replicate n 0 ++ v :: rest) (mkAp x d m sl rdy) = Ok (tt, mkAp x d m sl rest).
Proof.
  intros Hv. revert rdy. induction n as [|n IH]; intros rdy; cbn [replicate app wait_ready]; unfold bind, modify.
  - by rewrite (proj2 (Z.eqb_neq v 0)).
  - apply IH.
Qed.

Definition config_addr : Z := phys_to_virt AP_CONFIG_PHYS_ADDR.

(** The five stores fill the configuration block. *)
Lemma fill_config {A} a b c e x d m sl rdy (k : unit -> M ap A) : owned m config_addr 40 ->
  (set_config "trampoline_stack" a ;;; set_config "trampoline_pml4" b ;;; set_config "trampoline_entry" c ;;;
   set_config "cpu_context_p" e ;;; y <- set_config "trampoline_ready" 0 ;; k y) (mkAp x d m sl rdy) =
  k tt (mkAp x d (upd m config_addr (words [a; b; c; e; 0])) sl rdy).
Proof.
  intros Ho. assert (Hof : forall i m', owned m' config_addr 40 -> (i < 5)%nat -> owned m' (config_addr + 8 * Z.of_nat i) 8).
  { intros i m' Ho' Hi. replace (8 * Z.of_nat i) with (Z.of_nat (8 * i)) by lia. apply owned_offset, (owned_le _ _ _ _ Ho'). lia. }
  erewrite (config_step _ _ _ _ _ "trampoline_stack" 0); [|done|apply (Hof 0%nat); [by repeat apply owned_upd|lia]].
  erewrite (config_step _ _ _ _ _ "trampoline_pml4" 8); [|done|apply (Hof 1%nat); [by repeat apply owned_upd|lia]].
  erewrite (config_step _ _ _ _ _ "trampoline_entry" 16); [|done|apply (Hof 2%nat); [by repeat apply owned_upd|lia]].
  erewrite (config_step _ _ _ _ _ "cpu_context_p" 24); [|done|apply (Hof 3%nat); [by repeat apply owned_upd|lia]].
  erewrite (config_step _ _ _ _ _ "trampoline_ready" 32); [|done|apply (Hof 4%nat); [by repeat apply owned_upd|lia]].
  reflexivity.
Qed.

(** The new context. *)
Definition ap_ctx (cpu_id top : Z) : cpu_context := set_kernel_stack top (set_ctx_id cpu_id zero_ctx).

Lemma ap_ctx_empty cpu_id top : empty_ctx (ap_ctx cpu_id top).
Proof. by split. Qed.

(** C36: [smp_init_cpu] prepares and starts a processor. When the trampoline
    reports ready, its code is at its low address, the configuration block
    behind the direct map holds the top of the new stack, the page tables, the
    entry point, the context and a cleared ready flag, the context is in
    [cpu_table] under the processor's number, empty and with its own id, and the
    start-up sequence has been sent to page 8, where the code is. The scheduler
    stays consistent. The number of the 33rd processor is outside the table. *)
Theorem smp_init_cpu_correct (s : ap) start code pml4 entry lapic_id cpu_id f f1 stack f2 n v rest :
  let ctx := phys_to_virt f in let top := phys_to_virt (w64 (stack + 4 * 4096)) in
  let tramp := phys_to_virt TRAMPOLINE_PHYS_ADDR in
  fa_alloc (mc_frames (ap_mach s)) = Ok (f, f1) -> fa_alloc_n 4 f1 = Ok (stack, f2) ->
  cells (ap_mem s) start code -> owned (ap_mem s) tramp (length code) ->
  tramp <= start \/ start + Z.of_nat (length code) <= tramp -> owned (ap_mem s) config_addr 40 ->
  icr_ready (ap_dev s) -> ap_ready s = replicate n 0 ++ v :: rest -> v <> 0 ->
  let go := smp_init_cpu start (Z.of_nat (length code)) pml4 entry lapic_id cpu_id s in
  (32 <= cpu_id -> go = Fault) /\
  (cpu_id < 32 -> exists s', go = Ok (tt, s') /\
     cells (ap_mem s') tramp code /\ cells (ap_mem s') config_addr (words [top; pml4; entry; ctx; 0]) /\
     cpu_table (mc_sched (ap_mach s')) !! cpu_id = Some ctx /\
     cpus (mc_sched (ap_mach s')) = <[ctx := ap_ctx cpu_id top]> (cpus (mc_sched (ap_mach s))) /\
     mc_ext (ap_mach s') !! ctx = Some (mkExt ctx lapic_id 0 0 None) /\
     lapic_out (ap_dev s') = lapic_out (ap_dev s) ++ start_up lapic_id (TRAMPOLINE_PHYS_ADDR / 4096) /\
     (forall q, sched_ok (mc_sched (ap_mach s)) q -> cpus (mc_sched (ap_mach s)) !! ctx = None -> sched_ok (mc_sched (ap_mach s')) q)).
Proof.
  intros ctx top tramp E1 E2 Hc Ho Hd Hoc Hi Hr Hv go. destruct s as [[r sc e fr] d m sl rdy].
  cbn [mc_frames mc_regs mc_sched mc_ext ap_mach ap_dev ap_mem ap_ready] in *. subst rdy.
  set (m1 := upd m tramp code). assert (Em : memcpy tramp start (Z.of_nat (length code)) m = Ok (tramp, m1)) by (by apply memcpy_spec).
  assert (exists c0 sc0, sc = set_cpus c0 sc0) as (c0 & sc0 & ->) by (exists (cpus sc), sc; by destruct sc).
  subst go. unfold smp_init_cpu.
  rewrite (amem_step _ _ _ _ _ _ _ _ _ Em), (mach_step _ _ _ _ _ _ _ _ _ (frames_ok _ _ _ _ _ _ _ _ E1)). fold ctx.
  rewrite (mach_step _ _ _ _ _ _ tt (mkMach r (set_cpus (<[ctx := zero_ctx]> c0) sc0) (<[ctx := zero_ext]> e) f1)) by done.
  erewrite mach_step by (apply upd_ctx_ok, lookup_insert_eq). rewrite insert_insert_eq. split; intros Hid.
  { unfold bind, on_mach, run. cbn [ap_mach]. rewrite (register_ok _ _ _ _ _ _ _ (lookup_insert_eq _ _ _)).
    by rewrite (proj2 (Z.leb_le _ _)). }
  erewrite mach_step by (rewrite (register_ok _ _ _ _ _ _ _ (lookup_insert_eq _ _ _)), (proj2 (Z.leb_gt _ _)) by done; reflexivity).
  do 2 (erewrite mach_step by (apply upd_ext_ok, lookup_insert_eq); rewrite insert_insert_eq).
  rewrite (mach_step _ _ _ _ _ _ _ _ _ (frames_ok _ _ _ _ _ _ _ _ E2)). fold top.
  erewrite mach_step by (apply upd_ctx_ok, lookup_insert_eq). rewrite insert_insert_eq.
  rewrite fill_config by (by apply owned_upd).
  edestruct (boot_ap_spec lapic_id 8) as (d' & Eb & _ & Lb); [exact Hi|]. rewrite (bind_ok _ _ _ _ _ Eb).
  unfold bind, gets. cbn [ap_ready]. rewrite wait_ready_spec by done. eexists. split; [reflexivity|].
  cbn [ap_mem ap_mach ap_dev mc_sched mc_ext set_cpus set_cpu_table cpus cpu_table ctx_id set_ctx_id]. split_and!.
  - apply cells_upd; [apply upd_cells|]. right. rewrite length_words. vm_compute. done.
  - apply upd_cells.
  - apply lookup_insert_eq.
  - done.
  - apply lookup_insert_eq.
  - exact Lb.
  - intros q Hq Hn. exact (new_context_ok (set_cpus c0 sc0) q ctx _ (<[cpu_id := ctx]> (cpu_table sc0)) Hq Hn (ap_ctx_empty cpu_id top)).
Qed.
End ap.
