(* ===== verification/ApDemo.v ===== *)
(** * Processor set-up and start: a run

    A frame allocator that counts, the bootstrap processor and one more. *)

From S2P Require Import Prelude Lock Frames Vmm Strings Acpi Chain Sched Runqueue SchedDemo Tables Devices Task TaskSpec Cpu CpuSpec Ap.

(** The next frame, beside the registers. *)
Definition counter : Type := hart * Z.

#[global] Instance counter_frames : FrameAllocator counter := {
  fa_hart := Lens fst (fun h f => (h, f.2));
  fa_alloc := fun f => Ok (f.2 * PAGE_SIZE, (f.1, f.2 + 1));
  fa_alloc_n n := fun f => Ok (f.2 * PAGE_SIZE, (f.1, f.2 + n));
  fa_free a := ret tt;
  fa_move := ret tt;
  fa_ok f := True;
  fa_used f x := x <? f.2;
  fa_frames f := 2 ^ 20;
}.

Definition demo_regs : regs :=
  mkRegs 0x80050033 0x1000 0x20
    (list_to_map [(MSR_EFER, 0x500); (MSR_STAR, 0); (MSR_LSTAR, 0); (MSR_FMASK, 0); (MSR_GS_BASE, 0); (MSR_KERNEL_GS_BASE, 0)]) 0.
Definition demo_mach : @mach counter := mkMach demo_regs demo ∅ (s_hart demo, 0x300).

Lemma cpu_init_syscalls_correct_witness :
  exists r', cpu_init_syscalls 0xFFFFFFFF80001000 demo_regs = Ok (tt, r') /\ r_msr r' !! MSR_LSTAR = Some 0xFFFFFFFF80001000.
Proof.
  destruct (cpu_init_syscalls_correct demo_regs 0xFFFFFFFF80001000 0x500 0 0 0) as (r' & star & efer & E & El & _);
    [repeat (apply Forall_cons; split); try (vm_compute; by eexists); by apply Forall_nil|vm_compute; reflexivity|done|done|].
  exists r'. exact (conj E El).
Defined.

Lemma cpu_init_bsp_correct_witness :
  exists s', cpu_init_bsp 0 demo_mach = Ok (tt, s') /\ get_cpu s' = Ok (phys_to_virt 0x300000, s').
Proof.
  destruct (cpu_init_bsp_correct demo_mach 0 0x300000 (s_hart demo, 0x301) 0x301000 (s_hart demo, 0x305))
    as (s' & x & E & Eg & _); [reflexivity|reflexivity| |done|].
  { repeat (apply Forall_cons; split); try (vm_compute; by eexists). by apply Forall_nil. }
  exists s'. exact (conj E Eg).
Defined.

(** Three bytes of code at 0x100, and the low pages behind the direct map. *)
Definition ap_bytes : mem :=
  bytes_at 0x100 [250; 252; 15] ∪ bytes_at config_addr (replicate 40 255) ∪ bytes_at (phys_to_virt TRAMPOLINE_PHYS_ADDR) (replicate 3 0).
Definition demo_ap : @ap counter := mkAp demo_mach (dev_demo 0 [true; false; false; true]) ap_bytes [] [0; 0; 1].

Lemma demo_icr_ready : icr_ready (ap_dev demo_ap).
Proof. split; [done|]. simpl. lia. Qed.

Lemma boot_ap_correct_witness : exists s', boot_ap 3 8 demo_ap = Ok (tt, s') /\ ap_slept s' = pauses 0.
Proof.
  destruct (boot_ap_correct demo_ap 3 8 demo_icr_ready ltac:(lia) ltac:(lia)) as (s' & low & init & E & _ & Es & _).
  exists s'. exact (conj E Es).
Defined.

Lemma smp_init_cpu_correct_witness :
  exists s', smp_init_cpu 0x100 3 0x1000 0xFFFFFFFF80002000 3 1 demo_ap = Ok (tt, s') /\
    cells (ap_mem s') (phys_to_virt TRAMPOLINE_PHYS_ADDR) [250; 252; 15].
Proof.
  destruct (smp_init_cpu_correct demo_ap 0x100 [250; 252; 15] 0x1000 0xFFFFFFFF80002000 3 1 0x300000 (s_hart demo, 0x301) 0x301000
    (s_hart demo, 0x305) 2 1 []) as [_ Hs]; [reflexivity|reflexivity| | |right; by_decide| |apply demo_icr_ready|reflexivity|done|].
  { apply cells_decide. vm_compute. reflexivity. }
  { apply owned_decide. vm_compute. reflexivity. }
  { apply owned_decide. vm_compute. reflexivity. }
  destruct (Hs ltac:(lia)) as (s' & E & Hc & _). exists s'. exact (conj E Hc).
Defined.
