(* ===== verification/Crash.v ===== *)
(** * Panics

    Models [kernel/arch/x86_64/panic.c]: what [panic] and [kpanic] do before
    they halt the processor for ever. The endless [hlt] itself is the outcome
    [Panic] of the other files.

    - [crash] puts the processor ([Cpu]), the local APIC ([Devices]) and the
      serial port with the log ([Serial]) together.
    - A string literal is the list of its characters; [raw_str] prints it as
      [kprint_raw] prints the same string in memory ([raw_str_kprint]). *)

From S2P Require Import Prelude Lock Frames Vmm Sched Strings Printf Ring Serial Devices Cpu CpuSpec Ap ApDemo.

(** ** Text *)

Definition str (s : string) : list Z := (fun c => Z.of_N (Ascii.N_of_ascii c)) <$> String.list_ascii_of_string s.
Definition nl : list Z := [10].

Definition putc_raw (c : Z) : M serial unit := when (c =? 10) (write_serial 13) ;;; write_serial c.
Definition raw_str (l : list Z) : M serial unit := mapM_ putc_raw l.

(** The same for [kprint], under the lock of the log *)
Definition log_str (l : list Z) : M serial unit :=
  critical kprint_lock (mapM_ (fun c => when (c =? 10) (log_putc 13) ;;; log_putc c) l).

(** ** The routines *)

Section crash.
Context {F : Type} `{FrameAllocator F}.

Record crash := mkCrash { c_mach : @mach F; c_dev : dev; c_serial : serial }.

Definition on_machine {A} (m : M mach A) : M crash A := fun s =>
  match m (c_mach s) with
  | Ok (a, x) => Ok (a, mkCrash x (c_dev s) (c_serial s))
  | Fault => Fault | Panic => Panic | Hang => Hang
  end.
Definition on_apic {A} (m : M dev A) : M crash A := fun s =>
  match m (c_dev s) with
  | Ok (a, x) => Ok (a, mkCrash (c_mach s) x (c_serial s))
  | Fault => Fault | Panic => Panic | Hang => Hang
  end.
Definition on_port {A} (m : M serial A) : M crash A := fun s =>
  match m (c_serial s) with
  | Ok (a, x) => Ok (a, mkCrash (c_mach s) (c_dev s) x)
  | Fault => Fault | Panic => Panic | Hang => Hang
  end.

Definition rule : list Z := str "########################################".

(** [panic(message)] up to the endless loop *)
Definition panic_report (message : Z) : M crash unit :=
  on_port (_ <- spin_irq_save ;; ret tt) ;;;
  on_apic smp_halt_others ;;;
  on_port (raw_str (nl ++ nl ++ rule ++ nl)) ;;;
  on_port (raw_str (str "###           KERNEL PANIC           ###" ++ nl)) ;;;
  on_port (raw_str (rule ++ nl)) ;;;
  on_port (raw_str (str "CPU ID: ")) ;;;
  cpu <- on_machine get_cpu ;;
  x <- on_machine (Cpu.on_sched (get_ctx cpu)) ;;
  on_port (kprint_hex_raw (ctx_id x)) ;;;
  on_port (raw_str (nl ++ str "REASON: ")) ;;;
  on_port (kprint_raw message) ;;;
  on_port (raw_str (nl ++ nl ++ str "System halted permanently." ++ nl)) ;;;
  on_port (raw_str (str "GS_BASE: ")) ;;;
  gs <- on_machine (on_regs (read_msr MSR_GS_BASE)) ;;
  on_port (kprint_hex_raw gs) ;;;
  on_port (raw_str (str "KERNEL_GS_BASE: ")) ;;;
  kgs <- on_machine (on_regs (read_msr MSR_KERNEL_GS_BASE)) ;;
  on_port (kprint_hex_raw kgs).
End crash.

(** [kpanic(message)] up to the endless loop *)
Definition kpanic_report (message : Z) : M serial unit :=
  log_str (nl ++ str "!!! KERNEL PANIC !!!" ++ nl) ;;;
  kprint message ;;;
  log_str (nl ++ str "System halted.") ;;;
  _ <- spin_irq_save ;; ret tt.

(** ** The unbuffered writers *)

(** How many times the line status reports an empty transmitter. *)
Fixpoint chances (l : list Z) : nat :=
  match l with
  | [] => O
  | b :: l => if Z.land b 0x20 =? 0 then chances l else S (chances l)
  end.

(** [s'] is [s] after the characters [t] went out of the port; [k] more can go. *)
Record wrote (t : list Z) (k : nat) (s s' : serial) : Prop := {
  wr_port : port_writes s' = port_writes s ++ ((COM1,.) <$> t);
  wr_rest : (k <= chances (line_status s'))%nat;
  wr_same : set_device [] [] s' = set_device [] [] s;
}.

Lemma wrote_nil k s : (k <= chances (line_status s))%nat -> wrote [] k s s.
Proof. intros Hk. split; [by rewrite app_nil_r|done|done]. Qed.

Lemma wrote_trans t1 t2 k1 k2 s1 s2 s3 : wrote t1 k1 s1 s2 -> wrote t2 k2 s2 s3 -> wrote (t1 ++ t2) k2 s1 s3.
Proof. intros [P1 _ S1] [P2 R2 S2]. split; [by rewrite P2, P1, fmap_app, app_assoc|done|congruence]. Qed.

Lemma wrote_mem t k s s' : wrote t k s s' -> se_mem s' = se_mem s.
Proof. intros [_ _ E]. apply (f_equal se_mem) in E. exact E. Qed.

(** What a routine that prints [t] needs and does, whoever holds the lock of
    the log. *)
Definition prints (m : M serial unit) (t : list Z) (P : mem -> Prop) : Prop :=
  forall k s, P (se_mem s) -> (length t + k <= chances (line_status s))%nat -> exists s', m s = Ok (tt, s') /\ wrote t k s s'.

Lemma prints_seq m1 m2 t1 t2 P : prints m1 t1 P -> prints m2 t2 P -> prints (m1 ;;; m2) (t1 ++ t2) P.
Proof.
  intros H1 H2 k s Hp Hk. rewrite length_app in Hk. destruct (H1 (length t2 + k)%nat s Hp) as (s1 & E1 & W1); [lia|].
  destruct (H2 k s1) as (s2 & E2 & W2); [by rewrite (wrote_mem _ _ _ _ W1)|apply W1|]. exists s2. rewrite (bind_ok _ _ _ _ _ E1).
  split; [done|]. by apply (wrote_trans _ _ (length t2 + k) _ _ s1).
Qed.

Lemma wait_transmit_run fuel k s : (length (line_status s) < fuel)%nat -> (S k <= chances (line_status s))%nat ->
  exists s', wait_transmit fuel s = Ok (tt, s') /\ wrote [] k s s'.
Proof.
  revert s. induction fuel as [|fuel IH]; intros s Hf Hk; [lia|]. cbn [wait_transmit]. destruct (line_status s) as [|b l] eqn:El; simpl in Hk, Hf; [lia|].
  set (s1 := set_device l (port_writes s) s).
  assert (is_transmit_empty s = Ok (Z.land b 0x20, s1)) as Ei by (unfold is_transmit_empty, Serial.inb_status, bind, gets; by rewrite El).
  rewrite (bind_ok _ _ _ _ _ Ei). destruct (Z.land b 0x20 =? 0).
  - destruct (IH s1) as (s' & E & [P R Sm]); [simpl; lia|done|]. exists s'. split; [done|]. by split.
  - exists s1. split; [done|]. split; [by rewrite app_nil_r|simpl; lia|done].
Qed.

Lemma write_serial_prints c P : prints (write_serial c) [c] P.
Proof.
  intros k s _ Hk. unfold write_serial. rewrite (bind_ok _ _ _ _ _ eq_refl).
  destruct (wait_transmit_run (S (length (line_status s))) k s ltac:(lia) Hk) as (s1 & E1 & [P1 R1 S1]). rewrite (bind_ok _ _ _ _ _ E1).
  eexists. split; [done|]. rewrite app_nil_r in P1. split; [cbn; by rewrite P1|done|done].
Qed.

Lemma crlf_cons c l : crlf (c :: l) = (if c =? 10 then [13] else []) ++ [c] ++ crlf l.
Proof. unfold crlf. cbn [mbind list_bind]. by destruct (Z.eqb_spec c 10) as [->|]. Qed.

Lemma when_prints b m t P : prints m t P -> prints (when b m) (if b then t else []) P.
Proof. intros Hm. destruct b; [done|]. intros k s _ Hk. exists s. split; [done|by apply wrote_nil]. Qed.

Lemma raw_str_prints l P : prints (raw_str l) (crlf l) P.
Proof.
  induction l as [|c l IH]; [intros k s _ Hk; exists s; split; [done|by apply wrote_nil]|]. rewrite crlf_cons, app_assoc.
  apply prints_seq; [|done]. apply prints_seq; [|by apply write_serial_prints]. by apply (when_prints _ _ [13]), write_serial_prints.
Qed.

Lemma hex_loop_prints n value P : prints (hex_loop write_serial n value) (nibble value <$> reverse (seq 0 n)) P.
Proof.
  induction n as [|n IH]; [intros k s _ Hk; exists s; split; [done|by apply wrote_nil]|]. cbn [hex_loop].
  change 0xF with (Z.ones 4). rewrite Z.land_ones, Z.shiftr_div_pow2, (Z.mul_comm (Z.of_nat n)) by lia.
  destruct (lookup_lt_is_Some_2 hex_chars (Z.to_nat ((value / 2 ^ (4 * Z.of_nat n)) mod 2 ^ 4))) as [c Hc].
  { pose proof (Z.mod_pos_bound (value / 2 ^ (4 * Z.of_nat n)) (2 ^ 4) ltac:(lia)). change (length hex_chars) with 16%nat. lia. }
  assert (nibble value n = c) as Hn by (unfold nibble; by rewrite Hc). rewrite seq_S, reverse_app, fmap_app.
  intros k s Hp Hk. unfold deref. rewrite Hc, (bind_ok _ _ _ _ _ eq_refl), <-Hn.
  exact (prints_seq _ _ [nibble value n] _ P (write_serial_prints _ _) IH k s Hp Hk).
Qed.

(** ["0x"] and the sixteen digits. *)
Definition hex_text (v : Z) : list Z := [48; 120] ++ hex16 v.

Lemma kprint_hex_raw_prints v P : prints (kprint_hex_raw v) (hex_text v) P.
Proof.
  apply (prints_seq _ _ [48] (120 :: hex16 v)); [apply write_serial_prints|].
  apply (prints_seq _ _ [120] (hex16 v)); [apply write_serial_prints|]. apply (hex_loop_prints 16).
Qed.

Lemma raw_loop_prints l fuel p : (length l < fuel)%nat -> prints (print_loop write_serial fuel p) (crlf l) (fun m => cstr m p l).
Proof.
  revert fuel p. induction l as [|c l IH]; intros [|fuel] p Hf; simpl in Hf; try lia; intros k s [Hc Hn] Hk; cbn [app print_loop] in *;
    apply cells_cons in Hc as [H0 Hc]; rewrite (bind_ok _ _ _ _ _ (on_load _ _ _ H0)).
  { exists s. split; [done|by apply wrote_nil]. }
  apply Forall_cons in Hn as [Hc0 Hn]. destruct (Z.eqb_spec c 0); [lia|]. rewrite crlf_cons in *.
  assert (prints (when (c =? 10) (write_serial 13) ;;; write_serial c ;;; print_loop write_serial fuel (p + 1))
    ((if c =? 10 then [13] else []) ++ [c] ++ crlf l) (fun m => cstr m (p + 1) l)) as Hall.
  { apply prints_seq; [by apply (when_prints _ _ [13]), write_serial_prints|]. apply prints_seq; [apply write_serial_prints|apply IH; lia]. }
  apply Hall; [by split|done].
Qed.

Lemma kprint_raw_prints p l : p <> NULL -> prints (kprint_raw p) (crlf l) (fun m => cstr m p l).
Proof.
  intros Hp k s Hs Hk. unfold kprint_raw. rewrite (proj2 (Z.eqb_neq _ _)) by done.
  assert (on_mem scan_fuel s = Ok (S (size (se_mem s)), s)) as E by (by destruct s). rewrite (bind_ok _ _ _ _ _ E).
  apply (raw_loop_prints l); [by eapply cstr_fuel|done|done].
Qed.

(** A literal prints as the same string in memory does. *)
Lemma write_serial_mem c s s' : write_serial c s = Ok (tt, s') -> se_mem s' = se_mem s.
Proof.
  intros (n & s0 & [= <- <-] & ([] & s1 & E1 & [= <-])%bind_inv)%bind_inv. change (se_mem s1 = se_mem s).
  revert E1. generalize (S (length (line_status s))). intros fuel. revert s. induction fuel as [|fuel IH]; intros s; cbn [wait_transmit]; [done|].
  intros (b & s2 & E2 & E3)%bind_inv. assert (se_mem s2 = se_mem s) as Em.
  { unfold is_transmit_empty, Serial.inb_status, bind, gets in E2. destruct (line_status s); by injection E2 as <- <-. }
  destruct (b =? 0); [rewrite <-Em; by apply IH|by injection E3 as <-].
Qed.

Lemma raw_str_loop l fuel p s : cstr (se_mem s) p l -> (length l < fuel)%nat -> print_loop write_serial fuel p s = raw_str l s.
Proof.
  revert fuel p s. induction l as [|c l IH]; intros [|fuel] p s [Hc Hn] Hf; simpl in Hf; try lia; cbn [app print_loop raw_str mapM_] in *;
    apply cells_cons in Hc as [H0 Hc]; rewrite (bind_ok _ _ _ _ _ (on_load _ _ _ H0)); [done|].
  apply Forall_cons in Hn as [Hc0 Hn]. destruct (Z.eqb_spec c 0); [lia|]. unfold putc_raw. rewrite !bind_bind.
  unfold bind at 1 3. destruct (when (c =? 10) (write_serial 13) s) as [[[] s1]| | |] eqn:E1; try done.
  assert (se_mem s1 = se_mem s) as M1 by (destruct (c =? 10); cbn [when] in E1; [by apply (write_serial_mem 13)|by injection E1 as <-]).
  unfold bind at 1 2. destruct (write_serial c s1) as [[[] s2]| | |] eqn:E2; try done. apply IH; [|lia].
  rewrite (write_serial_mem _ _ _ E2), M1. by split.
Qed.

Lemma raw_str_kprint p l s : p <> NULL -> cstr (se_mem s) p l -> kprint_raw p s = raw_str l s.
Proof.
  intros Hp Hs. unfold kprint_raw. rewrite (proj2 (Z.eqb_neq _ _)) by done.
  assert (on_mem scan_fuel s = Ok (S (size (se_mem s)), s)) as E by (by destruct s). rewrite (bind_ok _ _ _ _ _ E).
  apply raw_str_loop; [done|by eapply cstr_fuel].
Qed.

(** ** What a panic shows *)

Section report.
Context {F : Type} `{FrameAllocator F}.

(** The characters [panic] sends, before newlines are expanded. *)
Definition panic_text (id gs kgs : Z) (msg : list Z) : list Z :=
  crlf (nl ++ nl ++ rule ++ nl) ++ crlf (str "###           KERNEL PANIC           ###" ++ nl) ++ crlf (rule ++ nl) ++ crlf (str "CPU ID: ") ++
  hex_text id ++ crlf (nl ++ str "REASON: ") ++ crlf msg ++ crlf (nl ++ nl ++ str "System halted permanently." ++ nl) ++
  crlf (str "GS_BASE: ") ++ hex_text gs ++ crlf (str "KERNEL_GS_BASE: ") ++ hex_text kgs.

(** [m] sends [t] and reads the processor [x] without changing it. *)
Definition says (x : @mach F) (P : mem -> Prop) (m : M crash unit) (t : list Z) : Prop :=
  forall k d s, P (se_mem s) -> (length t + k <= chances (line_status s))%nat ->
  exists s', m (mkCrash x d s) = Ok (tt, mkCrash x d s') /\ wrote t k s s'.

Lemma says_port x P (m : M serial unit) t : prints m t P -> says x P (on_port m) t.
Proof. intros Hm k d s Hp Hk. destruct (Hm k s Hp Hk) as (s' & E & W). exists s'. split; [|done]. unfold on_port. cbn. by rewrite E. Qed.

Lemma says_seq x P m1 m2 t1 t2 : says x P m1 t1 -> says x P m2 t2 -> says x P (m1 ;;; m2) (t1 ++ t2).
Proof.
  intros H1 H2 k d s Hp Hk. rewrite length_app in Hk. destruct (H1 (length t2 + k)%nat d s Hp) as (s1 & E1 & W1); [lia|].
  destruct (H2 k d s1) as (s2 & E2 & W2); [by rewrite (wrote_mem _ _ _ _ W1)|apply W1|]. exists s2. rewrite (bind_ok _ _ _ _ _ E1).
  split; [done|]. by apply (wrote_trans _ _ (length t2 + k) _ _ s1).
Qed.

Lemma says_read {B} x P (m : M mach B) b (k : B -> M crash unit) t : m x = Ok (b, x) -> says x P (k b) t -> says x P (bind (on_machine m) k) t.
Proof.
  intros E Hk n d s Hp Hn. destruct (Hk n d s Hp Hn) as (s' & E' & W). exists s'. split; [|done].
  rewrite (bind_ok _ _ _ b (mkCrash x d s)); [done|]. unfold on_machine. cbn. by rewrite E.
Qed.

(** The interrupts off, the same port. *)
Definition masked_serial (s : serial) : serial :=
  lset hart_of (set_rflags (Z.land (rflags (se_hart s)) (Z.lnot 0x200)) (se_hart s)) s.

(** [panic] tells the other processors to halt and sends the whole report over
    the port, also when the lock of the log is taken, by itself or by a
    processor that it has just halted: nothing in the report waits for a lock.
    It shows the processor's number, the message and the two GS bases. The log is
    left as it is. *)
Theorem panic_report_correct (s : @crash F) message msg ctx c x gs kgs :
  let r := mc_regs (c_mach s) in
  let t := panic_text (ctx_id x) gs kgs msg in
  lapic_base (c_dev s) <> NULL -> Z.of_nat (busy_reads (icr_busy (c_dev s))) < 1000000 ->
  r_msr r !! MSR_GS_BASE = Some gs -> 0 <= gs < 2 ^ 64 -> r_msr r !! MSR_KERNEL_GS_BASE = Some kgs -> 0 <= kgs < 2 ^ 64 ->
  mc_ext (c_mach s) !! gs = Some ctx -> x_self ctx = c -> cpus (mc_sched (c_mach s)) !! c = Some x ->
  message <> NULL -> cstr (se_mem (c_serial s)) message msg -> (length t <= chances (line_status (c_serial s)))%nat ->
  exists s', panic_report message s = Ok (tt, s') /\ c_mach s' = c_mach s /\
    port_writes (c_serial s') = port_writes (c_serial s) ++ ((COM1,.) <$> t) /\
    lapic_out (c_dev s') = lapic_out (c_dev s) ++ [(LAPIC_ICR_LOW, 0xC40FE)] /\
    logged (c_serial s') = logged (c_serial s) /\ kprint_lock_ (c_serial s') = kprint_lock_ (c_serial s).
Proof.
  intros r t Hb Hbusy Hgs Rgs Hkgs Rkgs Hext Hself Hctx Hm Hmsg Hlen. destruct s as [mc d se]. cbn [c_mach c_dev c_serial] in *.
  unfold panic_report. rewrite (bind_ok _ _ _ tt (mkCrash mc d (masked_serial se))) by done.
  assert (smp_halt_others d = Ok (tt, set_lapic (<[LAPIC_ICR_LOW := 0xC40FE]> (lapic_regs (waited d))) (icr_busy (waited d)) (lapic_out d ++ [(LAPIC_ICR_LOW, 0xC40FE)]) (waited d))) as Eh.
  { unfold smp_halt_others, lapic_broadcast_ipi. rewrite (bind_ok _ _ _ tt (waited d)); [by rewrite lapic_write_ok|].
    rewrite lapic_wait_spec by done. rewrite w64_small by lia. by rewrite (proj2 (Z.eqb_neq _ _)) by lia. }
  set (d' := set_lapic _ _ _ _) in Eh. rewrite (bind_ok _ _ _ tt (mkCrash mc d' (masked_serial se))) by (unfold on_apic; cbn; by rewrite Eh).
  assert (get_cpu mc = Ok (c, mc)) as Ec.
  { unfold get_cpu, bind, on_regs, lift. rewrite (read_msr_ok _ _ gs) by done. unfold gets, deref. cbn. rewrite Hext. unfold ret. rewrite Hself. by destruct mc. }
  assert (Cpu.on_sched (get_ctx c) mc = Ok (x, mc)) as Ex.
  { unfold Cpu.on_sched, lift, get_ctx, bind, gets, deref. rewrite Hctx. by destruct mc. }
  assert (forall m v, r_msr r !! m = Some v -> 0 <= v < 2 ^ 64 -> on_regs (read_msr m) mc = Ok (v, mc)) as Er.
  { intros m v Hv Rv. unfold on_regs, lift. rewrite (read_msr_ok _ _ v) by done. by destruct mc. }
  match goal with |- exists s', ?m _ = _ /\ _ => assert (says mc (fun me => cstr me message msg) m t) as Hsay end.
  { repeat (first [ apply says_seq; [apply says_port|] | eapply says_read; [first [exact Ec|exact Ex|by apply Er]|] | apply says_port ];
      first [apply raw_str_prints|apply kprint_hex_raw_prints|by apply kprint_raw_prints|idtac]). }
  destruct (Hsay 0%nat d' (masked_serial se)) as (s' & E & [W1 _ W3]); [done|rewrite Nat.add_0_r; exact Hlen|]. rewrite E. exists (mkCrash mc d' s'). cbn [c_mach c_dev c_serial].
  split_and!; [done|done|done|done| |]; [apply (f_equal logged) in W3|apply (f_equal kprint_lock_) in W3]; exact W3.
Qed.
End report.

(** ** What kpanic shows *)

Lemma log_str_spec s l : hart_ok (se_hart s) -> lock_free (kprint_lock_ s) -> log_ok s ->
  exists s', log_str l s = Ok (tt, s') /\ log_ok s' /\ logged s' = recent (logged s ++ crlf l) /\
    se_mem s' = se_mem s /\ se_hart s' = se_hart s /\ lock_free (kprint_lock_ s') /\
    line_status s' = line_status s /\ port_writes s' = port_writes s.
Proof.
  intros Hh Hl Hs. apply critical_appended; [done..|]. clear Hh Hl Hs. intros s1 _. revert s1.
  induction l as [|c l IH]; intros s1 Hs1; cbn [mapM_]; [exists s1; split; [done|by apply appended_nil]|]. rewrite crlf_cons, app_assoc, bind_bind.
  assert (exists s2, when (c =? 10) (log_putc 13) s1 = Ok (tt, s2) /\ appended (if c =? 10 then [13] else []) s1 s2) as (s2 & E1 & A1).
  { destruct (c =? 10); [by apply log_putc_spec|]. exists s1. split; [done|by apply appended_nil]. }
  destruct (log_putc_spec s2 c (proj1 A1)) as (s3 & E2 & A2). pose proof (appended_trans _ _ _ _ _ A1 A2) as A12.
  destruct (IH s3 (proj1 A12)) as (s4 & E3 & A3). exists s4. rewrite (bind_ok _ _ _ _ _ E1), (bind_ok _ _ _ _ _ E2), E3.
  split; [done|]. by apply (appended_trans _ _ _ s3).
Qed.

(** The message [kpanic] is called for never leaves the machine by itself: it is
    put in the log, nothing is sent, and the processor stops with interrupts off
    without flushing the log. When the lock of the log is taken, as in a fault
    inside a logging routine, it does not get that far: it waits for the lock for
    ever. *)
Theorem kpanic_sends_nothing s message msg :
  hart_ok (se_hart s) -> log_ok s -> message <> NULL -> cstr (se_mem s) message msg ->
  (lock_free (kprint_lock_ s) ->
   exists s', kpanic_report message s = Ok (tt, s') /\ port_writes s' = port_writes s /\
     logged s' = recent (logged s ++ crlf (nl ++ str "!!! KERNEL PANIC !!!" ++ nl) ++ crlf msg ++ crlf (nl ++ str "System halted.")) /\
     Z.testbit (rflags (se_hart s')) 9 = false) /\
  (g_lock_enabled (se_hart s) = true -> ~ lock_free (kprint_lock_ s) -> kpanic_report message s = Hang).
Proof.
  intros Hh Hs Hm Hc. split.
  - intros Hl. destruct (log_str_spec s (nl ++ str "!!! KERNEL PANIC !!!" ++ nl) Hh Hl Hs) as (s1 & E1 & Hs1 & L1 & M1 & H1 & K1 & _ & P1).
    destruct (kprint_spec s1 message msg) as (s2 & E2 & Hs2 & L2 & M2 & H2 & K2 & _ & P2); [by rewrite H1|done|done|done|by rewrite M1|].
    destruct (log_str_spec s2 (nl ++ str "System halted.")) as (s3 & E3 & Hs3 & L3 & M3 & H3 & K3 & _ & P3); [by rewrite H2, H1|done|done|].
    exists (lset hart_of (set_rflags (Z.land (rflags (se_hart s3)) (Z.lnot 0x200)) (se_hart s3)) s3). split_and!.
    + unfold kpanic_report. rewrite (bind_ok _ _ _ _ _ E1), (bind_ok _ _ _ _ _ E2), (bind_ok _ _ _ _ _ E3). done.
    + cbn. congruence.
    + change (logged s3 = recent (logged s ++ crlf (nl ++ str "!!! KERNEL PANIC !!!" ++ nl) ++ crlf msg ++ crlf (nl ++ str "System halted."))).
      rewrite L3, L2, recent_app, L1, <-app_assoc, recent_app. by rewrite <-!app_assoc.
    + cbn [se_hart lset hart_of serial_hart rflags set_rflags]. rewrite Z.land_spec, Z.lnot_spec by lia. change 0x200 with (Z.shiftl 1 9).
      rewrite testbit_shift1 by lia. by rewrite andb_false_r.
  - intros Hg Hl. unfold kpanic_report, log_str, critical. rewrite bind_bind. unfold bind at 1.
    rewrite (spin_irq_save_eq s). rewrite bind_bind. unfold bind at 1. by rewrite (spin_lock_contended kprint_lock).
Qed.

(** ** Examples *)

(** The bootstrap processor after its set-up, a transmitter that is always
    empty, and a log whose lock is taken. *)
Definition bsp_mach : @mach counter := match cpu_init_bsp 0 demo_mach with Ok (_, s) => s | _ => demo_mach end.
Definition crashing : @crash counter :=
  mkCrash bsp_mach (dev_demo 0 [true; false]) (lset kprint_lock (mkSpinlock 1 0 0) (log_demo (replicate 400 0x60))).

(** The message is the string at 528. *)
Lemma panic_report_correct_witness : exists s' x, panic_report 528 crashing = Ok (tt, s') /\
  port_writes (c_serial s') = (COM1,.) <$> panic_text (ctx_id x) (phys_to_virt 0x300000) (phys_to_virt 0x300000) [37; 100; 37; 37; 10].
Proof.
  destruct (cpus (mc_sched bsp_mach) !! phys_to_virt 0x300000) as [x|] eqn:Ex; [|vm_compute in Ex; discriminate].
  destruct (mc_ext bsp_mach !! phys_to_virt 0x300000) as [y|] eqn:Ey; [|vm_compute in Ey; discriminate].
  destruct (panic_report_correct crashing 528 [37; 100; 37; 37; 10] y (phys_to_virt 0x300000) x (phys_to_virt 0x300000) (phys_to_virt 0x300000))
    as (s' & E & _ & P & _).
  - vm_compute. discriminate.
  - vm_compute. reflexivity.
  - vm_compute. reflexivity.
  - split; [vm_compute; discriminate|vm_compute; reflexivity].
  - vm_compute. reflexivity.
  - split; [vm_compute; discriminate|vm_compute; reflexivity].
  - exact Ey.
  - vm_compute in Ey. injection Ey as <-. vm_compute. reflexivity.
  - exact Ex.
  - discriminate.
  - apply cstr_decide; by vm_compute.
  - vm_compute in Ex. injection Ex as <-. apply Nat.leb_le. vm_compute. reflexivity.
  - exists s', x. exact (conj E P).
Defined.

Lemma kpanic_sends_nothing_witness :
  (exists s', kpanic_report 528 (log_demo []) = Ok (tt, s') /\ port_writes s' = []) /\
  kpanic_report 528 (c_serial crashing) = Hang.
Proof.
  split.
  - destruct (kpanic_sends_nothing (log_demo []) 528 [37; 100; 37; 37; 10] ltac:(by eexists) (log_demo_ok []) ltac:(done)
      ltac:(apply cstr_decide; by vm_compute)) as [Hfree _]. destruct (Hfree eq_refl) as (s' & E & P & _). exists s'. exact (conj E P).
  - apply (kpanic_sends_nothing (c_serial crashing) 528 [37; 100; 37; 37; 10] ltac:(by eexists) (log_demo_ok []) ltac:(done)
      ltac:(apply cstr_decide; by vm_compute)); [reflexivity|]. discriminate.
Defined.
