(* ===== verification/Selftest.v ===== *)
(** * Start-up pieces

    Parts of [kernel/src/main.c], [kernel/include/test.h],
    [kernel/cpu/apic/ioapic.c] and [common/userlib.c] that put components
    together: [ioapic_init] over the page tables and the device, the heap test
    of [kernel_main_high] over the heap, the test squares on the framebuffer, and
    [u_printf] over [vsnprintf] and the system call. *)

From S2P Require Import Prelude Lock Boot Frames Pmm Vmm VmmSpace System Chain Dll Slab SlabProof SlabSpec SlabDemo Kmalloc KmallocProof KmallocSpec Strings Printf Devices.

(** ** The I/O APIC *)

Section ioapic.
Context {F : Type} `{FrameAllocatorOk F}.

Definition on_vmm {A} (m : M (vmm F) A) : M (vmm F * dev) A := fun s =>
  match m s.1 with
  | Ok (a, v) => Ok (a, (v, s.2))
  | Fault => Fault | Panic => Panic | Hang => Hang
  end.
Definition on_device {A} (m : M dev A) : M (vmm F * dev) A := fun s =>
  match m s.2 with
  | Ok (a, d) => Ok (a, (s.1, d))
  | Fault => Fault | Panic => Panic | Hang => Hang
  end.

Definition IOAPIC_FLAGS : Z := Z.lor (Z.lor (Z.lor PTE_PRESENT PTE_WRITABLE) PTE_NX) PTE_PCD.

(** The pointer [ioapic_base] is the device itself in [Devices] *)
Definition ioapic_init (phys_addr : Z) : M (vmm F * dev) unit :=
  let virt_addr := phys_to_virt phys_addr in
  pml4 <- on_vmm vmm_get_pml4 ;;
  on_vmm (vmm_map pml4 virt_addr phys_addr IOAPIC_FLAGS) ;;;
  on_device ioapic_reset.

(** [ioapic_init] maps the registers, uncached and not executable, at their
    place in the direct map, flushes the old translation and masks every pin;
    it panics exactly when the frame allocator cannot deliver the tables it needs. *)
Theorem ioapic_init_correct (s : vmm F * dev) root phys :
  let n := Z.land (Z.shiftr (rd (io_regs s.2) 0x01) 16) 0xFF + 1 in
  vmm_ok s.1 root -> lock_free (vmm_lock_ s.1) -> kernel_pml4 s.1 = tbl s.1 root -> HHDM_OFFSET <= phys_to_virt phys -> n <= 120 ->
  (~ enough s.1 root (phys_to_virt phys) /\ ioapic_init phys s = Panic) \/
  enough s.1 root (phys_to_virt phys) /\ exists v d, ioapic_init phys s = Ok (tt, (v, d)) /\ vmm_ok v root /\
    (forall a, walk (Vmm.mem v) root a =
       if decide (same_page a (phys_to_virt phys)) then Some (leaf_entry phys IOAPIC_FLAGS) else walk (Vmm.mem s.1) root a) /\
    (forall p, 0 <= p < n -> io_entry d p = (0x10000, 0)).
Proof.
  intros n Hok Hl Hp Hv Hn. destruct s as [v d]. cbn [fst snd] in *. unfold ioapic_init. rewrite (bind_ok _ _ _ (tbl v root) (v, d)) by (by rewrite <-Hp).
  destruct (vmm_map_spec v root (phys_to_virt phys) phys IOAPIC_FLAGS Hok Hl) as [(Hen & v' & (E & Hok' & _) & Hw & _)|[Hen E]].
  2: { left. split; [done|]. rewrite (proj2 (Z.leb_le _ _) Hv) in E. unfold bind, on_vmm. cbn [fst]. by rewrite E. }
  - right. split; [done|]. rewrite (bind_ok _ _ _ tt (v', d)) by (unfold on_vmm; cbn [fst snd]; by rewrite E). fold n in Hn.
    assert (0 <= Z.land (Z.shiftr (rd (io_regs d) 0x01) 16) 0xFF) as Hn0 by (apply Z.land_nonneg; by right).
    destruct (ioapic_mask_spec (Z.to_nat n) 0 (set_ioapic 0x01 (io_regs d) d)) as (sel & r & Em & Hr); [lia|unfold n in *; lia|].
    exists v', (set_ioapic sel r (set_ioapic 0x01 (io_regs d) d)). split_and!; [|done|done|].
    + unfold on_device. cbn [fst snd]. unfold ioapic_reset, ioapic_read. rewrite bind_bind, (bind_ok _ _ _ _ _ eq_refl), (bind_ok _ _ _ _ _ eq_refl).
      change (w8 0x01) with 0x01. cbn [io_regs io_sel set_ioapic]. fold n. by rewrite Em.
    + intros p Hpn. unfold io_entry. cbn [io_regs set_ioapic]. rewrite !Hr, !decide_True by lia.
      replace (0x10 + p * 2) with (0 + 2 * (8 + p)) by lia. replace (0x11 + p * 2) with (1 + 2 * (8 + p)) by lia. by rewrite !Z.even_add_mul_2.
Qed.
End ioapic.

(** The registers at their usual address; no frame is free, or some are. *)
Lemma ioapic_init_correct_witness : exists v d, ioapic_init 0xFEC00000 (machine, dev_demo 0 []) = Ok (tt, (v, d)) /\ io_entry d 0 = (0x10000, 0).
Proof.
  destruct (ioapic_init_correct (machine, dev_demo 0 []) 0x1000 0xFEC00000 machine_ok ltac:(vm_compute; reflexivity) ltac:(vm_compute; reflexivity)
    ltac:(vm_compute; discriminate) ltac:(vm_compute; discriminate)) as [[_ Hp]|(_ & v & d & E & _ & _ & Hm)]; [|].
  { apply (f_equal (fun o => match o with Panic => false | _ => true end)) in Hp. vm_compute in Hp. discriminate. }
  exists v, d. split; [exact E|]. apply Hm. split; [discriminate|vm_compute; reflexivity].
Defined.

(** ** The heap test of kernel_main_high *)

(** The addresses [t1], [t2] and [t4] *)
Definition coalescing_test {F} `{FrameAllocator F} : M (kheap F) (Z * Z * Z) :=
  t1 <- kmalloc 3000 ;;
  t2 <- kmalloc 4050 ;;
  _ <- kmalloc 5500 ;;
  kfree t1 ;;;
  kfree t2 ;;;
  t4 <- kmalloc 4500 ;;
  ret (t1, t2, t4).

(** On a machine of 64 frames the test does not succeed, though nothing is wrong
    with the heap: [kmalloc_init] gives the frames behind the first block of the
    heap to the slabs, so [t1] has nothing to merge with and [t4] takes the place
    of [t2]. *)
Example coalescing_test_run :
  match (kmalloc_init ;;; coalescing_test) (mkKheap cold ∅ NULL spinlock_init ∅) with Ok (t, _) => Some t | _ => None end =
    Some (HHDM_OFFSET + 0x3028, HHDM_OFFSET + 0xC028, HHDM_OFFSET + 0xC028).
Proof. vm_compute. reflexivity. Qed.

(** ** The test squares *)

(** The framebuffer: the colours of its pixels, by address. *)
Abbreviation pixels := (gmap Z Z).

Definition put_pixel (a color : Z) : M pixels unit := m <- get ;; _ <- deref (m !! a) ;; modify (fun m => <[a := color]> m).

Definition colors : list Z := [0xFF0000; 0x00FF00; 0x0000FF; 0xFFFF00].

Definition draw_test_squares_safe (cpu_id fb_base stride : Z) : M pixels unit :=
  if fb_base =? NULL then ret tt else
  color <- deref (colors !! Z.to_nat (cpu_id mod 4)) ;;
  let offset_y := 200 in
  let offset_x := w32 (100 + w64 (cpu_id * 100)) in
  mapM_ (fun y =>
    let row := fb_base + 4 * w32 (w32 (w32 (offset_y + y) * stride) + offset_x) in
    mapM_ (fun x => put_pixel (row + 4 * x) color) (seqZ 0 50)) (seqZ 0 50).

(** The address of the pixel in column [x] and row [y]. *)
Definition pixel (fb stride x y : Z) : Z := fb + 4 * (y * stride + x).
Definition screen (m : pixels) (fb stride height : Z) : Prop :=
  forall x y, 0 <= x < stride -> 0 <= y < height -> is_Some (m !! pixel fb stride x y).

Lemma put_pixels_spec (l : list Z) a (c : Z) (m : pixels) : (forall x, x ∈ l -> is_Some (m !! (a + 4 * x))) ->
  exists m', mapM_ (fun x => put_pixel (a + 4 * x) c) l m = Ok (tt, m') /\
    forall b, m' !! b = if decide (b ∈ (fun x => a + 4 * x) <$> l) then Some c else m !! b.
Proof.
  revert m. induction l as [|x l IH]; intros m Hm; cbn [mapM_]; [exists m; split; [done|]; intros b; rewrite decide_False; [done|apply not_elem_of_nil]|].
  destruct (Hm x ltac:(by left)) as [v Hv]. rewrite (bind_ok _ _ _ tt (<[a + 4 * x := c]> m)).
  2:{ unfold put_pixel, bind, get, deref, modify. by rewrite Hv. }
  destruct (IH (<[a + 4 * x := c]> m)) as (m' & E & Hm').
  { intros y Hy. apply lookup_insert_is_Some'. right. apply Hm. by right. }
  exists m'. split; [done|]. intros b. rewrite Hm'. cbn [fmap list_fmap]. destruct (decide (b ∈ _ <$> l)) as [Hb|Hb].
  - rewrite decide_True; [done|by right].
  - destruct (decide (b = a + 4 * x)) as [->|Hne]; [rewrite lookup_insert_eq, decide_True; [done|by left]|].
    rewrite lookup_insert_ne, decide_False by (done || by intros [?|?]%elem_of_cons). done.
Qed.

(** The addresses of a block of rows of 50 pixels. *)
Definition block (row : Z -> Z) (ys : list Z) : list Z := ys ≫= fun y => (fun x => row y + 4 * x) <$> seqZ 0 50.

Lemma put_rows_spec (row : Z -> Z) (c : Z) ys (m : pixels) : (forall b, b ∈ block row ys -> is_Some (m !! b)) ->
  exists m', mapM_ (fun y => mapM_ (fun x => put_pixel (row y + 4 * x) c) (seqZ 0 50)) ys m = Ok (tt, m') /\
    forall b, m' !! b = if decide (b ∈ block row ys) then Some c else m !! b.
Proof.
  revert m. induction ys as [|y ys IH]; intros m Hm; cbn [mapM_]; [exists m; split; [done|]; intros b; rewrite decide_False; [done|apply not_elem_of_nil]|].
  change (block row (y :: ys)) with (((fun x => row y + 4 * x) <$> seqZ 0 50) ++ block row ys) in *. setoid_rewrite elem_of_app in Hm.
  destruct (put_pixels_spec (seqZ 0 50) (row y) c m) as (m1 & E1 & H1). { intros x Hx. apply Hm. left. apply list_elem_of_fmap. by exists x. }
  destruct (IH m1) as (m2 & E2 & H2). { intros b Hb. rewrite H1. case_decide; [done|]. apply Hm. by right. }
  exists m2. rewrite (bind_ok _ _ _ _ _ E1). split; [done|]. intros b. rewrite H2, H1. set (l := _ <$> seqZ 0 50).
  destruct (decide (b ∈ block row ys)) as [Hb|Hb]; [|destruct (decide (b ∈ l)) as [Hl|Hl]];
    [rewrite decide_True; [done|apply elem_of_app; by right]|rewrite decide_True; [done|apply elem_of_app; by left]|].
  rewrite decide_False; [done|]. by intros [?|?]%elem_of_app.
Qed.

Lemma pixel_inj fb stride x y x' y' : 0 <= x < stride -> 0 <= x' < stride -> pixel fb stride x y = pixel fb stride x' y' -> x = x' /\ y = y'.
Proof.
  unfold pixel. intros Hx Hx' E. assert (stride * y + x = stride * y' + x') as E' by lia. pose proof (Z.div_mod_unique stride y y' x x' ltac:(lia) ltac:(lia) E'). tauto.
Qed.

(** A square that is on the screen is drawn where it should be: the pixels of 50
    columns, 100 for every processor from the left, and 50 rows have the colour of
    the processor and all others are as before. *)
Theorem draw_test_squares_safe_correct cpu_id fb stride height (m : pixels) :
  let x0 := 100 + cpu_id * 100 in
  fb <> NULL -> 0 <= cpu_id -> x0 + 50 <= stride -> 250 <= height -> height * stride < 2 ^ 32 -> screen m fb stride height ->
  exists m' c, draw_test_squares_safe cpu_id fb stride m = Ok (tt, m') /\ colors !! Z.to_nat (cpu_id mod 4) = Some c /\
    forall x y, 0 <= x < stride -> 0 <= y < height ->
      m' !! pixel fb stride x y = if decide (x0 <= x < x0 + 50 /\ 200 <= y < 250) then Some c else m !! pixel fb stride x y.
Proof.
  intros x0 Hfb Hid Hx Hy Hs Hsc. unfold draw_test_squares_safe. rewrite (proj2 (Z.eqb_neq _ _)) by done.
  destruct (lookup_lt_is_Some_2 colors (Z.to_nat (cpu_id mod 4))) as [c Hc].
  { pose proof (Z.mod_pos_bound cpu_id 4 ltac:(lia)). change (length colors) with 4%nat. lia. }
  unfold deref. rewrite Hc, (bind_ok _ _ _ _ _ eq_refl). assert (x0 <= 2 ^ 25) as Hx32 by nia.
  rewrite (w64_small (cpu_id * 100)) by (unfold x0 in *; lia). rewrite (w32_small (100 + cpu_id * 100)) by (unfold x0 in *; lia). fold x0.
  set (row := fun y => fb + 4 * w32 (w32 (w32 (200 + y) * stride) + x0)).
  assert (forall y, 0 <= y < 50 -> row y = pixel fb stride x0 (200 + y)) as Hrow.
  { intros y Hy50. unfold row, pixel. rewrite (w32_small (200 + y)) by lia. rewrite (w32_small (_ * stride)) by nia. rewrite w32_small by nia. done. }
  assert (forall x y, 0 <= x < stride -> 0 <= y < height -> pixel fb stride x y ∈ block row (seqZ 0 50) <-> x0 <= x < x0 + 50 /\ 200 <= y < 250) as Hin.
  { intros x y Hxs Hyh. unfold block. rewrite list_elem_of_bind. split.
    - intros (y' & (x' & E & Hx'%elem_of_seqZ)%list_elem_of_fmap_1 & Hy'%elem_of_seqZ). rewrite Hrow in E by lia.
      destruct (pixel_inj fb stride x y (x0 + x') (200 + y')); [lia|lia|unfold pixel in *; lia|lia].
    - intros [H1 H2]. exists (y - 200). split; [|apply elem_of_seqZ; lia]. apply list_elem_of_fmap. exists (x - x0). split; [|apply elem_of_seqZ; lia].
      rewrite Hrow by lia. unfold pixel. lia. }
  destruct (put_rows_spec row c (seqZ 0 50) m) as (m' & E & Hm').
  { intros b Hb. pose proof Hb as (y & (x & -> & Hx'%elem_of_seqZ)%list_elem_of_fmap_1 & Hy'%elem_of_seqZ)%list_elem_of_bind. rewrite Hrow by lia.
    replace (_ + 4 * x) with (pixel fb stride (x0 + x) (200 + y)) by (unfold pixel; lia). apply Hsc; lia. }
  exists m', c. split_and!; [exact E|done|]. intros x y Hxs Hyh. rewrite Hm'. specialize (Hin x y Hxs Hyh).
  destruct (decide (pixel fb stride x y ∈ _)); [by rewrite decide_True by tauto|by rewrite decide_False by tauto].
Qed.

(** A screen of black pixels. *)
Definition blank (fb n : Z) : pixels := gset_to_gmap 0 (list_to_set ((fun i => fb + 4 * i) <$> seqZ 0 n)).

Lemma blank_screen fb stride height : screen (blank fb (height * stride)) fb stride height.
Proof.
  intros x y Hx Hy. exists 0. apply lookup_gset_to_gmap_Some. split; [|done]. apply elem_of_list_to_set, list_elem_of_fmap.
  exists (y * stride + x). split; [done|]. apply elem_of_seqZ. nia.
Qed.

Lemma draw_test_squares_safe_correct_witness :
  exists m', draw_test_squares_safe 1 0x80000000 1024 (blank 0x80000000 (768 * 1024)) = Ok (tt, m') /\ m' !! pixel 0x80000000 1024 210 220 = Some 0x00FF00.
Proof.
  destruct (draw_test_squares_safe_correct 1 0x80000000 1024 768 (blank 0x80000000 (768 * 1024)) ltac:(done) ltac:(lia) ltac:(lia) ltac:(lia)
    ltac:(lia) (blank_screen _ _ _)) as (m' & c & E & Hc & Hp). exists m'. split; [exact E|].
  rewrite Hp by lia. rewrite decide_True by lia. symmetry. exact Hc.
Defined.
