(* ===== verification/Entry.v ===== *)
(** * The entry points of the kernel

    [kernel_main], [kernel_main_high] and the tasks they start, of
    [kernel/src/main.c], and [kernel_main_ap] of [kernel/smp/smp.c]: the order in
    which the processors bring the components up.

    - The entry points only call; every routine they call has its model in the
      file of its component. Here a routine is a [call], and the kernel they run
      on is an instance of [Kernel], which says what each call does to a state.
    - [stage] lists what the calls set up, [allowed] what each of them relies
      on: tables written down here from the components, not derived from them.
      The class [Staged] assumes of the components that a call that is allowed
      returns, with its stages reached. What follows is about the order of the
      calls, not about what they do.
    - The inline assembly that aligns the stack and jumps to the high half is
      the composition of the two halves. *)

From S2P Require Import Prelude Boot Vmm Devices Tables.

(** ** Calls *)

(** Formats are written with the escapes of C. [KprintfAt] is [kprintf] with a
    format in memory. *)
Inductive call : Type -> Type :=
| Cli : call unit
| Sti : call unit
| Hlt : call unit
| PmmInit (bi : Z) : call unit
| InitSerial : call unit
| VmmInit (bi : Z) : call unit
| CpuInitBsp : call unit
| CpuInitSyscalls : call unit
| InitSysTable : call unit
| IdtInit : call unit
| Kprintf (fmt : string) (args : list Z) : call unit
| KprintfAt (fmt : Z) : call unit
| KmallocInit : call unit
| Kmalloc (size : Z) : call Z
| Kfree (p : Z) : call unit
| KmallocDump : call unit
| Strcpy (dst : Z) (src : string) : call unit
| Store8 (a v : Z) : call unit
| Load32 (a : Z) : call Z
| DrawSquares (cpu_id fb stride : Z) : call unit
| AcpiFindTable (rsdp : Z) (signature : string) : call Z
| VmmGetPml4 : call Z
| VmmMapDevice (pml4 virt phys size : Z) : call Z
| VmmUnmapRange (pml4 virt size : Z) : call unit
| VmmEnablePat : call unit
| LapicInit (base : Z) : call unit
| LapicInitAp : call unit
| EnableLocks : call unit
| LapicTimerInit (ms vector : Z) : call unit
| LapicSendIpi (id vector : Z) : call unit
| LapicBroadcastIpi (vector : Z) : call unit
| IoapicInit (phys : Z) : call unit
| IoapicSetIrq (irq apic vector : Z) : call unit
| I8042Init : call unit
| SchedInit : call unit
| SchedInitAp : call unit
| TarInit (addr size : Z) : call unit
| TarLookup (name : string) : call (Z * Z)
| SpawnElf (image : Z) : call Z
| TaskCreate (entry : Z) : call unit
| TaskCreateUser (entry : Z) : call unit
| TaskExit : call Empty_set
| SmpInit (bi : Z) : call unit
| CpuCount : call Z
| Msleep (ms : Z) : call unit
| GetUptime : call Z
| LogFlush : call unit
| EnableNxe : call unit
| EnableSse : call unit
| GdtSetup (ctx : Z) : call unit
| CpuInitContext (ctx : Z) : call unit.

(** A kernel: what the calls do. *)
Class Kernel (S : Type) := exec : forall A : Type, call A -> M S A.
Arguments exec {S _ A} _.


(** ** The entry points *)

Section entry.
Context {S : Type} `{Kernel S}.

(** [kprintf] with a literal format *)
Definition kprintf (fmt : string) (args : list Z) : M S unit := exec (Kprintf fmt args).

(** [while (x < n) { kprintf(text); msleep(10); x++; } task_exit();], where
    [task_exit] does not return *)
Definition print_times (n : Z) (text : string) : M S unit :=
  mapM_ (fun _ => kprintf text [] ;;; exec (Msleep 10)) (seqZ 0 n).
Definition printing_task (n : Z) (text : string) : M S Empty_set :=
  print_times n text ;;;
  exec TaskExit.
Definition task_a : M S Empty_set := printing_task 10 "A".
Definition task_b : M S Empty_set := printing_task 15 "B".

(** The heap test *)
Definition heap_test : M S unit :=
  kprintf "Starting Coalescing Test\n" [] ;;;
  t1 <- exec (Kmalloc 3000) ;;
  t2 <- exec (Kmalloc 4050) ;;
  t3 <- exec (Kmalloc 5500) ;;
  kprintf "t1: %p\n" [t1] ;;;
  kprintf "t2: %p\n" [t2] ;;;
  kprintf "t3: %p\n" [t3] ;;;
  exec (Kfree t1) ;;;
  exec (Kfree t2) ;;;
  t4 <- exec (Kmalloc 4500) ;;
  kprintf "t4 (should reuse t1 space): %p\n" [t4] ;;;
  (if t4 =? t1 then kprintf "SUCCESS: Coalescing works! t4 reused and merged t1+t2.\n" []
   else kprintf "DEBUG: t4 is at: %p\n" [t4]) ;;;
  exec (Strcpy t4 "## DATA SAVED IN T4 ##\n") ;;;
  kprintf "%s\n" [t4] ;;;
  exec KmallocDump.

(** The first program: looked up under two names, started when it is there *)
Definition launch_init : M S unit :=
  f0 <- exec (TarLookup "init.elf") ;;
  f <- (if f0.1 =? NULL then kprintf "Trying alternative path...\n" [] ;;; exec (TarLookup "ramdisk/init.elf") else ret f0) ;;
  when (negb (f.1 =? NULL))
    (kprintf "SUCCESS! Found init.elf at: %p Size: %x\n" [f.1; f.2] ;;;
     t <- exec (SpawnElf f.1) ;;
     if negb (t =? NULL) then kprintf "Launching init.elf (TID will be assigned)...\n" []
     else kprintf "ERROR: Failed to spawn init.elf - check VMM or ELF header.\n" []).

(** The block of [if (madt)]; [local_apic_address] follows the 36 bytes of the
    header *)
Definition start_devices (bi : BootInfo) (bi_addr madt : Z) : M S unit :=
  pml4 <- exec VmmGetPml4 ;;
  lapic <- exec (Load32 (madt + 36)) ;;
  v_lapic <- exec (VmmMapDevice pml4 (phys_to_virt lapic) lapic 4096) ;;
  exec (LapicInit v_lapic) ;;;
  exec EnableLocks ;;;
  exec (LapicTimerInit 5 32) ;;;
  exec (IoapicInit 0xFEC00000) ;;;
  exec (IoapicSetIrq 1 0 33) ;;;
  exec I8042Init ;;;
  exec SchedInit ;;;
  let ramdisk_vaddr := phys_to_virt (ramdisk_addr (ramdisk bi)) in
  exec (TarInit ramdisk_vaddr (ramdisk_size (ramdisk bi))) ;;;
  kprintf "##### RAMDISK DIAGNOSTIC #####\n" [] ;;;
  kprintf "Address Phys: %p\n" [ramdisk_addr (ramdisk bi)] ;;;
  kprintf "Address Virt: %p\n" [ramdisk_vaddr] ;;;
  kprintf "Size:         %x bytes\n" [ramdisk_size (ramdisk bi)] ;;;
  launch_init ;;;
  kprintf "Starting SMP initialization...\n" [] ;;;
  exec (SmpInit bi_addr) ;;;
  n <- exec CpuCount ;;
  when (1 <? n)
    (kprintf "BSP: IPI_TEST CPU 1...\n" [] ;;; exec (LapicSendIpi 1 IPI_VECTOR_TEST)) ;;;
  kprintf "BSP: Broadcasting IPI...\n" [] ;;;
  exec (LapicBroadcastIpi IPI_VECTOR_TEST).

(** The search for the table of interrupt controllers *)
Definition probe_devices (bi : BootInfo) (bi_addr : Z) : M S unit :=
  when (negb (rsdp bi =? 0))
    (madt <- exec (AcpiFindTable (phys_to_virt (rsdp bi)) "APIC") ;;
     when (negb (madt =? NULL)) (start_devices bi bi_addr madt)).

(** [kernel_main_high] up to its idle loop. [task_a] and [task_b] are the
    addresses of the two tasks. *)
Definition kernel_main_high (entry_a entry_b : Z) (bi : BootInfo) (bi_addr : Z) : M S unit :=
  exec CpuInitBsp ;;;
  exec CpuInitSyscalls ;;;
  exec InitSysTable ;;;
  exec IdtInit ;;;
  kprintf "###   Greetings from Higher Half!   ###\n" [] ;;;
  exec KmallocInit ;;;
  kprintf "Heap initialized.\n" [] ;;;
  heap_test ;;;
  exec (DrawSquares 1 (framebuffer_base (fb bi)) (pixels_per_scanline (fb bi))) ;;;
  probe_devices bi bi_addr ;;;
  p0 <- exec VmmGetPml4 ;;
  exec (VmmUnmapRange p0 0x0 0x100000) ;;;
  p1 <- exec VmmGetPml4 ;;
  exec (VmmUnmapRange p1 KERNEL_PHYS_BASE 0x400000) ;;;
  kprintf "Kernel isolated.\n" [] ;;;
  exec Sti ;;;
  kprintf "Testing timer with msleep (5 seconds)...\n" [] ;;;
  mapM_ (fun i => exec (Msleep 1000) ;;; kprintf "Tick %ds...\n" [i]) (seqZ 1 5) ;;;
  exec (TaskCreate entry_a) ;;;
  exec (TaskCreate entry_b) ;;;
  up <- exec GetUptime ;;
  kprintf "Timer TEST PASSED! Uptime: %dms\n" [up] ;;;
  kprintf "###   Higher Half kernel is now idling.   ###\n" [] ;;;
  exec KmallocDump.

(** One turn of the idle loop *)
Definition idle_turn : M S unit := exec LogFlush ;;; exec Hlt.

(** [kernel_main], and the jump to the high half with the address of the boot
    information behind the direct map *)
Definition kernel_main (entry_a entry_b : Z) (bi : BootInfo) (bi_addr : Z) : M S unit :=
  exec Cli ;;;
  exec (PmmInit bi_addr) ;;;
  exec InitSerial ;;;
  exec (VmmInit bi_addr) ;;;
  kernel_main_high entry_a entry_b bi (phys_to_virt bi_addr).

(** [kernel_main_ap] up to its loop of [hlt]: [cpu_id] is the field of the
    context, [bi] what [g_bi] points at, [entry] the address of
    [user_test_task_ap] *)
Definition kernel_main_ap (ctx cpu_id entry : Z) (bi : option BootInfo) : M S unit :=
  exec EnableNxe ;;;
  exec EnableSse ;;;
  exec (GdtSetup ctx) ;;;
  exec (CpuInitContext ctx) ;;;
  exec IdtInit ;;;
  exec CpuInitSyscalls ;;;
  exec VmmEnablePat ;;;
  exec LapicInitAp ;;;
  exec (LapicTimerInit 5 32) ;;;
  exec SchedInitAp ;;;
  match bi with
  | Some bi => exec (DrawSquares cpu_id (framebuffer_base (fb bi)) (pixels_per_scanline (fb bi)))
  | None => ret tt
  end ;;;
  ap_message <- exec (Kmalloc 64) ;;
  when (negb (ap_message =? NULL))
    (exec (Strcpy ap_message "CPU ") ;;;
     exec (Store8 (ap_message + 4) (w8 (cpu_id + 48))) ;;;
     exec (Strcpy (ap_message + 5) " ALLOCATED OK\n") ;;;
     exec (KprintfAt ap_message)) ;;;
  exec (Kfree ap_message) ;;;
  exec (TaskCreateUser entry) ;;;
  exec Sti.
End entry.

(** ** Stages *)

(** What has been set up. [Segments], [Context], [Vectors], [Syscalls], [Timer]
    and [Interrupts] are those of the executing processor, the others the
    machine's. *)
Inductive stage :=
| Frames | Console | Paging | Segments | Context | Syscalls | SysTable | Interrupts | Vectors | Heap | Apic | Locks | Timer | Irqs | Scheduler | Ramdisk | Smp.

#[global] Instance stage_eq_dec : EqDecision stage.
Proof. solve_decision. Defined.

Definition gives {A} (c : call A) : list stage :=
  match c with
  | PmmInit _ => [Frames] | InitSerial => [Console] | VmmInit _ => [Paging]
  | CpuInitBsp => [Context; Segments] | GdtSetup _ => [Segments] | CpuInitContext _ => [Context]
  | CpuInitSyscalls => [Syscalls] | InitSysTable => [SysTable] | IdtInit => [Vectors] | Sti => [Interrupts]
  | KmallocInit => [Heap] | LapicInit _ => [Apic] | EnableLocks => [Locks] | LapicTimerInit _ _ => [Timer]
  | IoapicInit _ => [Irqs] | SchedInit => [Scheduler] | TarInit _ _ => [Ramdisk] | SmpInit _ => [Smp]
  | _ => []
  end.

(** What a call relies on: page tables are made of frames; the descriptor tables
    and the heap are in the high half; a vector refers to a code segment; a
    user task calls through the table of system calls; the registers of the local APIC are behind a pointer [lapic_init] sets; tasks
    and their stacks come from the heap and wait in the queues of the context;
    [msleep] waits for the interrupts of the timer to advance the clock; and so
    on. *)
Definition needs {A} (c : call A) : list stage :=
  match c with
  | VmmInit _ => [Frames] | CpuInitBsp | GdtSetup _ => [Paging] | CpuInitContext _ | IdtInit => [Segments] | CpuInitSyscalls => [Context]
  | Kprintf _ _ | KprintfAt _ | LogFlush => [Console] | KmallocInit => [Frames; Paging] | Kmalloc _ | Kfree _ | KmallocDump => [Heap]
  | DrawSquares _ _ _ | AcpiFindTable _ _ | Load32 _ | VmmGetPml4 | VmmMapDevice _ _ _ _ | VmmUnmapRange _ _ _ => [Paging]
  | LapicInit _ | IoapicInit _ => [Paging] | LapicInitAp | LapicSendIpi _ _ | LapicBroadcastIpi _ => [Apic]
  | EnableLocks => [Context] | LapicTimerInit _ _ => [Apic; Vectors] | IoapicSetIrq _ _ _ => [Irqs; Vectors]
  | SchedInit => [Heap; Context] | SchedInitAp => [Heap; Context; Scheduler] | TarInit _ _ => [Paging] | TarLookup _ => [Ramdisk]
  | SpawnElf _ | TaskCreateUser _ => [Heap; Paging; Scheduler; Syscalls; SysTable] | TaskCreate _ => [Heap; Scheduler] | TaskExit => [Scheduler]
  | SmpInit _ => [Frames; Paging; Apic; Timer; Scheduler] | Msleep _ => [Timer; Interrupts] | Sti => [Vectors]
  | _ => []
  end.

(** The calls that take a spinlock: with the locks enabled, [spin_lock] reads
    the number of the processor from its context. *)
Definition locks {A} (c : call A) : bool :=
  match c with
  | PmmInit _ | VmmInit _ | Kprintf _ _ | KprintfAt _ | LogFlush | KmallocInit | Kmalloc _ | Kfree _ | KmallocDump
  | VmmMapDevice _ _ _ _ | VmmUnmapRange _ _ _ | IoapicInit _ | SchedInit | SchedInitAp | SpawnElf _ | TaskCreateUser _
  | TaskCreate _ | TaskExit | SmpInit _ | Msleep _ => true
  | _ => false
  end.

(** The calls that come back. *)
Definition returns {A} (c : call A) : bool := match c with TaskExit => false | _ => true end.

(** Pointers that are written through are not null; a request for memory is
    for at most two pages. *)
Definition args_ok {A} (c : call A) : Prop :=
  match c with
  | Strcpy dst _ => dst <> NULL | Store8 a _ => a <> NULL | Kmalloc size => 0 < size <= 8192 | _ => True
  end.

Record allowed {A} (c : call A) (st : list stage) : Prop := {
  al_needs : Forall (fun g => g ∈ st) (needs c);
  al_locks : locks c = true -> Locks ∈ st -> Context ∈ st;
  al_args : args_ok c;
  al_returns : returns c = true;
}.

(** What the results promise: during the start there is memory. *)
Definition ensures {A} (c : call A) : A -> Prop :=
  match c in call T return T -> Prop with Kmalloc _ => fun r => 0 < r | _ => fun _ => True end.

(** The promise of the components: in a state with the stages [st] an allowed
    call returns, and its own stages are reached. *)
Class Staged (S : Type) `{Kernel S} (has : list stage -> S -> Prop) : Prop :=
  staged : forall A (c : call A) st s, has st s -> allowed c st ->
    exists r s', exec c s = Ok (r, s') /\ ensures c r /\ has (gives c ++ st) s'.

(** ** The order is right *)

Section order.
Context {S : Type} `{Kernel S} (has : list stage -> S -> Prop) `{!Staged S has}.

Lemma wp_call {A B} (c : call A) (k : A -> M S B) Q st s :
  has st s -> allowed c st -> (forall r s', ensures c r -> has (gives c ++ st) s' -> wp (k r) Q s') -> wp (bind (exec c) k) Q s.
Proof.
  intros Hs Ha Hk. destruct (staged A c st s Hs Ha) as (r & s' & E & He & Hs'). apply wp_bind. unfold wp at 1. rewrite E. by apply Hk.
Qed.

Lemma wp_call_last {A} (c : call A) (Q : A -> S -> Prop) st s :
  has st s -> allowed c st -> (forall r s', ensures c r -> has (gives c ++ st) s' -> Q r s') -> wp (exec c) Q s.
Proof. intros Hs Ha Hk. destruct (staged A c st s Hs Ha) as (r & s' & E & He & Hs'). unfold wp. rewrite E. by apply Hk. Qed.

(** A routine that leads from the stages [st] to the stages [st']. *)
Definition leads {A} (m : M S A) (st st' : list stage) : Prop := forall s, has st s -> wp m (fun _ s' => has st' s') s.

Lemma wp_leads {A B} (m : M S A) (k : A -> M S B) Q st st' s :
  leads m st st' -> has st s -> (forall r s', has st' s' -> wp (k r) Q s') -> wp (bind m k) Q s.
Proof. intros Hm Hs Hk. apply wp_bind. eapply wp_mono; [by apply Hm|]. auto. Qed.

Lemma wp_assoc {A B C} (m : M S A) (f : A -> M S B) (k : B -> M S C) Q s :
  wp (bind m (fun a => bind (f a) k)) Q s -> wp (bind (bind m f) k) Q s.
Proof. unfold wp. by rewrite bind_bind. Qed.

Lemma wp_ret_bind {A B} (a : A) (k : A -> M S B) Q s : wp (k a) Q s -> wp (bind (ret a) k) Q s.
Proof. done. Qed.
End order.

(** One call, whose prerequisites are decided on the list of stages. *)
Ltac allow := split; [by_decide|by_decide|cbn [args_ok]; unfold NULL; first [done|lia]|done].
Ltac advance := intros ? ?; cbn [ensures gives app]; intros ? ?.
Ltac boot := unfold kprintf, when; repeat (lazymatch goal with
  | |- wp (bind (exec _) _) _ _ => eapply wp_call; [tc_solve|eassumption|allow|advance]
  | |- wp (exec _) _ _ => eapply wp_call_last; [tc_solve|eassumption|allow|advance]
  | |- wp (bind (bind _ _) _) _ _ => apply wp_assoc
  | |- wp (bind (ret _) _) _ _ => apply wp_ret_bind
  | |- wp (ret _) _ _ => apply wp_ret
  | |- wp (bind (if ?b then _ else _) _) _ _ => destruct b
  | |- wp (if ?b then _ else _) _ _ => destruct b
  | |- wp (bind (match ?o with _ => _ end) _) _ _ => destruct o
  | |- _ => assumption
  end).

Section bring_up.
Context {S : Type} `{Kernel S} (has : list stage -> S -> Prop) `{!Staged S has}.
Abbreviation leads := (leads has).

Definition low_half : list stage := [Paging; Console; Frames].
Definition high_half : list stage := [Heap; Vectors; SysTable; Syscalls; Context; Segments] ++ low_half.
Definition devices : list stage := [Ramdisk; Scheduler; Irqs; Timer; Locks; Apic] ++ high_half.
Definition all_stages : list stage := Smp :: devices.
Definition running : list stage := Interrupts :: all_stages.

Lemma heap_test_leads : leads heap_test high_half high_half.
Proof. intros s Hs. unfold heap_test. boot. Qed.

Lemma launch_leads : leads launch_init devices devices.
Proof. intros s Hs. unfold launch_init. boot. Qed.

Lemma start_devices_leads bi a madt : leads (start_devices bi a madt) high_half all_stages.
Proof.
  intros s Hs. unfold start_devices. boot. eapply wp_leads; [apply launch_leads|eassumption|intros ? ? ?]. boot.
Qed.

Lemma ticks_leads : leads (mapM_ (fun i => exec (Msleep 1000) ;;; kprintf "Tick %ds...\n" [i]) (seqZ 1 5)) running running.
Proof. intros s Hs. change (seqZ 1 5) with [1; 2; 3; 4; 5]. cbn [mapM_]. boot. Qed.

Lemma print_times_leads n text : leads (print_times n text) running running.
Proof.
  unfold print_times. induction (seqZ 0 n) as [|i l IH]; intros s Hs; cbn [mapM_]; [by apply wp_ret|]. boot. by apply IH.
Qed.

(** The machine has a table of its interrupt controllers. *)
Definition has_madt (bi : BootInfo) : Prop :=
  rsdp bi <> 0 /\ forall s r s', exec (AcpiFindTable (phys_to_virt (rsdp bi)) "APIC") s = Ok (r, s') -> r <> NULL.

Lemma probe_leads bi bi_addr : has_madt bi -> leads (probe_devices bi bi_addr) high_half all_stages.
Proof.
  intros [Hr Hm] s Hs. unfold probe_devices. rewrite (proj2 (Z.eqb_neq _ _) Hr). cbn [negb when].
  destruct (staged _ (AcpiFindTable (phys_to_virt (rsdp bi)) "APIC") _ s Hs ltac:(allow)) as (madt & s1 & E & _ & Hs1).
  apply wp_bind. unfold wp at 1. rewrite E. rewrite (proj2 (Z.eqb_neq _ _) (Hm _ _ _ E)). by apply start_devices_leads.
Qed.

Lemma high_leads a b bi bi_addr : has_madt bi -> leads (kernel_main_high a b bi bi_addr) low_half running.
Proof.
  intros Hm s Hs. unfold kernel_main_high. boot.
  eapply (wp_leads has _ _ _ high_half high_half); [apply heap_test_leads|eassumption|intros ? ? ?]. boot.
  eapply (wp_leads has _ _ _ high_half all_stages); [by apply probe_leads|eassumption|intros ? ? ?]. boot.
  eapply (wp_leads has _ _ _ running running); [apply ticks_leads|eassumption|intros ? ? ?]. boot.
Qed.

(** What the others have set up when a processor enters the kernel. *)
Definition shared : list stage := [SysTable; Scheduler; Irqs; Locks; Apic; Heap; Paging; Console; Frames].

Lemma ap_leads ctx id entry bi : leads (kernel_main_ap ctx id entry bi) shared ([Interrupts; Timer; Syscalls; Vectors; Context; Segments] ++ shared).
Proof. intros s Hs. unfold kernel_main_ap. boot. Qed.

(** the kernel comes up in order. On a machine with a table of interrupt
    controllers the boot processor, from the first instruction of [kernel_main]
    on a machine where nothing is set up to the idle loop of
    [kernel_main_high], makes every call only after the calls it relies on, on
    every path (whatever the ramdisk holds, however many processors there are),
    and never takes a lock with the locks enabled before its context exists; it
    reaches its idle loop with every part set up. So does every other
    processor, which enters with the locks already enabled and no context, in
    [kernel_main_ap]; and the two kernel tasks run up to their call of
    [task_exit]. *)
Theorem kernel_comes_up_in_order a b bi bi_addr s :
  has_madt bi -> has [] s ->
  (exists s', kernel_main a b bi bi_addr s = Ok (tt, s') /\ has running s' /\
    exists s2 s3, print_times 10 "A" s' = Ok (tt, s2) /\ task_a s' = exec TaskExit s2 /\
      print_times 15 "B" s2 = Ok (tt, s3) /\ task_b s2 = exec TaskExit s3) /\
  forall ctx id entry gbi s1, has shared s1 ->
    exists s', kernel_main_ap ctx id entry gbi s1 = Ok (tt, s') /\ has ([Interrupts; Timer; Syscalls; Vectors; Context; Segments] ++ shared) s'.
Proof.
  intros Hm Hs. assert (forall (m : M S unit) st st' s0, leads m st st' -> has st s0 -> exists s', m s0 = Ok (tt, s') /\ has st' s') as Hrun.
  { intros m st st' s0 Hl H0. by destruct (proj1 (wp_ok _ _ _) (Hl s0 H0)) as ([] & s' & E & Hs'); exists s'. }
  split; [|intros ctx id entry gbi s1; apply Hrun, ap_leads].
  destruct (Hrun (kernel_main a b bi bi_addr) [] running s) as (s' & E & Hs'); [|done|].
  { clear s Hs. intros s Hs. unfold kernel_main. boot. by apply high_leads. }
  exists s'. split_and!; [done|done|]. destruct (Hrun (print_times 10 "A") running running s') as (s2 & E2 & Hs2); [apply print_times_leads|done|].
  destruct (Hrun (print_times 15 "B") running running s2) as (s3 & E3 & _); [apply print_times_leads|done|]. exists s2, s3.
  split_and!; [done| |done|]; unfold task_a, task_b, printing_task; by rewrite (bind_ok _ _ _ _ _ E2) || rewrite (bind_ok _ _ _ _ _ E3).
Qed.

Lemma hang_call {A B} (c : call A) (k : A -> M S B) st s :
  has st s -> allowed c st -> (forall r s', ensures c r -> has (gives c ++ st) s' -> k r s' = Hang) -> bind (exec c) k s = Hang.
Proof. intros Hs Ha Hk. destruct (staged A c st s Hs Ha) as (r & s' & E & He & Hs'). rewrite (bind_ok _ _ _ _ _ E). by apply Hk. Qed.

Lemma hang_leads {A B} (m : M S A) (k : A -> M S B) st st' s :
  leads m st st' -> has st s -> (forall r s', has st' s' -> k r s' = Hang) -> bind m k s = Hang.
Proof. intros Hm Hs Hk. destruct (proj1 (wp_ok _ _ _) (Hm s Hs)) as (r & s' & E & Hs'). rewrite (bind_ok _ _ _ _ _ E). by apply (Hk r). Qed.

(** The calls before the one that never returns. *)
Ltac stall := unfold kprintf; repeat (eapply hang_call; [eassumption|allow|advance]).

(** Without such a table the kernel does not come up: the timer is never
    started, so the clock stands still, and the first [msleep] of
    [kernel_main_high] waits for ever. *)
Theorem boot_without_apic_hangs a b bi bi_addr s :
  rsdp bi = 0 -> has low_half s ->
  (forall ms st s, has st s -> Timer ∉ st -> 0 < ms -> exec (Msleep ms) s = Hang) ->
  kernel_main_high a b bi bi_addr s = Hang.
Proof.
  intros Hr Hs Hsleep. unfold kernel_main_high. stall.
  eapply (hang_leads _ _ high_half high_half); [apply heap_test_leads|eassumption|intros ? ? ?]. stall.
  unfold probe_devices. rewrite Hr. cbn [Z.eqb negb when]. rewrite (bind_ok _ _ _ tt _ eq_refl). stall.
  change (seqZ 1 5) with [1; 2; 3; 4; 5]. cbn [mapM_]. rewrite !bind_bind. unfold bind at 1.
  by erewrite Hsleep by (eassumption || by_decide || lia).
Qed.
End bring_up.

(** ** A kernel that only keeps the list of its stages *)

Definition answer {A} (c : call A) : option A :=
  match c in call T return option T with
  | Kmalloc _ | Load32 _ | AcpiFindTable _ _ | VmmGetPml4 | VmmMapDevice _ _ _ _ | SpawnElf _ => Some 0x5000
  | TarLookup _ => Some (0x6000, 0x400)
  | CpuCount => Some 4
  | GetUptime => Some 5000
  | TaskExit => None
  | _ => Some tt
  end.

Definition ledger_exec {A} (c : call A) : M (list stage) A := fun st =>
  let waits := match c with Msleep _ => bool_decide (Timer ∉ st) | _ => false end in
  match answer c with
  | Some r => if waits then Hang else Ok (r, gives c ++ st)
  | None => Hang
  end.

#[local] Instance ledger : Kernel (list stage) := @ledger_exec.

Lemma ledger_staged : Staged (list stage) (fun st s => s = st).
Proof.
  intros A c st s -> [Hn _ _ Hr]. destruct (answer c) as [r|] eqn:Ea; [|by destruct c].
  exists r, (gives c ++ st). split; [|split; [destruct c; simplify_eq/=; first [done|lia]|done]].
  unfold exec, ledger, ledger_exec. rewrite Ea. destruct c; try done. inversion_clear Hn. by rewrite bool_decide_false by (intros Hx; by apply Hx).
Qed.

Definition boot_info (rsdp : Z) : BootInfo :=
  mkBootInfo (mkFramebuffer 0x300000 0xC0000000 1024 768 1024 0 0 0 0 0) (mkMemoryMap [] 1) rsdp
    (mkBootKernel 0x2000000 0x2000000 0x40000) (mkBootRamdisk 0x3000000 0x10000).

Lemma kernel_comes_up_in_order_witness :
  (exists s', kernel_main 0x100 0x200 (boot_info 0xE0000) 0x7000 ([] : list stage) = Ok (tt, s') /\ s' = running) /\
  exists s', kernel_main_ap 0x9000 1 0x300 (Some (boot_info 0xE0000)) shared = Ok (tt, s').
Proof.
  destruct (kernel_comes_up_in_order (fun st s => s = st) (Staged0 := ledger_staged) 0x100 0x200 (boot_info 0xE0000) 0x7000 [])
    as [(s' & E & Hs & _) Hap]; [split; [discriminate|]; intros s r s' [= <- _]; discriminate|reflexivity|].
  split; [exists s'; exact (conj E Hs)|]. destruct (Hap 0x9000 1 0x300 (Some (boot_info 0xE0000)) shared eq_refl) as (s1 & E1 & _). exists s1. exact E1.
Defined.

Lemma boot_without_apic_hangs_witness : kernel_main_high 0x100 0x200 (boot_info 0) 0x7000 low_half = Hang.
Proof.
  refine (boot_without_apic_hangs (fun st s => s = st) (Staged0 := ledger_staged) 0x100 0x200 (boot_info 0) 0x7000 low_half eq_refl eq_refl _).
  intros ms st s -> Ht _. unfold exec, ledger, ledger_exec. cbn [answer]. by rewrite bool_decide_true.
Defined.
