(* ===== verification/Report.v ===== *)
(** * Reports

    What the kernel prints about itself: [kmalloc_dump] of
    [kernel/memory/kmalloc.c], [exception_handler] of
    [kernel/arch/x86_64/idt.c], and the [idle_task] of [kernel/sched/sched.c],
    which sends the log. Each joins a component to the log of [Serial].

    - [lit] gives the address of each string literal, [buf] that of the array of
      [kprintf].
    - [logs ts m out] says that [m], with the literals [ts] in memory, appends
      [out] to the log and changes nothing else. *)

From S2P Require Import Prelude Lock Boot Frames Pmm Chain Dll Vmm Sched Runqueue Slab SlabProof SlabSpec Kmalloc KmallocProof KmallocSpec Strings Printf Ring Serial Vma Syscall Handlers Uprintf Acpi Task TaskSpec Reaper Devices Cpu CpuSpec Ap ApDemo Crash Init SlabDemo KmallocDemo SchedDemo TaskDemo.

Lemma cstr_unique m p l1 l2 : cstr m p l1 -> cstr m p l2 -> l1 = l2.
Proof.
  revert p l2. induction l1 as [|c l1 IH]; intros p l2 [C1 N1] [C2 N2]; destruct l2 as [|d l2]; [done|..]; cbn [app] in *;
    apply cells_cons in C1 as [H1 C1]; apply cells_cons in C2 as [H2 C2]; rewrite H1 in H2; injection H2 as E.
  - inversion_clear N2. lia.
  - inversion_clear N1. lia.
  - inversion_clear N1. inversion_clear N2. subst d. f_equal. by apply (IH (p + 1)).
Qed.

(** One conversion, without a width, behind plain text. *)
Lemma render_conv strs pre c f args t args' fuel :
  37 ∉ pre -> c < 48 \/ 57 < c -> conv_text strs c 0 32 args = Some (t, args') ->
  render (length pre + S fuel) strs (pre ++ 37 :: c :: f) args = u ← render fuel strs f args'; Some (pre ++ t ++ u).
Proof.
  intros Hp Hc Ht. rewrite render_pre by done. cbn [render]. change (37 =? 37) with true. cbn [negb].
  assert (match c :: f with 48 :: _ => 48 | _ => 32 end = 32) as -> by (destruct c as [|p|p]; [done| |done]; repeat (destruct p as [p|p|]; try done; simpl in Hc; try lia)).
  assert (match c :: f with 48 :: f' => f' | _ => c :: f end = c :: f) as -> by (destruct c as [|p|p]; [done| |done]; repeat (destruct p as [p|p|]; try done; simpl in Hc; try lia)).
  cbn [take_width]. rewrite (proj2 (andb_false_iff _ _)) by (destruct Hc; [left|right]; apply Z.leb_gt; lia). cbn. rewrite Ht. cbn.
  by destruct (render fuel strs f args').
Qed.

(** ** The console *)

Section console.
Context (lit : string -> Z) (buf : Z).

Definition say (t : string) (args : list Z) : M serial unit := Serial.kprintf buf (lit t) args.

(** The log is ready, the literals [ts] and the array are in memory. *)
Record console (ts : list string) (s : serial) : Prop := {
  co_log : log_ready s;
  co_text : forall t, t ∈ ts -> 0 < lit t < 2 ^ 64 /\ cstr (se_mem s) (lit t) (c_bytes t) /\
    disjoint_blocks (lit t) (S (length (c_bytes t))) buf 512;
  co_null : buf <> NULL;
  co_buf : owned (se_mem s) buf 512;
}.

(** Only the log and the array of [kprintf] may differ. *)
Definition same_port (s s' : serial) : Prop :=
  se_hart s' = se_hart s /\ line_status s' = line_status s /\ port_writes s' = port_writes s.

Definition logs (ts : list string) (m : M serial unit) (out : list Z) : Prop := forall s, console ts s ->
  exists s', m s = Ok (tt, s') /\ console ts s' /\ logged s' = recent (logged s ++ crlf out) /\ same_port s s'.

Lemma logs_seq ts m k o1 o2 : logs ts m o1 -> logs ts k o2 -> logs ts (m ;;; k) (o1 ++ o2).
Proof.
  intros Hm Hk s Hs. destruct (Hm s Hs) as (s1 & E1 & C1 & L1 & A1 & B1 & D1). destruct (Hk s1 C1) as (s2 & E2 & C2 & L2 & A2 & B2 & D2).
  exists s2. rewrite (bind_ok _ _ _ _ _ E1). split_and!; [done|done| |]; [|by split_and!; congruence].
  by rewrite L2, L1, recent_app, crlf_app, app_assoc.
Qed.

(** The literals as the strings of [%s]. *)
Definition literals (ts : list string) (a : Z) : option (list Z) := (fun r => c_bytes r.2) <$> list_find (fun t => lit t = a) ts.

Lemma literals_lit ts s t : console ts s -> t ∈ ts -> literals ts (lit t) = Some (c_bytes t).
Proof.
  intros Hc Ht. unfold literals. destruct (list_find (fun u => lit u = lit t) ts) as [[i u]|] eqn:E.
  - apply list_find_Some in E as (Hi & Eu & _). apply list_elem_of_lookup_2 in Hi. simpl. f_equal.
    apply (cstr_unique (se_mem s) (lit t)); [rewrite <-Eu|]; by apply (co_text _ _ Hc).
  - apply list_find_None in E. rewrite Forall_forall in E. by apply E in Ht.
Qed.

Lemma logs_say ts t args out :
  t ∈ ts -> (forall s, console ts s -> render (S (length (c_bytes t))) (literals ts) (c_bytes t) args = Some out) ->
  (length out <= 510)%nat /\ Forall (fun c => 0 < c < 256) out -> Forall (fun a => 0 <= a < 2 ^ 64) args -> logs ts (say t args) out.
Proof.
  intros Ht Hr [Hn Ho] Ha s Hs. pose proof Hs as [[L1 L2 L3] T N B]. destruct (T t Ht) as (_ & Hc & Hd).
  destruct (kprintf_spec s buf (lit t) (c_bytes t) (literals ts) args out) as (s' & E & K1 & K2 & K3 & K4 & K5 & K6 & K7); try done; [by apply (Hr s)| |].
  - split; [done|done| |done]. intros p l. unfold literals. destruct (list_find _ ts) as [[i u]|] eqn:Ef; [|done]. intros [= <-].
    apply list_find_Some in Ef as (Hi & <- & _). apply list_elem_of_lookup_2 in Hi. by destruct (T u Hi) as (_ & ? & ?).
  - exists s'. split_and!; try done. split; [split; [by rewrite K4|done|done]| |done|rewrite K3; by apply owned_upd].
    intros u Hu. destruct (T u Hu) as (? & Hcu & Hdu). split; [done|]. split; [|done]. rewrite K3. apply cstr_upd; [done|].
    unfold disjoint_blocks in *. rewrite length_app. simpl. lia.
Qed.

(** Text without conversions. *)
Lemma logs_plain ts t : t ∈ ts -> 37 ∉ c_bytes t ->
  bool_decide ((length (c_bytes t) <= 510)%nat /\ Forall (fun c => 0 < c < 256) (c_bytes t)) = true -> logs ts (say t []) (c_bytes t).
Proof.
  intros Ht Hn Hb%bool_decide_eq_true. apply logs_say; [done| |done|constructor]. intros s _.
  rewrite <-(app_nil_r (c_bytes t)) at 2. replace (S (length (c_bytes t))) with (length (c_bytes t) + 1)%nat by lia.
  rewrite render_pre by done. simpl. by rewrite app_nil_r.
Qed.
End console.

Ltac plain := apply logs_plain; [by_decide|by_decide|vm_compute; reflexivity].

(** ** The heap *)

Definition dump_texts : list string :=
  ["\n----- DUMP START -----\n"; "Block: %p | Size: %x | Free: %s\n"; "YES"; "NO"; "----- DUMP END -----\n"]%string.

Section dump.
Context {F : Type} `{FrameAllocatorOk F} (lit : string -> Z) (buf : Z).

(** The heap and the log, on one processor: its flags are those of the heap's
    state. *)
Record hlog := mkHlog { hl_heap : kheap F; hl_log : serial }.

#[local] Instance hlog_hart : HasHart hlog :=
  Lens (fun s => lget hart_of (hl_heap s)) (fun h s => mkHlog (lset hart_of h (hl_heap s)) (hl_log s)).
Definition hl_lock : lens hlog spinlock :=
  Lens (fun s => heap_lock_ (hl_heap s)) (fun l s => mkHlog (lset heap_lock l (hl_heap s)) (hl_log s)).
#[local] Instance hlog_hart_ok : HasHartOk hlog.
Proof.
  split; intros; destruct s as [k se]; cbn [lget lset hart_of hlog_hart hl_heap hl_log]; [apply lget_lset|by rewrite lset_lset|by rewrite lset_lget].
Qed.
#[local] Instance hl_lock_ok : LensOk hl_lock.
Proof. split; intros; destruct s as [[] ?]; done. Qed.
#[local] Instance hl_lock_indep : LensIndep hl_lock hart_of.
Proof. by split. Qed.

Definition on_heap {A} (m : M (kheap F) A) : M hlog A := fun s =>
  match m (hl_heap s) with
  | Ok (a, k) => Ok (a, mkHlog k (hl_log s))
  | Fault => Fault | Panic => Panic | Hang => Hang
  end.
Definition on_log {A} (m : M serial A) : M hlog A := fun s =>
  match m (lset hart_of (lget hart_of (hl_heap s)) (hl_log s)) with
  | Ok (a, x) => Ok (a, mkHlog (lset hart_of (lget hart_of x) (hl_heap s)) x)
  | Fault => Fault | Panic => Panic | Hang => Hang
  end.
Abbreviation print t args := (on_log (say lit buf t args)).

(** [while (curr)] *)
Fixpoint dump_loop (fuel : nat) (curr : Z) : M hlog unit :=
  match fuel with
  | O => hang
  | S fuel =>
    if curr =? NULL then ret tt else
    h <- on_heap (get_block curr) ;;
    print "Block: %p | Size: %x | Free: %s\n" [curr; m_size h; lit (if negb (is_free h =? 0) then "YES" else "NO")] ;;;
    h <- on_heap (get_block curr) ;;
    dump_loop fuel (m_next h)
  end.

Definition kmalloc_dump : M hlog unit :=
  critical hl_lock (
    print "\n----- DUMP START -----\n" [] ;;;
    curr <- on_heap (gets Kmalloc.heap_start) ;;
    n <- on_heap block_fuel ;;
    dump_loop n curr ;;;
    print "----- DUMP END -----\n" []).

(** *** What it prints *)

Definition block_line (bs : gmap Z m_header) (a : Z) : list Z :=
  match blk bs a with
  | Some (sz, fr) => c_bytes "Block: " ++ hex_ptr a ++ c_bytes " | Size: " ++ num_text sz 16 0 32 ++ c_bytes " | Free: " ++
      c_bytes (if fr then "YES" else "NO") ++ [10]
  | None => []
  end.
Definition dump_text (bs : gmap Z m_header) (l : list Z) : list Z :=
  c_bytes "\n----- DUMP START -----\n" ++ (l ≫= block_line bs) ++ c_bytes "----- DUMP END -----\n".

Abbreviation console := (console lit buf dump_texts).
Abbreviation logs := (logs lit buf dump_texts).

Lemma block_logs a sz (fr : bool) :
  0 <= a < 2 ^ 64 -> 0 <= sz < 2 ^ 64 ->
  logs (say lit buf "Block: %p | Size: %x | Free: %s\n" [a; sz; lit (if fr then "YES" else "NO")])
    (c_bytes "Block: " ++ hex_ptr a ++ c_bytes " | Size: " ++ num_text sz 16 0 32 ++ c_bytes " | Free: " ++ c_bytes (if fr then "YES" else "NO") ++ [10]).
Proof.
  intros Ha Hs s Hc. set (t := if fr then "YES"%string else "NO"%string).
  assert (t ∈ dump_texts) as Ht by (unfold t; destruct fr; by_decide).
  pose proof (co_text _ _ _ _ Hc t Ht) as (Hr & _ & _). pose proof (literals_lit lit buf dump_texts s t Hc Ht) as El.
  apply (logs_say lit buf dump_texts); [by_decide| | |fold t; rewrite !Forall_cons, Forall_nil; lia|done].
  - intros s' _. fold t. change (S (length _)) with (length (c_bytes "Block: ") + S (length (c_bytes " | Size: ") + S (length (c_bytes " | Free: ") + S 5)))%nat.
    change (c_bytes "Block: %p | Size: %x | Free: %s\n") with (c_bytes "Block: " ++ 37 :: 112 :: (c_bytes " | Size: " ++ 37 :: 120 :: (c_bytes " | Free: " ++ 37 :: 115 :: [10]))).
    rewrite (render_conv _ _ _ _ _ (hex_ptr a) [sz; lit t]); [|by_decide|lia|done].
    rewrite (render_conv _ _ _ _ _ (num_text sz 16 0 32) [lit t]); [|by_decide|lia|done].
    rewrite (render_conv _ _ _ _ _ (c_bytes t) []); [|by_decide|lia|]. 2:{ unfold conv_text. cbn -[literals]. rewrite (proj2 (Z.eqb_neq _ _)) by (unfold NULL; lia). by rewrite El. }
    cbn [render mbind option_bind]. change (10 =? 37) with false. cbn [negb mbind option_bind]. done.
  - fold t. replace (c_bytes "Block: " ++ hex_ptr a ++ c_bytes " | Size: " ++ num_text sz 16 0 32 ++ c_bytes " | Free: " ++ c_bytes t ++ [10])
      with (concat [c_bytes "Block: "; hex_ptr a; c_bytes " | Size: "; num_text sz 16 0 32; c_bytes " | Free: "; c_bytes t; [10]]) by (simpl; by rewrite ?app_nil_r).
    apply pieces_ok; [|simpl; lia]. destruct (num_text_ok sz 16 0 32) as [N1 N2]; [lia..|].
    repeat (constructor; [first [apply hex_ok|split; [lia|done]|by_decide|unfold t; destruct fr; by_decide]|]). constructor.
Qed.
(** A line of the log, on the joint state. *)
Lemma on_log_logs (m : M serial unit) out k s :
  logs m out -> hart_ok (lget hart_of k) -> console s ->
  exists s', on_log m (mkHlog k s) = Ok (tt, mkHlog k s') /\ console s' /\ logged s' = recent (logged s ++ crlf out) /\
    port_writes s' = port_writes s.
Proof.
  intros Hm Hh [[L1 L2 L3] T N B]. set (s0 := lset hart_of (lget hart_of k) s).
  destruct (Hm s0) as (s' & E & Hc & L & Eh & _ & Ep); [by split; [split|..]|]. exists s'. unfold on_log. cbn [hl_heap hl_log]. fold s0. rewrite E.
  split_and!; [|done|exact L|exact Ep]. change (lget hart_of s') with (se_hart s'). rewrite Eh. cbn [s0 se_hart lset hart_of serial_hart].
  by rewrite lset_lget.
Qed.

Lemma dump_loop_logs f start k s l1 l2 fuel :
  hrep f (blocks k) start (l1 ++ l2) -> hart_ok (lget hart_of k) -> console s -> (length l2 < fuel)%nat ->
  exists s', dump_loop fuel (default NULL (head l2)) (mkHlog k s) = Ok (tt, mkHlog k s') /\ console s' /\
    logged s' = recent (logged s ++ crlf (l2 ≫= block_line (blocks k))) /\ port_writes s' = port_writes s.
Proof.
  intros Hr Hh. revert l1 s fuel Hr. induction l2 as [|a l2 IH]; intros l1 s [|fuel] Hr Hc Hf; simpl in Hf; try lia.
  { exists s. cbn. rewrite app_nil_r. split_and!; [done|done| |done]. symmetry. apply recent_short, length_logged. }
  assert (a ∈ l1 ++ a :: l2) as Ha by (apply elem_of_app; right; by left).
  destruct (hr_blk _ _ _ _ Hr a Ha) as (sz & fr & B & Hsz & Hlo & Hhi). destruct (blk_lookup _ _ _ _ B) as (h & Hb & _ & Es & Ef).
  destruct (dll_links _ _ _ _ _ (hr_dll _ _ _ _ Hr)) as [Ha0 Hlk]. unfold lkb in Hlk. rewrite Hb in Hlk. injection Hlk as En _.
  unfold stop_of, sizeof_m_header, HHDM_OFFSET in *.
  destruct (on_log_logs _ _ k s (block_logs a sz fr ltac:(lia) ltac:(lia)) Hh Hc) as (s1 & E1 & C1 & L1 & P1).
  destruct (IH (l1 ++ [a]) s1 fuel) as (s2 & E2 & C2 & L2 & P2); [by rewrite <-app_assoc|done|lia|]. exists s2. cbn [head default dump_loop].
  assert (forall s0, on_heap (get_block a) (mkHlog k s0) = Ok (h, mkHlog k s0)) as Eg.
  { intros s0. unfold on_heap, get_block, bind, gets, deref. cbn. by rewrite Hb. }
  rewrite (proj2 (Z.eqb_neq _ _)) by done. rewrite (bind_ok _ _ _ _ _ (Eg s)), Es, <-Ef, (bind_ok _ _ _ _ _ E1), (bind_ok _ _ _ _ _ (Eg s1)), En.
  split_and!; [done|done| |congruence]. change ((a :: l2) ≫= block_line (blocks k)) with (block_line (blocks k) a ++ (l2 ≫= block_line (blocks k))).
  assert (logged s1 = recent (logged s ++ crlf (block_line (blocks k) a))) as L1' by (rewrite L1; unfold block_line; by rewrite B).
  by rewrite L2, L1', recent_app, crlf_app, app_assoc.
Qed.

(** [kmalloc_dump] logs one line for each block of the heap, in the order of the
    list, with its address, its size and whether it is free, between its two
    rules, and leaves the heap as it is and its lock free. It always returns:
    the list ends. *)
Theorem kmalloc_dump_correct k l s :
  kheap_ok k l -> console s ->
  exists k' s', kmalloc_dump (mkHlog k s) = Ok (tt, mkHlog k' s') /\
    kheap_ok k' l /\ blocks k' = blocks k /\ km_slab k' = km_slab k /\ page_words k' = page_words k /\
    logged s' = recent (logged s ++ crlf (dump_text (blocks k) l)) /\ port_writes s' = port_writes s.
Proof.
  intros Hk Hc. pose proof Hk as [Hr Hl Hok Hz Hfr]. pose proof (fa_ok_hart _ Hok : hart_ok (lget hart_of k)) as Hh.
  set (k0 := enter heap_lock k). assert (hart_ok (lget hart_of k0)) as Hh0 by (unfold k0; rewrite (lget_enter_hart heap_lock); exact Hh).
  destruct (on_log_logs _ _ k0 s (ltac:(plain) : logs (say lit buf "\n----- DUMP START -----\n" []) _) Hh0 Hc) as (s1 & E1 & C1 & L1 & P1).
  destruct (dump_loop_logs (pmm_of k) (Kmalloc.heap_start k) k0 s1 [] l (S (size (blocks k)))) as (s2 & E2 & C2 & L2 & P2); [done|done|done|by eapply hrep_length|].
  destruct (on_log_logs _ _ k0 s2 (ltac:(plain) : logs (say lit buf "----- DUMP END -----\n" []) _) Hh0 C2) as (s3 & E3 & C3 & L3 & P3).
  rewrite <-(dll_head _ _ _ (hr_dll _ _ _ _ Hr)) in E2.
  exists (after k (Kmalloc.heap_start k) (blocks k)), s3. split; [|split; [split; [exact Hr|by apply released_free|done..]|split_and!; try done; [|congruence]]].
  - unfold kmalloc_dump. rewrite (critical_ok hl_lock _ (mkHlog k s) tt (mkHlog k0 s3)); [|exact Hh|exact Hl| |done|done].
    + do 2 f_equal. unfold leave, after, k0, enter. cbn [lset lget hl_lock heap_lock hart_of hlog_hart kheap_hart set_km_slab km_slab blocks Kmalloc.heap_start heap_lock_ page_words hl_heap hl_log].
      by rewrite lset_lset, lset_lget.
    + change (enter hl_lock (mkHlog k s)) with (mkHlog k0 s). rewrite (bind_ok _ _ _ _ _ E1).
      rewrite (bind_ok _ _ _ (Kmalloc.heap_start k) (mkHlog k0 s1)), (bind_ok _ _ _ (S (size (blocks k))) (mkHlog k0 s1)) by done.
      by rewrite (bind_ok _ _ _ _ _ E2).
  - change (blocks k0) with (blocks k) in L2. unfold dump_text. by rewrite L3, L2, L1, recent_app, <-app_assoc, recent_app, <-!app_assoc, !crlf_app.
Qed.
End dump.

(** ** Exceptions *)

Definition exception_texts : list string :=
  ["\n!!!!!!!!!!!!!!!!!!!!!!!!!!!!!!!!!!!!!!\n"; "!!!          CPU EXCEPTION         !!!\n"; "!!!!!!!!!!!!!!!!!!!!!!!!!!!!!!!!!!!!!!\n";
   "Vector: %p | Error Code: %p\n"; "RIP:    %p\n"; "CR2 (Fault Address): %p\n"; "RAX:    %p | RBX: %p\n"; "Stack at: %p\n";
   "Unhandled CPU Exception"]%string.

(** The fields of the frame it prints. *)
Record xframe := mkXframe { x_vector : Z; x_error : Z; x_rip : Z; x_rax : Z; x_rbx : Z; x_rsp : Z }.

Definition xframe_ok (f : xframe) : Prop :=
  Forall (fun a => 0 <= a < 2 ^ 64) [x_vector f; x_error f; x_rip f; x_rax f; x_rbx f; x_rsp f].

Section exception.
Context {F : Type} `{FrameAllocator F} (lit : string -> Z) (buf : Z).

(** What [exception_handler] logs before it panics *)
Definition exception_log (f : xframe) (cr2 : Z) : M serial unit :=
  say lit buf "\n!!!!!!!!!!!!!!!!!!!!!!!!!!!!!!!!!!!!!!\n" [] ;;;
  say lit buf "!!!          CPU EXCEPTION         !!!\n" [] ;;;
  say lit buf "!!!!!!!!!!!!!!!!!!!!!!!!!!!!!!!!!!!!!!\n" [] ;;;
  say lit buf "Vector: %p | Error Code: %p\n" [x_vector f; x_error f] ;;;
  say lit buf "RIP:    %p\n" [x_rip f] ;;;
  say lit buf "CR2 (Fault Address): %p\n" [cr2] ;;;
  say lit buf "RAX:    %p | RBX: %p\n" [x_rax f; x_rbx f] ;;;
  say lit buf "Stack at: %p\n" [x_rsp f] ;;;
  say lit buf "!!!!!!!!!!!!!!!!!!!!!!!!!!!!!!!!!!!!!!\n" [].

(** [exception_handler], up to the endless loop of [panic]; [cr2] is the
    register *)
Definition exception_handler (f : xframe) (cr2 : Z) : M crash unit :=
  on_port (exception_log f cr2) ;;;
  panic_report (F := F) (lit "Unhandled CPU Exception").

Definition exception_text (f : xframe) (cr2 : Z) : list Z :=
  c_bytes "\n!!!!!!!!!!!!!!!!!!!!!!!!!!!!!!!!!!!!!!\n" ++ c_bytes "!!!          CPU EXCEPTION         !!!\n" ++
  c_bytes "!!!!!!!!!!!!!!!!!!!!!!!!!!!!!!!!!!!!!!\n" ++
  (c_bytes "Vector: " ++ hex_ptr (x_vector f) ++ c_bytes " | Error Code: " ++ hex_ptr (x_error f) ++ [10]) ++
  (c_bytes "RIP:    " ++ hex_ptr (x_rip f) ++ [10]) ++ (c_bytes "CR2 (Fault Address): " ++ hex_ptr cr2 ++ [10]) ++
  (c_bytes "RAX:    " ++ hex_ptr (x_rax f) ++ c_bytes " | RBX: " ++ hex_ptr (x_rbx f) ++ [10]) ++
  (c_bytes "Stack at: " ++ hex_ptr (x_rsp f) ++ [10]) ++ c_bytes "!!!!!!!!!!!!!!!!!!!!!!!!!!!!!!!!!!!!!!\n".

(** A line with one pointer, and one with two. *)
Lemma logs_ptr ts t pre a :
  t ∈ ts -> c_bytes t = pre ++ [37; 112; 10] -> bool_decide (37 ∉ pre /\ (length pre <= 66)%nat /\ Forall (fun c => 0 < c < 256) pre) = true ->
  0 <= a < 2 ^ 64 -> logs lit buf ts (say lit buf t [a]) (pre ++ hex_ptr a ++ [10]).
Proof.
  intros Ht Et (Hp & Hl & Ho)%bool_decide_eq_true Ha. apply logs_say; [done| | |by constructor].
  - intros s _. rewrite Et, length_app. change (length [37; 112; 10]) with 3%nat. rewrite <-Nat.add_succ_r.
    by rewrite (render_conv _ pre 112 [10] [a] (hex_ptr a) []) by (done || lia).
  - replace (pre ++ hex_ptr a ++ [10]) with (concat [pre; hex_ptr a; [10]]) by (simpl; by rewrite ?app_nil_r).
    apply pieces_ok; [|simpl; lia]. repeat (constructor; [first [apply hex_ok|by split|by_decide]|]). constructor.
Qed.

Lemma logs_ptr2 ts t pre mid a b :
  t ∈ ts -> c_bytes t = pre ++ [37; 112] ++ mid ++ [37; 112; 10] ->
  bool_decide ((37 ∉ pre /\ (length pre <= 66)%nat /\ Forall (fun c => 0 < c < 256) pre) /\
    (37 ∉ mid /\ (length mid <= 66)%nat /\ Forall (fun c => 0 < c < 256) mid)) = true ->
  0 <= a < 2 ^ 64 -> 0 <= b < 2 ^ 64 -> logs lit buf ts (say lit buf t [a; b]) (pre ++ hex_ptr a ++ mid ++ hex_ptr b ++ [10]).
Proof.
  intros Ht Et ((Hp & Hl & Ho) & (Hp' & Hl' & Ho'))%bool_decide_eq_true Ha Hb. apply logs_say; [done| | |rewrite !Forall_cons, Forall_nil; lia].
  - intros s _. rewrite Et, !length_app. change (length [37; 112; 10]) with 3%nat. change (length [37; 112]) with 2%nat.
    replace (S (length pre + (2 + (length mid + 3)))) with (length pre + S (length mid + S 4))%nat by lia. cbn [app].
    rewrite (render_conv _ pre 112 _ [a; b] (hex_ptr a) [b]), (render_conv _ mid 112 [10] [b] (hex_ptr b) []) by (done || lia). done.
  - replace (pre ++ hex_ptr a ++ mid ++ hex_ptr b ++ [10]) with (concat [pre; hex_ptr a; mid; hex_ptr b; [10]]) by (simpl; by rewrite ?app_nil_r).
    apply pieces_ok; [|simpl; lia]. repeat (constructor; [first [apply hex_ok|by split|by_decide]|]). constructor.
Qed.

Lemma exception_logs f cr2 : xframe_ok f -> 0 <= cr2 < 2 ^ 64 -> logs lit buf exception_texts (exception_log f cr2) (exception_text f cr2).
Proof.
  intros Hf Hc. unfold xframe_ok in Hf. rewrite !Forall_cons in Hf. destruct Hf as (? & ? & ? & ? & ? & ? & _). unfold exception_log, exception_text.
  repeat (apply logs_seq; [first [plain|by apply logs_ptr; [by_decide|vm_compute; reflexivity|vm_compute; reflexivity|]|by apply logs_ptr2; [by_decide|vm_compute; reflexivity|vm_compute; reflexivity|..]]|]).
  plain.
Qed.
(** An exception is reported and the machine stops: the other processors are
    told to halt and the port carries the report of [panic], its reason the
    unhandled exception. The vector, the error code, the instruction, the faulting
    address and the registers go to the log only: [panic] does not flush it, and
    no processor is left to, so they are never sent. *)
Theorem exception_details_stay_in_log (s : @crash F) f cr2 ctx c x gs kgs :
  let r := mc_regs (c_mach s) in
  let t := panic_text (ctx_id x) gs kgs (c_bytes "Unhandled CPU Exception") in
  console lit buf exception_texts (c_serial s) -> xframe_ok f -> 0 <= cr2 < 2 ^ 64 ->
  lapic_base (c_dev s) <> NULL -> Z.of_nat (busy_reads (icr_busy (c_dev s))) < 1000000 ->
  r_msr r !! MSR_GS_BASE = Some gs -> 0 <= gs < 2 ^ 64 -> r_msr r !! MSR_KERNEL_GS_BASE = Some kgs -> 0 <= kgs < 2 ^ 64 ->
  mc_ext (c_mach s) !! gs = Some ctx -> x_self ctx = c -> cpus (mc_sched (c_mach s)) !! c = Some x ->
  (length t <= chances (line_status (c_serial s)))%nat ->
  exists s', exception_handler f cr2 s = Ok (tt, s') /\
    logged (c_serial s') = recent (logged (c_serial s) ++ crlf (exception_text f cr2)) /\
    port_writes (c_serial s') = port_writes (c_serial s) ++ ((COM1,.) <$> t) /\
    lapic_out (c_dev s') = lapic_out (c_dev s) ++ [(LAPIC_ICR_LOW, 0xC40FE)].
Proof.
  intros r t Hc Hf Hcr Hb Hbusy Hgs Rgs Hkgs Rkgs Hext Hself Hctx Hlen. destruct s as [mc d se]. cbn [c_mach c_dev c_serial] in *.
  destruct (exception_logs f cr2 Hf Hcr se Hc) as (se1 & E1 & C1 & L1 & _ & Els & Ep). unfold exception_handler.
  rewrite (bind_ok _ _ _ tt (mkCrash mc d se1)) by (unfold on_port; cbn; by rewrite E1).
  destruct (co_text _ _ _ _ C1 "Unhandled CPU Exception"%string) as (Hl & Hcs & _); [by_decide|].
  destruct (panic_report_correct (mkCrash mc d se1) (lit "Unhandled CPU Exception") (c_bytes "Unhandled CPU Exception") ctx c x gs kgs)
    as (s' & E2 & _ & P2 & A2 & L2 & _); try done; [unfold NULL; lia|cbn [c_serial]; by rewrite Els|].
  exists s'. split_and!; [done|by rewrite L2|by rewrite P2, <-Ep|done].
Qed.
End exception.

(** ** The idle task *)

Section idle.
Context {E : Type} `{TaskEnv E} `{!EnvReturns E} `{!PrintReturns E}.

Record idler := mkIdler { id_kernel : @kernel E; id_log : serial }.

Definition on_kernel {A} (m : M kernel A) : M idler A := fun s =>
  match m (id_kernel s) with
  | Ok (a, k) => Ok (a, mkIdler k (id_log s))
  | Fault => Fault | Panic => Panic | Hang => Hang
  end.
Definition on_output {A} (m : M serial A) : M idler A := fun s =>
  match m (id_log s) with
  | Ok (a, x) => Ok (a, mkIdler (id_kernel s) x)
  | Fault => Fault | Panic => Panic | Hang => Hang
  end.

(** One turn of [idle_task]; the pauses and the [hlt] at its end change
    nothing. The messages of the reaper are in the services' state, not in
    [id_log]. *)
Definition idle_task_turn : M idler unit :=
  c <- on_kernel (Task.on_sched Sched.get_cpu) ;;
  x <- on_kernel (Task.on_sched (get_ctx c)) ;;
  when (ctx_id x =? 0) (on_kernel sched_reap ;;; on_output log_flush).
(** A turn of the idle task always returns. On processor 0 it reaps every zombie
    and sends as much of the log as the port accepts; on the others it changes
    nothing, so the dead of every processor wait for processor 0 to idle. *)
Theorem idle_task_turn_correct (k : @kernel E) se v l tko al x :
  TaskSpec.kernel_ok k v l -> zombies k (vset Dead [] v) l tko al (v Dead) -> log_ok se ->
  cpus (k_sched k) !! this_cpu (k_sched k) = Some x ->
  if ctx_id x =? 0 then
    exists k' se', idle_task_turn (mkIdler k se) = Ok (tt, mkIdler k' se') /\
      TaskSpec.kernel_ok k' (vset Dead [] v) (survivors (v Dead) l) /\ (forall z, z ∈ v Dead -> tasks (k_sched k') !! z = None) /\
      k_env k' = reap_all tko al (v Dead) (k_env k) /\
      let n := (accepts (line_status se) `min` length (logged se))%nat in
      logged se' = drop n (logged se) /\ port_writes se' = port_writes se ++ ((COM1,.) <$> take n (logged se))
  else idle_task_turn (mkIdler k se) = Ok (tt, mkIdler k se).
Proof.
  intros Hk Hz Hs Hx. unfold idle_task_turn.
  rewrite (bind_ok _ _ _ (this_cpu (k_sched k)) (mkIdler k se)) by (by destruct k).
  rewrite (bind_ok _ _ _ x (mkIdler k se)); [|unfold on_kernel, Task.on_sched, within, get_ctx, bind, gets, deref; cbn; rewrite Hx; by destruct k].
  destruct (ctx_id x =? 0); [|done]. cbn [when].
  destruct (reap_spec k v l tko al Hk Hz) as (k' & E1 & Hk' & Hd & _ & He & _).
  destruct (log_flush_spec se Hs) as (se' & E2 & Hl & Hp & _). exists k', se'.
  rewrite (bind_ok _ _ _ tt (mkIdler k' se)) by (unfold on_kernel; cbn [id_kernel id_log]; by rewrite E1).
  split; [unfold on_output; cbn [id_kernel id_log]; by rewrite E2|]. by split_and!.
Qed.
End idle.

(** ** Numbers *)

Section number.
Context {S : Type} (ser : lens S serial) (frame : lens S iframe) `{!LensOk ser, !LensOk frame, !LensIndep ser frame}.
Context (h : @handlers S) (report : Z -> M S unit) (frame_addr : Z) (lit : string -> Z) (buf : Z).

Definition sys_kprint_hex_handler : M S Z :=
  f <- gets (lget frame) ;; on_serial ser (sys_kprint_hex buf (lit "%p\n") (rdi f)).

(** A number a user task prints arrives in the log, as a pointer on a line of
    its own. *)
Theorem u_print_hex_correct s val :
  h_kprint_hex h = sys_kprint_hex_handler -> console lit buf ["%p\n"%string] (lget ser s) -> 0 <= val < 2 ^ 64 ->
  exists s', u_print_hex frame h report frame_addr val s = Ok (tt, s') /\
    logged (lget ser s') = recent (logged (lget ser s) ++ crlf (hex_ptr val ++ [10])) /\ port_writes (lget ser s') = port_writes (lget ser s).
Proof.
  intros Hh Hc Hv. destruct (user_calls_reach frame h report frame_addr 0 0 0 0 val) as (_ & _ & _ & _ & _ & _ & Hr & _).
  destruct (logs_ptr lit buf ["%p\n"%string] "%p\n" [] val ltac:(by_decide) eq_refl eq_refl Hv (lget ser s) Hc) as (se' & E & _ & L & _ & _ & P).
  eexists. split; [apply (Hr s 0 (lset ser se' (lset frame (mkFrame SYS_KPRINT_HEX val 0) s)))|].
  - rewrite Hh. unfold sys_kprint_hex_handler, bind, gets, on_serial. rewrite lget_lset, lget_lset_l. cbn [rdi].
    unfold sys_kprint_hex, bind. unfold say in E. by rewrite E.
  - rewrite lget_lset_l, lget_lset. by split.
Qed.
End number.

(** ** Concrete consoles *)

(** The literals [ts] at their places, the array of [kprintf] at 16. *)
Definition place_in (ts : list string) (t : string) : Z := 0x10000 + 256 * Z.of_nat (default 0%nat (fst <$> list_find (fun u => u = t) ts)).
Definition console_mem (ts : list string) : mem := foldr (fun t m => upd m (place_in ts t) (c_bytes t ++ [0])) (upd ∅ 16 (replicate 512 0)) ts.
Definition demo_console (ts : list string) (status : list Z) : serial := set_se_mem (console_mem ts) (log_demo status).

Definition console_check (ts : list string) : bool := forallb (fun t =>
  forallb (fun p => bool_decide (console_mem ts !! (place_in ts t + Z.of_nat p.1) = Some p.2)) (imap pair (c_bytes t ++ [0])) &&
  forallb (fun c => (0 <? c) && (c <? 256)) (c_bytes t)) ts.

Lemma demo_console_ok ts status : console_check ts = true -> (length ts <= 1000)%nat -> console (place_in ts) 16 ts (demo_console ts status).
Proof.
  intros Hb Hn. split; [by split; [by eexists|done|by split]| |done|].
  - intros t Ht%list_elem_of_In. unfold console_check in Hb. rewrite forallb_forall in Hb. apply Hb, andb_true_iff in Ht as [H1 H2].
    assert (default 0%nat (fst <$> list_find (fun u => u = t) ts) <= length ts)%nat as Hi.
    { destruct (list_find _ ts) as [[i u]|] eqn:Ef; [|simpl; lia]. apply list_find_Some in Ef as (Hi%lookup_lt_Some & _). simpl. lia. }
    unfold place_in. split; [lia|]. split; [by apply cstr_decide|unfold disjoint_blocks; lia].
  - unfold demo_console, console_mem. cbn [set_se_mem se_mem]. assert (owned (upd ∅ 16 (replicate 512 0)) 16 512) as Ho by (apply owned_decide; vm_compute; reflexivity).
    generalize (place_in ts). intros pl. clear Hb Hn. induction ts as [|t ts IH]; [done|]. by apply owned_upd.
Qed.

Lemma kmalloc_dump_correct_witness :
  exists k' s', kmalloc_dump (place_in dump_texts) 16 (mkHlog one_block (demo_console dump_texts [])) = Ok (tt, mkHlog k' s') /\ blocks k' = blocks one_block.
Proof.
  destruct one_block_ok as (l & sz & Hk & _).
  destruct (kmalloc_dump_correct (place_in dump_texts) 16 one_block l (demo_console dump_texts []) Hk
    (demo_console_ok dump_texts [] ltac:(vm_compute; reflexivity) ltac:(simpl; lia))) as (k' & s' & E & _ & B & _).
  exists k', s'. exact (conj E B).
Defined.

(** A page fault at 0x1000 on the bootstrap processor. *)
Lemma exception_details_stay_in_log_witness : exists s' x,
  exception_handler (place_in exception_texts) 16 (mkXframe 14 2 0x8000 0 1 0x9000) 0x1000
    (mkCrash bsp_mach (dev_demo 0 [true; false]) (demo_console exception_texts (replicate 400 0x60))) = Ok (tt, s') /\
  port_writes (c_serial s') = (COM1,.) <$> panic_text (ctx_id x) (phys_to_virt 0x300000) (phys_to_virt 0x300000) (c_bytes "Unhandled CPU Exception").
Proof.
  destruct (cpus (mc_sched bsp_mach) !! phys_to_virt 0x300000) as [x|] eqn:Ex; [|vm_compute in Ex; discriminate].
  destruct (mc_ext bsp_mach !! phys_to_virt 0x300000) as [y|] eqn:Ey; [|vm_compute in Ey; discriminate].
  destruct (exception_details_stay_in_log (place_in exception_texts) 16 (mkCrash bsp_mach (dev_demo 0 [true; false]) (demo_console exception_texts (replicate 400 0x60)))
    (mkXframe 14 2 0x8000 0 1 0x9000) 0x1000 y (phys_to_virt 0x300000) x (phys_to_virt 0x300000) (phys_to_virt 0x300000)) as (s' & E & _ & P & _).
  - apply demo_console_ok; [vm_compute; reflexivity|simpl; lia].
  - unfold xframe_ok. rewrite !Forall_cons, Forall_nil. cbn. lia.
  - lia.
  - vm_compute. discriminate.
  - vm_compute. reflexivity.
  - vm_compute. reflexivity.
  - split; [vm_compute; discriminate|vm_compute; reflexivity].
  - vm_compute. reflexivity.
  - split; [vm_compute; discriminate|vm_compute; reflexivity].
  - exact Ey.
  - vm_compute in Ey. injection Ey as <-. vm_compute. reflexivity.
  - exact Ex.
  - vm_compute in Ex. injection Ex as <-. apply Nat.leb_le. vm_compute. reflexivity.
  - exists s', x. exact (conj E P).
Defined.

(** Processor 0 idles: the exited task is gone and the first character is out. *)
Lemma idle_task_turn_correct_witness : exists k' se',
  idle_task_turn (H := log_task) (mkIdler exited_kernel (log_demo [0x60; 0])) = Ok (tt, mkIdler k' se') /\ tasks (k_sched k') !! USER = None /\ port_writes se' = [(COM1, 65)].
Proof.
  pose proof (idle_task_turn_correct (E := log_env) (H := log_task) (EnvReturns0 := log_returns) (PrintReturns0 := log_prints) exited_kernel (log_demo [0x60; 0]) (vset Dead [USER] (fun _ => [])) [MAIN; USER]
    (fun _ => task_at exited_sched USER) (fun _ => []) (demo_cpu 0 MAIN IDLE0) exited_kernel_ok exited_zombies (log_demo_ok _) ltac:(vm_compute; reflexivity)) as Hi.
  destruct Hi as (k' & se' & E & _ & Hd & _ & _ & Hp).
  exists k', se'. split; [exact E|]. split; [apply Hd; rewrite vset_eq; by left|exact Hp].
Defined.
