(* ===== verification/Vfs.v ===== *)
(** * The virtual file system

    Models [kernel/fs/vfs.c].

    - [vnode] is [vfs_node_t] and [vops] is [vfs_ops_t]; a function pointer is
      an address, [NULL] when the file system does not provide the operation.
    - The file systems behind the function pointers are not part of the
      repository, and neither is [strtok_r], which the file calls: they are the
      operations of the class [Drivers]. [strtok_r] returns the token and the
      new value of [*saveptr].
    - The lock of a node is the mutex of [Mutex], on the same scheduler. A
      caller that is put on the wait list of a mutex yields there: the routine
      ends with [Hang], since nothing but another task can let it go on.
    - [buffer] is the address of the local array of [vfs_find_path]. *)

From S2P Require Import Prelude Lock Chain Sched Mutex Strings.

(** ** Data *)

Definition VFS_FILE : Z := 0x01.
Definition VFS_DIRECTORY : Z := 0x02.
Definition VFS_CHARDEVICE : Z := 0x03.
Definition VFS_BLOCKDEVICE : Z := 0x04.
Definition VFS_PIPE : Z := 0x05.
Definition VFS_SYMLINK : Z := 0x06.
Definition VFS_MOUNTPOINT : Z := 0x08.

Record vops := mkVops {
  op_read : Z; op_write : Z; op_open : Z; op_close : Z; op_finddir : Z; op_readdir : Z; op_mkdir : Z; op_create : Z;
}.

Record vnode := mkVnode {
  vn_name : list Z; vn_flags : Z; vn_mask : Z; vn_uid : Z; vn_gid : Z; vn_size : Z; vn_inode_num : Z;
  vn_lock : mutex; vn_ops : Z; vn_private_data : Z; vn_ptr : Z;
}.

Definition set_vn_name (v : list Z) (n : vnode) : vnode :=
  mkVnode v (vn_flags n) (vn_mask n) (vn_uid n) (vn_gid n) (vn_size n) (vn_inode_num n) (vn_lock n) (vn_ops n) (vn_private_data n) (vn_ptr n).
Definition set_vn_flags (v : Z) (n : vnode) : vnode :=
  mkVnode (vn_name n) v (vn_mask n) (vn_uid n) (vn_gid n) (vn_size n) (vn_inode_num n) (vn_lock n) (vn_ops n) (vn_private_data n) (vn_ptr n).
Definition set_vn_lock (v : mutex) (n : vnode) : vnode :=
  mkVnode (vn_name n) (vn_flags n) (vn_mask n) (vn_uid n) (vn_gid n) (vn_size n) (vn_inode_num n) v (vn_ops n) (vn_private_data n) (vn_ptr n).
Definition set_vn_ptr (v : Z) (n : vnode) : vnode :=
  mkVnode (vn_name n) (vn_flags n) (vn_mask n) (vn_uid n) (vn_gid n) (vn_size n) (vn_inode_num n) (vn_lock n) (vn_ops n) (vn_private_data n) v.

(** [sizeof(vfs_node_t)]: the lock is aligned to 64 bytes and takes 192. *)
Definition sizeof_vnode : Z := 576.

(** A node of zero bytes. *)
Definition zero_node : vnode := mkVnode [] 0 0 0 0 0 0 (mkMutex 0 (mkSpinlock 0 0 0) NULL NULL) NULL NULL NULL.

(** The nodes, the tables of operations, the scheduler, byte memory and
    [vfs_root]. *)
Record vfs := mkVfs { v_nodes : gmap Z vnode; v_ops : gmap Z vops; v_sched : sched; v_mem : mem; vfs_root : Z }.

Definition set_v_nodes (n : gmap Z vnode) (s : vfs) : vfs := mkVfs n (v_ops s) (v_sched s) (v_mem s) (vfs_root s).
Definition set_v_mem (m : mem) (s : vfs) : vfs := mkVfs (v_nodes s) (v_ops s) (v_sched s) m (vfs_root s).
Definition set_vfs_root (r : Z) (s : vfs) : vfs := mkVfs (v_nodes s) (v_ops s) (v_sched s) (v_mem s) r.

(** ** What the file calls *)

Class Drivers := {
  vfs_kmalloc : Z -> M vfs Z;
  strtok_r : Z -> list Z -> Z -> M mem (Z * Z);
  call_read : Z -> Z -> Z -> Z -> Z -> M vfs Z;
  call_write : Z -> Z -> Z -> Z -> Z -> M vfs Z;
  call_open : Z -> Z -> Z -> M vfs unit;
  call_close : Z -> Z -> M vfs unit;
  call_finddir : Z -> Z -> Z -> M vfs Z;
}.

(** ** Operations *)

Definition get_node (n : Z) : M vfs vnode := l <- gets v_nodes ;; deref (l !! n).
Definition upd_node (n : Z) (f : vnode -> vnode) : M vfs unit :=
  x <- get_node n ;; modify (fun s => set_v_nodes (<[n := f x]> (v_nodes s)) s).
Definition get_ops (o : Z) : M vfs vops := l <- gets v_ops ;; deref (l !! o).
Definition on_vmem {A} (m : M mem A) : M vfs A := fun s =>
  match m (v_mem s) with
  | Ok (a, x) => Ok (a, set_v_mem x s)
  | Fault => Fault
  | Panic => Panic
  | Hang => Hang
  end.

(** A mutex routine on the lock of the node [n] *)
Definition on_lock {A} (n : Z) (m : M mstate A) : M vfs A := fun s =>
  match v_nodes s !! n with
  | None => Fault
  | Some x =>
    match m (mkMstate (v_sched s) (vn_lock x)) with
    | Ok (a, ms) => Ok (a, mkVfs (<[n := set_vn_lock (ms_mutex ms) x]> (v_nodes s)) (v_ops s) (ms_sched ms) (v_mem s) (vfs_root s))
    | Fault => Fault
    | Panic => Panic
    | Hang => Hang
    end
  end.
Definition lock_node (n : Z) : M vfs unit := b <- on_lock n mutex_lock ;; if b : bool then ret tt else hang.
Definition unlock_node (n : Z) : M vfs unit := on_lock n mutex_unlock.

Section vfs.
Context `{Drivers}.

Definition vfs_init : M vfs unit :=
  root <- vfs_kmalloc sizeof_vnode ;;
  modify (set_vfs_root root) ;;;
  (if root =? NULL then fault else modify (fun s => set_v_nodes (<[root := zero_node]> (v_nodes s)) s)) ;;;
  upd_node root (set_vn_name [47]) ;;;
  upd_node root (set_vn_flags VFS_DIRECTORY) ;;;
  upd_node root (set_vn_lock (mkMutex 1 spinlock_init NULL NULL)).

Definition vfs_get_root : M vfs Z := gets vfs_root.

(** [node->ops && node->ops->field] *)
Definition has_op (node : vnode) (field : vops -> Z) : M vfs bool :=
  if vn_ops node =? NULL then ret false else
  o <- get_ops (vn_ops node) ;; ret (negb (field o =? NULL)).

(** The mount point: the lock moves on to the mounted root *)
Definition cross_mount (current : Z) : M vfs Z :=
  x <- get_node current ;;
  if negb (vn_ptr x =? NULL) then
    unlock_node current ;;;
    lock_node (vn_ptr x) ;;;
    ret (vn_ptr x)
  else ret current.

(** [while (token != NULL)]: at most [fuel] components *)
Fixpoint walk (fuel : nat) (current token saveptr : Z) : M vfs Z :=
  match fuel with
  | O => hang
  | S fuel =>
    if token =? NULL then ret current else
    lock_node current ;;;
    current <- cross_mount current ;;
    x <- get_node current ;;
    b <- has_op x op_finddir ;;
    if b : bool then
      o <- get_ops (vn_ops x) ;;
      next <- call_finddir (op_finddir o) current token ;;
      unlock_node current ;;;
      if next =? NULL then ret NULL else
      t <- on_vmem (strtok_r NULL [47] saveptr) ;;
      walk fuel next t.1 t.2
    else
      unlock_node current ;;;
      ret NULL
  end.

Definition vfs_find_path (buffer path : Z) : M vfs Z :=
  if path =? NULL then ret NULL else
  c <- on_vmem (load8 path) ;;
  if negb (c =? 47) then ret NULL else
  c <- on_vmem (load8 (path + 1)) ;;
  if c =? 0 then vfs_get_root else
  root <- vfs_get_root ;;
  on_vmem (strncpy buffer (path + 1) 256) ;;;
  t <- on_vmem (strtok_r buffer [47] NULL) ;;
  walk 257 root t.1 t.2.

Definition vfs_open (buffer path flags : Z) : M vfs Z :=
  node <- vfs_find_path buffer path ;;
  if node =? NULL then ret node else
  x <- get_node node ;;
  b <- has_op x op_open ;;
  when b (o <- get_ops (vn_ops x) ;; call_open (op_open o) node flags) ;;;
  ret node.

Definition vfs_close (node : Z) : M vfs unit :=
  if node =? NULL then ret tt else
  x <- get_node node ;;
  b <- has_op x op_close ;;
  when b (o <- get_ops (vn_ops x) ;; call_close (op_close o) node).

(** [node->flags & (VFS_FILE | VFS_CHARDEVICE | VFS_PIPE)] *)
Definition readable (flags : Z) : bool :=
  negb (Z.land flags (Z.lor (Z.lor VFS_FILE VFS_CHARDEVICE) VFS_PIPE) =? 0).

(** Read and write differ only in the operation they call. [node->ops] is not
    tested before [node->ops->read] is read *)
Definition transfer (field : vops -> Z) (call : Z -> Z -> Z -> Z -> Z -> M vfs Z) (node offset size buffer : Z) : M vfs Z :=
  if node =? NULL then ret 0 else
  x <- get_node node ;;
  if negb (readable (vn_flags x)) then ret 0 else
  o <- get_ops (vn_ops x) ;;
  if field o =? NULL then ret 0 else
  lock_node node ;;;
  bytes <- call (field o) node offset size buffer ;;
  unlock_node node ;;;
  ret bytes.
Definition vfs_read : Z -> Z -> Z -> Z -> M vfs Z := transfer op_read call_read.
Definition vfs_write : Z -> Z -> Z -> Z -> M vfs Z := transfer op_write call_write.

Definition vfs_mount (buffer path local_root : Z) : M vfs Z :=
  node <- vfs_find_path buffer path ;;
  if node =? NULL then ret (-1) else
  lock_node node ;;;
  x <- get_node node ;;
  upd_node node (set_vn_flags (Z.lor (vn_flags x) VFS_MOUNTPOINT)) ;;;
  upd_node node (set_vn_ptr local_root) ;;;
  unlock_node node ;;;
  ret 0.
End vfs.
