(* ===== verification/VfsSpec.v ===== *)
(** * The virtual file system: correctness

    Path resolution against a reference definition on lists of components,
    mounts, and the locking around reads and writes. *)

From S2P Require Import Prelude Lock Chain Sched Mutex Strings Vfs.

(** ** Paths *)

(** The components of a path, cut at the slashes; empty ones are dropped. *)
Fixpoint comps (cur l : list Z) : list (list Z) :=
  match l with
  | [] => match cur with [] => [] | _ => [cur] end
  | c :: l => if c =? 47 then match cur with [] => comps [] l | _ => cur :: comps [] l end else comps (cur ++ [c]) l
  end.

(** The leading slashes are skipped; the first word. *)
Fixpoint skip (l : list Z) : list Z :=
  match l with
  | c :: r => if c =? 47 then skip r else l
  | [] => []
  end.
Fixpoint word (l : list Z) : list Z :=
  match l with
  | c :: r => if c =? 47 then [] else c :: word r
  | [] => []
  end.

Lemma comps_skip l : comps [] l = comps [] (skip l).
Proof. induction l as [|c l IH]; [done|]. cbn [comps skip]. destruct (c =? 47) eqn:E; [done|]. cbn [comps]. by rewrite E. Qed.

Lemma skip_suffix l : exists k, l = replicate k 47 ++ skip l.
Proof.
  induction l as [|c l [k IH]]; [by exists 0%nat|]. cbn [skip]. destruct (Z.eqb_spec c 47) as [->|]; [|by exists 0%nat].
  exists (S k). simpl. by rewrite IH at 1.
Qed.

Lemma skip_word c r l : skip l = c :: r -> word (skip l) = c :: word r.
Proof.
  induction l as [|a l IH]; [done|]. cbn [skip]. destruct (a =? 47) eqn:E; [done|]. intros [= -> ->]. cbn [word]. by rewrite E.
Qed.

(** The string is its first word, and then either ends or goes on after a slash. *)
Lemma word_rest l : l = word l \/ exists r, l = word l ++ 47 :: r.
Proof.
  induction l as [|c l IH]; [by left|]. cbn [word]. destruct (Z.eqb_spec c 47) as [->|]; [right; by exists l|].
  destruct IH as [IH|[r IH]]; [left; by rewrite <-IH|right; exists r; by rewrite IH at 1].
Qed.

Lemma comps_word cur l : cur ++ word l <> [] ->
  comps cur l = (cur ++ word l) :: comps [] (drop (S (length (word l))) l).
Proof.
  revert cur. induction l as [|c l IH]; intros cur Hne; cbn [word comps] in *.
  - rewrite app_nil_r in *. by destruct cur.
  - destruct (c =? 47) eqn:E; cbn [length drop] in *.
    + rewrite app_nil_r in *. by destruct cur.
    + rewrite IH by (destruct cur; done). by rewrite <-app_assoc.
Qed.

Lemma length_comps cur l : (length (comps cur l) <= length l + length (match cur with [] => [] | _ => [cur] end))%nat.
Proof.
  revert cur. induction l as [|c l IH]; intros cur; cbn [comps]; [by destruct cur|]. destruct (c =? 47).
  - specialize (IH []). destruct cur; simpl in *; lia.
  - specialize (IH (cur ++ [c])). destruct cur; simpl in *; lia.
Qed.

(** ** What the file systems and the library promise *)

(** A [strtok_r] that cuts the string at [p], or at the saved pointer when [p]
    is [NULL]: it skips the slashes, ends the word with a NUL over the slash
    behind it, and saves the address behind that. *)
Definition strtok_law (tok : Z -> list Z -> Z -> M mem (Z * Z)) : Prop :=
  forall p sp l m, let start := if p =? NULL then sp else p in
  start <> NULL -> cstr m start l ->
  let t := start + Z.of_nat (length l - length (skip l)) in
  let e := t + Z.of_nat (length (word (skip l))) in
  (skip l = [] -> exists sp', tok p [47] sp m = Ok (NULL, sp', m)) /\
  (skip l <> [] -> tok p [47] sp m =
     if decide (e = start + Z.of_nat (length l)) then Ok (t, e, m) else Ok (t, e + 1, <[e := 0]> m)).

(** File systems that look names up: the function at [f] finds [entry f d name]
    in the directory [d] and changes nothing. *)
Class Lookups `{Drivers} := {
  entry : Z -> Z -> list Z -> Z;
  strtok_ok : strtok_law strtok_r;
  finddir_ok : forall f d t name s, cstr (v_mem s) t name -> call_finddir f d t s = Ok (entry f d name, s);
}.

Section resolve.
Context `{Lookups}.
Context (nodes : gmap Z vnode) (ops : gmap Z vops).

(** Where a name is looked up: in the file system mounted at the node, if any. *)
Definition attached (n : Z) : Z :=
  match nodes !! n with Some x => if vn_ptr x =? NULL then n else vn_ptr x | None => n end.
Definition finder (n : Z) : Z :=
  match nodes !! n with
  | Some x => if vn_ops x =? NULL then NULL else match ops !! vn_ops x with Some o => op_finddir o | None => NULL end
  | None => NULL
  end.
Definition child (n : Z) (name : list Z) : Z :=
  let d := attached n in if finder d =? NULL then NULL else entry (finder d) d name.

(** The node a list of components leads to, [NULL] when one is missing. *)
Fixpoint resolve (n : Z) (cs : list (list Z)) : Z :=
  match cs with
  | [] => n
  | c :: cs => if child n c =? NULL then NULL else resolve (child n c) cs
  end.

(** Nodes point to nodes, to mounted roots and to tables of operations. *)
Record tree_ok : Prop := {
  tr_ptr : forall n x, nodes !! n = Some x -> vn_ptr x <> NULL -> is_Some (nodes !! vn_ptr x);
  tr_ops : forall n x, nodes !! n = Some x -> vn_ops x <> NULL -> is_Some (ops !! vn_ops x);
  tr_child : forall n c, child n c <> NULL -> is_Some (nodes !! child n c);
}.
End resolve.

(** ** Locks *)

Definition open_mutex (m : mutex) : Prop := lock_free (wait_lock_ m) /\ count m = 1 /\ wait_list m = NULL.
Definition taken_by (t : Z) (m : mutex) : Prop := lock_free (wait_lock_ m) /\ count m = 0 /\ wait_list m = NULL /\ owner m = t.

(** This processor runs [t], and locks are in use. *)
Record running (sc : sched) (t : Z) : Prop := {
  run_hart : hart_ok (s_hart sc);
  run_enabled : g_lock_enabled (s_hart sc) = true;
  run_current : exists x, cpus sc !! this_cpu sc = Some x /\ current_task x = t;
}.

(** The tree without its locks. *)
Definition strip (x : vnode) : vnode := set_vn_lock (vn_lock zero_node) x.

(** Nobody holds a lock of the tree. *)
Definition quiet (t : Z) (s : vfs) : Prop :=
  running (v_sched s) t /\ map_Forall (fun _ x => open_mutex (vn_lock x)) (v_nodes s).

(** States that differ in the locks and in memory only. *)
Record same_tree (s s' : vfs) : Prop := {
  st_nodes : strip <$> v_nodes s = strip <$> v_nodes s';
  st_ops : v_ops s = v_ops s';
  st_sched : v_sched s = v_sched s';
  st_root : vfs_root s = vfs_root s';
}.
#[export] Instance same_tree_equiv : Equivalence same_tree.
Proof.
  split; [done|by intros ? ? []|]. intros ? ? ? [] []. split; congruence.
Qed.

Definition relock (n : Z) (x : vnode) (l : mutex) (s : vfs) : vfs := set_v_nodes (<[n := set_vn_lock l x]> (v_nodes s)) s.

Lemma strip_relock l x : strip (set_vn_lock l x) = strip x.
Proof. done. Qed.

Lemma relock_same n x l s : v_nodes s !! n = Some x -> same_tree s (relock n x l s).
Proof.
  intros Hn. split; try done. cbn [relock set_v_nodes v_nodes]. rewrite fmap_insert, strip_relock.
  symmetry. apply insert_id. by rewrite lookup_fmap, Hn.
Qed.

Lemma lock_node_ok t n x s : running (v_sched s) t -> v_nodes s !! n = Some x -> open_mutex (vn_lock x) ->
  exists l, taken_by t l /\ lock_node n s = Ok (tt, relock n x l s).
Proof.
  intros [Hh He (c & Hc & Ht)] Hn (Hf & Hcnt & Hw). unfold lock_node, on_lock, bind. rewrite Hn.
  set (ms := mkMstate (v_sched s) (vn_lock x)). assert (Hi : mutex_idle ms) by done.
  unfold mutex_lock, bind at 1, gets at 1. change (lget hart_of ms) with (s_hart (v_sched s)). rewrite He. cbn [negb].
  rewrite (bind_ok _ _ _ _ _ (current_of ms c Hc)), (mutex_turn_open ms _ Hi) by (cbn; lia).
  eexists. split; [|done]. cbn. split_and!; [by apply released_free|done..].
Qed.

Lemma unlock_node_ok t n x s : running (v_sched s) t -> v_nodes s !! n = Some x -> taken_by t (vn_lock x) ->
  exists l, open_mutex l /\ unlock_node n s = Ok (tt, relock n x l s).
Proof.
  intros [Hh He _] Hn (Hf & Hcnt & Hw & _). unfold unlock_node, on_lock. rewrite Hn.
  rewrite mutex_unlock_run by done. eexists. split; [|done]. cbn. split_and!; [by apply released_free|done..].
Qed.

(** A node's lock is taken and released, with nothing in between. *)
Lemma relock_quiet t n x l s : quiet t s -> open_mutex l -> quiet t (relock n x l s).
Proof. intros [Hr Hq] Hl. split; [done|]. by apply map_Forall_insert_2. Qed.

Lemma relock_relock n x l l' s : relock n (set_vn_lock l x) l' (relock n x l s) = relock n x l' s.
Proof. unfold relock. cbn. by rewrite insert_insert_eq. Qed.

(** ** The tree is read the same whatever the locks *)

Section same.
Context `{Lookups}.
Context (a b : gmap Z vnode) (ops : gmap Z vops) (E : strip <$> a = strip <$> b).

Lemma lookup_same n : (exists x y, a !! n = Some x /\ b !! n = Some y /\ strip x = strip y) \/ (a !! n = None /\ b !! n = None).
Proof.
  pose proof (f_equal (fun m => m !! n) E) as En. cbn in En. rewrite !lookup_fmap in En.
  destruct (a !! n) as [x|], (b !! n) as [y|]; try done; [|by right]. left. exists x, y. split_and!; [done|done|]. by apply (inj Some).
Qed.

Lemma attached_same n : attached a n = attached b n.
Proof.
  unfold attached. destruct (lookup_same n) as [(x & y & -> & -> & Es)|[-> ->]]; [|done].
  pose proof (f_equal vn_ptr Es) as Ep. cbn in Ep. by rewrite Ep.
Qed.

Lemma finder_same n : finder a ops n = finder b ops n.
Proof.
  unfold finder. destruct (lookup_same n) as [(x & y & -> & -> & Es)|[-> ->]]; [|done].
  pose proof (f_equal vn_ops Es) as Ep. cbn in Ep. by rewrite Ep.
Qed.

Lemma child_same n c : child a ops n c = child b ops n c.
Proof. unfold child. by rewrite attached_same, !finder_same. Qed.

Lemma resolve_same n cs : resolve a ops n cs = resolve b ops n cs.
Proof. revert n. induction cs as [|c cs IH]; intros n; [done|]. cbn [resolve]. by rewrite child_same, IH. Qed.

Lemma some_same n : is_Some (a !! n) -> is_Some (b !! n).
Proof. intros [z Hz]. destruct (lookup_same n) as [(x & y & _ & Hy & _)|[Hn _]]; [by exists y|congruence]. Qed.

Lemma tree_same : tree_ok a ops -> tree_ok b ops.
Proof.
  intros [T1 T2 T3]. split.
  - intros n y Hy Hp. destruct (lookup_same n) as [(x & y' & Hx & Hy' & Es)|[_ ?]]; [|congruence].
    rewrite Hy in Hy'. injection Hy' as <-. pose proof (f_equal vn_ptr Es) as Ep. cbn in Ep. rewrite <-Ep in *.
    by apply some_same, (T1 n x).
  - intros n y Hy Hp. destruct (lookup_same n) as [(x & y' & Hx & Hy' & Es)|[_ ?]]; [|congruence].
    rewrite Hy in Hy'. injection Hy' as <-. pose proof (f_equal vn_ops Es) as Ep. cbn in Ep. rewrite <-Ep in *.
    by apply (T2 n x).
  - intros n c. rewrite <-child_same. intros Hc. by apply some_same, T3.
Qed.
End same.

(** ** One component *)

Section walk.
Context `{Lookups} (t : Z).

Lemma get_node_ok {A} n x s (f : vnode -> M vfs A) : v_nodes s !! n = Some x -> (y <- get_node n ;; f y) s = f x s.
Proof. intros Hn. unfold get_node, bind, gets. by rewrite Hn. Qed.

(** The lock of the directory in which the next name is looked up. *)
Lemma enter_ok s n x : quiet t s -> tree_ok (v_nodes s) (v_ops s) -> v_nodes s !! n = Some x ->
  let d := attached (v_nodes s) n in
  exists s1 y l, (forall A (f : Z -> M vfs A), (lock_node n ;;; c <- cross_mount n ;; f c) s = f d (relock d y l s1)) /\
    quiet t s1 /\ same_tree s s1 /\ v_mem s1 = v_mem s /\ v_nodes s1 !! d = Some y /\ taken_by t l.
Proof.
  intros Hq Htr Hn d. pose proof (proj1 Hq) as Hr. destruct (lock_node_ok t n x s Hr Hn (proj2 Hq n x Hn)) as (l & Hl & El).
  assert (Ec : forall A (f : Z -> M vfs A), (lock_node n ;;; c <- cross_mount n ;; f c) s =
    (c <- (if negb (vn_ptr x =? NULL) then unlock_node n ;;; lock_node (vn_ptr x) ;;; ret (vn_ptr x) else ret n) ;; f c) (relock n x l s)).
  { intros A f. rewrite (bind_ok _ _ _ _ _ El). unfold cross_mount. rewrite bind_bind.
    by rewrite (get_node_ok n (set_vn_lock l x)) by apply lookup_insert_eq. }
  unfold d, attached. rewrite Hn.
  destruct (Z.eqb_spec (vn_ptr x) NULL) as [Ep|Ep]; cbn [negb] in Ec; [exists s, x, l; by split_and!|].
  destruct (unlock_node_ok t n (set_vn_lock l x) (relock n x l s) Hr (lookup_insert_eq _ _ _) Hl) as (l2 & Hl2 & E2).
  rewrite relock_relock in E2. set (s2 := relock n x l2 s) in *.
  assert (Hq2 : quiet t s2) by (by apply relock_quiet). assert (Hs2 : same_tree s s2) by by apply relock_same.
  destruct (some_same _ _ (st_nodes _ _ Hs2) (vn_ptr x) (tr_ptr _ _ Htr n x Hn Ep)) as [y Hy].
  destruct (lock_node_ok t (vn_ptr x) y s2 Hr Hy (proj2 Hq2 _ _ Hy)) as (l3 & Hl3 & E3).
  exists s2, y, l3. split_and!; try done. intros A f. by rewrite Ec, bind_bind, (bind_ok _ _ _ _ _ E2), bind_bind, (bind_ok _ _ _ _ _ E3).
Qed.

(** ** The tokens *)

Section tokens.
Context (buf : Z) (Hbuf : 0 < buf).

Definition unchanged (m m' : mem) : Prop := forall a, ~ (buf <= a < buf + 256) -> m' !! a = m !! a.

(** The current token and, at the saved pointer, the rest of the path. *)
Definition scanned (m : mem) (tk sp : Z) (ws : list (list Z)) : Prop :=
  match ws with
  | [] => tk = NULL
  | w :: ws => tk <> NULL /\ cstr m tk w /\
      exists r, cstr m sp r /\ comps [] r = ws /\ buf <= sp /\ sp + Z.of_nat (length r) < buf + 256
  end.

Lemma cstr_app m a l r : cstr m a (l ++ r) -> cstr m (a + Z.of_nat (length l)) r.
Proof. intros [Hc Hf]. rewrite <-app_assoc in Hc. apply cells_app in Hc as [_ Hc]. apply Forall_app in Hf as [_ Hf]. done. Qed.

(** Cutting a string at a slash. *)
Lemma cut m a w r : cstr m a (w ++ 47 :: r) ->
  let m' := <[a + Z.of_nat (length w) := 0]> m in cstr m' a w /\ cstr m' (a + Z.of_nat (length w) + 1) r.
Proof.
  intros Hs m'. pose proof (cstr_app _ _ w _ Hs) as [Hr1 Hr2]. destruct Hs as [Hc Hf]. apply Forall_app in Hf as [Hf _].
  apply Forall_cons in Hr2 as [_ Hr2]. cbn [app] in Hr1. apply cells_cons in Hr1 as [_ Hr1]. rewrite <-app_assoc in Hc. apply cells_app in Hc as [Hc _].
  split; (split; [|done]).
  - apply cells_app. split; [apply cells_insert; [done|lia]|]. apply cells_cons. split; [apply lookup_insert_eq|by intros ? ? ?].
  - apply cells_insert; [done|]. lia.
Qed.

Lemma strtok_step p sp l m : let start := if p =? NULL then sp else p in
  buf <= start -> start + Z.of_nat (length l) < buf + 256 -> cstr m start l ->
  exists tk' sp' m', strtok_r p [47] sp m = Ok (tk', sp', m') /\ scanned m' tk' sp' (comps [] l) /\ unchanged m m'.
Proof.
  intros start H1 H2 Hs. destruct (strtok_ok p sp l m) as [Hnone Hsome]; [fold start; unfold NULL; lia|done|]. fold start in Hnone, Hsome.
  rewrite comps_skip. destruct (skip_suffix l) as [k Ek]. set (l1 := skip l) in *.
  assert (Hl : length l = (k + length l1)%nat) by (rewrite Ek at 1; by rewrite length_app, length_replicate).
  replace (length l - length l1)%nat with k in * by lia. set (tk := start + Z.of_nat k) in *.
  assert (Ht : cstr m tk l1).
  { rewrite Ek in Hs. apply cstr_app in Hs. by rewrite length_replicate in Hs. }
  destruct l1 as [|c r] eqn:El1; [destruct (Hnone eq_refl) as [sp' E]; exists NULL, sp', m; by split_and!|].
  rewrite Hsome by done. clear Hnone Hsome.
  assert (Hw : word (c :: r) <> []) by (rewrite <-El1; unfold l1; rewrite (skip_word c r) by done; done).
  rewrite (comps_word []) by done. cbn [app]. rewrite <-El1 in *. clear El1 c r.
  destruct (word_rest l1) as [Ew|[r Ew]].
  - rewrite <-Ew. rewrite decide_True by (unfold tk; lia).
    exists tk, (tk + Z.of_nat (length l1)), m. split; [done|]. split; [|done]. split_and!; [unfold tk, NULL; lia|done|].
    exists []. rewrite drop_ge by lia. split_and!; [|done|unfold tk; lia|unfold tk; simpl; lia].
    rewrite <-(app_nil_r l1) in Ht. by apply cstr_app in Ht.
  - assert (Hlr : (length l1 = length (word l1) + S (length r))%nat) by (rewrite Ew at 1; by rewrite length_app).
    rewrite decide_False by (unfold tk; lia). rewrite Ew in Ht. destruct (cut _ _ _ _ Ht) as [C1 C2].
    exists tk, (tk + Z.of_nat (length (word l1)) + 1), (<[tk + Z.of_nat (length (word l1)) := 0]> m). split; [done|]. split.
    + split_and!; [unfold tk, NULL; lia|done|]. exists r. split_and!; [done| |unfold tk; lia|unfold tk; lia].
      rewrite Ew at 2. replace (S (length (word l1))) with (length (word l1 ++ [47])) by (rewrite length_app; simpl; lia).
      change (47 :: r) with ([47] ++ r). by rewrite app_assoc, drop_app_length.
    + intros b Hb. apply lookup_insert_ne. unfold tk in *. lia.
Qed.
End tokens.

(** ** The walk *)

Lemma has_op_finder {A} s d y l s1 (f : bool -> M vfs A) : same_tree s s1 -> tree_ok (v_nodes s1) (v_ops s1) -> v_nodes s1 !! d = Some y ->
  (b <- has_op (set_vn_lock l y) op_finddir ;; f b) (relock d y l s1) =
    f (negb (finder (v_nodes s) (v_ops s) d =? NULL)) (relock d y l s1).
Proof.
  intros Hs Htr Hy. unfold has_op. change (vn_ops (set_vn_lock l y)) with (vn_ops y).
  rewrite (finder_same _ _ _ (st_nodes _ _ Hs)), (st_ops _ _ Hs). unfold finder. rewrite Hy.
  destruct (Z.eqb_spec (vn_ops y) NULL) as [E|E]; [done|]. destruct (tr_ops _ _ Htr d y Hy E) as [o Ho].
  unfold get_ops, bind, gets. cbn [relock set_v_nodes v_ops]. by rewrite Ho.
Qed.

Lemma finder_ops s d y l s1 o : same_tree s s1 -> v_nodes s1 !! d = Some y ->
  finder (v_nodes s) (v_ops s) d = o -> o <> NULL ->
  exists x, get_ops (vn_ops (set_vn_lock l y)) (relock d y l s1) = Ok (x, relock d y l s1) /\ op_finddir x = o.
Proof.
  intros Hs Hy. rewrite (finder_same _ _ _ (st_nodes _ _ Hs)), (st_ops _ _ Hs). unfold finder. rewrite Hy.
  destruct (vn_ops y =? NULL); [by intros <-|]. destruct (v_ops s1 !! vn_ops y) as [x|] eqn:Eo; [|by intros <-].
  intros <- _. exists x. split; [|done]. unfold get_ops, bind, gets. cbn [relock set_v_nodes v_ops set_vn_lock vn_ops]. by rewrite Eo.
Qed.

Lemma walk_spec buf ws fuel s0 s n tk sp : 0 < buf ->
  quiet t s -> same_tree s0 s -> tree_ok (v_nodes s0) (v_ops s0) -> is_Some (v_nodes s !! n) ->
  scanned buf (v_mem s) tk sp ws -> (length ws < fuel)%nat ->
  exists s', walk fuel n tk sp s = Ok (resolve (v_nodes s0) (v_ops s0) n ws, s') /\
    quiet t s' /\ same_tree s0 s' /\ unchanged buf (v_mem s) (v_mem s').
Proof.
  intros Hbuf. revert fuel s n tk sp. induction ws as [|w ws IH]; intros fuel s n tk sp Hq Hs Htr [x Hn] Hsc Hf; (destruct fuel as [|fuel]; [lia|]).
  { cbn in Hsc. subst tk. exists s. by split_and!. }
  destruct Hsc as (Ht & Hw & r & Hr & <- & Hb1 & Hb2). cbn [walk resolve]. rewrite (proj2 (Z.eqb_neq tk _)) by done.
  assert (Htr' : tree_ok (v_nodes s) (v_ops s)) by (rewrite <-(st_ops _ _ Hs); apply (tree_same _ _ _ (st_nodes _ _ Hs) Htr)).
  destruct (enter_ok s n x) as (s1 & y & l & E & Hq1 & Hs1 & Em & Hy & Hl); [done..|]. rewrite E. clear E.
  rewrite <-(attached_same _ _ (st_nodes _ _ Hs)) in *.
  set (d := attached (v_nodes s0) n) in *. rewrite (get_node_ok d (set_vn_lock l y)) by apply lookup_insert_eq.
  assert (Hs01 : same_tree s0 s1) by (by etrans). assert (Htr1 : tree_ok (v_nodes s1) (v_ops s1)).
  { rewrite <-(st_ops _ _ Hs01). apply (tree_same _ _ _ (st_nodes _ _ Hs01) Htr). }
  rewrite (has_op_finder s0) by done. unfold child. fold d.
  destruct (unlock_node_ok t d (set_vn_lock l y) (relock d y l s1) (proj1 Hq1) (lookup_insert_eq _ _ _) Hl) as (l2 & Hl2 & E2).
  rewrite relock_relock in E2. set (s2 := relock d y l2 s1) in *. assert (Hq2 : quiet t s2) by by apply relock_quiet.
  assert (Hs2 : same_tree s0 s2) by (etrans; [exact Hs01|by apply relock_same]).
  destruct (Z.eqb_spec (finder (v_nodes s0) (v_ops s0) d) NULL) as [Ef|Ef]; cbn [negb].
  { rewrite (bind_ok _ _ _ _ _ E2). exists s2. split_and!; [by rewrite Z.eqb_refl|done|done|]. by rewrite <-Em. }
  destruct (finder_ops s0 d y l s1 _ Hs01 Hy eq_refl Ef) as (o & Eo & Hop). rewrite (bind_ok _ _ _ _ _ Eo), Hop.
  rewrite (bind_ok _ _ _ _ _ (finddir_ok _ d tk w (relock d y l s1) ltac:(cbn; by rewrite Em))), (bind_ok _ _ _ _ _ E2).
  set (c := entry _ d w) in *. destruct (Z.eqb_spec c NULL) as [Ec|Ec].
  { exists s2. split_and!; [done|done|done|]. by rewrite <-Em. }
  destruct (strtok_step buf Hbuf NULL sp r (v_mem s)) as (tk' & sp' & m' & E3 & Hsc' & Hu); [done..|].
  rewrite (bind_ok _ _ _ (tk', sp') (set_v_mem m' s2)) by (unfold on_vmem; cbn [s2 relock set_v_nodes v_mem]; by rewrite Em, E3).
  destruct (IH fuel (set_v_mem m' s2) c tk' sp') as (s' & E4 & Hq4 & Hs4 & Hu4); [done| |done| |done|simpl in Hf; lia|].
  { split; [apply Hs2..]. }
  { apply (some_same _ _ (st_nodes _ _ Hs2)). assert (Hc : child (v_nodes s0) (v_ops s0) n w = c).
    { unfold child. fold d. by rewrite (proj2 (Z.eqb_neq _ _)). }
    rewrite <-Hc. apply Htr. by rewrite Hc. }
  exists s'. split_and!; [done|done|done|]. intros b Hb. rewrite (Hu4 b Hb). by apply Hu.
Qed.

Lemma load_vmem {A} a v s (f : Z -> M vfs A) : v_mem s !! a = Some v -> (c <- on_vmem (load8 a) ;; f c) s = f v s.
Proof. intros Ha. unfold bind, on_vmem. rewrite (load8_ok _ _ _ Ha). by destruct s. Qed.

(** The copy of the path in the buffer. *)
Lemma copied_path m buf src l : cstr m src l -> owned m buf 256 -> (length l < 256)%nat ->
  buf <= src \/ src + Z.of_nat (S (length l)) <= buf ->
  exists m', strncpy buf src 256 m = Ok (buf, m') /\ cstr m' buf l /\ unchanged buf m m'.
Proof.
  intros Hs Ho Hl Hd. exists (upd m buf (strncpy_block 256 l)). split_and!.
  - unfold strncpy. erewrite bind_ok; [done|]. by apply strncpy_loop_spec.
  - split; [|apply Hs]. pose proof (upd_cells m buf (strncpy_block 256 l)) as Hc. unfold strncpy_block in Hc at 2.
    rewrite take_ge in Hc by lia. replace (256 - length l)%nat with (S (255 - length l)) in Hc by lia. cbn [replicate] in Hc.
    rewrite (cons_middle 0 l), app_assoc in Hc. by apply cells_app in Hc as [Hc _].
  - intros a Ha. apply upd_outside. by rewrite length_strncpy_block.
Qed.

Lemma find_path_spec s buf path l : quiet t s -> tree_ok (v_nodes s) (v_ops s) -> is_Some (v_nodes s !! vfs_root s) ->
  0 < buf -> path <> NULL -> cstr (v_mem s) path (47 :: l) -> (length l < 256)%nat -> owned (v_mem s) buf 256 ->
  buf <= path + 1 \/ path + 1 + Z.of_nat (S (length l)) <= buf ->
  exists s', vfs_find_path buf path s = Ok (resolve (v_nodes s) (v_ops s) (vfs_root s) (comps [] l), s') /\
    quiet t s' /\ same_tree s s' /\ unchanged buf (v_mem s) (v_mem s').
Proof.
  intros Hq Htr Hroot Hb Hp [Hc Hf] Hl Ho Hd. unfold vfs_find_path. rewrite (proj2 (Z.eqb_neq path _)) by done.
  cbn [app] in Hc. apply cells_cons in Hc as [Hc0 Hc]. apply Forall_cons in Hf as [_ Hf].
  rewrite (load_vmem _ _ _ _ Hc0). cbn [negb]. rewrite Z.eqb_refl. cbn [negb].
  destruct l as [|c l'] eqn:El.
  { apply cells_cons in Hc as [H1 _]. rewrite (load_vmem _ _ _ _ H1). exists s. by split_and!. }
  cbn [app] in Hc. pose proof Hc as Hc1. apply cells_cons in Hc1 as [H1 _]. rewrite (load_vmem _ _ _ _ H1).
  pose proof Hf as Hf1. apply Forall_cons in Hf1 as [Hcn _]. rewrite (proj2 (Z.eqb_neq c _)) by lia.
  rewrite <-El in *. destruct (copied_path (v_mem s) buf (path + 1) l) as (m1 & E1 & C1 & U1); [split; [by rewrite El|done]|done|done|done|].
  unfold vfs_get_root. unfold bind at 1, gets at 1.
  rewrite (bind_ok _ _ _ buf (set_v_mem m1 s)) by (unfold on_vmem; by rewrite E1).
  destruct (strtok_step buf Hb buf NULL l m1) as (tk & sp & m2 & E2 & Hsc & U2);
    [unfold NULL; rewrite (proj2 (Z.eqb_neq buf 0)) by lia; lia..|unfold NULL; by rewrite (proj2 (Z.eqb_neq buf 0)) by lia|].
  rewrite (bind_ok _ _ _ (tk, sp) (set_v_mem m2 s)) by (unfold on_vmem; cbn [set_v_mem v_mem]; by rewrite E2).
  destruct (walk_spec buf (comps [] l) 257 s (set_v_mem m2 s) (vfs_root s) tk sp) as (s' & E3 & Hq3 & Hs3 & U3); try done.
  { pose proof (length_comps [] l) as Hlc. cbn in Hlc. lia. }
  exists s'. split_and!; [done|done|done|]. intros a Ha. rewrite (U3 a Ha). cbn [set_v_mem v_mem]. by rewrite (U2 a Ha), (U1 a Ha).
Qed.
End walk.

(** ** Properties *)

(** A consistent tree whose locks are open, with its root. *)
Record vfs_ready `{Lookups} (t : Z) (s : vfs) : Prop := {
  vr_quiet : quiet t s;
  vr_tree : tree_ok (v_nodes s) (v_ops s);
  vr_root : is_Some (v_nodes s !! vfs_root s);
}.

(** The path ["/" ++ l], of less than 256 characters behind the slash, and a
    buffer away from it. *)
Record path_at (s : vfs) (buf path : Z) (l : list Z) : Prop := {
  pa_buf : 0 < buf /\ owned (v_mem s) buf 256;
  pa_path : path <> NULL /\ cstr (v_mem s) path (47 :: l);
  pa_length : (length l < 256)%nat;
  pa_apart : buf <= path + 1 \/ path + 1 + Z.of_nat (S (length l)) <= buf;
}.

Section properties.
Context `{Lookups} (t : Z).

Lemma find_path_ready s buf path l : vfs_ready t s -> path_at s buf path l ->
  exists s', vfs_find_path buf path s = Ok (resolve (v_nodes s) (v_ops s) (vfs_root s) (comps [] l), s') /\
    quiet t s' /\ same_tree s s' /\ unchanged buf (v_mem s) (v_mem s').
Proof. intros [Hq Htr Hr] [[Hb Ho] [Hp Hc] Hl Hd]. by apply find_path_spec. Qed.

(** C34: path resolution. On an absolute path of up to 255 characters
    [vfs_find_path] returns the node the reference definition finds for the
    components of the path: each is looked up in the file system mounted at the
    node so far, or in the node itself; repeated and trailing slashes do not
    matter, and a missing component or a node that is no directory gives NULL.
    Every lock it takes is released, on every way out; the tree is unchanged,
    and memory outside the buffer too. A relative path gives NULL at once. *)
Theorem vfs_find_path_correct s buf path l : vfs_ready t s ->
  (path_at s buf path l ->
   exists s', vfs_find_path buf path s = Ok (resolve (v_nodes s) (v_ops s) (vfs_root s) (comps [] l), s') /\
    vfs_ready t s' /\ same_tree s s' /\ unchanged buf (v_mem s) (v_mem s')) /\
  (forall c, path <> NULL -> v_mem s !! path = Some c -> c <> 47 -> vfs_find_path buf path s = Ok (NULL, s)).
Proof.
  intros Hs. split.
  - intros Hp. destruct (find_path_ready s buf path l Hs Hp) as (s' & E & Hq & Hst & Hu). exists s'. split_and!; try done.
    split; [done|..].
    + rewrite <-(st_ops _ _ Hst). apply (tree_same _ _ _ (st_nodes _ _ Hst)), Hs.
    + rewrite <-(st_root _ _ Hst). apply (some_same _ _ (st_nodes _ _ Hst)), Hs.
  - intros c Hp Hc Hne. unfold vfs_find_path. rewrite (proj2 (Z.eqb_neq path _)) by done.
    by rewrite (load_vmem _ _ _ _ Hc), (proj2 (Z.eqb_neq c _)).
Qed.

(** The node of a mount point. *)
Definition mounted (root : Z) (x : vnode) : vnode := set_vn_ptr root (set_vn_flags (Z.lor (vn_flags x) VFS_MOUNTPOINT) x).

(** [vfs_mount] on a path that resolves to the node [n] marks [n] as a mount
    point of the given root and changes nothing else of the tree; all locks are
    open again. From then on the names below [n] are those of the mounted file
    system: they are looked up in its root. On a path that does not resolve it
    returns -1 and leaves the tree alone. *)
Theorem vfs_mount_correct s buf path l root : vfs_ready t s -> path_at s buf path l -> root <> NULL ->
  let n := resolve (v_nodes s) (v_ops s) (vfs_root s) (comps [] l) in
  (n = NULL -> exists s', vfs_mount buf path root s = Ok (-1, s') /\ quiet t s' /\ same_tree s s') /\
  (forall x, v_nodes s !! n = Some x -> n <> NULL ->
   exists s', vfs_mount buf path root s = Ok (0, s') /\ quiet t s' /\
     strip <$> v_nodes s' = <[n := strip (mounted root x)]> (strip <$> v_nodes s) /\
     v_ops s' = v_ops s /\ v_sched s' = v_sched s /\ vfs_root s' = vfs_root s /\
     (forall c, child (v_nodes s') (v_ops s') n c =
        let f := finder (v_nodes s') (v_ops s') root in if f =? NULL then NULL else entry f root c)).
Proof.
  intros Hs Hp Hr n. destruct (find_path_ready s buf path l Hs Hp) as (s1 & E1 & Hq1 & Hst & Hu). fold n in E1.
  unfold vfs_mount. rewrite (bind_ok _ _ _ _ _ E1). split.
  - intros ->. exists s1. by split_and!.
  - intros x Hn Hne. rewrite (proj2 (Z.eqb_neq n _)) by done. destruct Hst as [Hno Hop Hsc Hro].
    destruct (lookup_same _ _ Hno n) as [(x' & y & Hx' & Hy & Es)|[? _]]; [|congruence]. rewrite Hn in Hx'. injection Hx' as <-.
    destruct (lock_node_ok t n y s1 (proj1 Hq1) Hy (proj2 Hq1 n y Hy)) as (l1 & Hl1 & E2). rewrite (bind_ok _ _ _ _ _ E2).
    rewrite (get_node_ok n (set_vn_lock l1 y)) by apply lookup_insert_eq.
    set (z := mounted root (set_vn_lock l1 y)). set (s2 := set_v_nodes (<[n := z]> (v_nodes s1)) s1).
    rewrite (bind_ok _ _ _ tt (set_v_nodes (<[n := set_vn_flags (Z.lor (vn_flags y) VFS_MOUNTPOINT) (set_vn_lock l1 y)]> (v_nodes s1)) s1));
      [|unfold upd_node; rewrite (get_node_ok n (set_vn_lock l1 y)) by apply lookup_insert_eq; unfold modify; cbn; by rewrite insert_insert_eq].
    rewrite (bind_ok _ _ _ tt s2);
      [|unfold upd_node; erewrite get_node_ok by apply lookup_insert_eq; unfold modify; cbn; by rewrite insert_insert_eq].
    destruct (unlock_node_ok t n z s2 (proj1 Hq1) (lookup_insert_eq _ _ _) Hl1) as (l2 & Hl2 & E3).
    rewrite (bind_ok _ _ _ _ _ E3). eexists. split; [done|]. split; [|split_and!; [|done|done|done|]].
    + split; [apply Hq1|]. cbn. rewrite insert_insert_eq. apply map_Forall_insert_2; [done|apply Hq1].
    + cbn. rewrite insert_insert_eq, fmap_insert, Hno. 
      change (strip (set_vn_lock l2 z)) with (mounted root (strip y)). change (strip (mounted root x)) with (mounted root (strip x)). by rewrite Es.
    + intros c. unfold child. assert (Ea : attached (v_nodes (relock n z l2 s2)) n = root); [|by rewrite Ea].
      unfold attached. cbn. rewrite lookup_insert_eq. cbn. by rewrite (proj2 (Z.eqb_neq _ _)).
Qed.

(** A transfer runs the driver's routine with the lock held. *)
Lemma transfer_spec s field call node x o offset size buffer : quiet t s -> node <> NULL ->
  v_nodes s !! node = Some x -> readable (vn_flags x) = true -> v_ops s !! vn_ops x = Some o -> field o <> NULL ->
  exists l, taken_by t l /\ forall r m, call (field o) node offset size buffer (relock node x l s) = Ok (r, set_v_mem m (relock node x l s)) ->
    exists s', transfer field call node offset size buffer s = Ok (r, s') /\ quiet t s' /\ same_tree s s' /\ v_mem s' = m.
Proof.
  intros Hq Hnn Hx Hrd Ho Hf. destruct (lock_node_ok t node x s (proj1 Hq) Hx (proj2 Hq node x Hx)) as (l & Hl & E1).
  exists l. split; [done|]. intros r m Ec. set (s1 := relock node x l s) in *.
  destruct (unlock_node_ok t node (set_vn_lock l x) (set_v_mem m s1) (proj1 Hq) (lookup_insert_eq _ _ _) Hl) as (l2 & Hl2 & E2).
  exists (set_v_mem m (relock node x l2 s)). split_and!; [|by apply relock_quiet| |done].
  - unfold transfer. rewrite (proj2 (Z.eqb_neq node _)), (get_node_ok node x), Hrd by done. cbn [negb].
    rewrite (bind_ok _ _ _ o s) by (unfold get_ops, bind, gets; by rewrite Ho). rewrite (proj2 (Z.eqb_neq (field o) _)) by done.
    rewrite (bind_ok _ _ _ _ _ E1), (bind_ok _ _ _ _ _ Ec), (bind_ok _ _ _ _ _ E2). unfold relock, set_v_mem. cbn. by rewrite insert_insert_eq.
  - destruct (relock_same node x l2 s Hx). by split.
Qed.

(** [vfs_read] and [vfs_write] on a node whose file system has the operation
    run it with the node's mutex closed and owned by the caller, so that nobody
    else gets in, return what it returns and open the mutex again. *)
Theorem vfs_transfer_locked s node x o offset size buffer : quiet t s -> node <> NULL ->
  v_nodes s !! node = Some x -> readable (vn_flags x) = true -> v_ops s !! vn_ops x = Some o ->
  (op_read o <> NULL -> exists l, taken_by t l /\
     forall r m, call_read (op_read o) node offset size buffer (relock node x l s) = Ok (r, set_v_mem m (relock node x l s)) ->
     exists s', vfs_read node offset size buffer s = Ok (r, s') /\ quiet t s' /\ same_tree s s' /\ v_mem s' = m) /\
  (op_write o <> NULL -> exists l, taken_by t l /\
     forall r m, call_write (op_write o) node offset size buffer (relock node x l s) = Ok (r, set_v_mem m (relock node x l s)) ->
     exists s', vfs_write node offset size buffer s = Ok (r, s') /\ quiet t s' /\ same_tree s s' /\ v_mem s' = m).
Proof. intros. split; intros; by apply transfer_spec. Qed.

(** reading or writing the root faults. The node types are numbers and not
    bits, so the test for files, character devices and pipes also lets
    directories through ([VFS_DIRECTORY & 7] is not zero), and the operations of
    the root that [vfs_init] makes are a null pointer, which is dereferenced. *)
Theorem vfs_read_root_faults s s' offset size buffer : vfs_init s = Ok (tt, s') -> v_ops s' !! NULL = None ->
  vfs_read (vfs_root s') offset size buffer s' = Fault /\ vfs_write (vfs_root s') offset size buffer s' = Fault.
Proof.
  intros Hi Ho. unfold vfs_init in Hi. apply bind_inv in Hi as (root & s1 & _ & Hi).
  unfold bind at 1, modify at 1 in Hi. destruct (Z.eqb_spec root NULL) as [|Hr]; [done|].
  unfold upd_node in Hi. unfold bind at 1, modify at 1 in Hi. rewrite bind_bind in Hi.
  erewrite get_node_ok in Hi by apply lookup_insert_eq. unfold bind at 1, modify at 1 in Hi. rewrite bind_bind in Hi.
  erewrite get_node_ok in Hi by apply lookup_insert_eq. unfold bind at 1, modify at 1 in Hi.
  erewrite get_node_ok in Hi by apply lookup_insert_eq. unfold modify in Hi. injection Hi as <-.
  split; unfold vfs_read, vfs_write, transfer; cbn [set_v_nodes set_vfs_root vfs_root].
  all: rewrite (proj2 (Z.eqb_neq root _)) by done; erewrite get_node_ok by apply lookup_insert_eq; change (negb (readable _)) with false; cbv iota.
  all: change (vn_ops _) with NULL; unfold get_ops, bind, gets, deref; cbn [set_v_nodes set_vfs_root v_ops] in *; by rewrite Ho.
Qed.
End properties.
