(* ===== verification/VfsDemo.v ===== *)
(** * The virtual file system: a tree

    A [strtok_r], a file system given by a table of names, and a small tree on
    which the theorems of [VfsSpec] apply. *)

From S2P Require Import Prelude Lock Chain Sched SchedDemo Mutex Strings Acpi Vfs VfsSpec.

(** ** [strtok_r] *)

Fixpoint read_str (fuel : nat) (a : Z) (m : mem) : list Z :=
  match fuel with
  | O => []
  | S fuel => match m !! a with Some c => if c =? 0 then [] else c :: read_str fuel (a + 1) m | None => [] end
  end.

Lemma read_str_ok fuel a m l : cstr m a l -> (length l < fuel)%nat -> read_str fuel a m = l.
Proof.
  revert a fuel. induction l as [|c l IH]; intros a fuel [Hc Hf] Hl; (destruct fuel as [|fuel]; [simpl in Hl; lia|]);
    cbn [app read_str] in *; apply cells_cons in Hc as [H0 Hc]; rewrite H0; [done|].
  apply Forall_cons in Hf as [Hc0 Hf]. rewrite (proj2 (Z.eqb_neq c _)) by lia. f_equal. apply IH; [done|simpl in Hl; lia].
Qed.

Definition string_at (m : mem) (a : Z) : list Z := read_str (S (size m)) a m.

Lemma string_at_ok m a l : cstr m a l -> string_at m a = l.
Proof. intros Hs. apply read_str_ok; [done|]. by eapply cstr_fuel. Qed.

Definition demo_strtok (p : Z) (delim : list Z) (sp : Z) : M mem (Z * Z) := fun m =>
  let start := if p =? NULL then sp else p in
  let l := string_at m start in
  let t := start + Z.of_nat (length l - length (skip l)) in
  let e := t + Z.of_nat (length (word (skip l))) in
  match skip l with
  | [] => Ok (NULL, start, m)
  | _ => if decide (e = start + Z.of_nat (length l)) then Ok (t, e, m) else Ok (t, e + 1, <[e := 0]> m)
  end.

Lemma demo_strtok_ok : strtok_law demo_strtok.
Proof.
  intros p sp l m start Hn Hs t e. unfold demo_strtok. fold start. rewrite (string_at_ok m start l Hs). split.
  - intros ->. by exists start.
  - unfold e, t. by destruct (skip l).
Qed.

(** ** A file system *)

(** "dev", "log" and "tty" *)
Definition dev : list Z := [100; 101; 118].
Definition log : list Z := [108; 111; 103].
Definition tty : list Z := [116; 116; 121].

(** The root 10 has the directory 11 and the file 12; the other file system
    has the root 20 and the device 21. *)
Definition demo_entry (f d : Z) (name : list Z) : Z :=
  if (d =? 10) && bool_decide (name = dev) then 11 else
  if (d =? 10) && bool_decide (name = log) then 12 else
  if (d =? 20) && bool_decide (name = tty) then 21 else NULL.

#[global] Instance demo_drivers : Drivers := {
  vfs_kmalloc n := ret 10;
  strtok_r := demo_strtok;
  call_read f n offset size buffer := on_vmem (store8 buffer 65 ;;; ret 1);
  call_write f n offset size buffer := ret size;
  call_open f n flags := ret tt;
  call_close f n := ret tt;
  call_finddir f d t := fun s => Ok (demo_entry f d (string_at (v_mem s) t), s);
}.

#[refine, global] Instance demo_lookups : Lookups := { entry := demo_entry; strtok_ok := demo_strtok_ok; finddir_ok := _ }.
Proof. intros f d t name s Hs. unfold call_finddir, demo_drivers. by rewrite (string_at_ok _ _ _ Hs). Defined.

(** ** The tree *)

Definition open_lock : mutex := mkMutex 1 spinlock_init NULL NULL.
Definition node (flags ops : Z) : vnode := mkVnode [] flags 0 0 0 0 0 open_lock ops NULL NULL.
Definition demo_nodes : gmap Z vnode :=
  list_to_map [(10, node VFS_DIRECTORY 100); (11, node VFS_DIRECTORY 100); (12, node VFS_FILE 100);
               (20, node VFS_DIRECTORY 100); (21, node VFS_CHARDEVICE 100)].
Definition demo_table : gmap Z vops := {[ 100 := mkVops 1 2 3 4 5 0 0 0 ]}.

(** "//dev/" at 0x100, the buffer at 0x200 and a byte at 0x400. *)
Definition demo_vmem : mem :=
  bytes_at 0x100 ([47; 47] ++ dev ++ [47; 0]) ∪ bytes_at 0x200 (replicate 256 255) ∪ bytes_at 0x400 [0].
Definition demo_vfs : vfs := mkVfs demo_nodes demo_table demo demo_vmem 10.
Lemma demo_quiet : quiet TASK_A demo_vfs.
Proof.
  split; [split; [intros _; by exists 0|reflexivity|]|].
  - exists (demo_cpu 0 TASK_A IDLE0). split; [vm_compute; reflexivity|reflexivity].
  - unfold demo_vfs, v_nodes, demo_nodes. cbn [list_to_map foldr fst snd curry uncurry].
    repeat (apply map_Forall_insert_2; [done|]). apply map_Forall_empty.
Qed.

Lemma demo_lookup (P : Z -> vnode -> Prop) :
  P 10 (node VFS_DIRECTORY 100) -> P 11 (node VFS_DIRECTORY 100) -> P 12 (node VFS_FILE 100) ->
  P 20 (node VFS_DIRECTORY 100) -> P 21 (node VFS_CHARDEVICE 100) -> forall n x, demo_nodes !! n = Some x -> P n x.
Proof.
  intros H1 H2 H3 H4 H5 n x Hn. unfold demo_nodes in Hn. apply elem_of_list_to_map_2 in Hn.
  repeat (apply elem_of_cons in Hn as [Hn|Hn]; [by injection Hn as -> ->|]). by apply not_elem_of_nil in Hn.
Qed.

Lemma demo_tree : tree_ok demo_nodes demo_table.
Proof.
  split.
  - apply (demo_lookup (fun n x => vn_ptr x <> NULL -> is_Some (demo_nodes !! vn_ptr x))); by intros ?.
  - apply (demo_lookup (fun n x => vn_ops x <> NULL -> is_Some (demo_table !! vn_ops x))); intros _; vm_compute; by eexists.
  - intros n c. unfold child. destruct (finder _ _ _ =? NULL); [done|]. unfold entry, demo_lookups, demo_entry.
    repeat (destruct (_ && _); [intros _; vm_compute; by eexists|]). done.
Qed.

Lemma demo_ready : vfs_ready TASK_A demo_vfs.
Proof. split; [apply demo_quiet|apply demo_tree|vm_compute; by eexists]. Qed.

Lemma demo_path : path_at demo_vfs 0x200 0x100 ([47] ++ dev ++ [47]).
Proof.
  split; [split; [done|]|split; [done|]|simpl; lia|right; simpl; lia].
  - apply owned_decide. vm_compute. reflexivity.
  - apply cstr_decide; vm_compute; reflexivity.
Qed.

Lemma vfs_find_path_correct_witness :
  exists s', vfs_find_path 0x200 0x100 demo_vfs = Ok (11, s') /\ vfs_ready TASK_A s'.
Proof.
  destruct (proj1 (vfs_find_path_correct TASK_A demo_vfs 0x200 0x100 ([47] ++ dev ++ [47]) demo_ready) demo_path)
    as (s' & E & Hr & _). exists s'. exact (conj E Hr).
Defined.

Lemma demo_resolve : resolve (v_nodes demo_vfs) (v_ops demo_vfs) (vfs_root demo_vfs) (comps [] ([47] ++ dev ++ [47])) = 11.
Proof. vm_compute. reflexivity. Qed.

Lemma vfs_mount_correct_witness :
  exists s', vfs_mount 0x200 0x100 20 demo_vfs = Ok (0, s') /\ child (v_nodes s') (v_ops s') 11 tty = 21.
Proof.
  destruct (vfs_mount_correct TASK_A demo_vfs 0x200 0x100 ([47] ++ dev ++ [47]) 20 demo_ready demo_path ltac:(done)) as [_ Hm].
  destruct (Hm (node VFS_DIRECTORY 100) ltac:(vm_compute; reflexivity) ltac:(vm_compute; done))
    as (s' & E & _ & En & Eo & _ & _ & Hc).
  rewrite demo_resolve in En, Hc. exists s'. split; [exact E|]. rewrite (Hc tty).
  rewrite (finder_same (v_nodes s') (<[11 := mounted 20 (node VFS_DIRECTORY 100)]> demo_nodes)), Eo; [vm_compute; reflexivity|].
  rewrite En, fmap_insert. reflexivity.
Defined.

Lemma vfs_transfer_locked_witness : exists s', vfs_read 12 0 1 0x400 demo_vfs = Ok (1, s') /\ v_mem s' !! 0x400 = Some 65.
Proof.
  destruct (vfs_transfer_locked TASK_A demo_vfs 12 (node VFS_FILE 100) (mkVops 1 2 3 4 5 0 0 0) 0 1 0x400 demo_quiet
    ltac:(done) ltac:(vm_compute; reflexivity) ltac:(reflexivity) ltac:(vm_compute; reflexivity)) as [Hr _].
  destruct (Hr ltac:(done)) as (l & Hl & Hc).
  destruct (Hc 1 (<[0x400 := 65]> demo_vmem)) as (s' & E & _ & _ & Em).
  { unfold call_read, demo_drivers, on_vmem. change (v_mem (relock _ _ _ _)) with demo_vmem.
    by rewrite (bind_ok _ _ _ _ _ (store8_ok demo_vmem 0x400 65 ltac:(vm_compute; by eexists))). }
  exists s'. split; [exact E|]. rewrite Em. apply lookup_insert_eq.
Defined.

Lemma vfs_read_root_faults_witness :
  exists s', vfs_init (mkVfs ∅ ∅ demo ∅ NULL) = Ok (tt, s') /\ vfs_read (vfs_root s') 0 1 0x400 s' = Fault.
Proof.
  eexists. split; [vm_compute; reflexivity|].
  apply (vfs_read_root_faults (mkVfs ∅ ∅ demo ∅ NULL)); vm_compute; reflexivity.
Defined.
