(* ===== verification/Loader.v ===== *)
(** * The boot loader

    Models [boot/src]: [kernel_loader.c], [ramdisk.c], [memory_map.c], [acpi.c],
    [gop.c], [uefi_shims.c] and [efi_main] of [main.c].

    - The firmware is not part of the repository: its services are the
      operations of the class [Uefi], on a firmware state of any type. An
      operation returns the values the C call returns and stores through its
      pointer arguments; what a service writes to a buffer is a list of bytes
      that the routine stores into the memory of [Strings].
    - [boot_panic] prints and halts for ever, so it is the outcome [Panic], and
      the [return] behind a call of it is never reached. Console output is not
      part of the state.
    - Local structures that are filled by a read ([Ehdr]) are the bytes read. *)

From S2P Require Import Prelude Lock Strings Acpi Vma Syscall Elf Task Boot.

(** ** Firmware *)

Definition EFI_SUCCESS : Z := 0.
Definition EFI_BUFFER_TOO_SMALL : Z := 2 ^ 63 + 5.
(** [EFI_ERROR(s)]: the top bit of the status *)
Definition EFI_ERROR (s : Z) : bool := 2 ^ 63 <=? s.

(** What a mode of the graphics output protocol says. *)
Record gop_mode := mkGop {
  FrameBufferBase : Z; FrameBufferSize : Z; HorizontalResolution : Z; VerticalResolution : Z; PixelsPerScanLine : Z;
  PixelFormat : Z; RedMask : Z; GreenMask : Z; BlueMask : Z; ReservedMask : Z;
}.

(** What [GetMemoryMap] returns: the status, the size, the key, the size and
    version of a descriptor, and the bytes it wrote. *)
Record map_answer := mkAnswer { ma_status : Z; ma_size : Z; ma_key : Z; ma_dsize : Z; ma_dversion : Z; ma_bytes : list Z }.

Class Uefi (U : Type) := {
  HandleProtocol : Z -> list Z -> M U (Z * Z);           (* status, interface *)
  DeviceHandle : Z -> M U Z;                             (* LoadedImage->DeviceHandle *)
  OpenVolume : Z -> M U (Z * Z);
  FileOpen : Z -> list Z -> M U (Z * Z);
  FileClose : Z -> M U unit;
  FileRead : Z -> Z -> M U (Z * list Z);                 (* status, the bytes read *)
  SetPosition : Z -> Z -> M U Z;
  GetPosition : Z -> M U (Z * Z);
  AllocatePool : Z -> M U (Z * Z);
  FreePool : Z -> M U unit;
  AllocateAddress : Z -> Z -> M U Z;                     (* AllocatePages at an address *)
  AllocateAnyPages : Z -> M U (Z * Z);
  GetMemoryMap : Z -> Z -> M U map_answer;
  ExitBootServices : Z -> Z -> M U Z;
  LocateProtocol : list Z -> M U (Z * Z);
  GopMode : Z -> M U gop_mode;                           (* gop->Mode *)
  ConfigurationTable : M U (list (list Z * Z));          (* VendorGuid, VendorTable *)
}.

(** ** GUIDs *)

(** The bytes of an [EFI_GUID] *)
Definition guid (a b c : Z) (d : list Z) : list Z := le 4 a ++ le 2 b ++ le 2 c ++ d.
Definition gEfiAcpiTableGuid : list Z := guid 0xeb9d2d30 0x2d88 0x11d3 [0x9a; 0x16; 0x00; 0x90; 0x27; 0x3f; 0xc1; 0x4d].
Definition gEfiAcpi20TableGuid : list Z := guid 0x8868e871 0xe4f1 0x11d3 [0xbc; 0x22; 0x00; 0x80; 0xc7; 0x3c; 0x88; 0x81].
Definition gEfiLoadedImageProtocolGuid : list Z := guid 0x5B1B31A1 0x9562 0x11d2 [0x8E; 0x3F; 0x00; 0xA0; 0xC9; 0x69; 0x72; 0x3B].
Definition gEfiSimpleFileSystemProtocolGuid : list Z := guid 0x964e5b22 0x6459 0x11d2 [0x8e; 0x39; 0x00; 0xa0; 0xc9; 0x69; 0x72; 0x3b].
Definition gEfiGraphicsOutputProtocolGuid : list Z := guid 0x9042a9de 0x23dc 0x4a38 [0x96; 0xfb; 0x7a; 0xde; 0xd0; 0x80; 0x51; 0x6a].

(** [for (i = 0; i < sizeof(EFI_GUID); ++i) if (a[i] != b[i]) return FALSE;] *)
Fixpoint compare_bytes (n : nat) (a b : list Z) : bool :=
  match n, a, b with
  | S n, x :: a, y :: b => if negb (x =? y) then false else compare_bytes n a b
  | _, _, _ => true
  end.
Definition CompareGuid (a b : list Z) : bool := compare_bytes 16 a b.

(** ** The state *)

Section boot.
Context {U : Type} `{Uefi U}.

Record boot := mkBoot { b_fw : U; b_mem : mem }.

Definition on_fw {A} (m : M U A) : M boot A := fun s =>
  match m (b_fw s) with
  | Ok (a, u) => Ok (a, mkBoot u (b_mem s))
  | Fault => Fault
  | Panic => Panic
  | Hang => Hang
  end.
Definition on_bmem {A} (m : M mem A) : M boot A := fun s =>
  match m (b_mem s) with
  | Ok (a, x) => Ok (a, mkBoot (b_fw s) x)
  | Fault => Fault
  | Panic => Panic
  | Hang => Hang
  end.

Definition boot_panic {A} : M boot A := panic.

(** [while (size--) *p++ = value;] *)
Definition SetMem (dst size value : Z) : M mem unit := memset_loop (Z.to_nat size) dst value.

(** [for (i = 0; i < Size; ++i) p[i] = 0;] *)
Definition ZeroMem (Buffer Size : Z) : M mem Z := memset_loop (Z.to_nat Size) Buffer 0 ;;; ret Buffer.

(** [UnicodeSPrint]: the format and its arguments are not looked at; the
    buffer becomes the empty string *)
Definition UnicodeSPrint (StartOfBuffer BufferSize : Z) : M mem Z :=
  when (negb (StartOfBuffer =? NULL) && (2 <=? BufferSize)) (store_bytes StartOfBuffer [0; 0]) ;;; ret 0.

(** [File->Read(File, &Size, buf)] into memory: the status and the size *)
Definition read_into (file size buf : Z) : M boot (Z * Z) :=
  r <- on_fw (FileRead file size) ;;
  on_bmem (store_bytes buf r.2) ;;;
  ret (r.1, Z.of_nat (length r.2)).

(** ** Graphics and ACPI *)

Definition init_gop : M boot BootFramebuffer :=
  r <- on_fw (LocateProtocol gEfiGraphicsOutputProtocolGuid) ;;
  if EFI_ERROR r.1 || (r.2 =? NULL) then boot_panic else
  g <- on_fw (GopMode r.2) ;;
  ret (mkFramebuffer (FrameBufferSize g) (FrameBufferBase g) (HorizontalResolution g) (VerticalResolution g)
         (PixelsPerScanLine g) (PixelFormat g) (RedMask g) (GreenMask g) (BlueMask g) (ReservedMask g)).

(** The table of the first entry with one of the two ACPI GUIDs *)
Fixpoint find_rsdp (config_table : list (list Z * Z)) : Z :=
  match config_table with
  | [] => NULL
  | (g, t) :: l => if CompareGuid g gEfiAcpi20TableGuid || CompareGuid g gEfiAcpiTableGuid then t else find_rsdp l
  end.

Definition init_acpi : M boot Z :=
  t <- on_fw ConfigurationTable ;;
  let rsdp := find_rsdp t in
  if rsdp =? NULL then boot_panic else ret rsdp.

(** ** The kernel image *)

Definition EM_X86_64 : Z := 62.
Definition ET_EXEC : Z := 2.
Definition ET_DYN : Z := 3.
Definition KERNEL_ADDR : Z := 0x2000000.
Definition sizeof_ehdr : Z := Eval vm_compute in sizeof Elf64_Ehdr.

(** L"\\kernel.elf" and L"initrd.tar" *)
Definition kernel_name : list Z := [92; 107; 101; 114; 110; 101; 108; 46; 101; 108; 102].
Definition initrd_name : list Z := [105; 110; 105; 116; 114; 100; 46; 116; 97; 114].

(** A field of a structure that was read into a local variable *)
Fixpoint size_of (l : layout) (field : string) : Z :=
  match l with
  | [] => 0
  | (f, n) :: l => if String.eqb f field then n else size_of l field
  end.
Definition field (l : layout) (f : string) (bytes : list Z) : Z :=
  le_value (take (Z.to_nat (size_of l f)) (drop (Z.to_nat (offset_of l f)) bytes)).

Definition open_kernel_file (ImageHandle : Z) : M boot (Z * Z) :=
  r <- on_fw (HandleProtocol ImageHandle gEfiLoadedImageProtocolGuid) ;;
  if EFI_ERROR r.1 || (r.2 =? NULL) then boot_panic else
  dev <- on_fw (DeviceHandle r.2) ;;
  r <- on_fw (HandleProtocol dev gEfiSimpleFileSystemProtocolGuid) ;;
  if EFI_ERROR r.1 || (r.2 =? NULL) then boot_panic else
  r <- on_fw (OpenVolume r.2) ;;
  if EFI_ERROR r.1 || (r.2 =? NULL) then boot_panic else
  let Root := r.2 in
  r <- on_fw (FileOpen Root kernel_name) ;;
  if EFI_ERROR r.1 || (r.2 =? NULL) then boot_panic else
  ret (Root, r.2).

(** The checks of the ELF header *)
Definition ehdr_ok (e : list Z) : bool :=
  bool_decide (take 4 e = elf_magic) && (field Elf64_Ehdr "e_machine" e =? EM_X86_64) &&
  negb (negb (field Elf64_Ehdr "e_phentsize" e =? sizeof_phdr) || (field Elf64_Ehdr "e_phnum" e =? 0)) &&
  negb (negb (field Elf64_Ehdr "e_type" e =? ET_EXEC) && negb (field Elf64_Ehdr "e_type" e =? ET_DYN)).

(** The fields of the program header at [p] the loader reads *)
Record khdr := mkKhdr { k_type : Z; k_offset : Z; k_vaddr : Z; k_filesz : Z; k_memsz : Z }.
Definition read_khdr (p : Z) : M boot khdr :=
  ty <- on_bmem (load32 (p + offset_of Elf64_Phdr "p_type")) ;;
  off <- on_bmem (load64 (p + offset_of Elf64_Phdr "p_offset")) ;;
  va <- on_bmem (load64 (p + offset_of Elf64_Phdr "p_vaddr")) ;;
  fs <- on_bmem (load64 (p + offset_of Elf64_Phdr "p_filesz")) ;;
  ms <- on_bmem (load64 (p + offset_of Elf64_Phdr "p_memsz")) ;;
  ret (mkKhdr ty off va fs ms).

Definition skipped (h : khdr) : bool := negb (k_type h =? PT_LOAD) || (k_memsz h =? 0).

(** The range [lo, hi) of the segments, [k] headers left at [p] *)
Fixpoint image_range (k : nat) (p lo hi : Z) : M boot (Z * Z) :=
  match k with
  | O => ret (lo, hi)
  | S k =>
    h <- read_khdr p ;;
    if skipped h then image_range k (p + sizeof_phdr) lo hi else
    let lo := if k_vaddr h <? lo then k_vaddr h else lo in
    let end_ := w64 (k_vaddr h + k_memsz h) in
    image_range k (p + sizeof_phdr) lo (if hi <? end_ then end_ else hi)
  end.

(** [EFI_SIZE_TO_PAGES(size)] *)
Definition EFI_SIZE_TO_PAGES (size : Z) : Z :=
  Z.shiftr size 12 + (if negb (Z.land size 0xFFF =? 0) then 1 else 0).

(** One segment: the file-backed part is read, the rest zeroed. The status of
    a failed [SetPosition], or success *)
Definition load_segment (File seg_dst : Z) (h : khdr) : M boot Z :=
  s <- (if 0 <? k_filesz h then
          st <- on_fw (SetPosition File (k_offset h)) ;;
          if EFI_ERROR st then ret st else
          r <- read_into File (k_filesz h) seg_dst ;;
          if EFI_ERROR r.1 || negb (r.2 =? k_filesz h) then boot_panic else ret EFI_SUCCESS
        else ret EFI_SUCCESS) ;;
  if EFI_ERROR s then ret s else
  when (k_filesz h <? k_memsz h)
    (on_bmem (SetMem (w64 (seg_dst + k_filesz h)) (w64 (k_memsz h - k_filesz h)) 0)) ;;;
  ret EFI_SUCCESS.

(** The loop over the segments, [k] headers left at [p] *)
Fixpoint load_segments (k : nat) (File p dst_base lo : Z) : M boot Z :=
  match k with
  | O => ret EFI_SUCCESS
  | S k =>
    h <- read_khdr p ;;
    if skipped h then load_segments k File (p + sizeof_phdr) dst_base lo else
    s <- load_segment File (w64 (dst_base + w64 (k_vaddr h - lo))) h ;;
    if EFI_ERROR s then ret s else load_segments k File (p + sizeof_phdr) dst_base lo
  end.

(** The status and, on success, what it stored through [outKernel] *)
Definition load_kernel_elf (File : Z) : M boot (Z * option BootKernel) :=
  r <- on_fw (FileRead File sizeof_ehdr) ;;
  if EFI_ERROR r.1 || negb (Z.of_nat (length r.2) =? sizeof_ehdr) then boot_panic else
  let Ehdr := r.2 in
  if negb (ehdr_ok Ehdr) then boot_panic else
  let e_phnum := field Elf64_Ehdr "e_phnum" Ehdr in
  let PhSize := field Elf64_Ehdr "e_phentsize" Ehdr * e_phnum in
  r <- on_fw (AllocatePool PhSize) ;;
  if EFI_ERROR r.1 || (r.2 =? NULL) then boot_panic else
  let Phdrs := r.2 in
  st <- on_fw (SetPosition File (field Elf64_Ehdr "e_phoff" Ehdr)) ;;
  if EFI_ERROR st then on_fw (FreePool Phdrs) ;;; ret (st, None) else
  r <- read_into File PhSize Phdrs ;;
  if EFI_ERROR r.1 || negb (r.2 =? PhSize) then boot_panic else
  range <- image_range (Z.to_nat e_phnum) Phdrs (2 ^ 64 - 1) 0 ;;
  let lo := range.1 in
  let hi := range.2 in
  if (lo =? 2 ^ 64 - 1) || (hi <=? lo) then boot_panic else
  let imageSize := w64 (hi - lo) in
  st <- on_fw (AllocateAddress KERNEL_ADDR (EFI_SIZE_TO_PAGES imageSize)) ;;
  if EFI_ERROR st then boot_panic else
  st <- load_segments (Z.to_nat e_phnum) File Phdrs KERNEL_ADDR lo ;;
  on_fw (FreePool Phdrs) ;;;
  if EFI_ERROR st then ret (st, None) else
  let entry_offset := w64 (field Elf64_Ehdr "e_entry" Ehdr - lo) in
  ret (EFI_SUCCESS, Some (mkBootKernel (w64 (KERNEL_ADDR + entry_offset)) KERNEL_ADDR imageSize)).

Definition init_kernel (ImageHandle : Z) : M boot (Z * option BootKernel) :=
  f <- open_kernel_file ImageHandle ;;
  r <- load_kernel_elf f.2 ;;
  when (negb (f.2 =? NULL)) (on_fw (FileClose f.2)) ;;;
  when (negb (f.1 =? NULL)) (on_fw (FileClose f.1)) ;;;
  ret r.

(** ** The ramdisk *)

Definition init_ramdisk (ImageHandle : Z) : M boot BootRamdisk :=
  li <- on_fw (HandleProtocol ImageHandle gEfiLoadedImageProtocolGuid) ;;
  dev <- on_fw (DeviceHandle li.2) ;;
  fs <- on_fw (HandleProtocol dev gEfiSimpleFileSystemProtocolGuid) ;;
  root <- on_fw (OpenVolume fs.2) ;;
  f <- on_fw (FileOpen root.2 initrd_name) ;;
  if EFI_ERROR f.1 then boot_panic else
  s <- on_fw (SetPosition f.2 (2 ^ 64 - 1)) ;;
  if EFI_ERROR s then boot_panic else
  p <- on_fw (GetPosition f.2) ;;
  let FinalSize := p.2 in
  if EFI_ERROR p.1 || (FinalSize =? 0) then boot_panic else
  _ <- on_fw (SetPosition f.2 0) ;;
  let Pages := w64 (FinalSize + 4095) / 4096 in
  a <- on_fw (AllocateAnyPages Pages) ;;
  if EFI_ERROR a.1 then boot_panic else
  r <- read_into f.2 FinalSize a.2 ;;
  if EFI_ERROR r.1 || negb (r.2 =? FinalSize) then boot_panic else
  ret (mkBootRamdisk a.2 FinalSize).

(** ** The memory map and the exit of the boot services *)

(** [BootMemoryMap] as the loader fills it *)
Record raw_map := mkRawMap { rm_address : Z; rm_size : Z; rm_descriptor_size : Z; rm_descriptor_version : Z }.

(** [gBS->GetMemoryMap] into the buffer at [buf] *)
Definition get_memory_map (size buf : Z) : M boot map_answer :=
  a <- on_fw (GetMemoryMap size buf) ;;
  on_bmem (store_bytes buf (ma_bytes a)) ;;;
  ret a.

(** [FreePool(buf)] and [AllocatePool(size)] again *)
Definition grow_map (buf size : Z) : M boot Z :=
  on_fw (FreePool buf) ;;;
  r <- on_fw (AllocatePool size) ;;
  if EFI_ERROR r.1 || (r.2 =? NULL) then boot_panic else ret r.2.

(** [for (;;)]: at most [fuel] turns *)
Fixpoint map_loop (fuel : nat) (ImageHandle size buf : Z) : M boot raw_map :=
  match fuel with
  | O => hang
  | S fuel =>
    a <- get_memory_map size buf ;;
    if ma_status a =? EFI_BUFFER_TOO_SMALL then
      let size := w64 (ma_size a + 4 * ma_dsize a) in
      buf <- grow_map buf size ;;
      map_loop fuel ImageHandle size buf
    else if EFI_ERROR (ma_status a) then boot_panic else
    s <- on_fw (ExitBootServices ImageHandle (ma_key a)) ;;
    if negb (EFI_ERROR s) then ret (mkRawMap buf (ma_size a) (ma_dsize a) (ma_dversion a)) else
    let size := w64 (ma_size a + 2 * ma_dsize a) in
    buf <- grow_map buf size ;;
    map_loop fuel ImageHandle size buf
  end.

Definition final_memory_map_and_exit (fuel : nat) (ImageHandle : Z) : M boot raw_map :=
  a <- on_fw (GetMemoryMap 0 NULL) ;;
  if negb (ma_status a =? EFI_BUFFER_TOO_SMALL) then boot_panic else
  let size := w64 (ma_size a + 4 * ma_dsize a) in
  r <- on_fw (AllocatePool size) ;;
  if EFI_ERROR r.1 || (r.2 =? NULL) then boot_panic else
  map_loop fuel ImageHandle size r.2.

(** ** efi_main *)

(** What the kernel is started with, at [kernel_entry] of [h_kernel] *)
Record handoff := mkHandoff { h_fb : BootFramebuffer; h_map : raw_map; h_rsdp : Z; h_kernel : BootKernel; h_ramdisk : BootRamdisk }.

Definition efi_main (fuel : nat) (ImageHandle : Z) : M boot handoff :=
  f <- init_gop ;;
  rsdp <- init_acpi ;;
  k <- init_kernel ImageHandle ;;
  match k.2 with
  | None => boot_panic
  | Some kern =>
    if EFI_ERROR k.1 then boot_panic else
    r <- init_ramdisk ImageHandle ;;
    m <- final_memory_map_and_exit fuel ImageHandle ;;
    ret (mkHandoff f m rsdp kern r)
  end.
End boot.
