(* ===== verification/LoaderSpec.v ===== *)
(** * The boot loader: correctness

    [load_kernel_elf] on a well-formed file: the image in memory is the
    segments of the file at their places, zero-filled, and the entry point is
    the file's, relocated. The memory map that is handed to the kernel is the
    one whose key the firmware accepted. *)

From S2P Require Import Prelude Lock Strings Acpi Vma Syscall Elf Task TaskSpec Boot Loader.

(** ** Firmware that works *)

(** Files have contents and a position, reads return the bytes from the
    position on, and allocations succeed. [pool_block p n]: [p] was handed out
    for [n] bytes. *)
Class UefiOk (U : Type) `{Uefi U} := {
  content : Z -> list Z;
  position : U -> Z -> Z;
  pool_block : Z -> Z -> Prop;
  set_position_ok : forall f p u, 0 <= p < 2 ^ 64 - 1 ->
    exists u', SetPosition f p u = Ok (EFI_SUCCESS, u') /\ position u' f = p;
  file_read_ok : forall f n u, 0 <= n ->
    exists u', FileRead f n u = Ok (EFI_SUCCESS, take (Z.to_nat n) (drop (Z.to_nat (position u f)) (content f)), u');
  alloc_pool_ok : forall n u, exists p u', AllocatePool n u = Ok (EFI_SUCCESS, p, u') /\ pool_block p n;
  free_pool_ok : forall p u, exists u', FreePool p u = Ok (tt, u');
  alloc_address_ok : forall a n u, exists u', AllocateAddress a n u = Ok (EFI_SUCCESS, u');
}.

(** ** Program headers *)

Definition decode (b : list Z) : khdr :=
  mkKhdr (field Elf64_Phdr "p_type" b) (field Elf64_Phdr "p_offset" b) (field Elf64_Phdr "p_vaddr" b)
    (field Elf64_Phdr "p_filesz" b) (field Elf64_Phdr "p_memsz" b).

Definition range_step (r : Z * Z) (h : khdr) : Z * Z :=
  if skipped h then r else
  (if k_vaddr h <? r.1 then k_vaddr h else r.1,
   let e := w64 (k_vaddr h + k_memsz h) in if r.2 <? e then e else r.2).
Definition range_of (hs : list khdr) : Z * Z := foldl range_step (2 ^ 64 - 1, 0) hs.

(** The segments that are loaded. *)
Definition loaded (hs : list khdr) : list khdr := filter (fun h => skipped h = false) hs.

(** A segment of the file [c]: it fits the address space and the file. *)
Record seg_ok (c : list Z) (h : khdr) : Prop := {
  sg_range : 0 <= k_vaddr h /\ k_vaddr h + k_memsz h <= 2 ^ 64 - 1;
  sg_size : 0 <= k_filesz h <= k_memsz h;
  sg_file : 0 <= k_offset h /\ k_offset h + k_filesz h <= Z.of_nat (length c) /\ k_offset h < 2 ^ 64 - 1;
}.

(** What a segment looks like in memory. *)
Definition seg_image (c : list Z) (h : khdr) : list Z :=
  take (Z.to_nat (k_filesz h)) (drop (Z.to_nat (k_offset h)) c) ++ replicate (Z.to_nat (k_memsz h - k_filesz h)) 0.

Definition place_at (lo : Z) (h : khdr) : Z := KERNEL_ADDR + (k_vaddr h - lo).
Definition place_seg (c : list Z) (lo : Z) (m : mem) (h : khdr) : mem := upd m (place_at lo h) (seg_image c h).

Lemma length_seg_image c h : seg_ok c h -> length (seg_image c h) = Z.to_nat (k_memsz h).
Proof.
  intros [_ Hs Hf]. unfold seg_image. rewrite length_app, length_replicate, length_take_le; [lia|]. rewrite length_drop. lia.
Qed.

(** The range covers the segments, and grows with each header. *)
Lemma range_step_grows c r h : (skipped h = false -> seg_ok c h) ->
  (range_step r h).1 <= r.1 /\ r.2 <= (range_step r h).2 /\
  (skipped h = false -> (range_step r h).1 <= k_vaddr h /\ k_vaddr h + k_memsz h <= (range_step r h).2).
Proof.
  intros Hok. unfold range_step. destruct (skipped h); [done|]. destruct (Hok eq_refl) as [[Hv Hr] Hs _]. cbn [fst snd].
  rewrite w64_small by lia. split_and!; [| |intros _; split]; repeat case_bool; lia.
Qed.

Lemma range_bounds c hs r : Forall (fun h => skipped h = false -> seg_ok c h) hs ->
  (foldl range_step r hs).1 <= r.1 /\ r.2 <= (foldl range_step r hs).2 /\
  forall h, h ∈ hs -> skipped h = false ->
    (foldl range_step r hs).1 <= k_vaddr h /\ k_vaddr h + k_memsz h <= (foldl range_step r hs).2.
Proof.
  revert r. induction hs as [|h hs IH]; intros r Hok; cbn [foldl]; [split_and!; [done|done|by intros h ?%not_elem_of_nil]|].
  apply Forall_cons in Hok as [Hh Hok]. destruct (IH (range_step r h) Hok) as (H1 & H2 & H3).
  destruct (range_step_grows c r h Hh) as (G1 & G2 & G3). split_and!; [lia|lia|].
  intros h' [->|Hin]%elem_of_cons Hs; [|by apply H3]. specialize (G3 Hs). lia.
Qed.

(** The range does not leave the address space. *)
Lemma range_width c hs r : Forall (fun h => skipped h = false -> seg_ok c h) hs ->
  0 <= r.1 -> 0 <= r.2 <= 2 ^ 64 - 1 -> 0 <= (foldl range_step r hs).1 /\ 0 <= (foldl range_step r hs).2 <= 2 ^ 64 - 1.
Proof.
  revert r. induction hs as [|h hs IH]; intros r Hok H1 H2; cbn [foldl]; [done|].
  apply Forall_cons in Hok as [Hh Hok]. apply IH; [done|..]; unfold range_step; destruct (skipped h); try done;
    destruct (Hh eq_refl) as [[Hv Hr] Hs _]; cbn [fst snd]; rewrite ?w64_small by lia; case_bool; lia.
Qed.

Section loading.
Context {U : Type} `{Uefi U} `{!UefiOk U}.
Abbreviation boot := (@boot U).

(** ** Symbolic execution *)

Lemma success : EFI_ERROR EFI_SUCCESS = false.
Proof. done. Qed.

Section steps.
Context {A B : Type} (u : U) (m : mem).

Lemma fw_step (g : M U B) b u' (f : B -> M boot A) : g u = Ok (b, u') ->
  (x <- on_fw g ;; f x) (mkBoot u m) = f b (mkBoot u' m).
Proof. intros Eg. unfold bind, on_fw. cbn [b_fw b_mem]. by rewrite Eg. Qed.

Lemma bmem_step (g : M mem B) b m' (f : B -> M boot A) : g m = Ok (b, m') ->
  (x <- on_bmem g ;; f x) (mkBoot u m) = f b (mkBoot u m').
Proof. intros Eg. unfold bind, on_bmem. cbn [b_fw b_mem]. by rewrite Eg. Qed.
End steps.

(** A header in memory reads as it is decoded. *)
Lemma read_khdr_spec {A} (u : U) m p b (f : khdr -> M boot A) : cells m p b -> length b = 56%nat ->
  (h <- read_khdr p ;; f h) (mkBoot u m) = f (decode b) (mkBoot u m).
Proof.
  intros Hc Hl. assert (Hs : forall i k, (i + k <= 56)%nat -> load_le k (p + Z.of_nat i) m = Ok (le_value (take k (drop i b)), m)).
  { intros i k Hi. pose proof (load_le_bytes _ _ _ (cells_sub _ _ _ i k Hc ltac:(lia))) as E.
    by rewrite length_take_le in E by (rewrite length_drop; lia). }
  unfold read_khdr. rewrite !bind_bind.
  rewrite (bmem_step _ _ _ _ _ _ (Hs 0 4 ltac:(lia)))%nat, !bind_bind, (bmem_step _ _ _ _ _ _ (Hs 8 8 ltac:(lia)))%nat, !bind_bind.
  rewrite (bmem_step _ _ _ _ _ _ (Hs 16 8 ltac:(lia)))%nat, !bind_bind, (bmem_step _ _ _ _ _ _ (Hs 32 8 ltac:(lia)))%nat, !bind_bind.
  rewrite (bmem_step _ _ _ _ _ _ (Hs 40 8 ltac:(lia)))%nat. done.
Qed.

Definition blocks56 (bs : list (list Z)) : Prop := Forall (fun b => length b = 56%nat) bs.

(** The first loop computes the range of the segments. *)
Lemma image_range_spec bs p lo hi (u : U) m : cells m p (concat bs) -> blocks56 bs ->
  image_range (length bs) p lo hi (mkBoot u m) = Ok (foldl range_step (lo, hi) (decode <$> bs), mkBoot u m).
Proof.
  revert p lo hi. induction bs as [|b bs IH]; intros p lo hi Hc Hl; [done|].
  apply Forall_cons in Hl as [Hb Hl]. cbn [concat] in Hc. apply cells_app in Hc as [Hb' Hc].
  rewrite Hb in Hc. change (Z.of_nat 56) with sizeof_phdr in Hc.
  cbn [length image_range fmap list_fmap foldl]. rewrite (read_khdr_spec _ _ _ b) by done.
  unfold range_step at 2. cbn [fst snd]. destruct (skipped (decode b)); by rewrite IH.
Qed.

(** A read stores the bytes from the position on. *)
Lemma read_into_spec File n buf (u : U) m l :
  l = take (Z.to_nat n) (drop (Z.to_nat (position u File)) (content File)) -> 0 <= n -> owned m buf (length l) ->
  exists u', read_into File n buf (mkBoot u m) = Ok (EFI_SUCCESS, Z.of_nat (length l), mkBoot u' (upd m buf l)).
Proof.
  intros -> Hn Ho. destruct (file_read_ok File n u Hn) as (u' & E). exists u'. unfold read_into.
  by rewrite (fw_step _ _ _ _ _ _ E), (bmem_step _ _ _ _ _ _ (store_bytes_spec _ _ _ Ho)).
Qed.

(** One segment: the file's bytes, then zeroes. *)
Lemma load_segment_spec File c h (u : U) m dst : content File = c -> seg_ok c h -> 0 <= dst -> dst + k_memsz h < 2 ^ 64 ->
  owned m dst (Z.to_nat (k_memsz h)) ->
  exists u', load_segment File dst h (mkBoot u m) = Ok (EFI_SUCCESS, mkBoot u' (upd m dst (seg_image c h))).
Proof.
  intros Hc Hok Hd Hd' Ho. pose proof (length_seg_image _ _ Hok) as Hl. destruct Hok as [Hr Hs Hf]. unfold load_segment.
  set (l1 := take (Z.to_nat (k_filesz h)) (drop (Z.to_nat (k_offset h)) c)).
  assert (Hl1 : length l1 = Z.to_nat (k_filesz h)) by (unfold l1; rewrite length_take_le; [lia|rewrite length_drop; lia]).
  assert (Ho1 : owned m dst (length l1)) by (apply (owned_le _ _ _ _ Ho); lia).
  assert (Hread : exists u', (if 0 <? k_filesz h then
          st <- on_fw (SetPosition File (k_offset h)) ;;
          if EFI_ERROR st then ret st else
          r <- read_into File (k_filesz h) dst ;;
          if EFI_ERROR r.1 || negb (r.2 =? k_filesz h) then boot_panic else ret EFI_SUCCESS
        else ret EFI_SUCCESS) (mkBoot u m) = Ok (EFI_SUCCESS, mkBoot u' (upd m dst l1))).
  { destruct (Z.ltb_spec 0 (k_filesz h)) as [Hp|Hp].
    - destruct (set_position_ok File (k_offset h) u ltac:(lia)) as (u1 & E1 & P1).
      destruct (read_into_spec File (k_filesz h) dst u1 m l1) as (u2 & E2); [by rewrite P1, Hc|lia|done|].
      exists u2. rewrite (fw_step _ _ _ _ _ _ E1), success, (bind_ok _ _ _ _ _ E2).
      cbn. by rewrite Hl1, Z2Nat.id, Z.eqb_refl by lia.
    - exists u. replace l1 with (@nil Z); [done|]. symmetry. apply nil_length_inv. lia. }
  destruct Hread as (u' & E). exists u'. rewrite (bind_ok _ _ _ _ _ E). rewrite success.
  unfold seg_image. fold l1. rewrite upd_app, Hl1, Z2Nat.id by lia.
  destruct (Z.ltb_spec (k_filesz h) (k_memsz h)) as [Hb|Hb].
  - unfold when, SetMem. rewrite !w64_small by lia. erewrite (bmem_step u' (upd m dst l1) _ tt); [done|].
    rewrite memset_loop_spec; [done|]. apply owned_upd. rewrite <-(Z2Nat.id (k_filesz h)) by lia. apply owned_offset.
    apply (owned_le _ _ _ _ Ho). lia.
  - replace (Z.to_nat (k_memsz h - k_filesz h)) with 0%nat by lia. done.
Qed.

Definition inside (lo hi : Z) (h : khdr) : Prop := lo <= k_vaddr h /\ k_vaddr h + k_memsz h <= hi.

(** The second loop places the segments one after the other; the header table
    lies outside the image and stays as it was. *)
Lemma load_segments_spec File c lo hi bs p (u : U) m : content File = c ->
  cells m p (concat bs) -> blocks56 bs ->
  Forall (fun b => skipped (decode b) = false -> seg_ok c (decode b) /\ inside lo hi (decode b)) bs ->
  0 <= lo -> hi < 2 ^ 64 -> KERNEL_ADDR + (hi - lo) < 2 ^ 64 -> owned m KERNEL_ADDR (Z.to_nat (hi - lo)) ->
  disjoint_blocks p (length (concat bs)) KERNEL_ADDR (Z.to_nat (hi - lo)) ->
  exists u', load_segments (length bs) File p KERNEL_ADDR lo (mkBoot u m) =
    Ok (EFI_SUCCESS, mkBoot u' (foldl (place_seg c lo) m (loaded (decode <$> bs)))).
Proof.
  intros Hc Ht Hl Hok Hlo Hhi Hw Ho. revert p u m Ht Hl Hok Ho.
  induction bs as [|b bs IH]; intros p u m Ht Hl Hok Ho Hd; [by exists u|].
  apply Forall_cons in Hl as [Hb Hl]. apply Forall_cons in Hok as [Hok0 Hok]. cbn [concat] in Ht, Hd.
  apply cells_app in Ht as [Hb' Ht]. rewrite Hb in Ht. change (Z.of_nat 56) with sizeof_phdr in Ht.
  rewrite length_app, Hb in Hd. unfold disjoint_blocks in Hd.
  cbn [length load_segments fmap list_fmap]. rewrite (read_khdr_spec _ _ _ b) by done. unfold loaded. rewrite filter_cons.
  assert (Hd' : disjoint_blocks (p + sizeof_phdr) (length (concat bs)) KERNEL_ADDR (Z.to_nat (hi - lo))).
  { unfold disjoint_blocks, sizeof_phdr. lia. }
  destruct (skipped (decode b)) eqn:Es; [by apply IH|].
  destruct (Hok0 eq_refl) as [Hs [Hi1 Hi2]]. destruct (sg_size _ _ Hs) as [Hz1 Hz2]. rewrite decide_True by done. cbn [foldl].
  pose proof (length_seg_image _ _ Hs) as Hli. set (h := decode b) in *.
  assert (Hrel : k_vaddr h - lo + k_memsz h <= hi - lo) by lia.
  rewrite (w64_small (k_vaddr h - lo)), w64_small by (unfold KERNEL_ADDR in *; lia).
  destruct (load_segment_spec File c h u m (place_at lo h)) as (u1 & E1); unfold place_at, KERNEL_ADDR in *; [done|done|lia|lia|..].
  { rewrite <-(Z2Nat.id (k_vaddr h - lo)) by lia. apply owned_offset, (owned_le _ _ _ _ Ho). lia. }
  rewrite (bind_ok _ _ _ _ _ E1), success. apply IH; try done.
  - apply cells_upd; [done|]. unfold disjoint_blocks, sizeof_phdr, place_at, KERNEL_ADDR. rewrite Hli. lia.
  - by apply owned_upd.
Qed.

(** Segments that share no byte are all there in the end. *)
Definition apart (h h' : khdr) : Prop := k_vaddr h + k_memsz h <= k_vaddr h' \/ k_vaddr h' + k_memsz h' <= k_vaddr h.

Lemma place_keeps c lo hs m a l : Forall (seg_ok c) hs -> cells m a l ->
  Forall (fun h => disjoint_blocks a (length l) (place_at lo h) (Z.to_nat (k_memsz h))) hs ->
  cells (foldl (place_seg c lo) m hs) a l.
Proof.
  revert m. induction hs as [|h hs IH]; intros m Hok Hc Hd; [done|].
  apply Forall_cons in Hok as [Hh Hok]. apply Forall_cons in Hd as [Hd0 Hd]. cbn [foldl].
  apply IH; [done| |done]. apply cells_upd; [done|]. by rewrite length_seg_image.
Qed.

Lemma placed c lo hs m : Forall (seg_ok c) hs -> ForallOrdPairs apart hs ->
  forall h, h ∈ hs -> cells (foldl (place_seg c lo) m hs) (place_at lo h) (seg_image c h).
Proof.
  revert m. induction hs as [|h0 hs IH]; intros m Hok Ha h; [by intros ?%not_elem_of_nil|].
  apply Forall_cons in Hok as [Hh Hok]. inversion Ha as [|? ? Ha0 Ha']; subst. cbn [foldl].
  intros [->|Hin]%elem_of_cons; [|by apply IH].
  apply place_keeps; [done|apply upd_cells|]. rewrite length_seg_image by done.
  apply Forall_forall. intros h' Hin. apply list_elem_of_In in Hin. rewrite Forall_forall in Ha0, Hok.
  apply list_elem_of_In in Hin.
  specialize (Ha0 h' Hin). destruct (Hok h' Hin) as [? ? _]. destruct Hh as [? ? _]. unfold disjoint_blocks, place_at, apart in *. lia.
Qed.

(** ** The kernel image *)

Definition e_phoff (c : list Z) : Z := field Elf64_Ehdr "e_phoff" (take 64 c).
Definition e_phnum (c : list Z) : Z := field Elf64_Ehdr "e_phnum" (take 64 c).
Definition e_entry (c : list Z) : Z := field Elf64_Ehdr "e_entry" (take 64 c).

(** A kernel file [c] with the program headers [bs]. *)
Record kernel_elf (c : list Z) (bs : list (list Z)) : Prop := {
  ke_length : (64 <= length c)%nat;
  ke_header : ehdr_ok (take 64 c) = true;
  ke_phnum : e_phnum c = Z.of_nat (length bs);
  ke_phoff : 0 <= e_phoff c < 2 ^ 64 - 1;
  ke_table : take (56 * length bs) (drop (Z.to_nat (e_phoff c)) c) = concat bs;
  ke_blocks : blocks56 bs;
  ke_segments : Forall (fun h => skipped h = false -> seg_ok c h) (decode <$> bs);
  ke_entry : exists h, h ∈ decode <$> bs /\ skipped h = false /\ k_vaddr h <= e_entry c < k_vaddr h + k_memsz h;
}.

Lemma length_concat56 bs : blocks56 bs -> length (concat bs) = (56 * length bs)%nat.
Proof. induction 1 as [|b bs Hb _ IH]; [done|]. cbn [concat length]. rewrite length_app, Hb, IH. lia. Qed.

Lemma ehdr_phentsize e : ehdr_ok e = true -> field Elf64_Ehdr "e_phentsize" e = sizeof_phdr.
Proof.
  unfold ehdr_ok. destruct (Z.eqb_spec (field Elf64_Ehdr "e_phentsize" e) sizeof_phdr) as [|_]; [done|].
  cbn [negb orb]. by rewrite andb_false_r.
Qed.

(** The range of a kernel file is not empty and holds the entry point. *)
Lemma kernel_range c bs lo hi : kernel_elf c bs -> range_of (decode <$> bs) = (lo, hi) ->
  0 <= lo <= e_entry c /\ e_entry c < hi <= 2 ^ 64 - 1 /\
  forall h, h ∈ decode <$> bs -> skipped h = false -> inside lo hi h.
Proof.
  intros K E. pose proof (range_bounds c _ (2 ^ 64 - 1, 0) (ke_segments _ _ K)) as (_ & _ & Hb).
  pose proof (range_width c _ (2 ^ 64 - 1, 0) (ke_segments _ _ K) ltac:(simpl; lia) ltac:(simpl; lia)) as [Hw1 Hw2].
  unfold range_of in E. rewrite E in Hb, Hw1, Hw2. cbn [fst snd] in *. destruct (ke_entry _ _ K) as (h & Hin & Hs & He).
  specialize (Hb h Hin Hs) as Hh. split_and!; try lia. intros h' Hin' Hs'. by apply Hb.
Qed.

Lemma kernel_segments c bs lo hi : kernel_elf c bs ->
  (forall h, h ∈ decode <$> bs -> skipped h = false -> inside lo hi h) ->
  Forall (fun b => skipped (decode b) = false -> seg_ok c (decode b) /\ inside lo hi (decode b)) bs.
Proof.
  intros K Hin. pose proof (ke_segments _ _ K) as Hs. rewrite Forall_fmap in Hs. apply Forall_forall. intros b Hb Es.
  rewrite Forall_forall in Hs. split; [by apply (Hs b Hb)|]. apply Hin; [|done]. by apply list_elem_of_fmap_2.
Qed.

Lemma loaded_ok c hs : Forall (fun h => skipped h = false -> seg_ok c h) hs -> Forall (seg_ok c) (loaded hs).
Proof.
  intros Hs. rewrite Forall_forall in Hs. apply Forall_forall. intros h [Es Hh]%list_elem_of_filter. by apply Hs.
Qed.

Lemma place_outside c lo hi hs m a : Forall (seg_ok c) hs -> (forall h, h ∈ hs -> inside lo hi h) ->
  ~ (KERNEL_ADDR <= a < KERNEL_ADDR + (hi - lo)) -> foldl (place_seg c lo) m hs !! a = m !! a.
Proof.
  revert m. induction hs as [|h hs IH]; intros m Hok Hin Ha; [done|]. apply Forall_cons in Hok as [Hh Hok]. cbn [foldl].
  rewrite IH; [|done|intros h' Hh'; apply Hin; by right|done]. unfold place_seg. apply upd_outside. rewrite length_seg_image by done.
  destruct (Hin h ltac:(by left)) as [? ?]. destruct Hh as [? ? _]. unfold place_at. lia.
Qed.

(** C32: [load_kernel_elf] loads a well-formed kernel file as its program headers
    say. It reports the image at 32 MiB, with the size of the range of the
    loadable segments and the file's entry point moved by the same distance;
    segments that do not overlap are in memory with their bytes of the file
    followed by zeroes, inside the image; and no byte outside the image and the
    pool block of the header table has changed. *)
Theorem load_kernel_elf_correct File bs lo hi (u : U) m c :
  content File = c -> kernel_elf c bs -> position u File = 0 ->
  range_of (decode <$> bs) = (lo, hi) -> KERNEL_ADDR + (hi - lo) < 2 ^ 64 -> owned m KERNEL_ADDR (Z.to_nat (hi - lo)) ->
  (forall p, pool_block p (Z.of_nat (56 * length bs)) ->
     p <> NULL /\ owned m p (56 * length bs) /\ disjoint_blocks p (56 * length bs) KERNEL_ADDR (Z.to_nat (hi - lo))) ->
  exists p u' m',
    load_kernel_elf File (mkBoot u m) =
      Ok (EFI_SUCCESS, Some (mkBootKernel (KERNEL_ADDR + (e_entry c - lo)) KERNEL_ADDR (hi - lo)), mkBoot u' m') /\
    pool_block p (Z.of_nat (56 * length bs)) /\
    (forall h, h ∈ loaded (decode <$> bs) -> inside lo hi h) /\
    (ForallOrdPairs apart (loaded (decode <$> bs)) ->
       forall h, h ∈ loaded (decode <$> bs) -> cells m' (place_at lo h) (seg_image c h)) /\
    (forall a, ~ (p <= a < p + 56 * Z.of_nat (length bs)) -> ~ (KERNEL_ADDR <= a < KERNEL_ADDR + (hi - lo)) -> m' !! a = m !! a).
Proof.
  intros Hc K Hp Er Hw Ho Hpool. destruct (kernel_range _ _ _ _ K Er) as (Hlo & Hhi & Hin).
  destruct (file_read_ok File sizeof_ehdr u ltac:(done)) as (u1 & E1). rewrite Hp, Hc in E1.
  destruct (alloc_pool_ok (Z.of_nat (56 * length bs)) u1) as (p & u2 & E2 & Hpb). destruct (Hpool p Hpb) as (Hnn & Hop & Hdp).
  destruct (set_position_ok File (e_phoff c) u2 (ke_phoff _ _ K)) as (u3 & E3 & P3).
  pose proof (ke_table _ _ K) as Ht. pose proof (length_concat56 _ (ke_blocks _ _ K)) as Hlt.
  destruct (read_into_spec File (Z.of_nat (56 * length bs)) p u3 m (concat bs)) as (u4 & E4).
  { by rewrite P3, Hc, Nat2Z.id, Ht. }
  { lia. }
  { by rewrite Hlt. }
  destruct (alloc_address_ok KERNEL_ADDR (EFI_SIZE_TO_PAGES (hi - lo)) u4) as (u5 & E5).
  destruct (load_segments_spec File c lo hi bs p u5 (upd m p (concat bs))) as (u6 & E6);
    [done|apply upd_cells|apply K|by apply kernel_segments|lia|lia|done|by apply owned_upd|by rewrite Hlt|].
  destruct (free_pool_ok p u6) as (u7 & E7).
  exists p, u7, (foldl (place_seg c lo) (upd m p (concat bs)) (loaded (decode <$> bs))).
  assert (Hld : Forall (seg_ok c) (loaded (decode <$> bs))) by apply loaded_ok, K.
  assert (Hil : forall h, h ∈ loaded (decode <$> bs) -> inside lo hi h).
  { intros h [Hs Hh]%list_elem_of_filter. by apply Hin. }
  split_and!; [|done|done|by apply placed|].
  - unfold load_kernel_elf. rewrite (fw_step _ _ _ _ _ _ E1). cbn [fst snd]. change (Z.to_nat sizeof_ehdr) with 64%nat.
    rewrite drop_0, length_take_le by apply K. rewrite success. change (negb (Z.of_nat 64 =? sizeof_ehdr)) with false. cbn [orb]. rewrite (ke_header _ _ K). cbn [negb].
    rewrite (ehdr_phentsize _ (ke_header _ _ K)). fold (e_phnum c). fold (e_phoff c). fold (e_entry c). rewrite (ke_phnum _ _ K).
    replace (sizeof_phdr * Z.of_nat (length bs)) with (Z.of_nat (56 * length bs)) by (unfold sizeof_phdr; lia).
    rewrite (fw_step _ _ _ _ _ _ E2). cbn [fst snd]. rewrite success, (proj2 (Z.eqb_neq _ _)) by done. cbn [orb].
    rewrite (fw_step _ _ _ _ _ _ E3), success, (bind_ok _ _ _ _ _ E4). cbn [fst snd]. rewrite success, Hlt, Z.eqb_refl. cbn [orb negb].
    rewrite Nat2Z.id, (bind_ok _ _ _ _ _ (image_range_spec bs p _ _ u4 _ (upd_cells _ _ _) (ke_blocks _ _ K))).
    fold (range_of (decode <$> bs)). rewrite Er. cbn [fst snd].
    rewrite (proj2 (Z.eqb_neq lo _)), (proj2 (Z.leb_gt hi lo)) by lia. cbn [orb].
    rewrite (w64_small (hi - lo)) by lia. rewrite (fw_step _ _ _ _ _ _ E5), success.
    rewrite (bind_ok _ _ _ _ _ E6), (fw_step _ _ _ _ _ _ E7), success.
    rewrite (w64_small (e_entry c - lo)), w64_small by (unfold KERNEL_ADDR in *; lia). done.
  - intros a Ha Hb. rewrite (place_outside c lo hi) by done. apply upd_outside. rewrite Hlt. lia.
Qed.
End loading.

(** ** The memory map *)

(** Firmware with a memory map. [GetMemoryMap] answers with the map and its key
    when the buffer is large enough, and with the size that is needed when it is
    not. A pool call may change the map, and an allocation may fail;
    [ExitBootServices] with the current key ends the boot services or refuses
    the key.

    [busy] bounds the disturbances that are still to come: it never grows, and
    it drops whenever a key is refused and whenever one pool call makes the map
    more than two descriptors longer. That there is such a bound is an
    assumption on the firmware, not documented: a firmware that refuses every
    key keeps the loader in its loop for ever. No map needs more than [limit]
    bytes with four more descriptors. *)
Class MapOk (U : Type) `{Uefi U} := {
  mm : U -> list Z;
  key : U -> Z;
  busy : U -> nat;
  dsize : Z;
  dversion : Z;
  limit : Z;
  heap_block : Z -> Z -> Prop;
  limit_ok : limit < 2 ^ 64 /\ 0 < dsize /\ forall u, Z.of_nat (length (mm u)) + 4 * dsize <= limit;
  get_map_ok : forall size buf u,
    GetMemoryMap size buf u =
      Ok (if size <? Z.of_nat (length (mm u)) then mkAnswer EFI_BUFFER_TOO_SMALL (Z.of_nat (length (mm u))) 0 dsize dversion []
          else mkAnswer EFI_SUCCESS (Z.of_nat (length (mm u))) (key u) dsize dversion (mm u), u);
  heap_alloc_ok : forall n u, exists s p u', AllocatePool n u = Ok (s, p, u') /\ (EFI_ERROR s = false -> heap_block p n) /\
    ((busy u' < busy u)%nat \/ busy u' = busy u /\ Z.of_nat (length (mm u')) <= Z.of_nat (length (mm u)) + 2 * dsize);
  heap_free_ok : forall p u, exists u', FreePool p u = Ok (tt, u') /\
    ((busy u' < busy u)%nat \/ busy u' = busy u /\ Z.of_nat (length (mm u')) <= Z.of_nat (length (mm u)) + 2 * dsize);
  exit_ok : forall h u, exists s u', ExitBootServices h (key u) u = Ok (s, u') /\
    if EFI_ERROR s then (busy u' < busy u)%nat else mm u' = mm u;
}.

Section map.
Context {U : Type} `{Uefi U} `{!MapOk U}.
Abbreviation boot := (@boot U).
Abbreviation size_of u := (Z.of_nat (length (mm u))).

(** The calls that change the firmware's state. *)
Inductive fw_call (u : U) : U -> Prop :=
| fc_alloc n s p u' : AllocatePool n u = Ok (s, p, u') -> fw_call u u'
| fc_free p u' : FreePool p u = Ok (tt, u') -> fw_call u u'
| fc_exit h k s u' : ExitBootServices h k u = Ok (s, u') -> fw_call u u'.

(** From [u] on, a request of the loader's is one day refused. *)
Definition pool_fails (u : U) : Prop :=
  exists u1 n s p u2, rtc fw_call u u1 /\ n <= limit /\ AllocatePool n u1 = Ok (s, p, u2) /\ EFI_ERROR s = true.

Lemma pool_fails_later u u' : rtc fw_call u u' -> pool_fails u' -> pool_fails u.
Proof. intros Hr (u1 & n & s & p & u2 & Hr1 & Hf). exists u1, n, s, p, u2. split; [by etrans|done]. Qed.

(** Every block of the pool up to the limit can be written. *)
Definition pool_owned (m : mem) : Prop :=
  forall p n, heap_block p n -> n <= limit -> p <> NULL /\ owned m p (Z.to_nat n).

Lemma pool_owned_upd m a l : pool_owned m -> pool_owned (upd m a l).
Proof. intros Hm p n Hp Hn. destruct (Hm p n Hp Hn). split; [done|]. by apply owned_upd. Qed.

(** What the routine returns: the map of the firmware at the exit. *)
Definition exited (r : outcome (raw_map * boot)) : Prop :=
  exists u' m' buf, r = Ok (mkRawMap buf (size_of u') dsize dversion, mkBoot u' m') /\
    cells m' buf (mm u') /\ pool_owned m'.

(** From [u]: the exit, or a panic because the pool refused a buffer. *)
Definition ends (u : U) (r : outcome (raw_map * boot)) : Prop := exited r \/ (r = Panic /\ pool_fails u).

Lemma ends_later u u' r : rtc fw_call u u' -> ends u' r -> ends u r.
Proof. intros Hr [?|[? ?]]; [by left|]. right. split; [done|by eapply pool_fails_later]. Qed.

Lemma bound_ok u : 0 < dsize /\ limit < 2 ^ 64 /\ size_of u + 4 * dsize <= limit.
Proof. destruct limit_ok as (? & ? & Hl). specialize (Hl u). lia. Qed.

(** The map after a change: longer by at most [k] descriptors, or at the cost
    of a disturbance. *)
Definition settled (k : Z) (u u' : U) : Prop := (busy u' < busy u)%nat \/ busy u' = busy u /\ size_of u' <= size_of u + k * dsize.

Lemma settled_trans j k u1 u2 u3 : settled j u1 u2 -> settled k u2 u3 -> settled (j + k) u1 u3.
Proof. unfold settled. lia. Qed.

(** A request for a buffer: granted, or the loader panics. *)
Lemma request_spec (u : U) m n (f : Z -> M boot raw_map) : pool_owned m -> n <= limit ->
  let request := (r <- on_fw (AllocatePool n) ;; if EFI_ERROR r.1 || (r.2 =? NULL) then boot_panic else f r.2) (mkBoot u m) in
  (exists p u', request = f p (mkBoot u' m) /\ heap_block p n /\ rtc fw_call u u' /\ settled 2 u u') \/ (request = Panic /\ pool_fails u).
Proof.
  intros Hm Hn. cbv zeta. destruct (heap_alloc_ok n u) as (s & p & u' & E & Hp & L). rewrite (fw_step _ _ _ _ _ _ E). cbn [fst snd].
  destruct (EFI_ERROR s) eqn:Es; cbn [orb].
  - right. split; [done|]. exists u, n, s, p, u'. by split_and!.
  - left. specialize (Hp eq_refl). destruct (Hm p n Hp Hn) as [Hnn _]. rewrite (proj2 (Z.eqb_neq _ _)) by done.
    exists p, u'. split_and!; [done|done|by eapply rtc_once, fc_alloc|done].
Qed.

(** A new buffer in place of the old one. *)
Lemma grow_map_spec (u : U) m buf n (f : Z -> M boot raw_map) : pool_owned m -> n <= limit ->
  (exists p u', (b <- grow_map buf n ;; f b) (mkBoot u m) = f p (mkBoot u' m) /\ heap_block p n /\ rtc fw_call u u' /\ settled 4 u u') \/
  ((b <- grow_map buf n ;; f b) (mkBoot u m) = Panic /\ pool_fails u).
Proof.
  intros Hm Hn. destruct (heap_free_ok buf u) as (u1 & E1 & L1). assert (rtc fw_call u u1) as R1 by (by eapply rtc_once, fc_free).
  assert ((b <- grow_map buf n ;; f b) (mkBoot u m) =
    (r <- on_fw (AllocatePool n) ;; if EFI_ERROR r.1 || (r.2 =? NULL) then boot_panic else f r.2) (mkBoot u1 m)) as ->.
  { unfold grow_map. rewrite bind_bind, (fw_step _ _ _ _ _ _ E1), bind_bind. unfold bind at 1 3.
    destruct (on_fw (AllocatePool n) (mkBoot u1 m)) as [[r b]| | |]; [|done..]. by destruct (EFI_ERROR r.1 || (r.2 =? NULL)). }
  destruct (request_spec u1 m n f Hm Hn) as [(p & u2 & E & Hp & R2 & L2)|[E Hf]].
  - left. exists p, u2. split_and!; [done|done|by etrans|by apply (settled_trans 2 2 u u1)].
  - right. split; [done|by eapply pool_fails_later].
Qed.

(** The turns that are still needed: two for every disturbance, one for the
    exit, one more when the buffer is too small. *)
Definition turns (u : U) (size : Z) : nat := 2 * busy u + (if size <? size_of u then 2 else 1).

Lemma map_loop_spec fuel h (u : U) m buf size : pool_owned m -> heap_block buf size -> size <= limit ->
  (turns u size <= fuel)%nat -> ends u (map_loop fuel h size buf (mkBoot u m)).
Proof.
  revert u m buf size. induction fuel as [|fuel IH]; intros u m buf size Hm Hp Hsl Hf; [unfold turns in Hf; destruct (_ <? _); lia|].
  destruct (Hm buf size Hp Hsl) as [Hnn Ho], (bound_ok u) as (Hd & Hl & Hu).
  cbn [map_loop]. unfold get_memory_map. rewrite bind_bind, (fw_step _ _ _ _ _ _ (get_map_ok size buf u)).
  unfold turns in Hf. destruct (Z.ltb_spec size (size_of u)) as [Hs|Hs]; cbn [ma_bytes ma_status ma_size ma_dsize ma_key ma_dversion]; rewrite bind_bind.
  - rewrite (bmem_step _ _ _ tt m) by done. unfold bind at 1. cbn [ret ma_status ma_size ma_dsize].
    rewrite Z.eqb_refl, w64_small by lia. set (n := size_of u + 4 * dsize).
    destruct (grow_map_spec u m buf n (fun b => map_loop fuel h n b) Hm ltac:(unfold n; lia)) as [(p & u' & -> & Hp' & Hr & Hb)|[-> Hpf]]; [|by right].
    eapply ends_later; [exact Hr|]. apply IH; [done|done|unfold n; lia|]. unfold turns, settled, n in *. destruct (Z.ltb_spec (size_of u + 4 * dsize) (size_of u')); lia.
  - assert (Ho' : owned m buf (length (mm u))) by (apply (owned_le _ _ _ _ Ho); lia).
    rewrite (bmem_step _ _ _ _ _ _ (store_bytes_spec _ _ _ Ho')). set (m1 := upd m buf (mm u)).
    assert (Hm1 : pool_owned m1) by by apply pool_owned_upd.
    unfold bind at 1. cbn [ret ma_status ma_size ma_dsize ma_key ma_dversion]. rewrite success. change (EFI_SUCCESS =? EFI_BUFFER_TOO_SMALL) with false. cbv iota.
    destruct (exit_ok h u) as (s & u' & E & Hs'). rewrite (fw_step _ _ _ _ _ _ E). destruct (EFI_ERROR s); cbn [negb].
    + rewrite w64_small by lia. set (n := size_of u + 2 * dsize).
      assert (rtc fw_call u u') as Hr by (by eapply rtc_once, fc_exit). eapply ends_later; [exact Hr|].
      destruct (grow_map_spec u' m1 buf n (fun b => map_loop fuel h n b) Hm1 ltac:(unfold n; lia)) as [(p & u2 & -> & Hp2 & Hr2 & Hb2)|[-> Hpf]]; [|by right].
      eapply ends_later; [exact Hr2|]. apply IH; [done|done|unfold n; lia|]. unfold turns, settled in *. destruct (n <? size_of u2); lia.
    + left. exists u', m1, buf. rewrite Hs'. split_and!; [done|apply upd_cells|done].
Qed.

(** C33: [final_memory_map_and_exit] ends, whatever the firmware does to its map
    in between, as long as it does so finitely often: when at most [n]
    disturbances are to come (a refused key, or a pool call that makes the map
    more than two descriptors longer), [2 n + 1] turns of the loop are enough,
    because the slack of four descriptors covers every undisturbed replacement
    of the buffer. It then has left the boot services and returns, in memory,
    the firmware's map at the exit, with its size and descriptor size; or it
    panics, and then the firmware refuses the loader memory for a buffer. *)
Theorem final_memory_map_and_exit_correct fuel h (u : U) m : pool_owned m -> mm u <> [] ->
  (2 * busy u < fuel)%nat -> ends u (final_memory_map_and_exit fuel h (mkBoot u m)).
Proof.
  intros Hm Hne Hf. destruct (bound_ok u) as (Hd & Hl & Hu). destruct (mm u) as [|b l] eqn:Em; [done|]. rewrite <-Em in *.
  unfold final_memory_map_and_exit. rewrite (fw_step _ _ _ _ _ _ (get_map_ok 0 NULL u)).
  rewrite (proj2 (Z.ltb_lt _ _)) by (rewrite Em; cbn [length]; lia). cbn [ma_status ma_size ma_dsize]. rewrite Z.eqb_refl, w64_small by lia. cbn [negb].
  set (n := size_of u + 4 * dsize).
  destruct (request_spec u m n (fun b => map_loop fuel h n b) Hm ltac:(unfold n; lia)) as [(p & u' & -> & Hp & Hr & Hb)|[-> Hpf]]; [|by right].
  eapply ends_later; [exact Hr|]. apply map_loop_spec; [done|done|unfold n; lia|]. unfold turns, settled, n in *.
  destruct (Z.ltb_spec (size_of u + 4 * dsize) (size_of u')); lia.
Qed.
End map.
