(* ===== verification/LoaderDemo.v ===== *)
(** * The boot loader: a run

    A small firmware with one volume, and the whole of [efi_main] on it. *)

From S2P Require Import Prelude Lock Strings Acpi Vma Syscall Elf Task TaskSpec Boot Loader LoaderSpec.

(** ** Firmware *)

(** The position of the open file, the number of descriptors of the memory map
    and how often the exit is still refused. *)
Record fw := mkFw { fw_pos : Z; fw_file : Z; fw_descs : nat; fw_busy : nat }.

(** A kernel with two segments and a note between their headers. *)
Definition phdr_bytes (ty off vaddr filesz memsz : Z) : list Z :=
  le 4 ty ++ le 4 5 ++ le 8 off ++ le 8 vaddr ++ le 8 vaddr ++ le 8 filesz ++ le 8 memsz ++ le 8 0x1000.
Definition kernel_headers : list (list Z) :=
  [phdr_bytes PT_LOAD 232 0x401000 8 8; phdr_bytes 4 0 0 0 16; phdr_bytes PT_LOAD 240 0x401010 2 6].
Definition kernel_bytes : list Z :=
  elf_magic ++ [2; 1; 1; 0; 0; 0; 0; 0; 0; 0; 0; 0] ++ le 2 ET_EXEC ++ le 2 EM_X86_64 ++ le 4 1 ++ le 8 0x401004 ++ le 8 64 ++
  le 8 0 ++ le 4 0 ++ le 2 64 ++ le 2 56 ++ le 2 3 ++ le 2 0 ++ le 2 0 ++ le 2 0 ++
  concat kernel_headers ++ [10; 11; 12; 13; 14; 15; 16; 17; 20; 21].
Definition initrd_bytes : list Z := [30; 31; 32].

Definition KERNEL_FILE : Z := 7.
Definition INITRD_FILE : Z := 8.
Definition fw_content (f : Z) : list Z := if f =? INITRD_FILE then initrd_bytes else kernel_bytes.
Definition fw_map (n : nat) : list Z := replicate (48 * Nat.min n 4) 1.

#[global] Instance demo_uefi : Uefi fw := {
  HandleProtocol h g := ret (EFI_SUCCESS, 3);
  DeviceHandle li := ret 4;
  OpenVolume fs := ret (EFI_SUCCESS, 5);
  FileOpen root name := ret (EFI_SUCCESS, if bool_decide (name = initrd_name) then INITRD_FILE else KERNEL_FILE);
  FileClose f := ret tt;
  FileRead f n := fun u =>
    let l := take (Z.to_nat n) (drop (Z.to_nat (fw_pos u)) (fw_content f)) in
    Ok (EFI_SUCCESS, l, mkFw (fw_pos u + Z.of_nat (length l)) f (fw_descs u) (fw_busy u));
  SetPosition f p := fun u =>
    Ok (EFI_SUCCESS, mkFw (if p =? 2 ^ 64 - 1 then Z.of_nat (length (fw_content f)) else p) f (fw_descs u) (fw_busy u));
  GetPosition f := fun u => Ok (EFI_SUCCESS, fw_pos u, u);
  AllocatePool n := ret (EFI_SUCCESS, 0x1000);
  FreePool p := ret tt;
  AllocateAddress a n := ret EFI_SUCCESS;
  AllocateAnyPages n := ret (EFI_SUCCESS, 0x5000);
  GetMemoryMap size buf := fun u =>
    let l := fw_map (fw_descs u) in
    Ok (if size <? Z.of_nat (length l) then mkAnswer EFI_BUFFER_TOO_SMALL (Z.of_nat (length l)) 0 48 1 []
        else mkAnswer EFI_SUCCESS (Z.of_nat (length l)) (Z.of_nat (fw_descs u)) 48 1 l, u);
  ExitBootServices h k := fun u =>
    match fw_busy u with
    | O => Ok (if k =? Z.of_nat (fw_descs u) then EFI_SUCCESS else 2 ^ 63 + 2, u)
    | S n => Ok (2 ^ 63 + 2, mkFw (fw_pos u) (fw_file u) (fw_descs u + 3) n)
    end;
  LocateProtocol g := ret (EFI_SUCCESS, 6);
  GopMode g := ret (mkGop 0x80000000 0x300000 1024 768 1024 1 0xff0000 0xff00 0xff 0);
  ConfigurationTable := ret [(gEfiLoadedImageProtocolGuid, 0x111); (gEfiAcpi20TableGuid, 0x7FE014)];
}.

#[refine, global] Instance demo_uefi_ok : UefiOk fw := {
  content := fw_content;
  position u f := fw_pos u;
  pool_block p n := p = 0x1000;
  set_position_ok := _; file_read_ok := _; alloc_pool_ok := _; free_pool_ok := _; alloc_address_ok := _;
}.
Proof.
  - intros f p u Hp. eexists. split; [done|]. simpl. by rewrite (proj2 (Z.eqb_neq _ _)) by lia.
  - intros f n u Hn. by eexists.
  - intros n u. exists 0x1000, u. done.
  - intros p u. by exists u.
  - intros a n u. by exists u.
Defined.

#[refine, global] Instance demo_map_ok : MapOk fw := {
  mm u := fw_map (fw_descs u);
  key u := Z.of_nat (fw_descs u);
  busy := fw_busy;
  dsize := 48;
  dversion := 1;
  limit := 384;
  heap_block p n := p = 0x1000;
  limit_ok := _; get_map_ok := _; heap_alloc_ok := _; heap_free_ok := _; exit_ok := _;
}.
Proof.
  - split_and!; [lia|lia|]. intros u. unfold fw_map. rewrite length_replicate. lia.
  - done.
  - intros n u. exists EFI_SUCCESS, 0x1000, u. split_and!; [done|done|]. right. split; [done|lia].
  - intros p u. exists u. split; [done|]. right. split; [done|lia].
  - intros h u. simpl. destruct (fw_busy u) as [|n] eqn:Eb; eexists _, _; (split; [done|]).
    + by rewrite Z.eqb_refl.
    + simpl. lia.
Defined.

(** ** Memory *)

(** The pool block, the pages of the ramdisk and the pages of the image. *)
Definition boot_mem : mem :=
  bytes_at 0x1000 (replicate 384 0) ∪ bytes_at 0x5000 (replicate 16 0) ∪ bytes_at KERNEL_ADDR (replicate 32 255).
Definition boot_state : @boot fw := mkBoot (mkFw 0 KERNEL_FILE 2 1) boot_mem.

Lemma boot_pool_owned : pool_owned boot_mem.
Proof.
  intros p n -> Hn. simpl in Hn. split; [done|]. assert (Ho : owned boot_mem 0x1000 384) by (apply owned_decide; vm_compute; reflexivity).
  apply (owned_le _ _ _ _ Ho). lia.
Qed.

Definition text_seg : khdr := mkKhdr PT_LOAD 232 0x401000 8 8.
Definition data_seg : khdr := mkKhdr PT_LOAD 240 0x401010 2 6.

Lemma demo_headers : decode <$> kernel_headers = [text_seg; mkKhdr 4 0 0 0 16; data_seg].
Proof. vm_compute. reflexivity. Qed.

Lemma demo_length : length kernel_bytes = 242%nat.
Proof. vm_compute. reflexivity. Qed.

Lemma demo_kernel_elf : kernel_elf kernel_bytes kernel_headers.
Proof.
  split.
  - rewrite demo_length. lia.
  - vm_compute. reflexivity.
  - vm_compute. reflexivity.
  - replace (e_phoff kernel_bytes) with 64; [lia|vm_compute; reflexivity].
  - vm_compute. reflexivity.
  - repeat (apply Forall_cons; split; [vm_compute; reflexivity|]). by apply Forall_nil.
  - rewrite demo_headers. repeat (apply Forall_cons; split); [| | |by apply Forall_nil];
      (intros Hs; try (vm_compute in Hs; discriminate)); split; rewrite ?demo_length; cbn [k_vaddr k_memsz k_filesz k_offset text_seg data_seg]; lia.
  - exists text_seg. rewrite demo_headers. split_and!; [by left|vm_compute; reflexivity|vm_compute; congruence|vm_compute; reflexivity].
Qed.

Lemma demo_loaded : loaded (decode <$> kernel_headers) = [text_seg; data_seg].
Proof. vm_compute. reflexivity. Qed.

Lemma demo_apart : ForallOrdPairs apart [text_seg; data_seg].
Proof.
  apply FOP_cons; [|by apply FOP_cons; [apply Forall_nil|apply FOP_nil]].
  apply Forall_cons. split; [|by apply Forall_nil]. left. by_decide.
Qed.

Lemma demo_range : range_of (decode <$> kernel_headers) = (0x401000, 0x401016).
Proof. vm_compute. reflexivity. Qed.

Lemma load_kernel_elf_correct_witness :
  exists p u' m',
    load_kernel_elf KERNEL_FILE boot_state = Ok (EFI_SUCCESS, Some (mkBootKernel (KERNEL_ADDR + 4) KERNEL_ADDR 22), mkBoot u' m') /\
    pool_block p 168 /\ cells m' KERNEL_ADDR [10; 11; 12; 13; 14; 15; 16; 17] /\ cells m' (KERNEL_ADDR + 16) [20; 21; 0; 0; 0; 0].
Proof.
  destruct (load_kernel_elf_correct KERNEL_FILE kernel_headers 0x401000 0x401016 (b_fw boot_state) boot_mem kernel_bytes)
    as (p & u' & m' & E & Hp & _ & Hc & _); [done|apply demo_kernel_elf|done|apply demo_range|done| | |].
  { apply owned_decide. vm_compute. reflexivity. }
  { intros p ->. split_and!; [done| |by_decide]. apply owned_decide. vm_compute. reflexivity. }
  rewrite demo_loaded in Hc. exists p, u', m'. split_and!; [exact E|exact Hp|..].
  - apply (Hc demo_apart text_seg). left.
  - apply (Hc demo_apart data_seg). right. left.
Defined.

Lemma final_memory_map_and_exit_correct_witness : exited (final_memory_map_and_exit 3 1 boot_state).
Proof.
  destruct (final_memory_map_and_exit_correct 3 1 (b_fw boot_state) boot_mem boot_pool_owned ltac:(discriminate) ltac:(simpl; lia))
    as [E|[_ (u1 & n & s & p & u2 & _ & _ & [= <- _ _] & Es)]]; [exact E|discriminate Es].
Defined.

(** The run of the loader: the kernel starts at its entry point with the map of
    five descriptors, of which the buffer holds four. *)
Example efi_main_runs :
  match efi_main 3 1 boot_state with
  | Ok (h, _) => h = mkHandoff (mkFramebuffer 0x300000 0x80000000 1024 768 1024 1 0xff0000 0xff00 0xff 0)
      (mkRawMap 0x1000 192 48 1) 0x7FE014 (mkBootKernel (KERNEL_ADDR + 4) KERNEL_ADDR 22) (mkBootRamdisk 0x5000 3)
  | _ => False
  end.
Proof. vm_compute. reflexivity. Qed.
